(* ===== verification/_CoqProject ===== *)
-Q . S2P
Prelude.v
Console.v
NetStats.v
ArpCache.v
Pcie.v
VirtioHw.v
VirtioNet.v
Wire.v
NetSend.v
Udp.v
NetProto.v
NetChat.v
EndToEnd.v
Heap.v
PhysMem.v
Queue.v
Shared.v
Sched.v
SchedInv.v
SchedStep.v
Schedule.v
Sync.v
BlockIO.v
Ext2.v
PageTable.v
AddrSpace.v
Vme.v
Vmm.v
VirtioInit.v
VmmThreads.v
UserMem.v
Fork.v
Elf.v
Syscall.v
SyscallFiles.v
SyscallFork.v
SyscallPath.v
SyscallProc.v
SpinLock.v
Machine.v
ThreadMem.v
Entry.v
Descriptors.v
Timer.v
