(* ===== verification/Prelude.v ===== *)
(** * The kernel of Networking_P8: a verification library

    The repository is a small multi-core operating system in C++ with a network
    stack (src/kernel).  This library translates its parts into executable
    functions and proves what makes them correct.

    ** Conventions

    - A w-bit integer is a [Z]; [u8] .. [u64] and [i32] write out the wrap-around.
      Bytes are [list Z], packed structures are read with [load16] and its kin.
    - An operation is a function from state to state.  [None] is an execution that
      stops the machine or has no defined behaviour: a failed assertion, a panic,
      an access outside a buffer, a null pointer that is followed.  So a theorem
      that an operation returns [Some] says that none of this happens.
    - A record is updated by [r .[ f := v ]].
    - The body of a critical section is one step.  Where the code leaves a lock and
      takes it again, the parts are separate definitions, and the theorems are
      about every interleaving of them ([shared_fault_race], the schedules of
      [Schedule], the device steps of [VirtioHw]).
    - A loop that is not structural takes fuel.  Its caller passes a bound that is
      enough (the length that is read, the pages of a range, the entries of a
      table), and the theorems show that the result is [Some], so the fuel does
      not run out.

    ** The parts

    Network.  [NetStats] counters; [ArpCache] the neighbour cache; [Pcie] the scan
    for the card; [VirtioHw] the virtqueues shared with the card, whose behaviour
    is a step relation; [VirtioInit] the discovery and start of the card, in the
    order of its standard (but for one notification that comes too early) and with
    memory of its own, for any card that obeys the laws of [VirtioDevice]; [VirtioNet] the frame interface over the card or the
    in-memory fake; [Wire] packet formats and the Internet checksum; [NetSend],
    [Udp], [NetProto] and [NetChat] the protocols up to the chat; [EndToEnd] two
    machines.  The theorems: every received frame is handled without an access
    outside a buffer, a request is answered with exactly the right frame, the
    cache, the queues and the inbox implement their abstract types, a buffer is
    never given away while the card owns it, and a chat message sent on one
    machine is read on the other.  The interface [UdpCallbacks] is what the
    datagram code knows of the applications; [NetChat] instantiates it.

    Memory.  [Heap] the boundary-tag allocator (blocks tile the heap, live blocks
    are disjoint, every call returns, frees merge); [PhysMem] the frame allocator
    on physical memory; [PageTable] the walks of the four-level tables; [AddrSpace]
    what the tables of an address space mean, a map from pages to frames; [Vme] and
    [Vmm] mappings, [mmap], [munmap], page faults and [fork_from]; [VmmThreads]
    the start and the end of an address space; [UserMem] the accesses of the kernel
    to user memory.  [platform] states what the boot protocol promises of the
    memory map.  The proofs go from physical memory up: [frame_client] says which
    frames are handed out, [aspace] adds the meaning of the tables, and the
    operations of [Vmm] are operations on the map.

    Threads.  [Queue] the intrusive lists; [Sched] cores, context switches and
    condition variables as steps of schedules; [SchedInv], [SchedStep] and
    [Schedule] the invariant and its preservation (no thread is lost, duplicated or
    freed in use; no assertion fails); [Sync] the monitors, each an instance of
    the class [Monitor]: semaphores, locks, barriers, latches, futures and the
    semaphores of [semop].  A schedule has fewer than 2^64 steps, so that the 64-bit
    counters of condition variables do not wrap.

    Below the threads.  [SpinLock] the spin lock, one atomic access a step, on any number
    of cores with interrupts: it is held at most once and never by code that is
    interrupted, which is why a critical section is one step elsewhere.  [Machine] runs
    the instructions of machine.S on registers and byte memory: a thread that calls [context_switch_] comes back with the registers,
    stack and page table it left with, and a new thread enters its first function;
    [Sched] takes this as one step.  [ThreadMem] the control block, the stack and the work of
    a thread as blocks of the [Heap]: allocated by [make_thread], each given back once.  [Entry] the way in and out of the kernel: interrupts
    and page faults are invisible to the code they interrupt, a system call comes
    back to the program with its result; the C++ handler is a parameter there, and
    [Syscall] and [Vmm] model what it does.  [Descriptors] the interrupt and segment
    tables, as the processor reads them: the gates of these entries, the selectors they
    rely on, a task state for every core.  [Timer] the calibration, the tick and [sleep].

    Shared objects.  [Shared] the reference counts of control blocks, for any number of
    threads: no release and no deletion meets freed memory, nor does any copy or assignment
    of threads that use references in turn, exactly what is referenced is
    allocated, and dropping a reference ends.

    Files and programs.  [BlockIO] block devices, with the interface [Backed] that
    says which bytes a device presents; [Ext2] the file system, whose files are
    again instances of [Backed]; [Elf] loading a program and its first stack.

    System calls.  [Syscall] the dispatcher and every call; [Fork] and [SyscallFork] the
    copy of an address space (the child reads what the parent reads, and no
    store of one is seen by the other); [SyscallFiles] reads, descriptors and the
    break; [SyscallPath] the walk of a path; [SyscallProc] the process tree and the
    semaphores, in every state that calls of any threads can lead to.  [Kernel] is
    the kernel as one thread sees it; [sys_step] changes the thread between calls,
    and a call that blocks is resumed as a step of its own.

    ** Not modelled, and why

    The console (debug.cc): pure output; a call of [KPRINT] is left out of the
    functions, and [Console] models what it would print.  Model-specific registers, the
    features of the processor and the order of the start-up (core_main.cc, system_main.cc,
    x86_64.cc, the accesses to ports and control registers in machine.S):
    instructions without state the rest depends on.  The boot loader and its
    structures: not this program.  The TLB: invlpg does not change the tables.  The
    objects on the heap other than those of a thread: the heap is modelled, its other
    clients are not traced to it. *)

From stdpp Require Export prelude list numbers sorting.
From Stdlib Require Export ZArith Lia.

Global Open Scope Z_scope.
Global Set Default Goal Selector "!".

(** ** Record update

    [r .[ f := v ]] is the record [r] with field [f] set to [v]; [Eta] gives
    the eta-expansion of a record type, from which the setter of each field is
    computed. *)

Class Eta (R : Type) := eta_expand : R -> R.
Class Setter {R E : Type} (getter : R -> E) := set_field : E -> R -> R.
Arguments set_field {R E} getter {_} v r.

Ltac solve_setter :=
  lazymatch goal with
  | |- @Setter ?R ?E ?g =>
      let i := constr:(_ : Eta R) in
      let h := eval red in i in
      let p := eval pattern g in h in
      lazymatch p with
      | (fun _ => ?b) _ => fail "the getter is not a field of" R
      | ?body _ =>
          let s := eval cbv beta in (fun (v : E) => body (fun _ : R => v)) in
          exact s
      end
  end.
#[export] Hint Mode Setter + + + : typeclass_instances.
#[export] Hint Extern 1 (Setter _) => solve_setter : typeclass_instances.

Declare Scope update_scope.
Notation "r .[ f := v ]" := (set_field f v r)
  (at level 1, f at level 99, v at level 99, left associativity,
   format "r  .[ f  :=  v ]") : update_scope.
Global Open Scope update_scope.

(** ** Machine integers

    An unsigned integer of width [w] is a [Z]; every operation that can leave
    its range is followed by the reduction the C++ conversion performs. *)

Definition u8 (x : Z) : Z := x mod 256.
Definition u16 (x : Z) : Z := x mod 65536.
Definition u32 (x : Z) : Z := x mod 4294967296.
Definition u64 (x : Z) : Z := x mod 18446744073709551616.

Definition is_u8 (x : Z) : Prop := 0 <= x < 256.
Definition is_u16 (x : Z) : Prop := 0 <= x < 65536.
Definition is_u32 (x : Z) : Prop := 0 <= x < 4294967296.
Definition is_u64 (x : Z) : Prop := 0 <= x < 18446744073709551616.

(** The two's complement reading of the low 32 bits: a conversion to [int]. *)
Definition i32 (x : Z) : Z := (x + 2147483648) mod 4294967296 - 2147483648.

#[export] Instance is_u8_dec x : Decision (is_u8 x).
Proof. unfold is_u8. apply _. Defined.
#[export] Instance is_u16_dec x : Decision (is_u16 x).
Proof. unfold is_u16. apply _. Defined.
#[export] Instance is_u32_dec x : Decision (is_u32 x).
Proof. unfold is_u32. apply _. Defined.
#[export] Instance is_u64_dec x : Decision (is_u64 x).
Proof. unfold is_u64. apply _. Defined.

(** [words] exposes the widths to [lia]. *)
Ltac words := unfold u8, u16, u32, u64, is_u8, is_u16, is_u32, is_u64 in *.
Ltac word_lia := words; Z.div_mod_to_equations; lia.

Create HintDb words discriminated.

Lemma is_u8_u8 x : is_u8 (u8 x).
Proof. word_lia. Qed.
Lemma is_u16_u16 x : is_u16 (u16 x).
Proof. word_lia. Qed.
Lemma is_u32_u32 x : is_u32 (u32 x).
Proof. word_lia. Qed.
Lemma is_u64_u64 x : is_u64 (u64 x).
Proof. word_lia. Qed.
Lemma u8_id x : is_u8 x → u8 x = x.
Proof. word_lia. Qed.
Lemma u16_id x : is_u16 x → u16 x = x.
Proof. word_lia. Qed.
Lemma u32_id x : is_u32 x → u32 x = x.
Proof. word_lia. Qed.
Lemma u64_id x : is_u64 x → u64 x = x.
Proof. word_lia. Qed.
Lemma i32_id x : -2147483648 <= x < 2147483648 → i32 x = x.
Proof. unfold i32. word_lia. Qed.
Lemma is_u8_u16 x : is_u8 x → is_u16 x.
Proof. word_lia. Qed.

#[export] Hint Resolve is_u8_u8 is_u16_u16 is_u32_u32 is_u64_u64 is_u8_u16 : words.

(** Shifts and masks by constants, as quotients and remainders. *)
Lemma land_ones_mod x n m : 0 <= n → m = 2 ^ n - 1 → Z.land x m = x mod 2 ^ n.
Proof. intros Hn ->. rewrite <- Z.land_ones by done. f_equal. rewrite Z.ones_equiv. lia. Qed.
(** Clearing the [k] low bits of a word of [w] bits. *)
Lemma clear_low_bits w x k m :
  0 <= x < 2 ^ w → 0 <= k <= w → m = 2 ^ w - 2 ^ k → Z.land x m = x / 2 ^ k * 2 ^ k.
Proof.
  intros Hx Hk ->.
  assert (2 ^ w - 2 ^ k = Z.shiftl (Z.ones (w - k)) k) as ->.
  { rewrite Z.shiftl_mul_pow2, Z.ones_equiv, Z.mul_pred_l, <- Z.pow_add_r by lia.
    do 2 f_equal. lia. }
  rewrite <- Z.shiftl_mul_pow2, <- Z.shiftr_div_pow2 by lia.
  apply Z.bits_inj'. intros n Hn. rewrite Z.land_spec, !Z.shiftl_spec by lia.
  destruct (decide (n < k)).
  - rewrite !(Z.testbit_neg_r _ (n - k)) by lia. apply andb_false_r.
  - rewrite Z.shiftr_spec by lia. replace (n - k + k) with n by lia.
    rewrite Z.testbit_ones by lia. destruct (decide (n < w)).
    + rewrite (proj2 (Z.leb_le _ _)), (proj2 (Z.ltb_lt _ _)) by lia. apply andb_true_r.
    + rewrite (Z.testbit_eqb x), (Z.div_small x); [done| |lia].
      split; [lia|]. apply Z.lt_le_trans with (2 ^ w); [lia|].
      apply Z.pow_le_mono_r; lia.
Qed.
Lemma clear_low x k m :
  is_u32 x → 0 <= k <= 32 → m = 2 ^ 32 - 2 ^ k → Z.land x m = x / 2 ^ k * 2 ^ k.
Proof. apply (clear_low_bits 32). Qed.
Lemma clear_low64 x k m :
  is_u64 x → 0 <= k <= 64 → m = 2 ^ 64 - 2 ^ k → Z.land x m = x / 2 ^ k * 2 ^ k.
Proof. apply (clear_low_bits 64). Qed.
Lemma shiftr_div x n m : 0 <= n → m = 2 ^ n → Z.shiftr x n = x / m.
Proof. intros Hn ->. by apply Z.shiftr_div_pow2. Qed.
Lemma shiftl_mul x n m : 0 <= n → m = 2 ^ n → Z.shiftl x n = x * m.
Proof. intros Hn ->. by apply Z.shiftl_mul_pow2. Qed.

Lemma lor_disjoint a b n :
  0 <= n → 0 <= b < 2 ^ n → Z.lor (a * 2 ^ n) b = a * 2 ^ n + b.
Proof.
  intros Hn Hb. rewrite <- Z.add_lor_land.
  enough (Z.land (a * 2 ^ n) b = 0) by lia.
  apply Z.bits_inj'. intros i Hi. rewrite Z.land_spec, Z.bits_0.
  destruct (decide (i < n)) as [Hlt|Hge].
  - rewrite Z.mul_pow2_bits_low by lia. done.
  - rewrite (Z.testbit_eqb b) by lia.
    rewrite (Z.div_small b); [by rewrite andb_false_r|].
    split; [lia|]. eapply Z.lt_le_trans; [apply Hb|].
    apply Z.pow_le_mono_r; lia.
Qed.

(** ** Byte order

    The CPU is little-endian and packet fields are big-endian, so the code
    swaps the two bytes of every 16-bit field it reads or writes. *)

Definition bswap16 (x : Z) : Z := u16 (Z.lor (Z.shiftr x 8) (Z.shiftl x 8)).

Lemma bswap16_eq x : is_u16 x → bswap16 x = x mod 256 * 256 + x / 256.
Proof.
  intros Hx. unfold bswap16.
  rewrite (Z.shiftr_div_pow2 x 8), (Z.shiftl_mul_pow2 x 8), Z.lor_comm by lia.
  rewrite lor_disjoint by (change (2 ^ 8) with 256; word_lia).
  change (2 ^ 8) with 256. word_lia.
Qed.

Lemma bswap16_range x : is_u16 (bswap16 x).
Proof. unfold bswap16. auto with words. Qed.

Lemma bswap16_invol x : is_u16 x → bswap16 (bswap16 x) = x.
Proof.
  intros Hx. rewrite (bswap16_eq (bswap16 x)) by apply bswap16_range.
  rewrite bswap16_eq by done. word_lia.
Qed.
#[export] Hint Resolve bswap16_range : words.

(** ** Byte buffers

    A C array of [uint8_t] is a list of bytes.  A read or a write outside the
    array is undefined behaviour, which [None] stands for throughout. *)

Abbreviation bytes := (list Z) (only parsing).

Definition wf_bytes (bs : bytes) : Prop := Forall is_u8 bs.

Definition load_n (p : bytes) (off n : nat) : option bytes :=
  if decide (off + n <= length p)%nat then Some (take n (drop off p)) else None.

Definition store_n (p : bytes) (off : nat) (bs : bytes) : option bytes :=
  if decide (off + length bs <= length p)%nat
  then Some (take off p ++ bs ++ drop (off + length bs) p) else None.

(** A 16-bit load and store of a little-endian CPU. *)
Definition load16 (p : bytes) (off : nat) : Z :=
  nth off p 0 + 256 * nth (S off) p 0.
Definition bytes16 (x : Z) : bytes := [x mod 256; x / 256].

Fixpoint copy_bytes (dst : bytes) (doff : nat) (src : bytes) (soff n : nat) : option bytes :=
  match n with
  | O => Some dst
  | S n' =>
      v ← src !! soff;
      if decide (doff < length dst)%nat
      then copy_bytes (<[doff := v]> dst) (S doff) src (S soff) n'
      else None
  end.

Fixpoint bytes_equal (lhs rhs : bytes) (len : nat) {struct len} : bool :=
  match len with
  | O => true
  | S n =>
      match lhs, rhs with
      | a :: lhs', b :: rhs' => if negb (a =? b) then false else bytes_equal lhs' rhs' n
      | _, _ => false
      end
  end.

Create HintDb buf discriminated.

Lemma load_n_ok p off n :
  (off + n <= length p)%nat → load_n p off n = Some (take n (drop off p)).
Proof. intros. unfold load_n. by rewrite decide_True. Qed.

Lemma load_n_oob p off n : (length p < off + n)%nat → load_n p off n = None.
Proof. intros. unfold load_n. rewrite decide_False by lia. done. Qed.

Lemma load_n_length p off n bs : load_n p off n = Some bs → length bs = n.
Proof.
  unfold load_n. case_decide; intros; simplify_eq.
  rewrite length_take, length_drop. lia.
Qed.

Lemma load_n_app pre mid post :
  load_n (pre ++ mid ++ post) (length pre) (length mid) = Some mid.
Proof.
  rewrite load_n_ok by (rewrite !length_app; lia).
  by rewrite drop_app_length, take_app_length.
Qed.

Lemma store_n_ok p off bs :
  (off + length bs <= length p)%nat →
  store_n p off bs = Some (take off p ++ bs ++ drop (off + length bs) p).
Proof. intros. unfold store_n. by rewrite decide_True. Qed.

Lemma store_n_oob p off bs :
  (length p < off + length bs)%nat → store_n p off bs = None.
Proof. intros. unfold store_n. rewrite decide_False by lia. done. Qed.

Lemma store_n_length p off bs p' : store_n p off bs = Some p' → length p' = length p.
Proof.
  unfold store_n. case_decide; intros; simplify_eq.
  rewrite !length_app, length_take, length_drop. lia.
Qed.

Lemma store_n_app pre mid bs post :
  length mid = length bs →
  store_n (pre ++ mid ++ post) (length pre) bs = Some (pre ++ bs ++ post).
Proof.
  intros Hl. rewrite store_n_ok by (rewrite !length_app; lia).
  rewrite take_app_length. do 3 f_equal.
  rewrite <- Hl, app_assoc, <- length_app. by rewrite drop_app_length.
Qed.

Lemma copy_bytes_ok n dst doff src soff :
  (doff + n <= length dst)%nat → (soff + n <= length src)%nat →
  copy_bytes dst doff src soff n =
    Some (take doff dst ++ take n (drop soff src) ++ drop (doff + n) dst).
Proof.
  revert dst doff soff. induction n as [|n IH]; intros dst doff soff Hd Hs; simpl.
  - rewrite Nat.add_0_r, take_drop. done.
  - destruct (lookup_lt_is_Some_2 src soff) as [v Hv]; [lia|].
    rewrite Hv. simpl. rewrite decide_True by lia.
    rewrite IH by (rewrite ?length_insert; lia).
    rewrite (drop_S src v soff) by done. simpl. f_equal.
    rewrite (take_S_r _ doff v) by (rewrite list_lookup_insert_eq; [done|lia]).
    rewrite take_insert_ge, drop_insert_lt by lia.
    rewrite <- app_assoc. simpl. do 4 f_equal. lia.
Qed.

Lemma copy_bytes_oob n dst doff src soff :
  (0 < n)%nat → (length dst < doff + n ∨ length src < soff + n)%nat →
  copy_bytes dst doff src soff n = None.
Proof.
  revert dst doff soff. induction n as [|n IH]; intros dst doff soff Hn Ho; [lia|]. simpl.
  destruct (src !! soff) as [v|] eqn:Hv; [|done]. simpl.
  apply lookup_lt_Some in Hv.
  case_decide; [|done]. apply IH; rewrite ?length_insert; lia.
Qed.

Lemma copy_bytes_app pre mid post src n :
  length mid = n → (n <= length src)%nat →
  copy_bytes (pre ++ mid ++ post) (length pre) src 0 n =
    Some (pre ++ take n src ++ post).
Proof.
  intros <- Hs. rewrite copy_bytes_ok by (rewrite ?length_app; lia).
  rewrite take_app_length, drop_0. do 3 f_equal.
  rewrite app_assoc, <- length_app. by rewrite drop_app_length.
Qed.

Lemma bytes_equal_spec n lhs rhs :
  (n <= length lhs)%nat → (n <= length rhs)%nat →
  bytes_equal lhs rhs n = bool_decide (take n lhs = take n rhs).
Proof.
  revert lhs rhs. induction n as [|n IH]; intros lhs rhs Hl Hr;
    [by rewrite bool_decide_eq_true_2|].
  destruct lhs as [|a lhs], rhs as [|b rhs]; simpl in *; try lia.
  destruct (Z.eqb_spec a b) as [->|Hne]; simpl.
  - rewrite IH by lia. apply bool_decide_ext. split; congruence.
  - symmetry. apply bool_decide_eq_false. congruence.
Qed.

Lemma bytes_equal_refl n lhs : (n <= length lhs)%nat → bytes_equal lhs lhs n = true.
Proof. intros. rewrite bytes_equal_spec by done. by apply bool_decide_eq_true. Qed.

Lemma bytes16_length x : length (bytes16 x) = 2%nat.
Proof. done. Qed.
Lemma load16_bytes16 x rest : load16 (bytes16 x ++ rest) 0 = x.
Proof. unfold load16, bytes16. simpl. word_lia. Qed.
Lemma bytes16_wf x : is_u16 x → wf_bytes (bytes16 x).
Proof. intros. unfold bytes16, wf_bytes. repeat constructor; word_lia. Qed.

Lemma load16_app_r pre p off : load16 (pre ++ p) (length pre + off) = load16 p off.
Proof.
  unfold load16. rewrite !app_nth2 by lia.
  do 2 f_equal; [f_equal; lia|]. f_equal. f_equal. lia.
Qed.

Lemma load16_take p off n : (off + 2 <= n)%nat → load16 (take n p) off = load16 p off.
Proof.
  intros. unfold load16. rewrite !nth_lookup.
  rewrite !lookup_take. rewrite !decide_True by lia. done.
Qed.

Lemma wf_nth p i : wf_bytes p → is_u8 (nth i p 0).
Proof.
  intros Hp. destruct (decide (i < length p)%nat).
  - eapply Forall_nth; [exact Hp|done].
  - rewrite nth_overflow by lia. word_lia.
Qed.

Lemma load16_range p off : wf_bytes p → is_u16 (load16 p off).
Proof.
  intros Hp. unfold load16.
  pose proof (wf_nth p off Hp). pose proof (wf_nth p (S off) Hp). word_lia.
Qed.

(** Recover a buffer from a field and what surrounds it. *)
Lemma bytes16_load16 p :
  wf_bytes p → (2 <= length p)%nat → bytes16 (load16 p 0) = take 2 p.
Proof.
  intros Hp Hl. destruct p as [|a [|b p]]; simpl in Hl; try lia.
  unfold load16, bytes16. simpl.
  inversion Hp as [|?? Ha Hp']; subst. inversion Hp' as [|?? Hb ?]; subst.
  f_equal; [word_lia|]. f_equal. word_lia.
Qed.

Lemma wf_bytes_app p q : wf_bytes (p ++ q) ↔ wf_bytes p ∧ wf_bytes q.
Proof. apply Forall_app. Qed.
Lemma wf_bytes_take n p : wf_bytes p → wf_bytes (take n p).
Proof. apply Forall_take. Qed.
Lemma wf_bytes_drop n p : wf_bytes p → wf_bytes (drop n p).
Proof. apply Forall_drop. Qed.
Lemma wf_bytes_zeros n : wf_bytes (replicate n 0).
Proof. apply Forall_replicate. word_lia. Qed.

#[export] Hint Resolve wf_bytes_take wf_bytes_drop wf_bytes_zeros load16_range bytes16_wf : words.

(** ** Lists as arrays

    Word arrays indexed by machine integers; an index outside the array is
    undefined behaviour. *)

Definition rd {A} (a : list A) (i : Z) : option A :=
  if i <? 0 then None else a !! Z.to_nat i.
Definition wr {A} (a : list A) (i : Z) (v : A) : option (list A) :=
  if (i <? 0) || (Z.of_nat (length a) <=? i) then None else Some (<[Z.to_nat i := v]> a).

Lemma rd_Some {A} (a : list A) i :
  0 <= i < Z.of_nat (length a) → is_Some (rd a i).
Proof. intros. unfold rd. rewrite (proj2 (Z.ltb_ge _ _)) by lia. apply lookup_lt_is_Some. lia. Qed.
Lemma rd_lt {A} (a : list A) i v : rd a i = Some v → 0 <= i < Z.of_nat (length a).
Proof.
  unfold rd. destruct (Z.ltb_spec i 0); [done|]. intros Hl%lookup_lt_Some. lia.
Qed.
Lemma wr_ok {A} (a : list A) i v :
  0 <= i < Z.of_nat (length a) → wr a i v = Some (<[Z.to_nat i := v]> a).
Proof.
  intros. unfold wr. rewrite (proj2 (Z.ltb_ge _ _)), (proj2 (Z.leb_gt _ _)) by lia. done.
Qed.
Lemma rd_insert_eq {A} (a : list A) i v :
  0 <= i < Z.of_nat (length a) → rd (<[Z.to_nat i := v]> a) i = Some v.
Proof.
  intros. unfold rd. rewrite (proj2 (Z.ltb_ge _ _)) by lia. apply list_lookup_insert_eq. lia.
Qed.
Lemma rd_insert_ne {A} (a : list A) i j v :
  0 <= i → i ≠ j → rd (<[Z.to_nat i := v]> a) j = rd a j.
Proof.
  intros. unfold rd. destruct (Z.ltb_spec j 0); [done|]. apply list_lookup_insert_ne. lia.
Qed.

Lemma filter_Forall {A} (P : A → Prop) `{∀ x, Decision (P x)} l :
  Forall P l → filter P l = l.
Proof. induction 1; [done|]. rewrite filter_cons_True by done. by f_equal. Qed.

(** The value of the first element on which [f] succeeds: a search loop. *)
Fixpoint first_some {A B} (f : A → option B) (l : list A) : option B :=
  match l with
  | [] => None
  | x :: l' => match f x with Some y => Some y | None => first_some f l' end
  end.

Lemma first_some_Some {A B} (f : A → option B) l y :
  first_some f l = Some y ↔
  ∃ l1 x l2, l = l1 ++ x :: l2 ∧ f x = Some y ∧ Forall (λ z, f z = None) l1.
Proof.
  split.
  - induction l as [|x l IH]; simpl; [done|].
    destruct (f x) as [z|] eqn:Hx; intros H.
    + simplify_eq. exists [], x, l. done.
    + destruct (IH H) as (l1 & x' & l2 & -> & ? & ?). exists (x :: l1), x', l2.
      repeat split; [done|]. by constructor.
  - intros (l1 & x & l2 & -> & Hx & Hl1). induction Hl1 as [|z l1 Hz _ IH]; simpl.
    + by rewrite Hx.
    + by rewrite Hz.
Qed.

Lemma first_some_None {A B} (f : A → option B) l :
  first_some f l = None ↔ ∀ x, x ∈ l → f x = None.
Proof.
  induction l as [|x l IH]; simpl.
  - split; [|done]. intros _ x Hx. inversion Hx.
  - destruct (f x) eqn:Hx.
    + split; [done|]. intros H. rewrite (H x) in Hx by left. done.
    + rewrite IH. setoid_rewrite elem_of_cons. naive_solver.
Qed.

(** Where a loop over [seqZ] stands when it has reached [x]. *)
Lemma seqZ_split_at m n l1 x l2 :
  seqZ m n = l1 ++ x :: l2 → (m <= x < m + n) ∧ (∀ y, m <= y < x → y ∈ l1).
Proof.
  intros Hs.
  assert (seqZ m n !! length l1 = Some x) as [Hx Hlt]%lookup_seqZ by (rewrite Hs; by apply list_lookup_middle).
  split; [lia|]. intros y Hy.
  assert (seqZ m n !! Z.to_nat (y - m) = Some y) as Hl by (apply lookup_seqZ; lia).
  rewrite Hs, lookup_app_l in Hl by lia. by eapply list_elem_of_lookup_2.
Qed.

#[global] Arguments bytes_equal : simpl never.
#[global] Arguments copy_bytes : simpl never.
#[global] Arguments bytes16 : simpl never.
#[global] Arguments load16 : simpl never.
#[global] Arguments bswap16 : simpl never.
