(* ===== verification/Console.v ===== *)
(** * Printing ([print.h])

    What reaches the console: decimal and hexadecimal numbers, and the two
    formatters, [xprint] ([KPRINT], whose holes are question marks and are filled at
    compile time) and [print] (whose holes are a pair of braces).  A text is the
    list of its bytes; [None] is a format the compiler refuses or a value whose
    printing overflows. *)

From Stdlib Require Import String Ascii.
From S2P Require Import Prelude.

Fixpoint text (s : string) : bytes :=
  match s with
  | EmptyString => []
  | String c s => Z.of_N (N_of_ascii c) :: text s
  end.

(** What can fill a hole: [Dec<T>] for a [T] of [width] bits, a boolean, an integer
    type of [width] bits (in hexadecimal), a string, a [Char]. *)
Inductive Arg :=
| Dec (signed : bool) (width v : Z) | Bool (b : bool) | Hex (signed : bool) (width v : Z) | Str (s : bytes) | Char (c : Z).

Definition hex_digits : bytes := text "0123456789abcdef".
Definition hex_digit (d : Z) : Z := hex_digits !!! Z.to_nat d.

Definition hex8 (v : Z) : bytes := [hex_digit (Z.shiftr v 4); hex_digit (Z.land v 0x0f)].
Definition hex16 (v : Z) : bytes := hex8 (u8 (Z.shiftr v 8)) ++ hex8 (u8 (Z.land v 0xff)).
Definition hex32 (v : Z) : bytes := hex16 (u16 (Z.shiftr v 16)) ++ hex16 (u16 (Z.land v 0xffff)).
Definition hex64 (v : Z) : bytes := hex32 (u32 (Z.shiftr v 32)) ++ hex32 (u32 (Z.land v 0xffffffff)).

(** [do_print(Dec<T>)] for an unsigned [T]; the fuel is the number of digits. *)
Fixpoint print_unsigned (fuel : nat) (v : Z) : option bytes :=
  match fuel with
  | O => None
  | S fuel =>
      if v =? 0 then Some [48]
      else
        let r := v mod 10 in
        let q := v / 10 in
        front ← (if 0 <? q then print_unsigned fuel q else Some []);
        Some (front ++ [48 + r])
  end.

(** For a signed [T] the negation is done on an [int] or a wider type. *)
Definition print_dec (signed : bool) (width v : Z) : option bytes :=
  if signed && (v <? 0) then
    if (32 <=? width) && (v =? - 2 ^ (width - 1)) then None
    else ds ← print_unsigned 20 ((- v) mod 2 ^ width); Some (45 :: ds)
  else print_unsigned 20 v.

(** The overloads for integers; a signed one converts to the unsigned type of its width. *)
Definition print_hex (signed : bool) (width v : Z) : bytes :=
  if width =? 8 then hex8 (if signed then u8 v else v)
  else if width =? 16 then hex16 (if signed then u16 v else v)
  else if width =? 32 then hex32 (if signed then u32 v else v)
  else hex64 (if signed then u64 v else v).

Definition do_print (a : Arg) : option bytes :=
  match a with
  | Dec signed width v => print_dec signed width v
  | Bool b => Some (text (if b then "true" else "false"))
  | Hex signed width v => Some (print_hex signed width v)
  | Str s => Some s
  | Char c => Some [c]
  end.

Definition hole : Z := 63.

Fixpoint xprint (str : bytes) (args : list Arg) : option bytes :=
  match args with
  | [] => Some str
  | arg :: rest =>
      match str with
      | [] => None
      | c :: str =>
          if c =? hole then o ← do_print arg; out ← xprint str rest; Some (o ++ out)
          else out ← xprint str args; Some (c :: out)
      end
  end.

(** The runtime formatter; text that ends early is marked, and the arguments
    that are left are dropped. *)
Fixpoint print (msg : bytes) (args : list Arg) : option bytes :=
  match args with
  | [] => Some msg
  | arg :: rest =>
      match msg with
      | [] => Some (text " ...")
      | c1 :: msg =>
          if c1 =? 123 then
            match msg with
            | c2 :: msg' =>
                if c2 =? 125 then o ← do_print arg; out ← print msg' rest; Some (o ++ out)
                else out ← print msg args; Some (c1 :: out)
            | [] => out ← print msg args; Some (c1 :: out)
            end
          else out ← print msg args; Some (c1 :: out)
      end
  end.

Example xprint_demo :
  xprint (text "ip ?.? up? ?!") [Dec false 8 10; Dec true 32 (-42); Bool true; Hex false 16 0xbeef] =
    Some (text "ip 10.-42 uptrue beef!").
Proof. reflexivity. Qed.
Example print_demo : print (text "{}{x} {}") [Hex false 8 10; Dec false 64 7; Bool true] = Some (text "0a{x} 7 ...").
Proof. reflexivity. Qed.

(** ** Numbers are read back *)

Definition digit_value (c : Z) : Z := if c <=? 57 then c - 48 else c - 87.
Fixpoint read_number (base acc : Z) (s : bytes) : Z :=
  match s with [] => acc | c :: s => read_number base (acc * base + digit_value c) s end.

Lemma read_number_app base acc s t : read_number base acc (s ++ t) = read_number base (read_number base acc s) t.
Proof. revert acc. induction s as [|c s IH]; intros acc; [done|]. apply IH. Qed.

Lemma hex_digit_value d : 0 <= d < 16 → digit_value (hex_digit d) = d.
Proof.
  intros Hd. assert (d ∈ seqZ 0 16) as Hin by (by apply elem_of_seqZ). revert Hin. clear.
  assert (Forall (λ d, digit_value (hex_digit d) = d) (seqZ 0 16)) as Hall by (by apply (bool_decide_unpack _)).
  rewrite Forall_forall in Hall. apply Hall.
Qed.

(** [f] prints [n] digits that are the value. *)
Definition prints_hex (f : Z → bytes) (n : nat) : Prop :=
  ∀ v, 0 <= v < 16 ^ Z.of_nat n → length (f v) = n ∧ ∀ acc, read_number 16 acc (f v) = acc * 16 ^ Z.of_nat n + v.

Lemma hex8_prints : prints_hex hex8 2.
Proof.
  intros v Hv. change (16 ^ Z.of_nat 2) with 256 in *. split; [done|]. intros acc. cbn [hex8 read_number].
  change 0x0f with (Z.ones 4). rewrite Z.land_ones, Z.shiftr_div_pow2 by lia. change (2 ^ 4) with 16.
  rewrite !hex_digit_value by (Z.div_mod_to_equations; lia). Z.div_mod_to_equations; lia.
Qed.

(** Two halves. *)
Lemma halves_print f n k w :
  prints_hex f n → 16 ^ Z.of_nat n = 2 ^ k → 0 <= k → w = 2 ^ k →
  prints_hex (λ v, f (Z.shiftr v k mod w) ++ f (Z.land v (2 ^ k - 1) mod w)) (n + n).
Proof.
  intros Hf E Hk -> v Hv. rewrite Nat2Z.inj_add, Z.pow_add_r, E in * by lia. assert (0 < 2 ^ k) by (apply Z.pow_pos_nonneg; lia).
  assert (Z.land v (2 ^ k - 1) = v mod 2 ^ k) as -> by (rewrite <- Z.land_ones by done; f_equal; rewrite Z.ones_equiv; lia).
  rewrite Z.shiftr_div_pow2 by done. assert (0 <= v / 2 ^ k < 2 ^ k) by (split; [apply Z.div_pos; lia|apply Z.div_lt_upper_bound; lia]).
  pose proof (Z.mod_pos_bound v (2 ^ k) ltac:(lia)). rewrite !Z.mod_small by lia.
  destruct (Hf (v / 2 ^ k)) as [L1 R1]; [by rewrite E|]. destruct (Hf (v mod 2 ^ k)) as [L2 R2]; [by rewrite E|]. split.
  - by rewrite length_app, L1, L2.
  - intros acc. rewrite read_number_app, R1, R2, E. pose proof (Z.div_mod v (2 ^ k) ltac:(lia)). nia.
Qed.

Lemma hex16_prints : prints_hex hex16 4.
Proof. exact (halves_print hex8 2 8 256 hex8_prints eq_refl ltac:(lia) eq_refl). Qed.
Lemma hex32_prints : prints_hex hex32 8.
Proof. exact (halves_print hex16 4 16 65536 hex16_prints eq_refl ltac:(lia) eq_refl). Qed.
Lemma hex64_prints : prints_hex hex64 16.
Proof. exact (halves_print hex32 8 32 4294967296 hex32_prints eq_refl ltac:(lia) eq_refl). Qed.

Definition is_digit (c : Z) : Prop := 48 <= c < 58.

(** No leading zero, except in zero itself. *)
Definition canonical (v : Z) (s : bytes) : Prop := (v = 0 → s = [48]) ∧ (0 < v → ∀ c, head s = Some c → c ≠ 48).

Lemma print_unsigned_ok n : ∀ v, 0 <= v < 10 ^ Z.of_nat n → (0 < n)%nat →
  ∃ s, print_unsigned n v = Some s ∧ Forall is_digit s ∧ (0 < length s <= n)%nat ∧ canonical v s
    ∧ ∀ acc, 0 < v → read_number 10 acc s = acc * 10 ^ Z.of_nat (length s) + v.
Proof.
  induction n as [|n IH]; intros v Hv Hn; [lia|]. cbn [print_unsigned]. destruct (Z.eqb_spec v 0) as [->|Hne].
  - exists [48]. split_and!; [done|by repeat constructor|cbn; lia|cbn; lia| |lia]. split; [done|lia].
  - rewrite Nat2Z.inj_succ, Z.pow_succ_r in Hv by lia. pose proof (Z.div_mod v 10 ltac:(lia)) as Ed.
    pose proof (Z.mod_pos_bound v 10 ltac:(lia)) as Hm. assert (digit_value (48 + v mod 10) = v mod 10) as Edig.
    { unfold digit_value. rewrite (proj2 (Z.leb_le _ _)) by lia. lia. }
    destruct (Z.ltb_spec 0 (v / 10)) as [Hq|Hq].
    + assert (0 <= v / 10 < 10 ^ Z.of_nat n) as Hq2 by (split; [lia|apply Z.div_lt_upper_bound; lia]).
      assert (0 < n)%nat as Hn2 by (destruct n; [cbn in Hq2; lia|lia]).
      destruct (IH _ Hq2 Hn2) as (s & -> & Hs & Hl & [_ Hc] & Hr). cbn [mbind option_bind].
      exists (s ++ [48 + v mod 10]). rewrite length_app. cbn [length]. split_and!; [done| |lia|lia| |].
      * apply Forall_app. split; [done|]. repeat constructor; lia.
      * split; [lia|]. intros _ c. destruct s as [|x s]; [cbn in Hl; lia|]. cbn. intros [= <-]. by apply Hc.
      * intros acc _. rewrite read_number_app, Hr by done. cbn [read_number]. rewrite Edig, Nat2Z.inj_add, Z.pow_add_r by lia.
        change (10 ^ Z.of_nat 1) with 10. lia.
    + cbn [mbind option_bind app]. exists [48 + v mod 10]. assert (v / 10 = 0) by (pose proof (Z.div_pos v 10); lia).
      split_and!; [done|repeat constructor; lia|cbn; lia|cbn; lia| |].
      * split; [lia|]. intros _ c [= <-]. lia.
      * intros acc _. cbn [read_number length]. rewrite Edig. change (10 ^ Z.of_nat 1) with 10. lia.
Qed.

(** The conversion of a value of a type of [width] bits to the unsigned type. *)
Lemma print_hex_unsigned width n signed v :
  (width, n) ∈ [(8, 2%nat); (16, 4%nat); (32, 8%nat); (64, 16%nat)] →
  (if signed : bool then - 2 ^ (width - 1) <= v < 2 ^ (width - 1) else 0 <= v < 2 ^ width) →
  length (print_hex signed width v) = n ∧ read_number 16 0 (print_hex signed width v) = v mod 2 ^ width.
Proof.
  intros Hw Hv. assert (∀ f, prints_hex f n → 16 ^ Z.of_nat n = 2 ^ width → print_hex signed width v = f (if signed then v mod 2 ^ width else v) →
    length (print_hex signed width v) = n ∧ read_number 16 0 (print_hex signed width v) = v mod 2 ^ width) as Hf.
  { intros f Hf E ->. assert ((if signed then v mod 2 ^ width else v) = v mod 2 ^ width) as ->.
    { destruct signed; [done|]. by rewrite Z.mod_small. }
    destruct (Hf (v mod 2 ^ width)) as [L R]; [rewrite E; apply Z.mod_pos_bound; rewrite <- E; apply Z.pow_pos_nonneg; lia|].
    split; [exact L|]. specialize (R 0). by rewrite Z.mul_0_l in R. }
  rewrite !elem_of_cons in Hw.
  destruct Hw as [E|[E|[E|[E|E%not_elem_of_nil]]]]; [apply pair_equal_spec in E as [-> ->]..|contradiction].
  - by apply (Hf hex8 hex8_prints).
  - by apply (Hf hex16 hex16_prints).
  - by apply (Hf hex32 hex32_prints).
  - by apply (Hf hex64 hex64_prints).
Qed.

(** C39: Numbers are printed so that they can be read back.  In decimal: an unsigned value of up to 64
    bits as at most 20 digits without a leading zero, a value of a signed type that is not negative as
    the same digits, a negative one as a minus sign and the digits of its absolute value; the exception
    is the smallest value of a type of 32 bits or more, whose negation overflows.  In hexadecimal: a
    value of 8, 16, 32 or 64 bits as exactly the digits of its width, which read as the value modulo
    two to the width: the value itself when it is not negative, its two's complement when it is. *)
Theorem numbers_read_back :
  (∀ width v, 0 <= v < 2 ^ 64 → ∃ s, print_dec false width v = Some s ∧ print_dec true width v = Some s
     ∧ Forall is_digit s ∧ (length s <= 20)%nat ∧ canonical v s ∧ read_number 10 0 s = v)
  ∧ (∀ width v, 8 <= width <= 64 → - 2 ^ (width - 1) <= v < 0 →
     if (32 <=? width) && (v =? - 2 ^ (width - 1)) then print_dec true width v = None
     else ∃ s, print_dec true width v = Some (45 :: s) ∧ Forall is_digit s ∧ canonical (- v) s ∧ read_number 10 0 s = - v)
  ∧ ∀ width n signed v, (width, n) ∈ [(8, 2%nat); (16, 4%nat); (32, 8%nat); (64, 16%nat)] →
     (if signed : bool then - 2 ^ (width - 1) <= v < 2 ^ (width - 1) else 0 <= v < 2 ^ width) →
     length (print_hex signed width v) = n ∧ read_number 16 0 (print_hex signed width v) = v mod 2 ^ width.
Proof.
  assert (10 ^ Z.of_nat 20 = 100000000000000000000) as E20 by reflexivity. assert (2 ^ 64 = 18446744073709551616) as E64 by reflexivity.
  split_and!; [..|exact print_hex_unsigned].
  - intros width v Hv. destruct (print_unsigned_ok 20 v) as (s & E & Hs & Hl & Hc & Hr); [lia|lia|].
    exists s. unfold print_dec. rewrite (proj2 (Z.ltb_ge v 0)) by lia. cbn [andb]. split_and!; [done|done|done|lia|done|].
    destruct (decide (v = 0)) as [->|]; [by rewrite (proj1 Hc)|]. rewrite Hr by lia. lia.
  - intros width v Hw Hv. assert (2 ^ width = 2 * 2 ^ (width - 1)) as Ew by (rewrite <- Z.pow_succ_r by lia; f_equal; lia).
    assert (2 ^ (width - 1) <= 2 ^ 63) as Hle by (apply Z.pow_le_mono_r; lia). change (2 ^ 63) with 9223372036854775808 in Hle.
    unfold print_dec. rewrite (proj2 (Z.ltb_lt v 0)) by lia. cbn [andb]. destruct (_ && _); [done|].
    rewrite Z.mod_small by lia. destruct (print_unsigned_ok 20 (- v)) as (s & -> & Hs & _ & Hc & Hr); [lia|lia|].
    cbn [mbind option_bind]. exists s. split_and!; [done|done|done|]. rewrite Hr by lia. lia.
Qed.

(** ** The formatter *)

(** The pieces of a format, with something between each two. *)
Fixpoint fill (pieces holes : list bytes) : bytes :=
  match pieces, holes with
  | p :: pieces, h :: holes => p ++ h ++ fill pieces holes
  | p :: _, [] => p
  | [], _ => []
  end.

Lemma xprint_done str : xprint str [] = Some str.
Proof. by destruct str. Qed.

Lemma xprint_piece p str args : hole ∉ p → args ≠ [] → xprint (p ++ str) args = (out ← xprint str args; Some (p ++ out)).
Proof.
  intros Hp Ha. induction p as [|c p IH].
  - cbn. by destruct (xprint str args).
  - rewrite not_elem_of_cons in Hp. destruct Hp as [Hc Hp]. destruct args as [|a args]; [done|]. cbn [app xprint].
    rewrite (proj2 (Z.eqb_neq c hole)) by congruence. rewrite IH by done. by destruct (xprint str (a :: args)).
Qed.

(** Every question mark takes the next argument: the text between them is printed as it is, and so
    is what follows the last argument, question marks included. *)
Theorem xprint_fills pieces args outs rest :
  mapM do_print args = Some outs → length pieces = length args → Forall (λ p, hole ∉ p) pieces →
  xprint (fill (pieces ++ [rest]) (replicate (length args) [hole])) args = Some (fill (pieces ++ [rest]) outs).
Proof.
  intros Ho. apply mapM_Some in Ho. revert pieces. induction Ho as [|a o args outs Ha _ IH]; intros pieces Hl Hp.
  - destruct pieces; [apply xprint_done|done].
  - destruct pieces as [|p pieces]; [done|]. apply Forall_cons in Hp as [Hp Hps]. cbn [app fill length replicate].
    rewrite xprint_piece by done. cbn [app xprint]. rewrite Z.eqb_refl, Ha. cbn [mbind option_bind].
    rewrite IH by (done || by injection Hl). done.
Qed.

(** A format with fewer question marks than arguments does not compile. *)
Lemma xprint_too_few args : ∀ str, (length (filter (λ c, c = hole) str) < length args)%nat → xprint str args = None.
Proof.
  induction args as [|a args IH]; intros str Hl; [cbn in Hl; lia|]. induction str as [|c str IHs]; [done|]. cbn [xprint].
  rewrite filter_cons in Hl. destruct (Z.eqb_spec c hole) as [->|Hc].
  - rewrite decide_True in Hl by done. cbn [length] in Hl. rewrite IH by lia. by destruct (do_print a).
  - rewrite decide_False in Hl by done. by rewrite IHs.
Qed.

(** The line of [virtio_net_init_pci] with the address of the card. *)
Definition mac_format : bytes := text "net: mac ??:??:??:??:??:??".
Definition mac_line (m0 m1 m2 m3 m4 m5 : Z) : option bytes := xprint mac_format (Hex false 8 <$> [m0; m1; m2; m3; m4; m5]).

(** Its twelve question marks want twelve arguments: the six bytes fill the first three groups, and
    the other three are printed as question marks. *)
Theorem mac_line_garbled m0 m1 m2 m3 m4 m5 :
  mac_line m0 m1 m2 m3 m4 m5 =
    Some (text "net: mac " ++ hex8 m0 ++ hex8 m1 ++ text ":" ++ hex8 m2 ++ hex8 m3 ++ text ":" ++ hex8 m4 ++ hex8 m5 ++ text ":??:??:??").
Proof.
  exact (xprint_fills [text "net: mac "; []; text ":"; []; text ":"; []] (Hex false 8 <$> [m0; m1; m2; m3; m4; m5])
    (hex8 <$> [m0; m1; m2; m3; m4; m5]) (text ":??:??:??") eq_refl eq_refl ltac:(by apply (bool_decide_unpack _))).
Qed.

Lemma numbers_read_back_witness :
  print_dec false 64 18446744073709551615 = Some (text "18446744073709551615") ∧ print_dec true 64 (- 2 ^ 63) = None
  ∧ read_number 16 0 (print_hex true 32 (-2)) = 4294967294.
Proof.
  destruct numbers_read_back as (_ & Hd & Hh). split; [vm_compute; reflexivity|]. split.
  - apply (Hd 64 (- 2 ^ 63)); split; vm_compute; congruence.
  - apply (Hh 32 8%nat true (-2)); [by right; right; left|split; vm_compute; congruence].
Defined.
