(* ===== verification/NetStats.v ===== *)
(** * Packet counters (kernel/net_stats.h, kernel/net_stats.cc)

    The global [g_stats] is a record of fifteen 64-bit counters; every access
    runs under [g_stats_lock], so each operation is one atomic state change.
    [net_stats_print] only formats a snapshot and is not modelled. *)

From S2P Require Import Prelude.

Record NetStats := mkNetStats {
  raw_rx : Z; raw_tx : Z; arp_rx : Z; arp_tx : Z; ipv4_rx : Z; ipv4_tx : Z;
  icmp_rx : Z; icmp_tx : Z; udp_rx : Z; udp_tx : Z;
  dropped_short : Z; dropped_bad_checksum : Z; dropped_not_for_me : Z;
  dropped_unknown_ethertype : Z; dropped_unknown_ipv4_protocol : Z
}.

#[export] Instance eta_NetStats : Eta NetStats := fun s =>
  mkNetStats (raw_rx s) (raw_tx s) (arp_rx s) (arp_tx s) (ipv4_rx s) (ipv4_tx s)
    (icmp_rx s) (icmp_tx s) (udp_rx s) (udp_tx s) (dropped_short s)
    (dropped_bad_checksum s) (dropped_not_for_me s)
    (dropped_unknown_ethertype s) (dropped_unknown_ipv4_protocol s).

Inductive NetStatCounter :=
  | RawRx | RawTx | ArpRx | ArpTx | Ipv4Rx | Ipv4Tx | IcmpRx | IcmpTx
  | UdpRx | UdpTx | DroppedShort | DroppedBadChecksum | DroppedNotForMe
  | DroppedUnknownEthertype | DroppedUnknownIpv4Protocol.

#[export] Instance NetStatCounter_eq_dec : EqDecision NetStatCounter.
Proof. solve_decision. Defined.

(** A C++ reference into [NetStats]: how to read and how to write through it. *)
Record Ref := mkRef { ref_get : NetStats → Z; ref_set : Z → NetStats → NetStats }.

Definition counter_ref (counter : NetStatCounter) : Ref :=
  match counter with
  | RawRx => mkRef raw_rx (fun v s => s .[ raw_rx := v ])
  | RawTx => mkRef raw_tx (fun v s => s .[ raw_tx := v ])
  | ArpRx => mkRef arp_rx (fun v s => s .[ arp_rx := v ])
  | ArpTx => mkRef arp_tx (fun v s => s .[ arp_tx := v ])
  | Ipv4Rx => mkRef ipv4_rx (fun v s => s .[ ipv4_rx := v ])
  | Ipv4Tx => mkRef ipv4_tx (fun v s => s .[ ipv4_tx := v ])
  | IcmpRx => mkRef icmp_rx (fun v s => s .[ icmp_rx := v ])
  | IcmpTx => mkRef icmp_tx (fun v s => s .[ icmp_tx := v ])
  | UdpRx => mkRef udp_rx (fun v s => s .[ udp_rx := v ])
  | UdpTx => mkRef udp_tx (fun v s => s .[ udp_tx := v ])
  | DroppedShort => mkRef dropped_short (fun v s => s .[ dropped_short := v ])
  | DroppedBadChecksum =>
      mkRef dropped_bad_checksum (fun v s => s .[ dropped_bad_checksum := v ])
  | DroppedNotForMe =>
      mkRef dropped_not_for_me (fun v s => s .[ dropped_not_for_me := v ])
  | DroppedUnknownEthertype =>
      mkRef dropped_unknown_ethertype (fun v s => s .[ dropped_unknown_ethertype := v ])
  | DroppedUnknownIpv4Protocol =>
      mkRef dropped_unknown_ipv4_protocol
        (fun v s => s .[ dropped_unknown_ipv4_protocol := v ])
  end.

Definition net_stats_reset : NetStats := mkNetStats 0 0 0 0 0 0 0 0 0 0 0 0 0 0 0.

Definition net_stats_increment (counter : NetStatCounter) (g_stats : NetStats) : NetStats :=
  let r := counter_ref counter in
  ref_set r (u64 (ref_get r g_stats + 1)) g_stats.

(** The snapshot is a copy of the record. *)
Definition net_stats_snapshot (g_stats : NetStats) : NetStats := g_stats.

(** ** Specification: one number per counter *)

Definition counter_val (s : NetStats) (c : NetStatCounter) : Z := ref_get (counter_ref c) s.

Fixpoint count_of (c : NetStatCounter) (cs : list NetStatCounter) : Z :=
  match cs with
  | [] => 0
  | d :: cs' => (if decide (d = c) then 1 else 0) + count_of c cs'
  end.

Definition increments (cs : list NetStatCounter) (s : NetStats) : NetStats :=
  foldl (fun s c => net_stats_increment c s) s cs.

Lemma counter_ref_get_set c d v s :
  ref_get (counter_ref d) (ref_set (counter_ref c) v s) =
    if decide (c = d) then v else ref_get (counter_ref d) s.
Proof. destruct c, d; reflexivity. Qed.

Lemma increment_val c d s :
  counter_val (net_stats_increment c s) d =
    if decide (c = d) then u64 (counter_val s d + 1) else counter_val s d.
Proof.
  unfold counter_val, net_stats_increment. rewrite counter_ref_get_set.
  case_decide; by subst.
Qed.

Lemma counter_val_ext s s' : (∀ c, counter_val s c = counter_val s' c) → s = s'.
Proof.
  intros H. destruct s, s'.
  pose proof (H RawRx); pose proof (H RawTx); pose proof (H ArpRx); pose proof (H ArpTx);
  pose proof (H Ipv4Rx); pose proof (H Ipv4Tx); pose proof (H IcmpRx); pose proof (H IcmpTx);
  pose proof (H UdpRx); pose proof (H UdpTx); pose proof (H DroppedShort);
  pose proof (H DroppedBadChecksum); pose proof (H DroppedNotForMe);
  pose proof (H DroppedUnknownEthertype); pose proof (H DroppedUnknownIpv4Protocol).
  unfold counter_val in *. cbn in *. by subst.
Qed.

Lemma increments_val cs c s :
  is_u64 (counter_val s c) →
  counter_val (increments cs s) c = u64 (counter_val s c + count_of c cs).
Proof.
  revert s. induction cs as [|d cs IH]; intros s Hs; simpl.
  - rewrite u64_id; [lia|]. by rewrite Z.add_0_r.
  - rewrite IH; rewrite increment_val; case_decide; auto with words; word_lia.
Qed.


(** After a reset, every counter holds the number of its increments modulo
    2^64; increments of one counter never disturb another. *)
Theorem net_stats_count cs c :
  counter_val (net_stats_snapshot (increments cs net_stats_reset)) c = u64 (count_of c cs).
Proof.
  assert (counter_val net_stats_reset c = 0) as H0 by (by destruct c).
  unfold net_stats_snapshot. rewrite increments_val; rewrite H0; [done|word_lia].
Qed.
