(* ===== verification/ArpCache.v ===== *)
(** * ARP cache (kernel/arp_cache.h, kernel/arp_cache.cc)

    Eight slots [g_arp_cache] and a 64-bit clock [g_arp_cache_clock]; every
    operation runs under [g_arp_cache_lock], so it is one atomic state change.
    Pointer arguments are [option bytes] ([None] is [nullptr]); a result [None]
    is an access outside the array the pointer addresses.  The file proves that
    the slots implement a bounded least-recently-used map. *)

From S2P Require Import Prelude.

Definition ARP_CACHE_CAPACITY : nat := 8.

Record ArpEntry := mkArpEntry {
  valid : bool; ip : bytes; mac : bytes; last_seen : Z
}.
#[export] Instance eta_ArpEntry : Eta ArpEntry := fun e =>
  mkArpEntry (valid e) (ip e) (mac e) (last_seen e).

Definition ArpEntry_zero : ArpEntry :=
  mkArpEntry false (replicate 4 0) (replicate 6 0) 0.
#[export] Instance ArpEntry_inhabited : Inhabited ArpEntry := populate ArpEntry_zero.

Record ArpCache := mkArpCache {
  g_arp_cache : list ArpEntry; g_arp_cache_clock : Z
}.
#[export] Instance eta_ArpCache : Eta ArpCache := fun c =>
  mkArpCache (g_arp_cache c) (g_arp_cache_clock c).

(** The scan of [find_entry_locked] from slot [i] on. *)
Fixpoint find_entry_from (i : Z) (es : list ArpEntry) (key : bytes) : Z :=
  match es with
  | [] => -1
  | e :: es' =>
      if valid e && bytes_equal (ip e) key 4 then i
      else find_entry_from (i + 1) es' key
  end.

Definition find_entry_locked (c : ArpCache) (key : bytes) : Z :=
  find_entry_from 0 (g_arp_cache c) key.

Fixpoint first_invalid_from (i : nat) (es : list ArpEntry) : option nat :=
  match es with
  | [] => None
  | e :: es' => if negb (valid e) then Some i else first_invalid_from (S i) es'
  end.

(** The second loop of [choose_insert_slot_locked]: [oldest] is the best slot
    so far, [seen] its stamp, [i] the slot the loop looks at next. *)
Fixpoint oldest_from (i oldest : nat) (seen : Z) (es : list ArpEntry) : nat :=
  match es with
  | [] => oldest
  | e :: es' =>
      if last_seen e <? seen then oldest_from (S i) i (last_seen e) es'
      else oldest_from (S i) oldest seen es'
  end.

Definition choose_insert_slot_locked (c : ArpCache) : nat :=
  match first_invalid_from 0 (g_arp_cache c) with
  | Some i => i
  | None =>
      oldest_from 1 0 (last_seen (g_arp_cache c !!! 0%nat)) (drop 1 (g_arp_cache c))
  end.

Definition arp_cache_reset : ArpCache :=
  mkArpCache (replicate ARP_CACHE_CAPACITY ArpEntry_zero) 0.

Definition arp_cache_insert (ip_arg mac_arg : option bytes) (c : ArpCache) : option ArpCache :=
  match ip_arg, mac_arg with
  | Some key, Some hw =>
      let existing := find_entry_locked c key in
      let slot := if 0 <=? existing then Z.to_nat existing
                  else choose_insert_slot_locked c in
      let e := g_arp_cache c !!! slot in
      ip' ← copy_bytes (ip e) 0 key 0 4;
      mac' ← copy_bytes (mac e) 0 hw 0 6;
      let clock := u64 (g_arp_cache_clock c + 1) in
      Some (mkArpCache (<[slot := mkArpEntry true ip' mac' clock]> (g_arp_cache c)) clock)
  | _, _ => Some c
  end.

(** Returns the boolean, the contents of [mac_out] afterwards and the cache. *)
Definition arp_cache_lookup (ip_arg mac_out : option bytes) (c : ArpCache)
    : option (bool * option bytes * ArpCache) :=
  match ip_arg, mac_out with
  | Some key, Some out =>
      let slot := find_entry_locked c key in
      if slot <? 0 then Some (false, mac_out, c)
      else
        let i := Z.to_nat slot in
        let e := g_arp_cache c !!! i in
        out' ← copy_bytes out 0 (mac e) 0 6;
        let clock := u64 (g_arp_cache_clock c + 1) in
        Some (true, Some out',
              mkArpCache (<[i := e .[ last_seen := clock ]]> (g_arp_cache c)) clock)
  | _, _ => Some (false, mac_out, c)
  end.

Definition arp_cache_snapshot (index : Z) (out : option ArpEntry) (c : ArpCache)
    : bool * option ArpEntry :=
  match out with
  | None => (false, None)
  | Some _ =>
      if Z.of_nat ARP_CACHE_CAPACITY <=? index then (false, out)
      else (true, Some (g_arp_cache c !!! Z.to_nat index))
  end.

(** ** Invariant *)

Record wf_entry (clock : Z) (e : ArpEntry) : Prop := {
  wf_ip : length (ip e) = 4%nat;
  wf_mac : length (mac e) = 6%nat;
  wf_ip_bytes : wf_bytes (ip e);
  wf_mac_bytes : wf_bytes (mac e);
  wf_seen : 0 <= last_seen e <= clock
}.

Definition live (c : ArpCache) : list ArpEntry := filter valid (g_arp_cache c).

Record wf_cache (c : ArpCache) : Prop := {
  wf_len : length (g_arp_cache c) = ARP_CACHE_CAPACITY;
  wf_entries : Forall (wf_entry (g_arp_cache_clock c)) (g_arp_cache c);
  wf_clock : is_u64 (g_arp_cache_clock c);
  wf_ips : NoDup (ip <$> live c);
  wf_stamps : NoDup (last_seen <$> live c)
}.

(** ** Specification: a least-recently-used map of at most eight bindings

    The list holds the bindings, most recently used first. *)

Abbreviation lru := (list (bytes * bytes)).

Definition lru_remove (key : bytes) (s : lru) : lru := filter (λ kv, kv.1 ≠ key) s.

Fixpoint lru_find (key : bytes) (s : lru) : option bytes :=
  match s with
  | [] => None
  | (k, v) :: s' => if decide (k = key) then Some v else lru_find key s'
  end.

Definition lru_insert (key hw : bytes) (s : lru) : lru :=
  (key, hw) :: take (ARP_CACHE_CAPACITY - 1) (lru_remove key s).

Definition lru_touch (key : bytes) (s : lru) : lru :=
  match lru_find key s with
  | Some hw => (key, hw) :: lru_remove key s
  | None => s
  end.

Definition newer (a b : ArpEntry) : Prop := last_seen b < last_seen a.
Definition binding (e : ArpEntry) : bytes * bytes := (ip e, mac e).

(** The slots [c] represent [s]: the live entries by decreasing stamp. *)
Definition represents (c : ArpCache) (s : lru) : Prop :=
  ∃ es, es ≡ₚ live c ∧ StronglySorted newer es ∧ s = binding <$> es.

(** ** The scans *)

Section scans.
Context (key : bytes) (Hkey : length key = 4%nat).

Lemma find_entry_from_spec es i :
  Forall (λ e, length (ip e) = 4%nat) es →
  (find_entry_from i es key = -1 ∧ (∀ e, e ∈ filter valid es → ip e ≠ key)) ∨
  (∃ j e, find_entry_from i es key = i + Z.of_nat j ∧ es !! j = Some e ∧
          valid e = true ∧ ip e = key).
Proof using Hkey.
  revert i. induction es as [|e es IH]; intros i Hes; simpl.
  { left. split; [done|]. intros e He. inversion He. }
  apply Forall_cons in Hes as [He Hes].
  rewrite bytes_equal_spec, !take_ge by lia.
  destruct (valid e) eqn:Hv; simpl; [case_bool_decide as Heq|].
  - right. exists 0%nat, e. split; [lia|]. by rewrite Hv.
  - destruct (IH (i + 1) Hes) as [[-> Hn]|(j & e' & -> & Hj & ?)].
    + left. split; [done|]. intros e' He'.
      rewrite filter_cons_True in He' by by rewrite Hv.
      apply elem_of_cons in He' as [->|?]; auto.
    + right. exists (S j), e'. split; [lia|]. done.
  - destruct (IH (i + 1) Hes) as [[-> Hn]|(j & e' & -> & Hj & ?)].
    + left. split; [done|]. intros e' He'.
      rewrite filter_cons_False in He' by (rewrite Hv; by intros []). auto.
    + right. exists (S j), e'. split; [lia|]. done.
Qed.
End scans.

Lemma first_invalid_from_spec es i :
  match first_invalid_from i es with
  | Some k => ∃ j e, k = (i + j)%nat ∧ es !! j = Some e ∧ valid e = false
  | None => Forall (λ e, valid e = true) es
  end.
Proof.
  revert i. induction es as [|e es IH]; intros i; simpl; [constructor|].
  destruct (valid e) eqn:Hv; simpl.
  - specialize (IH (S i)). destruct (first_invalid_from (S i) es).
    + destruct IH as (j & e' & -> & ? & ?). exists (S j), e'. split; [lia|done].
    + by constructor.
  - exists 0%nat, e. split; [lia|done].
Qed.

Lemma oldest_from_spec (g es : list ArpEntry) i oldest :
  drop i g = es → (oldest < i <= length g)%nat →
  (∀ k, (k < i)%nat → last_seen (g !!! oldest) <= last_seen (g !!! k)) →
  let r := oldest_from i oldest (last_seen (g !!! oldest)) es in
  (r < length g)%nat ∧
  ∀ k, (k < length g)%nat → last_seen (g !!! r) <= last_seen (g !!! k).
Proof.
  revert i oldest. induction es as [|e es IH]; intros i oldest Hd Hi Hmin; simpl.
  - assert (length (drop i g) = 0%nat) as Hl by by rewrite Hd.
    rewrite length_drop in Hl. split; [lia|]. intros k Hk. apply Hmin. lia.
  - assert (g !! i = Some e) as Hg.
    { rewrite <- (Nat.add_0_r i), <- lookup_drop, Hd. done. }
    assert (drop (S i) g = es) as Hd'.
    { erewrite drop_S in Hd by done. by injection Hd. }
    pose proof (lookup_lt_Some _ _ _ Hg). pose proof (list_lookup_total_correct _ _ _ Hg) as He.
    destruct (Z.ltb_spec (last_seen e) (last_seen (g !!! oldest))); rewrite <- ?He at 1.
    + rewrite <- He. apply IH; [done|lia|]. intros k Hk.
      destruct (decide (k = i)) as [->|]; [lia|]. rewrite He.
      specialize (Hmin k). lia.
    + apply IH; [done|lia|]. intros k Hk.
      destruct (decide (k = i)) as [->|]; [rewrite He; lia|]. apply Hmin. lia.
Qed.

(** ** One slot and the others *)

(** The live entries of every slot but [i]. *)
Definition live_but (i : nat) (c : ArpCache) : list ArpEntry :=
  filter valid (delete i (g_arp_cache c)).

Lemma live_split c i e0 :
  g_arp_cache c !! i = Some e0 →
  live c ≡ₚ (if valid e0 then [e0] else []) ++ live_but i c.
Proof.
  intros Hi. unfold live, live_but.
  rewrite (delete_Permutation (g_arp_cache c) i e0) at 1 by done.
  destruct (valid e0) eqn:Hv.
  - rewrite filter_cons_True by by rewrite Hv. done.
  - rewrite filter_cons_False by (rewrite Hv; by intros []). done.
Qed.

Lemma delete_insert_same (g : list ArpEntry) i e :
  delete i (<[i:=e]> g) = delete i g.
Proof. revert i. induction g as [|x g IH]; intros [|i]; simpl; congruence. Qed.

Lemma live_but_length c i :
  wf_cache c → (i < ARP_CACHE_CAPACITY)%nat →
  (length (live_but i c) <= ARP_CACHE_CAPACITY - 1)%nat.
Proof.
  intros Hwf Hi. pose proof (wf_len c Hwf) as Hl. unfold live_but.
  etransitivity; [apply length_filter|].
  destruct (lookup_lt_is_Some_2 (g_arp_cache c) i) as [e He]; [lia|].
  rewrite length_delete by (by eexists). lia.
Qed.

Lemma live_insert c i e clock :
  (i < length (g_arp_cache c))%nat → valid e = true →
  live (mkArpCache (<[i:=e]> (g_arp_cache c)) clock) ≡ₚ e :: live_but i c.
Proof.
  intros Hi He.
  rewrite (live_split _ i e) by (by apply list_lookup_insert_eq).
  rewrite He. unfold live_but. simpl. by rewrite delete_insert_same.
Qed.

Section put.
Context (c : ArpCache) (Hwf : wf_cache c).
Context (Hclock : g_arp_cache_clock c + 1 < 18446744073709551616).
Context (i : nat) (e0 : ArpEntry) (Hi : g_arp_cache c !! i = Some e0).
Context (key hw : bytes).
Context (Hkey : length key = 4%nat ∧ wf_bytes key).
Context (Hhw : length hw = 6%nat ∧ wf_bytes hw).
Context (Hfresh : ∀ x, x ∈ live_but i c → ip x ≠ key).

Let clock' := g_arp_cache_clock c + 1.
Let e := mkArpEntry true key hw clock'.
Let c' := mkArpCache (<[i := e]> (g_arp_cache c)) clock'.

Lemma live_but_old x : x ∈ live_but i c → 0 <= last_seen x <= g_arp_cache_clock c.
Proof using Hwf Hi.
  intros Hx. apply wf_seen.
  assert (x ∈ live c) as Hl by (rewrite (live_split c i e0 Hi), elem_of_app; auto).
  apply list_elem_of_filter in Hl as [_ Hl].
  eapply Forall_forall; [apply wf_entries, Hwf|done].
Qed.

Lemma put_live : live c' ≡ₚ e :: live_but i c.
Proof using Hi. apply live_insert; [by eapply lookup_lt_Some|done]. Qed.

Lemma put_wf : wf_cache c'.
Proof using Hwf Hclock Hi Hkey Hhw Hfresh.
  pose proof (wf_ips c Hwf) as Hips. pose proof (wf_stamps c Hwf) as Hst.
  rewrite (live_split c i e0 Hi), fmap_app in Hips.
  rewrite (live_split c i e0 Hi), fmap_app in Hst.
  apply NoDup_app in Hips as (_ & _ & Hips), Hst as (_ & _ & Hst).
  pose proof (wf_clock c Hwf). split.
  - simpl. rewrite length_insert. apply Hwf.
  - simpl. apply Forall_insert.
    + eapply Forall_impl; [apply (wf_entries c Hwf)|].
      intros x []. split; try done. unfold clock'. lia.
    + destruct Hkey, Hhw. split; simpl; try done. unfold clock'. word_lia.
  - simpl. unfold clock'. word_lia.
  - rewrite put_live. simpl. apply NoDup_cons. split; [|done].
    intros (x & ? & Hx)%list_elem_of_fmap. by apply (Hfresh x).
  - rewrite put_live. simpl. apply NoDup_cons. split; [|done].
    intros (x & Hs & Hx)%list_elem_of_fmap.
    apply live_but_old in Hx. unfold clock' in *. lia.
Qed.

Lemma put_represents es :
  es ≡ₚ live_but i c → StronglySorted newer es →
  represents c' ((key, hw) :: (binding <$> es)).
Proof using Hwf Hi Hkey Hhw.
  intros Hes Hs. exists (e :: es). split; [by rewrite put_live, Hes|].
  split; [|done]. apply StronglySorted_cons. split; [|done].
  apply Forall_forall. intros x Hx. rewrite Hes in Hx.
  apply live_but_old in Hx. unfold newer, e, clock'. simpl. lia.
Qed.
End put.

(** The entry of slot [i] sits somewhere in the recency list. *)
Lemma sorted_split c i e0 es :
  g_arp_cache c !! i = Some e0 → valid e0 = true →
  es ≡ₚ live c → StronglySorted newer es →
  ∃ es1 es2, es = es1 ++ e0 :: es2 ∧ es1 ++ es2 ≡ₚ live_but i c ∧
             StronglySorted newer (es1 ++ es2).
Proof.
  intros Hi Hv Hes Hs. rewrite (live_split c i e0 Hi), Hv in Hes. simpl in Hes.
  assert (e0 ∈ es) as (es1 & es2 & ->)%list_elem_of_split by (rewrite Hes; left).
  exists es1, es2. split; [done|]. split.
  - apply (inj (cons e0)). rewrite <- Hes. by rewrite Permutation_middle.
  - apply StronglySorted_app in Hs as (H12 & H1 & H2).
    apply StronglySorted_cons in H2 as [_ H2].
    apply StronglySorted_app. split; [|done]. intros x y Hx Hy. apply H12; [done|].
    by right.
Qed.

(** The least recently used entry is the last of the recency list. *)
Lemma sorted_last c i e0 es :
  g_arp_cache c !! i = Some e0 → valid e0 = true →
  (∀ x, x ∈ live c → last_seen e0 <= last_seen x) →
  es ≡ₚ live c → StronglySorted newer es →
  ∃ es1, es = es1 ++ [e0] ∧ es1 ≡ₚ live_but i c ∧ StronglySorted newer es1.
Proof.
  intros Hi Hv Hmin Hes Hs.
  destruct (sorted_split c i e0 es Hi Hv Hes Hs) as (es1 & es2 & -> & Hp & Hs').
  destruct es2 as [|y es2].
  { rewrite app_nil_r in *. by exists es1. }
  apply StronglySorted_app in Hs as (_ & _ & Hs).
  apply StronglySorted_cons in Hs as [Hs _]. apply Forall_cons in Hs as [Hs _].
  unfold newer in Hs. enough (last_seen e0 <= last_seen y) by lia.
  apply Hmin. rewrite <- Hes, !elem_of_app, !elem_of_cons. auto.
Qed.

Lemma lru_remove_absent key es :
  (∀ x, x ∈ es → ip x ≠ key) → lru_remove key (binding <$> es) = binding <$> es.
Proof.
  intros H. unfold lru_remove. induction es as [|x es IH]; [done|].
  rewrite fmap_cons, filter_cons_True by (apply H; left).
  f_equal. apply IH. intros y Hy. apply H. by right.
Qed.

Lemma lru_find_absent key es :
  (∀ x, x ∈ es → ip x ≠ key) → lru_find key (binding <$> es) = None.
Proof.
  induction es as [|x es IH]; intros H; [done|]. simpl.
  rewrite decide_False by (apply H; left). apply IH. intros y Hy. apply H. by right.
Qed.

Lemma lru_middle key es1 e0 es2 :
  (∀ x, x ∈ es1 ++ es2 → ip x ≠ key) → ip e0 = key →
  lru_remove key (binding <$> es1 ++ e0 :: es2) = (binding <$> es1 ++ es2) ∧
  lru_find key (binding <$> es1 ++ e0 :: es2) = Some (mac e0).
Proof.
  intros H He. induction es1 as [|x es1 IH]; simpl in *.
  - rewrite decide_True by done. split; [|done].
    unfold lru_remove. rewrite filter_cons_False by (simpl; tauto).
    by apply lru_remove_absent.
  - assert (ip x ≠ key) by (apply H; left).
    destruct IH as [IHr IHf]; [intros y Hy; apply H; by right|].
    rewrite decide_False by done. split; [|done].
    unfold lru_remove in *. rewrite filter_cons_True by done. by f_equal.
Qed.

(** ** Finding the slot *)

Lemma wf_entry_at c i e : wf_cache c → g_arp_cache c !! i = Some e →
  wf_entry (g_arp_cache_clock c) e.
Proof.
  intros Hwf Hi. eapply Forall_lookup_1; [apply wf_entries, Hwf|done].
Qed.

Lemma find_entry_locked_spec c key :
  wf_cache c → length key = 4%nat →
  (find_entry_locked c key = -1 ∧ ∀ e, e ∈ live c → ip e ≠ key) ∨
  (∃ j e, find_entry_locked c key = Z.of_nat j ∧ g_arp_cache c !! j = Some e ∧
          valid e = true ∧ ip e = key ∧ ∀ x, x ∈ live_but j c → ip x ≠ key).
Proof.
  intros Hwf Hkey.
  destruct (find_entry_from_spec key Hkey (g_arp_cache c) 0) as [?|(j & e & Hj & He & Hv & Hip)].
  - eapply Forall_impl; [apply wf_entries, Hwf|]. by intros x [].
  - by left.
  - right. exists j, e. repeat split; try done.
    intros x Hx Heq. pose proof (wf_ips c Hwf) as Hnd.
    rewrite (live_split c j e He), Hv in Hnd. simpl in Hnd.
    apply NoDup_cons in Hnd as [Hnd _]. apply Hnd.
    rewrite Hip, <- Heq. by apply list_elem_of_fmap_2.
Qed.

(** A free slot if there is one, the least recently used one otherwise. *)
Lemma choose_insert_slot_locked_spec c :
  wf_cache c →
  ∃ i e, choose_insert_slot_locked c = i ∧ g_arp_cache c !! i = Some e ∧
    (valid e = false ∨
     valid e = true ∧ length (live c) = ARP_CACHE_CAPACITY ∧
     ∀ x, x ∈ live c → last_seen e <= last_seen x).
Proof.
  intros Hwf. pose proof (wf_len c Hwf) as Hlen. unfold choose_insert_slot_locked.
  pose proof (first_invalid_from_spec (g_arp_cache c) 0) as Hf.
  destruct (first_invalid_from 0 (g_arp_cache c)) as [i|].
  { destruct Hf as (j & e & -> & He & Hv). exists j, e. split; [done|]. auto. }
  destruct (oldest_from_spec (g_arp_cache c) (drop 1 (g_arp_cache c)) 1 0 eq_refl)
    as [Hr Hmin]; [rewrite Hlen; unfold ARP_CACHE_CAPACITY; lia|intros k Hk; assert (k = 0%nat) as -> by lia; lia|].
  set (r := oldest_from _ _ _ _) in *.
  destruct (lookup_lt_is_Some_2 _ _ Hr) as [e He]. exists r, e.
  split; [done|]. split; [done|]. right.
  assert (live c = g_arp_cache c) as Hlive.
  { unfold live. apply filter_Forall. eapply Forall_impl; [exact Hf|]. by intros x ->. }
  rewrite Hlive. split; [by eapply Forall_lookup_1 in Hf|]. split; [done|].
  intros x (k & Hk)%list_elem_of_lookup_1.
  pose proof (lookup_lt_Some _ _ _ Hk) as Hkl. specialize (Hmin k Hkl).
  by rewrite (list_lookup_total_correct _ _ _ He), (list_lookup_total_correct _ _ _ Hk) in Hmin.
Qed.

Lemma copy_field dst src n :
  length dst = n → length src = n → copy_bytes dst 0 src 0 n = Some src.
Proof.
  intros <- Hs. rewrite copy_bytes_ok by lia.
  simpl. by rewrite drop_0, take_ge, drop_ge, app_nil_r by lia.
Qed.

(** ** Refinement *)

Lemma arp_cache_reset_represents : wf_cache arp_cache_reset ∧ represents arp_cache_reset [].
Proof.
  split.
  - split; try done.
    + apply Forall_replicate. split; [done|done|apply wf_bytes_zeros|apply wf_bytes_zeros|simpl; lia].
    + constructor.
    + constructor.
  - exists []. repeat split; constructor.
Qed.

Section refinement.
Context (c : ArpCache) (s : lru) (Hwf : wf_cache c) (Hrep : represents c s).
Context (Hclock : g_arp_cache_clock c + 1 < 18446744073709551616).
Context (key : bytes) (Hkey : length key = 4%nat ∧ wf_bytes key).

Lemma lookup_absent : (∀ e, e ∈ live c → ip e ≠ key) →
  lru_find key s = None ∧ lru_remove key s = s.
Proof using Hrep.
  intros Hn. destruct Hrep as (es & Hes & _ & ->).
  assert (∀ x, x ∈ es → ip x ≠ key) by (intros x Hx; rewrite Hes in Hx; auto).
  split; [by apply lru_find_absent|by apply lru_remove_absent].
Qed.

Lemma lookup_present j e :
  g_arp_cache c !! j = Some e → valid e = true → ip e = key →
  (∀ x, x ∈ live_but j c → ip x ≠ key) →
  lru_find key s = Some (mac e) ∧
  ∃ es, lru_remove key s = binding <$> es ∧ es ≡ₚ live_but j c ∧ StronglySorted newer es.
Proof using Hrep.
  intros Hj Hv Hip Hn. destruct Hrep as (es & Hes & Hs & ->).
  destruct (sorted_split c j e es Hj Hv Hes Hs) as (es1 & es2 & -> & Hp & Hs').
  destruct (lru_middle key es1 e es2) as [-> ->]; [|done|].
  { intros x Hx. rewrite Hp in Hx. auto. }
  split; [done|]. by exists (es1 ++ es2).
Qed.

Lemma arp_cache_lookup_refines out :
  (6 <= length out)%nat →
  match lru_find key s with
  | Some hw => ∃ c',
      arp_cache_lookup (Some key) (Some out) c = Some (true, Some (hw ++ drop 6 out), c') ∧
      wf_cache c' ∧ represents c' (lru_touch key s)
  | None => arp_cache_lookup (Some key) (Some out) c = Some (false, Some out, c)
  end.
Proof using Hwf Hrep Hclock Hkey.
  intros Hout. unfold arp_cache_lookup, lru_touch.
  destruct (find_entry_locked_spec c key Hwf (proj1 Hkey))
    as [[-> Hn]|(j & e & -> & Hj & Hv & Hip & Hn)].
  { by destruct (lookup_absent Hn) as [-> _]. }
  destruct (lookup_present j e Hj Hv Hip Hn) as [-> (es & -> & Hes & Hs)].
  pose proof (wf_entry_at c j e Hwf Hj) as [].
  rewrite (proj2 (Z.ltb_ge _ _)) by lia. rewrite Nat2Z.id.
  rewrite (list_lookup_total_correct _ _ _ Hj).
  rewrite copy_bytes_ok by lia. rewrite drop_0, take_0, (take_ge (mac e)) by lia.
  cbn [mbind option_bind app].
  rewrite (u64_id (g_arp_cache_clock c + 1)) by (pose proof (wf_clock c Hwf); word_lia).
  eexists. split; [done|].
  assert (e .[ last_seen := g_arp_cache_clock c + 1 ] =
          mkArpEntry true key (mac e) (g_arp_cache_clock c + 1)) as ->
    by (cbv [set_field]; simpl; congruence).
  split.
  - by eapply put_wf.
  - by eapply put_represents.
Qed.

Lemma arp_cache_insert_refines hw :
  length hw = 6%nat → wf_bytes hw →
  ∃ c', arp_cache_insert (Some key) (Some hw) c = Some c' ∧
        wf_cache c' ∧ represents c' (lru_insert key hw s).
Proof using Hwf Hrep Hclock Hkey.
  intros Hl Hhw. unfold arp_cache_insert, lru_insert.
  set (slot := if 0 <=? find_entry_locked c key then _ else _).
  enough (∃ e es, g_arp_cache c !! slot = Some e ∧ es ≡ₚ live_but slot c ∧
            (∀ x, x ∈ live_but slot c → ip x ≠ key) ∧ StronglySorted newer es ∧
            take (ARP_CACHE_CAPACITY - 1) (lru_remove key s) = binding <$> es)
    as (e & es & Hi & Hes & Hn & Hs & ->).
  { rewrite (list_lookup_total_correct _ _ _ Hi).
    pose proof (wf_entry_at c slot e Hwf Hi) as [].
    rewrite !copy_field by (try done; apply Hkey). simpl.
    rewrite (u64_id (g_arp_cache_clock c + 1)) by (pose proof (wf_clock c Hwf); word_lia).
    eexists. split; [done|]. split; [by eapply put_wf|by eapply put_represents]. }
  subst slot.
  destruct (find_entry_locked_spec c key Hwf (proj1 Hkey))
    as [[-> Hn]|(j & e & -> & Hj & Hv & Hip & Hn)].
  - destruct (choose_insert_slot_locked_spec c Hwf) as (i & e & Hc & Hi & Hcase).
    simpl. rewrite Hc. destruct (lookup_absent Hn) as [_ ->].
    destruct Hrep as (es & Hes & Hs & ->).
    assert (i < ARP_CACHE_CAPACITY)%nat as Hlt
      by (apply lookup_lt_Some in Hi; pose proof (wf_len c Hwf); lia).
    pose proof (live_but_length c i Hwf Hlt).
    assert (∀ x, x ∈ live_but i c → ip x ≠ key) as Hn'.
    { intros x Hx. apply Hn. rewrite (live_split c i e Hi). apply elem_of_app. auto. }
    destruct Hcase as [Hv|(Hv & Hfull & Hmin)].
    + rewrite (live_split c i e Hi), Hv in Hes. exists e, es. repeat split; try done.
      apply take_ge. by rewrite length_fmap, Hes.
    + destruct (sorted_last c i e es) as (es1 & -> & Hes1 & Hs1); try done.
      exists e, es1. repeat split; try done.
      rewrite fmap_app, take_app_le, take_ge; rewrite ?length_fmap; [done|..];
        rewrite <- Hes, length_app in Hfull; simpl in Hfull;
        unfold ARP_CACHE_CAPACITY in *; lia.
  - rewrite (proj2 (Z.leb_le _ _)), Nat2Z.id by lia.
    destruct (lookup_present j e Hj Hv Hip Hn) as [_ (es & -> & Hes & Hs)].
    exists e, es. repeat split; try done. apply take_ge. rewrite length_fmap, Hes.
    apply live_but_length; [done|]. apply lookup_lt_Some in Hj.
    pose proof (wf_len c Hwf). lia.
Qed.
End refinement.

(** ** The clock and memory safety *)

Lemma arp_cache_lookup_clock key out c b out' c' :
  arp_cache_lookup (Some key) (Some out) c = Some (b, out', c') →
  g_arp_cache_clock c' = if b then u64 (g_arp_cache_clock c + 1) else g_arp_cache_clock c.
Proof.
  unfold arp_cache_lookup. case_match; [by intros [= <- _ <-]|].
  destruct (copy_bytes _ _ _ _ _); [|done]. by intros [= <- _ <-].
Qed.

Lemma arp_cache_insert_clock key hw c c' :
  arp_cache_insert (Some key) (Some hw) c = Some c' →
  g_arp_cache_clock c' = u64 (g_arp_cache_clock c + 1).
Proof.
  unfold arp_cache_insert. cbv zeta. set (e := g_arp_cache c !!! _).
  destruct (copy_bytes (ip e) _ _ _ _); [|done]. cbn [mbind option_bind].
  destruct (copy_bytes (mac e) _ _ _ _); [|done]. by intros [= <-].
Qed.

(** ** Sequences of operations *)

Inductive ArpOp := ArpInsert (key hw : bytes) | ArpLookup (key out : bytes).

Definition arp_op_ok (o : ArpOp) : Prop :=
  match o with
  | ArpInsert key hw => (length key = 4%nat ∧ wf_bytes key) ∧ length hw = 6%nat ∧ wf_bytes hw
  | ArpLookup key out => (length key = 4%nat ∧ wf_bytes key) ∧ (6 <= length out)%nat
  end.

Definition arp_run1 (o : ArpOp) (c : ArpCache) : option (bool * bytes * ArpCache) :=
  match o with
  | ArpInsert key hw => c ← arp_cache_insert (Some key) (Some hw) c; Some (true, [], c)
  | ArpLookup key out =>
      '(b, out, c) ← arp_cache_lookup (Some key) (Some out) c; Some (b, default [] out, c)
  end.

Definition lru_run1 (o : ArpOp) (s : lru) : bool * bytes * lru :=
  match o with
  | ArpInsert key hw => (true, [], lru_insert key hw s)
  | ArpLookup key out =>
      match lru_find key s with
      | Some hw => (true, hw ++ drop 6 out, lru_touch key s)
      | None => (false, out, s)
      end
  end.

Fixpoint arp_run (os : list ArpOp) (c : ArpCache) : option (list (bool * bytes) * ArpCache) :=
  match os with
  | [] => Some ([], c)
  | o :: os' => '(b, out, c) ← arp_run1 o c; '(l, c) ← arp_run os' c; Some ((b, out) :: l, c)
  end.

Fixpoint lru_run (os : list ArpOp) (s : lru) : list (bool * bytes) :=
  match os with
  | [] => []
  | o :: os' => let '(b, out, s) := lru_run1 o s in (b, out) :: lru_run os' s
  end.

Lemma arp_run1_refines o c s :
  wf_cache c → represents c s → g_arp_cache_clock c + 1 < 18446744073709551616 → arp_op_ok o →
  let '(b, out, s') := lru_run1 o s in
  ∃ c', arp_run1 o c = Some (b, out, c') ∧ wf_cache c' ∧ represents c' s' ∧
    g_arp_cache_clock c' <= g_arp_cache_clock c + 1.
Proof.
  intros Hwf Hrep Hc Ho. pose proof (wf_clock c Hwf) as Hcl.
  destruct o as [key hw|key out]; cbn [lru_run1 arp_run1 arp_op_ok] in *.
  - destruct Ho as (Hk & Hl & Hb).
    destruct (arp_cache_insert_refines c s Hwf Hrep Hc key Hk hw Hl Hb) as (c' & Hi & Hw & Hr).
    rewrite Hi. exists c'. split_and!; [done..|].
    rewrite (arp_cache_insert_clock _ _ _ _ Hi). word_lia.
  - destruct Ho as (Hk & Hl).
    pose proof (arp_cache_lookup_refines c s Hwf Hrep Hc key Hk out Hl) as H.
    destruct (lru_find key s).
    + destruct H as (c' & Hi & Hw & Hr). rewrite Hi. exists c'. split_and!; [done..|].
      rewrite (arp_cache_lookup_clock _ _ _ _ _ _ Hi). word_lia.
    + rewrite H. exists c. split_and!; [done..|lia].
Qed.

Lemma arp_run_refines os c s :
  wf_cache c → represents c s →
  g_arp_cache_clock c + Z.of_nat (length os) < 18446744073709551616 → Forall arp_op_ok os →
  ∃ c', arp_run os c = Some (lru_run os s, c') ∧ wf_cache c'.
Proof.
  intros Hwf Hrep Hc Hos. revert c s Hwf Hrep Hc.
  induction Hos as [|o os Ho _ IH]; intros c s Hwf Hrep Hc; [by exists c|].
  simpl in Hc |- *. pose proof (arp_run1_refines o c s Hwf Hrep ltac:(lia) Ho) as H.
  destruct (lru_run1 o s) as [[b out] s']. destruct H as (c1 & -> & Hw & Hr & Hcl).
  destruct (IH c1 s' Hw Hr ltac:(lia)) as (c2 & H2 & Hw2). cbn [mbind option_bind].
  rewrite H2. by exists c2.
Qed.

(** C31: From [arp_cache_reset], any sequence of fewer than 2^64 insertions and
    lookups touches no memory outside its arrays and answers every lookup as a least-recently-used
    map of at most eight bindings does; the slots keep their invariant (distinct
    addresses, distinct stamps). *)
Theorem arp_cache_refines_lru os :
  Forall arp_op_ok os → Z.of_nat (length os) < 18446744073709551616 →
  ∃ c', arp_run os arp_cache_reset = Some (lru_run os [], c') ∧ wf_cache c'.
Proof.
  intros Hos Hl. destruct arp_cache_reset_represents as [Hw Hr].
  by apply arp_run_refines.
Qed.

Lemma arp_cache_refines_lru_witness :
  let os := [ArpInsert [10;0;0;1] [1;2;3;4;5;6]; ArpLookup [10;0;0;1] (replicate 6 0);
             ArpLookup [10;0;0;2] (replicate 6 0)] in
  (∃ c', arp_run os arp_cache_reset = Some (lru_run os [], c') ∧ wf_cache c') ∧
  lru_run os [] = [(true, []); (true, [1;2;3;4;5;6]); (false, replicate 6 0)].
Proof.
  cbv zeta. split; [|reflexivity]. apply arp_cache_refines_lru; [|reflexivity].
  repeat apply Forall_cons_2; try apply Forall_nil_2;
    (split; [split; [reflexivity|repeat constructor; lia]|]);
    try (split; [reflexivity|repeat constructor; lia]); simpl; lia.
Defined.

(** A null pointer makes [arp_cache_insert] do nothing and
    [arp_cache_lookup] fail without an effect, in any state. *)
Theorem arp_cache_null_arguments ip_arg mac_arg c :
  ip_arg = None ∨ mac_arg = None →
  arp_cache_insert ip_arg mac_arg c = Some c ∧
  arp_cache_lookup ip_arg mac_arg c = Some (false, mac_arg, c).
Proof. intros [-> | ->]; [done|]. by destruct ip_arg. Qed.

Lemma arp_cache_null_arguments_witness :
  arp_cache_insert (Some [1;2;3;4]) None arp_cache_reset = Some arp_cache_reset ∧
  arp_cache_lookup (Some [1;2;3;4]) None arp_cache_reset = Some (false, None, arp_cache_reset).
Proof. apply arp_cache_null_arguments. right. reflexivity. Defined.
