(* ===== verification/Pcie.v ===== *)
(** * PCI configuration space (kernel/pcie.h, kernel/pcie.cc)

    The two I/O ports of the legacy mechanism are hardware: [cfg a] is the
    32-bit value the data port returns after [a] was written to the address
    port, and is a parameter of every definition that reads. *)

From S2P Require Import Prelude.

Definition PCI_VENDOR_NOT_PRESENT : Z := 0xffff.
Definition PCI_REG_VENDOR_DEVICE : Z := 0x00.
Definition PCI_REG_COMMAND_STATUS : Z := 0x04.
Definition PCI_REG_CLASS_REV : Z := 0x08.
Definition PCI_REG_HEADER_TYPE : Z := 0x0c.
Definition PCI_REG_BAR0 : Z := 0x10.

Record PciFunction := mkPciFunction {
  bus : Z; device : Z; function : Z; vendor_id : Z; device_id : Z;
  class_code : Z; subclass : Z; prog_if : Z; revision_id : Z; header_type : Z
}.

(** ** The visited bitmap *)

Definition mark_bus_visited (b : Z) (bus_visited : bytes) : bytes :=
  let i := Z.to_nat (b / 8) in
  <[i := u8 (Z.lor (bus_visited !!! i) (Z.shiftl 1 (b mod 8)))]> bus_visited.

Definition is_bus_visited (b : Z) (bus_visited : bytes) : bool :=
  negb (Z.land (bus_visited !!! Z.to_nat (b / 8)) (Z.shiftl 1 (b mod 8)) =? 0).

Definition clear_bus_visited : bytes := replicate 32 0.

(** ** Register access *)

Definition pci_config_address (b dev func off : Z) : Z :=
  u32 (Z.lor (Z.lor (Z.lor (Z.lor (Z.shiftl 1 31) (Z.shiftl b 16))
        (Z.shiftl (Z.land dev 0x1f) 11)) (Z.shiftl (Z.land func 0x07) 8))
        (Z.land off 0xfc)).

Section config.
Context (cfg : Z → Z).

Definition pci_config_read32 (b dev func off : Z) : Z :=
  u32 (cfg (pci_config_address b dev func off)).

Definition pci_config_read16 (b dev func off : Z) : Z :=
  u16 (Z.shiftr (pci_config_read32 b dev func off) (Z.land off 2 * 8)).

Definition pci_config_read8 (b dev func off : Z) : Z :=
  u8 (Z.shiftr (pci_config_read32 b dev func off) (Z.land off 3 * 8)).

Definition read_function (b dev func : Z) : option PciFunction :=
  let id_reg := pci_config_read32 b dev func PCI_REG_VENDOR_DEVICE in
  let vendor := u16 (Z.land id_reg 0xffff) in
  if vendor =? PCI_VENDOR_NOT_PRESENT then None
  else
    let class_reg := pci_config_read32 b dev func PCI_REG_CLASS_REV in
    let header_dword := pci_config_read32 b dev func PCI_REG_HEADER_TYPE in
    Some {| bus := b; device := dev; function := func;
            vendor_id := vendor;
            device_id := u16 (Z.shiftr id_reg 16);
            revision_id := u8 (Z.land class_reg 0xff);
            prog_if := u8 (Z.land (Z.shiftr class_reg 8) 0xff);
            subclass := u8 (Z.land (Z.shiftr class_reg 16) 0xff);
            class_code := u8 (Z.land (Z.shiftr class_reg 24) 0xff);
            header_type := u8 (Z.land (Z.shiftr header_dword 16) 0x7f) |}.

(** [parse_device_legacy] prints what it finds; its result is whether a
    function answers. *)
Definition parse_device_legacy (b dev func : Z) : bool :=
  match read_function b dev func with Some _ => true | None => false end.

Definition is_multifunction (b dev : Z) : bool :=
  let raw := u8 (Z.land (Z.shiftr (pci_config_read32 b dev 0 PCI_REG_HEADER_TYPE) 16) 0xff) in
  negb (Z.land raw 0x80 =? 0).

(** The function at [b:dev.func] if its identity is the wanted one. *)
Definition matching (vendor devid b dev func : Z) : option PciFunction :=
  info ← read_function b dev func;
  if (vendor_id info =? vendor) && (device_id info =? devid) then Some info else None.

(** The body of the two outer loops of [pci_find_device]. *)
Definition find_in_slot (vendor devid b dev : Z) : option PciFunction :=
  match read_function b dev 0 with
  | None => None
  | Some info =>
      if (vendor_id info =? vendor) && (device_id info =? devid) then Some info
      else if is_multifunction b dev
           then first_some (matching vendor devid b dev) (seqZ 1 7)
           else None
  end.

Definition pci_find_device (vendor devid : Z) : option PciFunction :=
  first_some (fun b => first_some (find_in_slot vendor devid b) (seqZ 0 32)) (seqZ 0 256).

Definition pci_find_virtio_net : option PciFunction := pci_find_device 0x1af4 0x1041.

Definition pci_read_bar (fn : PciFunction) (bar_index : Z) : Z :=
  if 6 <=? bar_index then 0
  else
    let offset := u8 (PCI_REG_BAR0 + bar_index * 4) in
    let bar := pci_config_read32 (bus fn) (device fn) (function fn) offset in
    if negb (Z.land bar 0x1 =? 0) then Z.land bar (u32 (Z.lnot 0x3))
    else
      let base := Z.land bar (u32 (Z.lnot 0xf)) in
      let type := Z.land (Z.shiftr bar 1) 0x3 in
      if (type =? 0x2) && (bar_index <? 5) then
        let high := pci_config_read32 (bus fn) (device fn) (function fn) (u8 (offset + 4)) in
        Z.lor base (Z.shiftl high 32)
      else base.

(** The value [pci_enable_mmio_and_bus_mastering] writes back, with the
    address it writes it to. *)
Definition pci_enable_mmio_and_bus_mastering (fn : PciFunction) : Z * Z :=
  let command_status :=
    pci_config_read32 (bus fn) (device fn) (function fn) PCI_REG_COMMAND_STATUS in
  let command := u16 (Z.land command_status 0xffff) in
  let command := Z.lor command 0x2 in
  let command := Z.lor command 0x4 in
  (pci_config_address (bus fn) (device fn) (function fn) PCI_REG_COMMAND_STATUS,
   Z.lor (Z.land command_status 0xffff0000) command).

(** [enumerate_bus] returns the functions it prints and the bitmap. *)
Definition enumerate_slot (b dev : Z) : list (Z * Z * Z) :=
  if negb (parse_device_legacy b dev 0) then []
  else (b, dev, 0) ::
    if is_multifunction b dev
    then (λ f, (b, dev, f)) <$> filter (λ f, parse_device_legacy b dev f) (seqZ 1 7)
    else [].

Definition enumerate_bus (b : Z) (bus_visited : bytes) : list (Z * Z * Z) * bytes :=
  if is_bus_visited b bus_visited then ([], bus_visited)
  else (mjoin (enumerate_slot b <$> seqZ 0 32), mark_bus_visited b bus_visited).

Definition enum_pcie : list (Z * Z * Z) := fst (enumerate_bus 0 clear_bus_visited).
End config.

(** ** Addresses *)

Definition pci_loc (b dev func off : Z) : Prop :=
  0 <= b < 256 ∧ 0 <= dev < 32 ∧ 0 <= func < 8 ∧ 0 <= off < 256.

Lemma pci_config_address_eq b dev func off :
  pci_loc b dev func off → off mod 4 = 0 →
  pci_config_address b dev func off =
    2147483648 + b * 65536 + dev * 2048 + func * 256 + off.
Proof.
  intros (Hb & Hd & Hf & Ho) H4. unfold pci_config_address.
  rewrite (land_ones_mod dev 5), (land_ones_mod func 3) by lia.
  rewrite !Z.mod_small by lia.
  assert (Z.land off 0xfc = off) as ->.
  { change 0xfc with (Z.land 0xff (Z.lnot 3)). rewrite Z.land_assoc.
    rewrite (land_ones_mod off 8), Z.mod_small by lia.
    rewrite <- Z.ldiff_land. change 3 with (Z.ones 2).
    rewrite Z.ldiff_ones_r, Z.shiftr_div_pow2, Z.shiftl_mul_pow2 by lia.
    change (2 ^ 2) with 4. word_lia. }
  rewrite !Z.shiftl_mul_pow2 by lia.
  rewrite <- !Z.lor_assoc.
  rewrite (lor_disjoint func) by lia.
  rewrite (lor_disjoint dev) by lia.
  rewrite (lor_disjoint b) by lia.
  rewrite (lor_disjoint 1) by lia.
  word_lia.
Qed.

Lemma config_address_inj b dev func off b' dev' func' off' :
  pci_loc b dev func off → pci_loc b' dev' func' off' →
  off mod 4 = 0 → off' mod 4 = 0 →
  pci_config_address b dev func off = pci_config_address b' dev' func' off' →
  b = b' ∧ dev = dev' ∧ func = func' ∧ off = off'.
Proof.
  intros H H' Ho Ho'. rewrite !pci_config_address_eq by done.
  unfold pci_loc in *. lia.
Qed.

(** ** The bitmap is a set of buses *)

Lemma testbit_visited b m :
  0 <= b → is_bus_visited b m = Z.testbit (m !!! Z.to_nat (b / 8)) (b mod 8).
Proof.
  intros Hb. unfold is_bus_visited.
  assert (0 <= b mod 8 < 8) by (apply Z.mod_pos_bound; lia).
  set (x := m !!! _). set (k := b mod 8) in *.
  rewrite Z.shiftl_1_l. destruct (Z.testbit x k) eqn:Ht.
  - apply negb_true_iff, Z.eqb_neq. intros H0.
    assert (Z.testbit (Z.land x (2 ^ k)) k = true) as Hc
      by (rewrite Z.land_spec, Ht, Z.pow2_bits_true by lia; done).
    rewrite H0, Z.bits_0 in Hc. done.
  - apply negb_false_iff, Z.eqb_eq. apply Z.bits_inj'. intros n Hn.
    rewrite Z.land_spec, Z.bits_0, Z.pow2_bits_eqb by lia.
    destruct (Z.eqb_spec k n) as [<-|]; [by rewrite Ht|apply andb_false_r].
Qed.

Lemma mark_bus_visited_spec b b' m :
  0 <= b < 256 → 0 <= b' < 256 → length m = 32%nat → wf_bytes m →
  is_bus_visited b' (mark_bus_visited b m) =
    bool_decide (b' = b) || is_bus_visited b' m.
Proof.
  intros Hb Hb' Hl Hm. rewrite !testbit_visited by lia. unfold mark_bus_visited.
  rewrite list_lookup_total_insert.
  assert (0 <= b mod 8 < 8 ∧ 0 <= b' mod 8 < 8) by (split; apply Z.mod_pos_bound; lia).
  pose proof (Z.div_mod b 8). pose proof (Z.div_mod b' 8).
  case_decide as Hc.
  - destruct Hc as [Hc _]. apply Z2Nat.inj in Hc; [|word_lia|word_lia]. rewrite <- Hc.
    unfold u8. change 256 with (2 ^ 8).
    rewrite Z.mod_pow2_bits_low, Z.lor_spec, Z.shiftl_1_l, Z.pow2_bits_eqb by lia.
    rewrite orb_comm. f_equal.
    destruct (Z.eqb_spec (b mod 8) (b' mod 8)) as [He|Hne]; symmetry;
      [apply bool_decide_eq_true|apply bool_decide_eq_false]; [lia|congruence].
  - rewrite bool_decide_eq_false_2; [done|]. intros ->. apply Hc. split; [done|].
    rewrite Hl. word_lia.
Qed.

(** ** The device search *)

Section search.
Context (cfg : Z → Z) (vendor devid : Z).

(** Function [func] of slot [dev] is one the search looks at. *)
Definition scanned (b dev func : Z) : Prop :=
  read_function cfg b dev 0 ≠ None ∧
  (func = 0 ∨ 0 < func < 8 ∧ is_multifunction cfg b dev = true).

Lemma matching_Some b dev func info :
  matching cfg vendor devid b dev func = Some info →
  read_function cfg b dev func = Some info ∧ vendor_id info = vendor ∧ device_id info = devid.
Proof.
  unfold matching. destruct (read_function cfg b dev func) as [i|] eqn:Hr; simpl; [|done].
  destruct (_ && _) eqn:Hc; [|done]. intros [= ->].
  apply andb_true_iff in Hc as [?%Z.eqb_eq ?%Z.eqb_eq]. done.
Qed.

Lemma find_in_slot_Some b dev info :
  find_in_slot cfg vendor devid b dev = Some info →
  ∃ func, scanned b dev func ∧ matching cfg vendor devid b dev func = Some info.
Proof.
  unfold find_in_slot, scanned.
  destruct (read_function cfg b dev 0) as [i|] eqn:Hr; [|done].
  destruct (_ && _) eqn:Hc.
  - intros [= ->]. exists 0. split; [auto|]. unfold matching. by rewrite Hr; simpl; rewrite Hc.
  - destruct (is_multifunction cfg b dev) eqn:Hm; [|done].
    intros (l1 & f & l2 & Hl & Hf & _)%first_some_Some. exists f. split; [|done].
    split; [done|]. right. split; [|done].
    assert (f ∈ seqZ 1 7) as Hin by (rewrite Hl; set_solver).
    apply elem_of_seqZ in Hin. lia.
Qed.

Lemma find_in_slot_None b dev func :
  find_in_slot cfg vendor devid b dev = None → scanned b dev func →
  matching cfg vendor devid b dev func = None.
Proof.
  unfold find_in_slot, scanned.
  destruct (read_function cfg b dev 0) as [i|] eqn:Hr; [|by intros _ []].
  destruct (_ && _) eqn:Hc; [done|]. intros H [_ [->|[Hf Hm]]].
  - unfold matching. rewrite Hr. simpl. by rewrite Hc.
  - rewrite Hm, first_some_None in H. apply H, elem_of_seqZ. lia.
Qed.
End search.

(** ** The enumeration of one slot *)

Lemma enumerate_slot_elem cfg b dev x :
  x ∈ enumerate_slot cfg b dev ↔
  ∃ func, x = (b, dev, func) ∧ scanned cfg b dev func ∧ read_function cfg b dev func ≠ None.
Proof.
  unfold enumerate_slot, parse_device_legacy, scanned.
  destruct (read_function cfg b dev 0) as [i|] eqn:Hr; cbn [negb].
  2: { split; [by intros ?%elem_of_nil|by intros (f & _ & [? _] & _)]. }
  rewrite elem_of_cons. split.
  - intros [->|Hx].
    + exists 0. rewrite Hr. auto.
    + destruct (is_multifunction cfg b dev) eqn:Hm; [|by apply elem_of_nil in Hx].
      apply list_elem_of_fmap in Hx as (f & -> & Hf).
      apply list_elem_of_filter in Hf as [Hp Hf%elem_of_seqZ].
      exists f. split; [done|]. split; [|by destruct (read_function cfg b dev f)].
      split; [done|]. right. split; [lia|done].
  - intros (f & -> & [_ [->|[Hf Hm]]] & Hp); [auto|]. right. rewrite Hm.
    apply list_elem_of_fmap. exists f. split; [done|].
    apply list_elem_of_filter. split; [by destruct (read_function cfg b dev f)|].
    apply elem_of_seqZ. lia.
Qed.

(** The search of [pci_find_device] is sound, complete and ordered: a
    result is a function with the wanted identity in a slot the loops visit,
    and no slot before it (bus first, then device) holds one; a failure means
    that no function of any visited slot has the wanted identity. *)
Theorem pci_find_device_spec cfg vendor devid :
  match pci_find_device cfg vendor devid with
  | Some info => ∃ b dev func,
      0 <= b < 256 ∧ 0 <= dev < 32 ∧ scanned cfg b dev func ∧
      read_function cfg b dev func = Some info ∧
      vendor_id info = vendor ∧ device_id info = devid ∧
      (∀ b' dev' func', 0 <= b' → 0 <= dev' < 32 →
         b' < b ∨ b' = b ∧ dev' < dev → scanned cfg b' dev' func' →
         matching cfg vendor devid b' dev' func' = None)
  | None => ∀ b dev func, 0 <= b < 256 → 0 <= dev < 32 →
      scanned cfg b dev func → matching cfg vendor devid b dev func = None
  end.
Proof.
  unfold pci_find_device. destruct (first_some _ _) as [info|] eqn:Hf.
  - apply first_some_Some in Hf as (l1 & b & l2 & Hl & Hb & Hl1).
    apply first_some_Some in Hb as (k1 & dev & k2 & Hk & Hd & Hk1).
    destruct (find_in_slot_Some _ _ _ _ _ _ Hd) as (func & Hs & Hm).
    pose proof (seqZ_split_at _ _ _ _ _ Hl) as [Hb1 Hb2].
    pose proof (seqZ_split_at _ _ _ _ _ Hk) as [Hd1 Hd2].
    destruct (matching_Some _ _ _ _ _ _ _ Hm) as (? & ? & ?).
    exists b, dev, func. repeat (split; [done||lia|]).
    intros b' dev' func' Hb0 Hd0 Hlt Hs'. eapply find_in_slot_None; [|done].
    destruct Hlt as [Hlt|[-> Hlt]].
    + rewrite Forall_forall in Hl1. specialize (Hl1 b').
      rewrite first_some_None in Hl1. apply Hl1; [apply Hb2; lia|apply elem_of_seqZ; lia].
    + rewrite Forall_forall in Hk1. apply Hk1, Hd2. lia.
  - intros b dev func Hb Hd Hs. rewrite first_some_None in Hf.
    specialize (Hf b). rewrite first_some_None in Hf.
    eapply find_in_slot_None; [|done]. apply Hf; apply elem_of_seqZ; lia.
Qed.

(** Bus enumeration lists exactly the functions that answer on bus 0; a
    bridge found there is printed like any other device and the bus behind it
    is not visited. *)
Theorem enum_pcie_only_bus_zero cfg x :
  x ∈ enum_pcie cfg ↔
  ∃ dev func, x = (0, dev, func) ∧ 0 <= dev < 32 ∧ scanned cfg 0 dev func ∧
              read_function cfg 0 dev func ≠ None.
Proof.
  unfold enum_pcie. change (enumerate_bus cfg 0 clear_bus_visited).1
    with (mjoin (enumerate_slot cfg 0 <$> seqZ 0 32)).
  rewrite list_elem_of_join. split.
  - intros (l & Hx & (dev & -> & Hdev%elem_of_seqZ)%list_elem_of_fmap).
    destruct (enumerate_slot_elem cfg 0 dev x) as [H _].
    destruct (H Hx) as (func & -> & ?). exists dev, func. split; [done|]. split; [lia|done].
  - intros (dev & func & -> & Hdev & Hs).
    exists (enumerate_slot cfg 0 dev). split.
    + apply enumerate_slot_elem. by exists func.
    + apply list_elem_of_fmap_2, elem_of_seqZ. lia.
Qed.

(** ** Base address registers *)

(** A memory BAR read clears the four flag bits and, for a 64-bit BAR,
    takes its upper half from the next register; the sixth BAR never reads
    past the last one and an index above five gives zero. *)
Theorem pci_read_bar_memory cfg fn i :
  let r k := pci_config_read32 cfg (bus fn) (device fn) (function fn) (PCI_REG_BAR0 + k * 4) in
  0 <= i < 256 →
  pci_read_bar cfg fn i =
    if decide (6 <= i) then 0
    else if decide (r i mod 2 = 1) then r i / 4 * 4
    else r i / 16 * 16 +
         (if decide (r i / 2 mod 4 = 2 ∧ i < 5) then r (i + 1) * 4294967296 else 0).
Proof.
  intros r Hi. unfold pci_read_bar.
  destruct (Z.leb_spec 6 i); case_decide; try lia.
  rewrite (u8_id (_ + _)) by (unfold PCI_REG_BAR0; word_lia). fold (r i).
  assert (is_u32 (r i)) as Hr by apply is_u32_u32.
  rewrite (land_ones_mod (r i) 1), (land_ones_mod (Z.shiftr (r i) 1) 2) by lia.
  rewrite (shiftr_div _ 1 2) by lia. change (2 ^ 1) with 2. change (2 ^ 2) with 4.
  change (u32 (Z.lnot 0xf)) with 0xfffffff0. change (u32 (Z.lnot 0x3)) with 0xfffffffc.
  destruct (Z.eqb_spec (r i mod 2) 0) as [H2|H2]; case_decide; try word_lia; simpl.
  - rewrite (clear_low (r i) 4 0xfffffff0) by (done || lia).
    destruct (Z.eqb_spec (r i / 2 mod 4) 2), (Z.ltb_spec i 5); simpl;
      case_decide; try lia; try (change (2 ^ 4) with 16; lia).
    rewrite u8_id by (unfold PCI_REG_BAR0; word_lia).
    replace (PCI_REG_BAR0 + i * 4 + 4) with (PCI_REG_BAR0 + (i + 1) * 4) by lia. fold (r (i + 1)).
    rewrite (shiftl_mul _ 32 4294967296), Z.lor_comm by lia.
    change 4294967296 with (2 ^ 32). rewrite lor_disjoint; [|lia|].
    + change (2 ^ 4) with 16. lia.
    + change (2 ^ 4) with 16. word_lia.
  - rewrite (clear_low (r i) 2 0xfffffffc) by (done || lia). done.
Qed.

(** A configuration space with a 64-bit memory BAR 0 at 0xfe004000. *)
Definition example_cfg (addr : Z) : Z :=
  if addr =? pci_config_address 0 1 0 16 then 0xfe00400c
  else if addr =? pci_config_address 0 1 0 20 then 1 else 0.

Lemma pci_read_bar_memory_witness :
  let fn := mkPciFunction 0 1 0 0x1af4 0x1041 2 0 0 1 0 in
  0 <= 0 < 256 ∧ pci_read_bar example_cfg fn 0 = 0x1fe004000.
Proof.
  intros fn. split; [lia|]. pose proof (pci_read_bar_memory example_cfg fn 0) as H.
  cbv zeta in H. rewrite H by lia. vm_compute. reflexivity.
Defined.
