(* ===== verification/VirtioHw.v ===== *)
(** * Live virtio-net queues (kernel/virtio_net.h, kernel/virtio_net.cc)

    The split virtqueues the driver shares with the device: descriptor table,
    available ring (driver to device) and used ring (device to driver), the
    packet buffers and the driver's bookkeeping [g_hw].  The driver's functions
    run under [g_net.lock]; the device is the environment, a step relation
    [dev_step] over the same memory.  MMIO doorbell writes are recorded in
    order.  Descriptor addresses stay symbolic. *)

From S2P Require Import Prelude Pcie.

Definition VIRTIO_NET_QUEUE_SIZE : Z := 8.
Definition VIRTIO_NET_MAX_FRAME_SIZE : Z := 2048.
Definition VIRTQ_DESC_F_WRITE : Z := 2.
Definition VIRTIO_NET_RX_QUEUE : Z := 0.
Definition VIRTIO_NET_TX_QUEUE : Z := 1.

Abbreviation QSIZE := 8%nat (only parsing).

(** ** Ring memory *)

(** The value of a descriptor's [addr] field: a page's physical address, or the
    address of the data array of slot [i] of the fake backend. *)
Inductive dma_addr := addr_null | addr_pa (pa : Z) | addr_tx_slot (i : Z) | addr_rx_slot (i : Z).

Record VirtioNetDescriptor := mkDesc {
  d_addr : dma_addr; d_len : Z; d_flags : Z; d_next : Z
}.
#[export] Instance desc_inhabited : Inhabited VirtioNetDescriptor :=
  populate (mkDesc addr_null 0 0 0).
#[export] Instance eta_desc : Eta VirtioNetDescriptor := fun d =>
  mkDesc (d_addr d) (d_len d) (d_flags d) (d_next d).

Record VirtioNetAvailRing := mkAvail { av_flags : Z; av_idx : Z; av_ring : list Z }.
#[export] Instance eta_avail : Eta VirtioNetAvailRing := fun a =>
  mkAvail (av_flags a) (av_idx a) (av_ring a).

Record VirtioNetUsedElem := mkUsedElem { ue_id : Z; ue_len : Z }.
#[export] Instance elem_inhabited : Inhabited VirtioNetUsedElem := populate (mkUsedElem 0 0).

Record VirtioNetUsedRing := mkUsed { us_flags : Z; us_idx : Z; us_ring : list VirtioNetUsedElem }.
#[export] Instance eta_used : Eta VirtioNetUsedRing := fun u =>
  mkUsed (us_flags u) (us_idx u) (us_ring u).

Definition avail_zero : VirtioNetAvailRing := mkAvail 0 0 (replicate QSIZE 0).
Definition used_zero : VirtioNetUsedRing := mkUsed 0 0 (replicate QSIZE (mkUsedElem 0 0)).

(** Ring positions: the free-running 16-bit index modulo the queue size. *)
Definition ring_pos (idx : Z) : nat := Z.to_nat (idx mod VIRTIO_NET_QUEUE_SIZE).

(** [ring[idx % SIZE] = slot; ++idx]. *)
Definition avail_push (slot : Z) (a : VirtioNetAvailRing) : VirtioNetAvailRing :=
  mkAvail (av_flags a) (u16 (av_idx a + 1)) (<[ring_pos (av_idx a) := slot]> (av_ring a)).
Definition used_push (e : VirtioNetUsedElem) (u : VirtioNetUsedRing) : VirtioNetUsedRing :=
  mkUsed (us_flags u) (u16 (us_idx u + 1)) (<[ring_pos (us_idx u) := e]> (us_ring u)).

(** ** Driver state *)

Record VirtioBuffer := mkBuffer { b_data : bytes; b_pa : Z; b_in_use : bool; b_len : Z }.
#[export] Instance buffer_inhabited : Inhabited VirtioBuffer := populate (mkBuffer [] 0 false 0).
#[export] Instance eta_buffer : Eta VirtioBuffer := fun b =>
  mkBuffer (b_data b) (b_pa b) (b_in_use b) (b_len b).

Record VirtioQueue := mkQueue {
  q_desc : list VirtioNetDescriptor; q_avail : VirtioNetAvailRing; q_used : VirtioNetUsedRing;
  q_desc_pa : Z; q_avail_pa : Z; q_used_pa : Z;
  q_notify : option Z; q_used_consume : Z; q_pending : Z
}.
#[export] Instance eta_queue : Eta VirtioQueue := fun q =>
  mkQueue (q_desc q) (q_avail q) (q_used q) (q_desc_pa q) (q_avail_pa q) (q_used_pa q)
    (q_notify q) (q_used_consume q) (q_pending q).

Record VirtioHwState := mkHw {
  hw_ready : bool; hw_rx : VirtioQueue; hw_tx : VirtioQueue;
  rx_buffers : list VirtioBuffer; tx_buffers : list VirtioBuffer;
  hw_mac : bytes; hw_features : Z;
  doorbells : list (Z * Z)
}.
#[export] Instance eta_hw : Eta VirtioHwState := fun h =>
  mkHw (hw_ready h) (hw_rx h) (hw_tx h) (rx_buffers h) (tx_buffers h) (hw_mac h)
    (hw_features h) (doorbells h).

(** [sizeof(VirtioNetHdr)] and the size of one packet buffer. *)
Definition VirtioNetHdr_size : Z := 12.
Definition k_virtio_buffer_size : Z := VirtioNetHdr_size + VIRTIO_NET_MAX_FRAME_SIZE.

Definition next_index (idx : Z) : Z := u16 ((idx + 1) mod VIRTIO_NET_QUEUE_SIZE).

(** [*queue.notify = queue_index], when the doorbell is mapped. *)
Definition notify_queue (q : VirtioQueue) (queue_index : Z) (h : VirtioHwState) : VirtioHwState :=
  match q_notify q with
  | Some a => h .[ doorbells := doorbells h ++ [(a, queue_index)] ]
  | None => h
  end.

(** ** Initialisation of the rings *)

Definition init_rx_buffers_locked (h : VirtioHwState) : VirtioHwState :=
  let bufs := (λ b, b .[ b_in_use := true ] .[ b_len := 0 ]) <$> rx_buffers h in
  let q := hw_rx h in
  let q := q .[ q_desc :=
      (λ b, mkDesc (addr_pa (b_pa b)) k_virtio_buffer_size VIRTQ_DESC_F_WRITE 0) <$> bufs ]
    .[ q_avail := mkAvail 0 VIRTIO_NET_QUEUE_SIZE (seqZ 0 8) ]
    .[ q_used := (q_used q) .[ us_flags := 0 ] .[ us_idx := 0 ] ]
    .[ q_used_consume := 0 ] in
  notify_queue q VIRTIO_NET_RX_QUEUE (h .[ rx_buffers := bufs ] .[ hw_rx := q ]).

Definition init_tx_buffers_locked (h : VirtioHwState) : VirtioHwState :=
  let bufs := (λ b, b .[ b_in_use := false ] .[ b_len := 0 ]) <$> tx_buffers h in
  let q := hw_tx h in
  let q := q .[ q_desc := (λ b, mkDesc (addr_pa (b_pa b)) 0 0 0) <$> bufs ]
    .[ q_avail := (q_avail q) .[ av_flags := 0 ] .[ av_idx := 0 ] ]
    .[ q_used := (q_used q) .[ us_flags := 0 ] .[ us_idx := 0 ] ]
    .[ q_used_consume := 0 ] .[ q_pending := 0 ] in
  h .[ tx_buffers := bufs ] .[ hw_tx := q ].

(** ** Transmit *)

(** One turn of the loop of [reclaim_virtio_tx_locked]. *)
Definition reclaim_one (h : VirtioHwState) : VirtioHwState :=
  let q := hw_tx h in
  let e := us_ring (q_used q) !!! ring_pos (q_used_consume q) in
  let slot := u16 (ue_id e) in
  let h' :=
    if (slot <? VIRTIO_NET_QUEUE_SIZE) && b_in_use (tx_buffers h !!! Z.to_nat slot) then
      let b := tx_buffers h !!! Z.to_nat slot in
      h .[ tx_buffers := <[Z.to_nat slot := b .[ b_in_use := false ] .[ b_len := 0 ]]> (tx_buffers h) ]
        .[ hw_tx := q .[ q_pending := if 0 <? q_pending q then q_pending q - 1 else q_pending q ] ]
    else h in
  h' .[ hw_tx := (hw_tx h') .[ q_used_consume := u16 (q_used_consume (hw_tx h') + 1) ] ].

(** The loop, with the number of turns it is allowed. *)
Fixpoint reclaim_loop (fuel : nat) (h : VirtioHwState) : VirtioHwState :=
  if q_used_consume (hw_tx h) =? us_idx (q_used (hw_tx h)) then h
  else match fuel with O => h | S fuel' => reclaim_loop fuel' (reclaim_one h) end.

(** A 16-bit index reaches any other in fewer than 2^16 steps. *)
Definition ring_distance (from to : Z) : Z := u16 (to - from).

Definition reclaim_virtio_tx_locked (h : VirtioHwState) : VirtioHwState :=
  reclaim_loop
    (Z.to_nat (ring_distance (q_used_consume (hw_tx h)) (us_idx (q_used (hw_tx h))))) h.

Definition find_free_virtio_tx_slot_locked (h : VirtioHwState) : Z :=
  if VIRTIO_NET_QUEUE_SIZE <=? q_pending (hw_tx h) then -1
  else match first_some (λ i, if b_in_use (tx_buffers h !!! Z.to_nat i) then None else Some i)
               (seqZ 0 8) with
       | Some i => i
       | None => -1
       end.

Definition virtio_send_raw_locked (data : bytes) (len : Z) (h : VirtioHwState)
    : option (bool * VirtioHwState) :=
  let h := reclaim_virtio_tx_locked h in
  let slot := find_free_virtio_tx_slot_locked h in
  if slot <? 0 then Some (false, h)
  else
    let i := Z.to_nat slot in
    let b := tx_buffers h !!! i in
    d ← store_n (b_data b) 0 (replicate 12 0);
    d ← copy_bytes d 12 data 0 (Z.to_nat len);
    let total_len := VirtioNetHdr_size + len in
    let b := b .[ b_data := d ] .[ b_in_use := true ] .[ b_len := u16 total_len ] in
    let q := hw_tx h in
    let q := q .[ q_desc := <[i := mkDesc (addr_pa (b_pa b)) (u32 total_len) 0 0]> (q_desc q) ]
      .[ q_avail := avail_push (u16 slot) (q_avail q) ]
      .[ q_pending := u16 (q_pending q + 1) ] in
    let h := h .[ tx_buffers := <[i := b]> (tx_buffers h) ] .[ hw_tx := q ] in
    Some (true, notify_queue q VIRTIO_NET_TX_QUEUE h).

(** ** Receive *)

(** The result is the return value, the contents of [out] and the state. *)
Definition virtio_recv_raw_locked (out : bytes) (max_len : Z) (h : VirtioHwState)
    : option (Z * bytes * VirtioHwState) :=
  let q := hw_rx h in
  if q_used_consume q =? us_idx (q_used q) then Some (0, out, h)
  else
    let e := us_ring (q_used q) !!! ring_pos (q_used_consume q) in
    let slot := u16 (ue_id e) in
    let total_len := ue_len e in
    let consumed := u16 (q_used_consume q + 1) in
    if (VIRTIO_NET_QUEUE_SIZE <=? slot) || (total_len <? VirtioNetHdr_size) then
      Some (0, out, h .[ hw_rx := q .[ q_used_consume := consumed ] ])
    else
      let frame_len := total_len - VirtioNetHdr_size in
      if max_len <? frame_len then Some (-1, out, h)
      else
        let i := Z.to_nat slot in
        let b := rx_buffers h !!! i in
        out' ← copy_bytes out 0 (b_data b) 12 (Z.to_nat frame_len);
        let q := q .[ q_desc :=
              <[i := mkDesc (addr_pa (b_pa b)) k_virtio_buffer_size VIRTQ_DESC_F_WRITE 0]> (q_desc q) ]
          .[ q_used_consume := consumed ]
          .[ q_avail := avail_push slot (q_avail q) ] in
        Some (frame_len, out', notify_queue q VIRTIO_NET_RX_QUEUE (h .[ hw_rx := q ])).

(** ** Windows of a ring

    The entries a consumer has still to read: [n] positions from index [c]. *)

Section window.
Context {A : Type} `{!Inhabited A}.

Fixpoint window (r : list A) (c : Z) (n : nat) : list A :=
  match n with
  | O => []
  | S n' => r !!! ring_pos c :: window r (u16 (c + 1)) n'
  end.

Lemma window_length r c n : length (window r c n) = n.
Proof. revert c. induction n as [|n IH]; intros c; simpl; [done|]. by rewrite IH. Qed.

Lemma ring_pos_u16 c : ring_pos (u16 c) = ring_pos c.
Proof. unfold ring_pos, VIRTIO_NET_QUEUE_SIZE. f_equal. word_lia. Qed.

Lemma ring_pos_succ c k : ring_pos (u16 (c + 1) + Z.of_nat k) = ring_pos (c + Z.of_nat (S k)).
Proof. unfold ring_pos, VIRTIO_NET_QUEUE_SIZE. f_equal. word_lia. Qed.

Lemma ring_pos_lt c : (ring_pos c < 8)%nat.
Proof. unfold ring_pos, VIRTIO_NET_QUEUE_SIZE. word_lia. Qed.

Lemma ring_pos_add_inj c j k :
  0 <= j < 8 → 0 <= k < 8 → ring_pos (c + j) = ring_pos (c + k) → j = k.
Proof. unfold ring_pos, VIRTIO_NET_QUEUE_SIZE. intros. word_lia. Qed.

Lemma window_insert_out r c n p x :
  (∀ k, (k < n)%nat → ring_pos (c + Z.of_nat k) ≠ p) →
  window (<[p := x]> r) c n = window r c n.
Proof.
  revert c. induction n as [|n IH]; intros c Hp; simpl; [done|]. f_equal.
  - rewrite list_lookup_total_insert_ne; [done|].
    specialize (Hp 0%nat). rewrite Z.add_0_r in Hp. intros ->. apply Hp; [lia|done].
  - apply IH. intros k Hk. rewrite ring_pos_succ. apply Hp. lia.
Qed.

Lemma window_push r c i n x :
  length r = 8%nat → (n < 8)%nat → u16 i = u16 (c + Z.of_nat n) →
  window (<[ring_pos i := x]> r) c (S n) = window r c n ++ [x].
Proof.
  intros Hr Hn Hi. rewrite <- (ring_pos_u16 i), Hi, ring_pos_u16. clear Hi.
  revert c. induction n as [|n IH]; intros c; simpl.
  - rewrite Z.add_0_r, list_lookup_total_insert_eq; [done|].
    rewrite Hr. apply ring_pos_lt.
  - f_equal.
    + apply list_lookup_total_insert_ne. intros H.
      rewrite <- (Z.add_0_r c) in H at 2. apply ring_pos_add_inj in H; lia.
    + change (Z.pos (Pos.of_succ_nat n)) with (Z.of_nat (S n)). rewrite <- ring_pos_succ. apply IH. lia.
Qed.

Lemma window_snoc r c n :
  window r c (S n) = window r c n ++ [r !!! ring_pos (c + Z.of_nat n)].
Proof.
  revert c. induction n as [|n IH]; intros c.
  - simpl. by rewrite Z.add_0_r.
  - cbn [window] in *. by rewrite IH, ring_pos_succ.
Qed.
End window.

Lemma ring_distance_range c i : is_u16 (ring_distance c i).
Proof. apply is_u16_u16. Qed.

Lemma ring_distance_0 c i : is_u16 c → is_u16 i → ring_distance c i = 0 ↔ c = i.
Proof. unfold ring_distance. intros. split; intros; word_lia. Qed.

Lemma ring_distance_step c i :
  is_u16 c → is_u16 i → c ≠ i →
  ring_distance c i = 1 + ring_distance (u16 (c + 1)) i.
Proof. unfold ring_distance. intros. word_lia. Qed.

Lemma ring_distance_push c i :
  is_u16 c → is_u16 i → ring_distance c i < 65535 →
  ring_distance c (u16 (i + 1)) = ring_distance c i + 1.
Proof. unfold ring_distance. intros. word_lia. Qed.

(** ** The device

    The transmit side of the device, as the environment of the driver: it takes
    published descriptor heads in the order of the available ring, reads the
    frame they describe by DMA, and later completes the heads it has taken, in
    any order, by entries of the used ring. *)

(** The frame behind descriptor [slot]: the bytes after the virtio header. *)
Definition dma_frame (h : VirtioHwState) (slot : Z) : option bytes :=
  let d := q_desc (hw_tx h) !!! Z.to_nat slot in
  b ← first_some (λ b, match d_addr d with
                       | addr_pa pa => if pa =? b_pa b then Some b else None
                       | _ => None
                       end) (tx_buffers h);
  bs ← load_n (b_data b) 0 (Z.to_nat (d_len d));
  Some (drop 12 bs).

Record TxSys := mkTxSys {
  ts_hw : VirtioHwState;
  ts_seen : Z;             (* the device's position in the available ring *)
  ts_taken : list Z;       (* heads the device has read and not completed *)
  ts_wire : list bytes;    (* frames put on the wire *)
  ts_sent : list bytes     (* frames the driver accepted *)
}.

Inductive tx_step (s : TxSys) : TxSys → Prop :=
| tx_step_send data len ok h' :
    1 <= len <= VIRTIO_NET_MAX_FRAME_SIZE → len <= Z.of_nat (length data) →
    virtio_send_raw_locked data len (ts_hw s) = Some (ok, h') →
    tx_step s (mkTxSys h' (ts_seen s) (ts_taken s) (ts_wire s)
      (if ok : bool then ts_sent s ++ [take (Z.to_nat len) data] else ts_sent s))
| tx_step_recv out max_len n out' h' :
    virtio_recv_raw_locked out max_len (ts_hw s) = Some (n, out', h') →
    tx_step s (mkTxSys h' (ts_seen s) (ts_taken s) (ts_wire s) (ts_sent s))
| tx_step_take slot frame :
    ts_seen s ≠ av_idx (q_avail (hw_tx (ts_hw s))) →
    slot = av_ring (q_avail (hw_tx (ts_hw s))) !!! ring_pos (ts_seen s) →
    dma_frame (ts_hw s) slot = Some frame →
    tx_step s (mkTxSys (ts_hw s) (u16 (ts_seen s + 1)) (ts_taken s ++ [slot])
      (ts_wire s ++ [frame]) (ts_sent s))
| tx_step_complete l1 slot l2 len :
    ts_taken s = l1 ++ slot :: l2 →
    tx_step s (mkTxSys
      ((ts_hw s) .[ hw_tx := (hw_tx (ts_hw s))
         .[ q_used := used_push (mkUsedElem slot len) (q_used (hw_tx (ts_hw s))) ] ])
      (ts_seen s) (l1 ++ l2) (ts_wire s) (ts_sent s)).

(** What [alloc_queue_pages] and [alloc_packet_buffers] establish: eight slots
    everywhere and eight distinct pages, each large enough for a frame. *)
Record tx_allocated (bufs : list VirtioBuffer) (q : VirtioQueue) : Prop := {
  ta_bufs : length bufs = QSIZE;
  ta_avail : length (av_ring (q_avail q)) = QSIZE;
  ta_used : length (us_ring (q_used q)) = QSIZE;
  ta_pages : Forall (λ b, k_virtio_buffer_size <= Z.of_nat (length (b_data b))) bufs;
  ta_distinct : NoDup (b_pa <$> bufs)
}.

Definition tx_init (s : TxSys) : Prop :=
  ∃ h, tx_allocated (tx_buffers h) (hw_tx h) ∧
    s = mkTxSys (init_tx_buffers_locked h) 0 [] [] [].

Definition tx_reachable (s : TxSys) : Prop := ∃ s0, tx_init s0 ∧ rtc tx_step s0 s.

(** Heads published and not yet taken, and completions not yet reclaimed. *)
Definition tx_published (s : TxSys) : list Z :=
  let a := q_avail (hw_tx (ts_hw s)) in
  window (av_ring a) (ts_seen s) (Z.to_nat (ring_distance (ts_seen s) (av_idx a))).
Definition tx_completed (q : VirtioQueue) : list Z :=
  (λ e, u16 (ue_id e)) <$>
    window (us_ring (q_used q)) (q_used_consume q)
      (Z.to_nat (ring_distance (q_used_consume q) (us_idx (q_used q)))).

(** ** The ownership invariant

    [W], [T] and [P] are the heads completed but not reclaimed, taken by the
    device, and published but not taken. *)

Record tx_ok (h : VirtioHwState) (W T P : list Z) : Prop := {
  ok_alloc : tx_allocated (tx_buffers h) (hw_tx h);
  ok_desc : length (q_desc (hw_tx h)) = QSIZE;
  ok_addr : ∀ i, (i < 8)%nat →
    d_addr (q_desc (hw_tx h) !!! i) = addr_pa (b_pa (tx_buffers h !!! i));
  ok_avail_idx : is_u16 (av_idx (q_avail (hw_tx h)));
  ok_used_idx : is_u16 (us_idx (q_used (hw_tx h)));
  ok_consume_idx : is_u16 (q_used_consume (hw_tx h));
  ok_completed : W = tx_completed (hw_tx h);
  ok_nodup : NoDup (W ++ T ++ P);
  ok_use : ∀ i, i ∈ W ++ T ++ P ↔ 0 <= i < 8 ∧ b_in_use (tx_buffers h !!! Z.to_nat i) = true;
  ok_pending : q_pending (hw_tx h) = Z.of_nat (length (W ++ T ++ P))
}.

Record TxInv (s : TxSys) : Prop := {
  inv_ok : tx_ok (ts_hw s) (tx_completed (hw_tx (ts_hw s))) (ts_taken s) (tx_published s);
  inv_seen : is_u16 (ts_seen s);
  inv_order : ∃ frames, mapM (dma_frame (ts_hw s)) (tx_published s) = Some frames ∧
    ts_sent s = ts_wire s ++ frames
}.

Lemma slots_bound (l : list Z) : NoDup l → (∀ i, i ∈ l → 0 <= i < 8) → (length l <= 8)%nat.
Proof.
  intros Hnd Hr. change 8%nat with (length (seqZ 0 8)).
  apply submseteq_length, NoDup_submseteq; [done|].
  intros i Hi%Hr. apply elem_of_seqZ. lia.
Qed.

Lemma owned_bound h W T P : tx_ok h W T P → (length (W ++ T ++ P) <= 8)%nat.
Proof.
  intros H. apply slots_bound; [apply H|]. intros i Hi%(ok_use _ _ _ _ H). tauto.
Qed.

(** What the device can see of a packet buffer. *)
Definition pages (h : VirtioHwState) : list (Z * bytes) :=
  (λ b, (b_pa b, b_data b)) <$> tx_buffers h.

(** The operation left everything the device can see unchanged. *)
Definition same_dma (h h' : VirtioHwState) : Prop :=
  pages h' = pages h ∧ q_desc (hw_tx h') = q_desc (hw_tx h) ∧ q_avail (hw_tx h') = q_avail (hw_tx h).

Lemma dma_frame_same h h' i : same_dma h h' → dma_frame h' i = dma_frame h i.
Proof.
  intros (Hp & Hd & _). unfold dma_frame. rewrite Hd. clear Hd. cbv zeta.
  generalize (q_desc (hw_tx h) !!! Z.to_nat i). intros d.
  unfold pages in Hp. revert Hp.
  generalize (tx_buffers h) as l, (tx_buffers h') as l'. intros l.
  induction l as [|b l IH]; intros [|b' l'] Hp; try discriminate; [done|].
  injection Hp as Hpa Hdat Hl. specialize (IH _ Hl). cbn [first_some].
  destruct (d_addr d) as [|pa| |]; try exact IH.
  rewrite Hpa. destruct (pa =? b_pa b); [|exact IH].
  cbn [mbind option_bind]. by rewrite Hdat.
Qed.

Lemma same_dma_trans h1 h2 h3 : same_dma h1 h2 → same_dma h2 h3 → same_dma h1 h3.
Proof. unfold same_dma. intros (?&?&?) (?&?&?). split_and!; congruence. Qed.

(** The slot the code reads is the buffer that the descriptor names. *)
Lemma dma_frame_slot h W T P i :
  tx_ok h W T P → 0 <= i < 8 →
  dma_frame h i =
    bs ← load_n (b_data (tx_buffers h !!! Z.to_nat i)) 0
           (Z.to_nat (d_len (q_desc (hw_tx h) !!! Z.to_nat i)));
    Some (drop 12 bs).
Proof.
  intros H Hi. unfold dma_frame. cbv zeta. rewrite (ok_addr _ _ _ _ H) by lia.
  destruct (ok_alloc _ _ _ _ H) as [Hl _ _ _ Hpa].
  set (n := Z.to_nat i). assert (n < length (tx_buffers h))%nat as Hn by lia.
  apply lookup_lt_is_Some in Hn as [b Hb].
  rewrite (list_lookup_total_correct _ _ _ Hb).
  assert (first_some (λ b', if b_pa b =? b_pa b' then Some b' else None) (tx_buffers h) = Some b) as ->;
    [|done].
  apply first_some_Some. exists (take n (tx_buffers h)), b, (drop (S n) (tx_buffers h)).
  split_and!.
  - by rewrite take_drop_middle.
  - by rewrite Z.eqb_refl.
  - apply Forall_lookup. intros j b' Hj.
    apply lookup_take_Some in Hj as [Hj Hlt].
    destruct (Z.eqb_spec (b_pa b) (b_pa b')) as [He|]; [|done].
    assert (j = n); [|lia].
    eapply NoDup_lookup; [exact Hpa|..]; rewrite list_lookup_fmap; [by rewrite Hj|].
    by rewrite Hb, <- He.
Qed.

(** ** Reclaiming completions *)

Lemma tx_completed_cons h w W T P :
  tx_ok h (w :: W) T P →
  let q := hw_tx h in
  q_used_consume q ≠ us_idx (q_used q) ∧
  w = u16 (ue_id (us_ring (q_used q) !!! ring_pos (q_used_consume q))) ∧
  W = (λ e, u16 (ue_id e)) <$> window (us_ring (q_used q)) (u16 (q_used_consume q + 1))
        (Z.to_nat (ring_distance (u16 (q_used_consume q + 1)) (us_idx (q_used q)))).
Proof.
  intros H. pose proof (ok_completed _ _ _ _ H) as Hc.
  pose proof (ok_consume_idx _ _ _ _ H) as Hcr. pose proof (ok_used_idx _ _ _ _ H) as Hur.
  unfold tx_completed in Hc. cbv zeta.
  destruct (decide (q_used_consume (hw_tx h) = us_idx (q_used (hw_tx h)))) as [He|Hne].
  - apply ring_distance_0 in He; [|done..]. by rewrite He in Hc.
  - rewrite ring_distance_step in Hc by done.
    pose proof (ring_distance_range (u16 (q_used_consume (hw_tx h) + 1)) (us_idx (q_used (hw_tx h)))).
    rewrite Z2Nat.inj_add in Hc by word_lia. change (Z.to_nat 1 + ?n)%nat with (S n) in Hc.
    cbn [window] in Hc. rewrite fmap_cons in Hc. injection Hc as -> ->. done.
Qed.

Lemma tx_completed_nil h T P :
  tx_ok h [] T P → q_used_consume (hw_tx h) = us_idx (q_used (hw_tx h)).
Proof.
  intros H. pose proof (ok_completed _ _ _ _ H) as Hc. unfold tx_completed in Hc.
  apply ring_distance_0; [apply H..|].
  pose proof (ring_distance_range (q_used_consume (hw_tx h)) (us_idx (q_used (hw_tx h)))).
  apply (f_equal length) in Hc. rewrite length_fmap, window_length in Hc. simpl in Hc. word_lia.
Qed.

Lemma pages_free_slot (l : list VirtioBuffer) (n : nat) (f : VirtioBuffer → VirtioBuffer) :
  (∀ b, b_pa (f b) = b_pa b ∧ b_data (f b) = b_data b) →
  (λ b, (b_pa b, b_data b)) <$> <[n := f (l !!! n)]> l = (λ b, (b_pa b, b_data b)) <$> l.
Proof.
  intros Hf. rewrite list_fmap_insert. destruct (Hf (l !!! n)) as [-> ->].
  destruct (decide (n < length l)%nat).
  - apply list_insert_id. rewrite list_lookup_fmap.
    by rewrite (list_lookup_lookup_total_lt l n) by lia.
  - apply list_insert_ge. rewrite length_fmap. lia.
Qed.

(** [tx_allocated] and [ok_addr] speak of the pages only. *)
Lemma pages_b_pa (l l' : list VirtioBuffer) :
  (λ b, (b_pa b, b_data b)) <$> l' = (λ b, (b_pa b, b_data b)) <$> l →
  b_pa <$> l' = b_pa <$> l ∧ b_data <$> l' = b_data <$> l ∧ length l' = length l.
Proof.
  intros H. split_and!.
  - apply (f_equal (fmap fst)) in H. by rewrite <- !list_fmap_compose in H.
  - apply (f_equal (fmap snd)) in H. by rewrite <- !list_fmap_compose in H.
  - apply (f_equal length) in H. by rewrite !length_fmap in H.
Qed.

Lemma allocated_same_pages l q l' q' :
  (λ b, (b_pa b, b_data b)) <$> l' = (λ b, (b_pa b, b_data b)) <$> l →
  length (av_ring (q_avail q')) = length (av_ring (q_avail q)) →
  length (us_ring (q_used q')) = length (us_ring (q_used q)) →
  tx_allocated l q → tx_allocated l' q'.
Proof.
  intros Hp Ha Hu []. apply pages_b_pa in Hp as (Hpa & Hd & Hl).
  constructor; try congruence.
  rewrite <- (Forall_fmap b_data (λ d, k_virtio_buffer_size <= Z.of_nat (length d))) in ta_pages0 |- *.
  by rewrite Hd.
Qed.

Lemma total_lookup_pa (l l' : list VirtioBuffer) i :
  b_pa <$> l' = b_pa <$> l → (i < length l)%nat → b_pa (l' !!! i) = b_pa (l !!! i).
Proof.
  intros H Hi. assert (length l' = length l) as Hl.
  { apply (f_equal length) in H. by rewrite !length_fmap in H. }
  apply (f_equal (.!! i)) in H. rewrite !list_lookup_fmap in H.
  rewrite !list_lookup_lookup_total_lt in H by lia. simpl in H. congruence.
Qed.

Lemma reclaim_one_eq h w W T P :
  tx_ok h (w :: W) T P →
  let q := hw_tx h in let b := tx_buffers h !!! Z.to_nat w in
  reclaim_one h =
    h .[ tx_buffers := <[Z.to_nat w := b .[ b_in_use := false ] .[ b_len := 0 ]]> (tx_buffers h) ]
      .[ hw_tx := q .[ q_pending := q_pending q - 1 ]
                    .[ q_used_consume := u16 (q_used_consume q + 1) ] ].
Proof.
  intros H. cbv zeta. destruct (tx_completed_cons _ _ _ _ _ H) as (_ & Hw & _).
  assert (w ∈ (w :: W) ++ T ++ P) as Hin by (by left).
  apply (ok_use _ _ _ _ H) in Hin as [Hr Hu].
  unfold reclaim_one. cbv zeta. rewrite <- Hw, Hu.
  rewrite (proj2 (Z.ltb_lt w _)) by (unfold VIRTIO_NET_QUEUE_SIZE; lia). cbn [andb].
  rewrite (proj2 (Z.ltb_lt 0 _)); [done|].
  rewrite (ok_pending _ _ _ _ H). simpl. lia.
Qed.

Lemma reclaim_one_ok h w W T P :
  tx_ok h (w :: W) T P →
  tx_ok (reclaim_one h) W T P ∧ same_dma h (reclaim_one h) ∧
  us_idx (q_used (hw_tx (reclaim_one h))) = us_idx (q_used (hw_tx h)).
Proof.
  intros H. rewrite (reclaim_one_eq _ _ _ _ _ H). cbv zeta.
  assert (w ∈ (w :: W) ++ T ++ P) as Hin by (by left).
  apply (ok_use _ _ _ _ H) in Hin as [Hr Hu].
  destruct (tx_completed_cons _ _ _ _ _ H) as (_ & _ & HW).
  set (l' := <[Z.to_nat w := _]> (tx_buffers h)).
  assert ((λ b, (b_pa b, b_data b)) <$> l' = (λ b, (b_pa b, b_data b)) <$> tx_buffers h) as Hpg.
  { apply (pages_free_slot _ _ (λ b, b .[ b_in_use := false ] .[ b_len := 0 ])). done. }
  destruct H as [Hal Hd Had Ha Hui Huc _ Hnd Hus Hpe].
  pose proof (ta_bufs _ _ Hal) as Hlen.
  split_and!; [|split_and!; done|done].
  constructor; simpl; try done.
  - by apply (allocated_same_pages (tx_buffers h) (hw_tx h)).
  - intros i Hi. rewrite Had by done. f_equal. symmetry.
    apply total_lookup_pa; [|lia]. by apply pages_b_pa.
  - auto with words.
  - by inversion Hnd.
  - intros i. inversion Hnd as [|?? Hni Hnd']; subst. specialize (Hus i).
    simpl in Hus. rewrite elem_of_cons in Hus. unfold l'.
    destruct (decide (i = w)) as [->|Hne].
    + rewrite list_lookup_total_insert_eq by lia. split; [by intros ?%Hni|by intros [_ ?]].
    + destruct (decide (0 <= i < 8)); [|split; [intros ?; exfalso; tauto|tauto]].
      rewrite list_lookup_total_insert_ne by lia. tauto.
  - rewrite Hpe. simpl. lia.
Qed.

Lemma reclaim_loop_ok W fuel h T P :
  tx_ok h W T P → (length W <= fuel)%nat →
  let h' := reclaim_loop fuel h in
  tx_ok h' [] T P ∧ same_dma h h'.
Proof.
  revert fuel h. induction W as [|w W IH]; intros fuel h H Hf; cbv zeta.
  - pose proof (tx_completed_nil _ _ _ H) as He.
    assert (reclaim_loop fuel h = h) as ->; [|done].
    destruct fuel; simpl; by rewrite (proj2 (Z.eqb_eq _ _) He).
  - destruct fuel as [|fuel]; simpl in Hf; [lia|]. simpl.
    destruct (tx_completed_cons _ _ _ _ _ H) as (Hne & _).
    rewrite (proj2 (Z.eqb_neq _ _) Hne).
    destruct (reclaim_one_ok _ _ _ _ _ H) as (H1 & Hs & _).
    destruct (IH fuel _ H1) as [H2 Hs2]; [lia|].
    split; [done|]. by eapply same_dma_trans.
Qed.

Lemma reclaim_virtio_tx_ok h W T P :
  tx_ok h W T P →
  tx_ok (reclaim_virtio_tx_locked h) [] T P ∧ same_dma h (reclaim_virtio_tx_locked h).
Proof.
  intros H. apply (reclaim_loop_ok W); [done|].
  rewrite (ok_completed _ _ _ _ H). unfold tx_completed.
  by rewrite length_fmap, window_length.
Qed.

(** ** Publishing a frame *)

Lemma find_free_slot_spec h T P :
  tx_ok h [] T P →
  (find_free_virtio_tx_slot_locked h = -1 ∧ length (T ++ P) = 8%nat) ∨
  (∃ slot, find_free_virtio_tx_slot_locked h = slot ∧ 0 <= slot < 8 ∧ (slot ∉ (T ++ P)) ∧
     (length (T ++ P) < 8)%nat).
Proof.
  intros H. pose proof (owned_bound _ _ _ _ H) as Hb. pose proof (ok_pending _ _ _ _ H) as Hp.
  pose proof (ok_use _ _ _ _ H) as Hu.
  change ([] ++ T ++ P) with (T ++ P) in *.
  unfold find_free_virtio_tx_slot_locked, VIRTIO_NET_QUEUE_SIZE.
  destruct (Z.leb_spec 8 (q_pending (hw_tx h))) as [Hfull|Hfree]; [left; split; [done|lia]|].
  right. set (f := λ i, if b_in_use _ then _ else _).
  destruct (first_some f (seqZ 0 8)) as [s|] eqn:Hs.
  - apply first_some_Some in Hs as (l1 & s' & l2 & Hl & Hf & _). subst f. simpl in Hf.
    destruct (b_in_use (tx_buffers h !!! Z.to_nat s')) eqn:Hus; simplify_eq.
    apply seqZ_split_at in Hl as [Hr _]. exists s. split_and!; [done|lia..| |lia].
    intros [_ ?]%Hu. congruence.
  - exfalso. rewrite first_some_None in Hs.
    assert (length (seqZ 0 8) <= length (T ++ P))%nat; [|rewrite length_seqZ in *; lia].
    apply submseteq_length, NoDup_submseteq; [apply NoDup_seqZ|].
    intros i Hi. specialize (Hs i Hi). subst f. simpl in Hs. apply elem_of_seqZ in Hi.
    destruct (b_in_use (tx_buffers h !!! Z.to_nat i)) eqn:Hui; [|done].
    apply Hu. split; [lia|done].
Qed.

(** The state after a frame has been written into the free [slot]. *)
Definition published (h : VirtioHwState) (slot : Z) (d : bytes) (len : Z) : VirtioHwState :=
  let i := Z.to_nat slot in
  let b := tx_buffers h !!! i in
  let b := b .[ b_data := d ] .[ b_in_use := true ] .[ b_len := u16 (VirtioNetHdr_size + len) ] in
  let q := hw_tx h in
  let q := q .[ q_desc := <[i := mkDesc (addr_pa (b_pa b)) (u32 (VirtioNetHdr_size + len)) 0 0]> (q_desc q) ]
    .[ q_avail := avail_push (u16 slot) (q_avail q) ]
    .[ q_pending := u16 (q_pending q + 1) ] in
  notify_queue q VIRTIO_NET_TX_QUEUE
    (h .[ tx_buffers := <[i := b]> (tx_buffers h) ] .[ hw_tx := q ]).

Lemma published_tx h slot d len :
  tx_buffers (published h slot d len) =
    <[Z.to_nat slot := (tx_buffers h !!! Z.to_nat slot) .[ b_data := d ] .[ b_in_use := true ]
        .[ b_len := u16 (VirtioNetHdr_size + len) ]]> (tx_buffers h) ∧
  hw_tx (published h slot d len) =
    (hw_tx h) .[ q_desc := <[Z.to_nat slot :=
          mkDesc (addr_pa (b_pa (tx_buffers h !!! Z.to_nat slot))) (u32 (VirtioNetHdr_size + len)) 0 0]>
          (q_desc (hw_tx h)) ]
      .[ q_avail := avail_push (u16 slot) (q_avail (hw_tx h)) ]
      .[ q_pending := u16 (q_pending (hw_tx h) + 1) ].
Proof. unfold published, notify_queue. simpl. by destruct (q_notify _). Qed.

Lemma virtio_send_raw_eq data len h :
  let h1 := reclaim_virtio_tx_locked h in
  let slot := find_free_virtio_tx_slot_locked h1 in
  virtio_send_raw_locked data len h =
    if slot <? 0 then Some (false, h1)
    else
      d ← store_n (b_data (tx_buffers h1 !!! Z.to_nat slot)) 0 (replicate 12 0);
      d ← copy_bytes d 12 data 0 (Z.to_nat len);
      Some (true, published h1 slot d len).
Proof. unfold virtio_send_raw_locked, published. cbv zeta. by destruct (_ <? 0). Qed.

(** The buffer after the header and the frame have been copied in. *)
Lemma fill_buffer buf data len :
  1 <= len <= VIRTIO_NET_MAX_FRAME_SIZE → len <= Z.of_nat (length data) →
  k_virtio_buffer_size <= Z.of_nat (length buf) →
  ∃ d0, store_n buf 0 (replicate 12 0) = Some d0 ∧
    let d := replicate 12 0 ++ take (Z.to_nat len) data ++ drop (12 + Z.to_nat len) buf in
    copy_bytes d0 12 data 0 (Z.to_nat len) = Some d ∧ length d = length buf.
Proof.
  unfold k_virtio_buffer_size, VIRTIO_NET_MAX_FRAME_SIZE, VirtioNetHdr_size. intros Hl Hd Hb.
  rewrite store_n_ok by (rewrite length_replicate; lia).
  eexists. split; [reflexivity|]. cbv zeta. rewrite length_replicate, take_0, app_nil_l.
  split.
  - rewrite copy_bytes_ok.
    + rewrite take_app_length' by by rewrite length_replicate. rewrite drop_0.
      rewrite drop_app, length_replicate, drop_ge by (rewrite length_replicate; lia).
      rewrite drop_drop, app_nil_l. do 5 f_equal. lia.
    + rewrite length_app, length_replicate, length_drop. lia.
    + lia.
  - rewrite !length_app, length_replicate, length_take, length_drop. lia.
Qed.

Lemma published_ok h T P slot d len :
  tx_ok h [] T P → 0 <= slot < 8 → slot ∉ (T ++ P) → (length (T ++ P) < 8)%nat →
  length d = length (b_data (tx_buffers h !!! Z.to_nat slot)) →
  tx_ok (published h slot d len) [] T (P ++ [slot]).
Proof.
  intros H Hr Hni Hb Hd. pose proof (tx_completed_nil _ _ _ H) as Hnil.
  destruct (published_tx h slot d len) as [Hbuf Hq].
  destruct H as [Hal Hdl Had Ha Hui Huc Hco Hnd Hus Hpe].
  change ([] ++ T ++ P) with (T ++ P) in *.
  destruct Hal as [Hal1 Hal2 Hal3 Hal4 Hal5].
  assert (b_pa <$> tx_buffers (published h slot d len) = b_pa <$> tx_buffers h) as Hpa.
  { rewrite Hbuf, list_fmap_insert. simpl. apply list_insert_id. rewrite list_lookup_fmap.
    by rewrite (list_lookup_lookup_total_lt (tx_buffers h) (Z.to_nat slot)) by lia. }
  constructor; rewrite ?Hq; simpl; auto with words.
  - constructor; simpl; try rewrite Hpa; rewrite ?Hbuf; rewrite ?length_insert; try done.
    apply Forall_insert; [done|]. simpl. rewrite Hd.
    eapply Forall_lookup_1 in Hal4; [exact Hal4|].
    apply list_lookup_lookup_total_lt. lia.
  - by rewrite length_insert.
  - intros i Hi. rewrite (total_lookup_pa _ _ _ Hpa) by lia.
    destruct (decide (i = Z.to_nat slot)) as [->|Hne].
    + by rewrite list_lookup_total_insert_eq by lia.
    + rewrite list_lookup_total_insert_ne by done. by apply Had.
  - rewrite app_assoc. apply NoDup_app. split_and!; [done| |apply NoDup_singleton].
    intros x Hx ->%list_elem_of_singleton. done.
  - intros i. rewrite app_assoc, elem_of_app, list_elem_of_singleton, Hbuf.
    destruct (decide (i = slot)) as [->|Hne].
    + rewrite list_lookup_total_insert_eq by lia. simpl. tauto.
    + specialize (Hus i). destruct (decide (0 <= i < 8)).
      * rewrite list_lookup_total_insert_ne by lia. tauto.
      * split; [|tauto]. intros [?|?]; [|tauto]. exfalso; tauto.
  - rewrite Hpe, app_assoc, (length_app (T ++ P)). simpl. unfold u16. rewrite Z.mod_small; lia.
Qed.

Lemma published_frame h T P slot buf data len d :
  tx_ok h [] T P → 0 <= slot < 8 → slot ∉ (T ++ P) → (length (T ++ P) < 8)%nat →
  1 <= len <= VIRTIO_NET_MAX_FRAME_SIZE → len <= Z.of_nat (length data) →
  d = replicate 12 0 ++ take (Z.to_nat len) data ++ buf →
  length d = length (b_data (tx_buffers h !!! Z.to_nat slot)) →
  dma_frame (published h slot d len) slot = Some (take (Z.to_nat len) data) ∧
  ∀ i, i ∈ T ++ P → dma_frame (published h slot d len) i = dma_frame h i.
Proof.
  intros H Hr Hni Hb Hl Hdata Hd Hlen.
  pose proof (published_ok _ _ _ _ d len H Hr Hni Hb Hlen) as H'.
  destruct (published_tx h slot d len) as [Hbuf Hq].
  pose proof (ta_bufs _ _ (ok_alloc _ _ _ _ H)). pose proof (ok_desc _ _ _ _ H).
  unfold VIRTIO_NET_MAX_FRAME_SIZE in Hl. split.
  - rewrite (dma_frame_slot _ _ _ _ _ H' Hr), Hbuf, Hq. simpl.
    rewrite !list_lookup_total_insert_eq by lia. simpl.
    replace (Z.to_nat (u32 (VirtioNetHdr_size + len))) with (12 + Z.to_nat len)%nat
      by (unfold VirtioNetHdr_size; word_lia).
    assert (length (replicate 12 0%Z ++ take (Z.to_nat len) data) = 12 + Z.to_nat len)%nat as Hpre.
    { rewrite length_app, length_replicate, length_take. lia. }
    rewrite Hd, app_assoc, load_n_ok by (rewrite length_app; lia).
    rewrite drop_0, take_app_length' by lia.
    cbn [mbind option_bind]. by rewrite drop_app_length' by (by rewrite length_replicate).
  - intros i Hi. assert (i ≠ slot) by congruence.
    assert (i ∈ [] ++ T ++ P) as [Hir _]%(ok_use _ _ _ _ H) by done.
    rewrite (dma_frame_slot _ _ _ _ i H Hir), (dma_frame_slot _ _ _ _ i H' Hir), Hbuf, Hq. simpl.
    by rewrite !list_lookup_total_insert_ne by lia.
Qed.

(** The two outcomes of a send, from a state where the heads of [T] and [P]
    are with the device. *)
Lemma virtio_send_ok h W T P data len :
  tx_ok h W T P →
  1 <= len <= VIRTIO_NET_MAX_FRAME_SIZE → len <= Z.of_nat (length data) →
  ∃ h', (virtio_send_raw_locked data len h = Some (false, h') ∧ length (T ++ P) = 8%nat ∧
           tx_ok h' [] T P ∧ same_dma h h') ∨
  (∃ slot, virtio_send_raw_locked data len h = Some (true, h') ∧ (length (T ++ P) < 8)%nat ∧
     (slot ∉ (T ++ P)) ∧ 0 <= slot < 8 ∧ tx_ok h' [] T (P ++ [slot]) ∧
     q_avail (hw_tx h') = avail_push slot (q_avail (hw_tx h)) ∧
     dma_frame h' slot = Some (take (Z.to_nat len) data) ∧
     (∀ i, i ∈ T ++ P → dma_frame h' i = dma_frame h i)).
Proof.
  intros H Hl Hd. destruct (reclaim_virtio_tx_ok _ _ _ _ H) as [H1 Hs].
  rewrite virtio_send_raw_eq. cbv zeta. set (h1 := reclaim_virtio_tx_locked h) in *.
  destruct (find_free_slot_spec _ _ _ H1) as [[-> Hfull]|(slot & -> & Hr & Hni & Hfree)].
  - exists h1. left. by split_and!.
  - rewrite (proj2 (Z.ltb_ge slot 0)) by lia.
    destruct (ok_alloc _ _ _ _ H1) as [Hbufs _ _ Hpages _].
    assert (k_virtio_buffer_size <= Z.of_nat (length (b_data (tx_buffers h1 !!! Z.to_nat slot)))) as Hpg.
    { eapply Forall_lookup_1 in Hpages; [exact Hpages|]. apply list_lookup_lookup_total_lt. lia. }
    destruct (fill_buffer _ data len Hl Hd Hpg) as (d0 & Hd0 & Hcp & Hlen).
    rewrite Hd0. cbn [mbind option_bind]. rewrite Hcp. cbn [mbind option_bind].
    eexists. right. exists slot.
    destruct (published_frame h1 T P slot _ data len _ H1 Hr Hni Hfree Hl Hd eq_refl Hlen) as [Hf Ho].
    split_and!; [done|done|done|lia|lia|by apply published_ok| |done|].
    + destruct (published_tx h1 slot (replicate 12 0 ++ take (Z.to_nat len) data ++
         drop (12 + Z.to_nat len) (b_data (tx_buffers h1 !!! Z.to_nat slot))) len) as [_ ->].
      simpl. rewrite u16_id by word_lia. by destruct Hs as (_ & _ & ->).
    + intros i Hi. rewrite Ho by done. by apply dma_frame_same.
Qed.

(** ** Every step of driver and device keeps the invariant *)

Lemma tx_published_length s :
  length (tx_published s) =
    Z.to_nat (ring_distance (ts_seen s) (av_idx (q_avail (hw_tx (ts_hw s))))).
Proof. apply window_length. Qed.

Lemma tx_published_push s h' slot T :
  TxInv s → (length (tx_published s) < 8)%nat →
  q_avail (hw_tx h') = avail_push slot (q_avail (hw_tx (ts_hw s))) →
  ∀ wire sent, tx_published (mkTxSys h' (ts_seen s) T wire sent) = tx_published s ++ [slot].
Proof.
  intros [Hok Hseen _] Hlt Hav wire sent.
  pose proof (tx_published_length s) as Hl.
  pose proof (ok_avail_idx _ _ _ _ Hok) as Hidx.
  pose proof (ta_avail _ _ (ok_alloc _ _ _ _ Hok)) as Hring.
  pose proof (ring_distance_range (ts_seen s) (av_idx (q_avail (hw_tx (ts_hw s))))) as Hd.
  unfold tx_published. simpl. rewrite Hav. simpl.
  rewrite ring_distance_push by (done || word_lia).
  rewrite Z2Nat.inj_add by word_lia. rewrite Nat.add_comm. change (Z.to_nat 1 + ?n)%nat with (S n).
  apply window_push; [done|word_lia|].
  rewrite Z2Nat.id by word_lia. unfold ring_distance in *. word_lia.
Qed.

Lemma tx_completed_push h W T P slot len :
  tx_ok h W T P → (length W < 8)%nat → 0 <= slot < 8 →
  tx_completed ((hw_tx h) .[ q_used := used_push (mkUsedElem slot len) (q_used (hw_tx h)) ]) =
    tx_completed (hw_tx h) ++ [slot].
Proof.
  intros Hok Hlt Hs. pose proof (ok_completed _ _ _ _ Hok) as Hl.
  apply (f_equal length) in Hl. unfold tx_completed in Hl. rewrite length_fmap, window_length in Hl.
  pose proof (ok_used_idx _ _ _ _ Hok) as Hidx. pose proof (ok_consume_idx _ _ _ _ Hok) as Hci.
  pose proof (ta_used _ _ (ok_alloc _ _ _ _ Hok)) as Hring.
  pose proof (ring_distance_range (q_used_consume (hw_tx h)) (us_idx (q_used (hw_tx h)))) as Hd.
  unfold tx_completed. simpl.
  rewrite ring_distance_push by (done || word_lia).
  rewrite Z2Nat.inj_add by word_lia. rewrite Nat.add_comm. change (Z.to_nat 1 + ?n)%nat with (S n).
  rewrite window_push; [|done|word_lia|].
  - rewrite fmap_app. simpl. by rewrite u16_id by word_lia.
  - rewrite Z2Nat.id by word_lia. unfold ring_distance in *. word_lia.
Qed.

Lemma mapM_ext_in {A B} (f g : A → option B) l :
  (∀ x, x ∈ l → f x = g x) → mapM f l = mapM g l.
Proof.
  induction l as [|x l IH]; intros H; [done|]. simpl.
  rewrite H by left. rewrite IH; [done|]. intros y Hy. apply H. by right.
Qed.

(** Sending leaves the receive side alone. *)
Lemma reclaim_loop_rx fuel h :
  rx_buffers (reclaim_loop fuel h) = rx_buffers h ∧ hw_rx (reclaim_loop fuel h) = hw_rx h.
Proof.
  revert h. induction fuel as [|fuel IH]; intros h; simpl; case_match; try done.
  destruct (IH (reclaim_one h)) as [-> ->]. unfold reclaim_one. by case_match.
Qed.

Lemma virtio_send_rx data len h ok h' :
  virtio_send_raw_locked data len h = Some (ok, h') →
  rx_buffers h' = rx_buffers h ∧ hw_rx h' = hw_rx h.
Proof.
  rewrite virtio_send_raw_eq. cbv zeta. intros H.
  destruct (reclaim_loop_rx (Z.to_nat (ring_distance (q_used_consume (hw_tx h))
    (us_idx (q_used (hw_tx h))))) h) as [Hb Hr].
  fold (reclaim_virtio_tx_locked h) in Hb, Hr. rewrite <- Hb, <- Hr.
  case_match; [by simplify_eq|].
  destruct (store_n _ _ _); [|done]. cbn [mbind option_bind] in H.
  destruct (copy_bytes _ _ _ _ _); [|done]. cbn [mbind option_bind] in H. simplify_eq.
  unfold published, notify_queue. simpl. by case_match.
Qed.

(** [hw_tx] and [tx_buffers] are all the invariant reads. *)
Lemma tx_ok_frame h h' W T P :
  hw_tx h' = hw_tx h → tx_buffers h' = tx_buffers h → tx_ok h W T P → tx_ok h' W T P.
Proof. intros Hq Hb []. constructor; rewrite ?Hq, ?Hb; done. Qed.

(** It does not distinguish the two kinds of heads the device holds. *)
Lemma tx_ok_regroup h W T P T' P' : T ++ P ≡ₚ T' ++ P' → tx_ok h W T P → tx_ok h W T' P'.
Proof.
  intros Hp []. constructor; try done; [by rewrite <- Hp| |by rewrite <- Hp].
  intros i. by rewrite <- Hp.
Qed.

Lemma virtio_recv_raw_tx out max_len h n out' h' :
  virtio_recv_raw_locked out max_len h = Some (n, out', h') →
  hw_tx h' = hw_tx h ∧ tx_buffers h' = tx_buffers h.
Proof.
  unfold virtio_recv_raw_locked, notify_queue. cbv zeta. intros H.
  repeat case_match; simplify_eq/=; try done.
  all: destruct (copy_bytes _ _ _ _ _); simplify_eq/=; repeat case_match; simplify_eq/=; done.
Qed.

Lemma tx_inv_send s data len ok h' :
  TxInv s → 1 <= len <= VIRTIO_NET_MAX_FRAME_SIZE → len <= Z.of_nat (length data) →
  virtio_send_raw_locked data len (ts_hw s) = Some (ok, h') →
  TxInv (mkTxSys h' (ts_seen s) (ts_taken s) (ts_wire s)
      (if ok : bool then ts_sent s ++ [take (Z.to_nat len) data] else ts_sent s)).
Proof.
  intros Hinv Hl Hd Hsend. pose proof Hinv as [Hok Hseen (frames & Hf & Hs)].
  destruct (virtio_send_ok _ _ _ _ data len Hok Hl Hd) as (h1 & [H|H]).
  - destruct H as (Heq & _ & Hok1 & Hsame). rewrite Hsend in Heq. simplify_eq.
    assert (tx_published (mkTxSys h1 (ts_seen s) (ts_taken s) (ts_wire s) (ts_sent s)) = tx_published s) as Hp.
    { unfold tx_published. simpl. by destruct Hsame as (_ & _ & ->). }
    constructor; simpl; rewrite ?Hp; [|done|].
    + by rewrite <- (ok_completed _ _ _ _ Hok1).
    + exists frames. split; [|done]. rewrite <- Hf. apply mapM_ext_in. intros. by apply dma_frame_same.
  - destruct H as (slot & Heq & Hlt & Hni & Hr & Hok1 & Hav & Hfr & Hoth).
    rewrite Hsend in Heq. simplify_eq. rewrite length_app in Hlt.
    pose proof (tx_published_push s h1 slot (ts_taken s) Hinv ltac:(lia) Hav) as Hp.
    constructor; simpl; rewrite ?Hp; [|done|].
    + by rewrite <- (ok_completed _ _ _ _ Hok1).
    + exists (frames ++ [take (Z.to_nat len) data]). rewrite Hs, <- app_assoc. split; [|done].
      apply mapM_Some, Forall2_app; [|by repeat constructor].
      apply mapM_Some. rewrite <- Hf. apply mapM_ext_in.
      intros i Hi. apply Hoth, elem_of_app. by right.
Qed.

Lemma tx_inv_take s slot frame :
  TxInv s → ts_seen s ≠ av_idx (q_avail (hw_tx (ts_hw s))) →
  slot = av_ring (q_avail (hw_tx (ts_hw s))) !!! ring_pos (ts_seen s) →
  dma_frame (ts_hw s) slot = Some frame →
  TxInv (mkTxSys (ts_hw s) (u16 (ts_seen s + 1)) (ts_taken s ++ [slot])
      (ts_wire s ++ [frame]) (ts_sent s)).
Proof.
  intros [Hok Hseen (frames & Hf & Hs)] Hne Hslot Hfr.
  set (s' := mkTxSys _ _ _ _ _).
  assert (tx_published s = slot :: tx_published s') as Hp.
  { unfold tx_published. simpl. pose proof (ok_avail_idx _ _ _ _ Hok).
    rewrite ring_distance_step by done.
    pose proof (ring_distance_range (u16 (ts_seen s + 1)) (av_idx (q_avail (hw_tx (ts_hw s))))).
    rewrite Z2Nat.inj_add by word_lia. change (Z.to_nat 1 + ?n)%nat with (S n).
    cbn [window]. by rewrite Hslot. }
  rewrite Hp in Hok, Hf. simpl in Hf. rewrite Hfr in Hf. cbn [mbind option_bind] in Hf.
  destruct (mapM _ _) as [fs|] eqn:Hfs; simplify_eq/=.
  constructor; simpl; [|auto with words|].
  - eapply tx_ok_regroup; [|exact Hok]. by rewrite <- app_assoc.
  - exists fs. split; [done|]. injection Hf as <-. by rewrite Hs, <- app_assoc.
Qed.

Lemma tx_inv_complete s l1 slot l2 len :
  TxInv s → ts_taken s = l1 ++ slot :: l2 →
  TxInv (mkTxSys
      ((ts_hw s) .[ hw_tx := (hw_tx (ts_hw s))
         .[ q_used := used_push (mkUsedElem slot len) (q_used (hw_tx (ts_hw s))) ] ])
      (ts_seen s) (l1 ++ l2) (ts_wire s) (ts_sent s)).
Proof.
  intros [Hok Hseen (frames & Hf & Hs)] Ht.
  set (W := tx_completed (hw_tx (ts_hw s))) in *. set (P := tx_published s) in *.
  assert (W ++ ts_taken s ++ P ≡ₚ (W ++ [slot]) ++ (l1 ++ l2) ++ P) as Hperm.
  { rewrite Ht. solve_Permutation. }
  pose proof (owned_bound _ _ _ _ Hok) as Hb.
  assert (0 <= slot < 8) as Hr.
  { eapply (proj1 (ok_use _ _ _ _ Hok slot)). rewrite Hperm. set_solver. }
  assert (length W < 8)%nat as HW.
  { rewrite Hperm, !length_app in Hb. simpl in Hb. lia. }
  pose proof (tx_completed_push _ _ _ _ slot len Hok HW Hr) as Hc.
  constructor; simpl; [|done|].
  - change (tx_published _) with P. rewrite Hc. subst W. destruct Hok. constructor; simpl; try done.
    + destruct ok_alloc0. constructor; simpl; try done. by rewrite length_insert.
    + auto with words.
    + by rewrite <- Hperm.
    + intros i. rewrite <- ok_use0. by rewrite Hperm.
    + by rewrite <- Hperm.
  - exists frames. split; [|done]. rewrite <- Hf. by apply mapM_ext_in.
Qed.

Lemma tx_inv_step s s' : TxInv s → tx_step s s' → TxInv s'.
Proof.
  intros Hinv Hstep. destruct Hstep.
  - by apply tx_inv_send.
  - destruct (virtio_recv_raw_tx _ _ _ _ _ _ H) as [Hq Hb].
    destruct Hinv as [Hok Hseen (frames & Hf & Hs)].
    constructor; unfold tx_published; simpl; rewrite ?Hq; [by eapply tx_ok_frame|done|].
    exists frames. split; [|done]. rewrite <- Hf. apply mapM_ext_in. intros i _.
    apply dma_frame_same. unfold same_dma, pages. by rewrite Hq, Hb.
  - by apply tx_inv_take.
  - by apply tx_inv_complete.
Qed.

Lemma tx_inv_init s : tx_init s → TxInv s.
Proof.
  intros (h & [Hb Ha Hu Hp Hd] & ->).
  assert (ring_distance 0 0 = 0) as H0 by done.
  assert (∀ i, b_in_use (tx_buffers (init_tx_buffers_locked h) !!! i) = false) as Hfree.
  { intros i. simpl. destruct (decide (i < length (tx_buffers h))%nat).
    - by rewrite (list_lookup_total_fmap _ (Inhabited0:=buffer_inhabited)).
    - by rewrite list_lookup_total_alt, lookup_ge_None_2 by (rewrite length_fmap; lia). }
  constructor; simpl; [|word_lia|].
  - constructor; simpl.
    + constructor; simpl; try done; rewrite ?length_fmap; try done.
      * by apply Forall_fmap.
      * by rewrite <- list_fmap_compose.
    + by rewrite !length_fmap.
    + intros i Hi. by rewrite (list_lookup_total_fmap _ (Inhabited0:=buffer_inhabited)) by (rewrite length_fmap; lia).
    + word_lia.
    + word_lia.
    + word_lia.
    + done.
    + constructor.
    + intros i. split; [by intros ?%not_elem_of_nil|]. intros [_ Hi]. 
      change (b_in_use (tx_buffers (init_tx_buffers_locked h) !!! Z.to_nat i) = true) in Hi.
      by rewrite Hfree in Hi.
    + done.
  - by exists [].
Qed.

Lemma tx_inv_reachable s : tx_reachable s → TxInv s.
Proof.
  intros (s0 & H0 & Hr). apply tx_inv_init in H0.
  induction Hr as [|s1 s2 s3 Hst _ IH]; [done|]. apply IH. by eapply tx_inv_step.
Qed.

(** Eight distinct pages, as the allocator hands them out. *)
Definition example_hw : VirtioHwState :=
  let q := mkQueue (replicate QSIZE (mkDesc addr_null 0 0 0)) avail_zero used_zero
             4096 8192 12288 (Some 16384) 0 0 in
  let bufs base := (λ i, mkBuffer (replicate 2060 0) (base + 4096 * i) false 0) <$> seqZ 0 8 in
  mkHw true q q (bufs 65536) (bufs 131072) (replicate 6 0) 0 [].

Definition example_tx : TxSys := mkTxSys (init_tx_buffers_locked example_hw) 0 [] [] [].

Lemma example_tx_reachable : tx_reachable example_tx.
Proof.
  exists example_tx. split; [|apply rtc_refl]. exists example_hw. split; [|done].
  constructor; try done.
  - repeat constructor; by vm_compute.
  - by apply (bool_decide_unpack _).
Defined.

(** C2: Between any interleaving of sends, receives, reclaims and device
    steps, the frames the driver accepted are exactly the frames on the wire
    followed by the frames the device will read from the heads it has still to
    take, in order: no frame is lost, duplicated, reordered or changed. *)
Theorem tx_frames_in_order s :
  tx_reachable s →
  ∃ frames, mapM (dma_frame (ts_hw s)) (tx_published s) = Some frames ∧
    ts_sent s = ts_wire s ++ frames.
Proof. intros H. apply inv_order, tx_inv_reachable, H. Qed.

Lemma tx_frames_in_order_witness :
  tx_reachable example_tx ∧
  ∃ frames, mapM (dma_frame (ts_hw example_tx)) (tx_published example_tx) = Some frames ∧
    ts_sent example_tx = ts_wire example_tx ++ frames.
Proof.
  split; [exact example_tx_reachable|]. apply (tx_frames_in_order example_tx).
  exact example_tx_reachable.
Defined.

(** A head is never in two hands: in every reachable state the slots
    completed, taken by the device and published are pairwise distinct, they are
    exactly the buffers marked in use, and [pending] counts them. *)
Theorem tx_slot_ownership s :
  tx_reachable s →
  let h := ts_hw s in
  let owned := tx_completed (hw_tx h) ++ ts_taken s ++ tx_published s in
  NoDup owned ∧ q_pending (hw_tx h) = Z.of_nat (length owned) ∧
  ∀ i, i ∈ owned ↔ 0 <= i < 8 ∧ b_in_use (tx_buffers h !!! Z.to_nat i) = true.
Proof.
  intros H%tx_inv_reachable. destruct H as [Hok _ _]. cbv zeta.
  split_and!; apply Hok.
Qed.

Lemma tx_slot_ownership_witness :
  tx_reachable example_tx ∧ NoDup (tx_completed (hw_tx (ts_hw example_tx)) ++
    ts_taken example_tx ++ tx_published example_tx).
Proof.
  split; [exact example_tx_reachable|].
  apply (tx_slot_ownership example_tx). exact example_tx_reachable.
Defined.

(** In every reachable state a send of a legal frame touches no memory
    outside its buffers, is refused only when the device holds all eight slots,
    and leaves the frames of all slots the device holds unchanged. *)
Theorem tx_send_outcome s data len :
  tx_reachable s →
  1 <= len <= VIRTIO_NET_MAX_FRAME_SIZE → len <= Z.of_nat (length data) →
  let held := ts_taken s ++ tx_published s in
  ∃ ok h', virtio_send_raw_locked data len (ts_hw s) = Some (ok, h') ∧
    ok = bool_decide (length held ≠ 8%nat) ∧
    ∀ i, i ∈ held → dma_frame h' i = dma_frame (ts_hw s) i.
Proof.
  intros Hr Hl Hd. apply tx_inv_reachable in Hr as [Hok _ _]. cbv zeta.
  destruct (virtio_send_ok _ _ _ _ data len Hok Hl Hd) as (h' & [H|H]).
  - destruct H as (-> & Hfull & _ & Hs). exists false, h'. split_and!; [done| |].
    + rewrite Hfull. done.
    + intros. by apply dma_frame_same.
  - destruct H as (slot & -> & Hlt & _ & _ & _ & _ & _ & Hoth).
    exists true, h'. split_and!; [done| |done].
    symmetry. apply bool_decide_eq_true. lia.
Qed.

Lemma tx_send_outcome_witness :
  tx_reachable example_tx ∧
  ∃ ok h', virtio_send_raw_locked [1; 2; 3] 3 (ts_hw example_tx) = Some (ok, h') ∧
    ok = bool_decide (length (ts_taken example_tx ++ tx_published example_tx) ≠ 8%nat) ∧
    ∀ i, i ∈ ts_taken example_tx ++ tx_published example_tx →
      dma_frame h' i = dma_frame (ts_hw example_tx) i.
Proof.
  split; [exact example_tx_reachable|].
  apply (tx_send_outcome example_tx [1; 2; 3] 3);
    [exact example_tx_reachable|unfold VIRTIO_NET_MAX_FRAME_SIZE; lia|simpl; lia].
Defined.
