(* ===== verification/VirtioNet.v ===== *)
(** * Raw frame interface (kernel/virtio_net.h, kernel/virtio_net.cc)

    The driver state [g_net] with its in-memory fake backend, and the public
    entry points [net_send_raw], [net_recv_raw], [net_fake_inject_rx] and
    [net_copy_last_tx_for_test], which dispatch to the fake rings or to the live
    queues of [VirtioHw].  All of them run under [g_net.lock].  The fake backend
    is proved to implement a bounded FIFO of eight frames. *)

From S2P Require Import Prelude NetStats VirtioHw.

Inductive BackendKind := BackendNone | BackendFake | BackendVirtio.
#[export] Instance BackendKind_eq_dec : EqDecision BackendKind.
Proof. solve_decision. Defined.

Record FrameSlot := mkSlot { f_data : bytes; f_len : Z; f_occupied : bool }.
#[export] Instance slot_inhabited : Inhabited FrameSlot := populate (mkSlot [] 0 false).
#[export] Instance eta_slot : Eta FrameSlot := fun s =>
  mkSlot (f_data s) (f_len s) (f_occupied s).

Record NetState := mkNetState {
  backend : BackendKind;
  tx_desc : list VirtioNetDescriptor; rx_desc : list VirtioNetDescriptor;
  tx_avail : VirtioNetAvailRing; rx_avail : VirtioNetAvailRing;
  tx_used : VirtioNetUsedRing; rx_used : VirtioNetUsedRing;
  tx_slots : list FrameSlot; rx_slots : list FrameSlot;
  tx_next_probe : Z; tx_used_consume : Z; tx_pending : Z;
  rx_next_probe : Z; rx_used_consume : Z; rx_ready : Z;
  last_fake_tx : bytes; last_fake_tx_len : Z; last_fake_tx_valid : bool
}.
#[export] Instance eta_NetState : Eta NetState := fun s =>
  mkNetState (backend s) (tx_desc s) (rx_desc s) (tx_avail s) (rx_avail s)
    (tx_used s) (rx_used s) (tx_slots s) (rx_slots s)
    (tx_next_probe s) (tx_used_consume s) (tx_pending s)
    (rx_next_probe s) (rx_used_consume s) (rx_ready s)
    (last_fake_tx s) (last_fake_tx_len s) (last_fake_tx_valid s).

(** The globals the raw interface reaches: [g_net], [g_hw] and [g_stats]. *)
Record RawNic := mkRawNic { g_net : NetState; g_hw : VirtioHwState; g_stats : NetStats }.
#[export] Instance eta_RawNic : Eta RawNic := fun n => mkRawNic (g_net n) (g_hw n) (g_stats n).

Definition count_raw (c : NetStatCounter) (n : RawNic) : RawNic :=
  n .[ g_stats := net_stats_increment c (g_stats n) ].

(** ** Ring bookkeeping of the fake backend *)

Definition reset_slot (slot : FrameSlot) : FrameSlot := slot .[ f_len := 0 ] .[ f_occupied := false ].

Definition reset_rings_locked (s : NetState) : NetState :=
  s .[ tx_avail := avail_zero ]
    .[ rx_avail := mkAvail 0 VIRTIO_NET_QUEUE_SIZE (seqZ 0 8) ]
    .[ tx_used := used_zero ] .[ rx_used := used_zero ]
    .[ tx_next_probe := 0 ] .[ tx_used_consume := 0 ] .[ tx_pending := 0 ]
    .[ rx_next_probe := 0 ] .[ rx_used_consume := 0 ] .[ rx_ready := 0 ]
    .[ last_fake_tx_len := 0 ] .[ last_fake_tx_valid := false ]
    .[ tx_slots := reset_slot <$> tx_slots s ] .[ rx_slots := reset_slot <$> rx_slots s ]
    .[ tx_desc := (λ i, mkDesc (addr_tx_slot i) 0 0 0) <$> seqZ 0 8 ]
    .[ rx_desc := (λ i, mkDesc (addr_rx_slot i) VIRTIO_NET_MAX_FRAME_SIZE VIRTQ_DESC_F_WRITE 0)
                    <$> seqZ 0 8 ].

(** The probing loop shared by both directions: the first free slot from
    [start] on, cyclically. *)
Definition probe_free (slots : list FrameSlot) (start : Z) : option Z :=
  first_some (λ scanned,
      let slot := u16 ((start + scanned) mod VIRTIO_NET_QUEUE_SIZE) in
      if f_occupied (slots !!! Z.to_nat slot) then None else Some slot)
    (seqZ 0 8).

Definition find_free_tx_slot_locked (s : NetState) : Z * NetState :=
  if VIRTIO_NET_QUEUE_SIZE <=? tx_pending s then (-1, s)
  else match probe_free (tx_slots s) (tx_next_probe s) with
       | Some slot => (slot, s .[ tx_next_probe := next_index slot ])
       | None => (-1, s)
       end.

Definition find_free_rx_slot_locked (s : NetState) : Z * NetState :=
  if VIRTIO_NET_QUEUE_SIZE <=? rx_ready s then (-1, s)
  else match probe_free (rx_slots s) (rx_next_probe s) with
       | Some slot => (slot, s .[ rx_next_probe := next_index slot ])
       | None => (-1, s)
       end.

(** One turn of the loop of [reclaim_tx_locked]. *)
Definition reclaim_tx_one (s : NetState) : NetState :=
  let slot := u16 (ue_id (us_ring (tx_used s) !!! ring_pos (tx_used_consume s))) in
  let i := Z.to_nat slot in
  let s :=
    if (slot <? VIRTIO_NET_QUEUE_SIZE) && f_occupied (tx_slots s !!! i) then
      s .[ tx_slots := <[i := reset_slot (tx_slots s !!! i)]> (tx_slots s) ]
        .[ tx_desc := <[i := (tx_desc s !!! i) .[ d_len := 0 ]]> (tx_desc s) ]
        .[ tx_pending := if 0 <? tx_pending s then tx_pending s - 1 else tx_pending s ]
    else s in
  s .[ tx_used_consume := u16 (tx_used_consume s + 1) ].

Fixpoint reclaim_tx_loop (fuel : nat) (s : NetState) : NetState :=
  if tx_used_consume s =? us_idx (tx_used s) then s
  else match fuel with O => s | S fuel' => reclaim_tx_loop fuel' (reclaim_tx_one s) end.

Definition reclaim_tx_locked (s : NetState) : NetState :=
  reclaim_tx_loop (Z.to_nat (ring_distance (tx_used_consume s) (us_idx (tx_used s)))) s.

Definition complete_tx_locked (slot len : Z) (s : NetState) : NetState :=
  s .[ tx_used := used_push (mkUsedElem slot (u32 len)) (tx_used s) ].

(** ** Public interface *)

Definition nic_ready (n : RawNic) : bool := hw_ready (g_hw n).

Definition nic_kick_tx (n : RawNic) : RawNic :=
  n .[ g_hw := notify_queue (hw_tx (g_hw n)) VIRTIO_NET_TX_QUEUE (g_hw n) ].

Definition backend_ready_locked (n : RawNic) : bool :=
  match backend (g_net n) with
  | BackendFake => true
  | BackendVirtio => nic_ready n
  | BackendNone => false
  end.

Definition net_init_fake (n : RawNic) : RawNic :=
  n .[ g_net := (reset_rings_locked (g_net n)) .[ backend := BackendFake ] ].

Definition net_shutdown_backend (n : RawNic) : RawNic :=
  n .[ g_net := (reset_rings_locked (g_net n)) .[ backend := BackendNone ] ].

Definition net_ready (n : RawNic) : bool := backend_ready_locked n.

(** The ring part of [net_send_raw], once a slot has been found. *)
Definition enqueue_tx (data : bytes) (len slot : Z) (s : NetState) : option NetState :=
  let i := Z.to_nat slot in
  d ← copy_bytes (f_data (tx_slots s !!! i)) 0 data 0 (Z.to_nat len);
  Some (s .[ tx_slots := <[i := mkSlot d (u16 len) true]> (tx_slots s) ]
          .[ tx_desc := <[i := mkDesc (addr_tx_slot slot) (u32 len) 0 0]> (tx_desc s) ]
          .[ tx_avail := avail_push (u16 slot) (tx_avail s) ]
          .[ tx_pending := u16 (tx_pending s + 1) ]).

(** The fake backend completes the transmission at once. *)
Definition fake_tx (data : bytes) (len slot : Z) (s : NetState) : option NetState :=
  d ← copy_bytes (last_fake_tx s) 0 data 0 (Z.to_nat len);
  Some (reclaim_tx_locked (complete_tx_locked slot len
    (s .[ last_fake_tx := d ] .[ last_fake_tx_len := u16 len ] .[ last_fake_tx_valid := true ]))).

Definition net_send_raw (data : option bytes) (len : Z) (n : RawNic) : option (bool * RawNic) :=
  match data with
  | None => Some (false, n)
  | Some data =>
      if (len =? 0) || (VIRTIO_NET_MAX_FRAME_SIZE <? len) then Some (false, n)
      else if negb (backend_ready_locked n) then Some (false, n)
      else if decide (backend (g_net n) = BackendVirtio) then
        '(sent, hw) ← virtio_send_raw_locked data len (g_hw n);
        let n := n .[ g_hw := hw ] in
        Some (sent, if sent : bool then count_raw RawTx n else n)
      else
        let '(slot, s) := find_free_tx_slot_locked (reclaim_tx_locked (g_net n)) in
        if slot <? 0 then Some (false, n .[ g_net := s ])
        else
          s ← enqueue_tx data len slot s;
          if decide (backend s = BackendFake) then
            s ← fake_tx data len slot s;
            Some (true, count_raw RawTx (n .[ g_net := s ]))
          else Some (true, count_raw RawTx (nic_kick_tx (n .[ g_net := s ])))
  end.

(** Return value, contents of [out], state. *)
Definition net_recv_raw (out : option bytes) (max_len : Z) (n : RawNic)
    : option (Z * option bytes * RawNic) :=
  match out with
  | None => Some (-1, None, n)
  | Some out =>
      if max_len =? 0 then Some (-1, Some out, n)
      else if negb (backend_ready_locked n) then Some (0, Some out, n)
      else if decide (backend (g_net n) = BackendVirtio) then
        '(r, out, hw) ← virtio_recv_raw_locked out max_len (g_hw n);
        let n := n .[ g_hw := hw ] in
        Some (r, Some out, if 0 <? r then count_raw RawRx n else n)
      else
        let s := g_net n in
        if rx_used_consume s =? us_idx (rx_used s) then Some (0, Some out, n)
        else
          let e := us_ring (rx_used s) !!! ring_pos (rx_used_consume s) in
          let slot := u16 (ue_id e) in
          let len := ue_len e in
          let i := Z.to_nat slot in
          if (VIRTIO_NET_QUEUE_SIZE <=? slot) || negb (f_occupied (rx_slots s !!! i)) then
            Some (0, Some out,
              n .[ g_net := s .[ rx_used_consume := u16 (rx_used_consume s + 1) ] ])
          else if max_len <? len then Some (-1, Some out, n)
          else
            out ← copy_bytes out 0 (f_data (rx_slots s !!! i)) 0 (Z.to_nat len);
            let s := s .[ rx_used_consume := u16 (rx_used_consume s + 1) ]
              .[ rx_ready := if 0 <? rx_ready s then rx_ready s - 1 else rx_ready s ]
              .[ rx_avail := avail_push slot (rx_avail s) ]
              .[ rx_slots := <[i := reset_slot (rx_slots s !!! i)]> (rx_slots s) ]
              .[ rx_desc := <[i := mkDesc (addr_rx_slot slot) VIRTIO_NET_MAX_FRAME_SIZE
                                     VIRTQ_DESC_F_WRITE 0]> (rx_desc s) ] in
            Some (len, Some out, count_raw RawRx (n .[ g_net := s ]))
  end.

Definition net_fake_inject_rx (data : option bytes) (len : Z) (n : RawNic)
    : option (bool * RawNic) :=
  match data with
  | None => Some (false, n)
  | Some data =>
      if (len =? 0) || (VIRTIO_NET_MAX_FRAME_SIZE <? len) then Some (false, n)
      else if decide (backend (g_net n) ≠ BackendFake) then Some (false, n)
      else
        let '(slot, s) := find_free_rx_slot_locked (g_net n) in
        if slot <? 0 then Some (false, n .[ g_net := s ])
        else
          let i := Z.to_nat slot in
          d ← copy_bytes (f_data (rx_slots s !!! i)) 0 data 0 (Z.to_nat len);
          let s := s .[ rx_slots := <[i := mkSlot d (u16 len) true]> (rx_slots s) ]
            .[ rx_desc := <[i := mkDesc (addr_rx_slot slot) (u32 len) VIRTQ_DESC_F_WRITE 0]>
                            (rx_desc s) ]
            .[ rx_used := used_push (mkUsedElem slot (u32 len)) (rx_used s) ]
            .[ rx_ready := u16 (rx_ready s + 1) ] in
          Some (true, n .[ g_net := s ])
  end.

(** Return value, contents of [out] and of [*len_in_out]. *)
Definition net_copy_last_tx_for_test (out : option bytes) (len_in_out : option Z) (n : RawNic)
    : option (bool * option bytes * option Z) :=
  match out, len_in_out with
  | Some out', Some len =>
      let s := g_net n in
      if negb (last_fake_tx_valid s) || (len <? last_fake_tx_len s)
      then Some (false, out, len_in_out)
      else
        d ← copy_bytes out' 0 (last_fake_tx s) 0 (Z.to_nat (last_fake_tx_len s));
        Some (true, Some d, Some (last_fake_tx_len s))
  | _, _ => Some (false, out, len_in_out)
  end.

#[global] Arguments net_send_raw : simpl never.
#[global] Arguments net_recv_raw : simpl never.
#[global] Arguments net_fake_inject_rx : simpl never.
#[global] Arguments net_copy_last_tx_for_test : simpl never.

(** ** Specification of the fake backend

    Frames injected and not yet received, oldest first, and the last frame
    sent. *)

Record FakeNet := mkFakeNet { fake_inbox : list bytes; fake_last : option bytes }.

Definition legal_frame (data : option bytes) (len : Z) : option bytes :=
  match data with
  | Some data => if (1 <=? len) && (len <=? VIRTIO_NET_MAX_FRAME_SIZE)
                 then Some (take (Z.to_nat len) data) else None
  | None => None
  end.

Definition spec_send (data : option bytes) (len : Z) (a : FakeNet) : bool * FakeNet :=
  match legal_frame data len with
  | Some f => (true, mkFakeNet (fake_inbox a) (Some f))
  | None => (false, a)
  end.

Definition spec_inject (data : option bytes) (len : Z) (a : FakeNet) : bool * FakeNet :=
  match legal_frame data len with
  | Some f => if decide (length (fake_inbox a) = QSIZE) then (false, a)
              else (true, mkFakeNet (fake_inbox a ++ [f]) (fake_last a))
  | None => (false, a)
  end.

Definition spec_recv (out : bytes) (max_len : Z) (a : FakeNet) : Z * bytes * FakeNet :=
  if max_len =? 0 then (-1, out, a)
  else match fake_inbox a with
       | [] => (0, out, a)
       | f :: q =>
           if max_len <? Z.of_nat (length f) then (-1, out, a)
           else (Z.of_nat (length f), f ++ drop (length f) out, mkFakeNet q (fake_last a))
       end.

(** ** The representation *)

Definition ring_frames (s : NetState) (es : list VirtioNetUsedElem) : list bytes :=
  (λ e, take (Z.to_nat (ue_len e)) (f_data (rx_slots s !!! Z.to_nat (ue_id e)))) <$> es.

(** The completions [net_recv_raw] has still to hand out. *)
Definition rx_pending (s : NetState) : list VirtioNetUsedElem :=
  window (us_ring (rx_used s)) (rx_used_consume s)
    (Z.to_nat (ring_distance (rx_used_consume s) (us_idx (rx_used s)))).

Definition slots_ok (slots : list FrameSlot) : Prop :=
  length slots = QSIZE ∧ Forall (λ x, Z.of_nat (length (f_data x)) = VIRTIO_NET_MAX_FRAME_SIZE) slots.

Record fake_tx_idle (s : NetState) (last : option bytes) : Prop := {
  ft_slots : slots_ok (tx_slots s);
  ft_free : ∀ i, 0 <= i < 8 → f_occupied (tx_slots s !!! Z.to_nat i) = false;
  ft_pending : tx_pending s = 0;
  ft_consumed : tx_used_consume s = us_idx (tx_used s);
  ft_ring : length (us_ring (tx_used s)) = QSIZE;
  ft_idx : is_u16 (us_idx (tx_used s));
  ft_buf : Z.of_nat (length (last_fake_tx s)) = VIRTIO_NET_MAX_FRAME_SIZE;
  ft_last : match last with
            | Some f => last_fake_tx_valid s = true ∧ last_fake_tx_len s = Z.of_nat (length f) ∧
                        take (length f) (last_fake_tx s) = f
            | None => last_fake_tx_valid s = false
            end
}.

Record fake_rx_queue (s : NetState) (q : list bytes) : Prop := {
  fr_slots : slots_ok (rx_slots s);
  fr_ring : length (us_ring (rx_used s)) = QSIZE;
  fr_idx : is_u16 (us_idx (rx_used s));
  fr_consume : is_u16 (rx_used_consume s);
  fr_nodup : NoDup (ue_id <$> rx_pending s);
  fr_use : ∀ i, i ∈ ue_id <$> rx_pending s ↔
                0 <= i < 8 ∧ f_occupied (rx_slots s !!! Z.to_nat i) = true;
  fr_len : Forall (λ e, 1 <= ue_len e <= VIRTIO_NET_MAX_FRAME_SIZE) (rx_pending s);
  fr_ready : rx_ready s = Z.of_nat (length (rx_pending s));
  fr_frames : ring_frames s (rx_pending s) = q
}.

Record fake_represents (n : RawNic) (a : FakeNet) : Prop := {
  fk_backend : backend (g_net n) = BackendFake;
  fk_tx : fake_tx_idle (g_net n) (fake_last a);
  fk_rx : fake_rx_queue (g_net n) (fake_inbox a)
}.

Lemma probe_free_spec slots start :
  match probe_free slots start with
  | Some slot => 0 <= slot < 8 ∧ f_occupied (slots !!! Z.to_nat slot) = false
  | None => ∀ i, 0 <= i < 8 → f_occupied (slots !!! Z.to_nat i) = true
  end.
Proof.
  unfold probe_free, VIRTIO_NET_QUEUE_SIZE. destruct (first_some _ _) as [slot|] eqn:H.
  - apply first_some_Some in H as (l1 & x & l2 & _ & Hx & _). cbv beta zeta in Hx.
    destruct (f_occupied _) eqn:Ho; simplify_eq. split; [word_lia|done].
  - rewrite first_some_None in H. intros i Hi.
    specialize (H ((i - start) mod 8)). cbv beta zeta in H.
    replace (u16 ((start + (i - start) mod 8) mod 8)) with i in H by word_lia.
    destruct (f_occupied _); [done|]. discriminate H. apply elem_of_seqZ. word_lia.
Qed.

Lemma slot_data slots i :
  slots_ok slots → 0 <= i < 8 →
  Z.of_nat (length (f_data (slots !!! Z.to_nat i))) = VIRTIO_NET_MAX_FRAME_SIZE.
Proof.
  intros [Hl H] Hi. eapply Forall_lookup_1 in H; [exact H|].
  apply list_lookup_lookup_total_lt. lia.
Qed.

Lemma slots_ok_insert slots i x :
  slots_ok slots → Z.of_nat (length (f_data x)) = VIRTIO_NET_MAX_FRAME_SIZE →
  slots_ok (<[i := x]> slots).
Proof. intros [Hl H] Hx. split; [by rewrite length_insert|by apply Forall_insert]. Qed.

(** Copying a whole legal frame to the front of a big enough array. *)
Lemma copy_frame dst data len :
  0 <= len <= Z.of_nat (length dst) → len <= Z.of_nat (length data) →
  copy_bytes dst 0 data 0 (Z.to_nat len) =
    Some (take (Z.to_nat len) data ++ drop (Z.to_nat len) dst) ∧
  length (take (Z.to_nat len) data ++ drop (Z.to_nat len) dst) = length dst.
Proof.
  intros Hd Hs. rewrite copy_bytes_ok by lia. split; [by rewrite drop_0|].
  rewrite length_app, length_take, length_drop. lia.
Qed.

(** ** Transmission completes at once *)

Lemma reclaim_tx_idle s : tx_used_consume s = us_idx (tx_used s) → reclaim_tx_locked s = s.
Proof.
  intros H. unfold reclaim_tx_locked. destruct (Z.to_nat _); simpl; by rewrite (proj2 (Z.eqb_eq _ _) H).
Qed.

(** One outstanding completion: exactly one turn of the loop. *)
Lemma reclaim_tx_last s :
  is_u16 (us_idx (tx_used s)) → is_u16 (tx_used_consume s) →
  us_idx (tx_used s) = u16 (tx_used_consume s + 1) →
  us_idx (tx_used (reclaim_tx_one s)) = us_idx (tx_used s) →
  tx_used_consume (reclaim_tx_one s) = u16 (tx_used_consume s + 1) →
  reclaim_tx_locked s = reclaim_tx_one s.
Proof.
  intros Hi Hc H Hu Hc'. unfold reclaim_tx_locked.
  replace (ring_distance (tx_used_consume s) (us_idx (tx_used s))) with 1
    by (unfold ring_distance; word_lia).
  change (Z.to_nat 1) with 1%nat. cbn [reclaim_tx_loop].
  rewrite (proj2 (Z.eqb_neq _ _)) by word_lia.
  rewrite Hu, Hc', H. by rewrite Z.eqb_refl.
Qed.

Lemma reclaim_tx_complete s slot len :
  is_u16 (us_idx (tx_used s)) → tx_used_consume s = us_idx (tx_used s) →
  length (us_ring (tx_used s)) = QSIZE → 0 <= slot < 8 →
  f_occupied (tx_slots s !!! Z.to_nat slot) = true → tx_pending s = 1 →
  let s' := reclaim_tx_locked (complete_tx_locked slot len s) in
  tx_slots s' = <[Z.to_nat slot := reset_slot (tx_slots s !!! Z.to_nat slot)]> (tx_slots s) ∧
  tx_pending s' = 0 ∧ tx_used_consume s' = us_idx (tx_used s') ∧
  is_u16 (us_idx (tx_used s')) ∧ length (us_ring (tx_used s')) = QSIZE ∧
  last_fake_tx s' = last_fake_tx s ∧ last_fake_tx_len s' = last_fake_tx_len s ∧
  last_fake_tx_valid s' = last_fake_tx_valid s ∧ backend s' = backend s ∧
  rx_slots s' = rx_slots s ∧ rx_used s' = rx_used s ∧ rx_used_consume s' = rx_used_consume s ∧
  rx_ready s' = rx_ready s.
Proof.
  intros Hi Hc Hr Hs Ho Hp. cbv zeta. set (t := complete_tx_locked slot len s).
  assert (reclaim_tx_one t =
    s .[ tx_used := used_push (mkUsedElem slot (u32 len)) (tx_used s) ]
      .[ tx_slots := <[Z.to_nat slot := reset_slot (tx_slots s !!! Z.to_nat slot)]> (tx_slots s) ]
      .[ tx_desc := <[Z.to_nat slot := (tx_desc s !!! Z.to_nat slot) .[ d_len := 0 ]]> (tx_desc s) ]
      .[ tx_pending := 0 ] .[ tx_used_consume := u16 (tx_used_consume s + 1) ]) as Hone.
  { unfold reclaim_tx_one. simpl. replace (ring_pos (tx_used_consume s)) with (ring_pos (us_idx (tx_used s))) by (by rewrite Hc).
    rewrite list_lookup_total_insert_eq by (rewrite Hr; apply ring_pos_lt).
    simpl. rewrite (u16_id slot) by word_lia. rewrite Ho, Hp.
    rewrite (proj2 (Z.ltb_lt slot _)) by (unfold VIRTIO_NET_QUEUE_SIZE; lia). done. }
  assert (reclaim_tx_locked t = reclaim_tx_one t) as ->.
  { apply reclaim_tx_last; try rewrite Hone; simpl; rewrite ?Hc; auto with words. }
  rewrite Hone; simpl. rewrite Hc, length_insert. split_and!; auto with words.
Qed.

Definition same_rx (s s' : NetState) : Prop :=
  rx_slots s' = rx_slots s ∧ rx_used s' = rx_used s ∧ rx_used_consume s' = rx_used_consume s ∧
  rx_ready s' = rx_ready s.

Lemma fake_rx_same s s' q : same_rx s s' → fake_rx_queue s q → fake_rx_queue s' q.
Proof.
  intros (H1 & H2 & H3 & H4) []. constructor; unfold rx_pending, ring_frames in *;
    rewrite ?H1, ?H2, ?H3, ?H4; done.
Qed.

(** The whole fake path of a send from an idle transmit side. *)
Lemma fake_tx_ok data len slot s last :
  fake_tx_idle s last → 0 <= slot < 8 →
  1 <= len <= VIRTIO_NET_MAX_FRAME_SIZE → len <= Z.of_nat (length data) →
  ∃ s1 s2, enqueue_tx data len slot s = Some s1 ∧ backend s1 = backend s ∧
    fake_tx data len slot s1 = Some s2 ∧ backend s2 = backend s ∧
    fake_tx_idle s2 (Some (take (Z.to_nat len) data)) ∧ same_rx s s2.
Proof.
  intros [Hsl Hfr Hpe Hco Hri Hidx Hbuf _] Hs Hl Hd.
  pose proof (slot_data _ _ Hsl Hs) as Hdat.
  destruct (copy_frame (f_data (tx_slots s !!! Z.to_nat slot)) data len) as [Hc1 Hl1]; [lia..|].
  destruct (copy_frame (last_fake_tx s) data len) as [Hc2 Hl2]; [lia..|].
  unfold enqueue_tx, fake_tx. rewrite Hc1. cbn [mbind option_bind]. eexists _, _.
  split; [reflexivity|]. split; [done|]. split; [simpl; rewrite Hc2; reflexivity|].
  destruct Hsl as [Hlen Hall].
  lazymatch goal with |- context [complete_tx_locked _ _ ?x] =>
    destruct (reclaim_tx_complete x slot len) as
      (H1 & H2 & H3 & H4 & H5 & H6 & H7 & H8 & H9 & H10 & H11 & H12 & H13); try done
  end.
  { simpl. by rewrite list_lookup_total_insert_eq by lia. }
  { simpl. by rewrite Hpe. }
  split; [exact H9|]. split; [|split_and!; done].
  unfold VIRTIO_NET_MAX_FRAME_SIZE in *.
  constructor; rewrite ?H1, ?H6, ?H7, ?H8; simpl; try done.
  - rewrite list_insert_insert_eq, list_lookup_total_insert_eq by lia.
    apply slots_ok_insert; [done|simpl; unfold VIRTIO_NET_MAX_FRAME_SIZE; lia].
  - intros i Hi. rewrite list_insert_insert_eq.
    destruct (decide (i = slot)) as [->|Hne].
    + by rewrite !list_lookup_total_insert_eq by lia.
    + rewrite list_lookup_total_insert_ne by lia. by apply Hfr.
  - unfold VIRTIO_NET_MAX_FRAME_SIZE. lia.
  - split_and!; [done|rewrite length_take; word_lia|]. by rewrite take_app_length.
Qed.

Definition stats_after (ok : bool) (c : NetStatCounter) (st : NetStats) : NetStats :=
  if ok then net_stats_increment c st else st.

Lemma legal_frame_Some data len :
  (∃ d, data = Some d ∧ 1 <= len <= VIRTIO_NET_MAX_FRAME_SIZE ∧
     legal_frame data len = Some (take (Z.to_nat len) d) ∧
     ((len =? 0) || (VIRTIO_NET_MAX_FRAME_SIZE <? len)) = false) ∨
  (legal_frame data len = None ∧
    (0 <= len → data = None ∨ ((len =? 0) || (VIRTIO_NET_MAX_FRAME_SIZE <? len)) = true)).
Proof.
  unfold legal_frame, VIRTIO_NET_MAX_FRAME_SIZE. destruct data as [d|]; [|by right; auto].
  destruct (Z.leb_spec 1 len), (Z.leb_spec len 2048); simpl.
  1: { left. exists d. rewrite (proj2 (Z.eqb_neq _ _)), (proj2 (Z.ltb_ge _ _)) by lia. split_and!; done. }
  all: right; split; [done|]; intros; right; apply orb_true_iff;
    rewrite Z.eqb_eq, Z.ltb_lt; lia.
Qed.

(** What a C caller owes: a length that is a [size_t] and that the buffer, when
    there is one, holds. *)
Definition holds (data : option bytes) (len : Z) : Prop :=
  0 <= len ∧ ∀ d, data = Some d → len <= Z.of_nat (length d).

Lemma fake_send_ok n a data len :
  fake_represents n a → holds data len →
  ∃ n', net_send_raw data len n = Some (fst (spec_send data len a), n') ∧
    fake_represents n' (snd (spec_send data len a)) ∧ g_hw n' = g_hw n ∧
    g_stats n' = stats_after (fst (spec_send data len a)) RawTx (g_stats n).
Proof.
  intros [Hb Htx Hrx] [H0 Hd]. unfold spec_send.
  destruct (legal_frame_Some data len) as [(d & -> & Hl & -> & Hg)|(-> & Hbad)].
  - specialize (Hd d eq_refl). unfold net_send_raw. rewrite Hg.
    unfold backend_ready_locked. rewrite Hb. cbn [negb].
    rewrite decide_False by done.
    rewrite (reclaim_tx_idle _ (ft_consumed _ _ Htx)).
    unfold find_free_tx_slot_locked. rewrite (ft_pending _ _ Htx).
    change (VIRTIO_NET_QUEUE_SIZE <=? 0) with false. cbv iota.
    pose proof (probe_free_spec (tx_slots (g_net n)) (tx_next_probe (g_net n))) as Hp.
    destruct (probe_free _ _) as [slot|].
    + destruct Hp as [Hr _]. cbv beta iota. rewrite (proj2 (Z.ltb_ge slot 0)) by lia.
      destruct (fake_tx_ok d len slot ((g_net n) .[ tx_next_probe := next_index slot ]) (fake_last a))
        as (s1 & s2 & He & Hb1 & Hf & Hb2 & Hi2 & Hs2); [by destruct Htx|done..|].
      rewrite He. cbn [mbind option_bind]. rewrite decide_True by (rewrite Hb1; exact Hb).
      rewrite Hf. cbn [mbind option_bind]. eexists. split; [reflexivity|].
      split; [|done]. constructor; [by rewrite <- Hb|done|].
      eapply fake_rx_same; [exact Hs2|]. by destruct Hrx.
    + pose proof (ft_free _ _ Htx 0 ltac:(lia)) as Hf. rewrite Hp in Hf; [done|lia].
  - exists n. split; [|done]. unfold net_send_raw. destruct data as [d|]; [|done].
    destruct (Hbad H0) as [?| ->]; [done|]. done.
Qed.

(** ** Reception is a bounded FIFO *)

Lemma ring_frames_length s es : length (ring_frames s es) = length es.
Proof. apply length_fmap. Qed.

Lemma rx_pending_bound s q : fake_rx_queue s q → (length (rx_pending s) <= 8)%nat.
Proof.
  intros H. rewrite <- (length_fmap ue_id). apply slots_bound; [apply H|].
  intros i Hi%(fr_use _ _ H). tauto.
Qed.

Lemma rx_pending_length s :
  length (rx_pending s) = Z.to_nat (ring_distance (rx_used_consume s) (us_idx (rx_used s))).
Proof. apply window_length. Qed.

(** Slots outside the pending entries do not matter. *)
Lemma ring_frames_insert s s' slot x es :
  rx_slots s' = <[Z.to_nat slot := x]> (rx_slots s) → 0 <= slot →
  slot ∉ ue_id <$> es → Forall (λ e, 0 <= ue_id e) es →
  ring_frames s' es = ring_frames s es.
Proof.
  intros Hs H0 Hni Hr. unfold ring_frames. apply list_fmap_ext. intros i e He.
  rewrite Hs, list_lookup_total_insert_ne; [done|].
  pose proof (Forall_lookup_1 _ _ _ _ Hr He) as He0. simpl in He0. intros Heq.
  apply Hni. apply list_elem_of_fmap. exists e. split; [lia|]. by eapply list_elem_of_lookup_2.
Qed.

Lemma fr_range s q : fake_rx_queue s q → Forall (λ e, 0 <= ue_id e < 8) (rx_pending s).
Proof.
  intros H. apply Forall_forall. intros e He. apply (fr_use _ _ H).
  apply list_elem_of_fmap. eauto.
Qed.

Lemma fake_rx_push s s' q slot d len :
  fake_rx_queue s q → 0 <= slot < 8 → f_occupied (rx_slots s !!! Z.to_nat slot) = false →
  1 <= len <= VIRTIO_NET_MAX_FRAME_SIZE →
  Z.of_nat (length d) = VIRTIO_NET_MAX_FRAME_SIZE →
  rx_slots s' = <[Z.to_nat slot := mkSlot d len true]> (rx_slots s) →
  rx_used s' = used_push (mkUsedElem slot len) (rx_used s) →
  rx_used_consume s' = rx_used_consume s → rx_ready s' = u16 (rx_ready s + 1) →
  fake_rx_queue s' (q ++ [take (Z.to_nat len) d]).
Proof.
  intros H Hr Hfree Hl Hd Hsl Hus Hco Hre.
  pose proof (rx_pending_bound _ _ H) as Hb. pose proof (rx_pending_length s) as Hlen.
  pose proof (fr_range _ _ H) as Hrange.
  destruct H as [Hso Hri Hix Hcx Hnd Huse Hall Hrdy Hfrm].
  assert (slot ∉ (ue_id <$> rx_pending s)) as Hni by (intros [_ ?]%Huse; congruence).
  assert (length (rx_pending s) < 8)%nat as Hlt.
  { assert (length (slot :: (ue_id <$> rx_pending s)) <= 8)%nat as Hb'.
    - apply slots_bound; [by constructor|]. intros i [->|Hi]%elem_of_cons; [lia|].
      apply Huse in Hi. tauto.
    - simpl in Hb'. rewrite length_fmap in Hb'. lia. }
  assert (rx_pending s' = rx_pending s ++ [mkUsedElem slot len]) as Hp.
  { unfold rx_pending. rewrite Hus, Hco. simpl.
    pose proof (ring_distance_range (rx_used_consume s) (us_idx (rx_used s))).
    rewrite ring_distance_push by (done || word_lia).
    rewrite Z2Nat.inj_add, Nat.add_comm by word_lia. change (Z.to_nat 1 + ?n)%nat with (S n).
    apply window_push; [done|word_lia|]. rewrite Z2Nat.id by word_lia.
    unfold ring_distance. word_lia. }
  pose proof (proj1 Hso) as Hlsl.
  constructor; rewrite ?Hp, ?Hsl, ?Hus, ?Hco, ?Hre.
  - apply slots_ok_insert; done.
  - simpl. by rewrite length_insert.
  - simpl. auto with words.
  - done.
  - rewrite fmap_app. apply NoDup_app. split_and!; [done| |apply NoDup_singleton].
    intros x Hx ->%list_elem_of_singleton. done.
  - intros i. rewrite fmap_app, elem_of_app. simpl. rewrite list_elem_of_singleton.
    destruct (decide (i = slot)) as [->|Hne].
    + rewrite list_lookup_total_insert_eq by lia. simpl. tauto.
    + specialize (Huse i). destruct (decide (0 <= i < 8)).
      * rewrite list_lookup_total_insert_ne by lia. tauto.
      * split; [intros [?|?]; exfalso; tauto|tauto].
  - apply Forall_app. split; [done|]. by apply Forall_singleton.
  - rewrite Hrdy, length_app. simpl. word_lia.
  - unfold ring_frames at 1. rewrite fmap_app. f_equal.
    + rewrite <- Hfrm. eapply ring_frames_insert; [exact Hsl|lia|done|].
      eapply Forall_impl; [exact Hrange|]. simpl. lia.
    + simpl. by rewrite Hsl, list_lookup_total_insert_eq by lia.
Qed.

Lemma fake_rx_pop s s' f q :
  fake_rx_queue s (f :: q) →
  let e := us_ring (rx_used s) !!! ring_pos (rx_used_consume s) in
  let i := Z.to_nat (ue_id e) in
  rx_used_consume s ≠ us_idx (rx_used s) ∧ 0 <= ue_id e < 8 ∧
  f_occupied (rx_slots s !!! i) = true ∧ 1 <= ue_len e <= VIRTIO_NET_MAX_FRAME_SIZE ∧
  f = take (Z.to_nat (ue_len e)) (f_data (rx_slots s !!! i)) ∧
  Z.of_nat (length f) = ue_len e ∧ 0 < rx_ready s ∧
  (rx_slots s' = <[i := reset_slot (rx_slots s !!! i)]> (rx_slots s) → rx_used s' = rx_used s →
   rx_used_consume s' = u16 (rx_used_consume s + 1) → rx_ready s' = rx_ready s - 1 →
   fake_rx_queue s' q).
Proof.
  intros H. cbv zeta. set (e := us_ring _ !!! _). set (i := Z.to_nat _).
  pose proof (rx_pending_length s) as Hlen. pose proof (fr_range _ _ H) as Hrange.
  destruct H as [Hso Hri Hix Hcx Hnd Huse Hall Hrdy Hfrm].
  assert (∃ es, rx_pending s = e :: es ∧
    (rx_used s' = rx_used s → rx_used_consume s' = u16 (rx_used_consume s + 1) → rx_pending s' = es) ∧
    rx_used_consume s ≠ us_idx (rx_used s)) as (es & Hp & Hp' & Hne).
  { destruct (decide (rx_used_consume s = us_idx (rx_used s))) as [He|Hne].
    - apply (f_equal length) in Hfrm. rewrite ring_frames_length, Hlen in Hfrm.
      apply ring_distance_0 in He; [|done..]. by rewrite He in Hfrm.
    - pose proof (ring_distance_range (u16 (rx_used_consume s + 1)) (us_idx (rx_used s))).
      eexists. split_and!; [|intros H1 H2|done].
      + unfold rx_pending. rewrite ring_distance_step by done.
        rewrite Z2Nat.inj_add by word_lia. change (Z.to_nat 1 + ?n)%nat with (S n). reflexivity.
      + unfold rx_pending. by rewrite H1, H2. }
  rewrite Hp in *. inversion Hrange as [|?? Hr Hrs]. inversion Hall as [|?? Hl Hls]. subst x x0 l l0.
  inversion Hnd as [|?? Hni Hnd']. subst x l.
  assert (i < length (rx_slots s))%nat as Hi by (rewrite (proj1 Hso); lia).
  pose proof (slot_data _ _ Hso Hr) as Hdat. fold i in Hdat.
  injection Hfrm as Hf Hq. fold i in Hf.
  split_and!; try done; try lia.
  - apply (proj1 (Huse (ue_id e))). simpl. by left.
  - rewrite <- Hf, length_take. lia.
  - rewrite Hrdy. simpl. lia.
  - intros H1 H2 H3 H4. specialize (Hp' H2 H3).
    constructor; rewrite ?Hp', ?H1, ?H2, ?H3, ?H4; auto with words.
    + by apply slots_ok_insert.
    + intros j. simpl in Huse. specialize (Huse j). rewrite elem_of_cons in Huse.
      destruct (decide (j = ue_id e)) as [->|Hj].
      * rewrite list_lookup_total_insert_eq by done. split; [by intros ?%Hni|by intros [_ ?]].
      * destruct (decide (0 <= j < 8)).
        -- rewrite list_lookup_total_insert_ne by lia. tauto.
        -- split; [intros ?; exfalso; tauto|tauto].
    + rewrite Hrdy. simpl. lia.
    + rewrite <- Hq. eapply ring_frames_insert; [exact H1|lia|done|].
      eapply Forall_impl; [exact Hrs|]. simpl. lia.
Qed.

Lemma fake_inject_ok n a data len :
  fake_represents n a → holds data len →
  ∃ n', net_fake_inject_rx data len n = Some (fst (spec_inject data len a), n') ∧
    fake_represents n' (snd (spec_inject data len a)) ∧
    g_hw n' = g_hw n ∧ g_stats n' = g_stats n.
Proof.
  intros [Hb Htx Hrx] [H0 Hd]. unfold spec_inject.
  destruct (legal_frame_Some data len) as [(d & -> & Hl & -> & Hg)|(-> & Hbad)].
  2: { exists n. split; [|done]. unfold net_fake_inject_rx. destruct data as [d|]; [|done].
       destruct (Hbad H0) as [?| ->]; done. }
  specialize (Hd d eq_refl). unfold net_fake_inject_rx. rewrite Hg, decide_False by (intros []; done).
  unfold find_free_rx_slot_locked. rewrite (fr_ready _ _ Hrx).
  pose proof (fr_frames _ _ Hrx) as Hfr. apply (f_equal length) in Hfr. rewrite ring_frames_length in Hfr.
  pose proof (rx_pending_bound _ _ Hrx) as Hbound. rewrite <- Hfr.
  assert (fake_tx_idle (g_net n) (fake_last a)) as Htx' by done.
  unfold VIRTIO_NET_QUEUE_SIZE. case_decide as Hfull.
  - rewrite Hfull. cbn. exists n. by destruct n.
  - rewrite (proj2 (Z.leb_gt _ _)) by lia.
    pose proof (probe_free_spec (rx_slots (g_net n)) (rx_next_probe (g_net n))) as Hp.
    destruct (probe_free _ _) as [slot|].
    + destruct Hp as [Hr Hfree]. cbv beta iota. rewrite (proj2 (Z.ltb_ge slot 0)) by lia.
      pose proof (slot_data _ _ (fr_slots _ _ Hrx) Hr) as Hdat.
      simpl. destruct (copy_frame (f_data (rx_slots (g_net n) !!! Z.to_nat slot)) d len) as [-> Hcl]; [lia..|].
      cbn [mbind option_bind]. eexists. split; [reflexivity|]. split; [|done].
      unfold VIRTIO_NET_MAX_FRAME_SIZE in Hl. rewrite (u16_id len), (u32_id len) by word_lia.
      constructor; [exact Hb|by destruct Htx|]. simpl.
      set (dd := take (Z.to_nat len) d ++ _) in *.
      replace (take (Z.to_nat len) d) with (take (Z.to_nat len) dd).
      { eapply (fake_rx_push (g_net n) _ _ slot); try done. by rewrite Hcl. }
      unfold dd. rewrite take_app_le by (rewrite length_take; lia).
      apply take_ge. rewrite length_take. lia.
    + exfalso. assert (length (seqZ 0 8) <= length (ue_id <$> rx_pending (g_net n)))%nat as Hle.
      { apply submseteq_length, NoDup_submseteq; [apply NoDup_seqZ|].
        intros i Hi%elem_of_seqZ. apply (fr_use _ _ Hrx). split; [lia|]. apply Hp. lia. }
      rewrite length_seqZ, length_fmap in Hle. lia.
Qed.

Lemma fake_recv_ok n a out max_len :
  fake_represents n a → 0 <= max_len <= Z.of_nat (length out) →
  let '(r, out', a') := spec_recv out max_len a in
  ∃ n', net_recv_raw (Some out) max_len n = Some (r, Some out', n') ∧
    fake_represents n' a' ∧ g_hw n' = g_hw n ∧
    g_stats n' = stats_after (bool_decide (0 < r)) RawRx (g_stats n).
Proof.
  intros Hrep Hm. pose proof Hrep as [Hb Htx Hrx].
  unfold spec_recv, net_recv_raw. destruct (Z.eqb_spec max_len 0); [by exists n|].
  unfold backend_ready_locked. rewrite Hb. cbn [negb]. rewrite decide_False by done.
  destruct (fake_inbox a) as [|f q] eqn:Hq.
  - pose proof (fr_frames _ _ Hrx) as Hfr. apply (f_equal length) in Hfr.
    rewrite ring_frames_length, rx_pending_length in Hfr. simpl in Hfr.
    pose proof (ring_distance_range (rx_used_consume (g_net n)) (us_idx (rx_used (g_net n)))).
    rewrite (proj2 (Z.eqb_eq _ _)); [by exists n|].
    apply ring_distance_0; [apply Hrx..|word_lia].
  - destruct (fake_rx_pop _ (g_net n) _ _ Hrx) as (Hne & Hr & Hocc & Hl & Hf & Hfl & Hrdy & _).
    rewrite (proj2 (Z.eqb_neq _ _) Hne). rewrite (u16_id (ue_id _)) by word_lia.
    rewrite (proj2 (Z.leb_gt _ _)) by (unfold VIRTIO_NET_QUEUE_SIZE; lia).
    rewrite Hocc. cbn [orb negb]. rewrite Hfl.
    destruct (Z.ltb_spec max_len (ue_len
      (us_ring (rx_used (g_net n)) !!! ring_pos (rx_used_consume (g_net n))))) as [Hs|Hs]; [by exists n|].
    pose proof (slot_data _ _ (fr_slots _ _ Hrx) Hr) as Hdat.
    destruct (copy_frame out (f_data (rx_slots (g_net n) !!! Z.to_nat (ue_id
      (us_ring (rx_used (g_net n)) !!! ring_pos (rx_used_consume (g_net n))))))
      (ue_len (us_ring (rx_used (g_net n)) !!! ring_pos (rx_used_consume (g_net n))))) as [-> _]; [lia..|].
    cbn [mbind option_bind]. rewrite <- Hf, <- Hfl, Nat2Z.id. eexists. split; [reflexivity|].
    rewrite bool_decide_eq_true_2 by lia. split; [|done].
    constructor; [exact Hb|by destruct Htx|]. simpl.
    eapply (fake_rx_pop (g_net n) _ f q Hrx); simpl; try done.
    by rewrite (proj2 (Z.ltb_lt _ _)) by lia.
Qed.

Lemma net_init_fake_ok n :
  slots_ok (tx_slots (g_net n)) → slots_ok (rx_slots (g_net n)) →
  Z.of_nat (length (last_fake_tx (g_net n))) = VIRTIO_NET_MAX_FRAME_SIZE →
  fake_represents (net_init_fake n) (mkFakeNet [] None).
Proof.
  intros [Htl Htd] [Hrl Hrd] Hl.
  assert (∀ l : list FrameSlot, length l = 8%nat → ∀ i, 0 <= i < 8 →
    f_occupied ((reset_slot <$> l) !!! Z.to_nat i) = false) as Hfree.
  { intros l Hll i Hi. by rewrite (list_lookup_total_fmap _ (Inhabited0:=slot_inhabited)) by lia. }
  constructor; [done|..].
  - constructor; simpl; auto; try word_lia. split; [by rewrite length_fmap|].
    by apply Forall_fmap.
  - assert (rx_pending (g_net (net_init_fake n)) = []) as Hp by done.
    constructor; rewrite ?Hp; simpl; auto; try word_lia.
    + split; [by rewrite length_fmap|]. by apply Forall_fmap.
    + constructor.
    + intros i. split; [by intros ?%not_elem_of_nil|]. intros [Hi Ho]. by rewrite Hfree in Ho.
Qed.

Lemma fake_copy_last_ok n a out len :
  fake_represents n a → 0 <= len <= Z.of_nat (length out) →
  net_copy_last_tx_for_test (Some out) (Some len) n =
    match fake_last a with
    | Some f => if len <? Z.of_nat (length f) then Some (false, Some out, Some len)
                else Some (true, Some (f ++ drop (length f) out), Some (Z.of_nat (length f)))
    | None => Some (false, Some out, Some len)
    end.
Proof.
  intros [_ [] _] Hl. unfold net_copy_last_tx_for_test. destruct (fake_last a) as [f|].
  - destruct ft_last0 as (-> & -> & Hf). cbn [negb orb]. destruct (Z.ltb_spec len (Z.of_nat (length f))); [done|].
    destruct (copy_frame out (last_fake_tx (g_net n)) (Z.of_nat (length f))) as [-> _]; [lia| |].
    { apply (f_equal length) in Hf. rewrite length_take in Hf. lia. }
    rewrite !Nat2Z.id, Hf. done.
  - by rewrite ft_last0.
Qed.

(** ** Sequences of calls *)

Inductive FakeCall :=
| CallSend (data : option bytes) (len : Z)
| CallInject (data : option bytes) (len : Z)
| CallRecv (out : bytes) (max_len : Z)
| CallLast (out : bytes) (len : Z).

(** What a call shows to its caller: a status and an output buffer. *)
Definition run_call (c : FakeCall) (n : RawNic) : option (Z * bytes * RawNic) :=
  match c with
  | CallSend data len => '(b, n) ← net_send_raw data len n; Some (Z.b2z b, [], n)
  | CallInject data len => '(b, n) ← net_fake_inject_rx data len n; Some (Z.b2z b, [], n)
  | CallRecv out max_len =>
      '(r, out, n) ← net_recv_raw (Some out) max_len n; Some (r, default [] out, n)
  | CallLast out len =>
      '(b, out, l) ← net_copy_last_tx_for_test (Some out) (Some len) n;
      Some (Z.b2z b * default 0 l, default [] out, n)
  end.

Definition spec_call (c : FakeCall) (a : FakeNet) : Z * bytes * FakeNet :=
  match c with
  | CallSend data len => let '(b, a) := spec_send data len a in (Z.b2z b, [], a)
  | CallInject data len => let '(b, a) := spec_inject data len a in (Z.b2z b, [], a)
  | CallRecv out max_len => spec_recv out max_len a
  | CallLast out len =>
      match fake_last a with
      | Some f => if len <? Z.of_nat (length f) then (0, out, a)
                  else (Z.of_nat (length f), f ++ drop (length f) out, a)
      | None => (0, out, a)
      end
  end.

Definition call_ok (c : FakeCall) : Prop :=
  match c with
  | CallSend data len | CallInject data len => holds data len
  | CallRecv out len | CallLast out len => 0 <= len <= Z.of_nat (length out)
  end.

Fixpoint run_calls (cs : list FakeCall) (n : RawNic) : option (list (Z * bytes) * RawNic) :=
  match cs with
  | [] => Some ([], n)
  | c :: cs' =>
      '(r, o, n) ← run_call c n;
      '(l, n) ← run_calls cs' n;
      Some ((r, o) :: l, n)
  end.

Fixpoint spec_calls (cs : list FakeCall) (a : FakeNet) : list (Z * bytes) * FakeNet :=
  match cs with
  | [] => ([], a)
  | c :: cs' =>
      let '(r, o, a) := spec_call c a in
      let '(l, a) := spec_calls cs' a in
      ((r, o) :: l, a)
  end.

Lemma run_call_refines c n a :
  fake_represents n a → call_ok c →
  let '(r, o, a') := spec_call c a in
  ∃ n', run_call c n = Some (r, o, n') ∧ fake_represents n' a'.
Proof.
  intros H Hc. destruct c as [data len|data len|out len|out len]; simpl in *.
  - destruct (fake_send_ok _ _ data len H Hc) as (n' & -> & Hr & _).
    destruct (spec_send data len a) as [b a']. eauto.
  - destruct (fake_inject_ok _ _ data len H Hc) as (n' & -> & Hr & _).
    destruct (spec_inject data len a) as [b a']. eauto.
  - pose proof (fake_recv_ok _ _ out len H Hc) as Hr.
    destruct (spec_recv out len a) as [[r o] a']. destruct Hr as (n' & -> & Hr & _). eauto.
  - rewrite (fake_copy_last_ok _ _ out len H Hc).
    destruct (fake_last a) as [f|]; [destruct (len <? _)|]; exists n;
      (split; [|done]); cbn [mbind option_bind default Z.b2z]; by rewrite ?Z.mul_1_l, ?Z.mul_0_l.
Qed.

Lemma run_calls_refines cs n a :
  fake_represents n a → Forall call_ok cs →
  ∃ n', run_calls cs n = Some (fst (spec_calls cs a), n') ∧
    fake_represents n' (snd (spec_calls cs a)).
Proof.
  intros Hr Hcs. revert n a Hr. induction Hcs as [|c cs Hc _ IH]; intros n a Hr; [by exists n|].
  simpl. pose proof (run_call_refines c n a Hr Hc) as H.
  destruct (spec_call c a) as [[r o] a1]. destruct H as (n1 & -> & Hr1).
  destruct (IH n1 a1 Hr1) as (n2 & H2 & Hr2). exists n2. cbn [mbind option_bind].
  rewrite H2. destruct (spec_calls cs a1). done.
Qed.

Definition zero_net : NetState :=
  let slots := replicate QSIZE (mkSlot (replicate 2048 0) 0 false) in
  mkNetState BackendNone [] [] avail_zero avail_zero used_zero used_zero slots slots
    0 0 0 0 0 0 (replicate 2048 0) 0 false.

Definition hw_zero : VirtioHwState :=
  let q := mkQueue [] avail_zero used_zero 0 0 0 None 0 0 in
  mkHw false q q [] [] (replicate 6 0) 0 [].

(** The globals before any initialisation. *)
Definition boot_nic : RawNic := mkRawNic zero_net hw_zero net_stats_reset.

Lemma boot_fake : fake_represents (net_init_fake boot_nic) (mkFakeNet [] None).
Proof.
  apply net_init_fake_ok; [split; [done|]..|done].
  - repeat apply Forall_cons_2; done.
  - repeat apply Forall_cons_2; done.
Qed.

(** From [net_init_fake] on, any sequence of legal calls to
    [net_send_raw], [net_fake_inject_rx], [net_recv_raw] and
    [net_copy_last_tx_for_test] touches no memory outside its buffers and
    returns to its callers exactly what the specification does: a FIFO of at most eight
    injected frames and the last frame sent. *)
Theorem fake_backend_refines cs :
  Forall call_ok cs →
  ∃ n', run_calls cs (net_init_fake boot_nic) = Some (fst (spec_calls cs (mkFakeNet [] None)), n') ∧
    fake_represents n' (snd (spec_calls cs (mkFakeNet [] None))).
Proof. apply run_calls_refines, boot_fake. Qed.

Lemma fake_backend_refines_witness :
  let cs := [CallInject (Some [7; 8]) 2; CallInject (Some [9]) 1; CallRecv (replicate 4 0) 4;
             CallSend (Some [5]) 1; CallLast (replicate 2 0) 2] in
  (∃ n', run_calls cs (net_init_fake boot_nic) = Some (fst (spec_calls cs (mkFakeNet [] None)), n') ∧
    fake_represents n' (snd (spec_calls cs (mkFakeNet [] None)))) ∧
  fst (spec_calls cs (mkFakeNet [] None)) = [(1, []); (1, []); (2, [7; 8; 0; 0]); (1, []); (1, [5; 0])].
Proof.
  cbv zeta. split; [|reflexivity]. apply fake_backend_refines.
  repeat apply Forall_cons_2; try apply Forall_nil_2; simpl; unfold holds;
    try (split; [lia|intros d [= <-]; simpl; lia]); lia.
Defined.

(** On the fake backend a legal frame is always accepted, [RawTx] counts it,
    and [net_copy_last_tx_for_test] gives back its bytes and its length. *)
Theorem fake_send_visible n a data len out :
  fake_represents n a → 1 <= len <= VIRTIO_NET_MAX_FRAME_SIZE → len <= Z.of_nat (length data) →
  len <= Z.of_nat (length out) →
  ∃ n', net_send_raw (Some data) len n = Some (true, n') ∧
    g_stats n' = net_stats_increment RawTx (g_stats n) ∧
    net_copy_last_tx_for_test (Some out) (Some (Z.of_nat (length out))) n' =
      Some (true, Some (take (Z.to_nat len) data ++ drop (Z.to_nat len) out), Some len).
Proof.
  intros H Hl Hd Ho.
  destruct (fake_send_ok n a (Some data) len H) as (n' & Hs & Hr & _ & Hst).
  { split; [lia|]. by intros d [= <-]. }
  unfold spec_send, legal_frame in *.
  rewrite (proj2 (Z.leb_le 1 len)), (proj2 (Z.leb_le len _)) in * by lia. cbn [andb fst snd] in *.
  exists n'. split_and!; [done|done|].
  rewrite (fake_copy_last_ok _ _ _ _ Hr) by lia. cbn [fake_last].
  rewrite length_take, Nat.min_l by lia. rewrite Z2Nat.id by lia.
  by rewrite (proj2 (Z.ltb_ge _ _)) by lia.
Qed.

Lemma fake_send_visible_witness :
  ∃ n', net_send_raw (Some [1; 2; 3]) 2 (net_init_fake boot_nic) = Some (true, n') ∧
    g_stats n' = net_stats_increment RawTx net_stats_reset ∧
    net_copy_last_tx_for_test (Some [9; 9; 9]) (Some 3) n' = Some (true, Some [1; 2; 9], Some 2).
Proof.
  apply (fake_send_visible (net_init_fake boot_nic) (mkFakeNet [] None) [1; 2; 3] 2 [9; 9; 9]).
  - exact boot_fake.
  - unfold VIRTIO_NET_MAX_FRAME_SIZE. lia.
  - simpl. lia.
  - simpl. lia.
Defined.

(** A null pointer, a zero length, a length above 2048 bytes or a backend
    that is not ready is refused by [net_send_raw] without any effect, whatever
    the state. *)
Theorem net_send_raw_rejects data len n :
  data = None ∨ len = 0 ∨ VIRTIO_NET_MAX_FRAME_SIZE < len ∨ net_ready n = false →
  net_send_raw data len n = Some (false, n).
Proof.
  intros H. unfold net_send_raw. destruct data as [d|]; [|done].
  destruct (Z.eqb_spec len 0); [done|].
  destruct (Z.ltb_spec VIRTIO_NET_MAX_FRAME_SIZE len); [done|]. cbn [orb].
  destruct H as [?|[?|[?|Hn]]]; [done|lia|lia|].
  unfold net_ready in Hn. by rewrite Hn.
Qed.

Lemma net_send_raw_rejects_witness :
  net_send_raw (Some [1]) 1 boot_nic = Some (false, boot_nic) ∧
  net_send_raw (Some [1]) 4096 (net_init_fake boot_nic) = Some (false, net_init_fake boot_nic).
Proof.
  split; apply net_send_raw_rejects; [right; right; right|right; right; left]; reflexivity.
Defined.
