(* ===== verification/Wire.v ===== *)
(** * Packet formats and the Internet checksum

    The packed structs of kernel/ethernet.h, arp.h, ipv4.h, icmp.h and udp.h,
    with the casts [reinterpret_cast<Header *>(p + off)] the protocol code reads
    and writes packets through, and [checksum16] of kernel/net_proto.cc.
    A 16-bit field holds the value a little-endian CPU loads, so the code's
    [bswap16] stays visible. *)

From S2P Require Import Prelude.

(** ** Packed structs

    What a packed struct promises to the code that casts to it: a size and a
    bijection between its values and the byte strings of that size. *)

Class Packed (T : Type) := {
  packed_size : nat;
  to_bytes : T → bytes;
  of_bytes : bytes → T;
  packed_wf : T → Prop
}.
Arguments packed_size T {_}.

Class PackedLaws (T : Type) `{Packed T} := {
  to_bytes_length x : packed_wf x → length (to_bytes x) = packed_size T;
  to_bytes_wf x : packed_wf x → wf_bytes (to_bytes x);
  of_to_bytes x : packed_wf x → of_bytes (to_bytes x) = x;
  to_of_bytes bs : wf_bytes bs → length bs = packed_size T →
    packed_wf (of_bytes bs) ∧ to_bytes (of_bytes bs) = bs
}.

(** Reading and writing a whole struct at an offset of a buffer. *)
Definition struct_at (T : Type) `{Packed T} (p : bytes) (off : nat) : option T :=
  bs ← load_n p off (packed_size T); Some (of_bytes bs).

Definition struct_put {T : Type} `{Packed T} (p : bytes) (off : nat) (x : T) : option bytes :=
  store_n p off (to_bytes x).

(** ** The headers *)

Definition ETH_TYPE_ARP : Z := 2054.
Definition ETH_TYPE_IPV4 : Z := 2048.
Definition ARP_HTYPE_ETHERNET : Z := 1.
Definition ARP_PTYPE_IPV4 : Z := 2048.
Definition ARP_OP_REQUEST : Z := 1.
Definition ARP_OP_REPLY : Z := 2.
Definition IPV4_PROTO_ICMP : Z := 1.
Definition IPV4_PROTO_UDP : Z := 17.
Definition ICMP_ECHO_REPLY : Z := 0.
Definition ICMP_ECHO_REQUEST : Z := 8.

Record EthernetHeader := mkEth { eth_dst : bytes; eth_src : bytes; ether_type : Z }.

Record ArpPacket := mkArp {
  arp_htype : Z; arp_ptype : Z; arp_hlen : Z; arp_plen : Z; arp_oper : Z;
  arp_sha : bytes; arp_spa : bytes; arp_tha : bytes; arp_tpa : bytes
}.

Record Ipv4Header := mkIpv4 {
  version_ihl : Z; tos : Z; total_length : Z; identification : Z; flags_fragment : Z;
  ttl : Z; protocol : Z; header_checksum : Z; src_ip : bytes; dst_ip : bytes
}.
#[export] Instance eta_Ipv4Header : Eta Ipv4Header := fun h =>
  mkIpv4 (version_ihl h) (tos h) (total_length h) (identification h) (flags_fragment h)
    (ttl h) (protocol h) (header_checksum h) (src_ip h) (dst_ip h).

Record IcmpEchoHeader := mkIcmp {
  icmp_type : Z; icmp_code : Z; icmp_checksum : Z; icmp_identifier : Z; icmp_sequence : Z
}.
#[export] Instance eta_IcmpEchoHeader : Eta IcmpEchoHeader := fun h =>
  mkIcmp (icmp_type h) (icmp_code h) (icmp_checksum h) (icmp_identifier h) (icmp_sequence h).

Record UdpHeader := mkUdp {
  udp_src_port : Z; udp_dst_port : Z; udp_length : Z; udp_checksum : Z
}.

Definition field (bs : bytes) (off n : nat) : bytes := take n (drop off bs).

#[export] Instance packed_eth : Packed EthernetHeader := {
  packed_size := 14;
  to_bytes e := eth_dst e ++ eth_src e ++ bytes16 (ether_type e);
  of_bytes bs := mkEth (field bs 0 6) (field bs 6 6) (load16 bs 12);
  packed_wf e := length (eth_dst e) = 6%nat ∧ length (eth_src e) = 6%nat ∧
    wf_bytes (eth_dst e) ∧ wf_bytes (eth_src e) ∧ is_u16 (ether_type e)
}.

#[export] Instance packed_arp : Packed ArpPacket := {
  packed_size := 28;
  to_bytes a := bytes16 (arp_htype a) ++ bytes16 (arp_ptype a) ++ [arp_hlen a; arp_plen a] ++
    bytes16 (arp_oper a) ++ arp_sha a ++ arp_spa a ++ arp_tha a ++ arp_tpa a;
  of_bytes bs := mkArp (load16 bs 0) (load16 bs 2) (nth 4 bs 0) (nth 5 bs 0) (load16 bs 6)
    (field bs 8 6) (field bs 14 4) (field bs 18 6) (field bs 24 4);
  packed_wf a := is_u16 (arp_htype a) ∧ is_u16 (arp_ptype a) ∧ is_u8 (arp_hlen a) ∧
    is_u8 (arp_plen a) ∧ is_u16 (arp_oper a) ∧
    (length (arp_sha a) = 6%nat ∧ wf_bytes (arp_sha a)) ∧
    (length (arp_spa a) = 4%nat ∧ wf_bytes (arp_spa a)) ∧
    (length (arp_tha a) = 6%nat ∧ wf_bytes (arp_tha a)) ∧
    (length (arp_tpa a) = 4%nat ∧ wf_bytes (arp_tpa a))
}.

#[export] Instance packed_ipv4 : Packed Ipv4Header := {
  packed_size := 20;
  to_bytes h := [version_ihl h; tos h] ++ bytes16 (total_length h) ++ bytes16 (identification h) ++
    bytes16 (flags_fragment h) ++ [ttl h; protocol h] ++ bytes16 (header_checksum h) ++
    src_ip h ++ dst_ip h;
  of_bytes bs := mkIpv4 (nth 0 bs 0) (nth 1 bs 0) (load16 bs 2) (load16 bs 4) (load16 bs 6)
    (nth 8 bs 0) (nth 9 bs 0) (load16 bs 10) (field bs 12 4) (field bs 16 4);
  packed_wf h := is_u8 (version_ihl h) ∧ is_u8 (tos h) ∧ is_u16 (total_length h) ∧
    is_u16 (identification h) ∧ is_u16 (flags_fragment h) ∧ is_u8 (ttl h) ∧
    is_u8 (protocol h) ∧ is_u16 (header_checksum h) ∧
    (length (src_ip h) = 4%nat ∧ wf_bytes (src_ip h)) ∧
    (length (dst_ip h) = 4%nat ∧ wf_bytes (dst_ip h))
}.

#[export] Instance packed_icmp : Packed IcmpEchoHeader := {
  packed_size := 8;
  to_bytes h := [icmp_type h; icmp_code h] ++ bytes16 (icmp_checksum h) ++
    bytes16 (icmp_identifier h) ++ bytes16 (icmp_sequence h);
  of_bytes bs := mkIcmp (nth 0 bs 0) (nth 1 bs 0) (load16 bs 2) (load16 bs 4) (load16 bs 6);
  packed_wf h := is_u8 (icmp_type h) ∧ is_u8 (icmp_code h) ∧ is_u16 (icmp_checksum h) ∧
    is_u16 (icmp_identifier h) ∧ is_u16 (icmp_sequence h)
}.

#[export] Instance packed_udp : Packed UdpHeader := {
  packed_size := 8;
  to_bytes h := bytes16 (udp_src_port h) ++ bytes16 (udp_dst_port h) ++
    bytes16 (udp_length h) ++ bytes16 (udp_checksum h);
  of_bytes bs := mkUdp (load16 bs 0) (load16 bs 2) (load16 bs 4) (load16 bs 6);
  packed_wf h := is_u16 (udp_src_port h) ∧ is_u16 (udp_dst_port h) ∧
    is_u16 (udp_length h) ∧ is_u16 (udp_checksum h)
}.

(** [explode] turns a list of known length into its elements. *)
Ltac explode l :=
  let H := fresh in
  match goal with
  | Hl : length l = _ |- _ => rename Hl into H
  end;
  repeat (destruct l as [|? l]; [discriminate H|]; simpl in H; apply (f_equal pred) in H; cbn [pred] in H);
  destruct l as [|? l]; [clear H|discriminate H].
Ltac forall_inv :=
  repeat match goal with
  | H : wf_bytes _ |- _ => unfold wf_bytes in H
  | H : Forall _ (_ :: _) |- _ => apply Forall_cons in H as [? H]
  | H : Forall _ [] |- _ => clear H
  end.

Lemma pair_mod a b : is_u8 a → (a + 256 * b) mod 256 = a.
Proof. word_lia. Qed.
Lemma pair_div a b : is_u8 a → (a + 256 * b) / 256 = b.
Proof. word_lia. Qed.
Lemma pair_of_u16 x : is_u16 x → x mod 256 + 256 * (x / 256) = x.
Proof. word_lia. Qed.
Lemma is_u16_pair a b : is_u8 a → is_u8 b → is_u16 (a + 256 * b).
Proof. word_lia. Qed.
Lemma is_u8_mod x : is_u8 (x mod 256).
Proof. word_lia. Qed.
Lemma is_u8_div x : is_u16 x → is_u8 (x / 256).
Proof. word_lia. Qed.
#[export] Hint Resolve is_u16_pair is_u8_mod is_u8_div : words.

Ltac packed_laws :=
  constructor;
  [ intros []; simpl; intros; destruct_and?; rewrite ?length_app, ?bytes16_length; simpl; lia
  | intros []; simpl; intros; destruct_and?; unfold bytes16, wf_bytes in *;
    repeat first [rewrite Forall_app|rewrite Forall_cons];
    split_and?; auto using Forall_nil_2 with words
  | intros []; simpl; intros; destruct_and?;
    repeat match goal with H : length ?l = _ |- _ => is_var l; explode l end;
    unfold field, load16, bytes16; simpl; f_equal; try reflexivity; by apply pair_of_u16
  | intros bs Hwf Hl; simpl in Hl; explode bs; forall_inv;
    simpl; unfold field, load16; simpl;
    split; [unfold wf_bytes; rewrite ?Forall_cons; split_and?; auto using Forall_nil_2 with words
           |unfold bytes16; by rewrite ?pair_mod, ?pair_div by done] ].

#[export] Instance eth_laws : PackedLaws EthernetHeader.
Proof. packed_laws. Qed.
#[export] Instance arp_laws : PackedLaws ArpPacket.
Proof. packed_laws. Qed.
#[export] Instance ipv4_laws : PackedLaws Ipv4Header.
Proof. packed_laws. Qed.
#[export] Instance icmp_laws : PackedLaws IcmpEchoHeader.
Proof. packed_laws. Qed.
#[export] Instance udp_laws : PackedLaws UdpHeader.
Proof. packed_laws. Qed.

(** ** Casts *)

Section casts.
Context {T : Type} `{PackedLaws T}.

Lemma struct_at_app pre x post :
  packed_wf x → struct_at T (pre ++ to_bytes x ++ post) (length pre) = Some x.
Proof.
  intros Hx. unfold struct_at. rewrite <- (to_bytes_length x Hx), load_n_app.
  cbn [mbind option_bind]. by rewrite of_to_bytes.
Qed.

Lemma struct_at_inv p off x :
  wf_bytes p → struct_at T p off = Some x →
  packed_wf x ∧ (off + packed_size T <= length p)%nat ∧
  p = take off p ++ to_bytes x ++ drop (off + packed_size T) p.
Proof.
  intros Hp. unfold struct_at. destruct (load_n p off (packed_size T)) as [bs|] eqn:Hl; [|done].
  cbn [mbind option_bind]. intros [= <-].
  pose proof (load_n_length _ _ _ _ Hl) as Hlen. unfold load_n in Hl.
  case_decide as Hd; [|done]. injection Hl as Hl.
  destruct (to_of_bytes (T:=T) bs) as [Hwf Heq]; [|done|].
  { rewrite <- Hl. auto with words. }
  split_and!; [done|done|]. rewrite Heq, <- Hl, <- drop_drop.
  by rewrite take_drop, take_drop.
Qed.

Lemma struct_put_app pre old x post :
  packed_wf x → length old = packed_size T →
  struct_put (pre ++ old ++ post) (length pre) x = Some (pre ++ to_bytes x ++ post).
Proof.
  intros Hx Hl. unfold struct_put. apply store_n_app. by rewrite to_bytes_length.
Qed.

Lemma struct_at_defined p off :
  (off + packed_size T <= length p)%nat → is_Some (struct_at T p off).
Proof. intros Hl. unfold struct_at. rewrite load_n_ok by done. eexists. reflexivity. Qed.
End casts.

(** ** The Internet checksum *)

(** The accumulation loop over big-endian words, in 32 bits; an odd last byte
    is padded on the right. *)
Fixpoint sum_words (data : bytes) (sum : Z) : Z :=
  match data with
  | a :: b :: rest => sum_words rest (u32 (sum + u16 (Z.lor (Z.shiftl a 8) b)))
  | [a] => u32 (sum + Z.shiftl a 8)
  | [] => sum
  end.

(** The folding loop, with the number of turns it is allowed. *)
Fixpoint fold_carries (fuel : nat) (sum : Z) : Z :=
  if Z.shiftr sum 16 =? 0 then sum
  else match fuel with
       | O => sum
       | S fuel' => fold_carries fuel' (u32 (Z.land sum 65535 + Z.shiftr sum 16))
       end.

(** [data] is the region the pointer and the length denote. *)
Definition checksum16 (data : bytes) : Z :=
  u16 (Z.lnot (fold_carries 2 (sum_words data 0))).

(** [checksum16(p + off, len)]. *)
Definition checksum_at (p : bytes) (off len : nat) : option Z :=
  bs ← load_n p off len; Some (checksum16 bs).

(** Reference: the plain sum of the words. *)
Fixpoint word_sum (data : bytes) : Z :=
  match data with
  | a :: b :: rest => 256 * a + b + word_sum rest
  | [a] => 256 * a
  | [] => 0
  end.

(** Two steps through the bytes at a time. *)
Lemma pair_ind (P : bytes → Prop) :
  P [] → (∀ a, P [a]) → (∀ a b l, P l → P (a :: b :: l)) → ∀ l, P l.
Proof.
  intros H0 H1 H2. fix IH 1. intros [|a [|b l]]; [done|done|]. apply H2, IH.
Qed.

Lemma word_sum_range data :
  wf_bytes data → 0 <= word_sum data <= 65535 * ((Z.of_nat (length data) + 1) / 2).
Proof.
  induction data as [|a|a b l IH] using pair_ind; simpl; intros H; forall_inv;
    [word_lia..|]. specialize (IH H). word_lia.
Qed.

Lemma be_word a b : is_u8 a → is_u8 b → u16 (Z.lor (Z.shiftl a 8) b) = 256 * a + b.
Proof.
  intros. rewrite Z.shiftl_mul_pow2, lor_disjoint by (change (2 ^ 8) with 256; word_lia).
  change (2 ^ 8) with 256. word_lia.
Qed.

(** No carry is lost while the sum fits 32 bits. *)
Lemma sum_words_exact data acc :
  wf_bytes data → 0 <= acc → acc + word_sum data < 4294967296 →
  sum_words data acc = acc + word_sum data.
Proof.
  revert acc. induction data as [|a|a b l IH] using pair_ind; simpl; intros acc H Hacc Hs; forall_inv.
  - lia.
  - rewrite (shiftl_mul a 8 256) by lia. word_lia.
  - pose proof (word_sum_range l H). rewrite be_word by done.
    rewrite IH; try done; word_lia.
Qed.

Lemma word_sum_u32 data :
  wf_bytes data → Z.of_nat (length data) <= 131070 → is_u32 (word_sum data).
Proof. intros H Hl. pose proof (word_sum_range data H). word_lia. Qed.

Lemma fold_step sum : is_u32 sum →
  u32 (Z.land sum 65535 + Z.shiftr sum 16) = sum mod 65536 + sum / 65536 ∧
  Z.shiftr sum 16 = sum / 65536.
Proof.
  intros. rewrite (land_ones_mod sum 16), (shiftr_div sum 16 65536) by (done || lia).
  change (2 ^ 16) with 65536. split; [word_lia|done].
Qed.

(** Two turns fold any 32-bit sum into 16 bits without changing it modulo
    65535, and never to zero unless it was zero. *)
Lemma fold_carries_spec sum :
  is_u32 sum →
  let r := fold_carries 2 sum in
  is_u16 r ∧ r mod 65535 = sum mod 65535 ∧ (r = 0 ↔ sum = 0).
Proof.
  intros Hs. cbn [fold_carries]. destruct (fold_step sum Hs) as [-> ->].
  destruct (Z.eqb_spec (sum / 65536) 0) as [H0|H0]; [split_and!; word_lia|].
  set (s1 := sum mod 65536 + sum / 65536).
  assert (is_u32 s1) as Hs1 by (subst s1; word_lia).
  assert (s1 mod 65535 = sum mod 65535 ∧ (s1 = 0 ↔ sum = 0) ∧ 0 <= s1 <= 131070) as (Hm1 & Hz1 & Hb1)
    by (subst s1; split_and!; word_lia).
  destruct (fold_step s1 Hs1) as [-> ->]. rewrite <- Hm1. clearbody s1. clear Hm1 H0 Hs.
  destruct (Z.eqb_spec (s1 / 65536) 0) as [H0|H0]; [split_and!; word_lia|].
  assert (s1 mod 65536 + s1 / 65536 < 65536) by word_lia.
  rewrite (shiftr_div _ 16 65536), (Z.div_small (s1 mod 65536 + s1 / 65536)) by (done || word_lia).
  cbn. split_and!; word_lia.
Qed.

Lemma checksum16_spec data :
  wf_bytes data → Z.of_nat (length data) <= 131070 →
  let c := checksum16 data in
  is_u16 c ∧ (c + word_sum data) mod 65535 = 0 ∧ (c = 65535 ↔ word_sum data = 0).
Proof.
  intros Hwf Hl. cbv zeta. unfold checksum16.
  pose proof (word_sum_u32 data Hwf Hl) as Hs.
  rewrite sum_words_exact by (try done; word_lia). rewrite Z.add_0_l.
  pose proof (fold_carries_spec _ Hs) as Hf. cbv zeta in Hf.
  destruct Hf as (Hr & Hm & Hz). set (r := fold_carries 2 (word_sum data)) in *.
  assert (u16 (Z.lnot r) = 65535 - r) as -> by (unfold Z.lnot; word_lia).
  split_and!; [word_lia| |rewrite <- Hz; lia].
  rewrite <- Z.add_mod_idemp_r, <- Hm by lia. rewrite Z.add_mod_idemp_r by lia.
  by replace (65535 - r + r) with 65535 by lia.
Qed.

(** A region verifies when its sum is a nonzero multiple of 65535. *)
Lemma checksum16_zero data :
  wf_bytes data → Z.of_nat (length data) <= 131070 →
  checksum16 data = 0 ↔ word_sum data ≠ 0 ∧ word_sum data mod 65535 = 0.
Proof.
  intros Hwf Hl. pose proof (checksum16_spec data Hwf Hl) as H. cbv zeta in H.
  destruct H as (Hr & Hm & Hz). pose proof (word_sum_u32 data Hwf Hl). split.
  - intros H0. rewrite H0 in *. split; [|done]. intros ?. lia.
  - intros [Hn H0]. rewrite <- Z.add_mod_idemp_r, H0 in Hm by lia. word_lia.
Qed.

Lemma word_sum_app pre q : Nat.even (length pre) = true → word_sum (pre ++ q) = word_sum pre + word_sum q.
Proof.
  induction pre as [|a|a b l IH] using pair_ind; simpl; intros He; [done|done|].
  rewrite IH by done. lia.
Qed.

Lemma bytes16_bswap c : is_u16 c → bytes16 (bswap16 c) = [c / 256; c mod 256].
Proof.
  intros Hc. pose proof (bswap16_eq c Hc) as ->. unfold bytes16. repeat f_equal; word_lia.
Qed.

(** Writing the checksum of a region over its zeroed checksum field makes the
    region verify. *)
Lemma checksum_insert pre post :
  wf_bytes pre → wf_bytes post → Nat.even (length pre) = true →
  Z.of_nat (length pre + 2 + length post) <= 131070 →
  checksum16 (pre ++ bytes16 (bswap16 (checksum16 (pre ++ [0; 0] ++ post))) ++ post) = 0.
Proof.
  intros Hp Hq He Hl.
  assert (wf_bytes (pre ++ [0; 0] ++ post)) as Hz.
  { apply wf_bytes_app. split; [done|]. apply wf_bytes_app. split; [|done].
    apply (wf_bytes_zeros 2). }
  pose proof (checksum16_spec (pre ++ [0; 0] ++ post) Hz) as H. cbv zeta in H.
  rewrite !length_app in H. simpl in H. destruct H as (Hc & Hm & Hf); [lia|].
  set (c := checksum16 _) in *. rewrite bytes16_bswap by done.
  assert (wf_bytes (pre ++ [c / 256; c mod 256] ++ post)) as Hz'.
  { apply wf_bytes_app. split; [done|]. repeat (apply Forall_cons; split; auto with words). }
  apply checksum16_zero; [done|rewrite !length_app; simpl; lia|].
  rewrite word_sum_app in * by done. cbn [app word_sum] in *.
  pose proof (word_sum_range pre Hp). pose proof (word_sum_range post Hq).
  split; [|rewrite <- Hm; f_equal; word_lia]. intros ?. word_lia.
Qed.

Lemma word_sum_insert l i v :
  (i < length l)%nat →
  ∃ k, (k = 1 ∨ k = 256) ∧ word_sum (<[i := v]> l) = word_sum l + k * (v - nth i l 0).
Proof.
  revert i. induction l as [|a|a b l IH] using pair_ind; simpl; intros i Hi; [lia| |].
  - replace i with 0%nat by lia. exists 256. simpl. lia.
  - destruct i as [|[|i]]; simpl; [exists 256; lia|exists 1; lia|].
    destruct (IH i) as (k & Hk & E); [lia|]. exists k. split; [done|]. rewrite E. lia.
Qed.

(** C40: The checksum the code computes over a region whose checksum field is
    zero, stored in network order in that field, makes [checksum16] of the region zero,
    which is what the receiver tests. *)
Theorem checksum16_roundtrip pre post :
  wf_bytes pre → wf_bytes post → Nat.even (length pre) = true →
  Z.of_nat (length pre + 2 + length post) <= 131070 →
  checksum16 (pre ++ bytes16 (bswap16 (checksum16 (pre ++ [0; 0] ++ post))) ++ post) = 0.
Proof. apply checksum_insert. Qed.

Lemma checksum16_roundtrip_witness :
  checksum16 ([69; 0] ++ bytes16 (bswap16 (checksum16 ([69; 0] ++ [0; 0] ++ [1; 2; 3]))) ++ [1; 2; 3]) = 0.
Proof.
  apply checksum16_roundtrip; [repeat constructor; lia|repeat constructor; lia|done|simpl; lia].
Defined.

(** A region that verifies stops verifying when any one byte of it changes. *)
Theorem checksum16_detects_byte data i v :
  wf_bytes data → Z.of_nat (length data) <= 131070 → checksum16 data = 0 →
  (i < length data)%nat → is_u8 v → v ≠ nth i data 0 →
  checksum16 (<[i := v]> data) ≠ 0.
Proof.
  intros Hwf Hl H0 Hi Hv Hne H1.
  apply checksum16_zero in H0 as [_ H0]; [|done..].
  apply checksum16_zero in H1 as [_ H1]; [|by apply Forall_insert|by rewrite length_insert].
  destruct (word_sum_insert data i v Hi) as (k & Hk & E). rewrite E in H1.
  pose proof (wf_nth data i Hwf) as Hb. set (b := nth i data 0) in *.
  assert ((k * (v - b)) mod 65535 = 0) as Hd.
  { rewrite <- Z.add_mod_idemp_l, H0 in H1 by lia. done. }
  destruct Hk; subst k; word_lia.
Qed.

Lemma checksum16_detects_byte_witness :
  checksum16 [255; 255] = 0 ∧ checksum16 (<[1%nat := 0]> [255; 255]) ≠ 0.
Proof.
  split; [reflexivity|].
  apply checksum16_detects_byte; [repeat constructor; lia|simpl; lia|reflexivity|simpl; lia
    |unfold is_u8; lia|simpl; lia].
Defined.

(** ** Headers with a checksum *)

Lemma ipv4_to_bytes_split h :
  to_bytes h = (([version_ihl h; tos h] ++ bytes16 (total_length h) ++ bytes16 (identification h) ++
    bytes16 (flags_fragment h) ++ [ttl h; protocol h]) ++ bytes16 (header_checksum h) ++
    src_ip h ++ dst_ip h).
Proof. done. Qed.

Definition ipv4_seal (h : Ipv4Header) (opts : bytes) : Ipv4Header :=
  h .[ header_checksum := bswap16 (checksum16 (to_bytes (h .[ header_checksum := 0 ]) ++ opts)) ].

Definition icmp_seal (h : IcmpEchoHeader) (payload : bytes) : IcmpEchoHeader :=
  h .[ icmp_checksum := bswap16 (checksum16 (to_bytes (h .[ icmp_checksum := 0 ]) ++ payload)) ].

Lemma ipv4_seal_wf h opts : packed_wf h → packed_wf (ipv4_seal h opts).
Proof. simpl. intros. destruct_and?. split_and!; auto with words. Qed.
Lemma icmp_seal_wf h payload : packed_wf h → packed_wf (icmp_seal h payload).
Proof. simpl. intros. destruct_and?. split_and!; auto with words. Qed.

Lemma ipv4_seal_verifies h opts :
  packed_wf h → wf_bytes opts → Z.of_nat (length opts) <= 131000 →
  checksum16 (to_bytes (ipv4_seal h opts) ++ opts) = 0.
Proof.
  intros Hwf Ho Hl. pose proof (to_bytes_wf h Hwf) as Hb. pose proof (to_bytes_length h Hwf) as Hlen.
  rewrite ipv4_to_bytes_split in Hb, Hlen. apply wf_bytes_app in Hb as [Hpre Hb].
  apply wf_bytes_app in Hb as [_ Hpost].
  pose proof (checksum_insert _ (src_ip h ++ dst_ip h ++ opts) Hpre) as H.
  change (to_bytes (ipv4_seal h opts)) with (([version_ihl h; tos h] ++ bytes16 (total_length h) ++
    bytes16 (identification h) ++ bytes16 (flags_fragment h) ++ [ttl h; protocol h]) ++
    bytes16 (header_checksum (ipv4_seal h opts)) ++ src_ip h ++ dst_ip h).
  change (header_checksum (ipv4_seal h opts)) with
    (bswap16 (checksum16 (to_bytes (h .[ header_checksum := 0 ]) ++ opts))).
  change (to_bytes (h .[ header_checksum := 0 ])) with (([version_ihl h; tos h] ++
    bytes16 (total_length h) ++ bytes16 (identification h) ++ bytes16 (flags_fragment h) ++
    [ttl h; protocol h]) ++ [0; 0] ++ src_ip h ++ dst_ip h).
  rewrite <- !app_assoc in *. apply H.
  - apply wf_bytes_app in Hpost as [? ?]. rewrite !wf_bytes_app. done.
  - done.
  - rewrite !length_app in *. unfold bytes16 in *. simpl in *. lia.
Qed.

Lemma icmp_seal_verifies h payload :
  packed_wf h → wf_bytes payload → Z.of_nat (length payload) <= 131000 →
  checksum16 (to_bytes (icmp_seal h payload) ++ payload) = 0.
Proof.
  intros Hwf Ho Hl. pose proof (to_bytes_wf h Hwf) as Hb.
  change (to_bytes h) with ([icmp_type h; icmp_code h] ++ bytes16 (icmp_checksum h) ++
    bytes16 (icmp_identifier h) ++ bytes16 (icmp_sequence h)) in Hb.
  apply wf_bytes_app in Hb as [Hpre Hb]. apply wf_bytes_app in Hb as [_ Hpost].
  pose proof (checksum_insert [icmp_type h; icmp_code h]
    (bytes16 (icmp_identifier h) ++ bytes16 (icmp_sequence h) ++ payload) Hpre) as H.
  change (to_bytes (icmp_seal h payload)) with ([icmp_type h; icmp_code h] ++
    bytes16 (icmp_checksum (icmp_seal h payload)) ++ bytes16 (icmp_identifier h) ++
    bytes16 (icmp_sequence h)).
  change (icmp_checksum (icmp_seal h payload)) with
    (bswap16 (checksum16 (to_bytes (h .[ icmp_checksum := 0 ]) ++ payload))).
  change (to_bytes (h .[ icmp_checksum := 0 ])) with ([icmp_type h; icmp_code h] ++ [0; 0] ++
    bytes16 (icmp_identifier h) ++ bytes16 (icmp_sequence h)).
  rewrite <- !app_assoc in *. apply H.
  - apply wf_bytes_app in Hpost as [? ?]. rewrite !wf_bytes_app. done.
  - done.
  - rewrite !length_app. unfold bytes16. simpl. lia.
Qed.
