(* ===== verification/NetSend.v ===== *)
(** * Kernel network state and the sending half of kernel/net_proto.cc

    [Kernel H A] gathers the globals of the protocol code: the NIC and the
    counters, the ARP cache, the UDP handler table of kernel/udp.cc, the identity
    [g_my_mac]/[g_my_ip], and the state [A] of the applications behind the UDP
    handlers; [H] is the type of handler pointers.  This file models building and
    sending ARP requests and IPv4 packets. *)

From S2P Require Import Prelude NetStats ArpCache VirtioHw VirtioNet Wire.

(** ** State *)

Record UdpHandlerEntry (H : Type) := mkHandlerEntry {
  uh_valid : bool; uh_port : Z; uh_handler : option H
}.
Arguments mkHandlerEntry {H}.
Arguments uh_valid {H}.
Arguments uh_port {H}.
Arguments uh_handler {H}.
#[export] Instance eta_UdpHandlerEntry {H} : Eta (UdpHandlerEntry H) := fun e =>
  mkHandlerEntry (uh_valid e) (uh_port e) (uh_handler e).

Record Kernel (H A : Type) := mkKernel {
  k_nic : RawNic; k_arp : ArpCache; g_udp_handlers : list (UdpHandlerEntry H);
  g_my_mac : bytes; g_my_ip : bytes; k_app : A
}.
Arguments mkKernel {H A}.
Arguments k_nic {H A}.
Arguments k_arp {H A}.
Arguments g_udp_handlers {H A}.
Arguments g_my_mac {H A}.
Arguments g_my_ip {H A}.
Arguments k_app {H A}.
#[export] Instance eta_Kernel {H A} : Eta (Kernel H A) := fun k =>
  mkKernel (k_nic k) (k_arp k) (g_udp_handlers k) (g_my_mac k) (g_my_ip k) (k_app k).

(** ** Addresses *)

Definition ip_equals (a b : bytes) : bool := bytes_equal a b 4.
Definition broadcast_mac : bytes := replicate 6 255.
Definition mac_is_broadcast (mac : bytes) : bool := bytes_equal mac broadcast_mac 6.

Section net_send.
Context {H A : Type}.
Implicit Types k : Kernel H A.

(** [net_stats_increment]. *)
Definition count (c : NetStatCounter) k : Kernel H A := k .[ k_nic := count_raw c (k_nic k) ].

Definition mac_is_for_me (mac : bytes) k : bool :=
  if mac_is_broadcast mac then true else bytes_equal mac (g_my_mac k) 6.

Definition net_set_identity (mac ip : option bytes) k : option (Kernel H A) :=
  k ← match mac with
      | Some mac => m ← copy_bytes (g_my_mac k) 0 mac 0 6; Some (k .[ g_my_mac := m ])
      | None => Some k
      end;
  match ip with
  | Some ip => i ← copy_bytes (g_my_ip k) 0 ip 0 4; Some (k .[ g_my_ip := i ])
  | None => Some k
  end.

(** [net_send_raw], on the whole state. *)
Definition send_raw (data : option bytes) (len : Z) k : option (bool * Kernel H A) :=
  '(ok, n) ← net_send_raw data len (k_nic k); Some (ok, k .[ k_nic := n ]).

(** An Ethernet header followed by an ARP packet, from two field lists. *)
Definition arp_frame (e : EthernetHeader) (a : ArpPacket) : option bytes :=
  f ← struct_put (replicate (packed_size EthernetHeader + packed_size ArpPacket) 0) 0 e;
  struct_put f (packed_size EthernetHeader) a.

Definition net_send_arp_request (target_ip : option bytes) k : option (bool * Kernel H A) :=
  match target_ip with
  | None => Some (false, k)
  | Some target_ip =>
      my_mac ← load_n (g_my_mac k) 0 6;
      my_ip ← load_n (g_my_ip k) 0 4;
      tpa ← load_n target_ip 0 4;
      request ← arp_frame
        (mkEth broadcast_mac my_mac (bswap16 ETH_TYPE_ARP))
        (mkArp (bswap16 ARP_HTYPE_ETHERNET) (bswap16 ARP_PTYPE_IPV4) 6 4 (bswap16 ARP_OP_REQUEST)
           my_mac my_ip (replicate 6 0) tpa);
      '(ok, k) ← send_raw (Some request) (Z.of_nat (length request)) k;
      Some (ok, if ok : bool then count ArpTx k else k)
  end.

(** The frame [net_send_ipv4] builds: payload first, then the checksum. *)
Definition ipv4_frame (dst_mac my_mac my_ip dst_ip : bytes) (proto : Z)
    (payload : bytes) (payload_len : Z) : option bytes :=
  let ip := mkIpv4 69 0 (bswap16 (u16 (20 + payload_len))) (bswap16 8738) 0 64 proto 0 my_ip dst_ip in
  f ← struct_put (replicate 2048 0) 0 (mkEth dst_mac my_mac (bswap16 ETH_TYPE_IPV4));
  f ← struct_put f 14 ip;
  f ← (if payload_len =? 0 then Some f else copy_bytes f 34 payload 0 (Z.to_nat payload_len));
  c ← checksum_at f 14 20;
  struct_put f 14 (ip .[ header_checksum := bswap16 c ]).

Definition net_send_ipv4 (dst_ip : option bytes) (proto : Z) (payload : option bytes)
    (payload_len : Z) k : option (bool * Kernel H A) :=
  match dst_ip, payload with
  | None, _ => Some (false, k)
  | Some dst_ip, _ =>
      if (if payload is None then negb (payload_len =? 0) else false) then Some (false, k)
      else
        let ip_total_len := u64 (20 + payload_len) in
        let frame_len := u64 (14 + ip_total_len) in
        if (VIRTIO_NET_MAX_FRAME_SIZE <? payload_len) || (VIRTIO_NET_MAX_FRAME_SIZE <? frame_len) ||
           (65535 <? ip_total_len) then Some (false, k)
        else
          '(hit, dst_mac, arp) ← arp_cache_lookup (Some dst_ip) (Some (replicate 6 0)) (k_arp k);
          let k := k .[ k_arp := arp ] in
          if negb hit then
            '(_, k) ← net_send_arp_request (Some dst_ip) k; Some (false, k)
          else
            dst_mac ← dst_mac;
            my_mac ← load_n (g_my_mac k) 0 6;
            my_ip ← load_n (g_my_ip k) 0 4;
            dst ← load_n dst_ip 0 4;
            frame ← ipv4_frame dst_mac my_mac my_ip dst proto (default [] payload) payload_len;
            '(ok, k) ← send_raw (Some frame) frame_len k;
            Some (ok, if ok : bool then count Ipv4Tx k else k)
  end.
End net_send.

(** ** What the builders produce *)

Lemma load_whole p n : length p = n → load_n p 0 n = Some p.
Proof. intros Hl. rewrite load_n_ok by lia. by rewrite drop_0, take_ge by lia. Qed.

Lemma arp_frame_ok e a :
  packed_wf e → packed_wf a → arp_frame e a = Some (to_bytes e ++ to_bytes a).
Proof.
  intros He Ha. unfold arp_frame. rewrite replicate_add.
  pose proof (struct_put_app [] (replicate (packed_size EthernetHeader) 0) e
    (replicate (packed_size ArpPacket) 0) He ltac:(apply length_replicate)) as H1.
  cbn [app length] in H1. rewrite H1. cbn [mbind option_bind].
  rewrite <- (to_bytes_length e He).
  pose proof (struct_put_app (to_bytes e) (replicate (packed_size ArpPacket) 0) a [] Ha
    ltac:(apply length_replicate)) as H2.
  by rewrite !app_nil_r in H2.
Qed.

(** The IPv4 header of an outgoing packet of [payload_len] bytes. *)
Definition out_ipv4 (my_ip dst_ip : bytes) (proto payload_len : Z) : Ipv4Header :=
  ipv4_seal (mkIpv4 69 0 (bswap16 (u16 (20 + payload_len))) (bswap16 8738) 0 64 proto 0 my_ip dst_ip) [].

Definition wf_addr (n : nat) (a : bytes) : Prop := length a = n ∧ wf_bytes a.

Lemma eth_wf dst src ty :
  wf_addr 6 dst → wf_addr 6 src → packed_wf (mkEth dst src (bswap16 ty)).
Proof. intros [] []. simpl. split_and!; auto with words. Qed.

Lemma out_ipv4_wf my_ip dst_ip proto n :
  wf_addr 4 my_ip → wf_addr 4 dst_ip → is_u8 proto → packed_wf (out_ipv4 my_ip dst_ip proto n).
Proof.
  intros [] [] Hp. apply ipv4_seal_wf. simpl. split_and!; auto with words; word_lia.
Qed.

Lemma ipv4_frame_ok dst_mac my_mac my_ip dst_ip proto payload len :
  wf_addr 6 dst_mac → wf_addr 6 my_mac → wf_addr 4 my_ip → wf_addr 4 dst_ip → is_u8 proto →
  0 <= len <= 2014 → len <= Z.of_nat (length payload) →
  ipv4_frame dst_mac my_mac my_ip dst_ip proto payload len =
    Some (to_bytes (mkEth dst_mac my_mac (bswap16 ETH_TYPE_IPV4)) ++
          to_bytes (out_ipv4 my_ip dst_ip proto len) ++
          take (Z.to_nat len) payload ++ replicate (Z.to_nat (2014 - len)) 0).
Proof.
  intros Hdm Hmm Hmi Hdi Hp Hl Hpl. unfold ipv4_frame. cbv zeta.
  set (eth := mkEth _ _ _). set (ip := mkIpv4 _ _ _ _ _ _ _ _ _ _).
  assert (packed_wf eth) as He by by apply eth_wf.
  assert (packed_wf ip) as Hi.
  { destruct Hmi, Hdi. subst ip. simpl. split_and!; auto with words; word_lia. }
  pose proof (to_bytes_length eth He) as Hle. pose proof (to_bytes_length ip Hi) as Hli.
  change (packed_size EthernetHeader) with 14%nat in Hle. change (packed_size Ipv4Header) with 20%nat in Hli.
  change (replicate 2048 0) with ([] ++ replicate 14 0 ++ replicate 2034 0).
  change 0%nat with (length (@nil Z)) at 1.
  rewrite struct_put_app by done. cbn [mbind option_bind app].
  change (replicate 2034 0) with (replicate 20 0 ++ replicate 2014 0).
  pose proof (struct_put_app (to_bytes eth) (replicate 20 0) ip (replicate 2014 0) Hi eq_refl) as H2.
  rewrite Hle in H2. rewrite H2. cbn [mbind option_bind].
  assert ((if len =? 0 then Some (to_bytes eth ++ to_bytes ip ++ replicate 2014 0)
           else copy_bytes (to_bytes eth ++ to_bytes ip ++ replicate 2014 0) 34 payload 0 (Z.to_nat len)) =
    Some (to_bytes eth ++ to_bytes ip ++ take (Z.to_nat len) payload ++
          replicate (Z.to_nat (2014 - len)) 0)) as ->.
  { destruct (Z.eqb_spec len 0) as [->|]; [done|].
    replace 2014%nat with (Z.to_nat len + Z.to_nat (2014 - len))%nat by lia.
    rewrite replicate_add, !app_assoc. rewrite <- (app_assoc (to_bytes eth ++ to_bytes ip)).
    replace 34%nat with (length (to_bytes eth ++ to_bytes ip)) by (rewrite length_app; lia).
    rewrite copy_bytes_app; [|by rewrite length_replicate|lia]. by rewrite !app_assoc. }
  cbn [mbind option_bind].
  assert (∀ rest, checksum_at (to_bytes eth ++ to_bytes ip ++ rest) 14 20 = Some (checksum16 (to_bytes ip))) as Hck.
  { intros rest. unfold checksum_at. pose proof (load_n_app (to_bytes eth) (to_bytes ip) rest) as Hx.
    rewrite Hle, Hli in Hx. by rewrite Hx. }
  rewrite Hck. cbn [mbind option_bind].
  assert (ip .[ header_checksum := bswap16 (checksum16 (to_bytes ip)) ] = out_ipv4 my_ip dst_ip proto len) as ->.
  { unfold out_ipv4, ipv4_seal. fold ip. by rewrite app_nil_r. }
  pose proof (struct_put_app (to_bytes eth) (to_bytes ip) (out_ipv4 my_ip dst_ip proto len)
    (take (Z.to_nat len) payload ++ replicate (Z.to_nat (2014 - len)) 0)
    (out_ipv4_wf _ _ _ _ Hmi Hdi Hp) Hli) as H3.
  by rewrite Hle in H3.
Qed.

(** ** What the protocol code asks of the NIC

    [ok] is an invariant of the raw interface under which every call with legal
    buffers stays inside them.  Both backends implement it. *)

Class NicSpec (ok : RawNic → Prop) := {
  nic_count_ok c n : ok n → ok (count_raw c n);
  nic_send_ok data len n : ok n → holds data len →
    ∃ b n', net_send_raw data len n = Some (b, n') ∧ ok n';
  nic_recv_ok out n : ok n → wf_bytes out → length out = 2048%nat →
    ∃ r out' n', net_recv_raw (Some out) 2048 n = Some (r, Some out', n') ∧ ok n' ∧
      wf_bytes out' ∧ length out' = 2048%nat ∧ r <= 2048
}.

Definition fake_ok (n : RawNic) : Prop :=
  ∃ a, fake_represents n a ∧ Forall wf_bytes (fake_inbox a) ∧
    Forall (λ f, Z.of_nat (length f) <= 2048) (fake_inbox a).

Lemma fake_count c n a : fake_represents n a → fake_represents (count_raw c n) a.
Proof. by intros []. Qed.

#[export] Instance fake_nic : NicSpec fake_ok.
Proof.
  constructor.
  - intros c n (a & Ha & Hw). exists a. split; [by apply fake_count|done].
  - intros data len n (a & Ha & Hw & Hl) Hd.
    destruct (fake_send_ok n a data len Ha Hd) as (n' & Hs & Hr & _).
    eexists _, n'. split; [exact Hs|]. eexists. split; [exact Hr|].
    unfold spec_send. by destruct (legal_frame data len).
  - intros out n (a & Ha & Hw & Hl) Ho Hlen.
    pose proof (fake_recv_ok n a out 2048 Ha ltac:(lia)) as H. unfold spec_recv in H.
    change (2048 =? 0) with false in H. cbv iota in H.
    destruct (fake_inbox a) as [|f q] eqn:Hq.
    + destruct H as (n' & Hs & Hr & _). exists 0, out, n'. split_and!; try done.
      exists a. by rewrite Hq.
    + apply Forall_cons in Hw as [Hf Hw]. apply Forall_cons in Hl as [Hfl Hl].
      rewrite (proj2 (Z.ltb_ge _ _)) in H by lia. destruct H as (n' & Hs & Hr & _).
      eexists _, _, n'. split; [exact Hs|]. split; [by eexists|]. split_and!.
      * apply wf_bytes_app. auto with words.
      * rewrite length_app, length_drop. lia.
      * lia.
Qed.

(** The live queues: the transmit invariant of [VirtioHw], and receive pages
    of the allocated size.  Nothing is asked of what the device wrote to the
    used ring. *)
Definition live_ok (n : RawNic) : Prop :=
  backend (g_net n) = BackendVirtio ∧ (∃ W T P, tx_ok (g_hw n) W T P) ∧
  length (rx_buffers (g_hw n)) = QSIZE ∧
  Forall (λ b, wf_bytes (b_data b) ∧ k_virtio_buffer_size <= Z.of_nat (length (b_data b)))
    (rx_buffers (g_hw n)).

Lemma virtio_recv_ok out h :
  length (rx_buffers h) = QSIZE →
  Forall (λ b, wf_bytes (b_data b) ∧ k_virtio_buffer_size <= Z.of_nat (length (b_data b))) (rx_buffers h) →
  wf_bytes out → length out = 2048%nat →
  ∃ r out' h', virtio_recv_raw_locked out 2048 h = Some (r, out', h') ∧
    wf_bytes out' ∧ length out' = 2048%nat ∧ r <= 2048 ∧ rx_buffers h' = rx_buffers h.
Proof.
  intros Hl Hall Ho Hlen. unfold virtio_recv_raw_locked. cbv zeta.
  case_match; [eexists _, _, _; split_and!; [done..|lia|done]|].
  set (e := us_ring _ !!! _). case_match eqn:Hbad; [eexists _, _, _; split_and!; [done..|lia|done]|].
  apply orb_false_iff in Hbad as [Hs Ht]. apply Z.leb_gt in Hs. apply Z.ltb_ge in Ht.
  case_match eqn:Hm; [eexists _, _, _; split_and!; [done..|lia|done]|]. apply Z.ltb_ge in Hm.
  unfold VIRTIO_NET_QUEUE_SIZE, VirtioNetHdr_size in *.
  pose proof (is_u16_u16 (ue_id e)) as Hu.
  set (b := rx_buffers h !!! _).
  assert (wf_bytes (b_data b) ∧ k_virtio_buffer_size <= Z.of_nat (length (b_data b))) as [Hwf Hb].
  { eapply (Forall_lookup_1 _ _ _ _ Hall). apply list_lookup_lookup_total_lt. word_lia. }
  unfold k_virtio_buffer_size, VIRTIO_NET_MAX_FRAME_SIZE, VirtioNetHdr_size in Hb.
  rewrite copy_bytes_ok by lia. cbn [mbind option_bind]. rewrite take_0, app_nil_l.
  eexists _, _, _. split; [reflexivity|]. split_and!.
  - apply wf_bytes_app. auto with words.
  - rewrite length_app, length_take, !length_drop. lia.
  - lia.
  - unfold notify_queue. by case_match.
Qed.

#[export] Instance live_nic : NicSpec live_ok.
Proof.
  constructor.
  - by intros c n.
  - intros data len n Hn Hd. pose proof Hn as (Hb & (W & T & P & Hok) & Hl & Hall).
    unfold net_send_raw.
    destruct (legal_frame_Some data len) as [(d & -> & Hlen & _ & Hg)|(_ & Hbad)].
    2: { destruct Hd as [H0 _]. destruct data as [d|]; [|by eexists _, n].
         destruct (Hbad H0) as [?| ->]; [done|]. by eexists _, n. }
    rewrite Hg. case_match; [by eexists _, n|].
    rewrite decide_True by done.
    destruct (virtio_send_ok _ _ _ _ d len Hok Hlen (proj2 Hd d eq_refl)) as (h' & H1).
    assert (∃ b W' T' P', virtio_send_raw_locked d len (g_hw n) = Some (b, h') ∧ tx_ok h' W' T' P')
      as (b & W' & T' & P' & Hs & Hok').
    { destruct H1 as [(? & _ & ? & _)|(slot & ? & _ & _ & _ & ? & _)]; eauto 10. }
    rewrite Hs. cbn [mbind option_bind]. eexists _, _. split; [done|].
    destruct (virtio_send_rx _ _ _ _ _ Hs) as [Hrb _].
    assert (live_ok (n .[ g_hw := h' ])) as Hlive.
    { split_and!; [done|by exists W', T', P'|by simpl; rewrite Hrb..]. }
    by destruct b.
  - intros out n Hn Ho Hlen. pose proof Hn as (Hb & (W & T & P & Hok) & Hl & Hall).
    unfold net_recv_raw.
    change (2048 =? 0) with false. cbv iota.
    case_match; [eexists _, _, n; split; [done|]; by split_and!|].
    rewrite decide_True by done.
    destruct (virtio_recv_ok out (g_hw n) Hl Hall Ho Hlen) as (r & out' & h' & Hr & Hw' & Hl' & Hr2 & Hrb).
    destruct (virtio_recv_raw_tx _ _ _ _ _ _ Hr) as [Hq Htb].
    rewrite Hr. cbn [mbind option_bind]. eexists _, _, _. split; [done|].
    assert (live_ok (n .[ g_hw := h' ])) as Hlive.
    { split_and!; [done|exists W, T, P; by eapply tx_ok_frame|by simpl; rewrite Hrb..]. }
    split_and!; try done. by case_match.
Qed.

(** ** Well-formed kernel states *)

(** The shape of the ARP cache that its memory safety needs, whatever the clock. *)
Definition arp_shape (c : ArpCache) : Prop :=
  Forall (λ e, wf_addr 4 (ip e) ∧ wf_addr 6 (mac e)) (g_arp_cache c).

Lemma wf_cache_shape c : wf_cache c → arp_shape c.
Proof.
  intros H. pose proof (wf_entries c H) as He. eapply Forall_impl; [exact He|].
  intros e []. by repeat split.
Qed.

Lemma arp_shape_at c i :
  arp_shape c → wf_addr 4 (ip (g_arp_cache c !!! i)) ∧ wf_addr 6 (mac (g_arp_cache c !!! i)).
Proof.
  intros H. rewrite list_lookup_total_alt. destruct (g_arp_cache c !! i) as [e|] eqn:He; simpl.
  - eapply (Forall_lookup_1 _ _ _ _ H He).
  - split; (split; [done|]); repeat constructor; lia.
Qed.

Lemma arp_insert_shape c key hw :
  arp_shape c → wf_addr 4 key → wf_addr 6 hw →
  ∃ c', arp_cache_insert (Some key) (Some hw) c = Some c' ∧ arp_shape c'.
Proof.
  intros H [Hk Hkw] [Hh Hhw]. unfold arp_cache_insert. cbv zeta.
  set (slot := if 0 <=? _ then _ else _).
  destruct (arp_shape_at c slot H) as [[Hi _] [Hm _]].
  rewrite !copy_bytes_ok by lia. cbn [mbind option_bind]. eexists. split; [reflexivity|].
  apply Forall_insert; [done|]. simpl.
  rewrite !drop_0, !drop_ge, !app_nil_r, !take_ge by lia. done.
Qed.

Lemma arp_lookup_shape c key out :
  arp_shape c → wf_addr 6 out →
  ∃ b out' c', arp_cache_lookup (Some key) (Some out) c = Some (b, Some out', c') ∧
    arp_shape c' ∧ wf_addr 6 out'.
Proof.
  intros H [Ho How]. unfold arp_cache_lookup. case_match; [by eexists _, _, c|].
  set (i := Z.to_nat _). destruct (arp_shape_at c i H) as [Hi Hm].
  rewrite copy_bytes_ok by (destruct Hm; lia). cbn [mbind option_bind]. eexists _, _, _.
  split; [reflexivity|]. split; [by apply Forall_insert|]. destruct Hm as [Hm Hmw].
  rewrite drop_0, take_0, drop_ge, app_nil_r, take_ge by lia. done.
Qed.

Record wf_kernel {H A : Type} (ok : RawNic → Prop) (k : Kernel H A) : Prop := {
  wk_nic : ok (k_nic k);
  wk_arp : arp_shape (k_arp k);
  wk_mac : wf_addr 6 (g_my_mac k);
  wk_ip : wf_addr 4 (g_my_ip k);
  wk_udp : length (g_udp_handlers k) = QSIZE
}.

Section net_send_lemmas.
Context {H A : Type} (ok : RawNic → Prop) `{!NicSpec ok}.
Implicit Types k : Kernel H A.

Lemma count_wf c k : wf_kernel ok k → wf_kernel ok (count c k).
Proof using All. intros []. constructor; try done. simpl. by apply nic_count_ok. Qed.

Lemma send_raw_wf data len k :
  wf_kernel ok k → holds data len →
  ∃ b k', send_raw data len k = Some (b, k') ∧ wf_kernel ok k'.
Proof using All.
  intros Hk Hd. destruct (nic_send_ok data len (k_nic k) (wk_nic _ _ Hk) Hd) as (b & n' & Hs & Hn).
  unfold send_raw. rewrite Hs. eexists _, _. split; [reflexivity|]. by destruct Hk.
Qed.

(** The bytes of an ARP request. *)
Definition arp_request_bytes (my_mac my_ip target : bytes) : bytes :=
  to_bytes (mkEth broadcast_mac my_mac (bswap16 ETH_TYPE_ARP)) ++
  to_bytes (mkArp (bswap16 ARP_HTYPE_ETHERNET) (bswap16 ARP_PTYPE_IPV4) 6 4 (bswap16 ARP_OP_REQUEST)
    my_mac my_ip (replicate 6 0) target).

Lemma arp_packet_wf oper sha spa tha tpa :
  wf_addr 6 sha → wf_addr 4 spa → wf_addr 6 tha → wf_addr 4 tpa →
  packed_wf (mkArp (bswap16 ARP_HTYPE_ETHERNET) (bswap16 ARP_PTYPE_IPV4) 6 4 (bswap16 oper)
    sha spa tha tpa).
Proof. intros [] [] [] []. simpl. split_and!; auto with words; word_lia. Qed.

Lemma zero_mac_wf : wf_addr 6 (replicate 6 0).
Proof. split; [done|apply wf_bytes_zeros]. Qed.
Lemma broadcast_wf : wf_addr 6 broadcast_mac.
Proof. split; [done|]. apply Forall_replicate. word_lia. Qed.

Lemma net_send_arp_request_eq k target :
  wf_kernel ok k → wf_addr 4 target →
  net_send_arp_request (Some target) k =
    '(b, k) ← send_raw (Some (arp_request_bytes (g_my_mac k) (g_my_ip k) target)) 42 k;
    Some (b, if b : bool then count ArpTx k else k).
Proof using All.
  intros [_ _ Hm Hi _] Ht. unfold net_send_arp_request.
  rewrite !load_whole by (apply Hm || apply Hi || apply Ht). cbn [mbind option_bind].
  rewrite arp_frame_ok.
  - cbn [mbind option_bind]. fold (arp_request_bytes (g_my_mac k) (g_my_ip k) target).
    replace (Z.of_nat (length (arp_request_bytes _ _ _))) with 42; [done|].
    unfold arp_request_bytes. rewrite length_app, !to_bytes_length; [done|..].
    + apply arp_packet_wf; auto using zero_mac_wf.
    + apply eth_wf; auto using broadcast_wf.
  - apply eth_wf; auto using broadcast_wf.
  - apply arp_packet_wf; auto using zero_mac_wf.
Qed.

Lemma arp_request_length my_mac my_ip target :
  wf_addr 6 my_mac → wf_addr 4 my_ip → wf_addr 4 target →
  length (arp_request_bytes my_mac my_ip target) = 42%nat.
Proof.
  intros. unfold arp_request_bytes. rewrite length_app, !to_bytes_length; [done|..].
  - apply arp_packet_wf; auto using zero_mac_wf.
  - apply eth_wf; auto using broadcast_wf.
Qed.

Lemma holds_exact (d : bytes) len : Z.of_nat (length d) = len → holds (Some d) len.
Proof. intros <-. split; [lia|]. intros ? [= <-]. lia. Qed.

Lemma net_send_arp_request_wf k target :
  wf_kernel ok k → wf_addr 4 target →
  ∃ b k', net_send_arp_request (Some target) k = Some (b, k') ∧ wf_kernel ok k'.
Proof using All.
  intros Hk Ht. rewrite net_send_arp_request_eq by done.
  destruct (send_raw_wf (Some (arp_request_bytes (g_my_mac k) (g_my_ip k) target)) 42 k Hk)
    as (b & k' & -> & Hk').
  { apply holds_exact. by rewrite arp_request_length by (done || apply Hk). }
  eexists _, _. split; [reflexivity|]. destruct b; [by apply count_wf|done].
Qed.

(** ** [net_send_ipv4] on every branch *)

Lemma net_send_ipv4_reject dst proto payload len k :
  0 <= len < 18446744073709551616 →
  dst = None ∨ (payload = None ∧ len ≠ 0) ∨ 2014 < len →
  net_send_ipv4 dst proto payload len k = Some (false, k).
Proof.
  intros Hl Hbad. unfold net_send_ipv4. destruct dst as [dst|]; [|done]. cbv zeta.
  destruct Hbad as [?|[[-> Hn]|Hbig]]; [done|by rewrite (proj2 (Z.eqb_neq _ _))|].
  case_match; [done|].
  assert ((VIRTIO_NET_MAX_FRAME_SIZE <? len) || (VIRTIO_NET_MAX_FRAME_SIZE <? u64 (14 + u64 (20 + len)))
          || (65535 <? u64 (20 + len)) = true) as ->; [|done].
  unfold VIRTIO_NET_MAX_FRAME_SIZE. destruct (Z.ltb_spec 2048 len); [done|].
  rewrite (proj2 (Z.ltb_lt 2048 (u64 _))); [done|]. word_lia.
Qed.

Lemma send_guard len :
  0 <= len <= 2014 →
  (VIRTIO_NET_MAX_FRAME_SIZE <? len) || (VIRTIO_NET_MAX_FRAME_SIZE <? u64 (14 + u64 (20 + len)))
    || (65535 <? u64 (20 + len)) = false ∧ u64 (14 + u64 (20 + len)) = 34 + len.
Proof.
  intros Hl. unfold VIRTIO_NET_MAX_FRAME_SIZE. rewrite !orb_false_iff, !Z.ltb_ge.
  split_and!; word_lia.
Qed.

Lemma net_send_ipv4_miss dst proto payload len k arp' out :
  0 <= len <= 2014 → (payload = None → len = 0) →
  arp_cache_lookup (Some dst) (Some (replicate 6 0)) (k_arp k) = Some (false, out, arp') →
  net_send_ipv4 (Some dst) proto payload len k =
    '(_, k) ← net_send_arp_request (Some dst) (k .[ k_arp := arp' ]); Some (false, k).
Proof.
  intros Hl Hn Hm. unfold net_send_ipv4. cbv zeta.
  assert ((if payload is None then negb (len =? 0) else false) = false) as ->.
  { destruct payload; [done|]. by rewrite (Hn eq_refl). }
  destruct (send_guard len Hl) as [-> _]. by rewrite Hm.
Qed.

(** The frame on the wire: Ethernet and IPv4 headers, then the payload. *)
Definition ipv4_packet (dst_mac my_mac my_ip dst : bytes) (proto : Z) (payload : bytes) : bytes :=
  to_bytes (mkEth dst_mac my_mac (bswap16 ETH_TYPE_IPV4)) ++
  to_bytes (out_ipv4 my_ip dst proto (Z.of_nat (length payload))) ++ payload.

Lemma ipv4_packet_length dst_mac my_mac my_ip dst proto payload :
  wf_addr 6 dst_mac → wf_addr 6 my_mac → wf_addr 4 my_ip → wf_addr 4 dst → is_u8 proto →
  length (ipv4_packet dst_mac my_mac my_ip dst proto payload) = (34 + length payload)%nat.
Proof.
  intros. unfold ipv4_packet. rewrite !length_app, !to_bytes_length; [done|..].
  - by apply out_ipv4_wf.
  - by apply eth_wf.
Qed.

Lemma net_send_ipv4_hit dst proto payload k arp' mac :
  wf_kernel ok k → wf_addr 4 dst → is_u8 proto → Z.of_nat (length payload) <= 2014 →
  arp_cache_lookup (Some dst) (Some (replicate 6 0)) (k_arp k) = Some (true, Some mac, arp') →
  wf_addr 6 mac →
  ∃ pad, net_send_ipv4 (Some dst) proto (Some payload) (Z.of_nat (length payload)) k =
    '(b, k) ← send_raw (Some (ipv4_packet mac (g_my_mac k) (g_my_ip k) dst proto payload ++ pad))
                (34 + Z.of_nat (length payload)) (k .[ k_arp := arp' ]);
    Some (b, if b : bool then count Ipv4Tx k else k).
Proof using All.
  intros [_ _ Hm Hi _] Hd Hp Hl Hhit Hmac.
  exists (replicate (Z.to_nat (2014 - Z.of_nat (length payload))) 0).
  unfold net_send_ipv4. cbv zeta iota beta.
  destruct (send_guard (Z.of_nat (length payload)) ltac:(lia)) as [-> ->].
  rewrite Hhit. cbn [mbind option_bind negb]. simpl g_my_mac. simpl g_my_ip.
  rewrite !load_whole by (apply Hm || apply Hi || apply Hd). cbn [mbind option_bind default].
  rewrite ipv4_frame_ok by (done || lia). cbn [mbind option_bind].
  rewrite Nat2Z.id, (take_ge payload) by lia.
  unfold ipv4_packet. by rewrite <- !app_assoc.
Qed.

(** Only the first [len] bytes of the payload matter. *)
Lemma net_send_ipv4_trunc dst proto payload len k :
  wf_kernel ok k → wf_addr 4 dst → is_u8 proto → 0 <= len <= 2014 →
  len <= Z.of_nat (length payload) →
  net_send_ipv4 (Some dst) proto (Some payload) len k =
    net_send_ipv4 (Some dst) proto (Some (take (Z.to_nat len) payload)) len k.
Proof using All.
  intros Hk Hd Hp Hl Hh. unfold net_send_ipv4. cbv zeta iota beta.
  destruct (arp_lookup_shape (k_arp k) dst (replicate 6 0) (wk_arp _ _ Hk) zero_mac_wf)
    as (hit & mac & arp' & -> & _ & Hmac).
  destruct (send_guard len Hl) as [-> ->]. cbn [mbind option_bind default].
  destruct hit; [|done]. cbn [negb].
  destruct Hk as [_ _ Hm Hi _]. simpl g_my_mac. simpl g_my_ip.
  rewrite !load_whole by (apply Hm || apply Hi || apply Hd). cbn [mbind option_bind].
  change (id ?x) with x.
  assert (len <= Z.of_nat (length (take (Z.to_nat len) payload))) by (rewrite length_take; lia).
  rewrite !ipv4_frame_ok by (done || lia). by rewrite take_take, Nat.min_id.
Qed.

Lemma net_send_ipv4_wf k dst proto payload len :
  wf_kernel ok k → wf_addr 4 dst → is_u8 proto → holds (Some payload) len →
  len < 18446744073709551616 →
  ∃ b k', net_send_ipv4 (Some dst) proto (Some payload) len k = Some (b, k') ∧ wf_kernel ok k'.
Proof using All.
  intros Hk Hd Hp [H0 Hh] H64. specialize (Hh payload eq_refl).
  destruct (decide (2014 < len)) as [Hbig|Hsm].
  { eexists _, k. split; [|done]. apply net_send_ipv4_reject; [lia|auto]. }
  destruct (arp_lookup_shape (k_arp k) dst (replicate 6 0) (wk_arp _ _ Hk) zero_mac_wf)
    as (hit & mac & arp' & Hl & Hshape & Hmac).
  assert (wf_kernel ok (k .[ k_arp := arp' ])) as Hk' by by destruct Hk.
  destruct hit.
  - set (pl := take (Z.to_nat len) payload).
    assert (Z.of_nat (length pl) = len) as Hpl by (subst pl; rewrite length_take; lia).
    assert (net_send_ipv4 (Some dst) proto (Some payload) len k =
            net_send_ipv4 (Some dst) proto (Some pl) (Z.of_nat (length pl)) k) as ->.
    { rewrite Hpl. apply net_send_ipv4_trunc; done || lia. }
    destruct (net_send_ipv4_hit dst proto pl k arp' mac Hk Hd Hp ltac:(lia) Hl Hmac) as (pad & ->).
    destruct (send_raw_wf (Some (ipv4_packet mac (g_my_mac k) (g_my_ip k) dst proto pl ++ pad))
      (34 + Z.of_nat (length pl)) _ Hk') as (b & k' & -> & Hk2).
    { split; [lia|]. intros ? [= <-].
      rewrite length_app, ipv4_packet_length by (done || apply Hk). lia. }
    eexists _, _. split; [reflexivity|]. destruct b; [by apply count_wf|done].
  - rewrite (net_send_ipv4_miss dst proto (Some payload) len k arp' (Some mac)); [|lia|done|done].
    destruct (net_send_arp_request_wf _ dst Hk' Hd) as (b & k' & -> & Hk2).
    eexists _, _. by split.
Qed.
End net_send_lemmas.

(** ** On the fake backend, what is sent can be seen *)

Section fake_sends.
Context {H A : Type}.
Implicit Types k : Kernel H A.

(** The state [k] with the NIC replaced, after a frame [f] went out and the
    counters [cs] were incremented. *)
Definition emitted (f : bytes) (cs : list NetStatCounter) (a : FakeNet) (n n' : RawNic) : Prop :=
  fake_represents n' (mkFakeNet (fake_inbox a) (Some f)) ∧ g_hw n' = g_hw n ∧
  g_stats n' = increments cs (g_stats n).

Lemma send_raw_fake k a d len :
  fake_represents (k_nic k) a → 1 <= len <= VIRTIO_NET_MAX_FRAME_SIZE → len <= Z.of_nat (length d) →
  ∃ n', send_raw (Some d) len k = Some (true, k .[ k_nic := n' ]) ∧
    emitted (take (Z.to_nat len) d) [RawTx] a (k_nic k) n'.
Proof.
  intros Ha Hl Hd. destruct (fake_send_ok (k_nic k) a (Some d) len Ha) as (n' & Hs & Hr & Hh & Hst).
  { split; [lia|]. by intros ? [= <-]. }
  unfold spec_send, legal_frame in *.
  rewrite (proj2 (Z.leb_le 1 len)), (proj2 (Z.leb_le len _)) in * by lia. cbn [andb fst snd] in *.
  unfold send_raw. rewrite Hs. exists n'. by split.
Qed.

Lemma emitted_count f cs c a n n' :
  emitted f cs a n n' → emitted f (cs ++ [c]) a n (count_raw c n').
Proof.
  intros (Hr & Hh & Hs). split_and!; [by apply fake_count|done|].
  simpl. rewrite Hs. unfold increments. by rewrite foldl_app.
Qed.

Lemma arp_request_fake k a target :
  wf_kernel fake_ok k → fake_represents (k_nic k) a → wf_addr 4 target →
  ∃ n', net_send_arp_request (Some target) k = Some (true, k .[ k_nic := n' ]) ∧
    emitted (arp_request_bytes (g_my_mac k) (g_my_ip k) target) [RawTx; ArpTx] a (k_nic k) n'.
Proof.
  intros Hk Ha Ht. rewrite (net_send_arp_request_eq fake_ok) by done.
  assert (length (arp_request_bytes (g_my_mac k) (g_my_ip k) target) = 42%nat) as Hl
    by (apply arp_request_length; done || apply Hk).
  destruct (send_raw_fake k a (arp_request_bytes (g_my_mac k) (g_my_ip k) target) 42 Ha)
    as (n' & -> & He); [unfold VIRTIO_NET_MAX_FRAME_SIZE; lia|lia|].
  cbn [mbind option_bind]. eexists. split; [reflexivity|].
  rewrite take_ge in He by lia. exact (emitted_count _ _ _ _ _ _ He).
Qed.

Lemma net_send_ipv4_fake k a dst proto payload arp' mac :
  wf_kernel fake_ok k → fake_represents (k_nic k) a →
  wf_addr 4 dst → is_u8 proto → Z.of_nat (length payload) <= 2014 →
  arp_cache_lookup (Some dst) (Some (replicate 6 0)) (k_arp k) = Some (true, Some mac, arp') →
  wf_addr 6 mac →
  ∃ n', net_send_ipv4 (Some dst) proto (Some payload) (Z.of_nat (length payload)) k =
      Some (true, k .[ k_arp := arp' ] .[ k_nic := n' ]) ∧
    emitted (ipv4_packet mac (g_my_mac k) (g_my_ip k) dst proto payload) [RawTx; Ipv4Tx]
      a (k_nic k) n'.
Proof.
  intros Hk Ha Hd Hp Hl Hhit Hmac.
  destruct (net_send_ipv4_hit fake_ok dst proto payload k arp' mac Hk Hd Hp Hl Hhit Hmac) as (pad & ->).
  pose proof (ipv4_packet_length mac (g_my_mac k) (g_my_ip k) dst proto payload Hmac (wk_mac _ _ Hk)
    (wk_ip _ _ Hk) Hd Hp) as Hlen.
  destruct (send_raw_fake (k .[ k_arp := arp' ]) a
    (ipv4_packet mac (g_my_mac k) (g_my_ip k) dst proto payload ++ pad) (34 + Z.of_nat (length payload)))
    as (n' & -> & He); [done|unfold VIRTIO_NET_MAX_FRAME_SIZE; lia|rewrite length_app; lia|].
  cbn [mbind option_bind]. eexists. split; [reflexivity|].
  rewrite take_app_length' in He by lia. exact (emitted_count _ _ _ _ _ _ He).
Qed.
End fake_sends.
