(* ===== verification/Udp.v ===== *)
(** * UDP (kernel/udp.h, kernel/udp.cc)

    The port table [g_udp_handlers], datagram validation and dispatch, and
    [udp_send_to].  Handlers are function pointers into application code: the
    interface [UdpCallbacks] says what calling one does to the kernel state, and
    [UdpCallbacksOk] what the network code needs of it. *)

From S2P Require Import Prelude NetStats ArpCache VirtioHw VirtioNet Wire NetSend.

Definition UDP_HANDLER_CAPACITY : Z := 8.

(** Calling a handler with a source address, a source port and a payload. *)
Class UdpCallbacks (H A : Type) :=
  udp_call : H → bytes → Z → bytes → Kernel H A → option (Kernel H A).

(** ** The port table *)

Section table.
Context {H : Type}.
Implicit Types es : list (UdpHandlerEntry H).

Definition entry_zero : UdpHandlerEntry H := mkHandlerEntry false 0 None.
#[local] Instance entry_inhabited : Inhabited (UdpHandlerEntry H) := populate entry_zero.

Definition serves (port : Z) (e : UdpHandlerEntry H) : bool := uh_valid e && (uh_port e =? port).

(** The first index from [i] on whose entry satisfies [f]. *)
Fixpoint find_index (f : UdpHandlerEntry H → bool) (es : list (UdpHandlerEntry H)) (i : nat) : option nat :=
  match es with
  | [] => None
  | e :: es' => if f e then Some i else find_index f es' (S i)
  end.

Definition udp_register_handler (port : Z) (handler : option H) es
    : bool * list (UdpHandlerEntry H) :=
  match handler with
  | None => (false, es)
  | Some _ =>
      if port =? 0 then (false, es)
      else match find_index (serves port) es 0 with
           | Some i => (true, <[i := (es !!! i) .[ uh_handler := handler ]]> es)
           | None =>
               match find_index (λ e, negb (uh_valid e)) es 0 with
               | Some i => (true, <[i := mkHandlerEntry true port handler]> es)
               | None => (false, es)
               end
           end
  end.

Definition udp_clear_handlers : list (UdpHandlerEntry H) :=
  replicate (Z.to_nat UDP_HANDLER_CAPACITY) entry_zero.

(** The lookup loop of [udp_handle_packet]. *)
Definition udp_lookup es (port : Z) : option H :=
  i ← find_index (serves port) es 0; e ← es !! i; uh_handler e.

(** ** The table is a map from ports to handlers, of at most eight ports *)

Record wf_table es : Prop := {
  wt_length : length es = QSIZE;
  wt_handlers : Forall (λ e, uh_valid e = true → uh_port e ≠ 0 ∧ is_Some (uh_handler e)) es;
  wt_ports : NoDup (uh_port <$> filter (λ e, uh_valid e = true) es)
}.

Lemma find_index_spec f es i :
  match find_index f es i with
  | Some j => ∃ n e, j = (i + n)%nat ∧ es !! n = Some e ∧ f e = true ∧
                Forall (λ e, f e = false) (take n es)
  | None => Forall (λ e, f e = false) es
  end.
Proof.
  revert i. induction es as [|e es IH]; intros i; simpl; [constructor|].
  destruct (f e) eqn:Hf.
  - exists 0%nat, e. split_and!; [lia|done|done|constructor].
  - specialize (IH (S i)). destruct (find_index f es (S i)) as [j|].
    + destruct IH as (n & e' & -> & He & Hfe & Hall). exists (S n), e'.
      split_and!; [lia|done|done|]. by constructor.
    + by constructor.
Qed.

(** Validity and ports are what the invariant sees. *)
Lemma valid_ports_split es n e :
  es !! n = Some e →
  filter (λ e, uh_valid e = true) es =
    filter (λ e, uh_valid e = true) (take n es) ++
    (if uh_valid e then [e] else []) ++ filter (λ e, uh_valid e = true) (drop (S n) es).
Proof.
  intros He. rewrite <- (take_drop_middle es n e He) at 1. rewrite filter_app. f_equal.
  rewrite filter_cons. destruct (uh_valid e); case_decide; done.
Qed.

Lemma valid_ports_insert es n e e' :
  es !! n = Some e →
  filter (λ e, uh_valid e = true) (<[n := e']> es) =
    filter (λ e, uh_valid e = true) (take n es) ++
    (if uh_valid e' then [e'] else []) ++ filter (λ e, uh_valid e = true) (drop (S n) es).
Proof.
  intros He. pose proof (lookup_lt_Some _ _ _ He).
  rewrite (valid_ports_split _ n e') by (by apply list_lookup_insert_eq).
  by rewrite take_insert_ge, drop_insert_lt by lia.
Qed.

Lemma serves_absent port es :
  Forall (λ e, serves port e = false) es → port ∉ uh_port <$> filter (λ e, uh_valid e = true) es.
Proof.
  intros Hall (e & -> & [Hv He]%list_elem_of_filter)%list_elem_of_fmap.
  rewrite Forall_forall in Hall. specialize (Hall e He).
  unfold serves in Hall. by rewrite Hv, Z.eqb_refl in Hall.
Qed.

Lemma filter_valid_elem e es : e ∈ es → uh_valid e = true → e ∈ filter (λ e, uh_valid e = true) es.
Proof. intros. by apply list_elem_of_filter. Qed.

(** With distinct ports, the first entry that serves a port is the only one. *)
Lemma ports_unique es e1 e2 :
  wf_table es → e1 ∈ es → e2 ∈ es → uh_valid e1 = true → uh_valid e2 = true →
  uh_port e1 = uh_port e2 → e1 = e2.
Proof.
  intros [_ _ Hp] H1 H2 Hv1 Hv2 He.
  apply (filter_valid_elem _ _ H1) in Hv1. apply (filter_valid_elem _ _ H2) in Hv2.
  apply list_elem_of_lookup_1 in Hv1 as [i Hi], Hv2 as [j Hj].
  assert (i = j) as ->; [|congruence].
  eapply NoDup_lookup; [exact Hp|..]; rewrite list_lookup_fmap; [by rewrite Hi|by rewrite Hj, He].
Qed.

Lemma udp_lookup_iff es port h :
  wf_table es →
  udp_lookup es port = Some h ↔
  ∃ e, e ∈ es ∧ uh_valid e = true ∧ uh_port e = port ∧ uh_handler e = Some h.
Proof.
  intros Hwf. unfold udp_lookup. pose proof (find_index_spec (serves port) es 0) as Hf.
  destruct (find_index (serves port) es 0) as [j|]; cbn [mbind option_bind].
  - destruct Hf as (n & e & -> & He & Hs & _). cbn [Nat.add]. rewrite He. cbn [mbind option_bind].
    apply andb_true_iff in Hs as [Hv Hport%Z.eqb_eq].
    pose proof (list_elem_of_lookup_2 _ _ _ He) as Hin. split; [by exists e|].
    intros (e' & Hin' & Hv' & Hport' & <-). f_equal. eapply ports_unique; try done. congruence.
  - split; [done|]. intros (e & He & Hv & <- & _). rewrite Forall_forall in Hf.
    specialize (Hf e He). unfold serves in Hf. by rewrite Hv, Z.eqb_refl in Hf.
Qed.

(** Replacing entry [n] by a live entry for [port]. *)
Lemma table_put es n e port h :
  wf_table es → es !! n = Some e → port ≠ 0 →
  (uh_valid e = true → uh_port e = port) →
  (uh_valid e = false → port ∉ uh_port <$> filter (λ e, uh_valid e = true) es) →
  wf_table (<[n := mkHandlerEntry true port (Some h)]> es) ∧
  ∀ p, udp_lookup (<[n := mkHandlerEntry true port (Some h)]> es) p =
    if decide (p = port) then Some h else udp_lookup es p.
Proof.
  intros Hwf He H0 Hv Hnv. pose proof Hwf as [Hl Hh Hp]. set (e' := mkHandlerEntry _ _ _).
  pose proof (lookup_lt_Some _ _ _ He) as Hlt.
  set (l1 := filter (λ e, uh_valid e = true) (take n es)).
  set (l2 := filter (λ e, uh_valid e = true) (drop (S n) es)).
  assert (NoDup (uh_port <$> (l1 ++ [e'] ++ l2))) as Hnd.
  { rewrite (valid_ports_split es n e He) in Hp, Hnv. fold l1 l2 in Hp, Hnv.
    rewrite !fmap_app in Hp, Hnv |- *. destruct (uh_valid e).
    - cbn [fmap list_fmap] in *. by rewrite (Hv eq_refl) in Hp.
    - specialize (Hnv eq_refl). cbn [fmap list_fmap app] in *.
      rewrite elem_of_app in Hnv. apply NoDup_app in Hp as (? & Hd & ?). apply NoDup_app.
      split_and!; [done| |apply NoDup_cons; split; [|done]]; [|naive_solver].
      intros x Hx [->|Hx2]%elem_of_cons; [|by eapply Hd]. simpl in Hx. naive_solver. }
  assert (wf_table (<[n := e']> es)) as Hwf'.
  { constructor; [by rewrite length_insert| |].
    - apply Forall_insert; [done|]. intros _. split; [done|by eexists].
    - by rewrite (valid_ports_insert es n e e' He). }
  split; [done|]. intros p. apply option_eq. intros x.
  rewrite (udp_lookup_iff _ _ _ Hwf').
  assert (∀ e0, e0 ∈ <[n := e']> es → e0 = e' ∨ ∃ m, m ≠ n ∧ es !! m = Some e0) as Hin1.
  { intros e0 Hin. apply list_elem_of_lookup_1 in Hin as [m Hm].
    destruct (decide (m = n)) as [->|Hmn].
    - rewrite list_lookup_insert_eq in Hm by done. left. congruence.
    - rewrite list_lookup_insert_ne in Hm by done. eauto. }
  assert (e' ∈ <[n := e']> es) as Hin2 by (eapply list_elem_of_lookup_2; by apply list_lookup_insert_eq).
  case_decide as Hpp.
  - subst p. split.
    + intros (e0 & Hin & Hv0 & Hp0 & Hh0).
      assert (e0 = e') as -> by by eapply ports_unique. done.
    + intros [= <-]. by exists e'.
  - rewrite (udp_lookup_iff _ _ _ Hwf). split.
    + intros (e0 & [->|(m & Hmn & Hm)]%Hin1 & Hv0 & Hp0 & Hh0); [by subst p|].
      exists e0. split_and!; try done. by eapply list_elem_of_lookup_2.
    + intros (e0 & Hin & Hv0 & Hp0 & Hh0). exists e0. split_and!; try done.
      apply list_elem_of_lookup_1 in Hin as [m Hm]. eapply (list_elem_of_lookup_2 _ m).
      rewrite list_lookup_insert_ne; [done|]. intros ->. rewrite He in Hm. injection Hm as ->.
      by rewrite (Hv Hv0) in Hp0.
Qed.

Lemma udp_register_ok port handler es :
  wf_table es →
  let '(b, es') := udp_register_handler port handler es in
  wf_table es' ∧
  (b = true → port ≠ 0 ∧ is_Some handler ∧
     ∀ p, udp_lookup es' p = if decide (p = port) then handler else udp_lookup es p) ∧
  (b = false → es' = es ∧
     (handler = None ∨ port = 0 ∨
      udp_lookup es port = None ∧ Forall (λ e, uh_valid e = true) es)).
Proof.
  intros Hwf. unfold udp_register_handler. destruct handler as [h|]; [|split_and!; [done|done|auto]].
  destruct (Z.eqb_spec port 0) as [|Hp0]; [split_and!; [done|done|auto]|].
  pose proof (find_index_spec (serves port) es 0) as H1.
  destruct (find_index (serves port) es 0) as [j|] eqn:Hf.
  - destruct H1 as (n & e & -> & He & Hs & _). cbn [Nat.add].
    apply andb_true_iff in Hs as [Hv Hport%Z.eqb_eq].
    rewrite (list_lookup_total_correct _ _ _ He).
    replace (e .[ uh_handler := Some h ]) with (mkHandlerEntry true port (Some h))
      by (cbv [set_field]; simpl; congruence).
    destruct (table_put es n e port h Hwf He Hp0) as [Hwf' Hl]; [done|congruence|].
    split_and!; [done| |done]. intros _. split_and!; [done|by eexists|done].
  - pose proof (find_index_spec (λ e, negb (uh_valid e)) es 0) as H2.
    destruct (find_index (λ e, negb (uh_valid e)) es 0) as [j|].
    + destruct H2 as (n & e & -> & He & Hv%negb_true_iff & _). cbn [Nat.add].
      destruct (table_put es n e port h Hwf He Hp0) as [Hwf' Hl].
      { intros; congruence. }
      { intros _. by apply serves_absent. }
      split_and!; [done| |done]. intros _. split_and!; [done|by eexists|done].
    + split_and!; [done|done|]. intros _. split; [done|]. right. right.
      split; [unfold udp_lookup; by rewrite Hf|]. eapply Forall_impl; [exact H2|]. intros e. simpl. by destruct (uh_valid e).
Qed.

Lemma udp_clear_ok :
  wf_table udp_clear_handlers ∧ ∀ p, udp_lookup udp_clear_handlers p = None.
Proof. split; [|done]. constructor; [done|by repeat constructor|constructor]. Qed.
End table.

(** ** Datagrams *)

Section udp.
Context {H A : Type} `{!UdpCallbacks H A}.
Implicit Types k : Kernel H A.

Definition udp_register (port : Z) (handler : option H) k : bool * Kernel H A :=
  let '(b, es) := udp_register_handler port handler (g_udp_handlers k) in
  (b, k .[ g_udp_handlers := es ]).

Definition udp_handle_packet (src_ip data : option bytes) (len : Z) k : option (bool * Kernel H A) :=
  match src_ip, data with
  | Some src_ip, Some data =>
      if len <? 8 then Some (false, count DroppedShort k)
      else
        udp ← struct_at UdpHeader data 0;
        let src_port := bswap16 (udp_src_port udp) in
        let dst_port := bswap16 (udp_dst_port udp) in
        let udp_len := bswap16 (udp_length udp) in
        if (udp_len <? 8) || (len <? udp_len) then Some (false, count DroppedShort k)
        else match udp_lookup (g_udp_handlers k) dst_port with
             | None => Some (false, k)
             | Some handler =>
                 src ← load_n src_ip 0 4;
                 payload ← load_n data 8 (Z.to_nat (udp_len - 8));
                 k ← udp_call handler src src_port payload (count UdpRx k);
                 Some (true, k)
             end
  | _, _ => Some (false, count DroppedShort k)
  end.

Definition udp_packet_size : nat := 1480.

(** The datagram [udp_send_to] builds in its 1480-byte buffer. *)
Definition udp_datagram (src_port dst_port : Z) (payload : bytes) (payload_len : Z) : option bytes :=
  p ← struct_put (replicate udp_packet_size 0) 0
        (mkUdp (bswap16 src_port) (bswap16 dst_port) (bswap16 (u16 (8 + payload_len))) 0);
  if payload_len =? 0 then Some p else copy_bytes p 8 payload 0 (Z.to_nat payload_len).

Definition udp_send_to (dst_ip : option bytes) (src_port dst_port : Z) (payload : option bytes)
    (payload_len : Z) k : option (bool * Kernel H A) :=
  match dst_ip with
  | None => Some (false, k)
  | Some _ =>
      if (src_port =? 0) || (dst_port =? 0) ||
         (if payload is None then negb (payload_len =? 0) else false) ||
         (65535 - 8 <? payload_len) then Some (false, k)
      else if 1472 <? payload_len then Some (false, k)
      else
        packet ← udp_datagram src_port dst_port (default [] payload) payload_len;
        '(ok, k) ← net_send_ipv4 dst_ip IPV4_PROTO_UDP (Some packet) (8 + payload_len) k;
        Some (ok, if ok : bool then count UdpTx k else k)
  end.
End udp.

(** What the network code asks of the handlers behind the table. *)
Class UdpCallbacksOk {H A : Type} (ok : RawNic → Prop) `{UdpCallbacks H A} : Prop :=
  udp_call_ok h src port payload k :
    wf_kernel ok k → wf_addr 4 src → is_u16 port → wf_bytes payload →
    ∃ k', udp_call h src port payload k = Some k' ∧ wf_kernel ok k'.

(** ** Building a datagram *)

(** The bytes of a datagram. *)
Definition udp_bytes (src_port dst_port : Z) (payload : bytes) : bytes :=
  to_bytes (mkUdp (bswap16 src_port) (bswap16 dst_port)
    (bswap16 (u16 (8 + Z.of_nat (length payload)))) 0) ++ payload.

Lemma udp_header_wf sp dp n : packed_wf (mkUdp (bswap16 sp) (bswap16 dp) (bswap16 n) 0).
Proof. simpl. split_and!; auto with words. word_lia. Qed.

Lemma udp_bytes_length sp dp payload : length (udp_bytes sp dp payload) = (8 + length payload)%nat.
Proof.
  unfold udp_bytes. rewrite length_app, to_bytes_length; [done|apply udp_header_wf].
Qed.

Lemma udp_datagram_ok sp dp payload len :
  0 <= len <= 1472 → len <= Z.of_nat (length payload) →
  udp_datagram sp dp payload len =
    Some (udp_bytes sp dp (take (Z.to_nat len) payload) ++ replicate (Z.to_nat (1472 - len)) 0).
Proof.
  intros Hl Hp. unfold udp_datagram, udp_packet_size, udp_bytes.
  replace (Z.of_nat (length (take (Z.to_nat len) payload))) with len
    by (rewrite length_take; lia).
  set (hd := mkUdp _ _ _ _). assert (packed_wf hd) as Hwf by apply udp_header_wf.
  pose proof (to_bytes_length hd Hwf) as Hlen. change (packed_size UdpHeader) with 8%nat in Hlen.
  change (replicate 1480 0) with ([] ++ replicate 8 0 ++ replicate 1472 0).
  pose proof (struct_put_app [] (replicate 8 0) hd (replicate 1472 0) Hwf eq_refl) as Hput.
  cbn [length] in Hput. rewrite Hput. cbn [mbind option_bind app].
  destruct (Z.eqb_spec len 0) as [->|]; [by rewrite app_nil_r|].
  replace 1472%nat with (Z.to_nat len + Z.to_nat (1472 - len))%nat by lia.
  rewrite replicate_add, <- Hlen, copy_bytes_app; [by rewrite app_assoc|by rewrite length_replicate|lia].
Qed.

Section udp_lemmas.
Context {H A : Type} (ok : RawNic → Prop) `{!NicSpec ok} `{!UdpCallbacks H A}.
Implicit Types k : Kernel H A.

Lemma udp_send_to_wf k dst sp dp payload len :
  wf_kernel ok k → wf_addr 4 dst → holds (Some payload) len →
  ∃ b k', udp_send_to (Some dst) sp dp (Some payload) len k = Some (b, k') ∧ wf_kernel ok k'.
Proof using NicSpec0.
  intros Hk Hd [H0 Hh]. specialize (Hh payload eq_refl). unfold udp_send_to.
  case_match; [by eexists _, k|].
  destruct (Z.ltb_spec 1472 len); [by eexists _, k|].
  change (default [] (Some payload)) with payload.
  rewrite udp_datagram_ok by lia. cbn [mbind option_bind].
  set (pk := udp_bytes _ _ _ ++ _).
  destruct (net_send_ipv4_wf ok k dst IPV4_PROTO_UDP pk (8 + len)) as (b & k' & Hs & Hk');
    [done|done|done| |lia|].
  - split; [lia|]. intros ? [= <-]. subst pk.
    rewrite length_app, udp_bytes_length, length_take, length_replicate. lia.
  - rewrite Hs. cbn [mbind option_bind]. eexists _, _. split; [reflexivity|].
    destruct b; [by apply count_wf|done].
Qed.

Lemma udp_handle_packet_wf `{!UdpCallbacksOk ok} k src data len :
  wf_kernel ok k → wf_addr 4 src → wf_bytes data → len <= Z.of_nat (length data) →
  ∃ b k', udp_handle_packet (Some src) (Some data) len k = Some (b, k') ∧ wf_kernel ok k'.
Proof using All.
  intros Hk Hs Hd Hl. unfold udp_handle_packet.
  destruct (Z.ltb_spec len 8); [eexists _, _; split; [done|by apply count_wf]|].
  destruct (struct_at_defined (T:=UdpHeader) data 0) as [u Hu]; [simpl; lia|].
  rewrite Hu. cbn [mbind option_bind].
  set (udp_len := bswap16 (udp_length u)). pose proof (bswap16_range (udp_length u)) as Hr.
  fold udp_len in Hr.
  destruct ((udp_len <? 8) || (len <? udp_len)) eqn:Hg;
    [eexists _, _; split; [done|by apply count_wf]|].
  apply orb_false_iff in Hg as [H1%Z.ltb_ge H2%Z.ltb_ge].
  destruct (udp_lookup _ _) as [h|]; [|by eexists _, k].
  rewrite load_whole by apply Hs. rewrite load_n_ok by lia. cbn [mbind option_bind].
  destruct (udp_call_ok h src (bswap16 (udp_src_port u)) (take (Z.to_nat (udp_len - 8)) (drop 8 data))
    (count UdpRx k)) as (k' & -> & Hk'); [by apply count_wf|done|auto with words..|].
  by eexists _, k'.
Qed.

(** A datagram for a registered port reaches its handler with exactly its payload. *)
Lemma udp_handle_packet_dispatch k src sp dp payload h rest :
  wf_addr 4 src → is_u16 sp → is_u16 dp → Z.of_nat (length payload) <= 65527 →
  udp_lookup (g_udp_handlers k) dp = Some h →
  udp_handle_packet (Some src) (Some (udp_bytes sp dp payload ++ rest))
      (8 + Z.of_nat (length payload)) k =
    k ← udp_call h src sp payload (count UdpRx k); Some (true, k).
Proof.
  intros Hs Hsp Hdp Hl Hh. unfold udp_handle_packet.
  rewrite (proj2 (Z.ltb_ge _ 8)) by lia.
  set (hd := mkUdp (bswap16 sp) (bswap16 dp) (bswap16 (u16 (8 + Z.of_nat (length payload)))) 0).
  assert (struct_at UdpHeader (udp_bytes sp dp payload ++ rest) 0 = Some hd) as ->.
  { unfold udp_bytes. rewrite <- app_assoc.
    exact (struct_at_app [] hd (payload ++ rest) (udp_header_wf _ _ _)). }
  cbn [mbind option_bind udp_src_port udp_dst_port udp_length hd].
  rewrite !bswap16_invol by auto with words. rewrite u16_id by word_lia.
  rewrite (proj2 (Z.ltb_ge _ 8)), (proj2 (Z.ltb_ge _ _)) by lia. cbn [orb]. rewrite Hh.
  rewrite load_whole by apply Hs. cbn [mbind option_bind].
  replace (Z.to_nat (8 + Z.of_nat (length payload) - 8)) with (length payload) by lia.
  unfold udp_bytes. fold hd. rewrite <- app_assoc.
  pose proof (load_n_app (to_bytes hd) payload rest) as Hlo.
  rewrite to_bytes_length in Hlo by apply udp_header_wf.
  change (packed_size UdpHeader) with 8%nat in Hlo. by rewrite Hlo.
Qed.
End udp_lemmas.

(** On the fake backend, with the peer in the ARP cache, the datagram goes out. *)
Lemma udp_send_to_fake {H A : Type} `{!UdpCallbacks H A} (k : Kernel H A) a dst sp dp payload len arp' mac :
  wf_kernel fake_ok k → fake_represents (k_nic k) a → wf_addr 4 dst →
  1 <= sp < 65536 → 1 <= dp < 65536 → 0 <= len <= 1472 → len <= Z.of_nat (length payload) →
  arp_cache_lookup (Some dst) (Some (replicate 6 0)) (k_arp k) = Some (true, Some mac, arp') →
  wf_addr 6 mac →
  ∃ n', udp_send_to (Some dst) sp dp (Some payload) len k =
      Some (true, k .[ k_arp := arp' ] .[ k_nic := n' ]) ∧
    emitted (ipv4_packet mac (g_my_mac k) (g_my_ip k) dst IPV4_PROTO_UDP
               (udp_bytes sp dp (take (Z.to_nat len) payload))) [RawTx; Ipv4Tx; UdpTx] a (k_nic k) n'.
Proof.
  intros Hk Ha Hd Hsp Hdp Hl Hp Hhit Hmac. unfold udp_send_to.
  rewrite (proj2 (Z.eqb_neq sp 0)), (proj2 (Z.eqb_neq dp 0)) by lia.
  rewrite !(proj2 (Z.ltb_ge _ len)) by lia. cbn [orb]. change (default [] (Some payload)) with payload.
  rewrite udp_datagram_ok by lia. cbn [mbind option_bind].
  set (u := udp_bytes sp dp (take (Z.to_nat len) payload)).
  assert (Z.of_nat (length u) = 8 + len) as Hu
    by (subst u; rewrite udp_bytes_length, length_take; lia).
  rewrite (net_send_ipv4_trunc fake_ok); [|done..|lia|rewrite length_app; lia].
  rewrite take_app_length' by lia. rewrite <- Hu.
  destruct (net_send_ipv4_fake k a dst IPV4_PROTO_UDP u arp' mac) as (n' & -> & He); try done; [lia|].
  cbn [mbind option_bind]. eexists. split; [reflexivity|]. exact (emitted_count _ _ _ _ _ _ He).
Qed.
