(* ===== verification/NetProto.v ===== *)
(** * The receiving half of kernel/net_proto.cc

    Frame classification, ARP replies, IPv4 validation, UDP dispatch and ICMP
    echo.  Each handler is one function from state to state; an access outside a
    buffer (the frame, or the 1514-byte reply of the ICMP path) is [None]. *)

From S2P Require Import Prelude NetStats ArpCache VirtioHw VirtioNet Wire NetSend Udp.

Section net_proto.
Context {H A : Type} `{!UdpCallbacks H A}.
Implicit Types k : Kernel H A.

Definition ipv4_header_length (ip : Ipv4Header) : Z := Z.land (version_ihl ip) 15 * 4.
Definition ip_is_for_me (ip : Ipv4Header) k : bool := ip_equals (dst_ip ip) (g_my_ip k).
Definition icmp_offset (ip : Ipv4Header) : Z := 14 + ipv4_header_length ip.

(** The headers of a reply, from those of the request. *)
Definition copy_eth_header_reply (src : EthernetHeader) (my_mac : bytes) : EthernetHeader :=
  mkEth (eth_src src) my_mac (ether_type src).

Definition copy_ip_header_basic (src : Ipv4Header) (my_ip : bytes) : Ipv4Header :=
  mkIpv4 (version_ihl src) 0 (total_length src) (identification src) (flags_fragment src)
    64 (protocol src) 0 my_ip (src_ip src).

Definition copy_icmp_echo_reply (src : IcmpEchoHeader) : IcmpEchoHeader :=
  mkIcmp ICMP_ECHO_REPLY 0 0 (icmp_identifier src) (icmp_sequence src).

Definition handle_arp (data : bytes) (len : Z) k : option (Kernel H A) :=
  if len <? 14 + 28 then Some (count DroppedShort k)
  else
    eth ← struct_at EthernetHeader data 0;
    arp ← struct_at ArpPacket data 14;
    let op := bswap16 (arp_oper arp) in
    k ← (if (arp_hlen arp =? 6) && (arp_plen arp =? 4) &&
            (bswap16 (arp_htype arp) =? ARP_HTYPE_ETHERNET) &&
            (bswap16 (arp_ptype arp) =? ARP_PTYPE_IPV4)
         then c ← arp_cache_insert (Some (arp_spa arp)) (Some (arp_sha arp)) (k_arp k);
              Some (k .[ k_arp := c ])
         else Some k);
    if op =? ARP_OP_REPLY then Some (count ArpRx k)
    else if negb (op =? ARP_OP_REQUEST) then Some k
    else if negb (ip_equals (arp_tpa arp) (g_my_ip k)) then Some (count DroppedNotForMe k)
    else
      let k := count ArpRx k in
      my_mac ← load_n (g_my_mac k) 0 6;
      my_ip ← load_n (g_my_ip k) 0 4;
      reply ← arp_frame
        (mkEth (eth_src eth) my_mac (bswap16 ETH_TYPE_ARP))
        (mkArp (bswap16 ARP_HTYPE_ETHERNET) (bswap16 ARP_PTYPE_IPV4) 6 4 (bswap16 ARP_OP_REPLY)
           my_mac my_ip (arp_sha arp) (arp_spa arp));
      '(ok, k) ← send_raw (Some reply) (Z.of_nat (length reply)) k;
      Some (if ok : bool then count ArpTx k else k).

Definition icmp_reply_size : nat := 1514.

(** The reply frame: the layers in the order the code writes them into its
    stack buffer, then the two checksums. *)
Definition icmp_reply (eth : EthernetHeader) (ip : Ipv4Header) (icmp : IcmpEchoHeader)
    (payload my_mac my_ip : bytes) : option bytes :=
  let hl := Z.to_nat (ipv4_header_length ip) in
  let out_ip := copy_ip_header_basic ip my_ip in
  let out_icmp := copy_icmp_echo_reply icmp in
  r ← struct_put (replicate icmp_reply_size 0) 0 (copy_eth_header_reply eth my_mac);
  r ← struct_put r 14 out_ip;
  r ← struct_put r (14 + hl) out_icmp;
  r ← copy_bytes r (14 + hl + 8) payload 0 (length payload);
  c ← checksum_at r 14 hl;
  r ← struct_put r 14 (out_ip .[ header_checksum := bswap16 c ]);
  c ← checksum_at r (14 + hl) (8 + length payload);
  struct_put r (14 + hl) (out_icmp .[ icmp_checksum := bswap16 c ]).

(** The ICMP part of [handle_ipv4], after the protocol switch. *)
Definition handle_icmp (eth : EthernetHeader) (ip : Ipv4Header) (data : bytes) (ip_total_len : Z) k
    : option (Kernel H A) :=
  let ip_hdr_len := ipv4_header_length ip in
  if ip_total_len <? ip_hdr_len + 8 then Some (count DroppedShort k)
  else
    let icmp_off := icmp_offset ip in
    icmp ← struct_at IcmpEchoHeader data (Z.to_nat icmp_off);
    if negb (icmp_type icmp =? ICMP_ECHO_REQUEST) then Some k
    else
      let icmp_len := ip_total_len - ip_hdr_len in
      c ← checksum_at data (Z.to_nat icmp_off) (Z.to_nat icmp_len);
      if negb (c =? 0) then Some (count DroppedBadChecksum k)
      else
        let k := count IcmpRx k in
        payload ← load_n data (Z.to_nat (icmp_off + 8)) (Z.to_nat (icmp_len - 8));
        my_mac ← load_n (g_my_mac k) 0 6;
        my_ip ← load_n (g_my_ip k) 0 4;
        reply ← icmp_reply eth ip icmp payload my_mac my_ip;
        '(ok, k) ← send_raw (Some reply) (14 + ip_hdr_len + icmp_len) k;
        Some (if ok : bool then count IcmpTx (count Ipv4Tx k) else k).

Definition handle_ipv4 (data : bytes) (len : Z) k : option (Kernel H A) :=
  if len <? 14 + 20 then Some (count DroppedShort k)
  else
    eth ← struct_at EthernetHeader data 0;
    ip ← struct_at Ipv4Header data 14;
    let ip_hdr_len := ipv4_header_length ip in
    if ip_hdr_len <? 20 then Some (count DroppedShort k)
    else if len <? 14 + ip_hdr_len then Some (count DroppedShort k)
    else
      c ← checksum_at data 14 (Z.to_nat ip_hdr_len);
      if negb (c =? 0) then Some (count DroppedBadChecksum k)
      else if negb (ip_is_for_me ip k) then Some (count DroppedNotForMe k)
      else
        let k := count Ipv4Rx k in
        let ip_total_len := bswap16 (total_length ip) in
        if ip_total_len <? ip_hdr_len then Some (count DroppedShort k)
        else if len <? 14 + ip_total_len then Some (count DroppedShort k)
        else if protocol ip =? IPV4_PROTO_UDP then
          let off := Z.to_nat (14 + ip_hdr_len) in
          '(_, k) ← udp_handle_packet (Some (src_ip ip)) (Some (drop off data))
                      (ip_total_len - ip_hdr_len) k;
          Some k
        else if negb (protocol ip =? IPV4_PROTO_ICMP) then
          Some (count DroppedUnknownIpv4Protocol k)
        else handle_icmp eth ip data ip_total_len k.

Definition net_handle_frame (data : bytes) (len : Z) k : option (Kernel H A) :=
  if len <? 14 then Some (count DroppedShort k)
  else
    eth ← struct_at EthernetHeader data 0;
    if negb (mac_is_for_me (eth_dst eth) k) then Some (count DroppedNotForMe k)
    else
      let ether_type := bswap16 (ether_type eth) in
      if ether_type =? ETH_TYPE_ARP then handle_arp data len k
      else if ether_type =? ETH_TYPE_IPV4 then handle_ipv4 data len k
      else Some (count DroppedUnknownEthertype k).

Definition net_poll_once k : option (bool * Kernel H A) :=
  '(recv_len, frame, n) ← net_recv_raw (Some (replicate 2048 0)) 2048 (k_nic k);
  let k := k .[ k_nic := n ] in
  if recv_len <=? 0 then Some (false, k)
  else
    k ← net_handle_frame (default [] frame) recv_len k;
    Some (true, k).
End net_proto.

(** ** The bytes of an echo reply *)

Lemma ipv4_header_length_range ip :
  0 <= ipv4_header_length ip <= 60.
Proof.
  unfold ipv4_header_length. rewrite (land_ones_mod _ 4) by (done || lia).
  change (2 ^ 4) with 16. word_lia.
Qed.

Lemma copy_eth_wf eth my_mac :
  packed_wf eth → wf_addr 6 my_mac → packed_wf (copy_eth_header_reply eth my_mac).
Proof. simpl. intros ? []. destruct_and?. by split_and!. Qed.
Lemma copy_ip_wf ip my_ip :
  packed_wf ip → wf_addr 4 my_ip → packed_wf (copy_ip_header_basic ip my_ip).
Proof. simpl. intros ? []. destruct_and?. split_and!; auto with words; word_lia. Qed.
Lemma copy_icmp_wf icmp : packed_wf icmp → packed_wf (copy_icmp_echo_reply icmp).
Proof. simpl. intros ?. destruct_and?. unfold ICMP_ECHO_REPLY. split_and!; try done; word_lia. Qed.

(** The reply on the wire: [opts] zero bytes stand where the request had
    IPv4 options. *)
Definition echo_reply_bytes (eth : EthernetHeader) (ip : Ipv4Header) (icmp : IcmpEchoHeader)
    (payload my_mac my_ip : bytes) : bytes :=
  let opts := replicate (Z.to_nat (ipv4_header_length ip - 20)) 0 in
  to_bytes (copy_eth_header_reply eth my_mac) ++
  to_bytes (ipv4_seal (copy_ip_header_basic ip my_ip) opts) ++ opts ++
  to_bytes (icmp_seal (copy_icmp_echo_reply icmp) payload) ++ payload.

(** Reading and writing behind a prefix of known length. *)
Lemma put_at {T} `{PackedLaws T} n pre old x post :
  packed_wf x → length old = packed_size T → length pre = n →
  struct_put (pre ++ old ++ post) n x = Some (pre ++ to_bytes x ++ post).
Proof. intros ?? <-. by apply struct_put_app. Qed.
Lemma sum_at n m pre mid post :
  length pre = n → length mid = m → checksum_at (pre ++ mid ++ post) n m = Some (checksum16 mid).
Proof. intros <- <-. unfold checksum_at. by rewrite load_n_app. Qed.

Lemma checksum_at_ok p off n :
  (off + n <= length p)%nat → checksum_at p off n = Some (checksum16 (take n (drop off p))).
Proof. intros. unfold checksum_at. by rewrite load_n_ok. Qed.

Lemma icmp_reply_ok eth ip icmp payload my_mac my_ip :
  packed_wf eth → packed_wf ip → packed_wf icmp → wf_addr 6 my_mac → wf_addr 4 my_ip →
  20 <= ipv4_header_length ip →
  22 + ipv4_header_length ip + Z.of_nat (length payload) <= 1514 →
  icmp_reply eth ip icmp payload my_mac my_ip =
    Some (echo_reply_bytes eth ip icmp payload my_mac my_ip ++
          replicate (Z.to_nat (1492 - ipv4_header_length ip - Z.of_nat (length payload))) 0).
Proof.
  intros He Hi Hc Hm Hip Hh Hl. unfold icmp_reply, echo_reply_bytes, icmp_reply_size. cbv zeta.
  set (n := Z.to_nat (ipv4_header_length ip - 20)). set (opts := replicate n 0).
  set (pad := replicate (Z.to_nat (1492 - ipv4_header_length ip - Z.of_nat (length payload))) 0).
  set (e := copy_eth_header_reply eth my_mac). set (i := copy_ip_header_basic ip my_ip).
  set (c := copy_icmp_echo_reply icmp).
  assert (packed_wf e) as He' by by apply copy_eth_wf.
  assert (packed_wf i) as Hi' by by apply copy_ip_wf.
  assert (packed_wf c) as Hc' by by apply copy_icmp_wf.
  pose proof (to_bytes_length e He') as Hle. pose proof (to_bytes_length i Hi') as Hli.
  pose proof (to_bytes_length c Hc') as Hlc. cbn [packed_size packed_eth packed_ipv4 packed_icmp] in *.
  replace (Z.to_nat (ipv4_header_length ip)) with (20 + n)%nat by (subst n; lia).
  assert (length opts = n) as Hlo by apply length_replicate.
  assert (replicate 1514 0 = [] ++ replicate 14 0 ++ replicate 20 0 ++ opts ++ replicate 8 0 ++
            replicate (length payload) 0 ++ pad) as ->.
  { cbn [app]. subst opts pad. rewrite <- !replicate_add. f_equal. lia. }
  rewrite put_at by done. cbn [mbind option_bind app].
  rewrite put_at by done. cbn [mbind option_bind].
  replace (to_bytes e ++ to_bytes i ++ opts ++ replicate 8 0 ++ replicate (length payload) 0 ++ pad)
    with ((to_bytes e ++ to_bytes i ++ opts) ++ replicate 8 0 ++ replicate (length payload) 0 ++ pad)
    by by rewrite <- !app_assoc.
  rewrite put_at; [|done|done|rewrite !length_app; lia]. cbn [mbind option_bind].
  replace ((to_bytes e ++ to_bytes i ++ opts) ++ to_bytes c ++ replicate (length payload) 0 ++ pad)
    with ((to_bytes e ++ to_bytes i ++ opts ++ to_bytes c) ++ replicate (length payload) 0 ++ pad)
    by by rewrite <- !app_assoc.
  assert ((14 + (20 + n) + 8)%nat = length (to_bytes e ++ to_bytes i ++ opts ++ to_bytes c)) as ->
    by (rewrite !length_app; lia).
  rewrite copy_bytes_app; [|apply length_replicate|lia]. rewrite take_ge by lia.
  cbn [mbind option_bind].
  replace ((to_bytes e ++ to_bytes i ++ opts ++ to_bytes c) ++ payload ++ pad)
    with (to_bytes e ++ (to_bytes i ++ opts) ++ to_bytes c ++ payload ++ pad)
    by by rewrite <- !app_assoc.
  rewrite sum_at by (done || rewrite length_app; lia). cbn [mbind option_bind].
  rewrite <- (app_assoc (to_bytes i)).
  change (i .[ header_checksum := bswap16 (checksum16 (to_bytes i ++ opts)) ]) with (ipv4_seal i opts).
  pose proof (ipv4_seal_wf i opts Hi') as His.
  rewrite put_at by done. cbn [mbind option_bind].
  pose proof (to_bytes_length _ His) as Hlis. cbn [packed_size packed_ipv4] in Hlis.
  replace (to_bytes e ++ to_bytes (ipv4_seal i opts) ++ opts ++ to_bytes c ++ payload ++ pad)
    with ((to_bytes e ++ to_bytes (ipv4_seal i opts) ++ opts) ++ (to_bytes c ++ payload) ++ pad)
    by by rewrite <- !app_assoc.
  rewrite sum_at by (rewrite !length_app; lia). cbn [mbind option_bind].
  rewrite <- (app_assoc (to_bytes c)).
  change (c .[ icmp_checksum := bswap16 (checksum16 (to_bytes c ++ payload)) ]) with (icmp_seal c payload).
  rewrite put_at; [|by apply icmp_seal_wf|done|rewrite !length_app; lia].
  by rewrite <- !app_assoc.
Qed.

(** ** Every frame of at most 1514 bytes is handled inside the buffers *)

Section safety.
Context {H A : Type} (ok : RawNic → Prop) `{!NicSpec ok} `{!UdpCallbacks H A} `{!UdpCallbacksOk ok}.
Implicit Types k : Kernel H A.

Lemma echo_reply_length eth ip icmp payload my_mac my_ip :
  packed_wf eth → packed_wf ip → packed_wf icmp → wf_addr 6 my_mac → wf_addr 4 my_ip →
  20 <= ipv4_header_length ip →
  Z.of_nat (length (echo_reply_bytes eth ip icmp payload my_mac my_ip)) =
    22 + ipv4_header_length ip + Z.of_nat (length payload).
Proof.
  intros. unfold echo_reply_bytes. cbv zeta.
  rewrite !length_app, length_replicate, !to_bytes_length;
    [|by apply icmp_seal_wf, copy_icmp_wf|by apply ipv4_seal_wf, copy_ip_wf|by apply copy_eth_wf].
  cbn [packed_size packed_eth packed_ipv4 packed_icmp]. lia.
Qed.

Lemma struct_at_ok T `{PackedLaws T} p off :
  wf_bytes p → (off + packed_size T <= length p)%nat →
  ∃ x : T, struct_at T p off = Some x ∧ packed_wf x.
Proof.
  intros Hp Hl. destruct (struct_at_defined (T:=T) p off Hl) as [x Hx].
  exists x. split; [done|]. by destruct (struct_at_inv _ _ _ Hp Hx).
Qed.

Lemma handle_icmp_wf k eth ip data tl :
  wf_kernel ok k → packed_wf eth → packed_wf ip → wf_bytes data →
  20 <= ipv4_header_length ip → 14 + tl <= Z.of_nat (length data) → 14 + tl <= 1514 →
  ∃ k', handle_icmp eth ip data tl k = Some k' ∧ wf_kernel ok k'.
Proof using NicSpec0.
  intros Hk He Hi Hd Hh Hl Hsz. unfold handle_icmp, icmp_offset.
  set (hl := ipv4_header_length ip) in *.
  destruct (Z.ltb_spec tl (hl + 8)); [eexists; split; [done|by apply count_wf]|].
  destruct (struct_at_ok IcmpEchoHeader data (Z.to_nat (14 + hl))) as (icmp & -> & Hc); [done|simpl; lia|].
  cbn [mbind option_bind]. case_match; [by exists k|].
  rewrite checksum_at_ok by lia. cbn [mbind option_bind].
  case_match; [eexists; split; [done|by apply count_wf]|].
  rewrite (load_n_ok data) by lia. cbn [mbind option_bind].
  assert (wf_kernel ok (count IcmpRx k)) as Hk1 by by apply count_wf.
  rewrite !load_whole by apply Hk1. cbn [mbind option_bind].
  set (payload := take _ _).
  assert (Z.of_nat (length payload) = tl - hl - 8) as Hpl.
  { subst payload. rewrite length_take, length_drop. lia. }
  rewrite icmp_reply_ok; try done; [|apply Hk1|apply Hk1|fold hl; lia]. cbn [mbind option_bind].
  fold hl.
  destruct (send_raw_wf ok (Some (echo_reply_bytes eth ip icmp payload (g_my_mac (count IcmpRx k))
      (g_my_ip (count IcmpRx k)) ++ replicate (Z.to_nat (1492 - hl - Z.of_nat (length payload))) 0))
      (14 + hl + (tl - hl)) _ Hk1) as (b & k' & -> & Hk').
  { split; [lia|]. intros ? [= <-]. rewrite length_app.
    pose proof (echo_reply_length eth ip icmp payload _ _ He Hi Hc (wk_mac _ _ Hk) (wk_ip _ _ Hk) Hh) as Hle.
    fold hl in Hle. lia. }
  cbn [mbind option_bind]. eexists. split; [reflexivity|].
  destruct b; [by repeat (apply count_wf; try apply _)|done].
Qed.

Lemma handle_ipv4_wf k data len :
  wf_kernel ok k → wf_bytes data → len <= Z.of_nat (length data) → len <= 1514 →
  ∃ k', handle_ipv4 data len k = Some k' ∧ wf_kernel ok k'.
Proof using All.
  intros Hk Hd Hl Hsz. unfold handle_ipv4.
  destruct (Z.ltb_spec len (14 + 20)); [eexists; split; [done|by apply count_wf]|].
  destruct (struct_at_ok EthernetHeader data 0) as (eth & -> & He); [done|simpl; lia|].
  destruct (struct_at_ok Ipv4Header data 14) as (ip & -> & Hi); [done|simpl; lia|].
  cbn [mbind option_bind]. pose proof (ipv4_header_length_range ip) as Hr.
  set (hl := ipv4_header_length ip) in *.
  destruct (Z.ltb_spec hl 20); [eexists; split; [done|by apply count_wf]|].
  destruct (Z.ltb_spec len (14 + hl)); [eexists; split; [done|by apply count_wf]|].
  rewrite checksum_at_ok by lia. cbn [mbind option_bind].
  case_match; [eexists; split; [done|by apply count_wf]|].
  case_match; [eexists; split; [done|by apply count_wf]|].
  assert (wf_kernel ok (count Ipv4Rx k)) as Hk1 by by apply count_wf.
  destruct (Z.ltb_spec (bswap16 (total_length ip)) hl); [eexists; split; [done|by apply count_wf]|].
  destruct (Z.ltb_spec len (14 + bswap16 (total_length ip))); [eexists; split; [done|by apply count_wf]|].
  case_match.
  - destruct (udp_handle_packet_wf ok (count Ipv4Rx k) (src_ip ip) (drop (Z.to_nat (14 + hl)) data)
      (bswap16 (total_length ip) - hl)) as (b & k' & -> & Hk'); [done| |auto with words| |].
    + simpl in Hi. destruct_and?. by split.
    + rewrite length_drop. lia.
    + by exists k'.
  - case_match; [eexists; split; [done|by apply count_wf]|].
    apply handle_icmp_wf; try done; lia.
Qed.

Lemma handle_arp_wf k data len :
  wf_kernel ok k → wf_bytes data → len <= Z.of_nat (length data) →
  ∃ k', handle_arp data len k = Some k' ∧ wf_kernel ok k'.
Proof using NicSpec0.
  intros Hk Hd Hl. unfold handle_arp.
  destruct (Z.ltb_spec len (14 + 28)); [eexists; split; [done|by apply count_wf]|].
  destruct (struct_at_ok EthernetHeader data 0) as (eth & -> & He); [done|simpl; lia|].
  destruct (struct_at_ok ArpPacket data 14) as (arp & -> & Ha); [done|simpl; lia|].
  cbn [mbind option_bind].
  assert (wf_addr 6 (arp_sha arp) ∧ wf_addr 4 (arp_spa arp) ∧ wf_addr 6 (eth_src eth)) as (Hsha & Hspa & Hsrc).
  { simpl in Ha, He. destruct_and?. by repeat split. }
  match goal with |- ∃ k', (?e ≫= _) = _ ∧ _ =>
    assert (∃ k1, e = Some k1 ∧ wf_kernel ok k1) as (k1 & -> & Hk1) end.
  { case_match; [|by exists k].
    destruct (arp_insert_shape (k_arp k) (arp_spa arp) (arp_sha arp)) as (c & -> & Hc); [apply Hk|done..|].
    eexists. split; [reflexivity|]. by destruct Hk. }
  cbn [mbind option_bind]. case_match; [eexists; split; [done|by apply count_wf]|].
  case_match; [by exists k1|]. case_match; [eexists; split; [done|by apply count_wf]|].
  assert (wf_kernel ok (count ArpRx k1)) as Hk2 by by apply count_wf.
  rewrite !load_whole by apply Hk2. cbn [mbind option_bind].
  rewrite arp_frame_ok;
    [|by apply eth_wf; [|apply Hk2]|apply arp_packet_wf; [apply Hk2|apply Hk2|done|done]].
  cbn [mbind option_bind].
  match goal with |- context [send_raw (Some ?f) ?n ?s] =>
    destruct (send_raw_wf ok (Some f) n s Hk2) as (b & k' & -> & Hk'); [by apply holds_exact|] end.
  cbn [mbind option_bind]. eexists. split; [reflexivity|].
  destruct b; [by apply count_wf|done].
Qed.

Lemma net_handle_frame_wf k data len :
  wf_kernel ok k → wf_bytes data → len <= Z.of_nat (length data) → len <= 1514 →
  ∃ k', net_handle_frame data len k = Some k' ∧ wf_kernel ok k'.
Proof using All.
  intros Hk Hd Hl Hsz. unfold net_handle_frame.
  destruct (Z.ltb_spec len 14); [eexists; split; [done|by apply count_wf]|].
  destruct (struct_at_ok EthernetHeader data 0) as (eth & -> & He); [done|simpl; lia|].
  cbn [mbind option_bind]. case_match; [eexists; split; [done|by apply count_wf]|].
  case_match; [by apply handle_arp_wf|].
  case_match; [by apply handle_ipv4_wf|]. eexists; split; [done|by apply count_wf].
Qed.
End safety.

(** ** What the handlers do with a packet addressed to this machine *)

(** [data] carries an IPv4 packet for [k]: link and network headers that pass
    the code's checks, [body] behind them, and any trailing bytes. *)
Record ipv4_for_me {H A : Type} (k : Kernel H A) (eth : EthernetHeader) (ip : Ipv4Header)
    (opts body trailer data : bytes) : Prop := {
  im_data : data = to_bytes eth ++ to_bytes ip ++ opts ++ body ++ trailer;
  im_eth : packed_wf eth;
  im_ip : packed_wf ip;
  im_opts : wf_bytes opts;
  im_mac : wf_addr 6 (g_my_mac k);
  im_addr : wf_addr 4 (g_my_ip k);
  im_dst : eth_dst eth = g_my_mac k ∨ eth_dst eth = broadcast_mac;
  im_type : ether_type eth = bswap16 ETH_TYPE_IPV4;
  im_ihl : ipv4_header_length ip = 20 + Z.of_nat (length opts);
  im_sum : checksum16 (to_bytes ip ++ opts) = 0;
  im_dst_ip : dst_ip ip = g_my_ip k;
  im_total : bswap16 (total_length ip) = ipv4_header_length ip + Z.of_nat (length body)
}.

Lemma ipv4_for_me_length {H A : Type} (k : Kernel H A) eth ip opts body trailer data :
  ipv4_for_me k eth ip opts body trailer data →
  14 + (ipv4_header_length ip + Z.of_nat (length body)) <= Z.of_nat (length data) <= Z.of_nat (length data).
Proof.
  intros []. subst data. rewrite !length_app, (to_bytes_length eth), (to_bytes_length ip) by done.
  cbn [packed_size packed_eth packed_ipv4]. lia.
Qed.

Section functional.
Context {H A : Type} `{!UdpCallbacks H A}.
Implicit Types k : Kernel H A.

Lemma mac_for_me mac k :
  wf_addr 6 (g_my_mac k) → mac = g_my_mac k ∨ mac = broadcast_mac → mac_is_for_me mac k = true.
Proof.
  intros [Hl _] [-> | ->]; unfold mac_is_for_me, mac_is_broadcast; [case_match; [done|]|done].
  apply bytes_equal_refl. lia.
Qed.

Lemma struct_at_first {T} `{PackedLaws T} (x : T) post :
  packed_wf x → struct_at T (to_bytes x ++ post) 0 = Some x.
Proof. intros Hx. exact (struct_at_app [] x post Hx). Qed.

Lemma struct_at_second {T} `{PackedLaws T} pre (x : T) post n :
  packed_wf x → length pre = n → struct_at T (pre ++ to_bytes x ++ post) n = Some x.
Proof. intros Hx <-. exact (struct_at_app pre x post Hx). Qed.

(** The validation of [net_handle_frame] and [handle_ipv4], passed. *)
Lemma handle_ipv4_frame k eth ip opts body trailer data len :
  ipv4_for_me k eth ip opts body trailer data →
  let hl := ipv4_header_length ip in
  let tl := hl + Z.of_nat (length body) in
  14 + tl <= len <= Z.of_nat (length data) →
  net_handle_frame data len k =
    if protocol ip =? IPV4_PROTO_UDP then
      '(_, k) ← udp_handle_packet (Some (src_ip ip)) (Some (body ++ trailer))
                  (Z.of_nat (length body)) (count Ipv4Rx k);
      Some k
    else if negb (protocol ip =? IPV4_PROTO_ICMP) then
      Some (count DroppedUnknownIpv4Protocol (count Ipv4Rx k))
    else handle_icmp eth ip data tl (count Ipv4Rx k).
Proof.
  cbv zeta. intros [] Hb. subst data. unfold net_handle_frame.
  pose proof (to_bytes_length eth im_eth0) as Hle. pose proof (to_bytes_length ip im_ip0) as Hli.
  cbn [packed_size packed_eth packed_ipv4] in *.
  set (data := to_bytes eth ++ to_bytes ip ++ opts ++ body ++ trailer) in *.
  assert (Z.of_nat (length data) =
    14 + ipv4_header_length ip + Z.of_nat (length body) + Z.of_nat (length trailer)) as Hlen.
  { subst data. rewrite !length_app. lia. }
  assert (struct_at EthernetHeader data 0 = Some eth) as Heth by by apply (struct_at_first eth).
  assert (struct_at Ipv4Header data 14 = Some ip) as Hip by by apply struct_at_second.
  rewrite (proj2 (Z.ltb_ge _ 14)), Heth by lia. cbn [mbind option_bind].
  rewrite mac_for_me by done. cbn [negb]. rewrite im_type0.
  change (bswap16 (bswap16 ETH_TYPE_IPV4)) with 2048.
  change (2048 =? ETH_TYPE_ARP) with false. change (2048 =? ETH_TYPE_IPV4) with true. cbv iota.
  unfold handle_ipv4. rewrite (proj2 (Z.ltb_ge _ (14 + 20))), Heth by lia.
  cbn [mbind option_bind]. rewrite Hip. cbn [mbind option_bind]. clear Heth Hip.
  rewrite (proj2 (Z.ltb_ge _ 20)), (proj2 (Z.ltb_ge _ (14 + _))) by lia.
  assert (checksum_at data 14 (Z.to_nat (ipv4_header_length ip)) = Some 0) as ->.
  { subst data. replace (to_bytes eth ++ to_bytes ip ++ opts ++ body ++ trailer)
      with (to_bytes eth ++ (to_bytes ip ++ opts) ++ body ++ trailer) by by rewrite <- !app_assoc.
    rewrite sum_at; [by rewrite im_sum0|done|rewrite length_app; lia]. }
  cbn [mbind option_bind Z.eqb negb]. unfold ip_is_for_me, ip_equals. rewrite im_dst_ip0.
  rewrite bytes_equal_refl by (destruct im_addr0; lia). cbn [negb].
  rewrite im_total0, !(proj2 (Z.ltb_ge _ _)) by lia.
  replace (drop (Z.to_nat (14 + ipv4_header_length ip)) data) with (body ++ trailer).
  { by replace (ipv4_header_length ip + Z.of_nat (length body) - ipv4_header_length ip)
      with (Z.of_nat (length body)) by lia. }
  subst data. rewrite !app_assoc. rewrite <- (app_assoc _ body trailer).
  rewrite drop_app_length'; [done|]. rewrite !length_app. lia.
Qed.

(** The ICMP message of an echo request that passes the code's checks. *)
Record echo_request_body (icmp : IcmpEchoHeader) (payload : bytes) : Prop := {
  er_icmp : packed_wf icmp;
  er_payload : wf_bytes payload;
  er_type : icmp_type icmp = ICMP_ECHO_REQUEST;
  er_sum : checksum16 (to_bytes icmp ++ payload) = 0
}.

Lemma handle_icmp_echo k eth ip opts icmp payload trailer data :
  ipv4_for_me k eth ip opts (to_bytes icmp ++ payload) trailer data →
  echo_request_body icmp payload →
  let hl := ipv4_header_length ip in
  let tl := hl + Z.of_nat (length (to_bytes icmp ++ payload)) in
  handle_icmp eth ip data tl (count Ipv4Rx k) =
    reply ← icmp_reply eth ip icmp payload (g_my_mac k) (g_my_ip k);
    '(ok, k) ← send_raw (Some reply) (14 + tl) (count IcmpRx (count Ipv4Rx k));
    Some (if ok : bool then count IcmpTx (count Ipv4Tx k) else k).
Proof.
  intros [] []. cbv zeta. unfold handle_icmp, icmp_offset.
  pose proof (to_bytes_length eth im_eth0) as Hle. pose proof (to_bytes_length ip im_ip0) as Hli.
  pose proof (to_bytes_length icmp er_icmp0) as Hlc.
  cbn [packed_size packed_eth packed_ipv4 packed_icmp] in *.
  rewrite length_app, Hlc in *. rewrite (proj2 (Z.ltb_ge _ _)) by lia.
  set (pre := to_bytes eth ++ to_bytes ip ++ opts).
  assert (data = pre ++ (to_bytes icmp ++ payload) ++ trailer) as Hdata.
  { subst pre. rewrite im_data0, <- !app_assoc. done. }
  assert (length pre = Z.to_nat (14 + ipv4_header_length ip)) as Hpre.
  { subst pre. rewrite !length_app. lia. }
  assert (struct_at IcmpEchoHeader data (Z.to_nat (14 + ipv4_header_length ip)) = Some icmp) as ->.
  { rewrite Hdata, <- app_assoc. by apply struct_at_second. }
  cbn [mbind option_bind]. rewrite er_type0. cbn [negb Z.eqb ICMP_ECHO_REQUEST].
  change (ICMP_ECHO_REQUEST =? ICMP_ECHO_REQUEST) with true. cbn [negb].
  replace (ipv4_header_length ip + Z.of_nat (8 + length payload) - ipv4_header_length ip)
    with (Z.of_nat (8 + length payload)) by lia.
  assert (checksum_at data (Z.to_nat (14 + ipv4_header_length ip))
    (Z.to_nat (Z.of_nat (8 + length payload))) = Some 0) as ->.
  { rewrite Hdata, sum_at; [by rewrite er_sum0|done|rewrite length_app; lia]. }
  cbn [mbind option_bind Z.eqb negb].
  assert (load_n data (Z.to_nat (14 + ipv4_header_length ip + 8))
    (Z.to_nat (Z.of_nat (8 + length payload) - 8)) = Some payload) as ->.
  { pose proof (load_n_app (pre ++ to_bytes icmp) payload trailer) as Hlo.
    rewrite Hdata. rewrite <- !app_assoc in *.
    replace (Z.to_nat (14 + ipv4_header_length ip + 8)) with (length (pre ++ to_bytes icmp))
      by (rewrite length_app; lia).
    replace (Z.to_nat (Z.of_nat (8 + length payload) - 8)) with (length payload) by lia. done. }
  cbn [mbind option_bind]. simpl g_my_mac. simpl g_my_ip.
  rewrite !load_whole by (apply im_mac0 || apply im_addr0). cbn [mbind option_bind].
  by rewrite Z.add_assoc.
Qed.
End functional.

(** ** The machine at boot, with the default identity and the fake backend *)

Definition boot_mac : bytes := [82; 84; 0; 18; 52; 86].
Definition boot_ip : bytes := [10; 0; 2; 15].

Definition boot_kernel {H A : Type} (app : A) : Kernel H A :=
  mkKernel (net_init_fake boot_nic) arp_cache_reset udp_clear_handlers boot_mac boot_ip app.

Ltac wf_addr_const := split; [reflexivity|repeat constructor; lia].

Lemma boot_mac_wf : wf_addr 6 boot_mac.
Proof. wf_addr_const. Qed.
Lemma boot_ip_wf : wf_addr 4 boot_ip.
Proof. wf_addr_const. Qed.

Lemma boot_kernel_wf {H A : Type} (app : A) : wf_kernel fake_ok (boot_kernel (H:=H) app).
Proof.
  constructor; simpl; [|apply wf_cache_shape, arp_cache_reset_represents|exact boot_mac_wf|
    exact boot_ip_wf|done].
  exists (mkFakeNet [] None). split; [exact boot_fake|]. by repeat constructor.
Qed.

(** A machine whose only handler does nothing. *)
#[local] Instance idle_callbacks : UdpCallbacks unit unit := λ _ _ _ _ k, Some k.
Lemma idle_callbacks_ok : UdpCallbacksOk (H:=unit) (A:=unit) fake_ok.
Proof. intros h src port payload k Hk _ _ _. by exists k. Qed.

(** A frame from 10.0.2.2 to the booted machine. *)
Definition peer_mac : bytes := [2; 0; 0; 0; 0; 2].
Definition peer_ip : bytes := [10; 0; 2; 2].
Definition example_eth : EthernetHeader := mkEth boot_mac peer_mac (bswap16 ETH_TYPE_IPV4).
Definition example_ip (proto n : Z) : Ipv4Header :=
  ipv4_seal (mkIpv4 69 0 (bswap16 (20 + n)) 0 0 64 proto 0 peer_ip boot_ip) [].
Definition example_icmp (payload : bytes) : IcmpEchoHeader :=
  icmp_seal (mkIcmp ICMP_ECHO_REQUEST 0 0 1 1) payload.
Definition example_echo (payload : bytes) : bytes :=
  to_bytes example_eth ++ to_bytes (example_ip IPV4_PROTO_ICMP (8 + Z.of_nat (length payload))) ++
  to_bytes (example_icmp payload) ++ payload.

Lemma example_ip_wf proto n : is_u8 proto → 0 <= n <= 65000 → packed_wf (example_ip proto n).
Proof.
  intros. apply ipv4_seal_wf. simpl. split_and!; auto with words; try word_lia;
    try done; repeat constructor; lia.
Qed.

Lemma example_for_me {H A : Type} (app : A) proto body :
  is_u8 proto → Z.of_nat (length body) <= 65000 →
  ipv4_for_me (boot_kernel (H:=H) app) example_eth (example_ip proto (Z.of_nat (length body))) [] body []
    (to_bytes example_eth ++ to_bytes (example_ip proto (Z.of_nat (length body))) ++ body).
Proof.
  intros Hp Hl. constructor; try done.
  - by rewrite app_nil_r.
  - apply eth_wf; [exact boot_mac_wf|wf_addr_const].
  - apply example_ip_wf; [done|lia].
  - constructor.
  - exact boot_mac_wf.
  - exact boot_ip_wf.
  - by left.
  - apply ipv4_seal_verifies; [|constructor|simpl; lia]. simpl.
    split_and!; auto with words; try word_lia; try done; repeat constructor; lia.
  - unfold example_ip. cbn [total_length ipv4_seal set_field]. rewrite bswap16_invol by word_lia. done.
Qed.

Lemma example_icmp_length payload : length (to_bytes (example_icmp payload)) = 8%nat.
Proof. done. Qed.

Lemma example_echo_for_me {H A : Type} (app : A) payload n :
  n = 8 + Z.of_nat (length payload) → n <= 65000 →
  ipv4_for_me (boot_kernel (H:=H) app) example_eth (example_ip IPV4_PROTO_ICMP n) []
    (to_bytes (example_icmp payload) ++ payload) [] (example_echo payload).
Proof.
  intros -> Hl. unfold example_echo.
  pose proof (example_for_me (H:=H) app IPV4_PROTO_ICMP (to_bytes (example_icmp payload) ++ payload)) as Hm.
  rewrite length_app, example_icmp_length, Nat2Z.inj_add in Hm. apply Hm; [unfold IPV4_PROTO_ICMP; word_lia|lia].
Qed.

Lemma example_echo_body payload :
  wf_bytes payload → Z.of_nat (length payload) <= 65000 →
  echo_request_body (example_icmp payload) payload.
Proof.
  intros Hp Hl.
  assert (packed_wf (mkIcmp ICMP_ECHO_REQUEST 0 0 1 1)) as Hwf by (repeat split; vm_compute; discriminate || reflexivity).
  constructor; [by apply icmp_seal_wf|done|done|]. apply icmp_seal_verifies; [done|done|lia].
Qed.

(** C21: Every received frame of at most 1514 bytes, whatever it contains, is
    processed without any access outside a buffer, with either backend and any well-behaved
    handlers, and leaves the network state well formed. *)
Theorem net_handle_frame_safe {H A : Type} (ok : RawNic → Prop) `{!NicSpec ok, !UdpCallbacks H A}
    `{!UdpCallbacksOk ok} (k : Kernel H A) data len :
  wf_kernel ok k → wf_bytes data → len <= Z.of_nat (length data) → len <= 1514 →
  ∃ k', net_handle_frame data len k = Some k' ∧ wf_kernel ok k'.
Proof. by apply (net_handle_frame_wf ok). Qed.

Lemma net_handle_frame_safe_witness :
  ∃ k', net_handle_frame [255; 255; 255; 255; 255; 255; 1; 2; 3; 4; 5; 6; 8; 6; 0] 15
          (boot_kernel (H:=unit) tt) = Some k' ∧ wf_kernel fake_ok k'.
Proof.
  pose proof idle_callbacks_ok. apply (net_handle_frame_safe fake_ok);
    [apply boot_kernel_wf|repeat constructor; lia|simpl; lia|lia].
Defined.

(** C29: A valid ICMP echo request for this machine is answered if the reply fits into the buffer it is
    built in, that is if its Ethernet, IPv4 and ICMP headers and the payload are at most 1514 bytes: the one frame
    sent goes back to the requester with the same identifier, sequence number and payload,
    both its checksums verify, and exactly the five counters of the path move. *)
Theorem icmp_echo_replies {H A : Type} `{!UdpCallbacks H A} (k : Kernel H A) a eth ip opts icmp
    payload trailer data :
  wf_kernel fake_ok k → fake_represents (k_nic k) a →
  ipv4_for_me k eth ip opts (to_bytes icmp ++ payload) trailer data →
  protocol ip = IPV4_PROTO_ICMP → echo_request_body icmp payload →
  22 + ipv4_header_length ip + Z.of_nat (length payload) <= 1514 →
  let opts' := replicate (length opts) 0 in
  let ip' := ipv4_seal (copy_ip_header_basic ip (g_my_ip k)) opts' in
  let icmp' := icmp_seal (copy_icmp_echo_reply icmp) payload in
  let reply := to_bytes (mkEth (eth_src eth) (g_my_mac k) (ether_type eth)) ++ to_bytes ip' ++ opts' ++
                 to_bytes icmp' ++ payload in
  (∃ n', net_handle_frame data (Z.of_nat (length data)) k = Some (k .[ k_nic := n' ]) ∧
     emitted reply [Ipv4Rx; IcmpRx; RawTx; Ipv4Tx; IcmpTx] a (k_nic k) n') ∧
  checksum16 (to_bytes ip' ++ opts') = 0 ∧ checksum16 (to_bytes icmp' ++ payload) = 0.
Proof.
  intros Hk Ha Hme Hproto Hecho Hl. cbv zeta. pose proof Hme as []. pose proof Hecho as [].
  pose proof (im_ihl _ _ _ _ _ _ _ Hme) as Hihl.
  split; [|split; [apply ipv4_seal_verifies|apply icmp_seal_verifies]; auto using copy_ip_wf, copy_icmp_wf, wf_bytes_zeros;
           rewrite ?length_replicate; lia].
  rewrite (handle_ipv4_frame _ _ _ _ _ _ _ _ Hme), Hproto by (apply (ipv4_for_me_length _ _ _ _ _ _ _ Hme)).
  change (IPV4_PROTO_ICMP =? IPV4_PROTO_UDP) with false.
  change (IPV4_PROTO_ICMP =? IPV4_PROTO_ICMP) with true. cbn [negb].
  rewrite (handle_icmp_echo _ _ _ _ _ _ _ _ Hme Hecho).
  rewrite icmp_reply_ok by (done || lia). cbn [mbind option_bind].
  pose proof (echo_reply_length eth ip icmp payload _ _ im_eth0 im_ip0 er_icmp0 im_mac0 im_addr0
    ltac:(lia)) as Hel.
  rewrite length_app, (to_bytes_length icmp er_icmp0). cbn [packed_size packed_icmp].
  match goal with |- context [send_raw (Some ?f) ?n ?s] =>
    destruct (send_raw_fake s a f n) as (n' & -> & He) end.
  { by do 2 apply fake_count. }
  { unfold VIRTIO_NET_MAX_FRAME_SIZE. lia. }
  { rewrite length_app. lia. }
  cbn [mbind option_bind]. eexists. split; [reflexivity|].
  rewrite take_app_length' in He by lia.
  destruct He as (Hr & Hh & Hst). split_and!.
  - do 2 apply fake_count. unfold echo_reply_bytes in Hr. cbv zeta in Hr.
    by replace (Z.to_nat (ipv4_header_length ip - 20)) with (length opts) in Hr by lia.
  - done.
  - simpl. by rewrite Hst.
Qed.

Lemma icmp_echo_replies_witness :
  let k := boot_kernel (H:=unit) tt in
  ∃ n', net_handle_frame (example_echo [97; 98; 99]) 45 k = Some (k .[ k_nic := n' ]) ∧
    emitted (to_bytes (mkEth peer_mac boot_mac (bswap16 ETH_TYPE_IPV4)) ++
      to_bytes (ipv4_seal (copy_ip_header_basic (example_ip IPV4_PROTO_ICMP 11) boot_ip) []) ++
      to_bytes (icmp_seal (mkIcmp ICMP_ECHO_REPLY 0 0 1 1) [97; 98; 99]) ++ [97; 98; 99])
      [Ipv4Rx; IcmpRx; RawTx; Ipv4Tx; IcmpTx] (mkFakeNet [] None) (k_nic k) n'.
Proof.
  intros k. pose proof (icmp_echo_replies k (mkFakeNet [] None) example_eth (example_ip IPV4_PROTO_ICMP 11)
    [] (example_icmp [97; 98; 99]) [97; 98; 99] [] (example_echo [97; 98; 99])) as H.
  apply H; clear H.
  - apply boot_kernel_wf.
  - exact boot_fake.
  - apply (example_echo_for_me tt [97; 98; 99]); [reflexivity|lia].
  - reflexivity.
  - apply example_echo_body; [repeat constructor; lia|simpl; lia].
  - vm_compute. discriminate.
Defined.

(** A valid echo request whose reply needs more than the 1514 bytes of the
    code's stack buffer, though the NIC accepts frames of 2048 bytes, makes the handler
    write past the end of that buffer. *)
Theorem icmp_echo_overflow {H A : Type} `{!UdpCallbacks H A} (k : Kernel H A) eth ip opts icmp
    payload trailer data :
  ipv4_for_me k eth ip opts (to_bytes icmp ++ payload) trailer data →
  protocol ip = IPV4_PROTO_ICMP → echo_request_body icmp payload →
  1514 < 22 + ipv4_header_length ip + Z.of_nat (length payload) →
  net_handle_frame data (Z.of_nat (length data)) k = None.
Proof.
  intros Hme Hproto Hecho Hl. pose proof Hme as []. pose proof Hecho as [].
  rewrite (handle_ipv4_frame _ _ _ _ _ _ _ _ Hme), Hproto by (apply (ipv4_for_me_length _ _ _ _ _ _ _ Hme)).
  change (IPV4_PROTO_ICMP =? IPV4_PROTO_UDP) with false.
  change (IPV4_PROTO_ICMP =? IPV4_PROTO_ICMP) with true. cbn [negb].
  rewrite (handle_icmp_echo _ _ _ _ _ _ _ _ Hme Hecho).
  pose proof (ipv4_header_length_range ip) as Hr.
  assert (icmp_reply eth ip icmp payload (g_my_mac k) (g_my_ip k) = None) as ->; [|done].
  unfold icmp_reply. cbv zeta.
  destruct (struct_put (replicate icmp_reply_size 0) _ _) as [r1|] eqn:H1; [|done].
  cbn [mbind option_bind].
  destruct (struct_put r1 _ _) as [r2|] eqn:H2; [|done]. cbn [mbind option_bind].
  destruct (struct_put r2 _ _) as [r3|] eqn:H3; [|done]. cbn [mbind option_bind].
  apply store_n_length in H1, H2, H3. rewrite length_replicate in H1.
  rewrite copy_bytes_oob; [done| |]; unfold icmp_reply_size in *; [|left]; lia.
Qed.

Lemma icmp_echo_overflow_witness :
  net_handle_frame (example_echo (replicate 1480 97)) 1522 (boot_kernel (H:=unit) tt) = None.
Proof.
  pose proof (icmp_echo_overflow (boot_kernel (H:=unit) tt) example_eth (example_ip IPV4_PROTO_ICMP 1488)
    [] (example_icmp (replicate 1480 97)) (replicate 1480 97) [] (example_echo (replicate 1480 97))) as H.
  apply H; clear H.
  - apply (example_echo_for_me tt (replicate 1480 97)); [reflexivity|lia].
  - reflexivity.
  - apply example_echo_body; [apply Forall_replicate; unfold is_u8; lia|rewrite length_replicate; lia].
  - vm_compute. reflexivity.
Defined.

(** ** ARP *)

Definition arp_reply_bytes (my_mac my_ip : bytes) (eth : EthernetHeader) (arp : ArpPacket) : bytes :=
  to_bytes (mkEth (eth_src eth) my_mac (bswap16 ETH_TYPE_ARP)) ++
  to_bytes (mkArp (bswap16 ARP_HTYPE_ETHERNET) (bswap16 ARP_PTYPE_IPV4) 6 4 (bswap16 ARP_OP_REPLY)
    my_mac my_ip (arp_sha arp) (arp_spa arp)).

(** An ARP packet over Ethernet and IPv4 that reaches [handle_arp]. *)
Record arp_for_me {H A : Type} (k : Kernel H A) (oper : Z) (eth : EthernetHeader) (arp : ArpPacket)
    (trailer data : bytes) : Prop := {
  am_data : data = to_bytes eth ++ to_bytes arp ++ trailer;
  am_eth : packed_wf eth;
  am_arp : packed_wf arp;
  am_mac : wf_addr 6 (g_my_mac k);
  am_dst : eth_dst eth = g_my_mac k ∨ eth_dst eth = broadcast_mac;
  am_type : ether_type eth = bswap16 ETH_TYPE_ARP;
  am_kind : arp_htype arp = bswap16 ARP_HTYPE_ETHERNET ∧ arp_ptype arp = bswap16 ARP_PTYPE_IPV4 ∧
    arp_hlen arp = 6 ∧ arp_plen arp = 4;
  am_oper : arp_oper arp = bswap16 oper
}.

Section arp.
Context {H A : Type} `{!UdpCallbacks H A}.
Implicit Types k : Kernel H A.

Lemma handle_arp_eq k s oper eth arp trailer data :
  arp_for_me k oper eth arp trailer data → is_u16 oper → wf_addr 4 (g_my_ip k) →
  wf_cache (k_arp k) → represents (k_arp k) s →
  g_arp_cache_clock (k_arp k) + 1 < 18446744073709551616 →
  ∃ c, wf_cache c ∧ represents c (lru_insert (arp_spa arp) (arp_sha arp) s) ∧
    net_handle_frame data (Z.of_nat (length data)) k =
      let k := k .[ k_arp := c ] in
      if oper =? ARP_OP_REPLY then Some (count ArpRx k)
      else if negb (oper =? ARP_OP_REQUEST) then Some k
      else if negb (ip_equals (arp_tpa arp) (g_my_ip k)) then Some (count DroppedNotForMe k)
      else
        '(ok, k) ← send_raw (Some (arp_reply_bytes (g_my_mac k) (g_my_ip k) eth arp)) 42 (count ArpRx k);
        Some (if ok : bool then count ArpTx k else k).
Proof.
  intros [] Hop Hip Hwf Hrep Hclk. subst data.
  pose proof (to_bytes_length eth am_eth0) as Hle. pose proof (to_bytes_length arp am_arp0) as Hla.
  cbn [packed_size packed_eth packed_arp] in *.
  assert (wf_addr 6 (arp_sha arp) ∧ wf_addr 4 (arp_spa arp) ∧ wf_addr 4 (arp_tpa arp) ∧
    wf_addr 6 (eth_src eth)) as (Hsha & Hspa & Htpa & Hsrc).
  { simpl in am_arp0, am_eth0. destruct_and?. by repeat split. }
  destruct (arp_cache_insert_refines (k_arp k) s Hwf Hrep Hclk (arp_spa arp) Hspa (arp_sha arp)
    (proj1 Hsha) (proj2 Hsha)) as (c & Hins & Hwc & Hrc).
  exists c. split_and!; [done..|]. cbv zeta.
  unfold net_handle_frame. set (data := to_bytes eth ++ to_bytes arp ++ trailer).
  assert (42 <= Z.of_nat (length data)) as Hlen by (subst data; rewrite !length_app; lia).
  assert (struct_at EthernetHeader data 0 = Some eth) as Heth by by apply (struct_at_first eth).
  assert (struct_at ArpPacket data 14 = Some arp) as Harp by by apply struct_at_second.
  rewrite (proj2 (Z.ltb_ge _ 14)), Heth by lia. cbn [mbind option_bind].
  rewrite mac_for_me by done. rewrite am_type0.
  change (bswap16 (bswap16 ETH_TYPE_ARP)) with 2054. change (2054 =? ETH_TYPE_ARP) with true.
  cbn [negb]. unfold handle_arp. rewrite (proj2 (Z.ltb_ge _ (14 + 28))), Heth by lia.
  cbn [mbind option_bind]. rewrite Harp. cbn [mbind option_bind].
  destruct am_kind0 as (-> & -> & -> & ->). rewrite am_oper0.
  change (bswap16 (bswap16 ARP_HTYPE_ETHERNET) =? ARP_HTYPE_ETHERNET) with true.
  change (bswap16 (bswap16 ARP_PTYPE_IPV4) =? ARP_PTYPE_IPV4) with true. cbn [andb Z.eqb Pos.eqb].
  rewrite Hins. cbn [mbind option_bind]. rewrite bswap16_invol by done.
  case_match; [done|]. case_match; [done|]. case_match; [done|].
  simpl g_my_mac. simpl g_my_ip. rewrite !load_whole by (apply am_mac0 || apply Hip).
  cbn [mbind option_bind]. rewrite arp_frame_ok;
    [|by apply eth_wf|by apply arp_packet_wf]. cbn [mbind option_bind].
  fold (arp_reply_bytes (g_my_mac k) (g_my_ip k) eth arp).
  replace (Z.of_nat (length (arp_reply_bytes (g_my_mac k) (g_my_ip k) eth arp))) with 42; [done|].
  unfold arp_reply_bytes. rewrite length_app, !to_bytes_length; [done|..];
    [by apply arp_packet_wf|by apply eth_wf].
Qed.
End arp.

(** An ARP request for this machine's address is answered with its MAC
    address, to the sender, and the sender's binding becomes the most recently used one of the
    ARP cache. *)
Theorem arp_request_answered {H A : Type} `{!UdpCallbacks H A} (k : Kernel H A) a s eth arp trailer data :
  wf_kernel fake_ok k → fake_represents (k_nic k) a →
  arp_for_me k ARP_OP_REQUEST eth arp trailer data → arp_tpa arp = g_my_ip k →
  wf_cache (k_arp k) → represents (k_arp k) s →
  g_arp_cache_clock (k_arp k) + 1 < 18446744073709551616 →
  ∃ c n', net_handle_frame data (Z.of_nat (length data)) k = Some (k .[ k_arp := c ] .[ k_nic := n' ]) ∧
    wf_cache c ∧ represents c (lru_insert (arp_spa arp) (arp_sha arp) s) ∧
    emitted (arp_reply_bytes (g_my_mac k) (g_my_ip k) eth arp) [ArpRx; RawTx; ArpTx] a (k_nic k) n'.
Proof.
  intros Hk Ha Hme Htpa Hwf Hrep Hclk.
  destruct (handle_arp_eq k s _ eth arp trailer data Hme) as (c & Hwc & Hrc & Heq); try done.
  { apply Hk. }
  cbv zeta in Heq. change (ARP_OP_REQUEST =? ARP_OP_REPLY) with false in Heq.
  change (ARP_OP_REQUEST =? ARP_OP_REQUEST) with true in Heq. cbn [negb] in Heq.
  rewrite Htpa in Heq. unfold ip_equals in Heq. simpl g_my_ip in Heq.
  rewrite bytes_equal_refl in Heq by (destruct (wk_ip _ _ Hk); lia). cbn [negb] in Heq.
  assert (length (arp_reply_bytes (g_my_mac k) (g_my_ip k) eth arp) = 42%nat) as Hlen.
  { destruct Hme. simpl in am_arp0, am_eth0. destruct_and?.
    unfold arp_reply_bytes. rewrite length_app, !to_bytes_length; [done|..].
    - apply arp_packet_wf; try done; apply Hk.
    - by apply eth_wf; [|apply Hk]. }
  destruct (send_raw_fake (count ArpRx (k .[ k_arp := c ])) a
    (arp_reply_bytes (g_my_mac k) (g_my_ip k) eth arp) 42) as (n' & Hs & Hr & Hh & Hst);
    [by apply fake_count|unfold VIRTIO_NET_MAX_FRAME_SIZE; lia|lia|].
  simpl g_my_mac in Heq. rewrite Hs in Heq. cbn [mbind option_bind] in Heq.
  eexists c, _. split_and!; [exact Heq|done|done|].
  rewrite take_ge in Hr by lia. split_and!; [by apply fake_count|done|]. simpl. by rewrite Hst.
Qed.

Definition example_arp : ArpPacket :=
  mkArp (bswap16 ARP_HTYPE_ETHERNET) (bswap16 ARP_PTYPE_IPV4) 6 4 (bswap16 ARP_OP_REQUEST)
    peer_mac peer_ip (replicate 6 0) boot_ip.
Definition example_arp_eth : EthernetHeader := mkEth broadcast_mac peer_mac (bswap16 ETH_TYPE_ARP).

Lemma arp_request_answered_witness :
  let k := boot_kernel (H:=unit) tt in
  ∃ c n', net_handle_frame (to_bytes example_arp_eth ++ to_bytes example_arp ++ [0; 0]) 44 k =
      Some (k .[ k_arp := c ] .[ k_nic := n' ]) ∧
    wf_cache c ∧ represents c [(peer_ip, peer_mac)] ∧
    emitted (arp_reply_bytes boot_mac boot_ip example_arp_eth example_arp) [ArpRx; RawTx; ArpTx]
      (mkFakeNet [] None) (k_nic k) n'.
Proof.
  intros k. apply (arp_request_answered k (mkFakeNet [] None) [] example_arp_eth example_arp [0; 0]).
  - apply boot_kernel_wf.
  - exact boot_fake.
  - constructor; [reflexivity|apply eth_wf; wf_addr_const|apply arp_packet_wf; wf_addr_const
      |wf_addr_const|right; reflexivity|reflexivity|repeat split|reflexivity].
  - reflexivity.
  - apply arp_cache_reset_represents.
  - apply arp_cache_reset_represents.
  - vm_compute. reflexivity.
Defined.
