(* ===== verification/NetChat.v ===== *)
(** * Chat over UDP (kernel/net_chat.h, kernel/net_chat.cc)

    The message history, the inbox of unread messages, sanitising of text, and
    the public operations.  [chat_udp_handler] is the handler behind port 4390, so
    this file instantiates the interface [UdpCallbacks] of [Udp].  The inbox is
    proved to be a FIFO of eight messages that drops its oldest, and the history
    to hold the last eight messages. *)

From S2P Require Import Prelude NetStats ArpCache VirtioHw VirtioNet Wire NetSend Udp NetProto.

Definition NET_CHAT_PORT : Z := 4390.
Definition NET_CHAT_TEXT_SIZE : Z := 128.
Definition NET_CHAT_HISTORY_SIZE : Z := 8.

Record ChatMessage := mkMessage {
  cm_valid : bool; cm_src_ip : bytes; cm_src_port : Z; cm_text : bytes
}.
Definition message_zero : ChatMessage := mkMessage false (replicate 4 0) 0 (replicate 128 0).
#[export] Instance message_inhabited : Inhabited ChatMessage := populate message_zero.

Record ChatState := mkChat {
  g_history : list ChatMessage; g_inbox : list ChatMessage;
  g_history_next : Z; g_history_count : Z;
  g_inbox_read : Z; g_inbox_write : Z; g_inbox_count : Z
}.
#[export] Instance eta_ChatState : Eta ChatState := fun c =>
  mkChat (g_history c) (g_inbox c) (g_history_next c) (g_history_count c)
    (g_inbox_read c) (g_inbox_write c) (g_inbox_count c).

(** ** Sanitising text *)

Definition is_printable (ch : Z) : bool := (32 <=? ch) && (ch <=? 126).
Definition sanitize_char (ch : Z) : Z := if is_printable ch then ch else 46.

(** Returns the count and the contents of [out]. *)
Definition sanitize_payload (out : option bytes) (payload : bytes) (payload_len : Z)
    : option (Z * option bytes) :=
  match out with
  | None => Some (0, None)
  | Some out =>
      let limit := NET_CHAT_TEXT_SIZE - 1 in
      let to_copy := if payload_len <? limit then payload_len else limit in
      out ← copy_bytes out 0 (sanitize_char <$> payload) 0 (Z.to_nat to_copy);
      out ← store_n out (Z.to_nat to_copy) [0];
      Some (to_copy, Some out)
  end.

(** The loop that copies a C string through [f] from position [len] on, until
    its terminator or for [n] more turns.  [sanitize_cstr] runs it with
    [sanitize_char] and [net_chat_recv] with the identity. *)
Fixpoint str_copy_loop (f : Z → Z) (n len : nat) (out text : bytes) : option (nat * bytes) :=
  match n with
  | O => Some (len, out)
  | S n' =>
      ch ← text !! len;
      if ch =? 0 then Some (len, out)
      else
        out ← store_n out len [f ch];
        str_copy_loop f n' (S len) out text
  end.

Definition sanitize_cstr (out text : option bytes) : option (Z * option bytes) :=
  match out, text with
  | Some out, Some text =>
      '(len, out) ← str_copy_loop sanitize_char (Z.to_nat (NET_CHAT_TEXT_SIZE - 1)) 0 out text;
      out ← store_n out len [0];
      Some (Z.of_nat len, Some out)
  | _, _ => Some (0, out)
  end.

(** ** The rings *)

Definition next8 (i : Z) : Z := u8 ((i + 1) mod NET_CHAT_HISTORY_SIZE).

Definition store_message_locked (message : ChatMessage) (c : ChatState) : ChatState :=
  let c := c .[ g_history := <[Z.to_nat (g_history_next c) := message]> (g_history c) ]
    .[ g_history_next := next8 (g_history_next c) ] in
  let c := if g_history_count c <? NET_CHAT_HISTORY_SIZE
           then c .[ g_history_count := u8 (g_history_count c + 1) ] else c in
  let c := if g_inbox_count c =? NET_CHAT_HISTORY_SIZE
           then c .[ g_inbox_read := next8 (g_inbox_read c) ]
                  .[ g_inbox_count := u8 (g_inbox_count c - 1) ] else c in
  c .[ g_inbox := <[Z.to_nat (g_inbox_write c) := message]> (g_inbox c) ]
    .[ g_inbox_write := next8 (g_inbox_write c) ]
    .[ g_inbox_count := u8 (g_inbox_count c + 1) ].

Definition net_chat_reset : ChatState :=
  mkChat (replicate 8 message_zero) (replicate 8 message_zero) 0 0 0 0 0.

Definition net_chat_recv (out : option bytes) (max_len : Z) (c : ChatState)
    : option (bool * option bytes * ChatState) :=
  match out with
  | None => Some (false, None, c)
  | Some out =>
      if max_len =? 0 then Some (false, Some out, c)
      else if g_inbox_count c =? 0 then
        out ← store_n out 0 [0]; Some (false, Some out, c)
      else
        let i := Z.to_nat (g_inbox_read c) in
        let message := g_inbox c !!! i in
        let c := c .[ g_inbox := <[i := message_zero]> (g_inbox c) ]
          .[ g_inbox_read := next8 (g_inbox_read c) ]
          .[ g_inbox_count := u8 (g_inbox_count c - 1) ] in
        '(len, out) ← str_copy_loop id (Z.to_nat (max_len - 1)) 0 out (cm_text message);
        out ← store_n out len [0];
        Some (true, Some out, c)
  end.

(** The entries [net_chat_print_history] prints, in its order. *)
Definition net_chat_history (c : ChatState) : list ChatMessage :=
  let start := if g_history_count c =? NET_CHAT_HISTORY_SIZE then g_history_next c else 0 in
  filter (λ m, cm_valid m = true)
    ((λ i, g_history c !!! Z.to_nat (u8 ((start + i) mod NET_CHAT_HISTORY_SIZE)))
       <$> seqZ 0 (g_history_count c)).

(** ** The handler and the operations that reach the network *)

(** Handler pointers: the kernel registers one. *)
Inductive KernelHandler := chat_udp_handler.

Definition chat_message (src_ip : bytes) (src_port : Z) (payload : bytes) : option ChatMessage :=
  src ← copy_bytes (replicate 4 0) 0 src_ip 0 4;
  '(_, text) ← sanitize_payload (Some (replicate 128 0)) payload (Z.of_nat (length payload));
  Some (mkMessage true src src_port (default [] text)).

#[export] Instance chat_callbacks : UdpCallbacks KernelHandler ChatState :=
  λ h src_ip src_port payload k,
    match h with
    | chat_udp_handler =>
        m ← chat_message src_ip src_port payload;
        Some (k .[ k_app := store_message_locked m (k_app k) ])
    end.

Abbreviation ChatKernel := (Kernel KernelHandler ChatState).

Definition net_chat_init (k : ChatKernel) : bool * ChatKernel :=
  udp_register NET_CHAT_PORT (Some chat_udp_handler) k.

Definition net_chat_send (dst_ip text : option bytes) (k : ChatKernel) : option (bool * ChatKernel) :=
  match dst_ip, text with
  | Some _, Some _ =>
      let '(ok, k) := net_chat_init k in
      if negb ok then Some (false, k)
      else
        '(len, sanitized) ← sanitize_cstr (Some (replicate 128 0)) text;
        if len =? 0 then Some (false, k)
        else udp_send_to dst_ip NET_CHAT_PORT NET_CHAT_PORT sanitized len k
  | _, _ => Some (false, k)
  end.

Definition net_chat_poll (k : ChatKernel) : option (bool * ChatKernel) :=
  let '(ok, k) := net_chat_init k in
  if negb ok then Some (false, k) else net_poll_once k.

(** [net_chat_recv], on the whole state. *)
Definition chat_recv (out : option bytes) (max_len : Z) (k : ChatKernel)
    : option (bool * option bytes * ChatKernel) :=
  '(b, out, c) ← net_chat_recv out max_len (k_app k); Some (b, out, k .[ k_app := c ]).

(** ** Text *)

Definition nonzero (s : bytes) : Prop := Forall (λ c, c ≠ 0) s.

(** What a payload or a string becomes on its way into a message. *)
Definition clean (s : bytes) : bytes := sanitize_char <$> take 127 s.

(** The 128-byte text array that holds [s]. *)
Definition text_of (s : bytes) : bytes := s ++ replicate (128 - length s) 0.

Lemma sanitize_char_printable ch : 32 <= sanitize_char ch <= 126.
Proof.
  unfold sanitize_char, is_printable. destruct (Z.leb_spec 32 ch), (Z.leb_spec ch 126); simpl; lia.
Qed.

Lemma sanitize_char_idem ch : sanitize_char (sanitize_char ch) = sanitize_char ch.
Proof.
  pose proof (sanitize_char_printable ch). unfold sanitize_char at 1, is_printable.
  by rewrite (proj2 (Z.leb_le _ _)), (proj2 (Z.leb_le _ _)) by lia.
Qed.

Lemma clean_nonzero s : nonzero (clean s).
Proof.
  apply Forall_fmap, Forall_forall. intros c _. simpl. pose proof (sanitize_char_printable c). lia.
Qed.
Lemma clean_length s : length (clean s) = Nat.min 127 (length s).
Proof. unfold clean. by rewrite length_fmap, length_take. Qed.
Lemma clean_wf s : wf_bytes (clean s).
Proof.
  apply Forall_fmap, Forall_forall. intros c _. simpl. pose proof (sanitize_char_printable c). word_lia.
Qed.
Lemma clean_idem s : clean (clean s) = clean s.
Proof.
  unfold clean at 1. rewrite take_ge by (rewrite clean_length; lia). unfold clean.
  rewrite <- list_fmap_compose. apply list_fmap_ext. intros i c _. apply sanitize_char_idem.
Qed.

Lemma sanitize_payload_ok out payload :
  length out = 128%nat →
  sanitize_payload (Some out) payload (Z.of_nat (length payload)) =
    Some (Z.of_nat (length (clean payload)),
          Some (clean payload ++ 0 :: drop (S (length (clean payload))) out)).
Proof.
  intros Ho. unfold sanitize_payload, NET_CHAT_TEXT_SIZE.
  set (n := if Z.of_nat (length payload) <? 128 - 1 then _ else _).
  assert (n = Z.of_nat (length (clean payload))) as ->.
  { subst n. rewrite clean_length. destruct (Z.ltb_spec (Z.of_nat (length payload)) (128 - 1)); lia. }
  rewrite Nat2Z.id. pose proof (clean_length payload) as Hc.
  rewrite copy_bytes_ok by (rewrite ?length_fmap; lia). cbn [mbind option_bind].
  rewrite take_0, drop_0, app_nil_l, Nat.add_0_l.
  assert (take (length (clean payload)) (sanitize_char <$> payload) = clean payload) as ->.
  { unfold clean. rewrite length_fmap, length_take, fmap_take.
    destruct (decide (length payload <= 127)%nat).
    - rewrite !take_ge by (rewrite ?length_fmap; lia). done.
    - f_equal. lia. }
  rewrite store_n_ok by (rewrite length_app, length_drop; simpl; lia).
  cbn [mbind option_bind]. rewrite take_app_length. cbn [length app].
  rewrite drop_app, (drop_ge (clean payload)), drop_drop by lia. cbn [app].
  by replace (length (clean payload) + (length (clean payload) + 1 - length (clean payload)))%nat
    with (S (length (clean payload))) by lia.
Qed.

Lemma text_of_tail s : (length s <= 127)%nat → s ++ 0 :: replicate (127 - length s) 0 = text_of s.
Proof.
  intros Hl. unfold text_of. f_equal. by replace (128 - length s)%nat with (S (127 - length s)) by lia.
Qed.

(** The loop from position [length pre], with [done] bytes already written. *)
Lemma str_copy_ok f n s pre rest written out :
  nonzero s → length written = length pre →
  (Nat.min n (length s) <= length out)%nat →
  str_copy_loop f n (length pre) (written ++ out) (pre ++ s ++ 0 :: rest) =
    let m := Nat.min n (length s) in
    Some ((length pre + m)%nat, written ++ (f <$> take m s) ++ drop m out).
Proof.
  cbv zeta. intros Hs. revert s pre written out Hs. induction n as [|n IH]; intros s pre written out Hs Hw Hl.
  - simpl. by rewrite Nat.add_0_r.
  - cbn [str_copy_loop]. destruct s as [|c s].
    + cbn [app]. rewrite list_lookup_middle by done. cbn [mbind option_bind Z.eqb]. simpl. by rewrite Nat.add_0_r.
    + apply Forall_cons in Hs as [Hc Hs]. cbn [app]. rewrite list_lookup_middle by done.
      cbn [mbind option_bind]. rewrite (proj2 (Z.eqb_neq _ _)) by done.
      cbn [length Nat.min] in Hl. destruct out as [|o out]; [simpl in Hl; lia|].
      rewrite <- Hw. pose proof (store_n_app written [o] [f c] out eq_refl) as Hst.
      cbn [app] in Hst. rewrite Hst. cbn [mbind option_bind].
      specialize (IH s (pre ++ [c]) (written ++ [f c]) out Hs).
      rewrite !length_app, Hw in IH. cbn [length] in IH. rewrite Hw.
      replace (length pre + 1)%nat with (S (length pre)) in IH by lia.
      rewrite <- !app_assoc in IH. cbn [app] in IH. rewrite IH; [|lia|simpl in Hl; lia].
      cbn [length Nat.min take fmap list_fmap drop app]. do 2 f_equal. lia.
Qed.

Lemma str_copy_start f n s rest out :
  nonzero s → (Nat.min n (length s) <= length out)%nat →
  str_copy_loop f n 0 out (s ++ 0 :: rest) =
    let m := Nat.min n (length s) in Some (m, (f <$> take m s) ++ drop m out).
Proof. intros Hs Hl. by apply (str_copy_ok f n s [] rest [] out). Qed.

(** ** Rings of eight slots with positions kept modulo eight *)

Section ring8.
Context {T : Type} `{!Inhabited T}.
Implicit Types r : list T.

Lemma window_same_pos r c c' n : ring_pos c = ring_pos c' → window r c n = window r c' n.
Proof.
  revert c c'. induction n as [|n IH]; intros c c' H; simpl; [done|]. rewrite H. f_equal.
  apply IH. unfold ring_pos, VIRTIO_NET_QUEUE_SIZE in *. word_lia.
Qed.

Lemma next8_eq i : 0 <= i < 8 → next8 i = (i + 1) mod 8.
Proof. unfold next8, NET_CHAT_HISTORY_SIZE. word_lia. Qed.

Lemma push8 r c n w x :
  length r = 8%nat → (n < 8)%nat → 0 <= c < 8 → w = (c + Z.of_nat n) mod 8 →
  window (<[Z.to_nat w := x]> r) c (S n) = window r c n ++ [x].
Proof.
  intros Hr Hn Hc ->.
  rewrite <- (window_push r c (c + Z.of_nat n) n x Hr Hn eq_refl).
  do 2 f_equal.
Qed.

Lemma pop8 r c n :
  0 <= c < 8 → window r c (S n) = r !!! Z.to_nat c :: window r (next8 c) n.
Proof.
  intros Hc. simpl. f_equal.
  - unfold ring_pos, VIRTIO_NET_QUEUE_SIZE. by rewrite Z.mod_small by lia.
  - apply window_same_pos. rewrite next8_eq by done. unfold ring_pos, VIRTIO_NET_QUEUE_SIZE. word_lia.
Qed.

Lemma clear8 r c n x :
  0 <= c < 8 → (n < 8)%nat → window (<[Z.to_nat c := x]> r) (next8 c) n = window r (next8 c) n.
Proof.
  intros Hc Hn. apply window_insert_out. intros k Hk. rewrite next8_eq by done.
  unfold ring_pos, VIRTIO_NET_QUEUE_SIZE. word_lia.
Qed.
End ring8.

(** ** The inbox and the history *)

Definition unread (c : ChatState) : list ChatMessage :=
  window (g_inbox c) (g_inbox_read c) (Z.to_nat (g_inbox_count c)).

Definition history_start (c : ChatState) : Z :=
  if g_history_count c =? NET_CHAT_HISTORY_SIZE then g_history_next c else 0.
Definition recent (c : ChatState) : list ChatMessage :=
  window (g_history c) (history_start c) (Z.to_nat (g_history_count c)).

Record wf_chat (c : ChatState) : Prop := {
  wc_inbox : length (g_inbox c) = 8%nat;
  wc_history : length (g_history c) = 8%nat;
  wc_read : 0 <= g_inbox_read c < 8;
  wc_count : 0 <= g_inbox_count c <= 8;
  wc_write : g_inbox_write c = (g_inbox_read c + g_inbox_count c) mod 8;
  wc_next : 0 <= g_history_next c < 8;
  wc_hcount : 0 <= g_history_count c <= 8;
  wc_hnext : g_history_count c < 8 → g_history_next c = g_history_count c;
  wc_valid : Forall (λ m, cm_valid m = true) (recent c);
  wc_texts : Forall (λ m, ∃ s, (length s <= 127)%nat ∧ nonzero s ∧ cm_text m = text_of s) (unread c)
}.

(** A queue of eight that drops its oldest. *)
Definition keep8 {T} (q : list T) (x : T) : list T :=
  (if decide (length q = 8%nat) then drop 1 q else q) ++ [x].

Lemma unread_length c : wf_chat c → length (unread c) = Z.to_nat (g_inbox_count c).
Proof. intros _. apply window_length. Qed.

Lemma store_inbox c m :
  wf_chat c → unread (store_message_locked m c) = keep8 (unread c) m.
Proof.
  intros H. pose proof (unread_length c H) as Hlen. destruct H.
  unfold keep8. rewrite Hlen. unfold store_message_locked, NET_CHAT_HISTORY_SIZE. cbv zeta.
  set (c1 := if g_history_count _ <? 8 then _ else _).
  assert (g_inbox c1 = g_inbox c ∧ g_inbox_read c1 = g_inbox_read c ∧
    g_inbox_count c1 = g_inbox_count c ∧ g_inbox_write c1 = g_inbox_write c) as (E1 & E2 & E3 & E4).
  { subst c1. by case_match. }
  unfold unread. destruct (Z.eqb_spec (g_inbox_count c1) 8) as [Hf|Hf]; simpl;
    rewrite ?E1, ?E2, ?E3, ?E4 in *.
  - rewrite decide_True by lia. rewrite Hf in *.
    replace (Z.to_nat (u8 (u8 (8 - 1) + 1))) with 8%nat by done.
    rewrite next8_eq by done. rewrite (push8 _ _ 7) by (done || word_lia).
    change (Z.to_nat 8) with 8%nat. rewrite (pop8 (g_inbox c) (g_inbox_read c) 7) by done. cbn [drop].
    by rewrite next8_eq by done.
  - rewrite decide_False by lia.
    replace (Z.to_nat (u8 (g_inbox_count c + 1))) with (S (Z.to_nat (g_inbox_count c))) by word_lia.
    apply push8; [done|lia|done|]. rewrite Z2Nat.id by lia. done.
Qed.

Lemma store_history c m :
  wf_chat c → recent (store_message_locked m c) = keep8 (recent c) m.
Proof.
  intros H. destruct H. unfold keep8.
  assert (length (recent c) = Z.to_nat (g_history_count c)) as -> by apply window_length.
  unfold store_message_locked, NET_CHAT_HISTORY_SIZE. cbv zeta.
  set (c1 := if g_history_count _ <? 8 then _ else _).
  match goal with |- recent ?s = _ =>
    assert (g_history s = g_history c1 ∧ g_history_next s = g_history_next c1 ∧
      g_history_count s = g_history_count c1) as (E1 & E2 & E3) by by case_match end.
  unfold recent, history_start, NET_CHAT_HISTORY_SIZE. rewrite E1, E2, E3. subst c1. simpl.
  destruct (Z.ltb_spec (g_history_count c) 8) as [Hf|Hf]; simpl.
  - rewrite decide_False by lia. rewrite wc_hnext0 by done.
    rewrite (proj2 (Z.eqb_neq (g_history_count c) 8)) by lia. rewrite u8_id by word_lia.
    replace (if g_history_count c + 1 =? 8 then next8 (g_history_count c) else 0) with 0.
    + replace (Z.to_nat (g_history_count c + 1)) with (S (Z.to_nat (g_history_count c))) by lia.
      apply push8; [done|lia|lia|]. rewrite Z.mod_small; lia.
    + destruct (Z.eqb_spec (g_history_count c + 1) 8); [|done].
      by replace (g_history_count c) with 7 by lia.
  - assert (g_history_count c = 8) as Hc by lia. rewrite Hc in *. cbn [Z.eqb Pos.eqb].
    rewrite decide_True by done. change (Z.to_nat 8) with 8%nat.
    rewrite next8_eq by done. rewrite (push8 _ _ 7) by (done || word_lia).
    rewrite (pop8 (g_history c) (g_history_next c) 7) by done. cbn [drop]. by rewrite next8_eq by done.
Qed.

Lemma keep8_Forall {T} (P : T → Prop) q x : Forall P q → P x → Forall P (keep8 q x).
Proof.
  intros Hq Hx. unfold keep8. apply Forall_app. split; [|by constructor].
  case_decide; [by apply Forall_drop|done].
Qed.

Lemma store_wf c m s :
  wf_chat c → cm_valid m = true → (length s <= 127)%nat → nonzero s → cm_text m = text_of s →
  wf_chat (store_message_locked m c).
Proof.
  intros H Hv Hs Hnz Ht. pose proof (store_history c m H) as Hh. pose proof (store_inbox c m H) as Hi.
  assert (Forall (λ m, cm_valid m = true) (recent (store_message_locked m c))) as Hhv
    by (rewrite Hh; by apply keep8_Forall; [apply H|]).
  assert (Forall (λ m, ∃ s, (length s <= 127)%nat ∧ nonzero s ∧ cm_text m = text_of s)
    (unread (store_message_locked m c))) as Hiv
    by (rewrite Hi; apply keep8_Forall; [apply H|by exists s]).
  clear Hh Hi. destruct H. assert (0 <= g_inbox_write c < 8) by word_lia.
  constructor; try done; clear Hhv Hiv wc_valid0 wc_texts0;
    unfold store_message_locked, NET_CHAT_HISTORY_SIZE; cbv zeta; simpl;
    destruct (Z.ltb_spec (g_history_count c) 8); simpl;
    destruct (Z.eqb_spec (g_inbox_count c) 8) as [E|E]; simpl;
    rewrite ?length_insert, ?next8_eq by (done || lia); try done; try (rewrite wc_hnext0 by lia); word_lia.
Qed.

Lemma net_chat_reset_wf : wf_chat net_chat_reset ∧ unread net_chat_reset = [] ∧ recent net_chat_reset = [].
Proof. split; [|done]. constructor; simpl; try done; try lia; constructor. Qed.

Lemma chat_history_recent c : wf_chat c → net_chat_history c = recent c.
Proof.
  intros H. unfold net_chat_history. fold (history_start c).
  assert ((λ i, g_history c !!! Z.to_nat (u8 ((history_start c + i) mod NET_CHAT_HISTORY_SIZE)))
    <$> seqZ 0 (g_history_count c) = recent c) as ->; [|apply filter_Forall, H].
  unfold recent. destruct H. clear -wc_hcount0. generalize (history_start c) as st.
  intros st. remember (Z.to_nat (g_history_count c)) as n eqn:Hn.
  assert (g_history_count c = Z.of_nat n) as -> by lia. clear.
  revert st. unfold NET_CHAT_HISTORY_SIZE. induction n as [|n IH]; intros st; [done|].
  rewrite seqZ_cons by lia. rewrite fmap_cons. cbn [window]. f_equal.
  - f_equal. unfold ring_pos, VIRTIO_NET_QUEUE_SIZE. word_lia.
  - rewrite <- IH. replace (Z.pred (Z.of_nat (S n))) with (Z.of_nat n) by lia.
    change (Z.succ 0) with (1 + 0). rewrite <- fmap_add_seqZ, <- list_fmap_compose.
    apply list_fmap_ext. intros i x _. simpl. do 2 f_equal. word_lia.
Qed.

(** Receiving pops the oldest message and copies its text, cut to the buffer. *)
Lemma chat_recv_ok c out max_len :
  wf_chat c → 1 <= max_len <= Z.of_nat (length out) →
  match unread c with
  | [] => net_chat_recv (Some out) max_len c = Some (false, Some (0 :: drop 1 out), c)
  | m :: q => ∀ s, (length s <= 127)%nat → nonzero s → cm_text m = text_of s →
      let n := Nat.min (Z.to_nat (max_len - 1)) (length s) in
      ∃ c', net_chat_recv (Some out) max_len c =
              Some (true, Some (take n s ++ 0 :: drop (S n) out), c') ∧
        wf_chat c' ∧ unread c' = q ∧ recent c' = recent c
  end.
Proof.
  intros H Hm. pose proof (unread_length c H) as Hlen. unfold net_chat_recv.
  rewrite (proj2 (Z.eqb_neq max_len 0)) by lia.
  pose proof H as []. destruct (Z.eqb_spec (g_inbox_count c) 0) as [E|E].
  - destruct (unread c); [|simpl in Hlen; lia].
    rewrite store_n_ok by (simpl; lia). done.
  - assert (∃ n, Z.to_nat (g_inbox_count c) = S n ∧ (n < 8)%nat ∧ g_inbox_count c = Z.of_nat (S n))
      as (n & Hn & Hn8 & Hnz) by (exists (pred (Z.to_nat (g_inbox_count c))); lia).
    unfold unread in *. rewrite Hn in *. rewrite (pop8 _ _ n) in * by done.
    intros s Hs Hnz' Ht. rewrite Ht, <- (text_of_tail s Hs).
    rewrite str_copy_start by (done || lia). cbn [mbind option_bind].
    set (k := Nat.min _ (length s)). rewrite list_fmap_id.
    assert (length (take k s) = k) as Hk by (rewrite length_take; lia).
    rewrite store_n_ok by (rewrite length_app, length_drop, Hk; simpl; lia).
    cbn [mbind option_bind length]. rewrite take_app_length' by done.
    assert (drop (k + 1) (take k s ++ drop k out) = drop (S k) out) as ->.
    { rewrite drop_app, (drop_ge (take k s)), drop_drop by lia. simpl. f_equal. lia. }
    eexists. split; [reflexivity|].
    match goal with |- wf_chat ?c' ∧ _ =>
      assert (unread c' = window (g_inbox c) (next8 (g_inbox_read c)) n) as Hu end.
    { unfold unread. simpl. replace (Z.to_nat (u8 (g_inbox_count c - 1))) with n by word_lia.
      by apply clear8. }
    split; [|split; [exact Hu|done]].
    constructor; try done; try (rewrite Hu; by inversion wc_texts0); simpl;
      rewrite ?length_insert, ?next8_eq by done; try done; word_lia.
Qed.

(** ** The UDP handler *)

Lemma chat_message_ok src port payload :
  wf_addr 4 src →
  chat_message src port payload = Some (mkMessage true src port (text_of (clean payload))).
Proof.
  intros [Hs _]. unfold chat_message.
  rewrite copy_bytes_ok by (rewrite ?length_replicate; lia). cbn [mbind option_bind].
  rewrite take_0, drop_0, take_ge, drop_ge, app_nil_r by (rewrite ?length_replicate; lia).
  rewrite sanitize_payload_ok by done. cbn [mbind option_bind default].
  rewrite drop_replicate. pose proof (clean_length payload).
  replace (128 - S (length (clean payload)))%nat with (127 - length (clean payload))%nat by lia.
  change (id ?x) with x. by rewrite text_of_tail by lia.
Qed.

Lemma chat_udp_call src port payload (k : ChatKernel) :
  wf_addr 4 src →
  udp_call chat_udp_handler src port payload k =
    Some (k .[ k_app := store_message_locked (mkMessage true src port (text_of (clean payload))) (k_app k) ]).
Proof. intros Hs. unfold udp_call, chat_callbacks. by rewrite chat_message_ok. Qed.

#[export] Instance chat_callbacks_ok ok : UdpCallbacksOk (H:=KernelHandler) (A:=ChatState) ok.
Proof.
  intros [] src port payload k Hk Hs _ _. rewrite chat_udp_call by done.
  eexists. split; [reflexivity|]. by destruct Hk.
Qed.

Lemma chat_store_wf src port payload c :
  wf_chat c → wf_chat (store_message_locked (mkMessage true src port (text_of (clean payload))) c).
Proof.
  intros H. apply (store_wf _ _ (clean payload)); try done; [|apply clean_nonzero].
  rewrite clean_length. lia.
Qed.

(** ** Sending *)

Lemma sanitize_cstr_ok s rest :
  nonzero s →
  sanitize_cstr (Some (replicate 128 0)) (Some (s ++ 0 :: rest)) =
    Some (Z.of_nat (length (clean s)), Some (text_of (clean s))).
Proof.
  intros Hs. unfold sanitize_cstr. change (Z.to_nat (NET_CHAT_TEXT_SIZE - 1)) with 127%nat.
  rewrite str_copy_start by (try done; rewrite length_replicate; lia). cbv zeta.
  assert (Nat.min 127 (length s) = length (clean s)) as -> by (by rewrite clean_length).
  assert (sanitize_char <$> take (length (clean s)) s = clean s) as ->.
  { unfold clean. f_equal. rewrite length_fmap, length_take.
    destruct (decide (length s <= 127)%nat); [rewrite !take_ge by lia; done|f_equal; lia]. }
  pose proof (clean_length s). cbn [mbind option_bind].
  rewrite drop_replicate, store_n_ok by (rewrite length_app, length_replicate; simpl; lia).
  cbn [mbind option_bind length]. rewrite take_app_length, drop_app, (drop_ge (clean s)) by lia.
  rewrite drop_replicate. cbn [app]. rewrite <- text_of_tail by lia.
  by replace (128 - length (clean s) - (length (clean s) + 1 - length (clean s)))%nat
    with (127 - length (clean s))%nat by lia.
Qed.

(** Registering the chat port. *)
Lemma net_chat_init_ok (k : ChatKernel) :
  wf_table (g_udp_handlers k) → (net_chat_init k).1 = true →
  ∃ es, net_chat_init k = (true, k .[ g_udp_handlers := es ]) ∧ wf_table es ∧
    udp_lookup es NET_CHAT_PORT = Some chat_udp_handler.
Proof.
  intros Hwf Hok. unfold net_chat_init, udp_register in *.
  pose proof (udp_register_ok NET_CHAT_PORT (Some chat_udp_handler) _ Hwf) as H.
  destruct (udp_register_handler _ _ _) as [b es]. simpl in Hok. subst b.
  destruct H as (Hw & H1 & _). destruct (H1 eq_refl) as (_ & _ & Hl).
  exists es. split_and!; [done|done|]. by rewrite Hl, decide_True.
Qed.

Lemma net_chat_send_fake (k : ChatKernel) a dst s rest arp' mac :
  wf_kernel fake_ok k → fake_represents (k_nic k) a → wf_table (g_udp_handlers k) →
  (net_chat_init k).1 = true → wf_addr 4 dst → nonzero s → s ≠ [] →
  arp_cache_lookup (Some dst) (Some (replicate 6 0)) (k_arp k) = Some (true, Some mac, arp') →
  wf_addr 6 mac →
  ∃ es n', net_chat_send (Some dst) (Some (s ++ 0 :: rest)) k =
      Some (true, k .[ g_udp_handlers := es ] .[ k_arp := arp' ] .[ k_nic := n' ]) ∧
    emitted (ipv4_packet mac (g_my_mac k) (g_my_ip k) dst IPV4_PROTO_UDP
               (udp_bytes NET_CHAT_PORT NET_CHAT_PORT (clean s)))
      [RawTx; Ipv4Tx; UdpTx] a (k_nic k) n'.
Proof.
  intros Hk Ha Hwt Hinit Hd Hs Hne Hhit Hmac. unfold net_chat_send.
  destruct (net_chat_init_ok k Hwt Hinit) as (es & -> & Hwe & _). cbn [negb].
  rewrite sanitize_cstr_ok by done. cbn [mbind option_bind].
  pose proof (clean_length s) as Hcl.
  assert (length s ≠ 0%nat) by (by destruct s).
  rewrite (proj2 (Z.eqb_neq _ 0)) by lia.
  destruct (udp_send_to_fake (k .[ g_udp_handlers := es ]) a dst NET_CHAT_PORT NET_CHAT_PORT
    (text_of (clean s)) (Z.of_nat (length (clean s))) arp' mac) as (n' & Hsnd & He).
  - destruct Hk. constructor; try done. simpl. apply Hwe.
  - done.
  - done.
  - unfold NET_CHAT_PORT. lia.
  - unfold NET_CHAT_PORT. lia.
  - lia.
  - unfold text_of. rewrite length_app. lia.
  - done.
  - done.
  - exists es, n'. split; [exact Hsnd|]. rewrite Nat2Z.id in He. unfold text_of in He.
    by rewrite take_app_length in He.
Qed.

(** ** Sequences of deliveries and receptions *)

Inductive ChatOp :=
| OpDeliver (src : bytes) (port : Z) (payload : bytes)
| OpRecv (out : bytes) (max_len : Z).

Definition chat_op_ok (o : ChatOp) : Prop :=
  match o with
  | OpDeliver src _ _ => wf_addr 4 src
  | OpRecv out max_len => 1 <= max_len <= Z.of_nat (length out)
  end.

Definition run_chat1 (o : ChatOp) (c : ChatState) : option (bool * bytes * ChatState) :=
  match o with
  | OpDeliver src port payload =>
      m ← chat_message src port payload; Some (true, [], store_message_locked m c)
  | OpRecv out max_len =>
      '(b, out, c) ← net_chat_recv (Some out) max_len c; Some (b, default [] out, c)
  end.

(** The specification: a queue of at most eight sanitised texts. *)
Definition spec_chat1 (o : ChatOp) (q : list bytes) : bool * bytes * list bytes :=
  match o with
  | OpDeliver _ _ payload => (true, [], keep8 q (clean payload))
  | OpRecv out max_len =>
      match q with
      | [] => (false, 0 :: drop 1 out, [])
      | s :: q =>
          let n := Nat.min (Z.to_nat (max_len - 1)) (length s) in
          (true, take n s ++ 0 :: drop (S n) out, q)
      end
  end.

Fixpoint run_chat (os : list ChatOp) (c : ChatState) : option (list (bool * bytes) * ChatState) :=
  match os with
  | [] => Some ([], c)
  | o :: os' =>
      '(b, out, c) ← run_chat1 o c; '(l, c) ← run_chat os' c; Some ((b, out) :: l, c)
  end.

Fixpoint spec_chat (os : list ChatOp) (q : list bytes) : list (bool * bytes) * list bytes :=
  match os with
  | [] => ([], q)
  | o :: os' =>
      let '(b, out, q) := spec_chat1 o q in
      let '(l, q) := spec_chat os' q in ((b, out) :: l, q)
  end.

(** The texts the inbox holds. *)
Definition inbox_texts (c : ChatState) (q : list bytes) : Prop :=
  cm_text <$> unread c = text_of <$> q ∧ Forall (λ s, (length s <= 127)%nat ∧ nonzero s) q.

Lemma keep8_fmap {A B} (f : A → B) q x : f <$> keep8 q x = keep8 (f <$> q) (f x).
Proof.
  unfold keep8. rewrite fmap_app, length_fmap. f_equal. case_decide; [by rewrite fmap_drop|done].
Qed.

Lemma run_chat1_refines o c q :
  wf_chat c → inbox_texts c q → chat_op_ok o →
  let '(b, out, q') := spec_chat1 o q in
  ∃ c', run_chat1 o c = Some (b, out, c') ∧ wf_chat c' ∧ inbox_texts c' q' ∧
    recent c' = match o with
                | OpDeliver src port payload =>
                    keep8 (recent c) (mkMessage true src port (text_of (clean payload)))
                | OpRecv _ _ => recent c
                end.
Proof.
  intros Hwf [Hq Hall] Ho. destruct o as [src port payload|out max_len]; cbn [spec_chat1 run_chat1].
  - rewrite chat_message_ok by done. eexists. split; [reflexivity|].
    split; [by apply chat_store_wf|]. split; [|by apply store_history].
    split; [rewrite store_inbox by done; rewrite !keep8_fmap, Hq; done|].
    apply keep8_Forall; [done|]. split; [rewrite clean_length; lia|apply clean_nonzero].
  - pose proof (chat_recv_ok c out max_len Hwf Ho) as Hr.
    destruct (unread c) as [|m q0] eqn:Hu; destruct q as [|s q]; simplify_eq/=.
    + rewrite Hr. eexists. split; [reflexivity|]. split; [done|]. split; [|done]. split; [by rewrite Hu|done].
    + apply Forall_cons in Hall as [[Hs Hnz] Hall].
      destruct (Hr s Hs Hnz) as (c' & -> & Hw & Hu' & Hrec); [congruence|].
      eexists. split; [reflexivity|]. split; [done|]. split; [|done]. split; [congruence|done].
Qed.

Lemma run_chat_refines os c q :
  wf_chat c → inbox_texts c q → Forall chat_op_ok os →
  ∃ c', run_chat os c = Some (fst (spec_chat os q), c') ∧ wf_chat c' ∧
    inbox_texts c' (snd (spec_chat os q)).
Proof.
  intros Hwf Hq Hos. revert c q Hwf Hq. induction Hos as [|o os Ho _ IH]; intros c q Hwf Hq; [by exists c|].
  simpl. pose proof (run_chat1_refines o c q Hwf Hq Ho) as H.
  destruct (spec_chat1 o q) as [[b out] q']. destruct H as (c1 & -> & Hw & Hq1 & _).
  destruct (IH c1 q' Hw Hq1) as (c2 & H2 & Hw2 & Hq2). exists c2. cbn [mbind option_bind].
  rewrite H2. destruct (spec_chat os q'). done.
Qed.

(** From [net_chat_reset], any sequence of delivered messages and
    [net_chat_recv] calls behaves as a queue of sanitised texts (printable, at most 127 bytes) that
    holds eight and drops its oldest: every receive returns the oldest text, cut to
    the caller's buffer and terminated, and touches nothing outside it. *)
Theorem chat_inbox_refines os :
  Forall chat_op_ok os →
  ∃ c', run_chat os net_chat_reset = Some (fst (spec_chat os []), c') ∧ wf_chat c'.
Proof.
  intros Hos. destruct net_chat_reset_wf as (Hw & Hu & _).
  destruct (run_chat_refines os net_chat_reset [] Hw) as (c' & H1 & H2 & _); [|done|by exists c'].
  split; [by rewrite Hu|constructor].
Qed.

Lemma chat_inbox_refines_witness :
  let os := [OpDeliver [10; 0; 2; 2] 4390 [104; 200; 105]; OpRecv (replicate 3 255) 3; OpRecv [1; 1] 2] in
  (∃ c', run_chat os net_chat_reset = Some (fst (spec_chat os []), c') ∧ wf_chat c') ∧
  fst (spec_chat os []) = [(true, []); (true, [104; 46; 0]); (false, [0; 1])].
Proof.
  cbv zeta. split; [|reflexivity]. apply chat_inbox_refines.
  repeat apply Forall_cons_2; try apply Forall_nil_2; simpl;
    [wf_addr_const|lia|lia].
Defined.

(** What [net_chat_print_history] prints is the last eight messages
    delivered, oldest first, whatever was read from the inbox in between. *)
Theorem chat_history_keeps_last c src port payload :
  wf_chat c → wf_addr 4 src →
  ∃ m, chat_message src port payload = Some m ∧
    net_chat_history (store_message_locked m c) = keep8 (net_chat_history c) m ∧
    wf_chat (store_message_locked m c) ∧
    ∀ out max_len b o c', 1 <= max_len <= Z.of_nat (length out) →
      net_chat_recv (Some out) max_len c = Some (b, o, c') → net_chat_history c' = net_chat_history c.
Proof.
  intros Hw Hs. eexists. split; [by apply chat_message_ok|].
  pose proof (chat_store_wf src port payload c Hw) as Hw'.
  rewrite !chat_history_recent by done. split_and!; [by apply store_history|done|].
  intros out max_len b o c' Hm Hr. pose proof (chat_recv_ok c out max_len Hw Hm) as H.
  destruct (unread c) as [|m q] eqn:Hu.
  - rewrite H in Hr. injection Hr as <- <- <-. by apply chat_history_recent.
  - pose proof (wc_texts c Hw) as Ht. rewrite Hu in Ht. apply Forall_cons in Ht as [(s & Hs1 & Hs2 & Hs3) _].
    destruct (H s Hs1 Hs2 Hs3) as (c1 & H1 & Hw1 & _ & Hrec). rewrite H1 in Hr. injection Hr as <- <- <-.
    by rewrite chat_history_recent.
Qed.

Lemma chat_history_keeps_last_witness :
  ∃ m, chat_message [10; 0; 2; 2] 4390 [104; 105] = Some m ∧
    net_chat_history (store_message_locked m net_chat_reset) = [m].
Proof.
  destruct (chat_history_keeps_last net_chat_reset [10; 0; 2; 2] 4390 [104; 105]) as (m & Hm & Hh & _).
  - apply net_chat_reset_wf.
  - wf_addr_const.
  - exists m. split; [exact Hm|exact Hh].
Defined.
