(* ===== verification/EndToEnd.v ===== *)
(** * Two machines

    The theorems of the separate components composed: a chat message sent on one
    machine, carried as raw bytes, polled by the other and read back from its inbox. *)

From S2P Require Import Prelude NetStats ArpCache VirtioHw VirtioNet Wire NetSend Udp NetProto NetChat.

(** Polling hands the oldest frame of the fake NIC to the protocol code. *)
Lemma net_poll_once_fake (k : ChatKernel) a f q :
  fake_represents (k_nic k) a → fake_inbox a = f :: q → 1 <= Z.of_nat (length f) <= 2048 →
  ∃ n', fake_represents n' (mkFakeNet q (fake_last a)) ∧
    g_stats n' = net_stats_increment RawRx (g_stats (k_nic k)) ∧
    net_poll_once k =
      k ← net_handle_frame (f ++ replicate (2048 - length f) 0) (Z.of_nat (length f)) (k .[ k_nic := n' ]);
      Some (true, k).
Proof.
  intros Ha Hq Hl. unfold net_poll_once.
  pose proof (fake_recv_ok (k_nic k) a (replicate 2048 0) 2048 Ha) as H.
  unfold spec_recv in H. rewrite Hq in H. change (2048 =? 0) with false in H. cbv iota in H.
  rewrite (proj2 (Z.ltb_ge 2048 _)) in H by lia.
  destruct H as (n' & -> & Hr & _ & Hst); [rewrite length_replicate; lia|].
  exists n'. split; [done|]. rewrite bool_decide_eq_true_2 in Hst by lia. split; [done|].
  cbn [mbind option_bind]. rewrite (proj2 (Z.leb_gt _ _)) by lia.
  by rewrite drop_replicate.
Qed.

(** A UDP packet built by [net_send_ipv4] passes the receiver's checks. *)
Lemma ipv4_packet_for_me (k : ChatKernel) my_mac my_ip payload trailer :
  wf_addr 6 my_mac → wf_addr 4 my_ip → wf_addr 6 (g_my_mac k) → wf_addr 4 (g_my_ip k) →
  Z.of_nat (length payload) <= 2014 →
  ipv4_for_me k (mkEth (g_my_mac k) my_mac (bswap16 ETH_TYPE_IPV4))
    (out_ipv4 my_ip (g_my_ip k) IPV4_PROTO_UDP (Z.of_nat (length payload))) [] payload trailer
    (ipv4_packet (g_my_mac k) my_mac my_ip (g_my_ip k) IPV4_PROTO_UDP payload ++ trailer).
Proof.
  intros Hm Hi Hkm Hki Hl.
  assert (packed_wf (out_ipv4 my_ip (g_my_ip k) IPV4_PROTO_UDP (Z.of_nat (length payload)))) as Hwf.
  { apply out_ipv4_wf; [done|done|]. unfold IPV4_PROTO_UDP. word_lia. }
  constructor; try done.
  - unfold ipv4_packet. rewrite <- !app_assoc. done.
  - by apply eth_wf.
  - by constructor.
  - by left.
  - unfold out_ipv4. apply ipv4_seal_verifies; [|constructor|simpl; lia].
    destruct Hi, Hki. simpl. unfold IPV4_PROTO_UDP. split_and!; auto with words; word_lia.
  - unfold out_ipv4. cbn [total_length ipv4_seal set_field]. rewrite bswap16_invol by auto with words.
    rewrite u16_id by word_lia. done.
Qed.

Definition chat_text (src : bytes) (s : bytes) : ChatMessage :=
  mkMessage true src NET_CHAT_PORT (text_of (clean s)).

(** The receiver's side: a frame with a chat datagram ends in its inbox. *)
Lemma chat_receive (k : ChatKernel) a my_mac my_ip s :
  fake_represents (k_nic k) a → wf_table (g_udp_handlers k) → (net_chat_init k).1 = true →
  wf_chat (k_app k) →
  wf_addr 6 my_mac → wf_addr 4 my_ip → wf_addr 6 (g_my_mac k) → wf_addr 4 (g_my_ip k) →
  fake_inbox a = [ipv4_packet (g_my_mac k) my_mac my_ip (g_my_ip k) IPV4_PROTO_UDP
                    (udp_bytes NET_CHAT_PORT NET_CHAT_PORT (clean s))] →
  ∃ k', net_chat_poll k = Some (true, k') ∧ wf_chat (k_app k') ∧
    unread (k_app k') = keep8 (unread (k_app k)) (chat_text my_ip s) ∧
    recent (k_app k') = keep8 (recent (k_app k)) (chat_text my_ip s).
Proof.
  intros Ha Hwt Hinit Hchat Hm Hi Hkm Hki Hq. unfold net_chat_poll.
  destruct (net_chat_init_ok k Hwt Hinit) as (es & -> & Hwe & Hlk). cbn [negb].
  pose proof (clean_length s) as Hcl. pose proof (udp_bytes_length NET_CHAT_PORT NET_CHAT_PORT (clean s)) as Hul.
  set (u := udp_bytes NET_CHAT_PORT NET_CHAT_PORT (clean s)) in *.
  pose proof (ipv4_packet_length (g_my_mac k) my_mac my_ip (g_my_ip k) IPV4_PROTO_UDP u Hkm Hm Hi Hki
    ltac:(done)) as Hfl.
  set (f := ipv4_packet _ _ _ _ _ _) in *.
  set (k0 := k .[ g_udp_handlers := es ]).
  destruct (net_poll_once_fake k0 a f [] Ha Hq) as (n' & _ & _ & ->); [lia|].
  set (k1 := k0 .[ k_nic := n' ]).
  pose proof (ipv4_packet_for_me k1 my_mac my_ip u (replicate (2048 - length f) 0) Hm Hi Hkm Hki
    ltac:(lia)) as Hme.
  assert (ipv4_header_length (out_ipv4 my_ip (g_my_ip k) IPV4_PROTO_UDP (Z.of_nat (length u))) = 20) as H20
    by done.
  erewrite handle_ipv4_frame; [|exact Hme|].
  2: { simpl g_my_ip. rewrite H20, length_app, length_replicate. lia. }
  change (protocol _ =? IPV4_PROTO_UDP) with true. cbv iota.
  change (src_ip _) with my_ip. rewrite Hul, Nat2Z.inj_add.
  unfold u. rewrite (udp_handle_packet_dispatch _ my_ip NET_CHAT_PORT NET_CHAT_PORT (clean s) chat_udp_handler);
    [|done|unfold NET_CHAT_PORT; word_lia|unfold NET_CHAT_PORT; word_lia|lia|done].
  rewrite chat_udp_call by done. cbn [mbind option_bind]. rewrite clean_idem.
  eexists. split; [reflexivity|]. simpl k_app.
  split_and!; [by apply chat_store_wf|by apply store_inbox|by apply store_history].
Qed.

(** C1: A non-empty text sent by [net_chat_send] on one machine, once the
    receiver's address is in the sender's ARP cache, leaves as one frame; when that very
    frame reaches the receiver's NIC, one [net_chat_poll] puts the sanitised text,
    with the sender's address and port 4390, at the end of the receiver's inbox and history. *)
Theorem chat_delivery (ka kb : ChatKernel) aa ab s rest bindings :
  wf_kernel fake_ok ka → fake_represents (k_nic ka) aa → wf_table (g_udp_handlers ka) →
  wf_kernel fake_ok kb → fake_represents (k_nic kb) ab → wf_table (g_udp_handlers kb) →
  (net_chat_init ka).1 = true → (net_chat_init kb).1 = true →
  fake_inbox ab = [] → wf_chat (k_app kb) →
  wf_cache (k_arp ka) → represents (k_arp ka) bindings → lru_find (g_my_ip kb) bindings = Some (g_my_mac kb) →
  g_arp_cache_clock (k_arp ka) + 1 < 18446744073709551616 →
  nonzero s → s ≠ [] →
  ∃ ka' aa' f nb kb',
    net_chat_send (Some (g_my_ip kb)) (Some (s ++ 0 :: rest)) ka = Some (true, ka') ∧
    fake_represents (k_nic ka') aa' ∧ fake_last aa' = Some f ∧
    net_fake_inject_rx (Some f) (Z.of_nat (length f)) (k_nic kb) = Some (true, nb) ∧
    net_chat_poll (kb .[ k_nic := nb ]) = Some (true, kb') ∧ wf_chat (k_app kb') ∧
    unread (k_app kb') = keep8 (unread (k_app kb)) (chat_text (g_my_ip ka) s) ∧
    recent (k_app kb') = keep8 (recent (k_app kb)) (chat_text (g_my_ip ka) s).
Proof.
  intros Hka Haa Hta Hkb Hab Htb Hia Hib Hq Hchat Hwc Hrep Hfind Hclk Hs Hne.
  pose proof (arp_cache_lookup_refines (k_arp ka) bindings Hwc Hrep Hclk (g_my_ip kb) (wk_ip _ _ Hkb)
    (replicate 6 0) ltac:(done)) as Hhit.
  rewrite Hfind in Hhit. destruct Hhit as (arp' & Hhit & _).
  change (drop 6 (replicate 6 0)) with (@nil Z) in Hhit. rewrite app_nil_r in Hhit.
  destruct (net_chat_send_fake ka aa (g_my_ip kb) s rest arp' (g_my_mac kb)) as (es & na & Hsend & He & _);
    try done; [apply Hkb..|].
  set (f := ipv4_packet _ _ _ _ _ _) in *.
  assert (35 <= Z.of_nat (length f) <= 2048) as Hlen.
  { subst f. rewrite ipv4_packet_length by (apply Hkb || apply Hka || done).
    rewrite udp_bytes_length, clean_length. lia. }
  destruct (fake_inject_ok (k_nic kb) ab (Some f) (Z.of_nat (length f)) Hab) as (nb & Hinj & Hnb & _).
  { split; [lia|]. intros ? [= <-]. lia. }
  unfold spec_inject, legal_frame, VIRTIO_NET_MAX_FRAME_SIZE in Hinj, Hnb.
  rewrite (proj2 (Z.leb_le 1 _)), (proj2 (Z.leb_le _ 2048)) in Hinj, Hnb by lia.
  rewrite Hq in Hinj, Hnb. cbn [andb length] in Hinj, Hnb.
  rewrite decide_False in Hinj, Hnb by done. cbn [app fst snd] in Hinj, Hnb.
  rewrite Nat2Z.id, take_ge in Hnb by lia.
  set (kb1 := kb .[ k_nic := nb ]).
  destruct (chat_receive kb1 _ (g_my_mac ka) (g_my_ip ka) s Hnb Htb)
    as (kb' & Hpoll & Hw & Hu & Hh); try done; try apply Hkb; try apply Hka.
  { revert Hib. unfold net_chat_init, udp_register.
    change (g_udp_handlers kb1) with (g_udp_handlers kb).
    by destruct (udp_register_handler NET_CHAT_PORT (Some chat_udp_handler) (g_udp_handlers kb)). }
  eexists _, _, f, nb, kb'. split_and!; [exact Hsend|exact He|done|exact Hinj|exact Hpoll|done..].
Qed.

(** Two booted machines; the sender knows the receiver's address. *)
Definition sender : ChatKernel :=
  (boot_kernel net_chat_reset) .[ k_arp :=
    default arp_cache_reset (arp_cache_insert (Some peer_ip) (Some peer_mac) arp_cache_reset) ].
Definition receiver : ChatKernel :=
  (boot_kernel net_chat_reset) .[ g_my_mac := peer_mac ] .[ g_my_ip := peer_ip ].

Lemma sender_arp : wf_cache (k_arp sender) ∧ represents (k_arp sender) [(peer_ip, peer_mac)] ∧
  g_arp_cache_clock (k_arp sender) = 1.
Proof.
  destruct arp_cache_reset_represents as [Hw Hr].
  destruct (arp_cache_insert_refines arp_cache_reset [] Hw Hr ltac:(done) peer_ip ltac:(wf_addr_const)
    peer_mac eq_refl ltac:(repeat constructor; lia)) as (c & Hc & Hwc & Hrc).
  pose proof (arp_cache_insert_clock _ _ _ _ Hc) as Hk.
  change (k_arp sender) with
    (default arp_cache_reset (arp_cache_insert (Some peer_ip) (Some peer_mac) arp_cache_reset)).
  rewrite Hc. change (default arp_cache_reset (Some c)) with c.
  split_and!; [done|done|]. by rewrite Hk.
Qed.

Lemma chat_delivery_witness :
  ∃ ka' aa' f nb kb',
    net_chat_send (Some peer_ip) (Some [104; 105; 7; 0]) sender = Some (true, ka') ∧
    fake_represents (k_nic ka') aa' ∧ fake_last aa' = Some f ∧
    net_fake_inject_rx (Some f) (Z.of_nat (length f)) (k_nic receiver) = Some (true, nb) ∧
    net_chat_poll (receiver .[ k_nic := nb ]) = Some (true, kb') ∧ wf_chat (k_app kb') ∧
    unread (k_app kb') = keep8 [] (mkMessage true boot_ip 4390 (text_of [104; 105; 46])) ∧
    recent (k_app kb') = keep8 [] (mkMessage true boot_ip 4390 (text_of [104; 105; 46])).
Proof.
  destruct sender_arp as (Hw & Hr & Hc).
  apply (chat_delivery sender receiver (mkFakeNet [] None) (mkFakeNet [] None) [104; 105; 7] []
    [(peer_ip, peer_mac)]).
  - pose proof (boot_kernel_wf (H:=KernelHandler) net_chat_reset) as []. constructor; try done.
    apply wf_cache_shape, Hw.
  - exact boot_fake.
  - apply udp_clear_ok.
  - pose proof (boot_kernel_wf (H:=KernelHandler) net_chat_reset) as []. constructor; try done;
      wf_addr_const.
  - exact boot_fake.
  - apply udp_clear_ok.
  - reflexivity.
  - reflexivity.
  - reflexivity.
  - apply net_chat_reset_wf.
  - exact Hw.
  - exact Hr.
  - reflexivity.
  - rewrite Hc. reflexivity.
  - repeat constructor; discriminate.
  - discriminate.
Defined.

(** ** The sending interface, seen from the wire *)

Section sending.
Context {H A : Type}.
Implicit Types k : Kernel H A.

(** With the destination in the ARP cache, [net_send_ipv4] of up to 2014
    bytes emits one frame from which the receiver reads back the link addresses,
    the IPv4 fields and the payload, whose header checksum verifies; the counters [RawTx]
    and [Ipv4Tx] move and the binding becomes the most recently used. *)
Theorem net_send_ipv4_emits k a dst proto payload bindings mac :
  wf_kernel fake_ok k → fake_represents (k_nic k) a →
  wf_addr 4 dst → is_u8 proto → wf_bytes payload → Z.of_nat (length payload) <= 2014 →
  wf_cache (k_arp k) → represents (k_arp k) bindings →
  g_arp_cache_clock (k_arp k) + 1 < 18446744073709551616 →
  lru_find dst bindings = Some mac → wf_addr 6 mac →
  ∃ c n' f ip, net_send_ipv4 (Some dst) proto (Some payload) (Z.of_nat (length payload)) k =
      Some (true, k .[ k_arp := c ] .[ k_nic := n' ]) ∧
    emitted f [RawTx; Ipv4Tx] a (k_nic k) n' ∧ represents c (lru_touch dst bindings) ∧
    struct_at EthernetHeader f 0 = Some (mkEth mac (g_my_mac k) (bswap16 ETH_TYPE_IPV4)) ∧
    struct_at Ipv4Header f 14 = Some ip ∧ checksum_at f 14 20 = Some 0 ∧
    version_ihl ip = 69 ∧ protocol ip = proto ∧ src_ip ip = g_my_ip k ∧ dst_ip ip = dst ∧
    bswap16 (total_length ip) = 20 + Z.of_nat (length payload) ∧ drop 34 f = payload.
Proof.
  intros Hk Ha Hd Hp Hpl Hl Hwc Hrep Hclk Hfind Hmac.
  pose proof (arp_cache_lookup_refines (k_arp k) bindings Hwc Hrep Hclk dst Hd
    (replicate 6 0) ltac:(done)) as Hhit.
  rewrite Hfind in Hhit. destruct Hhit as (c & Hhit & _ & Hrc).
  change (drop 6 (replicate 6 0)) with (@nil Z) in Hhit. rewrite app_nil_r in Hhit.
  destruct (net_send_ipv4_fake k a dst proto payload c mac Hk Ha Hd Hp Hl Hhit Hmac) as (n' & Hs & He).
  set (ip := out_ipv4 (g_my_ip k) dst proto (Z.of_nat (length payload))).
  set (eth := mkEth mac (g_my_mac k) (bswap16 ETH_TYPE_IPV4)).
  assert (packed_wf eth) as Heth by (apply eth_wf; [done|apply Hk]).
  assert (packed_wf ip) as Hip by (apply out_ipv4_wf; [apply Hk|done|done]).
  pose proof (to_bytes_length eth Heth) as Hle. pose proof (to_bytes_length ip Hip) as Hli.
  eexists c, n', _, ip. split_and!; [exact Hs|exact He|done|..]; unfold ipv4_packet; fold ip eth.
  - by apply struct_at_first.
  - by apply struct_at_second.
  - rewrite sum_at by done. f_equal.
    pose proof (ipv4_seal_verifies (mkIpv4 69 0 (bswap16 (u16 (20 + Z.of_nat (length payload))))
      (bswap16 8738) 0 64 proto 0 (g_my_ip k) dst) []) as Hck.
    rewrite app_nil_r in Hck. apply Hck; [|constructor|simpl; lia].
    destruct (wk_ip _ _ Hk), Hd. simpl. split_and!; auto with words; word_lia.
  - done.
  - done.
  - done.
  - done.
  - unfold ip, out_ipv4. cbn [total_length ipv4_seal set_field].
    rewrite bswap16_invol, u16_id by (auto with words; word_lia). done.
  - rewrite app_assoc, drop_app_length'; [done|]. rewrite length_app. cbn [packed_size packed_eth packed_ipv4] in Hle, Hli. lia.
Qed.

End sending.

Lemma sender_wf : wf_kernel fake_ok sender.
Proof.
  destruct sender_arp as (Hw & _).
  pose proof (boot_kernel_wf (H:=KernelHandler) net_chat_reset) as []. constructor; try done.
  apply wf_cache_shape, Hw.
Qed.

Lemma net_send_ipv4_emits_witness :
  ∃ c n' f ip, net_send_ipv4 (Some peer_ip) 17 (Some [1; 2; 3]) 3 sender =
      Some (true, sender .[ k_arp := c ] .[ k_nic := n' ]) ∧
    emitted f [RawTx; Ipv4Tx] (mkFakeNet [] None) (k_nic sender) n' ∧
    represents c (lru_touch peer_ip [(peer_ip, peer_mac)]) ∧
    struct_at EthernetHeader f 0 = Some (mkEth peer_mac boot_mac (bswap16 ETH_TYPE_IPV4)) ∧
    struct_at Ipv4Header f 14 = Some ip ∧ checksum_at f 14 20 = Some 0 ∧
    version_ihl ip = 69 ∧ protocol ip = 17 ∧ src_ip ip = boot_ip ∧ dst_ip ip = peer_ip ∧
    bswap16 (total_length ip) = 23 ∧ drop 34 f = [1; 2; 3].
Proof.
  destruct sender_arp as (Hw & Hr & Hc).
  apply (net_send_ipv4_emits sender (mkFakeNet [] None) peer_ip 17 [1; 2; 3] [(peer_ip, peer_mac)] peer_mac).
  - exact sender_wf.
  - exact boot_fake.
  - wf_addr_const.
  - unfold is_u8. lia.
  - repeat constructor; lia.
  - simpl. lia.
  - exact Hw.
  - exact Hr.
  - rewrite Hc. reflexivity.
  - reflexivity.
  - wf_addr_const.
Defined.

(** Without a binding for the destination, [net_send_ipv4] reports failure
    and the only frame sent is an ARP request for it; nothing else of the state changes. *)
Theorem net_send_ipv4_resolves {H A : Type} (k : Kernel H A) a dst proto payload len bindings :
  wf_kernel fake_ok k → fake_represents (k_nic k) a → wf_addr 4 dst →
  0 <= len <= 2014 → wf_cache (k_arp k) → represents (k_arp k) bindings →
  g_arp_cache_clock (k_arp k) + 1 < 18446744073709551616 → lru_find dst bindings = None →
  ∃ n', net_send_ipv4 (Some dst) proto (Some payload) len k = Some (false, k .[ k_nic := n' ]) ∧
    emitted (arp_request_bytes (g_my_mac k) (g_my_ip k) dst) [RawTx; ArpTx] a (k_nic k) n'.
Proof.
  intros Hk Ha Hd Hl Hwc Hrep Hclk Hfind.
  pose proof (arp_cache_lookup_refines (k_arp k) bindings Hwc Hrep Hclk dst Hd
    (replicate 6 0) ltac:(done)) as Hmiss. rewrite Hfind in Hmiss.
  rewrite (net_send_ipv4_miss dst proto (Some payload) len k (k_arp k) _ Hl) by done.
  set (k1 := k .[ k_arp := k_arp k ]).
  destruct (arp_request_fake k1 a dst) as (n' & -> & He); [by destruct Hk|done..|].
  exists n'. split; [|done]. done.
Qed.

Lemma net_send_ipv4_resolves_witness :
  let k := boot_kernel (H:=KernelHandler) net_chat_reset in
  ∃ n', net_send_ipv4 (Some peer_ip) 17 (Some [1; 2; 3]) 3 k = Some (false, k .[ k_nic := n' ]) ∧
    emitted (arp_request_bytes boot_mac boot_ip peer_ip) [RawTx; ArpTx] (mkFakeNet [] None) (k_nic k) n'.
Proof.
  intros k. apply (net_send_ipv4_resolves k (mkFakeNet [] None) peer_ip 17 [1; 2; 3] 3 []).
  - apply boot_kernel_wf.
  - exact boot_fake.
  - wf_addr_const.
  - lia.
  - apply arp_cache_reset_represents.
  - apply arp_cache_reset_represents.
  - reflexivity.
  - reflexivity.
Defined.

(** A UDP datagram in a packet that passes the Ethernet and IPv4 checks
    reaches the handler registered for its destination port, which gets the packet's source
    address, the source port and exactly the payload. *)
Theorem udp_reaches_handler {H A : Type} `{!UdpCallbacks H A} (k : Kernel H A) eth ip opts sp dp payload
    trailer data h :
  ipv4_for_me k eth ip opts (udp_bytes sp dp payload) trailer data →
  protocol ip = IPV4_PROTO_UDP → is_u16 sp → is_u16 dp → Z.of_nat (length payload) <= 65000 →
  udp_lookup (g_udp_handlers k) dp = Some h →
  net_handle_frame data (Z.of_nat (length data)) k =
    udp_call h (src_ip ip) sp payload (count UdpRx (count Ipv4Rx k)).
Proof.
  intros Hme Hproto Hsp Hdp Hl Hh.
  rewrite (handle_ipv4_frame _ _ _ _ _ _ _ _ Hme), Hproto by (apply (ipv4_for_me_length _ _ _ _ _ _ _ Hme)).
  change (IPV4_PROTO_UDP =? IPV4_PROTO_UDP) with true. cbv iota.
  rewrite udp_bytes_length, Nat2Z.inj_add.
  rewrite (udp_handle_packet_dispatch _ _ sp dp payload h trailer); try done; try lia.
  - by destruct (udp_call _ _ _ _ _).
  - pose proof (im_ip _ _ _ _ _ _ _ Hme) as Hip. simpl in Hip. destruct_and?. by split.
Qed.

Lemma udp_reaches_handler_witness :
  let k := snd (net_chat_init (boot_kernel net_chat_reset)) in
  let body := udp_bytes 7 4390 [104; 105] in
  let ip := example_ip IPV4_PROTO_UDP 10 in
  let data := to_bytes example_eth ++ to_bytes ip ++ body in
  net_handle_frame data 44 k =
    udp_call chat_udp_handler peer_ip 7 [104; 105] (count UdpRx (count Ipv4Rx k)).
Proof.
  intros k body ip data.
  apply (udp_reaches_handler k example_eth ip [] 7 4390 [104; 105] [] data chat_udp_handler).
  - destruct (example_for_me (H:=KernelHandler) net_chat_reset IPV4_PROTO_UDP body) as [];
      [unfold is_u8, IPV4_PROTO_UDP; lia|vm_compute; discriminate|]. constructor; assumption.
  - reflexivity.
  - unfold is_u16. lia.
  - unfold is_u16. lia.
  - simpl. lia.
  - reflexivity.
Defined.
