(* ===== verification/Heap.v ===== *)
(** * The kernel heap ([heap.cc])

    A boundary-tag allocator: the heap is an array of 64-bit words tiled by
    blocks, each with its size in its first and last word and the lowest bit of
    both set when it is taken; the available blocks are on a doubly linked list
    threaded through their second and third words.  [malloc] is a bounded
    best-fit search, [free] merges with both neighbours. *)

From stdpp Require Import gmap.
From S2P Require Import Prelude.

(** ** State: the static variables of [namespace impl]

    [array_base] is the address in the pointer [array], [array] the words it
    points to. *)
Record Heap := mkHeap {
  array_base : Z;
  array : list Z;
  len : Z;
  safe : bool;
  avail : Z;
  n_malloc : Z;
  n_free : Z;
  n_leak : Z;
}.

#[export] Instance eta_Heap : Eta Heap := fun h =>
  mkHeap (array_base h) (array h) (len h) (safe h) (avail h) (n_malloc h) (n_free h) (n_leak h).

Definition isTaken (i : Z) (h : Heap) : option bool :=
  v ← rd (array h) i; Some (negb (Z.land v 1 =? 0)).
Definition isAvail (i : Z) (h : Heap) : option bool :=
  v ← rd (array h) i; Some (Z.land v 1 =? 0).
Definition size (i : Z) (h : Heap) : option Z :=
  v ← rd (array h) i; Some (Z.land v 18446744073709551614).

Definition headerFromFooter (i : Z) (h : Heap) : option Z :=
  s ← size i h; Some (u64 (i - s + 1)).
Definition footerFromHeader (i : Z) (h : Heap) : option Z :=
  s ← size i h; Some (u64 (i + s - 1)).

(** A failed check stops the machine. *)
Definition sanity (i : Z) (h : Heap) : option Z :=
  if safe h then
    if i =? 0 then Some 0
    else if len h <=? i then None
    else
      footer ← footerFromHeader i h;
      if len h <=? footer then None
      else
        hv ← rd (array h) i;
        fv ← rd (array h) footer;
        if hv =? fv then Some i else None
  else Some i.

Definition left (i : Z) (h : Heap) : option Z :=
  x ← headerFromFooter (u64 (i - 1)) h; sanity x h.
Definition right (i : Z) (h : Heap) : option Z :=
  s ← size i h; sanity (u64 (i + s)) h.
Definition next (i : Z) (h : Heap) : option Z :=
  v ← rd (array h) (u64 (i + 1)); sanity v h.
Definition prev (i : Z) (h : Heap) : option Z :=
  v ← rd (array h) (u64 (i + 2)); sanity v h.

Definition write (i v : Z) (h : Heap) : option Heap :=
  a ← wr (array h) i v; Some (h .[ array := a ]).
Definition setNext (i x : Z) (h : Heap) : option Heap := write (u64 (i + 1)) x h.
Definition setPrev (i x : Z) (h : Heap) : option Heap := write (u64 (i + 2)) x h.

Definition remove (i : Z) (h : Heap) : option Heap :=
  prevIndex ← prev i h;
  nextIndex ← next i h;
  h ← (if prevIndex =? 0 then Some (h .[ avail := nextIndex ]) else setNext prevIndex nextIndex h);
  if nextIndex =? 0 then Some h else setPrev nextIndex prevIndex h.

Definition makeAvail (i entry_count : Z) (h : Heap) : option Heap :=
  if negb (Z.land entry_count 1 =? 0) then None
  else
    h ← write i entry_count h;
    footer ← footerFromHeader i h;
    h ← write footer entry_count h;
    h ← setNext i (avail h) h;
    h ← setPrev i 0 h;
    h ← (if avail h =? 0 then Some h else setPrev (avail h) i h);
    Some (h .[ avail := i ]).

Definition makeTaken (i entry_count : Z) (h : Heap) : option Heap :=
  if negb (Z.land entry_count 1 =? 0) then None
  else
    h ← write i (u64 (entry_count + 1)) h;
    footer ← footerFromHeader i h;
    write footer (u64 (entry_count + 1)) h.

(** [check_leaks] prints a warning when this is true. *)
Definition check_leaks (h : Heap) : bool := negb (u64 (n_free h + n_leak h) =? n_malloc h).

(** [leak(p, flag)]: the pointer it returns is its argument. *)
Definition leak (flag : bool) (h : Heap) : Heap :=
  if flag then h .[ n_leak := u64 (n_leak h + 1) ] else h.

(** [contents i] is the word at index [i] before the heap is set up. *)
Definition init (base nbytes : Z) (contents : Z → Z) (h : Heap) : option Heap :=
  let alignedBase := u64 (u64 (base + 8 + 15) / 16 * 16 - 8) in
  if negb (alignedBase mod 16 =? 8) then None
  else if alignedBase <? base then None
  else
    let delta := alignedBase - base in
    if 16 <=? delta then None
    else if nbytes <? delta then None
    else
      let nbytes := (nbytes - delta) / 16 * 16 in
      if nbytes <=? 64 then None
      else
        let n := nbytes / 8 in
        let h := h .[ array_base := alignedBase ] .[ array := contents <$> seqZ 0 n ] .[ len := n ] in
        h ← makeTaken 0 2 h;
        h ← makeAvail 2 (n - 4) h;
        makeTaken (n - 2) 2 h.

(** The search loop: [None] also stands for a walk longer than [fuel]. *)
Fixpoint best_fit (fuel : nat) (entries p countDown mx it : Z) (h : Heap) : option (Z * Z) :=
  if p =? 0 then Some (mx, it)
  else match fuel with
  | O => None
  | S fuel =>
      taken ← isTaken p h;
      if taken : bool then None
      else
        sz ← size p h;
        if entries <=? sz then
          let mx' := if sz <? mx then sz else mx in
          let it' := if sz <? mx then p else it in
          let countDown := countDown - 1 in
          if (countDown =? 0) || (sz =? entries) then Some (mx', it')
          else p ← next p h; best_fit fuel entries p countDown mx' it' h
        else p ← next p h; best_fit fuel entries p countDown mx it h
  end.

(** The number of words asked for, tags included. *)
Definition entries_for (nbytes : Z) : Z :=
  let entries := u64 (u64 (nbytes + 7) / 8 + 2) in
  let entries := if entries <? 4 then 4 else entries in
  if Z.land entries 1 =? 0 then entries else u64 (entries + 1).

(** The address of [array[i]]. *)
Definition address_of (i : Z) (h : Heap) : Z := u64 (array_base h + 8 * i).

(** Taking the block [it] of [mx] words off the list and splitting it when
    enough words are left. *)
Definition carve (it mx entries : Z) (h : Heap) : option Heap :=
  h ← remove it h;
  let extra := i32 (mx - entries) in
  if 4 <=? extra then
    h ← makeTaken it entries h; makeAvail (u64 (it + entries)) (u64 extra) h
  else makeTaken it mx h.

Definition malloc (nbytes : Z) (h : Heap) : option (Z * Heap) :=
  if nbytes =? 0 then Some (array_base h, h)
  else
    let entries := entries_for nbytes in
    '(mx, it) ← best_fit (length (array h)) entries (avail h) 20 18446744073709551615 0 h;
    if it =? 0 then Some (0, h)
    else
      h ← carve it mx entries h;
      let res := address_of (it + 1) h in
      Some (res, if res =? 0 then h else h .[ n_malloc := u64 (n_malloc h + 1) ]).

(** Taking a neighbour off the list and adding its size. *)
Definition absorb (neighbour sz : Z) (h : Heap) : option (Z * Heap) :=
  h ← remove (u64 neighbour) h;
  s ← size (u64 neighbour) h;
  Some (i32 (u64 sz + s), h).

Definition free (p : Z) (h : Heap) : option Heap :=
  if p =? 0 then Some h
  else if p =? array_base h then Some h
  else
    let h := h .[ n_free := u64 (n_free h + 1) ] in
    let idx := i32 (u64 (u64 (p - array_base h) / 8 - 1)) in
    _ ← sanity (u64 idx) h;
    _ ← isAvail (u64 idx) h;
    s ← size (u64 idx) h;
    let sz := i32 s in
    leftIndex ← left (u64 idx) h;
    let leftIndex := i32 leftIndex in
    rightIndex ← right (u64 idx) h;
    let rightIndex := i32 rightIndex in
    l ← isAvail (u64 leftIndex) h;
    '(idx, sz, h) ←
      (if l : bool then '(sz, h) ← absorb leftIndex sz h; Some (leftIndex, sz, h)
       else Some (idx, sz, h));
    r ← isAvail (u64 rightIndex) h;
    '(sz, h) ← (if r : bool then absorb rightIndex sz h else Some (sz, h));
    makeAvail (u64 idx) (u64 sz) h.

(** [operator new]: running out of memory stops the machine. *)
Definition operator_new (nbytes : Z) (h : Heap) : option (Z * Heap) :=
  '(p, h) ← malloc nbytes h; if p =? 0 then None else Some (p, h).
Definition operator_delete (p : Z) (h : Heap) : option Heap := free p h.

(** The kernel's stores through a pointer [malloc] returned. *)
Definition poke (p k v : Z) (h : Heap) : option Heap :=
  write (u64 (p - array_base h) / 8 + k) v h.

Definition heap_zero : Heap := mkHeap 0 [] 0 false 0 0 0 0.

Example heap_demo :
  (h ← init 4096 4096 (λ i, i) heap_zero;
   '(p, h) ← malloc 24 h;
   '(q, h) ← malloc 100 h;
   '(r, h) ← malloc 1 h;
   h ← free q h; h ← free p h; h ← free r h;
   Some (p, q, r, rd (array h) 2, avail h, n_malloc h, n_free h)) =
  Some (4128, 4176, 4304, Some 506, 2, 3, 3).
Proof. vm_compute. reflexivity. Qed.

(** ** Tilings

    A tiling is the list of the blocks' sizes and taken flags in address
    order; [spans] gives each block its first index. *)

Abbreviation block := (Z * bool)%type (only parsing).

Fixpoint spans (p : Z) (bs : list block) : list (Z * Z * bool) :=
  match bs with
  | [] => []
  | (s, t) :: bs' => (p, s, t) :: spans (p + s) bs'
  end.

Fixpoint total (bs : list block) : Z :=
  match bs with [] => 0 | (s, _) :: bs' => s + total bs' end.

Definition wf_block (b : block) : Prop :=
  b.1 mod 2 = 0 ∧ 2 <= b.1 ∧ (b.2 = false → 4 <= b.1).

(** No two neighbours are both available. *)
Fixpoint separated (ts : list bool) : Prop :=
  match ts with
  | t :: ts' => (match ts' with t' :: _ => t || t' = true | [] => True end) ∧ separated ts'
  | [] => True
  end.

Lemma spans_app p l1 l2 : spans p (l1 ++ l2) = spans p l1 ++ spans (p + total l1) l2.
Proof.
  revert p. induction l1 as [|[s t] l1 IH]; intros p; simpl.
  - by rewrite Z.add_0_r.
  - by rewrite IH, Z.add_assoc.
Qed.
Lemma total_app l1 l2 : total (l1 ++ l2) = total l1 + total l2.
Proof. induction l1 as [|[s t] l1 IH]; simpl; lia. Qed.
Lemma total_nonneg l : Forall wf_block l → 0 <= total l.
Proof. induction 1 as [|[s t] l [_ [Hs _]] _ IH]; simpl in *; lia. Qed.

Lemma spans_bounds p bs i s t :
  Forall wf_block bs → (i, s, t) ∈ spans p bs →
  p <= i ∧ i + s <= p + total bs ∧ wf_block (s, t) ∧ (i - p) mod 2 = 0.
Proof.
  intros Hb. revert p. induction Hb as [|[s0 t0] bs Hw Hb IH]; intros p; simpl; [by intros ?%not_elem_of_nil|].
  pose proof (total_nonneg _ Hb). destruct Hw as (Hm & H2 & Hf). simpl in *.
  intros [[= -> -> ->]|(?&?&?&?)%IH]%elem_of_cons.
  - split_and!; [lia..|by split_and!|by rewrite Z.sub_diag].
  - split_and!; [lia..|done|word_lia].
Qed.

Lemma spans_disjoint p bs i s t i' s' t' :
  Forall wf_block bs → (i, s, t) ∈ spans p bs → (i', s', t') ∈ spans p bs →
  (i = i' ∧ s = s' ∧ t = t') ∨ i + s <= i' ∨ i' + s' <= i.
Proof.
  intros Hb. revert p. induction Hb as [|[s0 t0] bs Hw Hb IH]; intros p; simpl; [by intros ?%not_elem_of_nil|].
  intros [[= -> -> ->]|H1]%elem_of_cons [[= -> -> ->]|H2]%elem_of_cons.
  - by left.
  - apply spans_bounds in H2 as (?&?&?&?); [lia|done].
  - apply spans_bounds in H1 as (?&?&?&?); [lia|done].
  - eauto.
Qed.

Lemma spans_split p bs i s t :
  (i, s, t) ∈ spans p bs → ∃ l1 l2, bs = l1 ++ (s, t) :: l2 ∧ i = p + total l1.
Proof.
  revert p. induction bs as [|[s0 t0] bs IH]; intros p; simpl; [by intros ?%not_elem_of_nil|].
  intros [[= -> -> ->]|(l1&l2&->&->)%IH]%elem_of_cons.
  - exists [], bs. split; [done|simpl; lia].
  - exists ((s0, t0) :: l1), l2. split; [done|simpl; lia].
Qed.
Lemma spans_mid p l1 s t l2 : (p + total l1, s, t) ∈ spans p (l1 ++ (s, t) :: l2).
Proof. rewrite spans_app. apply elem_of_app. right. by left. Qed.

Lemma separated_app ts1 t ts2 :
  separated (ts1 ++ t :: ts2) ↔ separated (ts1 ++ [t]) ∧ separated (t :: ts2).
Proof.
  induction ts1 as [|t1 ts1 IH]; simpl; [naive_solver|].
  destruct ts1; simpl in *; naive_solver.
Qed.
Lemma separated_snoc_taken ts t : separated (ts ++ [t]) → separated (ts ++ [true]).
Proof.
  induction ts as [|t1 ts IH]; simpl; [naive_solver|].
  destruct ts; simpl in *; [|naive_solver]. intros _. by rewrite orb_true_r.
Qed.

(** ** Tags and links in memory *)

Definition tag (a : list Z) (i s : Z) (t : bool) : Prop :=
  rd a i = Some (s + Z.b2z t) ∧ rd a (i + s - 1) = Some (s + Z.b2z t).

(** A segment of the list of available blocks, with the link that comes
    before it and the one that comes after. *)
Fixpoint dseg (a : list Z) (p : Z) (l : list Z) (n : Z) : Prop :=
  match l with
  | [] => True
  | i :: l' => rd a (i + 1) = Some (default n (head l')) ∧ rd a (i + 2) = Some p ∧ dseg a i l' n
  end.

Lemma dseg_app a p l1 l2 n :
  dseg a p (l1 ++ l2) n ↔
  dseg a p l1 (default n (head l2)) ∧ dseg a (default p (last l1)) l2 n.
Proof.
  revert p. induction l1 as [|i l1 IH]; intros p; [simpl; naive_solver|].
  simpl app. cbn [dseg]. rewrite IH.
  assert (default p (last (i :: l1)) = default i (last l1)) as ->.
  { destruct l1 as [|j l1]; [done|]. rewrite last_cons_cons.
    destruct (last (j :: l1)) eqn:E; [done|]. by apply last_None in E. }
  destruct l1; simpl; naive_solver.
Qed.

Lemma dseg_frame a a' p l n :
  dseg a p l n → (∀ i, i ∈ l → rd a' (i + 1) = rd a (i + 1) ∧ rd a' (i + 2) = rd a (i + 2)) →
  dseg a' p l n.
Proof.
  revert p. induction l as [|i l IH]; intros p; simpl; [done|].
  intros (Hn & Hp & Hl) Hf. destruct (Hf i) as [-> ->]; [by left|]. split_and!; try done.
  apply IH; [done|]. intros j Hj. apply Hf. by right.
Qed.

(** The members of the list of available blocks keep their distance. *)
Definition apart (n : Z) (l : list Z) : Prop :=
  (∀ i, i ∈ l → 2 <= i ∧ i + 4 <= n) ∧
  (∀ i j, i ∈ l → j ∈ l → i ≠ j → i + 4 <= j ∨ j + 4 <= i).

(** Indices that hold no link of a member of [l]. *)
Definition no_link (l : list Z) (j : Z) : Prop := ∀ i, i ∈ l → j ≠ i + 1 ∧ j ≠ i + 2.

(** The words outside the links of [l] are the same. *)
Definition same_but_links (l : list Z) (a a' : list Z) : Prop :=
  length a' = length a ∧ ∀ j, no_link l j → rd a' j = rd a j.

(** ** Reading tags *)

Lemma clear_tag s t :
  s mod 2 = 0 → 0 <= s < 2 ^ 63 → Z.land (s + Z.b2z t) 18446744073709551614 = s.
Proof.
  intros He Hs. change (2 ^ 63) with 9223372036854775808 in Hs. rewrite (clear_low64 _ 1); [|destruct t; simpl; word_lia|lia|done].
  change (2 ^ 1) with 2. destruct t; simpl; word_lia.
Qed.
Lemma tag_bit s t : s mod 2 = 0 → Z.land (s + Z.b2z t) 1 = Z.b2z t.
Proof.
  intros He. rewrite (land_ones_mod _ 1) by done. change (2 ^ 1) with 2.
  destruct t; simpl; word_lia.
Qed.

Section ReadTags.
Context (h : Heap) (i s : Z) (t : bool).
Context (Hw : wf_block (s, t)) (Hs : s < 2 ^ 31).

Lemma size_ok : rd (array h) i = Some (s + Z.b2z t) → size i h = Some s.
Proof using Hw Hs.
  intros E. unfold size. rewrite E. pose proof Hw as (He & Hlo & _). cbn in *.
  rewrite clear_tag; [done|exact He|]. split; [lia|]. apply Z.lt_trans with (2 ^ 31); [done|reflexivity].
Qed.
Lemma isTaken_ok : rd (array h) i = Some (s + Z.b2z t) → isTaken i h = Some t.
Proof using Hw.
  intros E. unfold isTaken. rewrite E. simpl. destruct Hw as (? & ? & _).
  rewrite tag_bit by done. by destruct t.
Qed.
Lemma isAvail_ok : rd (array h) i = Some (s + Z.b2z t) → isAvail i h = Some (negb t).
Proof using Hw.
  intros E. unfold isAvail. rewrite E. simpl. destruct Hw as (? & ? & _).
  rewrite tag_bit by done. by destruct t.
Qed.
Lemma sanity_ok : tag (array h) i s t → 0 <= i → i + s <= len h → len h < 2 ^ 31 → sanity i h = Some i.
Proof using Hw Hs.
  intros [E1 E2] Hi Hl Hn. unfold sanity. destruct (safe h); [|done].
  destruct (Z.eqb_spec i 0) as [->|]; [done|]. destruct Hw as (? & ? & _). simpl in *.
  rewrite (proj2 (Z.leb_gt _ _)) by lia.
  unfold footerFromHeader. rewrite size_ok by done. simpl. rewrite u64_id by word_lia.
  rewrite (proj2 (Z.leb_gt _ _)) by lia. by rewrite E1, E2; simpl; rewrite Z.eqb_refl.
Qed.
End ReadTags.

Lemma sanity_zero h : sanity 0 h = Some 0.
Proof. unfold sanity. by destruct (safe h). Qed.

Lemma write_ok i v h :
  0 <= i < Z.of_nat (length (array h)) → write i v h = Some (h .[ array := <[Z.to_nat i := v]> (array h) ]).
Proof. intros. unfold write. by rewrite wr_ok. Qed.

(** ** The list of available blocks *)

Lemma apart_perm n l1 l2 : apart n l2 → (∀ i, i ∈ l1 → i ∈ l2) → apart n l1.
Proof. intros [H1 H2] Hs. split; naive_solver. Qed.

Lemma dseg_set_next a p f q n n' m :
  Z.of_nat (length a) = m → apart m (f ++ [q]) → q ∉ f →
  dseg a p (f ++ [q]) n → dseg (<[Z.to_nat (q + 1) := n']> a) p (f ++ [q]) n'.
Proof.
  intros Hm Ha Hq [Hf (_ & Hp & _)]%dseg_app. destruct Ha as [Hb Hd].
  destruct (Hb q); [set_solver|].
  apply dseg_app. split.
  - eapply dseg_frame; [exact Hf|]. intros i Hi.
    destruct (Hd i q); [set_solver..|by intros ->| |];
      rewrite !rd_insert_ne by lia; done.
  - simpl. rewrite rd_insert_eq, rd_insert_ne by lia. by rewrite Hp.
Qed.

Lemma dseg_set_prev a p p' f r n m :
  Z.of_nat (length a) = m → apart m (r :: f) → r ∉ f →
  dseg a p (r :: f) n → dseg (<[Z.to_nat (r + 2) := p']> a) p' (r :: f) n.
Proof.
  intros Hm Ha Hq (Hn & _ & Hf). destruct Ha as [Hb Hd].
  destruct (Hb r); [by left|]. simpl. rewrite rd_insert_eq, rd_insert_ne by lia.
  split_and!; [done..|].
  eapply dseg_frame; [exact Hf|]. intros i Hi.
  destruct (Hd i r); [set_solver..|by intros ->| |]; rewrite !rd_insert_ne by lia; done.
Qed.

(** A write to a link of [q] leaves the segments without [q] alone. *)
Lemma dseg_other a p f n q k v m :
  apart m (q :: f) → q ∉ f → k = 1 ∨ k = 2 →
  dseg a p f n → dseg (<[Z.to_nat (q + k) := v]> a) p f n.
Proof.
  intros [Hb Hd] Hq Hk Hf. destruct (Hb q); [by left|].
  eapply dseg_frame; [exact Hf|]. intros i Hi.
  destruct (Hd i q); [set_solver..|by intros ->| |]; rewrite !rd_insert_ne by lia; done.
Qed.

Lemma same_but_links_refl l a : same_but_links l a a.
Proof. done. Qed.
Lemma same_but_links_write l a b q k v :
  (∀ i, i ∈ l → 2 <= i) → q ∈ l → k = 1 ∨ k = 2 → same_but_links l a b →
  same_but_links l a (<[Z.to_nat (q + k) := v]> b).
Proof.
  intros Hb Hq Hk [Hl Hr]. pose proof (Hb _ Hq). split; [by rewrite length_insert|].
  intros j Hj. destruct (Hj _ Hq). rewrite rd_insert_ne by lia. auto.
Qed.

(** ** The list operations *)

Record freelist (h : Heap) (fl : list Z) : Prop := {
  fl_len : len h = Z.of_nat (length (array h));
  fl_small : len h < 2 ^ 31;
  fl_apart : apart (len h) fl;
  fl_nodup : NoDup fl;
  fl_dseg : dseg (array h) 0 fl 0;
  fl_avail : avail h = default 0 (head fl);
}.

Lemma u64_small x h : 0 <= x <= len h → len h < 2 ^ 31 → u64 x = x.
Proof. intros. apply u64_id. change (2 ^ 31) with 2147483648 in *. word_lia. Qed.

Lemma remove_links h f1 i f2 :
  freelist h (f1 ++ i :: f2) → (∀ j, j ∈ f1 ++ i :: f2 → sanity j h = Some j) →
  prev i h = Some (default 0 (last f1)) ∧ next i h = Some (default 0 (head f2)).
Proof.
  intros [Hl Hn [Hb _] _ Hd _] Hs.
  apply dseg_app in Hd as [_ (Hnx & Hpv & _)].
  destruct (Hb i) as [? ?]; [set_solver|].
  unfold prev, next. rewrite !(u64_small _ h) by lia. rewrite Hnx, Hpv. simpl. split.
  - destruct (last f1) as [q|] eqn:E; simpl; [|apply sanity_zero].
    apply Hs. apply last_Some in E as [f0 ->]. set_solver.
  - destruct f2 as [|r f2]; simpl; [apply sanity_zero|]. apply Hs. set_solver.
Qed.

(** Unlinking on one side and on the other. *)
Lemma unlink_next h f1 i f2 nx :
  freelist h (f1 ++ i :: f2) → nx = default 0 (head f2) →
  ∃ a', (if default 0 (last f1) =? 0 then Some (h .[ avail := nx ]) else setNext (default 0 (last f1)) nx h)
        = Some (h .[ array := a' ] .[ avail := default 0 (head (f1 ++ f2)) ])
      ∧ dseg a' 0 f1 nx ∧ dseg a' i f2 0 ∧ same_but_links (f1 ++ i :: f2) (array h) a'.
Proof.
  intros [Hl Hn Ha Hnd Hd Hav] ->. pose proof Ha as [Hb _].
  apply dseg_app in Hd as [H1 (_ & _ & H2)].
  destruct f1 as [|q f0 _] using rev_ind; [exists (array h); by destruct h|].
  rewrite last_snoc. cbn [default]. change (id q) with q.
  assert (apart (len h) (f0 ++ [q])) as Ha1 by (eapply apart_perm; [exact Ha|set_solver]).
  assert (apart (len h) (q :: f2)) as Ha2 by (eapply apart_perm; [exact Ha|set_solver]).
  destruct (Hb q) as [? ?]; [set_solver|].
  apply NoDup_app in Hnd as ([_ [Hq0 _]]%NoDup_app & Hq2 & [_ _]%NoDup_cons).
  rewrite (proj2 (Z.eqb_neq _ _)) by lia. unfold setNext.
  rewrite (u64_small _ h), write_ok by lia.
  exists (<[Z.to_nat (q + 1) := default 0 (head f2)]> (array h)). split_and!.
  - f_equal. destruct h; unfold set_field; simpl in *. f_equal. rewrite Hav.
    destruct f0; done.
  - eapply dseg_set_next; [by symmetry|exact Ha1|set_solver|exact H1].
  - eapply dseg_other; [exact Ha2|set_solver|by left|done].
  - apply same_but_links_write; [|set_solver|by left|done]. intros; by apply Hb.
Qed.

Lemma remove_ok h f1 i f2 :
  freelist h (f1 ++ i :: f2) → (∀ j, j ∈ f1 ++ i :: f2 → sanity j h = Some j) →
  ∃ a', remove i h = Some (h .[ array := a' ] .[ avail := default 0 (head (f1 ++ f2)) ])
      ∧ dseg a' 0 (f1 ++ f2) 0 ∧ same_but_links (f1 ++ i :: f2) (array h) a'.
Proof.
  intros Hf Hs. unfold remove. destruct (remove_links _ _ _ _ Hf Hs) as [-> ->].
  cbn [mbind option_bind].
  destruct (unlink_next h f1 i f2 _ Hf eq_refl) as (a1 & -> & H1 & H2 & Hsame).
  cbn [mbind option_bind]. destruct Hf as [Hl Hn Ha Hnd _ _]. pose proof Ha as [Hb _].
  destruct f2 as [|r f2]; cbn [head default].
  { exists a1. simpl. rewrite app_nil_r. done. }
  change (id r) with r. destruct (Hb r) as [? ?]; [set_solver|].
  assert (apart (len h) (r :: f2)) as Ha2 by (eapply apart_perm; [exact Ha|set_solver]).
  assert (apart (len h) (r :: f1)) as Ha1 by (eapply apart_perm; [exact Ha|set_solver]).
  apply NoDup_app in Hnd as (_ & Hq2 & [_ [Hr _]%NoDup_cons]%NoDup_cons).
  rewrite (proj2 (Z.eqb_neq _ _)) by lia. unfold setPrev.
  rewrite (u64_small _ h) by lia.
  destruct Hsame as [Hl1 Hsame].
  rewrite write_ok by (unfold set_field; cbn; lia). cbn [array set_field eta_Heap].
  exists (<[Z.to_nat (r + 2) := default 0 (last f1)]> a1). split_and!.
  - done.
  - apply dseg_app. cbn [head default]. split.
    + eapply dseg_other; [exact Ha1|set_solver|by right|exact H1].
    + eapply dseg_set_prev; [|exact Ha2|set_solver|exact H2]. lia.
  - apply same_but_links_write; [intros; by apply Hb|set_solver|by right|done].
Qed.

Lemma footer_ok h i s t :
  wf_block (s, t) → 0 <= i → i + s <= len h → len h < 2 ^ 31 → rd (array h) i = Some (s + Z.b2z t) →
  footerFromHeader i h = Some (i + s - 1).
Proof.
  intros Hw Hi Hl Hn E. pose proof Hw as (? & ? & _). cbn in *.
  unfold footerFromHeader. rewrite (size_ok h i s t) by (done || lia). simpl.
  by rewrite (u64_small _ h) by lia.
Qed.

Lemma makeTaken_ok h i s :
  len h = Z.of_nat (length (array h)) → len h < 2 ^ 31 →
  wf_block (s, true) → 0 <= i → i + s <= len h →
  ∃ a', makeTaken i s h = Some (h .[ array := a' ]) ∧ tag a' i s true
      ∧ length a' = length (array h) ∧ ∀ j, j ≠ i → j ≠ i + s - 1 → rd a' j = rd (array h) j.
Proof.
  intros Hl Hn Hw Hi Hs. pose proof Hw as (He & Hlo & _). cbn in He, Hlo.
  unfold makeTaken.
  assert (Z.land s 1 = 0) as -> by (pose proof (tag_bit s false He) as E; simpl in E; by rewrite Z.add_0_r in E).
  cbn [Z.eqb negb]. rewrite u64_id by (change (2 ^ 31) with 2147483648 in *; word_lia).
  rewrite write_ok by lia. cbn [mbind option_bind].
  rewrite (footer_ok _ i s true); [|done..|by apply rd_insert_eq; lia].
  cbn [mbind option_bind]. rewrite write_ok by (cbn; rewrite length_insert; lia).
  cbn. eexists. split_and!; [reflexivity|split|by rewrite !length_insert|].
  - destruct (decide (i = i + s - 1)); [lia|]. rewrite rd_insert_ne, rd_insert_eq by lia. done.
  - rewrite rd_insert_eq; [done|]. rewrite length_insert. lia.
  - intros j ? ?. by rewrite !rd_insert_ne by lia.
Qed.

Lemma makeAvail_ok h fl i s :
  freelist h fl → apart (len h) (i :: fl) → i ∉ fl → wf_block (s, false) → i + s <= len h →
  no_link fl i → no_link fl (i + s - 1) →
  ∃ a', makeAvail i s h = Some (h .[ array := a' ] .[ avail := i ])
      ∧ freelist (h .[ array := a' ] .[ avail := i ]) (i :: fl) ∧ tag a' i s false
      ∧ length a' = length (array h)
      ∧ ∀ j, no_link (i :: fl) j → j ≠ i → j ≠ i + s - 1 → rd a' j = rd (array h) j.
Proof.
  intros [Hl Hn Ha Hnd Hd Hav] Ha' Hi Hw Hs Hk1 Hk2. pose proof Hw as (He & _ & Hlo).
  cbn in He, Hlo. specialize (Hlo eq_refl). pose proof Ha' as [Hb Hap].
  destruct (Hb i) as [Hi2 _]; [by left|].
  unfold makeAvail.
  assert (Z.land s 1 = 0) as -> by (pose proof (tag_bit s false He) as E; simpl in E; by rewrite Z.add_0_r in E).
  cbn [Z.eqb negb]. rewrite write_ok by lia. cbn [mbind option_bind].
  rewrite (footer_ok _ i s false);
    [|done|lia|done|done|by rewrite Z.add_0_r; apply rd_insert_eq; lia].
  cbn [mbind option_bind]. rewrite write_ok by (cbn; rewrite length_insert; lia).
  cbn [mbind option_bind]. unfold setNext, setPrev. rewrite !(u64_small _ h) by lia.
  rewrite write_ok by (cbn; rewrite !length_insert; lia). cbn [mbind option_bind].
  rewrite write_ok by (cbn; rewrite !length_insert; lia). cbn [mbind option_bind].
  set (a4 := <[Z.to_nat (i + 2) := 0]> _).
  set (a5 := if avail h =? 0 then a4 else <[Z.to_nat (avail h + 2) := i]> a4).
  assert (length a4 = length (array h)) as L4 by (unfold a4; cbn; by rewrite !length_insert).
  assert (∀ j, j ≠ i → j ≠ i + s - 1 → j ≠ i + 1 → j ≠ i + 2 → rd a4 j = rd (array h) j) as F4.
  { intros j ????. unfold a4. cbn. by rewrite !rd_insert_ne by lia. }
  assert (rd a4 i = Some s ∧ rd a4 (i + s - 1) = Some s ∧ rd a4 (i + 1) = Some (avail h) ∧ rd a4 (i + 2) = Some 0)
    as (T1 & T2 & T3 & T4).
  { unfold a4. cbn. repeat split;
      repeat first [rewrite rd_insert_ne by lia | rewrite rd_insert_eq by (rewrite ?length_insert; lia)]; done. }
  assert (∀ j, (∀ r, head fl = Some r → j ≠ r + 2) → rd a5 j = rd a4 j) as F5.
  { intros j Hj. unfold a5. rewrite Hav. destruct fl as [|r fl]; [done|]. cbn [head default].
    change (id r) with r. destruct (Hb r) as [? _]; [set_solver|].
    rewrite (proj2 (Z.eqb_neq _ _)) by lia. rewrite rd_insert_ne; [done|lia|].
    intros <-. by eapply Hj. }
  assert (∀ r, head fl = Some r → r ∈ fl) as Hin by (intros r; destruct fl; [done|]; intros [= ->]; by left).
  assert (∀ r j, head fl = Some r → no_link fl j → j ≠ r + 2) as Hh by (intros r j Hr%Hin Hj; by apply Hj).
  assert (dseg a5 i fl 0) as D5.
  { assert (dseg a4 0 fl 0) as D4.
    { eapply dseg_frame; [exact Hd|]. intros j Hj. destruct (Hk1 j Hj), (Hk2 j Hj).
      destruct (Hap i j); [by left|by right|by intros ->| |]; split; apply F4; lia. }
    unfold a5. rewrite Hav. destruct fl as [|r fl]; [done|]. cbn [head default]. change (id r) with r.
    destruct (Hb r) as [? _]; [set_solver|]. rewrite (proj2 (Z.eqb_neq _ _)) by lia.
    eapply dseg_set_prev; [|exact Ha| |exact D4]; [lia|]. by apply NoDup_cons in Hnd as [??]. }
  assert (length a5 = length (array h)) as L5.
  { unfold a5. case_match; rewrite ?length_insert; done. }
  exists a5. split_and!.
  - cbn. unfold a5. rewrite Hav. destruct fl as [|r fl]; cbn [head default]; [done|].
    change (id r) with r. destruct (Hb r) as [? ?]; [set_solver|].
    rewrite (proj2 (Z.eqb_neq _ _)) by lia. rewrite (u64_small _ h), write_ok by (cbn; rewrite ?L4; lia).
    done.
  - split; cbn; [lia|done|done|by constructor| |done]. split_and!; [|  |done].
    + rewrite F5, T3, Hav; [done|]. intros r Hr%Hin. destruct (Hap i r); [by left|by right|by intros ->|..]; lia.
    + rewrite F5, T4; [done|]. intros r Hr%Hin. destruct (Hap i r); [by left|by right|by intros ->|..]; lia.
  - split; rewrite F5; rewrite ?Z.add_0_r; eauto.
  - done.
  - intros j Hj ? ?. rewrite F5; [|intros; eapply Hh; [done|]; intros x Hx; apply Hj; by right].
    destruct (Hj i); [by left|]. by apply F4.
Qed.

(** Removing a member, and what is left of the list. *)
Lemma remove_member h fl i :
  freelist h fl → i ∈ fl → (∀ j, j ∈ fl → sanity j h = Some j) →
  ∃ a' fl', remove i h = Some (h .[ array := a' ] .[ avail := default 0 (head fl') ])
  ∧ freelist (h .[ array := a' ] .[ avail := default 0 (head fl') ]) fl'
  ∧ (∀ j, j ∈ fl' ↔ j ∈ fl ∧ j ≠ i)
  ∧ length a' = length (array h) ∧ ∀ j, no_link fl j → rd a' j = rd (array h) j.
Proof.
  intros F (f1 & f2 & ->)%list_elem_of_split Hs.
  destruct (remove_ok h f1 i f2 F Hs) as (a1 & -> & Hd1 & Hlen1 & Hsame1).
  destruct F as [Hlen Hsmall Ha Hnd _ _].
  apply NoDup_app in Hnd as (Hn1 & Hn12 & [Hnit Hn2]%NoDup_cons).
  assert (i ∉ f1 ++ f2) as Hnin by (rewrite elem_of_app; intros [?|?]; [by eapply Hn12; [|left]|done]).
  assert (∀ j, j ∈ f1 ++ f2 ↔ j ∈ f1 ++ i :: f2 ∧ j ≠ i) as Hmem.
  { intros j. rewrite !elem_of_app, elem_of_cons. rewrite elem_of_app in Hnin. naive_solver. }
  exists a1, (f1 ++ f2). split_and!; [done| |done..]. split; cbn; [lia|done| | |done|done].
  - eapply apart_perm; [exact Ha|]. intros j Hj. by apply Hmem.
  - apply NoDup_app. split_and!; [done| |done]. intros x ? ?. eapply Hn12; [done|by right].
Qed.

(** ** The invariant *)

(** Between the two end markers every block has room for two links. *)
Definition big (b : block) : Prop := 4 <= b.1.
Definition framed (bs : list block) : Prop :=
  ∃ mid, bs = (2, true) :: mid ++ [(2, true)] ∧ Forall big mid.

Record tiling (n : Z) (bs : list block) (fl : list Z) : Prop := {
  til_ends : framed bs;
  til_wf : Forall wf_block bs;
  til_total : total bs = n;
  til_sep : separated bs.*2;
  til_members : ∀ i, i ∈ fl ↔ ∃ s, (i, s, false) ∈ spans 0 bs;
}.

Record heap_inv (h : Heap) (bs : list block) (fl : list Z) : Prop := {
  inv_tiling : tiling (len h) bs fl;
  inv_list : freelist h fl;
  inv_tags : ∀ i s t, (i, s, t) ∈ spans 0 bs → tag (array h) i s t;
}.

Lemma tiling_span n bs fl i s t :
  tiling n bs fl → (i, s, t) ∈ spans 0 bs → 0 <= i ∧ i + s <= n ∧ i mod 2 = 0 ∧ wf_block (s, t).
Proof.
  intros [_ Hw <- _ _] Hi. apply spans_bounds in Hi as (?&?&?&?); [|done]. rewrite Z.sub_0_r in *. done.
Qed.

Lemma tiling_free_pos n bs fl i s : tiling n bs fl → (i, s, false) ∈ spans 0 bs → 2 <= i ∧ 4 <= s.
Proof.
  intros [(mid & -> & _) Hw _ _ _] Hi. pose proof (spans_bounds _ _ _ _ _ Hw Hi) as (_&_&(_&_&H4)&_).
  simpl in Hi. apply elem_of_cons in Hi as [?|Hi]; [done|].
  apply Forall_cons in Hw as [_ Hw]. apply spans_bounds in Hi as (?&_); [|done].
  cbn in H4. split; [lia|auto].
Qed.

Lemma tiling_apart n bs fl : tiling n bs fl → apart n fl.
Proof.
  intros Ht. split.
  - intros i [s Hi]%(til_members _ _ _ Ht). pose proof (tiling_free_pos _ _ _ _ _ Ht Hi).
    apply (tiling_span _ _ _ _ _ _ Ht) in Hi as (?&?&_). lia.
  - intros i j [s Hi]%(til_members _ _ _ Ht) [s' Hj]%(til_members _ _ _ Ht) Hij.
    pose proof (tiling_free_pos _ _ _ _ _ Ht Hi). pose proof (tiling_free_pos _ _ _ _ _ Ht Hj).
    destruct (spans_disjoint _ _ _ _ _ _ _ _ (til_wf _ _ _ Ht) Hi Hj) as [(?&?&?)|[?|?]]; [done|lia..].
Qed.

Lemma tiling_no_link_tag n bs fl i s t :
  tiling n bs fl → (i, s, t) ∈ spans 0 bs → no_link fl i ∧ no_link fl (i + s - 1).
Proof.
  intros Ht Hi. pose proof (tiling_span _ _ _ _ _ _ Ht Hi) as (_&_&_&_&?&_). cbn in *.
  split; intros j [s' Hj]%(til_members _ _ _ Ht);
    pose proof (tiling_free_pos _ _ _ _ _ Ht Hj);
    destruct (spans_disjoint _ _ _ _ _ _ _ _ (til_wf _ _ _ Ht) Hi Hj) as [(->&->&?)|[?|?]]; lia.
Qed.

Lemma tiling_no_link_taken n bs fl i s k :
  tiling n bs fl → (i, s, true) ∈ spans 0 bs → i <= k < i + s → no_link fl k.
Proof.
  intros Ht Hi Hk j [s' Hj]%(til_members _ _ _ Ht). pose proof (tiling_free_pos _ _ _ _ _ Ht Hj).
  destruct (spans_disjoint _ _ _ _ _ _ _ _ (til_wf _ _ _ Ht) Hi Hj) as [(?&?&?)|[?|?]]; [done|lia..].
Qed.

Section Inv.
Context (h : Heap) (bs : list block) (fl : list Z) (I : heap_inv h bs fl).

Lemma inv_span i s t :
  (i, s, t) ∈ spans 0 bs →
  0 <= i ∧ i + s <= len h ∧ s < 2 ^ 31 ∧ i mod 2 = 0 ∧ wf_block (s, t) ∧ rd (array h) i = Some (s + Z.b2z t).
Proof using I.
  intros Hi. destruct I as [Ht Hl Htag]. destruct (Htag _ _ _ Hi) as [Hr _].
  apply (tiling_span _ _ _ _ _ _ Ht) in Hi as (?&?&?&?). pose proof (fl_small _ _ Hl).
  split_and!; try done. lia.
Qed.
Lemma inv_sanity i s t : (i, s, t) ∈ spans 0 bs → sanity i h = Some i.
Proof using I.
  intros Hi. pose proof (inv_span _ _ _ Hi) as (?&?&?&?&?&?).
  eapply sanity_ok; [done..|by apply (inv_tags _ _ _ I)|done|done|apply (fl_small _ _ (inv_list _ _ _ I))].
Qed.
Lemma inv_free_sanity i : i ∈ fl → sanity i h = Some i.
Proof using I.
  intros [s Hi]%(til_members _ _ _ (inv_tiling _ _ _ I)). by eapply inv_sanity.
Qed.
Lemma inv_size i s t : (i, s, t) ∈ spans 0 bs → size i h = Some s.
Proof using I. intros Hi. pose proof (inv_span _ _ _ Hi) as (?&?&?&?&?&?). by eapply size_ok. Qed.
Lemma inv_isTaken i s t : (i, s, t) ∈ spans 0 bs → isTaken i h = Some t.
Proof using I. intros Hi. pose proof (inv_span _ _ _ Hi) as (?&?&?&?&?&?). by eapply isTaken_ok. Qed.
Lemma inv_isAvail i s t : (i, s, t) ∈ spans 0 bs → isAvail i h = Some (negb t).
Proof using I. intros Hi. pose proof (inv_span _ _ _ Hi) as (?&?&?&?&?&?). by eapply isAvail_ok. Qed.
Lemma inv_next f1 i f2 : fl = f1 ++ i :: f2 → next i h = Some (default 0 (head f2)).
Proof using I.
  intros E. destruct (remove_links h f1 i f2); rewrite <- ?E; [apply I|apply inv_free_sanity|done].
Qed.
End Inv.

(** ** The search *)

(** The members of [l] with enough words. *)
Definition fitting (h : Heap) (entries : Z) (l : list Z) : list Z :=
  filter (λ i, entries <= default 0 (size i h)) l.

Lemma best_fit_ok h bs fl entries :
  heap_inv h bs fl →
  ∀ l f1 fuel cd mx it,
  fl = f1 ++ l → (length l <= fuel)%nat →
  ∃ mx' it', best_fit fuel entries (default 0 (head l)) cd mx it h = Some (mx', it')
  ∧ ((mx' = mx ∧ it' = it ∧
       (fitting h entries l = [] ∨ ∃ i s, (i, s, false) ∈ spans 0 bs ∧ mx <= s))
     ∨ (it' ∈ l ∧ (it', mx', false) ∈ spans 0 bs ∧ entries <= mx' < mx))
  ∧ ((∀ i s, i ∈ l → (i, s, false) ∈ spans 0 bs → entries <= s → mx' <= s)
     ∨ cd <= Z.of_nat (length (fitting h entries l))).
Proof.
  intros I l. induction l as [|p l IH]; intros f1 fuel cd mx it Hfl Hfuel.
  { exists mx, it. split_and!; [by destruct fuel|by left; auto|left; by intros ?? ?%not_elem_of_nil]. }
  cbn [head default]. change (id p) with p.
  destruct fuel as [|fuel]; simpl in Hfuel; [lia|].
  assert (p ∈ fl) as Hp by (rewrite Hfl; set_solver).
  apply (til_members _ _ _ (inv_tiling _ _ _ I)) in Hp as [s Hp].
  pose proof (tiling_free_pos _ _ _ _ _ (inv_tiling _ _ _ I) Hp) as [Hp2 Hs4].
  cbn [best_fit]. rewrite (proj2 (Z.eqb_neq p 0)) by lia.
  rewrite (inv_isTaken _ _ _ I _ _ _ Hp), (inv_size _ _ _ I _ _ _ Hp). cbn [mbind option_bind].
  rewrite (inv_next _ _ _ I f1 p l Hfl).
  assert (∀ s', (p, s', false) ∈ spans 0 bs → s' = s) as Hfun.
  { intros s' Hs'. pose proof (tiling_free_pos _ _ _ _ _ (inv_tiling _ _ _ I) Hs').
    destruct (spans_disjoint _ _ _ _ _ _ _ _ (til_wf _ _ _ (inv_tiling _ _ _ I)) Hp Hs') as [(?&?&?)|[?|?]]; lia. }
  assert (fl = (f1 ++ [p]) ++ l) as Hfl' by (by rewrite Hfl, <- app_assoc).
  destruct (Z.leb_spec entries s) as [Hle|Hgt].
  - assert (fitting h entries (p :: l) = p :: fitting h entries l) as Hfit.
    { unfold fitting. apply filter_cons_True. by rewrite (inv_size _ _ _ I _ _ _ Hp). }
    set (mx1 := if s <? mx then s else mx). set (it1 := if s <? mx then p else it).
    assert ((mx1 = mx ∧ it1 = it ∧ mx <= s) ∨ (it1 = p ∧ mx1 = s ∧ s < mx)) as H1.
    { subst mx1 it1. destruct (Z.ltb_spec s mx); [right|left]; split_and!; try done; lia. }
    destruct ((cd - 1 =? 0) || (s =? entries)) eqn:Hstop.
    + exists mx1, it1. split; [done|]. split.
      * destruct H1 as [(->&->&?)|(->&->&?)]; [left; eauto 10|right; split_and!; try done; left].
      * rewrite Hfit. apply orb_true_iff in Hstop as [?%Z.eqb_eq|?%Z.eqb_eq]; [right; simpl; lia|].
        left. intros. destruct H1 as [(->&_&?)|(_&->&?)]; lia.
    + cbn [mbind option_bind]. destruct (IH (f1 ++ [p]) fuel (cd - 1) mx1 it1 Hfl') as (mx' & it' & -> & HA & HB); [lia|].
      exists mx', it'. split; [done|]. rewrite Hfit. cbn [length]. split.
      * destruct HA as [(->&->&HA)|(?&?&?)].
        -- destruct H1 as [(->&->&?)|(->&->&?)]; [left; eauto 10|right; split_and!; try done; left].
        -- right. destruct H1 as [(->&->&?)|(->&->&?)]; split_and!; try done; try lia; by right.
      * destruct HB as [HB|HB]; [left|right; lia]. intros i s' [->|Hi]%elem_of_cons Hsp Hfs; [|by eapply HB].
        rewrite (Hfun s') by done. destruct HA as [(->&_)|(_&_&?)]; destruct H1 as [(->&_&?)|(_&->&?)]; lia.
  - assert (fitting h entries (p :: l) = fitting h entries l) as Hfit.
    { unfold fitting. apply filter_cons_False. rewrite (inv_size _ _ _ I _ _ _ Hp). cbn. lia. }
    cbn [mbind option_bind]. destruct (IH (f1 ++ [p]) fuel cd mx it Hfl') as (mx' & it' & -> & HA & HB); [lia|].
    exists mx', it'. rewrite Hfit. split; [done|]. split.
    + destruct HA as [?|(?&?&?)]; [by left|right; split_and!; try done; try lia; by right].
    + destruct HB as [HB|?]; [left|by right]. intros i s' [->|Hi]%elem_of_cons Hsp Hfs; [|by eapply HB].
      rewrite (Hfun s') in Hfs by done. lia.
Qed.

(** ** Replacing blocks in a tiling *)

Lemma replace_tiling n l1 mid l2 fl new fl' :
  tiling n (l1 ++ mid ++ l2) fl →
  total new = total mid → Forall wf_block new → separated (l1 ++ new ++ l2).*2 →
  framed (l1 ++ new ++ l2) →
  (∀ i, i ∈ fl' ↔ (i ∈ fl ∧ ∀ s, (i, s, false) ∉ spans (total l1) mid)
                ∨ ∃ s, (i, s, false) ∈ spans (total l1) new) →
  tiling n (l1 ++ new ++ l2) fl'.
Proof.
  intros [_ Hw Hn _ Hm] Ht Hnew Hsep Hends Hfl. split; [done| |by rewrite <- Hn, !total_app, Ht|done|].
  { apply Forall_app in Hw as [? [? ?]%Forall_app]. by rewrite !Forall_app. }
  intros i. rewrite Hfl, Hm. rewrite !spans_app, !Z.add_0_l, Ht. split.
  - intros [[[s Hi] Hno]|[s Hi]]; exists s; [|set_solver].
    rewrite !elem_of_app in *. specialize (Hno s). naive_solver.
  - intros [s Hi]. rewrite !elem_of_app in Hi. destruct Hi as [Hi|[Hi|Hi]]; [left|right; eauto|left];
      (split; [exists s; set_solver|intros s' Hs']).
    all: apply Forall_app in Hw as [H1 [H2 H3]%Forall_app].
    all: apply spans_bounds in Hs' as (?&?&(_&?&_)&_); [|done].
    all: apply spans_bounds in Hi as (?&?&(_&?&_)&_); [|done].
    all: cbn in *; lia.
Qed.

Lemma replace_tags h l1 mid l2 fl new a' :
  heap_inv h (l1 ++ mid ++ l2) fl → total new = total mid →
  (∀ i s t, (i, s, t) ∈ spans (total l1) new → tag a' i s t) →
  (∀ j, no_link fl j → j < total l1 ∨ total l1 + total mid <= j → rd a' j = rd (array h) j) →
  ∀ i s t, (i, s, t) ∈ spans 0 (l1 ++ new ++ l2) → tag a' i s t.
Proof.
  intros [Ht _ Htag] Htot Hnew Hfr i s t Hi. rewrite !spans_app, Z.add_0_l, Htot in Hi.
  pose proof (til_wf _ _ _ Ht) as Hw. apply Forall_app in Hw as [H1 [H2 H3]%Forall_app].
  apply elem_of_app in Hi as [Hi|[Hi|Hi]%elem_of_app]; [|by apply Hnew|].
  all: assert ((i, s, t) ∈ spans 0 (l1 ++ mid ++ l2)) as Hin by (rewrite !spans_app, Z.add_0_l; set_solver).
  all: pose proof (tiling_no_link_tag _ _ _ _ _ _ Ht Hin) as [??].
  all: apply spans_bounds in Hi as (?&?&(_&?&_)&_); [|done]; cbn in *.
  all: destruct (Htag _ _ _ Hin) as [T1 T2]; split; rewrite Hfr; [exact T1|done|lia|exact T2|done|lia].
Qed.

Lemma framed_mid l1 b l2 :
  framed (l1 ++ b :: l2) → l1 ≠ [] → l2 ≠ [] →
  big b ∧ ∃ l1' l2', l1 = (2, true) :: l1' ∧ l2 = l2' ++ [(2, true)] ∧ Forall big l1' ∧ Forall big l2'.
Proof.
  intros (m & E & Hm) H1 H2. destruct l1 as [|b1 l1]; [done|]. injection E as -> E.
  destruct l2 as [|b2 l2 _] using rev_ind; [done|].
  rewrite app_comm_cons, app_assoc in E. apply app_inj_tail in E as [<- ->].
  apply Forall_app in Hm as [? [? ?]%Forall_cons]. eauto 10.
Qed.

Lemma ends_free l1 s l2 : framed (l1 ++ (s, false) :: l2) → l1 ≠ [] ∧ l2 ≠ [].
Proof.
  intros (m & E & _). split; intros ->; [done|]. rewrite app_comm_cons in E.
  apply app_inj_tail in E as [_ ?]. done.
Qed.

Lemma framed_app l1' new l2' :
  Forall big l1' → Forall big new → Forall big l2' →
  framed (((2, true) :: l1') ++ new ++ l2' ++ [(2, true)]).
Proof.
  intros. exists (l1' ++ new ++ l2'). split; [simpl; by rewrite !app_assoc|].
  by rewrite !Forall_app.
Qed.

(** ** [malloc] *)

(** What becomes of an available block of [mx] words. *)
Definition carved (entries mx : Z) : list block :=
  if 4 <=? mx - entries then [(entries, true); (mx - entries, false)] else [(mx, true)].

Lemma separated_free_taken (l1 : list block) s (l2 : list block) :
  separated (l1 ++ (s, false) :: l2).*2 → ∀ s' : Z, separated (l1 ++ (s', true) :: l2).*2.
Proof.
  rewrite !fmap_app, !fmap_cons. intros [H1 H2]%separated_app s'. rewrite fmap_app, fmap_cons. cbn in *.
  apply separated_app. split; [by eapply separated_snoc_taken|]. destruct (l2.*2); naive_solver.
Qed.

Lemma separated_carved (l1 l2 : list block) e mx :
  separated (l1 ++ (mx, false) :: l2).*2 → separated (l1 ++ carved e mx ++ l2).*2.
Proof.
  intros Hs. unfold carved. case_match; [|by eapply separated_free_taken].
  pose proof (separated_free_taken _ _ _ Hs e) as Ht. revert Hs Ht.
  rewrite !fmap_app, !fmap_cons. intros [_ H2]%separated_app [H1 _]%separated_app. cbn in *.
  apply separated_app. split; [done|]. cbn. naive_solver.
Qed.

Lemma carved_free e mx p i :
  (∃ s, (i, s, false) ∈ spans p (carved e mx)) ↔ 4 <= mx - e ∧ i = p + e.
Proof.
  unfold carved. destruct (Z.leb_spec 4 (mx - e)); cbn.
  - split; [|intros [_ ->]; exists (mx - e); set_solver].
    intros [s [?|[[= -> _]|?%not_elem_of_nil]%elem_of_cons]%elem_of_cons]; done.
  - split; [|lia]. intros [s [?|?%not_elem_of_nil]%elem_of_cons]; done.
Qed.
Lemma not_in_single mx p i : (∀ s, (i, s, false) ∉ spans p [(mx, false)]) ↔ i ≠ p.
Proof.
  cbn. split; [intros H ->; apply (H mx); by left|].
  intros ? s [[= -> _]|?%not_elem_of_nil]%elem_of_cons; done.
Qed.

(** Memory writes that spare the links. *)
Lemma freelist_frame h fl a' :
  freelist h fl → length a' = length (array h) →
  (∀ j, ¬ no_link fl j → rd a' j = rd (array h) j) → freelist (h .[ array := a' ]) fl.
Proof.
  intros [Hl Hn Ha Hnd Hd Hav] Hlen Hf. split; cbn; [lia|done..| |done].
  eapply dseg_frame; [exact Hd|]. intros i Hi.
  split; apply Hf; intros Hno; destruct (Hno i Hi); lia.
Qed.

(** The words of one block are no links of the other members. *)
Lemma block_no_link n bs fl i s t fl1 k :
  tiling n bs fl → (i, s, t) ∈ spans 0 bs → (∀ j, j ∈ fl1 → j ∈ fl ∧ j ≠ i) →
  i <= k < i + s → no_link fl1 k.
Proof.
  intros T Hi H1 Hk j [[s' Hj]%(til_members _ _ _ T) Hne]%H1. pose proof (tiling_free_pos _ _ _ _ _ T Hj).
  destruct (spans_disjoint _ _ _ _ _ _ _ _ (til_wf _ _ _ T) Hi Hj) as [(?&?&?)|[?|?]]; [done|lia..].
Qed.

Lemma carve_ok h l1 mx l2 fl e :
  heap_inv h (l1 ++ (mx, false) :: l2) fl → e mod 2 = 0 → 4 <= e <= mx →
  ∃ a' fl', carve (total l1) mx e h = Some (h .[ array := a' ] .[ avail := default 0 (head fl') ])
  ∧ heap_inv (h .[ array := a' ] .[ avail := default 0 (head fl') ]) (l1 ++ carved e mx ++ l2) fl'
  ∧ ∀ j, no_link fl j → j < total l1 ∨ total l1 + mx <= j → rd a' j = rd (array h) j.
Proof.
  intros I He Hle. pose proof (spans_mid 0 l1 mx false l2) as Hit. rewrite Z.add_0_l in Hit.
  set (it := total l1) in *. pose proof (inv_tiling _ _ _ I) as T.
  destruct (inv_span _ _ _ I _ _ _ Hit) as (?&?&?&?&Hwf&_).
  destruct (tiling_free_pos _ _ _ _ _ T Hit) as [? ?].
  destruct (ends_free _ _ _ (til_ends _ _ _ T)) as [Hne1 Hne2].
  destruct (framed_mid _ _ _ (til_ends _ _ _ T) Hne1 Hne2) as (_ & l1' & l2' & El1 & El2 & Hb1 & Hb2).
  pose proof (inv_list _ _ _ I) as F. pose proof (fl_len _ _ F) as Hlen. pose proof (fl_small _ _ F) as Hsmall.
  destruct (remove_member h fl it F) as (a1 & fl1 & Hrem & F1 & Hmem1 & Hlen1 & Hsame1);
    [apply (til_members _ _ _ T); eauto|apply (inv_free_sanity _ _ _ I)|].
  set (h1 := h .[ array := a1 ] .[ avail := default 0 (head fl1) ]) in *.
  unfold carve. rewrite Hrem. cbn [mbind option_bind].
  assert (wf_block (e, true)) as Hwe by (split_and!; cbn; done || lia).
  rewrite i32_id by (change (2 ^ 31) with 2147483648 in *; lia).
  assert (tiling (len h) (l1 ++ carved e mx ++ l2) (if 4 <=? mx - e then (it + e) :: fl1 else fl1)) as T'.
  { eapply (replace_tiling _ l1 [(mx, false)] l2 fl).
    - exact T.
    - unfold carved. case_match; cbn; lia.
    - destruct Hwf as (?&?&_). cbn in *. unfold carved. destruct (Z.leb_spec 4 (mx - e)); repeat constructor; cbn; try done; try lia.
      word_lia.
    - apply separated_carved. apply (til_sep _ _ _ T).
    - rewrite El1, El2. apply framed_app; [done| |done].
      unfold carved. destruct (Z.leb_spec 4 (mx - e)); repeat constructor; unfold big; cbn; lia.
    - intros i. fold it. rewrite carved_free, not_in_single.
      destruct (Z.leb_spec 4 (mx - e)); rewrite ?elem_of_cons, Hmem1; intuition lia. }
  assert (∀ k, it <= k < it + mx → no_link fl1 k) as Hblk.
  { intros k. apply (block_no_link _ _ _ _ _ _ _ _ T Hit). intros j Hj. by apply Hmem1. }
  assert (∀ j, no_link fl j → no_link fl1 j) as Hnl by (intros j Hj x [? _]%Hmem1; by apply Hj).
  assert (∀ a', (∀ i s t, (i, s, t) ∈ spans it (carved e mx) → tag a' i s t) →
          (∀ j, no_link fl j → j < it ∨ it + mx <= j → rd a' j = rd (array h) j) →
          ∀ i s t, (i, s, t) ∈ spans 0 (l1 ++ carved e mx ++ l2) → tag a' i s t) as Htags.
  { intros a' Hc Hfr. eapply (replace_tags h l1 [(mx, false)] l2 fl); [exact I| |exact Hc|].
    - unfold carved. case_match; cbn; lia.
    - cbn. rewrite Z.add_0_r. exact Hfr. }
  unfold carved in Htags, T' |- *. destruct (Z.leb_spec 4 (mx - e)) as [Hx|Hx].
  - destruct (makeTaken_ok h1 it e) as (a2 & -> & Ht2 & Hl2 & Hs2); [cbn; lia|done|done|lia|cbn; lia|].
    cbn [mbind option_bind]. rewrite (u64_small _ h), (u64_small (mx - e) h) by lia.
    set (h2 := h1 .[ array := a2 ]).
    assert (freelist h2 fl1) as F2.
    { apply freelist_frame; [done..|]. intros j Hj. apply Hs2; intros ->; apply Hj, Hblk; lia. }
    destruct (makeAvail_ok h2 fl1 (it + e) (mx - e)) as (a3 & -> & F3 & Ht3 & Hl3 & Hs3).
    + done.
    + apply (tiling_apart _ _ _ T').
    + rewrite Hmem1. intros [[s Hs]%(til_members _ _ _ T) _].
      pose proof (tiling_free_pos _ _ _ _ _ T Hs).
      destruct (spans_disjoint _ _ _ _ _ _ _ _ (til_wf _ _ _ T) Hit Hs) as [(?&?&?)|[?|?]]; lia.
    + split_and!; cbn; [destruct Hwf as (?&_); cbn in *; word_lia|lia|done].
    + cbn. lia.
    + apply Hblk. lia.
    + apply Hblk. lia.
    + exists a3, ((it + e) :: fl1).
      assert (∀ j, no_link fl1 j → j < it + e ∨ it + mx <= j → rd a3 j = rd a2 j) as Hs3'.
      { intros j Hj Hr. apply Hs3; [|lia..]. intros x [->|Hx']%elem_of_cons; [lia|by apply Hj]. }
      assert (∀ j, no_link fl j → j < it ∨ it + mx <= j → rd a3 j = rd (array h) j) as Hfr.
      { intros j Hj Hr. rewrite Hs3' by (auto || lia). cbn. rewrite Hs2 by lia. cbn. by apply Hsame1. }
      split_and!; [done| |exact Hfr]. split; cbn; [exact T'|exact F3|].
      apply Htags; [|exact Hfr]. cbn. intros i s t. rewrite !elem_of_cons, elem_of_nil.
      intros [[= -> -> ->]|[[= -> -> ->]|?]]; [|done..].
      destruct Ht2 as [Ht2a Ht2b]. split; (rewrite Hs3'; [done|apply Hblk; lia|lia]).
  - destruct (makeTaken_ok h1 it mx) as (a2 & -> & Ht2 & Hl2 & Hs2);
      [cbn; lia|done|by destruct Hwf as (?&?&?); split_and!|lia|cbn; lia|].
    exists a2, fl1.
    assert (∀ j, no_link fl j → j < it ∨ it + mx <= j → rd a2 j = rd (array h) j) as Hfr.
    { intros j Hj Hr. rewrite Hs2 by lia. cbn. by apply Hsame1. }
    split_and!; [done| |exact Hfr]. split; cbn; [exact T'| |].
    + apply (freelist_frame h1); [done..|]. intros j Hj. apply Hs2; intros ->; apply Hj, Hblk; lia.
    + apply Htags; [|exact Hfr]. cbn. intros i s t. rewrite elem_of_cons, elem_of_nil.
      intros [[= -> -> ->]|?]; [|done..]. done.
Qed.

Lemma entries_for_ok n :
  0 < n <= 2 ^ 63 → entries_for n mod 2 = 0 ∧ 4 <= entries_for n < 2 ^ 62 ∧ n <= 8 * (entries_for n - 2).
Proof.
  intros Hn. change (2 ^ 63) with 9223372036854775808 in Hn. change (2 ^ 62) with 4611686018427387904.
  unfold entries_for. rewrite (u64_id (n + 7)), u64_id by word_lia.
  set (e := if (n + 7) / 8 + 2 <? 4 then 4 else (n + 7) / 8 + 2).
  assert (4 <= e <= 1152921504606846979 ∧ n <= 8 * (e - 2)) as [He Hne].
  { subst e. destruct (Z.ltb_spec ((n + 7) / 8 + 2) 4); word_lia. }
  clearbody e. rewrite (land_ones_mod e 1) by done. change (2 ^ 1) with 2.
  destruct (Z.eqb_spec (e mod 2) 0); [|rewrite u64_id by word_lia]; word_lia.
Qed.

Definition base_ok (h : Heap) : Prop :=
  array_base h mod 16 = 8 ∧ 0 <= array_base h ∧ array_base h + 8 * len h <= 2 ^ 64.

Lemma address_of_ok h i :
  base_ok h → 0 <= i < len h → address_of i h = array_base h + 8 * i ∧ 8 <= address_of i h.
Proof.
  intros (Hm & ? & ?) Hi. change (2 ^ 64) with 18446744073709551616 in *.
  unfold address_of. rewrite u64_id by word_lia. word_lia.
Qed.

(** The list is no longer than the array. *)
Lemma inv_fuel h bs fl : heap_inv h bs fl → (length fl <= length (array h))%nat.
Proof.
  intros [_ F _]. pose proof (fl_len _ _ F).
  assert (fl ⊆+ seqZ 0 (len h)) as Hp%submseteq_length; [|rewrite length_seqZ in Hp; lia].
  apply NoDup_submseteq; [apply (fl_nodup _ _ F)|]. intros i [Hi Hi']%(proj1 (fl_apart _ _ F)).
  apply elem_of_seqZ. lia.
Qed.

Lemma malloc_ok h bs fl n :
  heap_inv h bs fl → base_ok h → 0 < n <= 2 ^ 63 →
  (malloc n h = Some (0, h) ∧ ∀ i s, (i, s, false) ∈ spans 0 bs → s < entries_for n) ∨
  ∃ l1 mx l2 a' fl',
    let h' := h .[ array := a' ] .[ avail := default 0 (head fl') ] .[ n_malloc := u64 (n_malloc h + 1) ] in
    bs = l1 ++ (mx, false) :: l2 ∧ entries_for n <= mx
    ∧ malloc n h = Some (address_of (total l1 + 1) h, h')
    ∧ heap_inv h' (l1 ++ carved (entries_for n) mx ++ l2) fl'
    ∧ (∀ j, no_link fl j → j < total l1 ∨ total l1 + mx <= j → rd a' j = rd (array h) j)
    ∧ (Z.of_nat (length (fitting h (entries_for n) fl)) < 20 →
       ∀ i s, (i, s, false) ∈ spans 0 bs → entries_for n <= s → mx <= s).
Proof.
  intros I Hb Hn. destruct (entries_for_ok n Hn) as (He & H4 & _). pose proof (inv_list _ _ _ I) as F.
  pose proof (fl_len _ _ F) as Hlen. pose proof (inv_tiling _ _ _ I) as T.
  pose proof (inv_fuel _ _ _ I) as Hfuel.
  destruct (best_fit_ok h bs fl (entries_for n) I fl [] (length (array h)) 20 18446744073709551615 0
              eq_refl Hfuel) as (mx & it & Hbf & HA & HB).
  unfold malloc. rewrite (proj2 (Z.eqb_neq n 0)) by lia. rewrite (fl_avail _ _ F), Hbf. cbn [mbind option_bind].
  destruct HA as [(-> & -> & HA)|(Hit & Hsp & Hle)].
  - left. split; [done|]. intros i s Hi.
    destruct HA as [HA|(i' & s' & Hi' & Hs')].
    + assert (i ∈ fl) as Hif by (apply (til_members _ _ _ T); eauto).
      apply Z.nle_gt. intros Hes. assert (i ∈ fitting h (entries_for n) fl) as Hin; [|by rewrite HA in Hin; apply not_elem_of_nil in Hin].
      apply list_elem_of_filter. split; [|done]. by rewrite (inv_size _ _ _ I _ _ _ Hi).
    + destruct (inv_span _ _ _ I _ _ _ Hi') as (_&_&?&_). change (2 ^ 31) with 2147483648 in *. lia.
  - right. destruct (tiling_free_pos _ _ _ _ _ T Hsp) as [? _].
    destruct (inv_span _ _ _ I _ _ _ Hsp) as (_&?&_&_&(_&?&_)&_). cbn in *.
    destruct (spans_split _ _ _ _ _ Hsp) as (l1 & l2 & -> & ->). rewrite Z.add_0_l in *.
    destruct (carve_ok h l1 mx l2 fl (entries_for n) I He) as (a' & fl' & Hc & I' & Hfr); [lia|].
    exists l1, mx, l2, a', fl'. split_and!; [done|lia| | |done|].
    + rewrite (proj2 (Z.eqb_neq _ _)) by lia. rewrite Hc. cbn [mbind option_bind].
      destruct (address_of_ok h (total l1 + 1) Hb) as [_ ?]; [lia|].
      change (address_of (total l1 + 1) (h .[ array := a' ] .[ avail := default 0 (head fl') ]))
        with (address_of (total l1 + 1) h).
      by rewrite (proj2 (Z.eqb_neq _ _)) by lia.
    + destruct I' as [? [] ?]. by split.
    + intros Hfew i s Hi Hes. destruct HB as [HB|HB]; [|lia].
      eapply HB; [|done|done]. apply (til_members _ _ _ T). eauto.
Qed.

(** ** [free] *)

Lemma i32_small x h : 0 <= x <= len h → len h < 2 ^ 31 → i32 x = x.
Proof. intros. apply i32_id. change (2 ^ 31) with 2147483648 in *. lia. Qed.

(** Absorbing a neighbour, or not when it is taken. *)
Lemma merge_ok h fl i s t sz :
  freelist h fl → (∀ j, j ∈ fl → sanity j h = Some j) → (t = false → i ∈ fl) →
  wf_block (s, t) → no_link fl i → rd (array h) i = Some (s + Z.b2z t) →
  0 <= sz → 0 <= i <= len h → s + sz <= len h →
  ∃ a' fl', (if negb t then absorb i sz h else Some (sz, h))
      = Some (sz + (if t then 0 else s), h .[ array := a' ] .[ avail := default 0 (head fl') ])
  ∧ freelist (h .[ array := a' ] .[ avail := default 0 (head fl') ]) fl'
  ∧ (∀ j, j ∈ fl' ↔ j ∈ fl ∧ (t = false → j ≠ i))
  ∧ length a' = length (array h) ∧ (∀ j, no_link fl j → rd a' j = rd (array h) j).
Proof.
  intros F Hs Hi Hw Hn Hrd Hsz Hil Hsum. pose proof (fl_small _ _ F) as Hsm. pose proof Hw as (_ & ? & _). cbn in *.
  destruct t; cbn [negb].
  - exists (array h), fl. rewrite Z.add_0_r, <- (fl_avail _ _ F). destruct h. split_and!; try done. naive_solver.
  - unfold absorb. rewrite !(u64_small i h), (u64_small sz h) by lia.
    destruct (remove_member h fl i F (Hi eq_refl) Hs) as (a' & fl' & -> & F' & Hm & Hl & Hf).
    cbn [mbind option_bind]. rewrite (size_ok _ i s false); [|done|lia|cbn; by rewrite Hf].
    cbn [mbind option_bind]. rewrite (i32_small _ h) by lia.
    exists a', fl'. split_and!; try done. intros j. rewrite Hm. naive_solver.
Qed.

(** The block a free leaves: the neighbours on both sides when available. *)
Definition part (s : Z) (t : bool) : list block := if t then [] else [(s, t)].
Definition extra (s : Z) (t : bool) : Z := if t then 0 else s.
Definition kept (s : Z) (t : bool) : list block := if t then [(s, t)] else [].

Lemma part_kept_l l s t : l ++ [(s, t)] = (l ++ kept s t) ++ part s t.
Proof. destruct t; cbn; by rewrite ?app_nil_r. Qed.
Lemma part_kept_r l s t : (s, t) :: l = part s t ++ kept s t ++ l.
Proof. by destruct t. Qed.
Lemma total_part s t : total (part s t) = extra s t.
Proof. destruct t; cbn; lia. Qed.

(** Merging keeps the neighbours of the result taken. *)
Lemma separated_merged (l1 l2 : list block) s0 t0 s s1 t1 s' :
  separated (l1 ++ (s0, t0) :: (s, true) :: (s1, t1) :: l2).*2 →
  separated ((l1 ++ kept s0 t0) ++ [(s', false)] ++ kept s1 t1 ++ l2).*2.
Proof.
  rewrite !fmap_app, !fmap_cons. cbn [snd]. intros [Hl Hr]%separated_app.
  change (t0 :: true :: t1 :: l2.*2) with ([t0; true] ++ t1 :: l2.*2) in Hr.
  apply separated_app in Hr as [_ Hr].
  assert (separated (false :: (kept s1 t1).*2 ++ l2.*2)) as Hr'.
  { destruct t1; cbn in *; [done|]. destruct (l2.*2); cbn in *; naive_solver. }
  cbn [fmap list_fmap snd]. change ([false] ++ (kept s1 t1).*2 ++ l2.*2) with (false :: (kept s1 t1).*2 ++ l2.*2).
  apply separated_app. split; [|done].
  destruct t0; cbn; [|by rewrite app_nil_r].
  rewrite <- app_assoc. apply separated_app. split; [done|]. by cbn.
Qed.

Lemma not_in_merged p s0 t0 s s1 t1 i :
  (∀ x, (i, x, false) ∉ spans p (part s0 t0 ++ [(s, true)] ++ part s1 t1)) ↔
  (t0 = false → i ≠ p) ∧ (t1 = false → i ≠ p + extra s0 t0 + s).
Proof.
  rewrite spans_app, total_part. cbn [app spans]. split.
  - intros H. split; intros -> ->; [apply (H s0)|apply (H s1)]; destruct t0 || destruct t1; set_solver.
  - intros [H0 H1] x. rewrite elem_of_app, elem_of_cons.
    intros [Hx|[[=]|Hx]]; [destruct t0|destruct t1]; cbn in Hx; [by apply not_elem_of_nil in Hx| |by apply not_elem_of_nil in Hx|];
      apply elem_of_cons in Hx as [[= -> _]|?%not_elem_of_nil]; naive_solver.
Qed.

(** Writing links only does not disturb the checks of [sanity]. *)
Lemma frame_sanity h h' bs fl j :
  heap_inv h bs fl → len h' = len h → (∀ k, no_link fl k → rd (array h') k = rd (array h) k) →
  j ∈ fl → sanity j h' = Some j.
Proof.
  intros I Hl Hf [s Hj]%(til_members _ _ _ (inv_tiling _ _ _ I)).
  destruct (inv_span _ _ _ I _ _ _ Hj) as (?&?&?&_&?&_).
  destruct (tiling_no_link_tag _ _ _ _ _ _ (inv_tiling _ _ _ I) Hj).
  destruct (inv_tags _ _ _ I _ _ _ Hj) as [T1 T2].
  eapply sanity_ok; [done|done| |done|lia|rewrite Hl; apply (fl_small _ _ (inv_list _ _ _ I))].
  split; by rewrite Hf.
Qed.

Lemma inv_counters h bs fl x : heap_inv h bs fl → heap_inv (h .[ n_free := x ]) bs fl.
Proof. intros [? [] ?]. split; [done|by split|done]. Qed.

(** The neighbours [free] reads off the tags. *)
Lemma inv_left h l1 s0 t0 s t l2 fl :
  heap_inv h (l1 ++ (s0, t0) :: (s, t) :: l2) fl →
  left (total l1 + s0) h = Some (total l1) ∧ right (total l1 + s0) h = sanity (total l1 + s0 + s) h.
Proof.
  intros I. pose proof (spans_mid 0 l1 s0 t0 ((s, t) :: l2)) as H0.
  assert ((total l1 + s0, s, t) ∈ spans 0 (l1 ++ (s0, t0) :: (s, t) :: l2)) as H1.
  { rewrite spans_app. cbn. rewrite Z.add_0_l. set_solver. }
  rewrite Z.add_0_l in H0.
  destruct (inv_span _ _ _ I _ _ _ H0) as (?&?&?&_&W0&_).
  destruct (inv_span _ _ _ I _ _ _ H1) as (?&?&?&_&(?&?&_)&_). pose proof W0 as (?&?&_). cbn in *.
  pose proof (fl_small _ _ (inv_list _ _ _ I)).
  destruct (inv_tags _ _ _ I _ _ _ H0) as [_ Tf].
  split.
  - unfold left, headerFromFooter. rewrite (u64_small _ h) by lia.
    rewrite (size_ok h _ s0 t0) by done.
    cbn [mbind option_bind]. rewrite (u64_small _ h) by lia.
    replace (total l1 + s0 - 1 - s0 + 1) with (total l1) by lia. by eapply inv_sanity.
  - unfold right. rewrite (inv_size _ _ _ I _ _ _ H1). cbn [mbind option_bind].
    by rewrite (u64_small _ h) by lia.
Qed.

Lemma framed_merged l1 s0 t0 s s1 t1 l2 whole :
  framed (l1 ++ (s0, t0) :: (s, true) :: (s1, t1) :: l2) →
  4 <= s ∧ (4 <= whole → framed ((l1 ++ kept s0 t0) ++ [(whole, false)] ++ kept s1 t1 ++ l2)).
Proof.
  replace (l1 ++ (s0, t0) :: (s, true) :: (s1, t1) :: l2)
    with ((l1 ++ [(s0, t0)]) ++ (s, true) :: (s1, t1) :: l2) by (by rewrite <- app_assoc).
  intros E. apply framed_mid in E as (Hs & m1 & m2 & E1 & E2 & B1 & B2); [|by destruct l1|done].
  split; [exact Hs|]. intros Hw.
  assert (∃ m1', l1 ++ kept s0 t0 = (2, true) :: m1' ∧ Forall big m1') as (m1' & -> & B1').
  { destruct l1 as [|b l1']; [|injection E1 as -> <-]; cbn in *; simplify_eq; [cbn; eauto|].
    exists (l1' ++ kept s0 t0). split; [done|]. apply Forall_app in B1 as [? ?].
    apply Forall_app. split; [done|]. by destruct t0. }
  assert (∃ m2', kept s1 t1 ++ l2 = m2' ++ [(2, true)] ∧ Forall big m2') as (m2' & -> & B2').
  { destruct m2 as [|b m2']; cbn in E2; simplify_eq; [exists []; cbn; done|].
    exists (kept s1 t1 ++ m2'). rewrite <- app_assoc. split; [done|]. apply Forall_cons in B2 as [? ?].
    apply Forall_app. split; [|done]. destruct t1; [by constructor|done]. }
  apply framed_app; [done| |done]. by constructor.
Qed.

Section Free.
Context (h : Heap) (l1 : list block) (s0 : Z) (t0 : bool) (s s1 : Z) (t1 : bool) (l2 : list block) (fl : list Z).

Let bs := l1 ++ (s0, t0) :: (s, true) :: (s1, t1) :: l2.
Let idx := total l1 + s0.
Let start := total (l1 ++ kept s0 t0).
Let whole := extra s0 t0 + s + extra s1 t1.
Let merged := (l1 ++ kept s0 t0) ++ [(whole, false)] ++ kept s1 t1 ++ l2.

Context (I : heap_inv h bs fl).

Lemma free_spans :
  (total l1, s0, t0) ∈ spans 0 bs ∧ (idx, s, true) ∈ spans 0 bs ∧ (idx + s, s1, t1) ∈ spans 0 bs.
Proof. unfold bs, idx. rewrite spans_app. cbn. rewrite Z.add_0_l. set_solver. Qed.

Lemma free_split :
  bs = (l1 ++ kept s0 t0) ++ (part s0 t0 ++ [(s, true)] ++ part s1 t1) ++ kept s1 t1 ++ l2.
Proof.
  unfold bs. destruct t0, t1; cbn; rewrite ?app_nil_r, <- ?app_assoc; done.
Qed.

Lemma free_start : start + extra s0 t0 = idx ∧ start = if t0 then idx else total l1.
Proof. unfold start, idx. rewrite total_app. destruct t0; cbn; lia. Qed.

Lemma free_framed : 4 <= s ∧ framed merged.
Proof using I.
  pose proof (inv_tiling _ _ _ I) as T. destruct free_spans as (H0 & _ & H2).
  destruct (framed_merged _ _ _ _ _ _ _ whole (til_ends _ _ _ T)) as [Hs Hf]. split; [done|]. apply Hf.
  destruct (tiling_span _ _ _ _ _ _ T H0) as (_&_&_&(_&?&_)).
  destruct (tiling_span _ _ _ _ _ _ T H2) as (_&_&_&(_&?&_)). cbn in *.
  unfold whole. destruct t0, t1; cbn; lia.
Qed.

Lemma free_tiling fl' :
  (∀ j, j ∈ fl' ↔ j = start ∨ (j ∈ fl ∧ (t0 = false → j ≠ total l1)) ∧ (t1 = false → j ≠ idx + s)) →
  tiling (len h) merged fl'.
Proof using I.
  intros Hm. pose proof (inv_tiling _ _ _ I) as T. pose proof free_start as [Hst Hst'].
  destruct free_spans as (H0 & H1 & H2).
  destruct (tiling_span _ _ _ _ _ _ T H0) as (?&?&?&(?&?&?)).
  destruct (tiling_span _ _ _ _ _ _ T H1) as (?&?&?&(?&?&?)).
  destruct (tiling_span _ _ _ _ _ _ T H2) as (?&?&?&(?&?&?)). cbn in *.
  unfold merged. apply (replace_tiling _ _ (part s0 t0 ++ [(s, true)] ++ part s1 t1) (kept s1 t1 ++ l2) fl [(whole, false)]).
  - rewrite <- free_split. exact T.
  - unfold whole. rewrite !total_app, !total_part. cbn. lia.
  - constructor; [|done]. unfold whole, wf_block. cbn. destruct free_framed as [? _].
    destruct t0, t1; cbn in *; split_and!; lia || word_lia.
  - eapply separated_merged. apply (til_sep _ _ _ T).
  - apply free_framed.
  - intros i. fold start. rewrite Hm, not_in_merged, Hst.
    assert ((∃ x, (i, x, false) ∈ spans start [(whole, false)]) ↔ i = start) as ->.
    { cbn. split; [intros [x [[= -> _]|?%not_elem_of_nil]%elem_of_cons]; done|intros ->; exists whole; by left]. }
    assert ((t0 = false → i ≠ start) ↔ (t0 = false → i ≠ total l1)) as ->; [|tauto].
    rewrite Hst'. by destruct t0.
Qed.
Context (B : base_ok h).
Let h0 := h .[ n_free := u64 (n_free h + 1) ].

(** Both neighbours taken off the list. *)
Lemma free_merges :
  ∃ a' fl',
  let h' := h0 .[ array := a' ] .[ avail := default 0 (head fl') ] in
  ('(sz, h1) ← (if negb t0 then absorb (total l1) s h0 else Some (s, h0));
   r ← isAvail (idx + s) h1;
   if r : bool then absorb (idx + s) sz h1 else Some (sz, h1)) = Some (whole, h')
  ∧ freelist h' fl'
  ∧ (∀ j, j ∈ fl' ↔ (j ∈ fl ∧ (t0 = false → j ≠ total l1)) ∧ (t1 = false → j ≠ idx + s))
  ∧ length a' = length (array h) ∧ (∀ j, no_link fl j → rd a' j = rd (array h) j).
Proof using I.
  pose proof (inv_tiling _ _ _ I) as T. pose proof (inv_counters _ _ _ (u64 (n_free h + 1)) I) as I0.
  fold h0 in I0. destruct free_spans as (H0 & H1 & H2).
  destruct (inv_span _ _ _ I _ _ _ H0) as (?&?&?&_&W0&R0).
  destruct (inv_span _ _ _ I _ _ _ H1) as (?&?&?&_&W1&_).
  destruct (inv_span _ _ _ I _ _ _ H2) as (?&?&?&_&W2&R2).
  destruct (tiling_no_link_tag _ _ _ _ _ _ T H0) as [N0 _].
  destruct (tiling_no_link_tag _ _ _ _ _ _ T H2) as [N2 _].
  pose proof W0 as (_&?&_). pose proof W1 as (_&?&_). pose proof W2 as (_&?&_). cbn in *.
  destruct (merge_ok h0 fl (total l1) s0 t0 s) as (a1 & fl1 & -> & F1 & M1 & L1 & X1);
    [apply I0|apply (inv_free_sanity _ _ _ I0)| |done|done|done|lia|cbn; lia|cbn; lia|].
  { intros ->. apply (til_members _ _ _ T). eauto. }
  set (h1 := h0 .[ array := a1 ] .[ avail := default 0 (head fl1) ]) in *.
  cbn [mbind option_bind]. rewrite (isAvail_ok h1 _ s1 t1); [|done|cbn; by rewrite X1].
  cbn [mbind option_bind].
  destruct (merge_ok h1 fl1 (idx + s) s1 t1 (s + (if t0 then 0 else s0))) as (a2 & fl2 & -> & F2 & M2 & L2 & X2);
    [done| | |done| | |destruct t0; lia|cbn; lia|cbn; unfold idx in *; destruct t0; lia|].
  { intros j [Hj _]%M1. eapply (frame_sanity h h1); [exact I|done|exact X1|done]. }
  { intros ->. apply M1. split; [apply (til_members _ _ _ T); eauto|]. intros _. unfold idx. lia. }
  { intros j [Hj _]%M1. by apply N2. }
  { cbn. by rewrite X1. }
  exists a2, fl2. split_and!.
  - cbn. f_equal. f_equal. unfold whole, extra. destruct t0, t1; lia.
  - done.
  - intros j. by rewrite M2, M1.
  - rewrite L2. exact L1.
  - intros j Hj. rewrite X2; [by apply X1|]. intros i [Hi _]%M1. by apply Hj.
Qed.

Lemma free_unfold :
  free (address_of (idx + 1) h) h =
  ('(sz, h1) ← (if negb t0 then absorb (total l1) s h0 else Some (s, h0));
   r ← isAvail (idx + s) h1;
   '(sz, h1) ← (if r : bool then absorb (idx + s) sz h1 else Some (sz, h1));
   makeAvail start (u64 sz) h1).
Proof using I B.
  pose proof (inv_counters _ _ _ (u64 (n_free h + 1)) I) as I0. fold h0 in I0.
  destruct free_spans as (H0 & H1 & H2). pose proof (fl_small _ _ (inv_list _ _ _ I)) as Hsm.
  destruct (inv_span _ _ _ I _ _ _ H0) as (?&?&?&_&W0&_). pose proof W0 as (_&?&_).
  destruct (inv_span _ _ _ I _ _ _ H1) as (?&?&?&_&W1&_). pose proof W1 as (_&?&_).
  destruct (inv_span _ _ _ I _ _ _ H2) as (?&?&?&_&W2&_). pose proof W2 as (_&?&_). cbn in *.
  destruct (address_of_ok h (idx + 1) B) as [Ha ?]; [lia|]. destruct free_start as [_ Hst].
  pose proof B as (_ & Hb0 & Hb1). change (2 ^ 64) with 18446744073709551616 in *.
  unfold free. rewrite (proj2 (Z.eqb_neq _ 0)), (proj2 (Z.eqb_neq _ (array_base h))) by lia.
  fold h0. change (array_base h0) with (array_base h). rewrite Ha.
  rewrite (u64_id (array_base h + 8 * (idx + 1) - array_base h)) by word_lia.
  replace ((array_base h + 8 * (idx + 1) - array_base h) / 8 - 1) with idx by word_lia.
  rewrite !(u64_small idx h), !(i32_small idx h), !(u64_small idx h) by lia.
  rewrite (inv_sanity _ _ _ I0 _ _ _ H1), (inv_isAvail _ _ _ I0 _ _ _ H1), (inv_size _ _ _ I0 _ _ _ H1).
  cbn [mbind option_bind]. destruct (inv_left h0 _ _ _ _ _ _ _ I0) as [HL HR]. fold idx in HL, HR.
  rewrite HL, HR, (inv_sanity _ _ _ I0 _ _ _ H2). cbn [mbind option_bind].
  rewrite !(i32_small (total l1) h), !(u64_small (total l1) h), !(i32_small (idx + s) h), !(u64_small (idx + s) h),
    (i32_small s h) by lia.
  rewrite (inv_isAvail _ _ _ I0 _ _ _ H0). cbn [mbind option_bind]. rewrite Hst.
  destruct t0; cbn [negb mbind option_bind].
  - by rewrite (u64_small idx h) by lia.
  - destruct (absorb (total l1) s h0) as [[??]|]; cbn [mbind option_bind]; [|done].
    by rewrite (u64_small (total l1) h) by lia.
Qed.

Lemma free_ok :
  ∃ a' fl', let h' := h0 .[ array := a' ] .[ avail := default 0 (head fl') ] in
  free (address_of (idx + 1) h) h = Some h' ∧ heap_inv h' merged fl'
  ∧ ∀ j, no_link fl j → j < start ∨ start + whole <= j → rd a' j = rd (array h) j.
Proof using I B.
  pose proof (inv_tiling _ _ _ I) as T. destruct free_spans as (H0 & H1 & H2).
  pose proof (fl_small _ _ (inv_list _ _ _ I)) as Hsm. destruct free_start as [Hst Hst'].
  destruct (inv_span _ _ _ I _ _ _ H0) as (?&?&?&_&(_&?&_)&_).
  destruct (inv_span _ _ _ I _ _ _ H1) as (?&?&?&_&(_&?&_)&_).
  destruct (inv_span _ _ _ I _ _ _ H2) as (?&?&?&_&(_&?&_)&_). cbn in *.
  rewrite free_unfold. destruct free_merges as (a1 & fl1 & E & F1 & M1 & L1 & X1).
  set (h1 := h0 .[ array := a1 ] .[ avail := default 0 (head fl1) ]) in *.
  assert (0 <= start ∧ start + whole <= len h) as [??].
  { rewrite Hst'. unfold whole, extra, idx in *. destruct t0, t1; lia. }
  assert (∀ fl', (∀ j, j ∈ fl' ↔ j = start ∨ j ∈ fl1) → tiling (len h) merged fl') as T'.
  { intros fl' Hm. apply free_tiling. intros j. by rewrite Hm, M1. }
  destruct free_framed as [Hs4 _].
  assert (∀ k, start <= k < start + whole → no_link fl1 k) as Hblk.
  { intros k Hk j Hj. pose proof Hj as [[Hjf Hj0] Hj1]%M1.
    apply (til_members _ _ _ T) in Hjf as [sj Hj']. pose proof (tiling_free_pos _ _ _ _ _ T Hj').
    pose proof (spans_disjoint _ _ _ _ _ _ _ _ (til_wf _ _ _ T) H0 Hj') as D0.
    pose proof (spans_disjoint _ _ _ _ _ _ _ _ (til_wf _ _ _ T) H1 Hj') as D1.
    pose proof (spans_disjoint _ _ _ _ _ _ _ _ (til_wf _ _ _ T) H2 Hj') as D2.
    rewrite Hst' in Hk. unfold whole, extra, idx in *. destruct t0, t1; lia. }
  assert (wf_block (whole, false)) as Hw.
  { pose proof (til_wf _ _ _ (T' (start :: fl1) ltac:(intros; by rewrite elem_of_cons))) as Hw.
    apply Forall_app in Hw as [_ [Hw _]%Forall_cons]. done. }
  destruct (if negb t0 then _ else _) as [[sz hz]|]; [|discriminate E]. cbn [mbind option_bind] in *.
  destruct (isAvail (idx + s) hz) as [r|]; [|discriminate E]. cbn [mbind option_bind] in *.
  rewrite E. cbn [mbind option_bind]. rewrite (u64_small whole h) by (unfold whole, extra in *; destruct t0, t1; lia).
  destruct (makeAvail_ok h1 fl1 start whole) as (a2 & -> & F2 & T2 & L2 & X2).
  { done. }
  { apply (tiling_apart _ merged). apply T'. intros. by rewrite elem_of_cons. }
  { intros Hin. destruct (Hblk (start + 1)) with start; [|done|lia].
    destruct Hw as (_ & _ & Hw). specialize (Hw eq_refl). cbn in Hw. lia. }
  { done. } { done. }
  { apply Hblk. destruct Hw as (_ & Hw & _). cbn in Hw. lia. }
  { apply Hblk. destruct Hw as (_ & Hw & _). cbn in Hw. lia. }
  exists a2, (start :: fl1).
  assert (∀ j, no_link fl j → j < start ∨ start + whole <= j → rd a2 j = rd (array h) j) as Hfr.
  { destruct Hw as (_ & _ & Hw). specialize (Hw eq_refl). cbn in Hw.
    intros j Hj Hr. rewrite X2; [by apply X1| |lia|lia].
    intros i [->|[[Hi _] _]%M1]%elem_of_cons; [lia|by apply Hj]. }
  split_and!; [done| |exact Hfr]. split; cbn.
  - apply T'. intros. by rewrite elem_of_cons.
  - done.
  - unfold merged. apply (replace_tags h _ (part s0 t0 ++ [(s, true)] ++ part s1 t1) _ fl [(whole, false)]).
    + rewrite <- free_split. exact I.
    + unfold whole. rewrite !total_app, !total_part. cbn. lia.
    + intros i x t. cbn. rewrite elem_of_cons, elem_of_nil. intros [[= -> -> ->]|[]]. exact T2.
    + fold start. rewrite !total_app, !total_part. cbn. intros j Hj Hr. apply Hfr; [done|].
      unfold whole. lia.
Qed.
End Free.

(** ** Setting the heap up *)

Lemma init_ok base nbytes contents hz h :
  init base nbytes contents hz = Some h → avail hz = 0 →
  0 <= base → 0 <= nbytes < 2 ^ 34 → base + nbytes <= 2 ^ 64 →
  ∃ bs, heap_inv h bs [2] ∧ base_ok h ∧ bs = [(2, true); (len h - 4, false); (2, true)] ∧ 8 <= len h
    ∧ n_malloc h = n_malloc hz ∧ n_free h = n_free hz ∧ n_leak h = n_leak hz.
Proof.
  intros E Hav Hb Hn Hbn. change (2 ^ 34) with 17179869184 in *. change (2 ^ 64) with 18446744073709551616 in *.
  unfold init in E. set (al := u64 (u64 (base + 8 + 15) / 16 * 16 - 8)) in E.
  destruct (Z.eqb_spec (al mod 16) 8) as [Hal|]; [|done]. cbn [negb] in E.
  destruct (Z.ltb_spec al base); [done|]. destruct (Z.leb_spec 16 (al - base)); [done|].
  destruct (Z.ltb_spec nbytes (al - base)); [done|].
  set (nb := (nbytes - (al - base)) / 16 * 16) in E. destruct (Z.leb_spec nb 64); [done|].
  set (n := nb / 8) in E. set (hi := hz .[ array_base := al ] .[ array := contents <$> seqZ 0 n ] .[ len := n ]) in E.
  assert (0 <= al ∧ n mod 2 = 0 ∧ 10 <= n < 2147483648 ∧ al + 8 * n <= 18446744073709551616) as (? & Hev & Hr & ?).
  { subst n nb. clearbody al. split_and!; word_lia. }
  clearbody n al. assert (n = Z.of_nat (length (array hi))) as Hl by (cbn; rewrite length_fmap, length_seqZ; lia).
  destruct (makeTaken_ok hi 0 2) as (a1 & E1 & T1 & L1 & X1);
    [done|change (2 ^ 31) with 2147483648; cbn; lia|by split_and!|done|cbn; lia|].
  rewrite E1 in E. cbn [mbind option_bind] in E.
  assert (apart n [2]) as Hap.
  { split; [intros i ->%list_elem_of_singleton; lia|intros i j ->%list_elem_of_singleton ->%list_elem_of_singleton; done]. }
  destruct (makeAvail_ok (hi .[ array := a1 ]) [] 2 (n - 4)) as (a2 & E2 & F2 & T2 & L2 & X2).
  { split; cbn; [rewrite L1; exact Hl|change (2 ^ 31) with 2147483648; lia| |constructor|done|done].
    split; [by intros i ?%not_elem_of_nil|by intros i j ?%not_elem_of_nil]. }
  { done. } { apply not_elem_of_nil. } { split_and!; cbn; [word_lia|lia|lia]. } { cbn. lia. }
  { by intros j ?%not_elem_of_nil. } { by intros j ?%not_elem_of_nil. }
  rewrite E2 in E. cbn [mbind option_bind] in E. cbn in L2.
  set (h2 := hi .[ array := a1 ] .[ array := a2 ] .[ avail := 2 ]) in *.
  destruct (makeTaken_ok h2 (n - 2) 2) as (a3 & E3 & T3 & L3 & X3);
    [cbn; rewrite L2, L1; exact Hl|change (2 ^ 31) with 2147483648; cbn; lia|by split_and!|lia|cbn; lia|].
  rewrite E3 in E. injection E as <-. cbn in L3.
  assert (∀ j, no_link [2] j → j ≠ n - 2 → j ≠ n - 1 → j ≠ 2 → j ≠ n - 3 → rd a3 j = rd a1 j) as X.
  { intros j Hj ????. rewrite X3 by lia. cbn. apply X2; [done|lia..]. }
  assert (no_link [2] 0 ∧ no_link [2] 1) as [N0 N1] by (split; intros i ->%list_elem_of_singleton; lia).
  exists [(2, true); (n - 4, false); (2, true)]. split_and!; try done; [|cbn; lia]. split.
  - split; cbn.
    + exists [(n - 4, false)]. split; [done|]. repeat constructor. unfold big. cbn. lia.
    + repeat constructor; cbn; try done; try lia. word_lia.
    + lia.
    + done.
    + intros i. rewrite list_elem_of_singleton. split; [intros ->; exists (n - 4); set_solver|].
      intros [s Hs]. rewrite !elem_of_cons, elem_of_nil in Hs. naive_solver.
  - apply (freelist_frame h2); [done..|]. intros j Hj.
    apply X3; intros ->; apply Hj; intros i ->%list_elem_of_singleton; lia.
  - cbn. intros i s t. rewrite !elem_of_cons, elem_of_nil.
    destruct T1 as [T1 T1'], T2 as [T2 T2'], T3 as [T3 T3'].
    change (0 + 2 - 1) with 1 in T1'.
    intros [[= -> -> ->]|[[= -> -> ->]|[[= -> -> ->]|[]]]]; split; rewrite ?Z.add_0_l.
    + by rewrite X by (done || lia).
    + change (2 - 1) with 1. by rewrite X by (done || lia).
    + by rewrite X3 by lia.
    + by rewrite X3 by lia.
    + by replace (2 + (n - 4)) with (n - 2) by lia.
    + by replace (2 + (n - 4) + 2 - 1) with (n - 2 + 2 - 1) by lia.
Qed.

(** ** What the callers of [malloc] and [free] see

    The words at a pointer, and the table of the blocks a caller holds with
    what it stored in them. *)

Definition words_at (h : Heap) (p : Z) (n : nat) : list Z :=
  take n (drop (Z.to_nat ((p - array_base h) / 8)) (array h)).

(** The caller's block at [p], with contents [x], is a taken block. *)
Definition holds (h : Heap) (bs : list block) (p : Z) (x : list Z) : Prop :=
  ∃ i s, (i, s, true) ∈ spans 0 bs ∧ 0 < i ∧ i + s < len h ∧ p = address_of (i + 1) h
  ∧ Z.of_nat (length x) <= s - 2
  ∧ ∀ k w, x !! k = Some w → rd (array h) (i + 1 + Z.of_nat k) = Some w.

Record view (h : Heap) (live : gmap Z (list Z)) (bs : list block) (fl : list Z) : Prop := {
  view_inv : heap_inv h bs fl;
  view_base : base_ok h;
  view_some : ∀ p x, live !! p = Some x → holds h bs p x;
  view_all : ∀ i s, (i, s, true) ∈ spans 0 bs → 0 < i → i + s < len h →
    is_Some (live !! address_of (i + 1) h);
  view_count : n_malloc h = u64 (n_free h + Z.of_nat (base.size live));
  view_leak : n_leak h = 0;
  view_room : 8 <= len h;
}.

Lemma span_elsewhere l1 mid l2 i s t :
  Forall wf_block (l1 ++ mid ++ l2) → (i, s, t) ∈ spans 0 (l1 ++ mid ++ l2) →
  (i, s, t) ∈ spans (total l1) mid ∨
  ((i + s <= total l1 ∨ total l1 + total mid <= i)
   ∧ ∀ new, total new = total mid → (i, s, t) ∈ spans 0 (l1 ++ new ++ l2)).
Proof.
  intros [H1 [H2 H3]%Forall_app]%Forall_app Hi. rewrite !spans_app, Z.add_0_l in Hi.
  apply elem_of_app in Hi as [Hi|[Hi|Hi]%elem_of_app]; [right|by left|right].
  - pose proof (spans_bounds _ _ _ _ _ H1 Hi) as (_&?&_). split; [lia|].
    intros new _. rewrite spans_app. set_solver.
  - pose proof (spans_bounds _ _ _ _ _ H3 Hi) as (?&_). split; [lia|].
    intros new Ht. rewrite !spans_app, Z.add_0_l, Ht. set_solver.
Qed.

Lemma address_of_inj h i j :
  base_ok h → 0 <= i < len h → 0 <= j < len h → address_of i h = address_of j h → i = j.
Proof.
  intros Hb Hi Hj E. destruct (address_of_ok h i Hb Hi), (address_of_ok h j Hb Hj). lia.
Qed.

(** A block outside the part of the tiling that changes. *)
Lemma holds_transfer h h' l1 mid l2 fl new p x :
  heap_inv h (l1 ++ mid ++ l2) fl → holds h (l1 ++ mid ++ l2) p x →
  (∀ i s, (i, s, true) ∈ spans (total l1) mid → p ≠ address_of (i + 1) h) →
  len h' = len h → array_base h' = array_base h → total new = total mid →
  (∀ j, no_link fl j → j < total l1 ∨ total l1 + total mid <= j → rd (array h') j = rd (array h) j) →
  holds h' (l1 ++ new ++ l2) p x.
Proof.
  intros I (i & s & Hi & H0 & Hl & -> & Hx & Hc) Hnew El Eb Et Hf.
  pose proof (inv_tiling _ _ _ I) as T.
  destruct (span_elsewhere _ _ _ _ _ _ (til_wf _ _ _ T) Hi) as [Hm|[Hout Hin]].
  { destruct (Hnew _ _ Hm). done. }
  exists i, s. split_and!; [auto|done|lia|unfold address_of; by rewrite Eb|done|].
  intros k w Hk. pose proof (lookup_lt_Some _ _ _ Hk). rewrite Hf; [by apply Hc| |lia].
  eapply tiling_no_link_taken; [exact T|exact Hi|lia].
Qed.

(** Every other taken block of the new tiling was there before. *)
Lemma all_transfer h l1 mid l2 fl new (live : gmap Z (list Z)) i s :
  Forall wf_block (l1 ++ new ++ l2) → total new = total mid →
  (∀ i s, (i, s, true) ∈ spans 0 (l1 ++ mid ++ l2) → 0 < i → i + s < len h →
    is_Some (live !! address_of (i + 1) h)) → heap_inv h (l1 ++ mid ++ l2) fl →
  (i, s, true) ∈ spans 0 (l1 ++ new ++ l2) → 0 < i → i + s < len h →
  (i, s, true) ∈ spans (total l1) new ∨ 
  (is_Some (live !! address_of (i + 1) h) ∧ (i + s <= total l1 ∨ total l1 + total new <= i)).
Proof.
  intros Hw Et Hall I Hi H0 Hl.
  destruct (span_elsewhere _ _ _ _ _ _ Hw Hi) as [Hm|[Hout Hin]]; [by left|right].
  split; [|done]. eapply Hall; [by apply Hin|done|done].
Qed.

Lemma words_at_ok h i n :
  base_ok h → len h = Z.of_nat (length (array h)) → 0 <= i → i + Z.of_nat n <= len h → i < len h →
  length (words_at h (address_of i h) n) = n
  ∧ ∀ k w, words_at h (address_of i h) n !! k = Some w → rd (array h) (i + Z.of_nat k) = Some w.
Proof.
  intros B Hl Hi Hn Hi'. destruct (address_of_ok h i B ltac:(lia)) as [E _]. unfold words_at. rewrite E.
  replace ((array_base h + 8 * i - array_base h) / 8) with i by word_lia.
  rewrite length_take, length_drop. split; [lia|]. intros k w Hk.
  apply lookup_take_Some in Hk as [Hk ?]. rewrite lookup_drop in Hk. unfold rd.
  rewrite (proj2 (Z.ltb_ge _ _)) by lia. rewrite <- Hk. f_equal. lia.
Qed.

Lemma tiling_inside n l1 s t l2 fl :
  tiling n (l1 ++ (s, t) :: l2) fl → l2 ≠ [] → total l1 + s < n.
Proof.
  intros [_ Hw <- _ _] Hne. rewrite total_app. cbn. apply Forall_app in Hw as [_ [_ Hw]%Forall_cons].
  destruct l2 as [|[s' t'] l2]; [done|]. apply Forall_cons in Hw as [(_&?&_) Hw].
  pose proof (total_nonneg _ Hw). cbn in *. lia.
Qed.

Lemma carved_taken e mx : e <= mx →
  ∃ sz rest, carved e mx = (sz, true) :: rest ∧ e <= sz <= mx ∧ total (carved e mx) = mx
  ∧ ∀ p i s, (i, s, true) ∈ spans p (carved e mx) → i = p ∧ s = sz.
Proof.
  intros. unfold carved. destruct (Z.leb_spec 4 (mx - e)); eexists _, _; split_and!; try done; cbn; try lia.
  - intros p i s. rewrite !elem_of_cons, elem_of_nil. naive_solver.
  - intros p i s. rewrite !elem_of_cons, elem_of_nil. naive_solver.
Qed.

Lemma view_malloc h live bs fl n :
  view h live bs fl → 0 < n <= 2 ^ 63 →
  ∃ p h', malloc n h = Some (p, h') ∧
  ((p = 0 ∧ h' = h ∧ ∀ i s, (i, s, false) ∈ spans 0 bs → s < entries_for n) ∨
   (p ≠ 0 ∧ live !! p = None ∧
    (∃ bs' fl', view h' (<[p := words_at h' p (Z.to_nat ((n + 7) / 8))]> live) bs' fl') ∧
    ∃ i mx, (i, mx, false) ∈ spans 0 bs ∧ p = address_of (i + 1) h ∧ entries_for n <= mx ∧
      (Z.of_nat (length (fitting h (entries_for n) fl)) < 20 →
        ∀ j s, (j, s, false) ∈ spans 0 bs → entries_for n <= s → mx <= s))).
Proof.
  intros [I B Hsome Hall Hcnt Hleak Hroom] Hn. destruct (entries_for_ok n Hn) as (_ & H4 & Hen).
  destruct (malloc_ok h bs fl n I B Hn) as [[-> Hno]|(l1 & mx & l2 & a' & fl' & -> & Hle & -> & I' & Hfr & Hbest)].
  { eexists _, _. split; [done|]. by left. }
  set (h' := h .[ array := a' ] .[ avail := _ ] .[ n_malloc := _ ]) in *.
  eexists _, h'. split; [done|]. right. pose proof (inv_tiling _ _ _ I) as T. pose proof (inv_tiling _ _ _ I') as T'.
  pose proof (spans_mid 0 l1 mx false l2) as Hit. rewrite Z.add_0_l in Hit.
  destruct (tiling_free_pos _ _ _ _ _ T Hit) as [Hit2 _].
  destruct (carved_taken _ _ Hle) as (sz & rest & Ec & Hsz & Htot & Hc).
  assert ((total l1, sz, true) ∈ spans 0 (l1 ++ carved (entries_for n) mx ++ l2)) as Hnew.
  { rewrite Ec, !spans_app. cbn. rewrite Z.add_0_l. set_solver. }
  assert (total l1 + sz < len h) as Hin.
  { destruct (ends_free _ _ _ (til_ends _ _ _ T)) as [_ Hne].
    pose proof (tiling_inside _ _ _ _ _ _ T Hne). lia. }
  destruct (address_of_ok h (total l1 + 1) B) as [Ha Ha8]; [lia|].
  assert (∀ i s, (i, s, true) ∈ spans 0 (l1 ++ (mx, false) :: l2) → 0 <= i → i + s <= len h →
    address_of (total l1 + 1) h ≠ address_of (i + 1) h) as Hfresh.
  { intros i s Hi ?? E. destruct (tiling_span _ _ _ _ _ _ T Hi) as (_&_&_&(_&?&_)). cbn in *.
    apply (address_of_inj h) in E; [|done|lia..].
    destruct (spans_disjoint _ _ _ _ _ _ _ _ (til_wf _ _ _ T) Hit Hi) as [(?&?&?)|[?|?]]; [done|lia..]. }
  split_and!; [lia| | |].
  - destruct (live !! _) as [x|] eqn:Ex; [|done].
    destruct (Hsome _ _ Ex) as (i & s & Hi & ? & ? & E & _). destruct (Hfresh i s Hi); [lia..|done].
  - exists (l1 ++ carved (entries_for n) mx ++ l2), fl'.
    destruct (words_at_ok h' (total l1 + 1) (Z.to_nat ((n + 7) / 8))) as [Hwl Hwk];
      [done|apply (inv_list _ _ _ I')|lia|cbn; word_lia|cbn; lia|].
    change (address_of (total l1 + 1) h') with (address_of (total l1 + 1) h) in Hwl, Hwk.
    split; [done|done| | | |done|done].
    + intros p x [[<- <-]|[Hne Hp]]%lookup_insert_Some.
      * exists (total l1), sz. split_and!; [done|lia|done|done|rewrite Hwl; word_lia|exact Hwk].
      * eapply (holds_transfer h h' l1 [(mx, false)] l2 fl); [done|by apply Hsome| |done|done| |].
        -- intros i s [?|?%not_elem_of_nil]%elem_of_cons; done.
        -- rewrite Htot. cbn. lia.
        -- cbn. rewrite Z.add_0_r. exact Hfr.
    + intros i s Hi ??. destruct (all_transfer h l1 [(mx, false)] l2 fl (carved (entries_for n) mx) live i s) as [Hm|[Hm ?]];
        [apply (til_wf _ _ _ T')|rewrite Htot; cbn; lia|exact Hall|exact I|done..| |].
      * apply Hc in Hm as [-> ->]. rewrite lookup_insert_eq. eauto.
      * apply lookup_insert_is_Some'. by right.
    + cbn. rewrite map_size_insert_None; [rewrite Hcnt; word_lia|].
      destruct (live !! _) as [x|] eqn:Ex; [|done].
      destruct (Hsome _ _ Ex) as (i & s & Hi & ? & ? & E & _). destruct (Hfresh i s Hi); [lia..|done].
  - exists (total l1), mx. split_and!; done.
Qed.

Lemma view_free h live bs fl p x :
  view h live bs fl → live !! p = Some x →
  ∃ h' bs' fl', free p h = Some h' ∧ view h' (delete p live) bs' fl'.
Proof.
  intros [I B Hsome Hall Hcnt Hleak Hroom] Hp. pose proof (inv_tiling _ _ _ I) as T.
  destruct (Hsome _ _ Hp) as (i & s & Hi & H0 & Hl & -> & _).
  destruct (spans_split _ _ _ _ _ Hi) as (l1 & l2 & -> & ->). rewrite Z.add_0_l in *.
  destruct l1 as [|[s0 t0] l1 _] using rev_ind; [cbn in H0; lia|].
  destruct l2 as [|[s1 t1] l2].
  { pose proof (til_total _ _ _ T) as E. rewrite !total_app in *. cbn in *. lia. }
  rewrite <- app_assoc in *. cbn [app] in *.
  rewrite total_app in *. cbn [total] in *. rewrite Z.add_0_r in *.
  destruct (free_ok h l1 s0 t0 s s1 t1 l2 fl I B) as (a' & fl' & -> & I' & Hfr).
  pose proof (free_split h l1 s0 t0 s s1 t1 l2 fl I) as Hsplit. pose proof (inv_tiling _ _ _ I') as T'.
  destruct (free_start h l1 s0 t0 s s1 t1 l2 fl I) as [Hst _].
  set (h' := h .[ n_free := _ ] .[ array := a' ] .[ avail := _ ]) in *.
  eexists h', _, fl'. split; [done|].
  assert (∀ i x, (i, x, true) ∈ spans (total (l1 ++ kept s0 t0)) (part s0 t0 ++ [(s, true)] ++ part s1 t1) →
    i = total l1 + s0) as Hmid.
  { intros i y. rewrite spans_app, total_part, Hst. destruct t0, t1; cbn; set_solver. }
  assert (total [(extra s0 t0 + s + extra s1 t1, false)] = total (part s0 t0 ++ [(s, true)] ++ part s1 t1)) as Htot.
  { rewrite !total_app, !total_part. cbn. lia. }
  split; [exact I'|done| | | |done|done].
  - intros q y [Hne Hq]%lookup_delete_Some.
    eapply (holds_transfer h h' _ (part s0 t0 ++ [(s, true)] ++ part s1 t1) _ fl); rewrite <- ?Hsplit; [exact I|auto| |done|done|exact Htot|].
    + intros i z ->%Hmid. by intros ->.
    + rewrite <- Htot. cbn. rewrite Z.add_0_r. exact Hfr.
  - intros i z Hin ??. edestruct (all_transfer h (l1 ++ kept s0 t0) (part s0 t0 ++ [(s, true)] ++ part s1 t1) (kept s1 t1 ++ l2) fl
      [(extra s0 t0 + s + extra s1 t1, false)] live i z) as [Hm|[Hm Hout]];
      [apply (til_wf _ _ _ T')|exact Htot|rewrite <- Hsplit; exact Hall|rewrite <- Hsplit; exact I|exact Hin|done|done| |].
    + apply elem_of_cons in Hm as [[=]|?%not_elem_of_nil]; done.
    + change (address_of (i + 1) h') with (address_of (i + 1) h). rewrite lookup_delete_ne; [done|].
      intros E. destruct (tiling_span _ _ _ _ _ _ T Hi) as (?&?&_&(_&?&_)). cbn in *.
      destruct (tiling_span _ _ _ _ _ _ T' Hin) as (?&?&_&(_&?&_)). change (len h') with (len h) in *. cbn in *.
      apply (address_of_inj h) in E; [|done|lia..].
      destruct (free_spans h l1 s0 t0 s s1 t1 l2 fl I) as (Hs0 & _ & Hs1).
      destruct (tiling_span _ _ _ _ _ _ T Hs0) as (_&_&_&(_&?&_)).
      destruct (tiling_span _ _ _ _ _ _ T Hs1) as (_&_&_&(_&?&_)). cbn in *.
      unfold extra in *. destruct t0, t1; lia.
  - cbn. rewrite map_size_delete_Some by eauto. rewrite Hcnt.
    assert (base.size live ≠ 0%nat) by (rewrite map_size_ne_0_lookup; eauto). word_lia.
Qed.

(** A store of the caller inside its block. *)
Lemma view_poke h live bs fl p x k v :
  view h live bs fl → live !! p = Some x → 0 <= k < Z.of_nat (length x) →
  ∃ h', poke p k v h = Some h' ∧ view h' (<[p := <[Z.to_nat k := v]> x]> live) bs fl.
Proof.
  intros [I B Hsome Hall Hcnt Hleak Hroom] Hp Hk. pose proof (inv_tiling _ _ _ I) as T.
  destruct (Hsome _ _ Hp) as (i & s & Hi & H0 & Hl & -> & Hx & Hc).
  destruct (address_of_ok h (i + 1) B) as [Ha _]; [lia|]. pose proof B as (_ & Hb0 & Hb1).
  change (2 ^ 64) with 18446744073709551616 in *.
  pose proof (fl_len _ _ (inv_list _ _ _ I)) as Hlen.
  set (j := i + 1 + k).
  assert (no_link fl j) as Hj by (eapply tiling_no_link_taken; [exact T|exact Hi|lia]).
  assert (poke (address_of (i + 1) h) k v h = write j v h) as ->.
  { unfold poke. rewrite Ha, u64_id by word_lia. f_equal. subst j. word_lia. }
  rewrite write_ok by lia. set (h' := h .[ array := _ ]). exists h'. split; [done|].
  assert (∀ i' s' t', (i', s', t') ∈ spans 0 bs → (i' = i ∧ s' = s ∧ t' = true) ∨ j < i' ∨ i' + s' <= j) as Hout.
  { intros i' s' t' Hi'. destruct (spans_disjoint _ _ _ _ _ _ _ _ (til_wf _ _ _ T) Hi Hi') as [(?&?&?)|[?|?]];
      [by left|right; lia..]. }
  split; [split|done| | | |done|done].
  - exact T.
  - apply (freelist_frame h); [apply I|cbn; by rewrite length_insert|].
    intros y Hy. apply rd_insert_ne; [lia|]. by intros <-.
  - intros i' s' t' Hi'. destruct (inv_tags _ _ _ I _ _ _ Hi') as [T1 T2].
    destruct (tiling_span _ _ _ _ _ _ T Hi') as (?&?&_&(_&?&_)). cbn in *.
    destruct (Hout _ _ _ Hi') as [(->&->&->)|?]; split; rewrite rd_insert_ne by lia; done.
  - intros q y [[<- <-]|[Hne Hq]]%lookup_insert_Some.
    + exists i, s. split_and!; [done..|by rewrite length_insert|]. intros k' w Hw. cbn.
      destruct (decide (k' = Z.to_nat k)) as [->|].
      * rewrite list_lookup_insert_eq in Hw by lia. injection Hw as <-.
        replace (i + 1 + Z.of_nat (Z.to_nat k)) with j by lia. apply rd_insert_eq. lia.
      * rewrite list_lookup_insert_ne in Hw by done. rewrite rd_insert_ne by lia. by apply Hc.
    + destruct (Hsome _ _ Hq) as (i' & s' & Hi' & ? & ? & -> & Hx' & Hc').
      exists i', s'. split_and!; try done. intros k' w Hw. pose proof (lookup_lt_Some _ _ _ Hw). cbn.
      rewrite rd_insert_ne; [by apply Hc'|lia|].
      destruct (Hout _ _ _ Hi') as [(->&_)|?]; [done|lia].
  - intros i' s' Hi' ??. apply lookup_insert_is_Some'. right. by eapply Hall.
  - rewrite (map_size_insert_Some _ _ live); [exact Hcnt|by exists x].
Qed.

(** ** Every use of the heap

    [heap_client h live]: the state [h] is reached from [init] by calls of
    [malloc] and [free] and by stores through the pointers [malloc] returned,
    and [live] holds what the callers last stored in the blocks they hold. *)
Inductive heap_client : Heap → gmap Z (list Z) → Prop :=
| client_init base nbytes contents checks h :
    init base nbytes contents (heap_zero .[ safe := checks ]) = Some h →
    0 <= base → 0 <= nbytes < 2 ^ 34 → base + nbytes <= 2 ^ 64 → heap_client h ∅
| client_malloc h live n p h' :
    heap_client h live → 0 < n <= 2 ^ 63 → malloc n h = Some (p, h') →
    heap_client h' (if p =? 0 then live else <[p := words_at h' p (Z.to_nat ((n + 7) / 8))]> live)
| client_free h live p x h' :
    heap_client h live → live !! p = Some x → free p h = Some h' → heap_client h' (delete p live)
| client_poke h live p x k v h' :
    heap_client h live → live !! p = Some x → 0 <= k < Z.of_nat (length x) → poke p k v h = Some h' →
    heap_client h' (<[p := <[Z.to_nat k := v]> x]> live).

Lemma client_view h live : heap_client h live → ∃ bs fl, view h live bs fl.
Proof.
  induction 1 as [base nbytes contents checks h E ? ? ?|h live n p h' _ (bs&fl&V) Hn E
    |h live p x h' _ (bs&fl&V) Hp E|h live p x k v h' _ (bs&fl&V) Hp Hk E].
  - destruct (init_ok _ _ _ _ _ E) as (bs & I & B & -> & Hlen & Hm & Hf & Hlk); [done..|].
    eexists _, [2]. split; [done|done|by intros ??| | |by rewrite Hlk|lia].
    + intros i s. cbn [spans]. rewrite !elem_of_cons, elem_of_nil.
      intros [[= -> ->]|[[=]|[[= -> ->]|[]]]] ??; lia.
    + rewrite Hm, Hf. done.
  - destruct (view_malloc _ _ _ _ _ V Hn) as (p' & h2 & E2 & Hr). rewrite E in E2. injection E2 as <- <-.
    destruct Hr as [(->&->&_)|(Hp&_&(bs'&fl'&V')&_)]; [eauto|].
    rewrite (proj2 (Z.eqb_neq _ _)) by done. eauto.
  - destruct (view_free _ _ _ _ _ _ V Hp) as (h2 & bs' & fl' & E2 & V'). rewrite E in E2. injection E2 as <-. eauto.
  - destruct (view_poke _ _ _ _ _ _ _ v V Hp Hk) as (h2 & E2 & V'). rewrite E in E2. injection E2 as <-. eauto.
Qed.

(** The words a caller reads back are those it stored. *)
Lemma words_at_holds h bs p x :
  base_ok h → len h = Z.of_nat (length (array h)) → holds h bs p x → words_at h p (length x) = x.
Proof.
  intros B Hl (i & s & Hi & H0 & Hls & -> & Hx & Hc).
  destruct (words_at_ok h (i + 1) (length x)) as [Hw Hk]; [done|done|lia|lia|lia|].
  apply list_eq_same_length with (length x); [done|done|]. intros k y y' Hlt Hy Hy'.
  apply Hk in Hy. apply Hc in Hy'. congruence.
Qed.

(** Walking the list of available blocks. *)
Fixpoint walk (fuel : nat) (p : Z) (h : Heap) : option (list Z) :=
  if p =? 0 then Some []
  else match fuel with
  | O => None
  | S fuel => q ← next p h; l ← walk fuel q h; Some (p :: l)
  end.
Definition available (h : Heap) : option (list Z) := walk (length (array h)) (avail h) h.

Lemma available_ok h bs fl : heap_inv h bs fl → available h = Some fl.
Proof.
  intros I. pose proof (inv_list _ _ _ I) as F. unfold available. rewrite (fl_avail _ _ F).
  pose proof (inv_fuel _ _ _ I) as Hf. revert Hf. generalize (length (array h)) as fuel.
  enough (∀ l f1 fuel, fl = f1 ++ l → (length l <= fuel)%nat → walk fuel (default 0 (head l)) h = Some l) as Hw
    by (intros; by apply (Hw fl [])).
  induction l as [|p l IH]; intros f1 fuel Hfl Hlen; [by destruct fuel|].
  destruct fuel as [|fuel]; cbn in Hlen; [lia|]. cbn [head default]. change (id p) with p.
  cbn [walk]. assert (p ∈ fl) as Hp by (rewrite Hfl; set_solver).
  destruct (proj1 (fl_apart _ _ F) _ Hp). rewrite (proj2 (Z.eqb_neq p 0)) by lia.
  rewrite (inv_next _ _ _ I f1 p l Hfl). cbn [mbind option_bind].
  rewrite (IH (f1 ++ [p])); [done|by rewrite Hfl, <- app_assoc|lia].
Qed.

(** ** Theorems *)

(** C3: Whatever the callers do with [malloc], [free] and stores into the blocks they hold,
    every block they hold is 16-byte aligned, lies inside the heap, overlaps no other one and
    contains exactly what was last stored in it. *)
Theorem heap_blocks_safe h live :
  heap_client h live →
  (∀ p x, live !! p = Some x →
    p mod 16 = 0 ∧ array_base h <= p ∧ p + 8 * Z.of_nat (length x) <= array_base h + 8 * len h
    ∧ words_at h p (length x) = x)
  ∧ (∀ p q x y, live !! p = Some x → live !! q = Some y → p ≠ q →
    p + 8 * Z.of_nat (length x) <= q ∨ q + 8 * Z.of_nat (length y) <= p).
Proof.
  intros (bs & fl & [I B Hsome _ _ _ _])%client_view. pose proof (inv_tiling _ _ _ I) as T. split.
  - intros p x Hp. pose proof (words_at_holds _ _ _ _ B (fl_len _ _ (inv_list _ _ _ I)) (Hsome _ _ Hp)) as Hw.
    destruct (Hsome _ _ Hp) as (i & s & Hi & H0 & Hl & -> & Hx & _).
    destruct (address_of_ok h (i + 1) B) as [Ha _]; [lia|]. rewrite Ha in Hw |- *.
    destruct (tiling_span _ _ _ _ _ _ T Hi) as (_&_&He&_). destruct B as (Hb & _ & _).
    split_and!; [word_lia|lia|lia|done].
  - intros p q x y Hp Hq Hne.
    destruct (Hsome _ _ Hp) as (i & s & Hi & ? & ? & -> & ? & _).
    destruct (Hsome _ _ Hq) as (j & t & Hj & ? & ? & -> & ? & _).
    destruct (address_of_ok h (i + 1) B) as [-> _]; [lia|].
    destruct (address_of_ok h (j + 1) B) as [-> _]; [lia|].
    destruct (spans_disjoint _ _ _ _ _ _ _ _ (til_wf _ _ _ T) Hi Hj) as [(->&_)|[?|?]]; [done|lia..].
Qed.

(** C35: In every state the callers can reach, [malloc] of up to 2^63 bytes returns, [free] of
    a held pointer returns and a store inside a held block returns: no access leaves the array,
    no check of the debugging mode fails, the search terminates. A pointer [malloc] returns is new. *)
Theorem heap_calls_return h live :
  heap_client h live →
  (∀ n, 0 < n <= 2 ^ 63 → ∃ p h', malloc n h = Some (p, h') ∧ live !! p = None)
  ∧ (∀ p, is_Some (live !! p) → is_Some (free p h))
  ∧ (∀ p x k v, live !! p = Some x → 0 <= k < Z.of_nat (length x) → is_Some (poke p k v h)).
Proof.
  intros (bs & fl & V)%client_view. split_and!.
  - intros n Hn. destruct (view_malloc _ _ _ _ _ V Hn) as (p & h' & E & Hr). exists p, h'. split; [done|].
    destruct Hr as [(->&_&_)|(_&?&_)]; [|done].
    destruct (live !! 0) as [x|] eqn:E0; [|done].
    destruct (view_some _ _ _ _ V _ _ E0) as (i & s & _ & ? & ? & Ha & ? & _).
    destruct (address_of_ok h (i + 1) (view_base _ _ _ _ V)) as [_ ?]; lia.
  - intros p [x Hp]. destruct (view_free _ _ _ _ _ _ V Hp) as (h' & _ & _ & E & _). eauto.
  - intros p x k v Hp Hk. destruct (view_poke _ _ _ _ _ _ _ v V Hp Hk) as (h' & E & _). eauto.
Qed.

(** [malloc] fails only when every available block is too small, and while fewer than
    twenty available blocks are big enough it takes one of the smallest of them. *)
Theorem malloc_best_fit h live n :
  heap_client h live → 0 < n <= 2 ^ 63 →
  ∃ l p h', available h = Some l ∧ malloc n h = Some (p, h') ∧
  (p = 0 ↔ fitting h (entries_for n) l = []) ∧
  (p ≠ 0 → Z.of_nat (length (fitting h (entries_for n) l)) < 20 →
    ∃ i s, p = address_of (i + 1) h ∧ i ∈ fitting h (entries_for n) l ∧ size i h = Some s ∧
      ∀ j s', j ∈ fitting h (entries_for n) l → size j h = Some s' → s <= s').
Proof.
  intros (bs & fl & V)%client_view Hn. pose proof (view_inv _ _ _ _ V) as I.
  pose proof (til_members _ _ _ (inv_tiling _ _ _ I)) as Hm.
  destruct (view_malloc _ _ _ _ _ V Hn) as (p & h' & E & Hr). exists fl, p, h'.
  split_and!; [by eapply available_ok|done|..]; destruct Hr as [(->&_&Hno)|(Hp&_&_&i&mx&Hi&->&Hle&Hb)].
  - split; [intros _|done]. apply elem_of_nil_inv. intros j [Hj Hin]%list_elem_of_filter.
    apply Hm in Hin as [s Hs]. rewrite (inv_size _ _ _ I _ _ _ Hs) in Hj. cbn in Hj.
    specialize (Hno _ _ Hs). lia.
  - split; [done|]. intros Hnil. assert (i ∈ fitting h (entries_for n) fl) as Hin.
    { apply list_elem_of_filter. split; [by rewrite (inv_size _ _ _ I _ _ _ Hi)|apply Hm; eauto]. }
    rewrite Hnil in Hin. by apply not_elem_of_nil in Hin.
  - done.
  - intros _ Hfew. exists i, mx. split_and!; [done| |by eapply inv_size|].
    { apply list_elem_of_filter. split; [by rewrite (inv_size _ _ _ I _ _ _ Hi)|apply Hm; eauto]. }
    intros j s' [Hj [s Hs]%Hm]%list_elem_of_filter Hsz.
    rewrite (inv_size _ _ _ I _ _ _ Hs) in Hj, Hsz. injection Hsz as <-. by eapply Hb.
Qed.

(** With nothing taken between the markers, one block is left. *)
Lemma untaken_single (mid : list block) :
  separated (true :: mid.*2 ++ [true]) → (∀ b, b ∈ mid → b.2 = false) → mid = [] ∨ ∃ s, mid = [(s, false)].
Proof.
  destruct mid as [|[s t] [|[s' t'] mid]]; intros Hs Hf; [by left|right|].
  - exists s. specialize (Hf (s, t) ltac:(by left)). cbn in Hf. by subst.
  - pose proof (Hf (s, t) ltac:(by left)). pose proof (Hf (s', t') ltac:(by right; left)). cbn in *. subst.
    cbn in Hs. naive_solver.
Qed.

(** Once the callers have freed every block, in whatever order, the heap is again one
    available block of all its words and the leak counters balance. *)
Theorem heap_recovers h :
  heap_client h ∅ → available h = Some [2] ∧ size 2 h = Some (len h - 4) ∧ check_leaks h = false.
Proof.
  intros (bs & fl & [I B _ Hall Hcnt Hleak Hroom])%client_view.
  pose proof (inv_tiling _ _ _ I) as T. destruct (til_ends _ _ _ T) as (mid & -> & Hbig).
  pose proof (til_total _ _ _ T) as Et. cbn in Et. rewrite total_app in Et. cbn in Et.
  assert (∀ b, b ∈ mid → b.2 = false) as Hfree.
  { intros [s t] Hb. destruct t; [|done]. apply list_elem_of_split in Hb as (m1 & m2 & ->).
    pose proof (spans_mid 0 ((2, true) :: m1) s true (m2 ++ [(2, true)])) as Hs.
    cbn [app] in Hs. rewrite <- (app_assoc m1 ((s, true) :: m2) [(2, true)]) in Hall. cbn [app] in Hall.
    destruct (Hall _ _ Hs) as [x Hx]; [| |done].
    - assert (0 <= total m1); [|cbn; lia]. clear -Hbig. apply Forall_app in Hbig as [Hb _].
      induction Hb as [|[??] ? Hx _ IH]; unfold big in *; cbn in *; lia.
    - cbn. rewrite total_app in Et. cbn in Et. assert (0 <= total m2); [|lia].
      clear -Hbig. apply Forall_app in Hbig as [_ [_ Hb]%Forall_cons].
      induction Hb as [|[??] ? Hx _ IH]; unfold big in *; cbn in *; lia. }
  pose proof (til_sep _ _ _ T) as Hsep. rewrite fmap_cons, fmap_app in Hsep.
  destruct (untaken_single mid Hsep Hfree) as [->|[s ->]]; cbn in Et; [lia|].
  assert (s = len h - 4) as -> by lia.
  assert ((2, len h - 4, false) ∈ spans 0 ([(2, true); (len h - 4, false)] ++ [(2, true)])) as H2 by (cbn; set_solver).
  split_and!.
  - rewrite (available_ok _ _ _ I). f_equal.
    pose proof (fl_nodup _ _ (inv_list _ _ _ I)) as Hnd.
    assert (∀ i, i ∈ fl ↔ i = 2) as Hm.
    { intros i. rewrite (til_members _ _ _ T). cbn. split; [|intros ->; exists (len h - 4); set_solver].
      intros [s Hs]. rewrite !elem_of_cons, elem_of_nil in Hs. naive_solver. }
    apply Permutation_singleton_r. symmetry.
    apply NoDup_Permutation; [apply NoDup_singleton|done|]. intros i. by rewrite Hm, list_elem_of_singleton.
  - by eapply (inv_size _ _ _ I).
  - unfold check_leaks. rewrite Hcnt, Hleak, map_size_empty, Z.add_0_r, Z.add_0_r.
    rewrite Z.eqb_refl. done.
Qed.

(** A request within seven bytes of 2^64 wraps around in the size computation: [malloc]
    answers it as a request for one byte, with a block of two words. *)
Theorem malloc_wraps n h :
  2 ^ 64 - 7 <= n < 2 ^ 64 → malloc n h = malloc 1 h ∧ entries_for n = 4.
Proof.
  intros Hn. change (2 ^ 64) with 18446744073709551616 in Hn.
  assert (entries_for n = 4) as E.
  { unfold entries_for. replace (u64 (n + 7) / 8) with 0 by word_lia. done. }
  split; [|done]. unfold malloc. rewrite E. rewrite (proj2 (Z.eqb_neq n 0)) by lia. done.
Qed.

(** ** Concrete runs *)

Definition demo_init : Heap := default heap_zero (init 8 160 (λ i, i) (heap_zero .[ safe := true ])).
Definition demo_malloc (n : Z) (h : Heap) : Z * Heap := default (0, h) (malloc n h).
Definition demo_one : Heap := (demo_malloc 24 demo_init).2.
Definition demo_two : Heap := (demo_malloc 20 demo_one).2.
Definition demo_freed : Heap := default heap_zero (free 32 demo_one).
Definition demo_live : gmap Z (list Z) := <[32 := words_at demo_one 32 3]> ∅.

Lemma demo_init_client : heap_client demo_init ∅.
Proof.
  apply (client_init 8 160 (λ i, i) true); [vm_compute; reflexivity|lia|lia|lia].
Qed.
Lemma demo_one_client : heap_client demo_one demo_live.
Proof.
  apply (client_malloc demo_init ∅ 24 32 demo_one); [apply demo_init_client|lia|vm_compute; reflexivity].
Qed.
Lemma demo_two_client : heap_client demo_two (<[80 := words_at demo_two 80 3]> demo_live).
Proof.
  apply (client_malloc demo_one demo_live 20 80 demo_two); [apply demo_one_client|lia|vm_compute; reflexivity].
Qed.
Lemma demo_freed_client : heap_client demo_freed ∅.
Proof.
  apply (client_free demo_one demo_live 32 (words_at demo_one 32 3));
    [apply demo_one_client|reflexivity|vm_compute; reflexivity].
Qed.

Lemma heap_blocks_safe_witness : words_at demo_two 32 3 = words_at demo_one 32 3 ∧ 32 + 8 * 3 <= 80.
Proof.
  destruct (heap_blocks_safe _ _ demo_two_client) as [Hb Hd]. split.
  - apply (Hb 32 (words_at demo_one 32 3)). reflexivity.
  - destruct (Hd 32 80 (words_at demo_one 32 3) (words_at demo_two 80 3)) as [H|H];
      [reflexivity|reflexivity|lia|exact H|vm_compute in H; contradiction].
Defined.

Lemma heap_calls_return_witness : is_Some (free 80 demo_two) ∧ ∃ p h', malloc 64 demo_two = Some (p, h').
Proof.
  destruct (heap_calls_return _ _ demo_two_client) as (Hm & Hf & _). split.
  - apply Hf. eexists. reflexivity.
  - destruct (Hm 64) as (p & h' & E & _); [lia|]. eauto.
Defined.

Lemma malloc_best_fit_witness : ∃ l p h', available demo_two = Some l ∧ malloc 1000 demo_two = Some (p, h')
  ∧ (p = 0 ↔ fitting demo_two (entries_for 1000) l = []).
Proof.
  destruct (malloc_best_fit _ _ 1000 demo_two_client) as (l & p & h' & ? & ? & ? & _); [lia|].
  exists l, p, h'. split_and!; assumption.
Defined.

Lemma heap_recovers_witness : available demo_freed = Some [2].
Proof. apply (heap_recovers _ demo_freed_client). Defined.

Lemma malloc_wraps_witness : malloc 18446744073709551615 demo_init = malloc 1 demo_init.
Proof. apply (malloc_wraps 18446744073709551615 demo_init). lia. Defined.
