(* ===== verification/PhysMem.v ===== *)
(** * Physical frames ([physmem.cc], [physmem.h])

    The frame allocator: frames never handed out yet are ranges of the boot
    loader's memory map, freed frames are a list threaded through their first
    words, and a table of states protects the frames below 256 MB from being
    freed twice.  Physical memory is a map from the addresses of 8-byte words
    to their values, reached through the direct map at [hhdm_offset]. *)

From stdpp Require Import gmap.
From S2P Require Import Prelude.

Definition LOG_FRAME_SIZE : Z := 12.
Definition FRAME_SIZE : Z := 4096.

(** ** Address types

    A [PPN], [PA] or [Offset] object is the integer it wraps. *)

Definition PPN_of (val : Z) : Z := Z.land val 281474976710655.
Definition PPN_of_PA (pa : Z) : Z := Z.shiftr pa LOG_FRAME_SIZE.
Definition PA_of_PPN (ppn : Z) : Z := u64 (Z.shiftl ppn LOG_FRAME_SIZE).
Definition PA_of (ppn offset : Z) : Z := Z.lor (u64 (Z.shiftl ppn LOG_FRAME_SIZE)) offset.
Definition Offset_of_PA (pa : Z) : Z := Z.land pa 4095.

Definition i64 (x : Z) : Z := (x + 9223372036854775808) mod 18446744073709551616 - 9223372036854775808.

(** [VA::check_canonical]: a failed assertion stops the machine. *)
Definition check_canonical (va : Z) : option Z :=
  let sa := i64 va in
  if Z.shiftr (i64 (Z.shiftl sa 16)) 16 =? sa then Some va else None.

Record MemmapEntry := mkEntry { me_type : Z; me_base : Z; me_length : Z }.
Definition LIMINE_MEMMAP_USABLE : Z := 0.

Record Range := mkRange { base : Z; length_ : Z }.
#[export] Instance eta_Range : Eta Range := fun r => mkRange (base r) (length_ r).

(** The allocator and the physical memory it lives in; [free_ranges] and
    [avail] are the two linked lists, the first as a list, the second as its
    head pointer. *)
Record PhysMem := mkPhysMem {
  avail : Z;
  free_ranges : list Range;
  total_memory : Z;
  frame_state : gmap Z Z;
  mem : gmap Z Z;
}.
#[export] Instance eta_PhysMem : Eta PhysMem := fun s =>
  mkPhysMem (avail s) (free_ranges s) (total_memory s) (frame_state s) (mem s).

Definition MAX_TRACKED_PPN : Z := 65536.
Definition ppn_is_tracked (ppn : Z) : bool := ppn <? MAX_TRACKED_PPN.
Definition state_of (ppn : Z) (s : PhysMem) : Z := default 0 (frame_state s !! ppn).
Definition set_state (ppn v : Z) (s : PhysMem) : PhysMem :=
  if ppn_is_tracked ppn then s .[ frame_state := <[ppn := v]> (frame_state s) ] else s.

Section PhysMem.
(** What the boot loader provides: the offset of the direct map and the
    memory map, [None] when there is no response. *)
Context (hhdm_offset : Z) (memmap : option (list MemmapEntry)).

Definition VA_of_PA (pa : Z) : option Z := check_canonical (u64 (pa + hhdm_offset)).
Definition VA_of_PPN (ppn : Z) : option Z := VA_of_PA (PA_of_PPN ppn).

(** Loads and stores through the direct map. *)
Definition load (va : Z) (s : PhysMem) : Z := default 0 (mem s !! u64 (va - hhdm_offset)).
Definition store (va v : Z) (s : PhysMem) : PhysMem :=
  s .[ mem := <[u64 (va - hhdm_offset) := v]> (mem s) ].

Definition AvailFrame_ppn (frame : Z) : Z :=
  PPN_of (Z.shiftr (u64 (frame - hhdm_offset)) LOG_FRAME_SIZE).

Definition entry_usable_at (pa : Z) (e : MemmapEntry) : bool :=
  if negb (me_type e =? LIMINE_MEMMAP_USABLE) then false
  else if me_length e <? FRAME_SIZE then false
  else
    let end_ := u64 (me_base e + me_length e) in
    if end_ <? me_base e then false
    else (me_base e <=? pa) && (pa <=? end_ - FRAME_SIZE).
Definition pa_in_usable_range (pa : Z) : bool :=
  match memmap with
  | None => false
  | Some entries => existsb (entry_usable_at pa) entries
  end.

(** The constructor [PhysMem::PhysMem]. *)
Definition add_range (s : PhysMem) (e : MemmapEntry) : PhysMem :=
  if me_type e =? LIMINE_MEMMAP_USABLE then
    s .[ free_ranges := mkRange (me_base e) (me_length e) :: free_ranges s ]
      .[ total_memory := u64 (total_memory s + me_length e) ]
  else s.
Definition PhysMem_init (m : gmap Z Z) : PhysMem :=
  let s := mkPhysMem 0 [] 0 ∅ m in
  match memmap with
  | None => s
  | Some entries => foldl add_range s entries
  end.

(** Zeroing [n] words from [va] on. *)
Fixpoint zero_words (n : nat) (va : Z) (s : PhysMem) : PhysMem :=
  match n with
  | O => s
  | S n => zero_words n (u64 (va + 8)) (store va 0 s)
  end.

(** Taking a frame, before it is zeroed; running out stops the machine. *)
Definition take_frame (s : PhysMem) : option (Z * PhysMem) :=
  let frame := avail s in
  if negb (frame =? 0) then
    let s := s .[ avail := load frame s ] in
    let ppn := AvailFrame_ppn frame in
    Some (ppn, set_state ppn 1 s)
  else
    match free_ranges s with
    | [] => None
    | r :: rest =>
        let pa := base r in
        let ppn := Z.shiftr pa LOG_FRAME_SIZE in
        let s := set_state ppn 1 s in
        let r := r .[ base := u64 (base r + FRAME_SIZE) ] .[ length_ := u64 (length_ r - FRAME_SIZE) ] in
        Some (PPN_of_PA pa,
              s .[ free_ranges := if length_ r =? 0 then rest else r :: rest ])
    end.

Definition alloc (s : PhysMem) : option (Z * PhysMem) :=
  '(result, s) ← take_frame s;
  ptr ← VA_of_PPN result;
  Some (result, zero_words 512 ptr s).

Definition free (ppn : Z) (s : PhysMem) : option PhysMem :=
  if ppn =? 0 then Some s
  else
    let pa := PA_of_PPN ppn in
    if negb (pa_in_usable_range pa) then Some s
    else
      frame ← VA_of_PA pa;
      if ppn_is_tracked ppn && negb (state_of ppn s =? 1) then Some s
      else
        let s := set_state ppn 2 s in
        let s := store frame (avail s) s in
        Some (s .[ avail := frame ]).
End PhysMem.

(** Freeing a frame below 256 MB twice gives it back once; above, the frame
    is handed out twice. *)
Example physmem_demo :
  let mm := Some [mkEntry 0 4096 16384; mkEntry 1 65536 4096] in
  let hh := 18446603336221196288 in
  (s ← Some (PhysMem_init mm ∅);
   '(p, s) ← alloc hh s; '(q, s) ← alloc hh s;
   s ← free hh mm p s; s ← free hh mm p s;
   '(r, s) ← alloc hh s; '(t, s) ← alloc hh s;
   Some (p, q, r, t)) = Some (1, 2, 1, 3).
Proof. vm_compute. reflexivity. Qed.

(** ** The platform

    The direct map is a canonical kernel address; the memory map of the boot
    loader's protocol has page-aligned usable entries above the first page
    that do not overlap and that the direct map covers. *)

Definition usable_entry (e : MemmapEntry) : Prop := me_type e = LIMINE_MEMMAP_USABLE.

Record platform (hhdm_offset : Z) (entries : list MemmapEntry) : Prop := {
  plat_hhdm : 18446603336221196288 <= hhdm_offset < 2 ^ 64;
  plat_hhdm_page : hhdm_offset mod 4096 = 0;
  plat_entry : ∀ e, e ∈ entries → usable_entry e →
    me_base e mod 4096 = 0 ∧ me_length e mod 4096 = 0 ∧ 4096 <= me_base e ∧ 0 < me_length e
    ∧ me_base e + me_length e + hhdm_offset <= 2 ^ 64;
  plat_disjoint : ∀ i j e e', entries !! i = Some e → entries !! j = Some e' →
    usable_entry e → usable_entry e' → i ≠ j →
    me_base e + me_length e <= me_base e' ∨ me_base e' + me_length e' <= me_base e;
}.

(** Frame [p] lies inside a range. *)
Definition range_frame (r : Range) (p : Z) : Prop := base r <= p * 4096 < base r + length_ r.
Definition usable (entries : list MemmapEntry) (p : Z) : Prop :=
  ∃ e, e ∈ entries ∧ usable_entry e ∧ range_frame (mkRange (me_base e) (me_length e)) p.

Lemma check_canonical_high va :
  18446603336221196288 <= va < 2 ^ 64 → check_canonical va = Some va.
Proof.
  intros Hv. change (2 ^ 64) with 18446744073709551616 in Hv. unfold check_canonical.
  assert (i64 va = va - 18446744073709551616) as E by (unfold i64; word_lia).
  rewrite E, (Z.shiftl_mul_pow2 _ 16) by done. change (2 ^ 16) with 65536.
  assert (i64 ((va - 18446744073709551616) * 65536) = (va - 18446744073709551616) * 65536) as ->
    by (unfold i64; word_lia).
  rewrite Z.shiftr_div_pow2 by done. change (2 ^ 16) with 65536.
  rewrite Z.div_mul by done. by rewrite Z.eqb_refl.
Qed.

Lemma check_canonical_low va : 0 <= va < 2 ^ 47 → check_canonical va = Some va.
Proof.
  intros Hv. change (2 ^ 47) with 140737488355328 in Hv. unfold check_canonical.
  assert (i64 va = va) as E by (unfold i64; word_lia).
  rewrite E, (Z.shiftl_mul_pow2 _ 16) by done. change (2 ^ 16) with 65536.
  assert (i64 (va * 65536) = va * 65536) as -> by (unfold i64; word_lia).
  rewrite Z.shiftr_div_pow2 by done. change (2 ^ 16) with 65536.
  rewrite Z.div_mul by done. by rewrite Z.eqb_refl.
Qed.

Section Frames.
Context (hh : Z) (entries : list MemmapEntry) (P : platform hh entries).

Let memmap := Some entries.

(** The address of frame [p] in the direct map. *)
Definition frame_va (p : Z) : Z := hh + p * 4096.

Definition ok_frame (p : Z) : Prop := 1 <= p ∧ p * 4096 + 4096 + hh <= 2 ^ 64.

Lemma usable_ok p : usable entries p → ok_frame p.
Proof using P.
  intros (e & Hin & Hu & Hr). destruct (plat_entry _ _ P e Hin Hu) as (?&?&?&?&?).
  unfold range_frame, ok_frame in *. cbn in Hr. word_lia.
Qed.

Lemma ok_frame_facts p :
  ok_frame p →
  PA_of_PPN p = p * 4096 ∧ VA_of_PPN hh p = Some (frame_va p) ∧ VA_of_PA hh (p * 4096) = Some (frame_va p)
  ∧ u64 (frame_va p - hh) = p * 4096 ∧ AvailFrame_ppn hh (frame_va p) = p ∧ frame_va p ≠ 0
  ∧ PPN_of_PA (p * 4096) = p.
Proof using P.
  intros [H1 H2]. pose proof (plat_hhdm _ _ P) as Hh. change (2 ^ 64) with 18446744073709551616 in *.
  assert (PA_of_PPN p = p * 4096) as Ep.
  { unfold PA_of_PPN, LOG_FRAME_SIZE. rewrite (shiftl_mul p 12 4096) by done. apply u64_id. word_lia. }
  assert (VA_of_PA hh (p * 4096) = Some (frame_va p)) as Ev.
  { unfold VA_of_PA, frame_va. rewrite u64_id by word_lia. rewrite Z.add_comm.
    apply check_canonical_high. change (2 ^ 64) with 18446744073709551616. lia. }
  assert (u64 (frame_va p - hh) = p * 4096) as Eu by (unfold frame_va; word_lia).
  split_and!; try done.
  - unfold VA_of_PPN. by rewrite Ep.
  - unfold AvailFrame_ppn, PPN_of, LOG_FRAME_SIZE. rewrite Eu, (shiftr_div _ 12 4096), Z.div_mul by done.
    rewrite (land_ones_mod _ 48) by done. apply Z.mod_small. change (2 ^ 48) with 281474976710656. lia.
  - unfold frame_va. lia.
  - unfold PPN_of_PA, LOG_FRAME_SIZE. by rewrite (shiftr_div _ 12 4096), Z.div_mul by done.
Qed.

(** A word of physical memory. *)
Definition word (s : PhysMem) (pa : Z) : Z := default 0 (mem s !! pa).

Lemma load_frame s p : ok_frame p → load hh (frame_va p) s = word s (p * 4096).
Proof using P. intros Hp. unfold load. by destruct (ok_frame_facts p Hp) as (_&_&_&->&_). Qed.
Lemma store_frame s p v :
  ok_frame p → store hh (frame_va p) v s = s .[ mem := <[p * 4096 := v]> (mem s) ].
Proof using P. intros Hp. unfold store. by destruct (ok_frame_facts p Hp) as (_&_&_&->&_). Qed.

Lemma zero_words_frame n : ∀ s pa,
  0 <= pa → pa + 8 * Z.of_nat n + hh <= 2 ^ 64 →
  let s' := zero_words hh n (u64 (hh + pa)) s in
  avail s' = avail s ∧ free_ranges s' = free_ranges s ∧ frame_state s' = frame_state s
  ∧ (∀ k, 0 <= k < Z.of_nat n → word s' (pa + 8 * k) = 0)
  ∧ (∀ a, (∀ k, 0 <= k < Z.of_nat n → a ≠ pa + 8 * k) → word s' a = word s a).
Proof using P.
  induction n as [|n IH]; intros s pa Hpa Hle s'; subst s'; cbn [zero_words].
  { split_and!; try done. lia. }
  pose proof (plat_hhdm _ _ P) as Hh. change (2 ^ 64) with 18446744073709551616 in *.
  rewrite (u64_id (hh + pa)) by word_lia.
  assert (u64 (hh + pa - hh) = pa) as Eu by word_lia.
  replace (u64 (hh + pa + 8)) with (u64 (hh + (pa + 8))) by (f_equal; lia).
  destruct (IH (store hh (hh + pa) 0 s) (pa + 8)) as (-> & -> & -> & Hz & Ho); [lia|lia|].
  assert (∀ a, word (store hh (hh + pa) 0 s) a = if decide (a = pa) then 0 else word s a) as Hst.
  { intros a. unfold word, store. rewrite Eu. cbn. case_decide as Ha.
    - by rewrite Ha, lookup_insert_eq.
    - by rewrite lookup_insert_ne. }
  split_and!; try done.
  - intros k Hk. destruct (decide (k = 0)) as [->|].
    + rewrite Z.mul_0_r, Z.add_0_r. rewrite Ho by lia. rewrite Hst. by rewrite decide_True.
    + replace (pa + 8 * k) with (pa + 8 + 8 * (k - 1)) by lia. apply Hz. lia.
  - intros a Ha. rewrite Ho; [|intros k Hk; specialize (Ha (k + 1)); lia].
    rewrite Hst. rewrite decide_False; [done|]. specialize (Ha 0). lia.
Qed.

(** ** The invariant *)

Fixpoint linked (s : PhysMem) (va : Z) (chain : list Z) : Prop :=
  match chain with
  | [] => va = 0
  | p :: chain' => va = frame_va p ∧ linked s (word s (p * 4096)) chain'
  end.

Definition ranges_frame (rs : list Range) (p : Z) : Prop := ∃ r, r ∈ rs ∧ range_frame r p.

Definition ok_range (r : Range) : Prop :=
  base r mod 4096 = 0 ∧ length_ r mod 4096 = 0 ∧ 4096 <= base r ∧ 0 < length_ r
  ∧ base r + length_ r + hh <= 2 ^ 64.
Definition apart (r r' : Range) : Prop := ∀ p, range_frame r p → ¬ range_frame r' p.

(** [A] is the set of the frames handed out. *)
Record inv (s : PhysMem) (A : gset Z) (chain : list Z) : Prop := {
  inv_chain : linked s (avail s) chain;
  inv_nodup : NoDup chain;
  inv_free : ∀ p, p ∈ chain → p ∉ A;
  inv_fresh : ∀ p, ranges_frame (free_ranges s) p → p ∉ A ∧ p ∉ chain;
  inv_usable : ∀ p, usable entries p ↔ p ∈ A ∨ p ∈ chain ∨ ranges_frame (free_ranges s) p;
  inv_state : ∀ p, p < MAX_TRACKED_PPN →
    state_of p s = if decide (p ∈ A) then 1 else if decide (p ∈ chain) then 2 else 0;
  inv_ranges : Forall ok_range (free_ranges s);
  inv_apart : ForallOrdPairs apart (free_ranges s);
}.

Lemma linked_frame s s' chain : ∀ va,
  (∀ p, p ∈ chain → word s' (p * 4096) = word s (p * 4096)) →
  linked s va chain → linked s' va chain.
Proof using.
  induction chain as [|p chain IH]; intros va Hw; [done|]. cbn. intros [-> Hl]. split; [done|].
  rewrite Hw by (by left). apply IH; [|done]. intros q Hq. apply Hw. by right.
Qed.

Lemma state_set p v s q :
  q < MAX_TRACKED_PPN → state_of q (set_state p v s) = if decide (q = p) then v else state_of q s.
Proof using.
  intros Hq. unfold set_state, ppn_is_tracked. destruct (Z.ltb_spec p MAX_TRACKED_PPN) as [|]; case_decide as E.
  - subst. unfold state_of. cbn. by rewrite lookup_insert_eq.
  - unfold state_of. cbn. by rewrite lookup_insert_ne.
  - lia.
  - done.
Qed.
Lemma set_state_other p v s :
  avail (set_state p v s) = avail s ∧ free_ranges (set_state p v s) = free_ranges s
  ∧ mem (set_state p v s) = mem s.
Proof using. unfold set_state. by destruct (ppn_is_tracked p). Qed.

(** *** Taking a frame *)

Lemma take_freed s A p chain :
  inv s A (p :: chain) →
  ∃ s', take_frame hh s = Some (p, s') ∧ inv s' ({[p]} ∪ A) chain ∧ mem s' = mem s.
Proof using P.
  intros [[Hav Hl] [Hp Hnd]%NoDup_cons Hfree Hfresh Hus Hst Hr Hap].
  assert (ok_frame p) as Hok by (apply usable_ok, Hus; right; left; by left).
  destruct (ok_frame_facts p Hok) as (_&_&_&_&Eppn&Hne&_).
  unfold take_frame. rewrite Hav, (proj2 (Z.eqb_neq _ _) Hne). cbn [negb]. rewrite Eppn, load_frame by done.
  set (s1 := s .[ avail := word s (p * 4096) ]).
  destruct (set_state_other p 1 s1) as (E1 & E2 & E3). eexists. split; [done|]. split; [|done].
  split; rewrite ?E1, ?E2.
  - apply (linked_frame s); [|done]. intros. unfold word. by rewrite E3.
  - done.
  - intros q Hq. apply not_elem_of_union. split; [set_solver|]. apply Hfree. by right.
  - intros q Hq. destruct (Hfresh q Hq) as [? [? ?]%not_elem_of_cons]. set_solver.
  - intros q. rewrite Hus. cbn. set_solver.
  - intros q Hq. rewrite state_set by done. case_decide as E.
    + subst. rewrite decide_True by set_solver. done.
    + rewrite (Hst q Hq : state_of q s1 = _). repeat case_decide; set_solver.
  - done.
  - done.
Qed.

Lemma take_fresh s A :
  inv s A [] → free_ranges s ≠ [] →
  ∃ p s', take_frame hh s = Some (p, s') ∧ ranges_frame (free_ranges s) p
    ∧ inv s' ({[p]} ∪ A) [] ∧ mem s' = mem s.
Proof using P.
  intros [Hav _ _ Hfresh Hus Hst Hr Hap] Hne. cbn in Hav.
  unfold take_frame. rewrite Hav. cbn [Z.eqb negb].
  destruct (free_ranges s) as [|r rs] eqn:Ers; [done|].
  apply Forall_cons in Hr as [(Hb & Hlm & Hb0 & Hl0 & Hlim) Hr].
  inversion Hap as [|? ? Hap1 Hap2]; subst. pose proof (plat_hhdm _ _ P) as Hh.
  change (2 ^ 64) with 18446744073709551616 in *.
  set (p := base r / 4096).
  assert (base r = p * 4096) as Ep by (subst p; word_lia). clearbody p.
  assert (PPN_of_PA (base r) = p ∧ Z.shiftr (base r) LOG_FRAME_SIZE = p) as [-> ->].
  { unfold PPN_of_PA, LOG_FRAME_SIZE. rewrite (shiftr_div _ 12 4096) by done. rewrite Ep, Z.div_mul; done. }
  unfold FRAME_SIZE. set (r' := r .[ base := _ ] .[ length_ := _ ]).
  assert (base r' = base r + 4096 ∧ length_ r' = length_ r - 4096) as [Eb El].
  { cbn. split; apply u64_id; word_lia. }
  assert (∀ q, range_frame r q ↔ q = p ∨ range_frame r' q) as Hsplit.
  { intros q. unfold range_frame. rewrite Eb, El. lia. }
  assert (∀ q, range_frame r' q → q ≠ p) as Hnot by (intros q; unfold range_frame; rewrite Eb, El; lia).
  set (rs' := if length_ r' =? 0 then rs else r' :: rs).
  assert (∀ q, ranges_frame (r :: rs) q ↔ q = p ∨ ranges_frame rs' q) as Hsplit'.
  { intros q. unfold ranges_frame. subst rs'. destruct (Z.eqb_spec (length_ r') 0) as [E0|].
    - setoid_rewrite elem_of_cons. assert (¬ range_frame r' q) by (unfold range_frame; rewrite E0; lia).
      specialize (Hsplit q). naive_solver.
    - setoid_rewrite elem_of_cons. specialize (Hsplit q). naive_solver. }
  assert (∀ q, ranges_frame rs' q → q ≠ p) as Hnot'.
  { intros q (x & Hx & Hxq) ->. assert (x ≠ r' → x ∈ rs) as Hin.
    { subst rs'. destruct (length_ r' =? 0); [done|]. apply elem_of_cons in Hx. naive_solver. }
    assert (x = r' ∨ x ≠ r') as [->|Hne'] by (destruct x, r'; destruct (decide (base0 = base1)), (decide (length_0 = length_1)); subst; (by left) || (right; congruence)).
    - by eapply Hnot.
    - rewrite Forall_forall in Hap1. eapply Hap1; [by apply Hin| |done]. apply Hsplit. by left. }
  destruct (set_state_other p 1 s) as (E1 & E2 & E3).
  eexists p, _. split; [done|]. split; [apply Hsplit'; by left|]. split; [|done].
  fold r'. fold rs'.
  split; cbn [avail free_ranges set_field eta_PhysMem frame_state mem].
  - cbn. by rewrite E1.
  - constructor.
  - intros q Hq. by apply not_elem_of_nil in Hq.
  - intros q Hq. split; [|apply not_elem_of_nil]. pose proof (Hnot' _ Hq).
    destruct (Hfresh q) as [? _]; [by apply Hsplit'; right|]. set_solver.
  - intros q. rewrite Hus, Hsplit'. pose proof (not_elem_of_nil q). set_solver.
  - intros q Hq. pose proof (state_set p 1 s q Hq) as Es. unfold state_of in Es |- *. cbn. rewrite Es.
    case_decide as E.
    + subst. rewrite decide_True by set_solver. done.
    + fold (state_of q s). rewrite (Hst q Hq). repeat case_decide; set_solver.
  - subst rs'. destruct (Z.eqb_spec (length_ r') 0); [done|]. constructor; [|done].
    unfold ok_range. rewrite Eb, El. change (2 ^ 64) with 18446744073709551616. split_and!; word_lia.
  - subst rs'. destruct (length_ r' =? 0); [done|]. constructor; [|done].
    eapply Forall_impl; [exact Hap1|]. intros x Hx q Hq. apply Hx, Hsplit. by right.
Qed.

(** *** The operations *)

Lemma alloc_zeroes s A p chain :
  inv s A chain → ok_frame p → p ∉ chain →
  let s2 := zero_words hh 512 (frame_va p) s in
  inv s2 A chain ∧ (∀ k, 0 <= k < 512 → word s2 (p * 4096 + 8 * k) = 0)
  ∧ (∀ a, a / 4096 ≠ p → word s2 a = word s a).
Proof using P.
  intros I Hok Hp s2. pose proof Hok as [Hp1 Hp2].
  pose proof (plat_hhdm _ _ P) as Hh. change (2 ^ 64) with 18446744073709551616 in *.
  destruct (zero_words_frame 512 s (p * 4096)) as (E1 & E2 & E3 & Hz & Ho);
    [lia|change (2 ^ 64) with 18446744073709551616; lia|].
  rewrite u64_id in E1, E2, E3, Hz, Ho by word_lia. fold (frame_va p) in E1, E2, E3, Hz, Ho. fold s2 in E1, E2, E3, Hz, Ho.
  assert (∀ a, a / 4096 ≠ p → word s2 a = word s a) as Hother.
  { intros a Ha. apply Ho. intros k Hk ->. apply Ha. word_lia. }
  split_and!; [|exact Hz|exact Hother].
  clearbody s2. destruct I as [Hc ? ? ? ? Hst ? ?].
  split; rewrite ?E1, ?E2; [|assumption..| |assumption|assumption].
  - eapply linked_frame; [|exact Hc]. intros q Hq. apply Hother. rewrite Z.div_mul by done. by intros ->.
  - intros q Hq. unfold state_of. rewrite E3. by apply Hst.
Qed.

Lemma alloc_ok s A chain :
  inv s A chain →
  (alloc hh s = None ∧ chain = [] ∧ free_ranges s = []) ∨
  ∃ p s' chain', alloc hh s = Some (p, s') ∧ usable entries p ∧ p ∉ A ∧ inv s' ({[p]} ∪ A) chain'
    ∧ (∀ k, 0 <= k < 512 → word s' (p * 4096 + 8 * k) = 0)
    ∧ (∀ a, a / 4096 ≠ p → word s' a = word s a).
Proof using P.
  intros I. unfold alloc.
  assert ((take_frame hh s = None ∧ chain = [] ∧ free_ranges s = []) ∨
    ∃ p s1 chain', take_frame hh s = Some (p, s1) ∧ usable entries p ∧ p ∉ A
      ∧ inv s1 ({[p]} ∪ A) chain' ∧ mem s1 = mem s) as [(-> & ?)|(p & s1 & chain' & -> & Hu & Hp & I1 & Em)].
  { destruct chain as [|p chain].
    - destruct (decide (free_ranges s = [])) as [E|E].
      + left. unfold take_frame. rewrite (inv_chain _ _ _ I : avail s = 0), E. done.
      + right. destruct (take_fresh _ _ I E) as (p & s1 & ? & Hr & ? & ?).
        exists p, s1, []. split_and!; try done.
        * apply (inv_usable _ _ _ I). auto.
        * by apply (inv_fresh _ _ _ I).
    - right. destruct (take_freed _ _ _ _ I) as (s1 & ? & ? & ?). exists p, s1, chain. split_and!; try done.
      + apply (inv_usable _ _ _ I). right; left. by left.
      + apply (inv_free _ _ _ I). by left. }
  { by left. }
  right. cbn [mbind option_bind]. pose proof (usable_ok p Hu) as Hok.
  destruct (ok_frame_facts p Hok) as (_&->&_). cbn [mbind option_bind].
  destruct (alloc_zeroes s1 _ p chain' I1 Hok) as (I2 & Hz & Ho).
  { intros Hin. apply (inv_free _ _ _ I1 _ Hin). set_solver. }
  eexists p, _, chain'. split_and!; try done.
  intros a Ha. rewrite Ho by done. unfold word. by rewrite Em.
Qed.

Lemma pa_in_usable_range_spec p :
  0 <= p → p * 4096 < 2 ^ 64 → pa_in_usable_range memmap (p * 4096) = true ↔ usable entries p.
Proof using P.
  intros Hp Hlt. pose proof (plat_hhdm _ _ P) as Hh. change (2 ^ 64) with 18446744073709551616 in *.
  unfold pa_in_usable_range, memmap. rewrite existsb_exists.
  split.
  - intros (e & Hin & Ht). apply list_elem_of_In in Hin. unfold entry_usable_at in Ht.
    destruct (Z.eqb_spec (me_type e) LIMINE_MEMMAP_USABLE) as [Hu|]; [|done]. cbn [negb] in Ht.
    destruct (plat_entry _ _ P e Hin Hu) as (?&?&?&?&?). change (2 ^ 64) with 18446744073709551616 in *.
    destruct (Z.ltb_spec (me_length e) FRAME_SIZE); [done|].
    rewrite u64_id in Ht by word_lia. destruct (Z.ltb_spec (me_base e + me_length e) (me_base e)); [done|].
    apply andb_true_iff in Ht as [?%Z.leb_le ?%Z.leb_le]. exists e. unfold FRAME_SIZE in *.
    split_and!; [done|done|]. unfold range_frame. cbn. lia.
  - intros (e & Hin & Hu & Hr). exists e. split; [by apply list_elem_of_In|].
    destruct (plat_entry _ _ P e Hin Hu) as (?&?&?&?&?). change (2 ^ 64) with 18446744073709551616 in *.
    unfold range_frame in Hr. cbn in Hr.
    unfold entry_usable_at, FRAME_SIZE. rewrite Hu, Z.eqb_refl. cbn [negb].
    rewrite (proj2 (Z.ltb_ge (me_length e) 4096)) by word_lia. rewrite u64_id by word_lia.
    rewrite (proj2 (Z.ltb_ge (me_base e + me_length e) _)) by lia.
    apply andb_true_iff. rewrite !Z.leb_le. word_lia.
Qed.

Lemma give_back_ok s A chain p :
  inv s A chain → p ∈ A →
  ∃ s', free hh memmap p s = Some s' ∧ inv s' (A ∖ {[p]}) (p :: chain)
    ∧ ∀ a, a ≠ p * 4096 → word s' a = word s a.
Proof using P.
  intros I Hp. assert (usable entries p) as Hu by (apply (inv_usable _ _ _ I); auto).
  pose proof (usable_ok p Hu) as Hok. destruct (ok_frame_facts p Hok) as (Epa & _ & Eva & _ & _ & _ & _).
  pose proof (plat_hhdm _ _ P) as Hh. pose proof Hok as [Hp1 Hp2]. change (2 ^ 64) with 18446744073709551616 in *.
  unfold free. rewrite (proj2 (Z.eqb_neq p 0)) by lia. rewrite Epa.
  rewrite (proj2 (pa_in_usable_range_spec p ltac:(lia) ltac:(change (2 ^ 64) with 18446744073709551616; lia)) Hu). cbn [negb].
  rewrite Eva. cbn [mbind option_bind].
  assert (ppn_is_tracked p && negb (state_of p s =? 1) = false) as ->.
  { unfold ppn_is_tracked. destruct (Z.ltb_spec p MAX_TRACKED_PPN); [|done].
    rewrite (inv_state _ _ _ I p) by done. by rewrite decide_True. }
  destruct (set_state_other p 2 s) as (E1 & E2 & E3). rewrite store_frame by done.
  eexists. split; [done|]. destruct I as [Hc Hnd Hfree Hfresh Hus Hst Hr Hap].
  assert (p ∉ chain) as Hpc by (intros Hin; by apply (Hfree p)).
  assert (∀ v a, a ≠ p * 4096 → default 0 (<[p * 4096 := v]> (mem (set_state p 2 s)) !! a) = word s a) as Hw.
  { intros v a Ha. rewrite lookup_insert_ne by done. by rewrite E3. }
  split; [|exact (Hw _)]. split; cbn -[linked].
  - cbn. split; [done|]. unfold word. cbn. rewrite lookup_insert_eq. cbn. rewrite E1.
    eapply linked_frame; [|exact Hc]. intros q Hq. apply Hw.
    intros E. apply Hpc. by replace p with q by lia.
  - by constructor.
  - intros q Hq. apply elem_of_cons in Hq as [->|Hq]; [set_solver|]. specialize (Hfree _ Hq). set_solver.
  - rewrite E2. intros q Hq. destruct (Hfresh q Hq). rewrite not_elem_of_cons. set_solver.
  - intros q. rewrite Hus, E2, elem_of_cons. destruct (decide (q = p)); set_solver.
  - intros q Hq. pose proof (state_set p 2 s q Hq) as Es. unfold state_of in Es |- *. cbn. rewrite Es.
    case_decide as E.
    + subst. rewrite decide_False by set_solver. by rewrite decide_True by (by left).
    + fold (state_of q s). rewrite (Hst q Hq). repeat case_decide; set_solver.
  - by rewrite E2.
  - by rewrite E2.
Qed.

Lemma free_rejected s A chain p :
  inv s A chain → p ∉ A → 0 <= p < MAX_TRACKED_PPN → free hh memmap p s = Some s.
Proof using P.
  intros I Hp Hr. unfold MAX_TRACKED_PPN in Hr. unfold free.
  destruct (Z.eqb_spec p 0); [done|].
  assert (PA_of_PPN p = p * 4096) as ->.
  { unfold PA_of_PPN, LOG_FRAME_SIZE. rewrite (shiftl_mul p 12 4096) by done. apply u64_id. word_lia. }
  pose proof (pa_in_usable_range_spec p ltac:(lia) ltac:(change (2 ^ 64) with 18446744073709551616; lia)) as Hs.
  destruct (pa_in_usable_range memmap (p * 4096)); [|done]. cbn [negb].
  destruct (ok_frame_facts p (usable_ok p (proj1 Hs eq_refl))) as (_ & _ & -> & _). cbn [mbind option_bind].
  assert (ppn_is_tracked p && negb (state_of p s =? 1) = true) as ->; [|done].
  unfold ppn_is_tracked. rewrite (proj2 (Z.ltb_lt p MAX_TRACKED_PPN)) by (unfold MAX_TRACKED_PPN; lia).
  rewrite (inv_state _ _ _ I p) by (unfold MAX_TRACKED_PPN; lia). rewrite decide_False by done.
  by case_decide.
Qed.

(** *** The constructor *)

Lemma init_ranges m l : ∀ l2,
  entries = l ++ l2 →
  let s := foldl add_range (mkPhysMem 0 [] 0 ∅ m) l in
  avail s = 0 ∧ frame_state s = ∅ ∧ mem s = m
  ∧ (∀ r, r ∈ free_ranges s ↔ ∃ e, e ∈ l ∧ usable_entry e ∧ r = mkRange (me_base e) (me_length e))
  ∧ ForallOrdPairs apart (free_ranges s).
Proof using P.
  induction l as [|e l IH] using rev_ind; intros l2 He s; subst s.
  { cbn. split_and!; try done; [|constructor]. intros r. split; [by intros ?%not_elem_of_nil|].
    intros (e & ?%not_elem_of_nil & _). done. }
  rewrite <- app_assoc in He. destruct (IH ([e] ++ l2) He) as (H1 & H2 & H3 & H4 & H5).
  rewrite foldl_app. cbn [foldl]. set (s := foldl add_range _ l) in *. unfold add_range.
  destruct (Z.eqb_spec (me_type e) LIMINE_MEMMAP_USABLE) as [Hu|Hu].
  - cbn -[elem_of]. split_and!; try done.
    + intros r. rewrite elem_of_cons, H4. setoid_rewrite elem_of_app. setoid_rewrite list_elem_of_singleton.
      unfold usable_entry. naive_solver.
    + constructor; [|done]. apply Forall_forall. intros r (e' & Hin & Hu' & ->)%H4 p Hp Hp'.
      apply list_elem_of_lookup in Hin as [i Hi]. pose proof (lookup_lt_Some _ _ _ Hi).
      assert (entries !! i = Some e') as Hi1 by (rewrite He; by apply lookup_app_l_Some).
      assert (entries !! length l = Some e) as Hi2 by (rewrite He; by apply list_lookup_middle).
      unfold range_frame in *. cbn in *.
      destruct (plat_disjoint _ _ P _ _ _ _ Hi1 Hi2 Hu' Hu); lia.
  - split_and!; try done. intros r. rewrite H4. setoid_rewrite elem_of_app.
    setoid_rewrite list_elem_of_singleton. unfold usable_entry. naive_solver.
Qed.

Lemma init_inv m : inv (PhysMem_init memmap m) ∅ [].
Proof using P.
  destruct (init_ranges m entries [] ltac:(by rewrite app_nil_r)) as (H1 & H2 & H3 & H4 & H5).
  unfold PhysMem_init, memmap. set (s := foldl _ _ _) in *. clearbody s. split.
  - exact H1.
  - constructor.
  - intros p Hp. by apply not_elem_of_nil in Hp.
  - intros p _. split; [apply not_elem_of_empty|apply not_elem_of_nil].
  - intros p. split.
    + intros (e & ? & ? & ?). right; right. eexists. split; [apply H4; eauto|done].
    + intros [?%not_elem_of_empty|[?%not_elem_of_nil|(r & (e & ? & ? & ->)%H4 & ?)]]; [done..|]. exists e. done.
  - intros p Hp. unfold state_of. rewrite H2, lookup_empty. cbn.
    rewrite decide_False by apply not_elem_of_empty. by rewrite decide_False by apply not_elem_of_nil.
  - apply Forall_forall. intros r (e & Hin & Hu & ->)%H4. destruct (plat_entry _ _ P e Hin Hu) as (?&?&?&?&?).
    split_and!; done.
  - exact H5.
Qed.

(** ** Every use of the frames

    [frame_client s A]: the allocator reaches [s] by calls of [alloc] and
    [free], freeing frames that are handed out and (below 256 MB) also frames
    that are not, and by stores into any frame that is not free: those of [A],
    handed out, and those the allocator never had. *)
Inductive frame_client : PhysMem → gset Z → Prop :=
| fc_init m : frame_client (PhysMem_init memmap m) ∅
| fc_alloc s A p s' : frame_client s A → alloc hh s = Some (p, s') → frame_client s' ({[p]} ∪ A)
| fc_free s A p s' : frame_client s A → p ∈ A → free hh memmap p s = Some s' → frame_client s' (A ∖ {[p]})
| fc_free_bad s A p s' :
    frame_client s A → p ∉ A → 0 <= p < MAX_TRACKED_PPN → free hh memmap p s = Some s' → frame_client s' A
| fc_store s A a v :
    frame_client s A → (usable entries (a / 4096) → a / 4096 ∈ A) → frame_client (s .[ mem := <[a := v]> (mem s) ]) A.

Lemma frame_client_inv s A : frame_client s A → ∃ chain, inv s A chain.
Proof using P.
  induction 1 as [m|s A p s' _ [chain I] E|s A p s' _ [chain I] Hp E|s A p s' _ [chain I] Hp Hr E|s A a v _ [chain I] Ha].
  - eexists. apply init_inv.
  - destruct (alloc_ok _ _ _ I) as [(E' & _)|(p' & s2 & chain' & E' & _ & _ & I' & _)]; rewrite E in E'; [done|].
    injection E' as <- <-. eauto.
  - destruct (give_back_ok _ _ _ _ I Hp) as (s2 & E' & I' & _). rewrite E in E'. injection E' as <-. eauto.
  - rewrite (free_rejected _ _ _ _ I Hp Hr) in E. injection E as <-. eauto.
  - exists chain. destruct I as [Hc ? Hfree ? Hus ? ? ?]. split; try assumption.
    eapply linked_frame; [|exact Hc]. intros q Hq. unfold word. cbn. rewrite lookup_insert_ne; [done|].
    intros ->. rewrite Z.div_mul in Ha by done. apply (Hfree q Hq), Ha, Hus. by right; left.
Qed.

(** At least [n] frames are left. *)
Definition room (n : nat) (A : gset Z) : Prop :=
  ∃ l, NoDup l ∧ length l = n ∧ ∀ p, p ∈ l → usable entries p ∧ p ∉ A.

Lemma room_take n A p : room (S n) A → room n ({[p]} ∪ A).
Proof using.
  intros (l & Hnd & Hl & Hin). destruct (decide (p ∈ l)) as [Hp|Hp].
  - apply list_elem_of_split in Hp as (l1 & l2 & ->). exists (l1 ++ l2).
    rewrite length_app in Hl |- *. cbn in Hl.
    apply NoDup_app in Hnd as (Hn1 & Hn12 & [Hn Hn2]%NoDup_cons). split_and!; [|lia|].
    + apply NoDup_app. split_and!; [done| |done]. intros x Hx Hx2. eapply Hn12; [done|by right].
    + intros q Hq. destruct (Hin q) as [Hu HA].
      { rewrite elem_of_app, elem_of_cons. rewrite elem_of_app in Hq. tauto. }
      split; [done|]. rewrite not_elem_of_union, not_elem_of_singleton. split; [|done].
      intros ->. rewrite elem_of_app in Hq. destruct Hq; [by eapply Hn12; [|left]|done].
  - destruct l as [|q l]; [done|]. exists l. apply NoDup_cons in Hnd as [_ Hnd]. cbn in Hl.
    split_and!; [done|lia|]. intros x Hx. destruct (Hin x) as [Hu HA]; [by right|]. split; [done|].
    rewrite not_elem_of_union, not_elem_of_singleton. split; [|done]. intros ->. apply Hp. by right.
Qed.

(** What the clients of [alloc] use: with room, a new zeroed frame. *)
Lemma alloc_step s A n :
  frame_client s A → room (S n) A →
  ∃ p s', alloc hh s = Some (p, s') ∧ p ∉ A ∧ usable entries p ∧ frame_client s' ({[p]} ∪ A)
    ∧ room n ({[p]} ∪ A) ∧ (∀ k, 0 <= k < 512 → word s' (p * 4096 + 8 * k) = 0)
    ∧ (∀ a, a / 4096 ≠ p → word s' a = word s a).
Proof using P.
  intros C R. destruct (frame_client_inv _ _ C) as [chain I].
  destruct (alloc_ok _ _ _ I) as [(_ & -> & Hr)|(p & s' & chain' & E & Hu & Hp & _ & Hz & Ho)].
  - destruct R as (l & Hnd & Hl & Hin). destruct l as [|q l]; [done|].
    destruct (Hin q) as [Hu HA]; [by left|].
    apply (inv_usable _ _ _ I) in Hu as [?|[?%not_elem_of_nil|(r & Hr' & _)]]; [done..|].
    rewrite Hr in Hr'. by apply not_elem_of_nil in Hr'.
  - exists p, s'. split_and!; [done..|by eapply fc_alloc|by apply room_take|done|done].
Qed.

(** Clients may zero a frame they hold. *)
Lemma zero_words_client p s A :
  ok_frame p → (usable entries p → p ∈ A) → frame_client s A →
  let s' := zero_words hh 512 (frame_va p) s in
  frame_client s' A ∧ (∀ k, 0 <= k < 512 → word s' (p * 4096 + 8 * k) = 0) ∧ ∀ a, a / 4096 ≠ p → word s' a = word s a.
Proof using P.
  intros [H1 H2] Hin C. pose proof (plat_hhdm _ _ P) as Hh. change (2 ^ 64) with 18446744073709551616 in *.
  assert (∀ n s k, 0 <= k → k + Z.of_nat n <= 512 → frame_client s A →
    frame_client (zero_words hh n (u64 (hh + (p * 4096 + 8 * k))) s) A) as Hc.
  { induction n as [|n IH]; intros s0 k Hk Hn C0; cbn [zero_words]; [done|].
    replace (u64 (u64 (hh + (p * 4096 + 8 * k)) + 8)) with (u64 (hh + (p * 4096 + 8 * (k + 1)))) by word_lia.
    apply IH; [lia|lia|]. unfold store. apply fc_store; [done|].
    replace (u64 (u64 (hh + (p * 4096 + 8 * k)) - hh) / 4096) with p by word_lia. done. }
  specialize (Hc 512%nat s 0 ltac:(lia) ltac:(lia) C).
  destruct (zero_words_frame 512 s (p * 4096)) as (_ & _ & _ & Hz & Ho);
    [lia|change (2 ^ 64) with 18446744073709551616; lia|].
  rewrite Z.mul_0_r, Z.add_0_r in Hc. rewrite u64_id in Hc, Hz, Ho by word_lia. split_and!; [done|done|].
  intros a Ha. apply Ho. intros k Hk ->. apply Ha. word_lia.
Qed.

Lemma client_usable s A p : frame_client s A → p ∈ A → usable entries p.
Proof using P. intros [chain I]%frame_client_inv Hp. apply (inv_usable _ _ _ I). auto. Qed.

(** C10: [PhysMem::alloc] hands out a usable frame that is not handed out already, with all
    its 512 words zero, and changes no word of any other frame, whatever was freed before and
    whatever is stored in the frames that are handed out. *)
Theorem alloc_exclusive s A p s' :
  frame_client s A → alloc hh s = Some (p, s') →
  p ∉ A ∧ usable entries p ∧ (∀ k, 0 <= k < 512 → word s' (p * 4096 + 8 * k) = 0)
  ∧ (∀ a, a / 4096 ≠ p → word s' a = word s a).
Proof using P.
  intros [chain I]%frame_client_inv E.
  destruct (alloc_ok _ _ _ I) as [(E' & _)|(p' & s2 & chain' & E' & ? & ? & _ & ? & ?)]; rewrite E in E'; [done|].
  by injection E' as <- <-.
Qed.

(** No frame is ever lost: [PhysMem::alloc] runs out of frames exactly when every
    usable frame of the memory map is handed out; freeing a frame that is handed out always
    succeeds. *)
Theorem frames_conserved s A :
  frame_client s A →
  (alloc hh s = None ↔ ∀ p, usable entries p → p ∈ A)
  ∧ ∀ p, p ∈ A → is_Some (free hh memmap p s).
Proof using P.
  intros [chain I]%frame_client_inv. split.
  - split.
    + intros E. destruct (alloc_ok _ _ _ I) as [(_ & -> & Hr)|(p & s2 & chain' & E' & _)]; [|congruence].
      intros p [?|[?%not_elem_of_nil|(r & Hin & _)]]%(inv_usable _ _ _ I); [done..|].
      rewrite Hr in Hin. by apply not_elem_of_nil in Hin.
    + intros Hall. destruct (alloc_ok _ _ _ I) as [(? & _)|(p & s2 & chain' & _ & Hu & Hp & _)]; [done|].
      destruct (Hp (Hall _ Hu)).
  - intros p Hp. destruct (give_back_ok _ _ _ _ I Hp) as (s' & -> & _). eauto.
Qed.
End Frames.

(** Below 256 MB a second [PhysMem::free] of the same frame changes nothing, whatever
    the state. *)
Theorem double_free_tracked hh memmap p s s1 :
  p < MAX_TRACKED_PPN → free hh memmap p s = Some s1 → free hh memmap p s1 = Some s1.
Proof.
  unfold free. destruct (p =? 0); [by intros _ [= <-]|].
  destruct (pa_in_usable_range memmap (PA_of_PPN p)); cbn [negb]; [|by intros _ [= <-]].
  destruct (VA_of_PA hh (PA_of_PPN p)); cbn [mbind option_bind]; [|done].
  intros Hp. unfold ppn_is_tracked. rewrite (proj2 (Z.ltb_lt _ _) Hp). cbn [andb].
  destruct (negb (state_of p s =? 1)) eqn:E; [intros [= <-]; by rewrite E|].
  intros [= <-]. unfold store, set_state, ppn_is_tracked. rewrite (proj2 (Z.ltb_lt _ _) Hp).
  unfold state_of. cbn. by rewrite lookup_insert_eq.
Qed.

(** From 256 MB on the table does not protect: after a frame is freed twice,
    [PhysMem::alloc] hands the same frame out twice in a row. *)
Theorem double_free_untracked hh entries p s :
  platform hh entries → usable entries p → MAX_TRACKED_PPN <= p →
  ∃ s1 s2 s3 s4, free hh (Some entries) p s = Some s1 ∧ free hh (Some entries) p s1 = Some s2
  ∧ alloc hh s2 = Some (p, s3) ∧ alloc hh s3 = Some (p, s4).
Proof.
  intros P Hu Hp. pose proof (usable_ok _ _ P _ Hu) as Hok.
  destruct (ok_frame_facts _ _ P _ Hok) as (Epa & Evp & Eva & Eu & Epp & Hne & _).
  destruct Hok as [Hp1 Hp2]. pose proof (plat_hhdm _ _ P) as Hh. change (2 ^ 64) with 18446744073709551616 in *.
  assert (∀ s, free hh (Some entries) p s =
    Some (store hh (frame_va hh p) (avail s) s .[ avail := frame_va hh p ])) as Efree.
  { intros s0. unfold free. rewrite (proj2 (Z.eqb_neq p 0)) by lia. rewrite Epa.
    rewrite (proj2 (pa_in_usable_range_spec _ _ P p ltac:(lia)
      ltac:(change (2 ^ 64) with 18446744073709551616; lia)) Hu). cbn [negb].
    rewrite Eva. cbn [mbind option_bind]. unfold ppn_is_tracked, set_state.
    unfold ppn_is_tracked. rewrite (proj2 (Z.ltb_ge _ _)) by done. done. }
  assert (∀ s, avail s = frame_va hh p → alloc hh s =
    Some (p, zero_words hh 512 (frame_va hh p) (s .[ avail := load hh (frame_va hh p) s ]))) as Ealloc.
  { intros s0 Ha. unfold alloc, take_frame. rewrite Ha, (proj2 (Z.eqb_neq _ _) Hne). cbn [negb].
    rewrite Epp. unfold set_state, ppn_is_tracked. rewrite (proj2 (Z.ltb_ge _ _)) by done.
    cbn [mbind option_bind]. by rewrite Evp. }
  set (s1 := store hh (frame_va hh p) (avail s) s .[ avail := frame_va hh p ]).
  set (s2 := store hh (frame_va hh p) (avail s1) s1 .[ avail := frame_va hh p ]).
  assert (load hh (frame_va hh p) s2 = frame_va hh p) as El.
  { unfold load, s2, store. cbn. by rewrite lookup_insert_eq. }
  exists s1, s2. eexists _, _. split; [apply Efree|]. split; [apply Efree|].
  split; [by apply Ealloc|]. apply Ealloc. rewrite El.
  destruct (zero_words_frame _ _ P 512 (s2 .[ avail := frame_va hh p ]) (p * 4096)) as (E1 & _);
    [lia|change (2 ^ 64) with 18446744073709551616; lia|].
  rewrite u64_id in E1 by word_lia. fold (frame_va hh p) in E1. rewrite E1. reflexivity.
Qed.

(** ** Concrete runs *)

Definition demo_hhdm : Z := 18446603336221196288.
Definition demo_map : list MemmapEntry :=
  [mkEntry 0 4096 16384; mkEntry 1 20480 4096; mkEntry 0 268435456 8192].

Lemma demo_platform : platform demo_hhdm demo_map.
Proof.
  split.
  - done.
  - done.
  - intros e He Hu. unfold demo_map in He. rewrite !elem_of_cons, elem_of_nil in He.
    destruct He as [->|[->|[->|[]]]]; cbn in *; try done; split_and!; done.
  - intros i j e e' Hi Hj Hu Hu' Hne.
    destruct i as [|[|[|]]], j as [|[|[|]]]; cbn in *; simplify_eq; try done; cbn; lia.
Qed.

Definition demo_start : PhysMem := PhysMem_init (Some demo_map) ∅.
Definition demo_alloc (s : PhysMem) : Z * PhysMem := default (0, s) (alloc demo_hhdm s).

Lemma alloc_exclusive_witness : (65536 ∉ (∅ : gset Z)) ∧ word (demo_alloc demo_start).2 268435464 = 0.
Proof.
  destruct (alloc_exclusive demo_hhdm demo_map demo_platform demo_start ∅ 65536 (demo_alloc demo_start).2)
    as (Hp & _ & Hz & _); [apply fc_init|vm_compute; reflexivity|]. split; [exact Hp|].
  apply (Hz 1). lia.
Defined.

Lemma frames_conserved_witness : alloc demo_hhdm demo_start ≠ None.
Proof.
  destruct (frames_conserved demo_hhdm demo_map demo_platform demo_start ∅) as [[H _] _]; [apply fc_init|].
  intros E. apply (not_elem_of_empty (C := gset Z) 1). apply (H E).
  exists (mkEntry 0 4096 16384). split_and!; [left|reflexivity|unfold range_frame; cbn; lia].
Defined.

Lemma double_free_tracked_witness :
  free demo_hhdm (Some demo_map) 2 demo_start = Some demo_start ∧
  free demo_hhdm (Some demo_map) 2 demo_start = Some demo_start.
Proof.
  split; [reflexivity|].
  apply (double_free_tracked demo_hhdm (Some demo_map) 2 demo_start); [reflexivity|reflexivity].
Defined.

Lemma double_free_untracked_witness : ∃ s1 s2 s3 s4,
  free demo_hhdm (Some demo_map) 65536 demo_start = Some s1 ∧ free demo_hhdm (Some demo_map) 65536 s1 = Some s2
  ∧ alloc demo_hhdm s2 = Some (65536, s3) ∧ alloc demo_hhdm s3 = Some (65536, s4).
Proof.
  apply (double_free_untracked demo_hhdm demo_map 65536 demo_start).
  - apply demo_platform.
  - exists (mkEntry 0 268435456 8192). split_and!; [right; right; left|reflexivity|unfold range_frame; cbn; lia].
  - unfold MAX_TRACKED_PPN. lia.
Defined.
