(* ===== verification/Queue.v ===== *)
(** * Queues of threads ([queue.h])

    [Queue] is an intrusive singly linked list: every thread has one [next]
    field, which the queue it is in uses.  The pointer operations are refined to
    operations on lists: [add] appends, [remove] takes the head.  [Sched] keeps
    the ready queue, the reaper queue and the queue of a condition variable in
    one heap of [next] fields; [holds_frame] separates them. *)

From stdpp Require Import gmap.
From S2P Require Import Prelude.

(** ** The linked list

    A pointer is a number, the null pointer is [0]; [links] holds the [next]
    field of every thread. *)

Abbreviation links := (gmap Z Z) (only parsing).

Record Queue := mkQueue { first : Z; last : Z; size_count : Z }.
#[export] Instance eta_Queue : Eta Queue := fun q => mkQueue (first q) (last q) (size_count q).

Definition new_queue : Queue := mkQueue 0 0 0.

(** Writing through the null pointer is undefined. *)
Definition set_next (p v : Z) (nx : links) : option links := if p =? 0 then None else Some (<[p := v]> nx).
Definition get_next (p : Z) (nx : links) : option Z := if p =? 0 then None else nx !! p.

Definition add (t : Z) (q : Queue) (nx : links) : option (Queue * links) :=
  nx ← set_next t 0 nx;
  '(q, nx) ← (if first q =? 0 then Some (q .[ first := t ], nx)
              else nx ← set_next (last q) t nx; Some (q, nx));
  Some (q .[ last := t ] .[ size_count := u64 (size_count q + 1) ], nx).

Definition remove (q : Queue) (nx : links) : option (Z * Queue) :=
  if first q =? 0 then Some (0, q)
  else
    let it := first q in
    n ← get_next it nx;
    let q := q .[ first := n ] in
    let q := if first q =? 0 then q .[ last := 0 ] else q in
    Some (it, q .[ size_count := u64 (size_count q - 1) ]).

Definition remove_all (q : Queue) : Z * Queue := (first q, mkQueue 0 0 0).

(** The pointer chain from [p] on holds the threads [l]. *)
Fixpoint chain (nx : links) (p : Z) (l : list Z) : Prop :=
  match l with
  | [] => p = 0
  | t :: l' => p = t ∧ t ≠ 0 ∧ ∃ n, nx !! t = Some n ∧ chain nx n l'
  end.

(** The queue holds the threads [l], first one first. *)
Record holds (q : Queue) (nx : links) (l : list Z) : Prop := {
  holds_chain : chain nx (first q) l;
  holds_nodup : NoDup l;
  holds_last : last q = default 0 (list.last l);
  holds_size : size_count q = u64 (Z.of_nat (length l));
}.

Lemma chain_frame nx nx' l : ∀ p, (∀ t, t ∈ l → nx' !! t = nx !! t) → chain nx p l → chain nx' p l.
Proof.
  induction l as [|t l IH]; intros p H; [done|]. cbn. intros (-> & Ht & n & Hn & Hl). split_and!; [done..|].
  exists n. split; [rewrite H; [done|by left]|]. apply IH; [|done]. intros u Hu. apply H. by right.
Qed.

Lemma chain_not_null nx l : ∀ p, chain nx p l → 0 ∉ l.
Proof.
  induction l as [|t l IH]; intros p; cbn; [intros _; apply not_elem_of_nil|].
  intros (-> & Ht & n & _ & Hl). apply not_elem_of_cons. split; [done|by eapply IH].
Qed.

Lemma chain_unique nx l1 : ∀ p l2, chain nx p l1 → chain nx p l2 → l1 = l2.
Proof.
  induction l1 as [|t l1 IH]; intros p [|u l2]; cbn; [done|by intros -> (<- & ? & _)|by intros (<- & ? & _) ->|].
  intros (-> & _ & n & Hn & H1) (<- & _ & m & Hm & H2). f_equal. apply (IH n); [done|]. congruence.
Qed.

Lemma chain_first nx p l : chain nx p l → p = default 0 (head l).
Proof. destruct l; cbn; [done|]. by intros [-> _]. Qed.

(** Linking [t] behind the last thread. *)
Lemma chain_snoc nx l t : ∀ p u,
  t ∉ u :: l → t ≠ 0 → NoDup (u :: l) → chain nx p (u :: l) →
  chain (<[default u (list.last l) := t]> (<[t := 0]> nx)) p ((u :: l) ++ [t]).
Proof.
  induction l as [|v l IH]; intros p u Ht Ht0 Hnd Hc; cbn [app chain] in *.
  - destruct Hc as (-> & Hu & n & Hn & ->). apply not_elem_of_cons in Ht as [Htu _]. cbn. split_and!; [done..|].
    exists t. split; [apply lookup_insert_eq|]. split_and!; [done..|]. exists 0.
    split; [by rewrite lookup_insert_ne, lookup_insert_eq|done].
  - destruct Hc as (-> & Hu & n & Hn & Hc). split_and!; [done..|]. exists n.
    apply not_elem_of_cons in Ht as [Htu Ht]. apply NoDup_cons in Hnd as [Hul Hnd].
    replace (default u (list.last (v :: l))) with (default v (list.last l))
      by (rewrite last_cons; by destruct (list.last l)).
    split; [|by apply (IH n v)]. rewrite !lookup_insert_ne; [done|done|].
    intros <-. apply Hul. destruct (list.last l) as [w|] eqn:Ew; cbn; [|by left].
    right. apply last_Some in Ew as [l' ->]. apply elem_of_app. right. by left.
Qed.

Lemma add_ok t q nx l :
  holds q nx l → t ≠ 0 → t ∉ l →
  ∃ q' nx', add t q nx = Some (q', nx') ∧ holds q' nx' (l ++ [t])
    ∧ ∀ u, u ∉ l → u ≠ t → nx' !! u = nx !! u.
Proof.
  intros [Hc Hnd Hl Hs] Ht0 Ht. unfold add, set_next. rewrite (proj2 (Z.eqb_neq t 0) Ht0). cbn [mbind option_bind].
  assert (u64 (u64 (Z.of_nat (length l)) + 1) = u64 (Z.of_nat (length (l ++ [t])))) as Esz
    by (rewrite length_app; cbn; word_lia).
  assert (NoDup (l ++ [t])) as Hnd'.
  { apply NoDup_app. split_and!; [done|by intros x Hx ->%list_elem_of_singleton|apply NoDup_singleton]. }
  destruct l as [|u l].
  - cbn in Hc. rewrite Hc. cbn [Z.eqb mbind option_bind]. eexists _, _. split; [reflexivity|]. split.
    + split; [|done|done|unfold set_field; cbn; rewrite Hs; exact Esz].
      cbn. split_and!; [done..|]. exists 0. split; [apply lookup_insert_eq|done].
    + intros v _ Hv. by apply lookup_insert_ne.
  - pose proof (chain_first _ _ _ Hc) as Ef. cbn in Ef. pose proof Hc as (_ & Hu0 & _).
    rewrite Ef. rewrite (proj2 (Z.eqb_neq u 0) Hu0).
    assert (last q = default u (list.last l)) as El
      by (rewrite Hl, last_cons; by destruct (list.last l)).
    assert (last q ∈ u :: l) as Hin.
    { rewrite El. destruct (list.last l) as [w|] eqn:Ew; cbn; [|by left].
      right. apply last_Some in Ew as [l' ->]. apply elem_of_app. right. by left. }
    assert (last q ≠ 0) as Hlast0.
    { intros E. rewrite E in Hin. by apply (chain_not_null _ _ _ Hc). }
    rewrite (proj2 (Z.eqb_neq _ _) Hlast0). cbn [mbind option_bind]. eexists _, _. split; [reflexivity|]. split.
    + split; [|done| |unfold set_field; cbn; rewrite Hs; exact Esz].
      * unfold set_field. cbn [first]. rewrite El. by apply chain_snoc.
      * unfold set_field. cbn [last]. by rewrite last_app.
    + intros v Hv Hvt. rewrite !lookup_insert_ne; [done|done|]. intros E. by rewrite E in Hin.
Qed.

Lemma remove_holds q nx l :
  holds q nx l →
  ∃ q', remove q nx = Some (default 0 (head l), q') ∧ holds q' nx (tail l).
Proof.
  intros [Hc Hnd Hl Hs]. unfold remove. destruct l as [|t l]; cbn in Hc.
  - rewrite Hc. cbn [Z.eqb]. exists q. split; [done|]. by split; cbn.
  - destruct Hc as (-> & Ht & n & Hn & Hc). rewrite (proj2 (Z.eqb_neq _ _) Ht). unfold get_next.
    rewrite (proj2 (Z.eqb_neq _ _) Ht), Hn. cbn [mbind option_bind]. eexists. split; [reflexivity|].
    apply NoDup_cons in Hnd as [_ Hnd]. pose proof (chain_first _ _ _ Hc) as En.
    unfold set_field. cbn [first last size_count]. cbn [tail].
    assert (u64 (size_count q - 1) = u64 (Z.of_nat (length l))) as Esz by (rewrite Hs; cbn [length]; word_lia).
    destruct (Z.eqb_spec n 0) as [->|Hn0].
    + assert (l = []) as -> by (destruct l as [|x l]; [done|]; cbn in Hc; by destruct Hc as (<- & ? & _)).
      by split; cbn.
    + destruct l as [|x l]; [done|]. split; cbn [first last size_count]; [done|done| |done].
      rewrite Hl. done.
Qed.

Lemma remove_all_ok q nx l :
  holds q nx l → let '(p, q') := remove_all q in chain nx p l ∧ holds q' nx [].
Proof. intros [Hc Hnd Hl Hs]. cbn. split; [done|]. split; cbn; done || apply NoDup_nil_2. Qed.

(** A queue does not see changes of the links of threads outside of it. *)
Lemma holds_frame q nx nx' l : (∀ t, t ∈ l → nx' !! t = nx !! t) → holds q nx l → holds q nx' l.
Proof. intros H [Hc Hnd Hl Hs]. split; [by eapply chain_frame|done..]. Qed.

Lemma holds_new nx : holds new_queue nx [].
Proof. split; [done|apply NoDup_nil_2|done|done]. Qed.

(** ** A queue is a list: first in, first out *)

Inductive QueueOp := Add (t : Z) | Remove | RemoveAll.

(** The results of the operations: what [remove] returns, and the threads found
    along the chain that [remove_all] returns. *)
Definition queue_op (o : QueueOp) (q : Queue) (nx : links) : option (Z * Queue * links) :=
  match o with
  | Add t => '(q, nx) ← add t q nx; Some (0, q, nx)
  | Remove => '(t, q) ← remove q nx; Some (t, q, nx)
  | RemoveAll => let '(t, q) := remove_all q in Some (t, q, nx)
  end.

Fixpoint queue_ops (os : list QueueOp) (q : Queue) (nx : links) : option (list Z * Queue * links) :=
  match os with
  | [] => Some ([], q, nx)
  | o :: os =>
      '(r, q, nx) ← queue_op o q nx;
      '(rs, q, nx) ← queue_ops os q nx;
      Some (r :: rs, q, nx)
  end.

(** The same operations on a list of threads. *)
Definition list_op (o : QueueOp) (l : list Z) : Z * list Z :=
  match o with
  | Add t => (0, l ++ [t])
  | Remove => (default 0 (head l), tail l)
  | RemoveAll => (default 0 (head l), [])
  end.

Fixpoint list_ops (os : list QueueOp) (l : list Z) : list Z * list Z :=
  match os with
  | [] => ([], l)
  | o :: os => let '(r, l) := list_op o l in let '(rs, l) := list_ops os l in (r :: rs, l)
  end.

(** The callers add a thread only when it is in no queue. *)
Fixpoint fresh_adds (os : list QueueOp) (l : list Z) : Prop :=
  match os with
  | [] => True
  | o :: os => (match o with Add t => t ≠ 0 ∧ t ∉ l | _ => True end) ∧ fresh_adds os (list_op o l).2
  end.

Lemma queue_op_ok o q nx l :
  holds q nx l → match o with Add t => t ≠ 0 ∧ t ∉ l | _ => True end →
  ∃ q' nx', queue_op o q nx = Some ((list_op o l).1, q', nx') ∧ holds q' nx' (list_op o l).2.
Proof.
  intros Hq Ho. destruct o as [t| |]; cbn.
  - destruct Ho as [Ht Hl]. destruct (add_ok t q nx l Hq Ht Hl) as (q' & nx' & -> & Hq' & _). by exists q', nx'.
  - destruct (remove_holds q nx l Hq) as (q' & -> & Hq'). by exists q', nx.
  - destruct (remove_all_ok q nx l Hq) as [Hc Hq']. rewrite <- (chain_first _ _ _ Hc). by exists new_queue, nx.
Qed.

(** any sequence of [add], [remove] and [remove_all] on a [Queue] that adds
    no thread twice behaves as the sequence of list operations: [add] appends,
    [remove] takes the oldest thread (or the null pointer when there is none),
    [remove_all] empties the queue and returns its first thread; no operation
    dereferences the null pointer, and the queue holds what the list holds. *)
Theorem queue_refines (os : list QueueOp) (q : Queue) (nx : links) (l : list Z)
    (Hq : holds q nx l) (Hos : fresh_adds os l) :
  ∃ q' nx', queue_ops os q nx = Some ((list_ops os l).1, q', nx') ∧ holds q' nx' (list_ops os l).2.
Proof.
  revert q nx l Hq Hos. induction os as [|o os IH]; intros q nx l Hq Hos; [by exists q, nx|].
  destruct Hos as [Ho Hos]. cbn [queue_ops list_ops].
  destruct (queue_op_ok o q nx l Hq Ho) as (q1 & nx1 & -> & Hq1). cbn [mbind option_bind].
  destruct (list_op o l) as [r l1]. cbn [fst snd] in *.
  destruct (IH q1 nx1 l1 Hq1 Hos) as (q2 & nx2 & -> & Hq2). cbn [mbind option_bind].
  destruct (list_ops os l1) as [rs l2]. by exists q2, nx2.
Qed.

Lemma queue_refines_witness :
  let os := [Add 8; Add 16; Remove; Add 8; Remove; Remove; Remove] in
  fresh_adds os [] ∧ (list_ops os []).1 = [0; 0; 8; 0; 16; 8; 0]
  ∧ ∃ q' nx', queue_ops os new_queue ∅ = Some ((list_ops os []).1, q', nx') ∧ holds q' nx' [].
Proof.
  cbn zeta. split; [|split; [reflexivity|]].
  - cbn. rewrite !not_elem_of_cons. split_and!; try done; apply not_elem_of_nil.
  - apply (queue_refines [Add 8; Add 16; Remove; Add 8; Remove; Remove; Remove] new_queue ∅ []).
    + apply holds_new.
    + cbn. rewrite !not_elem_of_cons. split_and!; try done; apply not_elem_of_nil.
Defined.
