(* ===== verification/Shared.v ===== *)
(** * Reference counts ([shared.h])

    A [StrongRef] or [WeakRef] points to a control block ([Middle]) that counts the
    references of each kind and points to the object.  The last strong reference
    deletes the object, whose own references are then dropped in turn; the
    last reference of both kinds deletes the block.  Threads interleave between
    critical sections: what a thread still has to do is its stack of [Work].

    The target of an assignment is out of memory while its old reference is
    released: an assignment whose target is a field of the object that this
    release deletes is stuck here (the code releases that field twice).  The steps allow any
    use of references; [careful] says what threads do that use them in turn. *)

From stdpp Require Import gmap.
From S2P Require Import Prelude.

Record Middle := mkMiddle { ptr : option nat; strong_count : Z; weak_count : Z }.
#[export] Instance eta_Middle : Eta Middle := fun m => mkMiddle (ptr m) (strong_count m) (weak_count m).

(** Where a reference is kept: a variable or a field of an object. *)
Inductive Loc := Var (x : nat) | Field (o i : nat).
#[export] Instance loc_eq_dec : EqDecision Loc.
Proof. solve_decision. Defined.
#[export] Instance loc_countable : Countable Loc.
Proof.
  apply (inj_countable' (λ l, match l with Var x => inl x | Field o i => inr (o, i) end)
    (λ c, match c with inl x => Var x | inr (o, i) => Field o i end)). by intros [].
Defined.

(** [StrongRef] and [WeakRef] with their [middle]. *)
Inductive Ref := Strong (m : option nat) | Weak (m : option nat).
#[export] Instance ref_eq_dec : EqDecision Ref.
Proof. solve_decision. Defined.
Definition middle (r : Ref) : option nat := match r with Strong m | Weak m => m end.

(** Memory that is allocated: blocks, objects with the number of their
    reference fields, references that are constructed. *)
Record Store := mkStore { middles : gmap nat Middle; objects : gmap nat nat; refs : gmap Loc Ref }.
#[export] Instance eta_Store : Eta Store := fun s => mkStore (middles s) (objects s) (refs s).

(** What is left to do: a release, a deletion after one, the rest of an assignment. *)
Inductive Work :=
| RemoveStrong (m : nat) | RemoveWeak (m : nat)
| DeleteObj (o : nat) | DeleteMiddle (m : nat)
| SetStrong (dst src : Loc) | SetWeak (dst src : Loc)
| SetNull (dst : Loc) (r : Ref).
#[export] Instance work_eq_dec : EqDecision Work.
Proof. solve_decision. Defined.

Definition set_middle (a : nat) (m : Middle) (s : Store) : Store := s .[ middles := <[a := m]> (middles s) ].

(** ** [Middle] *)

Definition add_strong (m : option nat) (s : Store) : option (option nat * Store) :=
  match m with
  | None => Some (None, s)
  | Some a =>
      mid ← middles s !! a;
      if 0 <? strong_count mid then Some (Some a, set_middle a (mid .[ strong_count := u64 (strong_count mid + 1) ]) s)
      else Some (None, s)
  end.

(** Up to the unlock; the deletions follow outside the lock. *)
Definition remove_strong (a : nat) (s : Store) : option (Store * list Work) :=
  mid ← middles s !! a;
  if negb (0 <? strong_count mid) then None
  else
    let mid' := mid .[ strong_count := strong_count mid - 1 ] in
    if strong_count mid' =? 0 then
      Some (set_middle a (mid' .[ ptr := None ]) s,
            (match ptr mid with Some o => [DeleteObj o] | None => [] end)
              ++ (if weak_count mid =? 0 then [DeleteMiddle a] else []))
    else Some (set_middle a mid' s, []).

Definition add_weak (m : option nat) (s : Store) : option (option nat * Store) :=
  match m with
  | None => Some (None, s)
  | Some a =>
      mid ← middles s !! a;
      match ptr mid with
      | None => Some (None, s)
      | Some _ => Some (Some a, set_middle a (mid .[ weak_count := u64 (weak_count mid + 1) ]) s)
      end
  end.

Definition remove_weak (a : nat) (s : Store) : option (Store * list Work) :=
  mid ← middles s !! a;
  if negb (0 <? weak_count mid) then None
  else
    let mid' := mid .[ weak_count := weak_count mid - 1 ] in
    Some (set_middle a mid' s, if (weak_count mid' =? 0) && (strong_count mid' =? 0) then [DeleteMiddle a] else []).

(** ** References *)

(** The destructor of a reference. *)
Definition release (r : Ref) : list Work :=
  match r with
  | Strong (Some m) => [RemoveStrong m]
  | Weak (Some m) => [RemoveWeak m]
  | _ => []
  end.

(** The destructor of an object destroys its fields, the last one first. *)
Fixpoint drop_fields (n o : nat) (l : gmap Loc Ref) : list Work * gmap Loc Ref :=
  match n with
  | O => ([], l)
  | S n =>
      let r := l !! Field o n in
      let '(ws, l) := drop_fields n o (delete (Field o n) l) in
      (match r with Some r => release r | None => [] end ++ ws, l)
  end.
Definition delete_object (o : nat) (s : Store) : option (Store * list Work) :=
  n ← objects s !! o;
  let '(ws, l) := drop_fields n o (refs s) in
  Some (s .[ objects := delete o (objects s) ] .[ refs := l ], ws).

(** There is memory for a reference at [l]. *)
Definition loc_ok (l : Loc) (s : Store) : bool :=
  match l with
  | Var _ => true
  | Field o i => match objects s !! o with Some n => (i <? n)%nat | None => false end
  end.
Definition put (dst : Loc) (r : Ref) (s : Store) : option (Store * list Work) :=
  if loc_ok dst s && bool_decide (refs s !! dst = None) then Some (s .[ refs := <[dst := r]> (refs s) ], []) else None.

Definition exec (w : Work) (s : Store) : option (Store * list Work) :=
  match w with
  | RemoveStrong m => remove_strong m s
  | RemoveWeak m => remove_weak m s
  | DeleteObj o => delete_object o s
  | DeleteMiddle m => if bool_decide (is_Some (middles s !! m)) then Some (s .[ middles := delete m (middles s) ], []) else None
  | SetStrong dst src => r ← refs s !! src; '(m, s) ← add_strong (middle r) s; put dst (Strong m) s
  | SetWeak dst src => r ← refs s !! src; '(m, s) ← add_weak (middle r) s; put dst (Weak m) s
  | SetNull dst r => put dst (match r with Strong _ => Strong None | Weak _ => Weak None end) s
  end.

(** The calls: [make] with the addresses [new] chose and the fields of the object,
    the copy constructors, the destructor, the assignments. *)
Inductive Call :=
| Make (dst : Loc) (m o : nat) (fields : list Ref)
| CopyStrong (dst src : Loc) | CopyWeak (dst src : Loc)
| Destroy (l : Loc)
| Assign (dst src : Loc) | AssignNull (dst : Loc).

Definition null_ref (r : Ref) : Ref := match r with Strong _ => Strong None | Weak _ => Weak None end.
Fixpoint null_fields (o i : nat) (fields : list Ref) (l : gmap Loc Ref) : gmap Loc Ref :=
  match fields with
  | [] => l
  | r :: fields => <[Field o i := null_ref r]> (null_fields o (S i) fields l)
  end.

Definition call (c : Call) (s : Store) : option (Store * list Work) :=
  match c with
  | Make dst m o fields =>
      if bool_decide (middles s !! m = None) && bool_decide (objects s !! o = None)
         && loc_ok dst s && bool_decide (refs s !! dst = None) then
        Some (mkStore (<[m := mkMiddle (Some o) 1 0]> (middles s)) (<[o := length fields]> (objects s))
                (<[dst := Strong (Some m)]> (null_fields o 0 fields (refs s))), [])
      else None
  | CopyStrong dst src => Some (s, [SetStrong dst src])
  | CopyWeak dst src => Some (s, [SetWeak dst src])
  | Destroy l => r ← refs s !! l; Some (s .[ refs := delete l (refs s) ], release r)
  | Assign dst src =>
      r ← refs s !! dst;
      r' ← refs s !! src;
      if bool_decide (middle r = middle r') then Some (s, [])
      else Some (s .[ refs := delete dst (refs s) ],
                 release r ++ [match r with Strong _ => SetStrong dst src | Weak _ => SetWeak dst src end])
  | AssignNull dst => r ← refs s !! dst; Some (s .[ refs := delete dst (refs s) ], release r ++ [SetNull dst r])
  end.

(** [operator->] *)
Definition deref (r : Ref) (s : Store) : option nat :=
  match r with
  | Strong (Some a) => mid ← middles s !! a; ptr mid
  | _ => None
  end.

(** ** Threads *)

Record Sys := mkSys { store : Store; threads : list (list Work) }.

Inductive step : Sys → Sys → Prop :=
| step_exec s ts i w ws s' ws' :
    ts !! i = Some (w :: ws) → exec w s = Some (s', ws') → step (mkSys s ts) (mkSys s' (<[i := ws' ++ ws]> ts))
| step_call s ts i c s' ws :
    ts !! i = Some [] → call c s = Some (s', ws) → step (mkSys s ts) (mkSys s' (<[i := ws]> ts)).

(** ** Counting *)

Fixpoint cnt (w : Work) (l : list Work) : nat :=
  match l with [] => 0 | x :: l => (if decide (w = x) then 1 else 0) + cnt w l end%nat.
Fixpoint pending (w : Work) (ts : list (list Work)) : nat :=
  match ts with [] => 0 | l :: ts => cnt w l + pending w ts end%nat.

Lemma cnt_app w l1 l2 : cnt w (l1 ++ l2) = (cnt w l1 + cnt w l2)%nat.
Proof. induction l1 as [|x l1 IH]; [done|]. cbn [app cnt]. by rewrite IH, Nat.add_assoc. Qed.

Lemma pending_insert w ts i l l' :
  ts !! i = Some l → (pending w (<[i := l']> ts) + cnt w l = pending w ts + cnt w l')%nat.
Proof.
  revert i. induction ts as [|x ts IH]; intros i Hi; [done|]. destruct i as [|i].
  - injection Hi as ->. cbn. lia.
  - change (<[S i := l']> (x :: ts)) with (x :: <[i := l']> ts). cbn [pending]. specialize (IH i Hi). lia.
Qed.

Section Sizes.
Context {K V : Type} `{Countable K} (P : K * V → Prop) `{∀ x, Decision (P x)}.

Definition count_if (m : gmap K V) : nat := size (filter P m).

Lemma count_if_insert m k v : m !! k = None → count_if (<[k := v]> m) = ((if decide (P (k, v)) then 1 else 0) + count_if m)%nat.
Proof.
  intros Hk. unfold count_if. case_decide as Hp.
  - rewrite map_filter_insert_True by done. apply map_size_insert_None. apply map_lookup_filter_None. by left.
  - rewrite map_filter_insert_not' by (done || by intros ??; simplify_eq). done.
Qed.

Lemma count_if_delete m k v : m !! k = Some v → count_if m = ((if decide (P (k, v)) then 1 else 0) + count_if (delete k m))%nat.
Proof.
  intros Hk. rewrite <- (insert_delete_id m k v) at 1 by done. apply count_if_insert, lookup_delete_eq.
Qed.

(** Writing a key that is there. *)
Lemma count_if_update m k v v' :
  m !! k = Some v →
  (count_if (<[k := v']> m) + (if decide (P (k, v)) then 1 else 0) = count_if m + (if decide (P (k, v')) then 1 else 0))%nat.
Proof.
  intros Hk. rewrite <- insert_delete_eq, count_if_insert by apply lookup_delete_eq. rewrite (count_if_delete m k v Hk). lia.
Qed.

Lemma count_if_pos m : (0 < count_if m)%nat ↔ ∃ k v, m !! k = Some v ∧ P (k, v).
Proof.
  unfold count_if. split.
  - intros Hpos. destruct (map_choose (filter P m)) as (k & v & Hk); [intros E; rewrite E, map_size_empty in Hpos; lia|].
    apply map_lookup_filter_Some in Hk as [? ?]. by exists k, v.
  - intros (k & v & Hk & Hp). destruct (decide (size (filter P m) = 0%nat)) as [E|]; [|lia]. apply map_size_empty_iff in E.
    assert (filter P m !! k = Some v) as Hf by (by apply map_lookup_filter_Some). by rewrite E in Hf.
Qed.
End Sizes.

Definition is_ref (r : Ref) (lr : Loc * Ref) : Prop := lr.2 = r.
#[export] Instance is_ref_dec r lr : Decision (is_ref r lr).
Proof. unfold is_ref. apply _. Defined.
Definition points_to (o : nat) (mm : nat * Middle) : Prop := ptr mm.2 = Some o.
#[export] Instance points_to_dec o mm : Decision (points_to o mm).
Proof. unfold points_to. apply _. Defined.

(** The strong and weak references to a block, and the blocks that own an object. *)
Definition strongs (m : nat) (l : gmap Loc Ref) : nat := count_if (is_ref (Strong (Some m))) l.
Definition weaks (m : nat) (l : gmap Loc Ref) : nat := count_if (is_ref (Weak (Some m))) l.
Definition owners (o : nat) (mm : gmap nat Middle) : nat := count_if (points_to o) mm.

(** ** The invariant

    [p] says how often each piece of work is pending. *)

Definition S_ (p : Work → nat) (s : Store) (m : nat) : nat := (strongs m (refs s) + p (RemoveStrong m))%nat.
Definition W_ (p : Work → nat) (s : Store) (m : nat) : nat := (weaks m (refs s) + p (RemoveWeak m))%nat.

Record counted (p : Work → nat) (s : Store) : Prop := {
  ct_mid : ∀ m mid, middles s !! m = Some mid →
    strong_count mid = Z.of_nat (S_ p s m) ∧ weak_count mid = Z.of_nat (W_ p s m) ∧ (ptr mid = None ↔ S_ p s m = 0%nat);
  ct_ref : ∀ m, (0 < S_ p s m + W_ p s m)%nat → is_Some (middles s !! m);
  ct_del : ∀ m, p (DeleteMiddle m) = match middles s !! m with
    | Some _ => if decide (S_ p s m + W_ p s m = 0)%nat then 1%nat else 0%nat | None => 0%nat end;
  ct_obj : ∀ o, (owners o (middles s) + p (DeleteObj o) = if decide (is_Some (objects s !! o)) then 1 else 0)%nat;
  ct_field : ∀ o i r, refs s !! Field o i = Some r → ∃ n, objects s !! o = Some n ∧ (i < n)%nat
}.

(** No count is about to wrap around. *)
Definition small (p : Work → nat) (s : Store) : Prop :=
  ∀ m, Z.of_nat (S_ p s m) < 2 ^ 64 - 1 ∧ Z.of_nat (W_ p s m) < 2 ^ 64 - 1.

Definition plus_work (p : Work → nat) (l : list Work) (w : Work) : nat := (p w + cnt w l)%nat.

Definition ind (P : Prop) `{Decision P} : nat := if decide P then 1%nat else 0%nat.
Lemma ind_True (P : Prop) `{Decision P} : P → ind P = 1%nat.
Proof. unfold ind. by case_decide. Qed.
Lemma ind_False (P : Prop) `{Decision P} : ¬ P → ind P = 0%nat.
Proof. unfold ind. by case_decide. Qed.

Lemma strongs_insert m l x r : l !! x = None → strongs m (<[x := r]> l) = (ind (r = Strong (Some m)) + strongs m l)%nat.
Proof. intros Hx. unfold strongs, ind. rewrite count_if_insert by done. unfold is_ref. cbn. by repeat case_decide. Qed.
Lemma weaks_insert m l x r : l !! x = None → weaks m (<[x := r]> l) = (ind (r = Weak (Some m)) + weaks m l)%nat.
Proof. intros Hx. unfold weaks, ind. rewrite count_if_insert by done. unfold is_ref. cbn. by repeat case_decide. Qed.
Lemma strongs_delete m l x r : l !! x = Some r → strongs m l = (ind (r = Strong (Some m)) + strongs m (delete x l))%nat.
Proof. intros Hx. unfold strongs at 1, ind. rewrite (count_if_delete _ l x r Hx). unfold is_ref. cbn. by repeat case_decide. Qed.
Lemma weaks_delete m l x r : l !! x = Some r → weaks m l = (ind (r = Weak (Some m)) + weaks m (delete x l))%nat.
Proof. intros Hx. unfold weaks at 1, ind. rewrite (count_if_delete _ l x r Hx). unfold is_ref. cbn. by repeat case_decide. Qed.

Lemma cnt_release_strong m r : cnt (RemoveStrong m) (release r) = ind (r = Strong (Some m)).
Proof. unfold ind. destruct r as [[a|]|[a|]]; cbn; repeat case_decide; simplify_eq; done. Qed.
Lemma cnt_release_weak m r : cnt (RemoveWeak m) (release r) = ind (r = Weak (Some m)).
Proof. unfold ind. destruct r as [[a|]|[a|]]; cbn; repeat case_decide; simplify_eq; done. Qed.
Lemma cnt_release_middle m r : cnt (DeleteMiddle m) (release r) = 0%nat.
Proof. by destruct r as [[a|]|[a|]]. Qed.
Lemma cnt_release_obj o r : cnt (DeleteObj o) (release r) = 0%nat.
Proof. by destruct r as [[a|]|[a|]]. Qed.

Lemma owners_update o mm a mid mid' :
  mm !! a = Some mid → (owners o (<[a := mid']> mm) + ind (ptr mid = Some o) = owners o mm + ind (ptr mid' = Some o))%nat.
Proof.
  intros Ha. pose proof (count_if_update (points_to o) mm a mid mid' Ha) as H. unfold points_to in H. cbn in H.
  unfold owners, ind. repeat case_decide; done || (unfold points_to in *; cbn in *; lia).
Qed.

(** ** Changes that keep the counts *)

(** Blocks and objects are as they were. *)
Lemma counted_same p s p' l' :
  counted p s → (∀ m, S_ p' (s .[ refs := l' ]) m = S_ p s m) → (∀ m, W_ p' (s .[ refs := l' ]) m = W_ p s m) →
  (∀ m, p' (DeleteMiddle m) = p (DeleteMiddle m)) → (∀ o, p' (DeleteObj o) = p (DeleteObj o)) →
  (∀ o i r, l' !! Field o i = Some r → ∃ n, objects s !! o = Some n ∧ (i < n)%nat) → counted p' (s .[ refs := l' ]).
Proof.
  intros [H1 H2 H3 H4 H5] HS HW HM HO HF. split; [..|exact HF].
  - intros m mid Hm. rewrite HS, HW. by apply H1.
  - intros m. rewrite HS, HW. apply H2.
  - intros m. rewrite HM, HS, HW. apply H3.
  - intros o. rewrite HO. apply H4.
Qed.

(** One block changes. *)
Lemma counted_block p s p' s' a mid mid' :
  counted p s → middles s !! a = Some mid → middles s' = <[a := mid']> (middles s) → objects s' = objects s →
  (∀ m, m ≠ a → S_ p' s' m = S_ p s m ∧ W_ p' s' m = W_ p s m ∧ p' (DeleteMiddle m) = p (DeleteMiddle m)) →
  strong_count mid' = Z.of_nat (S_ p' s' a) → weak_count mid' = Z.of_nat (W_ p' s' a) → (ptr mid' = None ↔ S_ p' s' a = 0%nat) →
  p' (DeleteMiddle a) = ind (S_ p' s' a + W_ p' s' a = 0)%nat →
  (∀ o, ind (ptr mid' = Some o) + p' (DeleteObj o) = ind (ptr mid = Some o) + p (DeleteObj o))%nat →
  (∀ o i r, refs s' !! Field o i = Some r → ∃ n, objects s !! o = Some n ∧ (i < n)%nat) → counted p' s'.
Proof.
  intros [H1 H2 H3 H4 H5] Ha Em Eo Hm Hs Hw Hp HM HO HF. split; [..|by rewrite Eo].
  - intros m x Hx. rewrite Em in Hx. destruct (decide (m = a)) as [->|Hne].
    + rewrite lookup_insert_eq in Hx. by injection Hx as <-.
    + destruct (Hm m Hne) as (-> & -> & _). apply H1. by rewrite lookup_insert_ne in Hx.
  - intros m Hpos. rewrite Em. destruct (decide (m = a)) as [->|Hne].
    + rewrite lookup_insert_eq. by eexists.
    + rewrite lookup_insert_ne by done. destruct (Hm m Hne) as (E1 & E2 & _). apply H2. lia.
  - intros m. rewrite Em. destruct (decide (m = a)) as [->|Hne].
    + by rewrite HM, lookup_insert_eq.
    + destruct (Hm m Hne) as (-> & -> & ->). by rewrite H3, lookup_insert_ne.
  - intros o. rewrite Em, Eo. specialize (H4 o). specialize (HO o). pose proof (owners_update o (middles s) a mid mid' Ha). lia.
Qed.

Lemma S_pos p s m mid : counted p s → middles s !! m = Some mid → (0 < S_ p s m)%nat → ∃ o, ptr mid = Some o.
Proof.
  intros C Hm Hp. destruct (ct_mid _ _ C m mid Hm) as (_ & _ & H). destruct (ptr mid) as [o|]; [by exists o|].
  rewrite (proj1 H eq_refl) in Hp. lia.
Qed.

(** [lia] on the counts of pieces of work. *)
Ltac counts :=
  unfold S_, W_, plus_work, ind in *; cbn [cnt app refs set_middle set_field middles objects strong_count weak_count ptr] in *;
  repeat case_decide; simplify_eq; try lia.

Lemma remove_strong_counted a s s' ws p :
  counted (plus_work p [RemoveStrong a]) s → remove_strong a s = Some (s', ws) → counted (plus_work p ws) s'.
Proof.
  intros C E. unfold remove_strong in E. apply bind_Some in E as (mid & Hm & E).
  destruct (ct_mid _ _ C a mid Hm) as (Es & Ew & Ep). pose proof (ct_del _ _ C a) as Hd. rewrite Hm in Hd.
  assert (0 < S_ (plus_work p [RemoveStrong a]) s a)%nat as Hpos by counts.
  destruct (S_pos _ _ _ _ C Hm Hpos) as [o Ho].
  destruct (negb _); [done|]. cbn zeta in E. unfold set_field in E. cbn [strong_count ptr weak_count] in E.
  destruct (Z.eqb_spec (strong_count mid - 1) 0) as [Ez|Ez].
  - rewrite Ho in E. injection E as <- <-. eapply (counted_block _ s _ _ a mid _ C Hm); [reflexivity|reflexivity|..|apply (ct_field _ _ C)].
    all: destruct (Z.eqb_spec (weak_count mid) 0) as [Ew0|Ew0].
    all: try (intros m Hne; split_and!; counts).
    all: try (intros x; rewrite ?Ho; counts).
    all: try (cbn [ptr]; split; [|done]).
    all: counts.
  - injection E as <- <-. eapply (counted_block _ s _ _ a mid _ C Hm); [reflexivity|reflexivity|..|apply (ct_field _ _ C)].
    all: try (intros m Hne; split_and!; counts).
    all: try (intros x; rewrite ?Ho; counts).
    all: try (cbn [ptr]; rewrite Ho; split; [done|]).
    all: counts.
Qed.

Lemma remove_weak_counted a s s' ws p :
  counted (plus_work p [RemoveWeak a]) s → remove_weak a s = Some (s', ws) → counted (plus_work p ws) s'.
Proof.
  intros C E. unfold remove_weak in E. apply bind_Some in E as (mid & Hm & E).
  destruct (ct_mid _ _ C a mid Hm) as (Es & Ew & Ep). pose proof (ct_del _ _ C a) as Hd. rewrite Hm in Hd.
  assert (0 < W_ (plus_work p [RemoveWeak a]) s a)%nat as Hpos by counts.
  destruct (negb _); [done|]. cbn zeta in E. unfold set_field in E. cbn [strong_count ptr weak_count] in E. injection E as <- <-.
  eapply (counted_block _ s _ _ a mid _ C Hm); [reflexivity|reflexivity|..|apply (ct_field _ _ C)].
  all: destruct (Z.eqb_spec (weak_count mid - 1) 0) as [Ew0|Ew0], (Z.eqb_spec (strong_count mid) 0) as [Es0|Es0]; cbn [andb].
  all: try (intros m Hne; split_and!; counts).
  all: try (intros x; counts).
  all: cbn [ptr] in *; rewrite ?Ep; counts.
Qed.

Lemma put_Some dst r s s' ws :
  put dst r s = Some (s', ws) → loc_ok dst s = true ∧ refs s !! dst = None ∧ s' = s .[ refs := <[dst := r]> (refs s) ] ∧ ws = [].
Proof.
  unfold put. destruct (loc_ok dst s) eqn:El; [|done]. cbn [andb]. case_bool_decide as Hd; [|done]. intros [= <- <-]. done.
Qed.

(** The fields are where there is memory, also after a new one. *)
Lemma fields_insert p s dst r :
  counted p s → loc_ok dst s = true →
  ∀ o i x, <[dst := r]> (refs s) !! Field o i = Some x → ∃ n, objects s !! o = Some n ∧ (i < n)%nat.
Proof.
  intros C Hok o i x Hx. destruct (decide (dst = Field o i)) as [->|Hne].
  - cbn in Hok. destruct (objects s !! o) as [n|]; [|done]. exists n. split; [done|]. by apply Nat.ltb_lt.
  - rewrite lookup_insert_ne in Hx by done. by apply (ct_field _ _ C o i x).
Qed.

(** A null reference counts nothing. *)
Lemma put_null_counted p w dst r s :
  counted (plus_work p [w]) s → (∀ m, w ≠ RemoveStrong m ∧ w ≠ RemoveWeak m ∧ w ≠ DeleteMiddle m ∧ w ≠ DeleteObj m) →
  middle r = None → loc_ok dst s = true → refs s !! dst = None → counted (plus_work p []) (s .[ refs := <[dst := r]> (refs s) ]).
Proof.
  intros C Hw Hr Hok Hd. apply (counted_same _ _ _ _ C); [..|by apply (fields_insert _ _ _ _ C)].
  all: intros m; destruct (Hw m) as (? & ? & ? & ?).
  - unfold S_, plus_work. cbn [refs set_field cnt]. rewrite strongs_insert by done. unfold ind. destruct r; cbn in Hr; subst; repeat case_decide; simplify_eq; lia.
  - unfold W_, plus_work. cbn [refs set_field cnt]. rewrite weaks_insert by done. unfold ind. destruct r; cbn in Hr; subst; repeat case_decide; simplify_eq; lia.
  - unfold plus_work. cbn [cnt]. case_decide; [congruence|lia].
  - unfold plus_work. cbn [cnt]. case_decide; [congruence|lia].
Qed.

Lemma set_strong_counted dst src s s' ws p :
  counted (plus_work p [SetStrong dst src]) s → small (plus_work p [SetStrong dst src]) s →
  exec (SetStrong dst src) s = Some (s', ws) → counted (plus_work p ws) s'.
Proof.
  intros C Hsm E. cbn [exec] in E. apply bind_Some in E as (r & Hr & E). apply bind_Some in E as ([m' s1] & Ea & E).
  apply put_Some in E as (Hok & Hd & -> & ->). unfold add_strong in Ea. destruct (middle r) as [a|] eqn:Em.
  2: { injection Ea as <- <-. by apply (put_null_counted _ _ _ _ _ C). }
  apply bind_Some in Ea as (mid & Hm & Ea). destruct (Z.ltb_spec 0 (strong_count mid)) as [Hp|Hp].
  2: { injection Ea as <- <-. by apply (put_null_counted _ _ _ _ _ C). }
  injection Ea as <- <-. cbn [refs set_middle set_field] in Hd. pose proof (fields_insert _ _ dst (Strong (Some a)) C Hok) as HF.
  destruct (ct_mid _ _ C a mid Hm) as (Es & Ew & Ep). pose proof (ct_del _ _ C a) as HD. rewrite Hm in HD.
  destruct (Hsm a) as [H64 _]. assert (2 ^ 64 = 18446744073709551616) as E64 by reflexivity. rewrite E64 in H64.
  rewrite u64_id by (rewrite Es; word_lia).
  assert (ptr mid ≠ None) as Hpn by (intros H; apply Ep in H; lia).
  eapply (counted_block _ s _ _ a mid _ C Hm); [reflexivity|reflexivity|..|exact HF].
  - intros m Hne. unfold S_, W_. cbn [refs set_middle set_field]. rewrite strongs_insert, weaks_insert by done. split_and!; counts.
  - cbn [strong_count set_field]. rewrite Es. unfold S_. cbn [refs set_middle set_field]. rewrite strongs_insert by done. counts.
  - cbn [weak_count set_field]. rewrite Ew. unfold W_. cbn [refs set_middle set_field]. rewrite weaks_insert by done. counts.
  - cbn [ptr set_field]. unfold S_. cbn [refs set_middle set_field]. rewrite strongs_insert by done. split; [done|]. counts.
  - unfold S_, W_. cbn [refs set_middle set_field]. rewrite strongs_insert, weaks_insert by done. counts.
  - intros o. cbn [ptr set_field]. counts.
Qed.

Lemma set_weak_counted dst src s s' ws p :
  counted (plus_work p [SetWeak dst src]) s → small (plus_work p [SetWeak dst src]) s →
  exec (SetWeak dst src) s = Some (s', ws) → counted (plus_work p ws) s'.
Proof.
  intros C Hsm E. cbn [exec] in E. apply bind_Some in E as (r & Hr & E). apply bind_Some in E as ([m' s1] & Ea & E).
  apply put_Some in E as (Hok & Hd & -> & ->). unfold add_weak in Ea. destruct (middle r) as [a|] eqn:Em.
  2: { injection Ea as <- <-. by apply (put_null_counted _ _ _ _ _ C). }
  apply bind_Some in Ea as (mid & Hm & Ea). destruct (ptr mid) as [o|] eqn:Hp.
  2: { injection Ea as <- <-. by apply (put_null_counted _ _ _ _ _ C). }
  injection Ea as <- <-. cbn [refs set_middle set_field] in Hd. pose proof (fields_insert _ _ dst (Weak (Some a)) C Hok) as HF.
  destruct (ct_mid _ _ C a mid Hm) as (Es & Ew & Ep). pose proof (ct_del _ _ C a) as HD. rewrite Hm in HD.
  destruct (Hsm a) as [_ H64]. assert (2 ^ 64 = 18446744073709551616) as E64 by reflexivity. rewrite E64 in H64.
  rewrite u64_id by (rewrite Ew; word_lia).
  assert (S_ (plus_work p [SetWeak dst src]) s a ≠ 0%nat) as Hpn by (intros H; apply Ep in H; congruence).
  eapply (counted_block _ s _ _ a mid _ C Hm); [reflexivity|reflexivity|..|exact HF].
  - intros m Hne. unfold S_, W_. cbn [refs set_middle set_field]. rewrite strongs_insert, weaks_insert by done. split_and!; counts.
  - cbn [strong_count set_field]. rewrite Es. unfold S_. cbn [refs set_middle set_field]. rewrite strongs_insert by done. counts.
  - cbn [weak_count set_field]. rewrite Ew. unfold W_. cbn [refs set_middle set_field]. rewrite weaks_insert by done. counts.
  - cbn [ptr set_field]. rewrite Hp. unfold S_ in *. cbn [refs set_middle set_field]. rewrite strongs_insert by done. split; [done|]. counts.
  - unfold S_, W_ in *. cbn [refs set_middle set_field]. rewrite strongs_insert, weaks_insert by done. counts.
  - intros x. cbn [ptr set_field]. counts.
Qed.

Lemma delete_middle_counted a s s' ws p :
  counted (plus_work p [DeleteMiddle a]) s → exec (DeleteMiddle a) s = Some (s', ws) → counted (plus_work p ws) s'.
Proof.
  intros C E. cbn [exec] in E. case_bool_decide as Hs; [|done]. injection E as <- <-. destruct Hs as [mid Hm].
  destruct (ct_mid _ _ C a mid Hm) as (Es & Ew & Ep). pose proof (ct_del _ _ C a) as HD. rewrite Hm in HD.
  assert (S_ (plus_work p [DeleteMiddle a]) s a = 0 ∧ W_ (plus_work p [DeleteMiddle a]) s a = 0 ∧ p (DeleteMiddle a) = 0)%nat as (E1 & E2 & E3).
  { revert HD. unfold plus_work at 1. cbn [cnt]. rewrite decide_True by done. case_decide; lia. }
  assert (ptr mid = None) as Hp by (by apply Ep).
  split; cbn [middles objects refs set_field].
  - intros m x Hx. apply lookup_delete_Some in Hx as [Hne Hx]. destruct (ct_mid _ _ C m x Hx) as (-> & -> & ->).
    split_and!; counts.
  - intros m Hpos. destruct (decide (m = a)) as [->|Hne].
    + exfalso. clear HD. counts.
    + rewrite lookup_delete_ne by done. apply (ct_ref _ _ C). clear HD. counts.
  - intros m. destruct (decide (m = a)) as [->|Hne].
    + rewrite lookup_delete_eq. unfold plus_work. cbn [cnt]. lia.
    + rewrite lookup_delete_ne by done. pose proof (ct_del _ _ C m) as Hd. destruct (middles s !! m); counts.
  - intros o. pose proof (ct_obj _ _ C o) as Ho. unfold owners in *. rewrite (count_if_delete _ _ a mid Hm) in Ho.
    rewrite (decide_False (P := points_to o (a, mid))) in Ho by (unfold points_to; cbn; congruence).
    rewrite <- Ho. clear HD Ho. counts.
  - apply (ct_field _ _ C).
Qed.

(** Destroying the fields of an object moves their references to the pending work. *)
Lemma drop_fields_ok n o : ∀ l ws l',
  drop_fields n o l = (ws, l') →
  (∀ m, strongs m l = strongs m l' + cnt (RemoveStrong m) ws ∧ weaks m l = weaks m l' + cnt (RemoveWeak m) ws
    ∧ cnt (DeleteMiddle m) ws = 0 ∧ cnt (DeleteObj m) ws = 0)%nat
  ∧ ∀ x r, l' !! x = Some r ↔ l !! x = Some r ∧ ∀ i, x = Field o i → (n <= i)%nat.
Proof.
  induction n as [|n IH]; intros l ws l' E; cbn [drop_fields] in E.
  - injection E as <- <-. split; [intros m; cbn; lia|]. intros x r. split; [|by intros []]. intros H. split; [done|]. intros i _. lia.
  - destruct (drop_fields n o (delete (Field o n) l)) as [ws1 l1] eqn:E1. injection E as <- <-. destruct (IH _ _ _ E1) as [H1 H2].
    split.
    + intros m. destruct (H1 m) as (E2 & E3 & E4 & E5). rewrite !cnt_app.
      destruct (l !! Field o n) as [r|] eqn:Hr.
      * rewrite (strongs_delete m l _ r Hr), (weaks_delete m l _ r Hr), cnt_release_strong, cnt_release_weak, cnt_release_middle, cnt_release_obj.
        lia.
      * rewrite delete_id in E2, E3 by done. cbn. lia.
    + intros x r. rewrite H2, lookup_delete_Some. split.
      * intros [[Hne Hx] Hi]. split; [done|]. intros i ->. pose proof (Hi i eq_refl). destruct (decide (i = n)) as [->|]; [done|lia].
      * intros [Hx Hi]. split_and!; [|done|].
        -- intros <-. pose proof (Hi n eq_refl). lia.
        -- intros i ->. pose proof (Hi i eq_refl). lia.
Qed.

Lemma delete_obj_counted o s s' ws p :
  counted (plus_work p [DeleteObj o]) s → exec (DeleteObj o) s = Some (s', ws) → counted (plus_work p ws) s'.
Proof.
  intros C E. cbn [exec] in E. unfold delete_object in E. apply bind_Some in E as (n & Hn & E).
  destruct (drop_fields n o (refs s)) as [ws1 l1] eqn:Ed. injection E as <- <-. destruct (drop_fields_ok _ _ _ _ _ Ed) as [H1 H2].
  assert (∀ m, S_ (plus_work p ws1) (s .[ objects := delete o (objects s) ] .[ refs := l1 ]) m = S_ (plus_work p [DeleteObj o]) s m
    ∧ W_ (plus_work p ws1) (s .[ objects := delete o (objects s) ] .[ refs := l1 ]) m = W_ (plus_work p [DeleteObj o]) s m) as HSW.
  { intros m. destruct (H1 m) as (E1 & E2 & _). unfold S_, W_. cbn [refs set_field]. rewrite E1, E2. unfold plus_work. cbn [cnt].
    rewrite !decide_False by done. lia. }
  split.
  - intros m mid Hm. destruct (HSW m) as [-> ->]. by apply (ct_mid _ _ C).
  - intros m. destruct (HSW m) as [-> ->]. by apply (ct_ref _ _ C).
  - intros m. destruct (HSW m) as [-> ->]. pose proof (ct_del _ _ C m) as Hd. cbn [middles set_field]. rewrite <- Hd.
    unfold plus_work. cbn [cnt]. rewrite decide_False by done. destruct (H1 m) as (_ & _ & -> & _). lia.
  - intros x. cbn [middles objects set_field]. pose proof (ct_obj _ _ C x) as Ho. destruct (H1 x) as (_ & _ & _ & Ex).
    unfold plus_work in *. rewrite Ex. cbn [cnt] in Ho. destruct (decide (x = o)) as [->|Hne].
    + rewrite Hn, decide_True in Ho by done. rewrite lookup_delete_eq, decide_False by (by intros []). rewrite decide_True in Ho by done. lia.
    + rewrite decide_False in Ho by congruence. rewrite lookup_delete_ne by done. lia.
  - intros x i r. cbn [refs objects set_field]. intros [Hx Hi]%H2. destruct (ct_field _ _ C x i r Hx) as (k & Hk & Hlt).
    destruct (decide (x = o)) as [->|Hne]; [|exists k; by rewrite lookup_delete_ne].
    assert (k = n) as -> by congruence. pose proof (Hi i eq_refl). lia.
Qed.

(** Every piece of work keeps the counts. *)
Lemma exec_counted w s s' ws p :
  counted (plus_work p [w]) s → small (plus_work p [w]) s → exec w s = Some (s', ws) → counted (plus_work p ws) s'.
Proof.
  intros C Hsm E. destruct w.
  - by eapply remove_strong_counted.
  - by eapply remove_weak_counted.
  - by eapply delete_obj_counted.
  - by eapply delete_middle_counted.
  - by eapply set_strong_counted.
  - by eapply set_weak_counted.
  - cbn [exec] in E. apply put_Some in E as (Hok & Hd & -> & ->). apply (put_null_counted _ _ _ _ _ C); [done|by destruct r|done|done].
Qed.

(** ** Calls *)

(** Only four kinds of work are counted. *)
Lemma counted_ext p p' s :
  counted p s → (∀ m, p' (RemoveStrong m) = p (RemoveStrong m) ∧ p' (RemoveWeak m) = p (RemoveWeak m)
    ∧ p' (DeleteMiddle m) = p (DeleteMiddle m) ∧ p' (DeleteObj m) = p (DeleteObj m)) → counted p' s.
Proof.
  intros [H1 H2 H3 H4 H5] He.
  assert (∀ m, S_ p' s m = S_ p s m ∧ W_ p' s m = W_ p s m) as HSW.
  { intros m. destruct (He m) as (E1 & E2 & _). unfold S_, W_. by rewrite E1, E2. }
  split; [..|exact H5].
  - intros m mid Hm. destruct (HSW m) as [-> ->]. by apply H1.
  - intros m. destruct (HSW m) as [-> ->]. by apply H2.
  - intros m. destruct (HSW m) as [-> ->]. destruct (He m) as (_ & _ & -> & _). by apply H3.
  - intros o. destruct (He o) as (_ & _ & _ & ->). apply H4.
Qed.

Definition uncounted (ws : list Work) : Prop :=
  Forall (λ w, match w with SetStrong _ _ | SetWeak _ _ | SetNull _ _ => True | _ => False end) ws.

Lemma cnt_uncounted ws m : uncounted ws →
  (cnt (RemoveStrong m) ws = 0 ∧ cnt (RemoveWeak m) ws = 0 ∧ cnt (DeleteMiddle m) ws = 0 ∧ cnt (DeleteObj m) ws = 0)%nat.
Proof.
  induction 1 as [|w ws Hw _ (H1 & H2 & H3 & H4)]; [done|]. cbn [cnt]. rewrite H1, H2, H3, H4.
  by destruct w; rewrite !decide_False by done.
Qed.

(** A reference leaves its place; its release is pending. *)
Lemma release_counted p s l r ex :
  counted p s → refs s !! l = Some r → uncounted ex →
  counted (plus_work p (release r ++ ex)) (s .[ refs := delete l (refs s) ]).
Proof.
  intros C Hl Hex. apply (counted_same _ _ _ _ C).
  - intros m. unfold S_, plus_work. cbn [refs set_field]. destruct (cnt_uncounted ex m Hex) as (E & _).
    rewrite cnt_app, E, cnt_release_strong, (strongs_delete m _ _ _ Hl). lia.
  - intros m. unfold W_, plus_work. cbn [refs set_field]. destruct (cnt_uncounted ex m Hex) as (_ & E & _).
    rewrite cnt_app, E, cnt_release_weak, (weaks_delete m _ _ _ Hl). lia.
  - intros m. unfold plus_work. destruct (cnt_uncounted ex m Hex) as (_ & _ & E & _). rewrite cnt_app, E, cnt_release_middle. lia.
  - intros m. unfold plus_work. destruct (cnt_uncounted ex m Hex) as (_ & _ & _ & E). rewrite cnt_app, E, cnt_release_obj. lia.
  - intros o i x [_ Hx]%lookup_delete_Some. by apply (ct_field _ _ C o i x).
Qed.

Lemma null_fields_ok o fields : ∀ i l, (∀ j, (i <= j)%nat → l !! Field o j = None) →
  (∀ m, strongs m (null_fields o i fields l) = strongs m l ∧ weaks m (null_fields o i fields l) = weaks m l)
  ∧ ∀ x r, null_fields o i fields l !! x = Some r → l !! x = Some r ∨ ∃ j, x = Field o j ∧ (i <= j < i + length fields)%nat.
Proof.
  induction fields as [|f fields IH]; intros i l Hl; cbn [null_fields length].
  - split; [done|by left].
  - destruct (IH (S i) l) as [H1 H2]; [intros j Hj; apply Hl; lia|].
    assert (null_fields o (S i) fields l !! Field o i = None) as Hn.
    { destruct (null_fields o (S i) fields l !! Field o i) as [r|] eqn:E; [|done]. destruct (H2 _ _ E) as [Hx|(j & Hj & Hr)].
      - by rewrite Hl in Hx by lia.
      - injection Hj as ->. lia. }
    split.
    + intros m. destruct (H1 m) as [E1 E2]. rewrite strongs_insert, weaks_insert, E1, E2 by done. by destruct f.
    + intros x r [[<- _]|[_ Hx]]%lookup_insert_Some; [right; exists i; split; [done|lia]|].
      destruct (H2 _ _ Hx) as [?|(j & ? & ?)]; [by left|right]. exists j. split; [done|lia].
Qed.

Lemma make_counted p s s' ws dst m o fields :
  counted p s → call (Make dst m o fields) s = Some (s', ws) → counted (plus_work p ws) s'.
Proof.
  intros C E. cbn [call] in E. case_bool_decide as Hm; [|done]. case_bool_decide as Ho; [|done].
  destruct (loc_ok dst s) eqn:Hok; [|done]. case_bool_decide as Hd; [|done]. cbn [andb] in E. injection E as <- <-.
  assert (∀ j, refs s !! Field o j = None) as Hf.
  { intros j. destruct (refs s !! Field o j) as [r|] eqn:E; [|done]. destruct (ct_field _ _ C o j r E) as (n & ? & _). congruence. }
  destruct (null_fields_ok o fields 0 (refs s) ltac:(intros; apply Hf)) as [H1 H2].
  assert (null_fields o 0 fields (refs s) !! dst = None) as Hd'.
  { destruct (null_fields o 0 fields (refs s) !! dst) as [r|] eqn:E; [|done]. destruct (H2 _ _ E) as [?|(j & -> & _)]; [congruence|].
    cbn in Hok. by rewrite Ho in Hok. }
  assert (S_ p s m = 0 ∧ W_ p s m = 0)%nat as [S0 W0].
  { destruct (decide (S_ p s m + W_ p s m = 0)%nat); [lia|]. destruct (ct_ref _ _ C m) as [x Hx]; [lia|congruence]. }
  set (s' := mkStore _ _ _).
  assert (∀ x, S_ (plus_work p []) s' x = (ind (m = x) + S_ p s x)%nat ∧ W_ (plus_work p []) s' x = W_ p s x) as HSW.
  { intros x. destruct (H1 x) as [E1 E2]. unfold S_, W_, plus_work. subst s'. cbn [refs cnt].
    rewrite strongs_insert, weaks_insert, E1, E2 by done. unfold ind. repeat case_decide; simplify_eq; lia. }
  split.
  - intros x mid Hx0. destruct (HSW x) as [-> ->]. clear HSW. subst s'. cbn [middles] in Hx0.
    apply lookup_insert_Some in Hx0 as [[<- <-]|[Hne Hx]].
    + cbn. unfold ind. rewrite decide_True by done. split_and!; [lia|lia|]. split; [done|lia].
    + unfold ind. rewrite decide_False by done. by apply (ct_mid _ _ C).
  - intros x Hpos. destruct (HSW x) as [E1 E2]. rewrite E1, E2 in Hpos. subst s'. cbn. destruct (decide (m = x)) as [->|Hne].
    + rewrite lookup_insert_eq. by eexists.
    + rewrite lookup_insert_ne by done. unfold ind in Hpos. rewrite decide_False in Hpos by done. by apply (ct_ref _ _ C).
  - intros x. destruct (HSW x) as [-> ->]. pose proof (ct_del _ _ C x) as Hd2. unfold plus_work. cbn [cnt]. subst s'. cbn [middles].
    destruct (decide (m = x)) as [<-|Hne].
    + rewrite lookup_insert_eq. rewrite decide_False by (rewrite ind_True by done; lia). rewrite Hm in Hd2. lia.
    + rewrite lookup_insert_ne by done. rewrite ind_False by done. rewrite Hd2. by rewrite Nat.add_0_r.
  - intros x. pose proof (ct_obj _ _ C x) as Hx. unfold plus_work. cbn [cnt]. subst s'. cbn [middles objects].
    unfold owners in *. rewrite count_if_insert by done. destruct (decide (x = o)) as [->|Hne].
    + rewrite lookup_insert_eq, decide_True by done. rewrite decide_True by (by eexists).
      rewrite decide_False in Hx by (rewrite Ho; by intros []). lia.
    + rewrite lookup_insert_ne by done. rewrite decide_False by (unfold points_to; cbn; congruence). by rewrite Nat.add_0_r.
  - intros x i r. clear HSW. subst s'. cbn [refs objects]. intros [[-> <-]|[Hne Hx]]%lookup_insert_Some.
    + cbn in Hok. destruct (objects s !! x) as [n|] eqn:En; [|done]. exists n. rewrite lookup_insert_ne by congruence.
      split; [done|]. by apply Nat.ltb_lt.
    + destruct (H2 _ _ Hx) as [Hold|(j & [= -> ->] & Hj)].
      * destruct (ct_field _ _ C x i r Hold) as (n & En & Hlt). exists n. rewrite lookup_insert_ne by congruence. done.
      * exists (length fields). rewrite lookup_insert_eq. split; [done|lia].
Qed.

Lemma call_counted c s s' ws p : counted p s → call c s = Some (s', ws) → counted (plus_work p ws) s'.
Proof.
  intros C E. destruct c as [dst m o fields|dst src|dst src|l|dst src|dst]; [by eapply make_counted|..]; cbn [call] in E.
  - injection E as <- <-. apply (counted_ext _ _ _ C). intros m. unfold plus_work.
    destruct (cnt_uncounted [SetStrong dst src] m ltac:(by repeat constructor)) as (-> & -> & -> & ->). lia.
  - injection E as <- <-. apply (counted_ext _ _ _ C). intros m. unfold plus_work.
    destruct (cnt_uncounted [SetWeak dst src] m ltac:(by repeat constructor)) as (-> & -> & -> & ->). lia.
  - apply bind_Some in E as (r & Hr & [= <- <-]). rewrite <- (app_nil_r (release r)). by apply release_counted; [..|constructor].
  - apply bind_Some in E as (r & Hr & E). apply bind_Some in E as (r' & Hr' & E). case_bool_decide.
    + injection E as <- <-. apply (counted_ext _ _ _ C). intros m. unfold plus_work. cbn. lia.
    + injection E as <- <-. apply release_counted; [done|done|]. by destruct r; repeat constructor.
  - apply bind_Some in E as (r & Hr & [= <- <-]). by apply release_counted; [..|repeat constructor].
Qed.

(** ** Every state *)

Definition pend (y : Sys) (w : Work) : nat := pending w (threads y).
Definition step_small (x y : Sys) : Prop := step x y ∧ small (pend x) (store x).
(** No memory allocated, [n] threads. *)
Definition init (n : nat) : Sys := mkSys (mkStore ∅ ∅ ∅) (replicate n []).

Lemma pending_exec ts i w ws ws' x :
  ts !! i = Some (w :: ws) →
  pending x ts = plus_work (λ x, pending x (<[i := ws]> ts)) [w] x
  ∧ pending x (<[i := ws' ++ ws]> ts) = plus_work (λ x, pending x (<[i := ws]> ts)) ws' x.
Proof.
  intros Hi. pose proof (pending_insert x ts i _ ws Hi) as E1. pose proof (pending_insert x ts i _ (ws' ++ ws) Hi) as E2.
  rewrite cnt_app in E2. unfold plus_work. cbn [cnt] in *. lia.
Qed.

Lemma step_counted x y : step_small x y → counted (pend x) (store x) → counted (pend y) (store y).
Proof.
  intros [H Hsm] C. destruct H as [s ts i w ws s' ws' Hi E|s ts i c s' ws Hi E]; unfold pend in *; cbn [threads store] in *.
  - eapply counted_ext; [apply (exec_counted w s s' ws' (λ x, pending x (<[i := ws]> ts)))|].
    + apply (counted_ext _ _ _ C). intros m. by split_and!; symmetry; apply (pending_exec ts i w ws ws' _ Hi).
    + intros m. destruct (Hsm m) as [H1 H2]. unfold S_, W_ in *.
      rewrite (proj1 (pending_exec ts i w ws ws' (RemoveStrong m) Hi)) in H1. rewrite (proj1 (pending_exec ts i w ws ws' (RemoveWeak m) Hi)) in H2. done.
    + exact E.
    + intros m. by split_and!; apply (pending_exec ts i w ws ws' _ Hi).
  - eapply counted_ext; [exact (call_counted c s s' ws _ C E)|]. intros m. unfold plus_work.
    split_and!; match goal with |- pending ?x _ = _ => pose proof (pending_insert x ts i _ ws Hi) as E1; cbn [cnt] in E1; lia end.
Qed.

Lemma init_counted n : counted (pend (init n)) (store (init n)).
Proof.
  assert (∀ w, pend (init n) w = 0%nat) as Hp by (intros w; unfold pend; cbn; by induction n).
  split; unfold S_, W_; try done.
  - intros m. rewrite !Hp. intros H. exfalso. revert H. vm_compute. lia.
  - intros m. rewrite Hp. done.
Qed.

Lemma reach_counted n y : rtc step_small (init n) y → counted (pend y) (store y).
Proof.
  intros H. assert (∀ x, rtc step_small x y → counted (pend x) (store x) → counted (pend y) (store y)) as G.
  { clear. induction 1 as [x|x x1 y Hx _ IH]; [done|]. intros C. by apply IH, (step_counted x). }
  apply (G (init n) H), init_counted.
Qed.

(** ** No use after free *)

(** What an assignment needs: the source is still there and the
    place of the target exists and is free. *)
Definition ready (w : Work) (s : Store) : Prop :=
  match w with
  | SetStrong dst src | SetWeak dst src => is_Some (refs s !! src) ∧ loc_ok dst s = true ∧ refs s !! dst = None
  | SetNull dst _ => loc_ok dst s = true ∧ refs s !! dst = None
  | _ => True
  end.

Lemma put_ready dst r s : loc_ok dst s = true → refs s !! dst = None → is_Some (put dst r s).
Proof. intros Hok Hd. unfold put. rewrite Hok, bool_decide_true by done. by eexists. Qed.

Lemma ref_block p s l r a : counted p s → refs s !! l = Some r → middle r = Some a → ∃ mid, middles s !! a = Some mid.
Proof.
  intros C Hl Hr. apply (ct_ref _ _ C a). unfold S_, W_. destruct r as [m|m]; cbn in Hr; subst m.
  - pose proof (strongs_delete a _ _ _ Hl). unfold ind in *. case_decide; [lia|done].
  - pose proof (weaks_delete a _ _ _ Hl). unfold ind in *. case_decide; [lia|done].
Qed.

Lemma exec_progress p w s : counted (plus_work p [w]) s → ready w s → is_Some (exec w s).
Proof.
  intros C Hr. destruct w as [a|a|o|a|dst src|dst src|dst r]; cbn [exec ready] in *.
  - destruct (ct_ref _ _ C a) as [mid Hm]; [counts|]. destruct (ct_mid _ _ C a mid Hm) as (Es & _ & _).
    assert (0 < S_ (plus_work p [RemoveStrong a]) s a)%nat by counts.
    unfold remove_strong. rewrite Hm. cbn [mbind option_bind]. rewrite (proj2 (Z.ltb_lt _ _)) by lia. cbn [negb]. cbn zeta. by case_match.
  - destruct (ct_ref _ _ C a) as [mid Hm]; [counts|]. destruct (ct_mid _ _ C a mid Hm) as (_ & Ew & _).
    assert (0 < W_ (plus_work p [RemoveWeak a]) s a)%nat by counts.
    unfold remove_weak. rewrite Hm. cbn [mbind option_bind]. rewrite (proj2 (Z.ltb_lt _ _)) by lia. cbn [negb]. by eexists.
  - pose proof (ct_obj _ _ C o) as Ho. unfold plus_work in Ho. cbn [cnt] in Ho. rewrite decide_True in Ho by done.
    case_decide as Hs; [|lia]. destruct Hs as [n Hn]. unfold delete_object. rewrite Hn. cbn [mbind option_bind].
    destruct (drop_fields _ _ _). by eexists.
  - pose proof (ct_del _ _ C a) as Hd. unfold plus_work at 1 in Hd. cbn [cnt] in Hd. rewrite decide_True in Hd by done.
    destruct (middles s !! a) eqn:E; [|lia]. rewrite bool_decide_true by (by eexists). by eexists.
  - destruct Hr as ([r Hr] & Hok & Hd). rewrite Hr. cbn [mbind option_bind]. unfold add_strong.
    destruct (middle r) as [a|] eqn:Em; [|by apply put_ready]. destruct (ref_block _ _ _ _ _ C Hr Em) as [mid ->]. cbn [mbind option_bind].
    destruct (0 <? strong_count mid); by apply put_ready.
  - destruct Hr as ([r Hr] & Hok & Hd). rewrite Hr. cbn [mbind option_bind]. unfold add_weak.
    destruct (middle r) as [a|] eqn:Em; [|by apply put_ready]. destruct (ref_block _ _ _ _ _ C Hr Em) as [mid ->]. cbn [mbind option_bind].
    destruct (ptr mid); by apply put_ready.
  - destruct Hr as [Hok Hd]. by apply put_ready.
Qed.

Lemma strong_object p s l a :
  counted p s → refs s !! l = Some (Strong (Some a)) → ∃ mid o, middles s !! a = Some mid ∧ ptr mid = Some o ∧ is_Some (objects s !! o).
Proof.
  intros C Hl. destruct (ref_block _ _ _ _ a C Hl eq_refl) as [mid Hm]. exists mid.
  assert (0 < S_ p s a)%nat as Hp by (unfold S_; rewrite (strongs_delete a _ _ _ Hl); rewrite ind_True by done; lia).
  destruct (S_pos _ _ _ _ C Hm Hp) as [o Ho]. exists o. split_and!; [done|done|].
  pose proof (ct_obj _ _ C o) as H. assert (0 < owners o (middles s))%nat as Hpos by (apply count_if_pos; by exists a, mid).
  case_decide; [done|lia].
Qed.

(** ** Nothing is leaked *)

Lemma pending_pos w ts : (0 < pending w ts)%nat → ∃ l, l ∈ ts ∧ l ≠ [].
Proof.
  induction ts as [|l ts IH]; cbn [pending]; [lia|]. intros H. destruct l as [|x l].
  - destruct IH as (l & ? & ?); [exact H|]. exists l. split; [by right|done].
  - exists (x :: l). split; [by left|done].
Qed.

(** C28: When no release is under way, exactly what is referenced is allocated: a control block is
    there iff some reference points to it, its counts are the numbers of references, and an object is
    there iff a strong reference leads to it (one from another object counts: a cycle keeps itself). *)
Theorem exactly_referenced n y :
  rtc step_small (init n) y → Forall (λ l, l = []) (threads y) →
  let s := store y in
  (∀ m, match middles s !! m with
        | Some mid => strong_count mid = Z.of_nat (strongs m (refs s)) ∧ weak_count mid = Z.of_nat (weaks m (refs s))
                      ∧ (0 < strongs m (refs s) + weaks m (refs s))%nat
        | None => (strongs m (refs s) = 0 ∧ weaks m (refs s) = 0)%nat
        end)
  ∧ ∀ o, is_Some (objects s !! o) ↔ ∃ l a, refs s !! l = Some (Strong (Some a)) ∧ deref (Strong (Some a)) s = Some o.
Proof.
  intros C%reach_counted Hq s. assert (∀ w, pend y w = 0%nat) as Hp.
  { intros w. unfold pend. destruct (decide (pending w (threads y) = 0%nat)) as [|H]; [done|].
    destruct (pending_pos w (threads y)) as (l & Hl & Hne); [lia|]. rewrite Forall_forall in Hq. by destruct (Hne (Hq l Hl)). }
  assert (∀ m, S_ (pend y) s m = strongs m (refs s) ∧ W_ (pend y) s m = weaks m (refs s)) as HSW.
  { intros m. unfold S_, W_. rewrite !Hp. lia. }
  split.
  - intros m. destruct (HSW m) as [<- <-]. pose proof (ct_del _ _ C m) as Hd. rewrite Hp in Hd. fold s in Hd.
    destruct (middles s !! m) as [mid|] eqn:Hm.
    + destruct (ct_mid _ _ C m mid Hm) as (-> & -> & _). split_and!; [done|done|]. case_decide; [done|lia].
    + destruct (decide (S_ (pend y) s m + W_ (pend y) s m = 0)%nat); [lia|]. destruct (ct_ref _ _ C m) as [x Hx]; [unfold s in *; lia|].
      unfold s in Hm. congruence.
  - intros o. pose proof (ct_obj _ _ C o) as Ho. rewrite Hp, Nat.add_0_r in Ho. fold s in Ho. split.
    + intros Hs. rewrite decide_True in Ho by done. assert (0 < owners o (middles s))%nat as Hpos by lia.
      apply count_if_pos in Hpos as (a & mid & Ha & Hpt). unfold points_to in Hpt. cbn in Hpt.
      destruct (ct_mid _ _ C a mid Ha) as (_ & _ & Hz). destruct (HSW a) as [E _]. fold s in Hz. rewrite E in Hz.
      assert (0 < strongs a (refs s))%nat as Hs1 by (destruct (decide (strongs a (refs s) = 0%nat)) as [E0|]; [apply Hz in E0; congruence|lia]).
      apply count_if_pos in Hs1 as (l & r & Hl & Hr). unfold is_ref in Hr. cbn in Hr. subst r. exists l, a. split; [done|].
      cbn [deref]. by rewrite Ha.
    + intros (l & a & Hl & Hd). destruct (strong_object _ _ _ _ C Hl) as (mid & o' & Hm & Ho' & Hs). cbn [deref] in Hd. fold s in Hm.
      rewrite Hm in Hd. cbn in Hd. assert (o' = o) as -> by congruence. done.
Qed.

(** ** Releases end *)

(** A thread that runs alone. *)
Fixpoint run (fuel : nat) (ws : list Work) (s : Store) : option Store :=
  match ws with
  | [] => Some s
  | w :: ws =>
      match fuel with
      | O => None
      | S fuel => '(s, ws') ← exec w s; run fuel (ws' ++ ws) s
      end
  end.

Definition is_release (w : Work) : Prop := match w with SetStrong _ _ | SetWeak _ _ | SetNull _ _ => False | _ => True end.
Definition weight (w : Work) : nat :=
  match w with RemoveStrong _ => 3 | RemoveWeak _ => 2 | DeleteObj _ | DeleteMiddle _ => 1 | _ => 0 end.
Fixpoint weights (ws : list Work) : nat := match ws with [] => 0 | w :: ws => weight w + weights ws end.

Lemma weights_app l1 l2 : weights (l1 ++ l2) = (weights l1 + weights l2)%nat.
Proof. induction l1 as [|w l1 IH]; [done|]. cbn. lia. Qed.

Lemma release_ok r : Forall is_release (release r) ∧ (weights (release r) <= 3)%nat.
Proof. destruct r as [[a|]|[a|]]; cbn; (split; [by repeat constructor|lia]). Qed.

Lemma drop_fields_weight n o : ∀ l ws l', drop_fields n o l = (ws, l') →
  Forall is_release ws ∧ (weights ws + 3 * size l' <= 3 * size l)%nat.
Proof.
  induction n as [|n IH]; intros l ws l' E; cbn [drop_fields] in E.
  - injection E as <- <-. split; [constructor|cbn; lia].
  - destruct (drop_fields n o (delete (Field o n) l)) as [ws1 l1] eqn:E1. injection E as <- <-. destruct (IH _ _ _ E1) as [H1 H2].
    rewrite Forall_app, weights_app. destruct (l !! Field o n) as [r|] eqn:Hr.
    + destruct (release_ok r) as [H3 H4]. rewrite (map_size_delete_Some (Field o n) l) in H2 by (by eexists).
      assert (0 < size l)%nat by (apply Nat.neq_0_lt_0; intros Hz%map_size_empty_iff; by rewrite Hz, lookup_empty in Hr).
      split; [done|]. lia.
    + rewrite delete_id in H2 by done. split; [split; [constructor|done]|]. cbn. lia.
Qed.

Lemma exec_release w s s' ws :
  is_release w → exec w s = Some (s', ws) →
  Forall is_release ws ∧ (weights ws + 3 * size (refs s') < weight w + 3 * size (refs s))%nat
  ∧ ∀ x r, refs s' !! x = Some r → refs s !! x = Some r.
Proof.
  intros Hr E. destruct w as [a|a|o|a|dst src|dst src|dst r]; try done; cbn [exec weight] in *.
  - unfold remove_strong in E. apply bind_Some in E as (mid & Hm & E). destruct (negb _); [done|]. cbn zeta in E.
    destruct (_ =? 0) in E.
    + injection E as <- <-. cbn [refs set_middle set_field]. split_and!; [|destruct (ptr mid), (weak_count mid =? 0); cbn; lia|done].
      destruct (ptr mid), (weak_count mid =? 0); by repeat constructor.
    + injection E as <- <-. cbn [refs set_middle set_field weights]. split_and!; [constructor|lia|done].
  - unfold remove_weak in E. apply bind_Some in E as (mid & Hm & E). destruct (negb _); [done|]. cbn zeta in E. injection E as <- <-.
    cbn [refs set_middle set_field]. split_and!; [|case_match; cbn; lia|done]. case_match; by repeat constructor.
  - unfold delete_object in E. apply bind_Some in E as (n & Hn & E). destruct (drop_fields n o (refs s)) as [ws1 l1] eqn:Ed.
    injection E as <- <-. destruct (drop_fields_weight _ _ _ _ _ Ed) as [H1 H2]. cbn [refs set_field]. split_and!; [done|lia|].
    intros x r Hx. by apply (drop_fields_ok _ _ _ _ _ Ed) in Hx as [Hx _].
  - case_bool_decide; [|done]. injection E as <- <-. cbn. split_and!; [constructor|lia|done].
Qed.

Lemma exec_release_counted w s s' ws p :
  is_release w → counted (plus_work p [w]) s → exec w s = Some (s', ws) → counted (plus_work p ws) s'.
Proof.
  intros Hr C E. destruct w; try done.
  - by eapply remove_strong_counted.
  - by eapply remove_weak_counted.
  - by eapply delete_obj_counted.
  - by eapply delete_middle_counted.
Qed.

Lemma plus_work_cons p w ws x : plus_work p (w :: ws) x = plus_work (plus_work p ws) [w] x.
Proof. unfold plus_work. cbn [cnt]. lia. Qed.
Lemma plus_work_app p ws' ws x : plus_work (plus_work p ws) ws' x = plus_work p (ws' ++ ws) x.
Proof. unfold plus_work. rewrite cnt_app. lia. Qed.

Lemma run_releases fuel : ∀ ws s p,
  counted (plus_work p ws) s → Forall is_release ws → (weights ws + 3 * size (refs s) <= fuel)%nat →
  ∃ s', run fuel ws s = Some s' ∧ counted p s' ∧ ∀ x r, refs s' !! x = Some r → refs s !! x = Some r.
Proof.
  induction fuel as [|fuel IH]; intros ws s p C Hws Hf; destruct ws as [|w ws]; cbn [run].
  1, 3: exists s; split_and!; [done| |done]; apply (counted_ext _ _ _ C); intros m; unfold plus_work; cbn; lia.
  - apply Forall_cons in Hws as [Hw _]. exfalso. destruct w; cbn in Hf; done || lia.
  - apply Forall_cons in Hws as [Hw Hws].
    assert (counted (plus_work (plus_work p ws) [w]) s) as C1 by (apply (counted_ext _ _ _ C); intros m; split_and!; symmetry; apply plus_work_cons).
    destruct (exec_progress _ _ _ C1) as [[s1 ws1] E]; [by destruct w|]. rewrite E. cbn [mbind option_bind].
    destruct (exec_release _ _ _ _ Hw E) as (H1 & H2 & H3). cbn [weights] in Hf.
    destruct (IH (ws1 ++ ws) s1 p) as (s2 & E2 & C2 & H4).
    + apply (counted_ext _ _ _ (exec_release_counted _ _ _ _ _ Hw C1 E)). intros m. split_and!; symmetry; apply plus_work_app.
    + by apply Forall_app.
    + rewrite weights_app. lia.
    + exists s2. split_and!; [done|done|]. intros x r Hx. by apply H3, H4.
Qed.

(** C36: Dropping references always ends: from every reachable state, what a thread has to release runs to
    its end within three steps for each pending release and each reference in memory, however
    long the chain of objects it takes down. *)
Theorem releases_end n y i ws :
  rtc step_small (init n) y → threads y !! i = Some ws → Forall is_release ws →
  ∃ s', run (3 * length ws + 3 * size (refs (store y))) ws (store y) = Some s'
    ∧ ∀ x r, refs s' !! x = Some r → refs (store y) !! x = Some r.
Proof.
  intros C%reach_counted Hi Hws. assert (weights ws <= 3 * length ws)%nat as Hw.
  { clear. induction ws as [|w ws IH]; [done|]. cbn. destruct w; cbn; lia. }
  destruct (run_releases (3 * length ws + 3 * size (refs (store y))) ws (store y) (λ x, pending x (<[i := []]> (threads y))))
    as (s' & E & _ & H); [|done|lia|by exists s'].
  apply (counted_ext _ _ _ C). intros m. unfold plus_work, pend.
  split_and!; match goal with |- _ = pending ?x _ => pose proof (pending_insert x (threads y) i ws [] Hi) as E; cbn [cnt] in E; lia end.
Qed.

(** ** Threads that use references in turn

    [own l] is the thread that may write the reference at [l]; a reference nobody owns may
    be read by all.  What a thread gives away it gives when it has nothing to do, and what all
    may read is taken when no thread has.  A field is used while a variable other than the one
    that is assigned keeps its object. *)

Section careful.
Abbreviation Owners := (Loc → option nat).
Implicit Types own : Owners.

Definition may_read own (i : nat) (l : Loc) : Prop := own l = Some i ∨ own l = None.
Definition kept own (i : nat) (dst l : Loc) (s : Store) : Prop :=
  match l with
  | Var _ => True
  | Field o _ => ∃ x m mid, may_read own i (Var x) ∧ Var x ≠ dst ∧ refs s !! Var x = Some (Strong (Some m))
      ∧ middles s !! m = Some mid ∧ ptr mid = Some o
  end.
Definition is_var (l : Loc) : Prop := match l with Var _ => True | Field _ _ => False end.
Definition source_ok own (i : nat) (dst src : Loc) (s : Store) : Prop :=
  may_read own i src ∧ is_Some (refs s !! src) ∧ kept own i dst src s.

Definition allowed own (i : nat) (c : Call) (s : Store) : Prop :=
  match c with
  | Make dst _ _ _ => own dst = Some i
  | CopyStrong dst src | CopyWeak dst src => own dst = Some i ∧ is_var dst ∧ refs s !! dst = None ∧ source_ok own i dst src s
  | Destroy l => own l = Some i ∧ is_var l
  | Assign dst src => own dst = Some i ∧ kept own i dst dst s ∧ source_ok own i dst src s
  | AssignNull dst => own dst = Some i ∧ kept own i dst dst s
  end.

Inductive careful : Owners * Sys → Owners * Sys → Prop :=
| careful_exec own s ts i w ws s' ws' :
    ts !! i = Some (w :: ws) → exec w s = Some (s', ws') → careful (own, mkSys s ts) (own, mkSys s' (<[i := ws' ++ ws]> ts))
| careful_call own s ts i c s' ws :
    ts !! i = Some [] → allowed own i c s → call c s = Some (s', ws) → careful (own, mkSys s ts) (own, mkSys s' (<[i := ws]> ts))
| careful_pass own own' y :
    (∀ l i ws, own' l ≠ own l → threads y !! i = Some ws → may_read own i l → ws = []) → careful (own, y) (own', y).
Definition careful_small (x y : Owners * Sys) : Prop := careful x y ∧ small (pend x.2) (store x.2).

(** What the other threads rely on. *)
Record frame own (i : nat) (s s' : Store) : Prop := {
  fr_refs : ∀ l, may_read own i l → match l with Var _ => True | Field o _ => is_Some (objects s !! o) ∧ is_Some (objects s' !! o) end →
    refs s' !! l = refs s !! l;
  fr_objects : ∀ o n n', objects s !! o = Some n → objects s' !! o = Some n' → n' = n;
  fr_middles : ∀ m mid mid', middles s !! m = Some mid → middles s' !! m = Some mid' → ptr mid' = ptr mid ∨ ptr mid' = None
}.

Definition target_ok own (i : nat) (dst : Loc) (s : Store) : Prop :=
  own dst = Some i ∧ refs s !! dst = None ∧ loc_ok dst s = true ∧ kept own i dst dst s.
Definition set_ok own (i : nat) (w : Work) (s : Store) : Prop :=
  match w with
  | SetStrong dst src | SetWeak dst src => target_ok own i dst s ∧ source_ok own i dst src s
  | SetNull dst _ => target_ok own i dst s
  | _ => False
  end.
(** Releases first, then at most one write. *)
Definition todo_ok own (i : nat) (ws : list Work) (s : Store) : Prop :=
  ∃ rel tail, ws = rel ++ tail ∧ Forall is_release rel ∧ (tail = [] ∨ ∃ w, tail = [w] ∧ set_ok own i w s).

Lemma kept_frame own i dst l s s' p p' :
  counted p s → counted p' s' → frame own i s s' → kept own i dst l s →
  kept own i dst l s' ∧ match l with Var _ => True | Field o _ => is_Some (objects s !! o) ∧ is_Some (objects s' !! o) end.
Proof.
  intros C C' F. destruct l as [x|o k]; [done|]. intros (x & m & mid & Hx & Hd & Hr & Hm & Ho).
  assert (refs s' !! Var x = Some (Strong (Some m))) as Hr' by (by rewrite (fr_refs _ _ _ _ F)).
  destruct (strong_object _ _ _ _ C Hr) as (mid1 & o1 & Hm1 & Ho1 & Hs). assert (o1 = o) as -> by congruence.
  destruct (strong_object _ _ _ _ C' Hr') as (mid' & o' & Hm' & Ho' & Hs').
  destruct (fr_middles _ _ _ _ F _ _ _ Hm Hm') as [E|E]; [|congruence]. assert (o' = o) as -> by congruence.
  split; [|done]. exists x, m, mid'. split_and!; congruence || done.
Qed.

Lemma source_frame own i dst l s s' p p' :
  counted p s → counted p' s' → frame own i s s' → source_ok own i dst l s → source_ok own i dst l s'.
Proof.
  intros C C' F (Hm & Hr & Hk). destruct (kept_frame _ _ _ _ _ _ _ _ C C' F Hk) as [Hk' Ho].
  split_and!; [done| |done]. by rewrite (fr_refs _ _ _ _ F).
Qed.

Lemma target_frame own i dst s s' p p' :
  counted p s → counted p' s' → frame own i s s' → target_ok own i dst s → target_ok own i dst s'.
Proof.
  intros C C' F (Hm & Hr & Hl & Hk). destruct (kept_frame _ _ _ _ _ _ _ _ C C' F Hk) as [Hk' Ho].
  split_and!; [done| | |done]; [rewrite (fr_refs _ _ _ _ F); [done|by left|done]|].
  destruct dst as [x|o k]; [done|]. destruct Ho as [[n Hn] [n' Hn']]. cbn [loc_ok] in *. rewrite Hn' , (fr_objects _ _ _ _ F _ _ _ Hn Hn'). by rewrite Hn in Hl.
Qed.

Lemma todo_frame own i ws s s' p p' : counted p s → counted p' s' → frame own i s s' → todo_ok own i ws s → todo_ok own i ws s'.
Proof.
  intros C C' F (rel & tail & -> & Hrel & Ht). exists rel, tail. split_and!; [done|done|]. destruct Ht as [?|(w & -> & Hw)]; [by left|right].
  exists w. split; [done|]. destruct w; try done; cbn [set_ok] in *.
  - destruct Hw. split; [eapply target_frame; [exact C|..]|eapply source_frame; [exact C|..]]; eassumption.
  - destruct Hw. split; [eapply target_frame; [exact C|..]|eapply source_frame; [exact C|..]]; eassumption.
  - eapply target_frame; [exact C|..]; eassumption.
Qed.

Lemma frame_refl own i s : frame own i s s.
Proof. split; [done|congruence|]. intros m mid mid' H1 H2. left. congruence. Qed.

(** A release changes the fields of the object it deletes and nothing else. *)
Lemma release_frame own i w s s' ws : is_release w → exec w s = Some (s', ws) → frame own i s s'.
Proof.
  intros Hr E. destruct w as [a|a|o|a|dst src|dst src|dst r]; try done; cbn [exec] in E.
  - unfold remove_strong in E. apply bind_Some in E as (mid & Hm & E). destruct (negb _); [done|]. cbn zeta in E.
    destruct (_ =? 0) in E; injection E as <- <-; (split; [done|cbn; congruence|]); cbn [middles set_middle set_field]; intros m x x' H1;
      (intros [[<- <-]|[_ H2]]%lookup_insert_Some; [|left; congruence]); [by right|left; by assert (x = mid) as -> by congruence].
  - unfold remove_weak in E. apply bind_Some in E as (mid & Hm & E). destruct (negb _); [done|]. cbn zeta in E. injection E as <- <-.
    split; [done|cbn; congruence|]. cbn [middles set_middle set_field]. intros m x x' H1 [[<- <-]|[_ H2]]%lookup_insert_Some; left; [by assert (x = mid) as -> by congruence|congruence].
  - unfold delete_object in E. apply bind_Some in E as (n & Hn & E). destruct (drop_fields n o (refs s)) as [ws1 l1] eqn:Ed.
    injection E as <- <-. split; cbn [refs objects middles set_field].
    + intros l _ Hl. destruct (refs s !! l) as [r|] eqn:Hx.
      * apply (drop_fields_ok _ _ _ _ _ Ed). split; [done|]. intros k ->. destruct Hl as [_ [? Hl]]. by rewrite lookup_delete_eq in Hl.
      * destruct (l1 !! l) as [r|] eqn:Hx1; [|done]. apply (drop_fields_ok _ _ _ _ _ Ed) in Hx1 as [? _]. congruence.
    + intros o1 n1 n2 H1 [_ H2]%lookup_delete_Some. congruence.
    + intros m x x' H1 H2. left. congruence.
  - case_bool_decide; [|done]. injection E as <- <-. split; cbn [refs objects middles set_field]; [done|congruence|].
    intros m x x' H1 [_ H2]%lookup_delete_Some. left. congruence.
Qed.

(** A reference another thread owns is written. *)
Lemma write_frame own i j dst s s' :
  own dst = Some j → i ≠ j → objects s' = objects s → (∀ l, l ≠ dst → refs s' !! l = refs s !! l) →
  (∀ m mid mid', middles s !! m = Some mid → middles s' !! m = Some mid' → ptr mid' = ptr mid) → frame own i s s'.
Proof.
  intros Hd Hne Ho Hr Hm. split.
  - intros l Hl _. apply Hr. intros ->. destruct Hl; congruence.
  - rewrite Ho. congruence.
  - intros m mid mid' H1 H2. left. by eapply Hm.
Qed.

Lemma put_effect dst r s s' ws :
  put dst r s = Some (s', ws) → ws = [] ∧ objects s' = objects s ∧ middles s' = middles s ∧ ∀ l, l ≠ dst → refs s' !! l = refs s !! l.
Proof.
  unfold put. destruct (_ && _); [|done]. intros [= <- <-]. cbn [objects middles refs set_field]. split_and!; try done.
  intros l Hl. by rewrite lookup_insert_ne.
Qed.
Lemma add_effect (add : option nat → Store → option (option nat * Store)) m s m' s' :
  add = add_strong ∨ add = add_weak → add m s = Some (m', s') →
  objects s' = objects s ∧ refs s' = refs s ∧ ∀ a mid mid', middles s !! a = Some mid → middles s' !! a = Some mid' → ptr mid' = ptr mid.
Proof.
  assert (∀ s a mid mid', middles s !! a = Some mid → ptr mid' = ptr mid →
    ∀ b x x', middles s !! b = Some x → middles (set_middle a mid' s) !! b = Some x' → ptr x' = ptr x) as Hset.
  { intros s0 a mid mid' Ha Hp b x x' Hx. cbn. intros [[<- <-]|[_ H]]%lookup_insert_Some; congruence. }
  assert (∀ a (x x' : Middle), middles s !! a = Some x → middles s !! a = Some x' → ptr x' = ptr x) as Hid by congruence.
  intros [->| ->] E; unfold add_strong, add_weak in E; (destruct m as [a|]; [|injection E as <- <-; done]);
    apply bind_Some in E as (mid & Hm & E).
  - destruct (0 <? _); injection E as <- <-; [|done]. split_and!; [done|done|]. by eapply Hset.
  - destruct (ptr mid) eqn:Hp; injection E as <- <-; [|done]. split_and!; [done|done|]. by eapply Hset.
Qed.

(** The write of an assignment or a copy. *)
Lemma set_effect own j w s s' ws :
  set_ok own j w s → exec w s = Some (s', ws) → ws = [] ∧ ∀ i, i ≠ j → frame own i s s'.
Proof.
  intros Hw E.
  assert (∀ (add : option nat → Store → option (option nat * Store)) m dst r m' s1, own dst = Some j → add = add_strong ∨ add = add_weak →
    add m s = Some (m', s1) → put dst r s1 = Some (s', ws) → ws = [] ∧ ∀ i, i ≠ j → frame own i s s') as Hgen.
  { intros add m dst r m' s1 Hown Hadd E1 E2. destruct (add_effect _ _ _ _ _ Hadd E1) as (Ho & Hr & Hm). destruct (put_effect _ _ _ _ _ E2) as (-> & Ho2 & Hm2 & Hr2).
    split; [done|]. intros i Hi. apply (write_frame _ _ j dst); [done|done|congruence| |by rewrite Hm2]. intros l Hl. by rewrite Hr2, Hr. }
  destruct w as [a|a|o|a|dst src|dst src|dst r]; try done; cbn [exec set_ok] in *.
  - destruct Hw as [(Hown & _) _]. apply bind_Some in E as (r & _ & E). apply bind_Some in E as ([m1 s1] & E1 & E).
    eapply (Hgen add_strong); [done|by left|done|done].
  - destruct Hw as [(Hown & _) _]. apply bind_Some in E as (r & _ & E). apply bind_Some in E as ([m1 s1] & E1 & E).
    eapply (Hgen add_weak); [done|by right|done|done].
  - destruct Hw as (Hown & _). by eapply (Hgen add_strong None); [|left| |].
Qed.

Lemma delete_frame own i j dst s : own dst = Some j → i ≠ j → frame own i s (s .[ refs := delete dst (refs s) ]).
Proof.
  intros Hd Hne. apply (write_frame _ _ j dst); [done|done|done| |cbn; congruence]. intros l Hl. cbn. by rewrite lookup_delete_ne.
Qed.

Lemma null_fields_other o fields l : (∀ k, l ≠ Field o k) → ∀ k m, null_fields o k fields m !! l = m !! l.
Proof.
  intros Hl. induction fields as [|f fields IH]; intros k m; [done|]. cbn [null_fields]. rewrite lookup_insert_ne by (intros <-; by apply (Hl k)). apply IH.
Qed.

Lemma call_frame own i j c s s' ws :
  allowed own j c s → call c s = Some (s', ws) → i ≠ j → frame own i s s'.
Proof.
  intros Hc E Hne. destruct c as [dst m o fields|dst src|dst src|l|dst src|dst]; cbn [call allowed] in *.
  - case_bool_decide as Hm; [|done]. case_bool_decide as Ho; [|done]. destruct (loc_ok dst s); [|done]. case_bool_decide; [|done]. injection E as <- <-.
    split; cbn [refs objects middles].
    + intros l Hl Hobj. rewrite lookup_insert_ne by (intros ->; destruct Hl; congruence).
      assert (∀ k, l ≠ Field o k) as Hf by (intros k ->; destruct Hobj as [[n Hn] _]; congruence).
      by apply null_fields_other.
    + intros o1 n n' H1 [[<- <-]|[_ H2]]%lookup_insert_Some; congruence.
    + intros a mid mid' H1 [[<- <-]|[_ H2]]%lookup_insert_Some; [congruence|left; congruence].
  - injection E as <- <-. apply frame_refl.
  - injection E as <- <-. apply frame_refl.
  - apply bind_Some in E as (r & _ & [= <- <-]). destruct Hc as [Hd _]. by eapply delete_frame.
  - apply bind_Some in E as (r & _ & E). apply bind_Some in E as (r' & _ & E). case_bool_decide; injection E as <- <-; [apply frame_refl|].
    destruct Hc as [Hd _]. by eapply delete_frame.
  - apply bind_Some in E as (r & _ & [= <- <-]). destruct Hc as [Hd _]. by eapply delete_frame.
Qed.

Lemma kept_deleted own i dst l s : kept own i dst l s → kept own i dst l (s .[ refs := delete dst (refs s) ]).
Proof.
  destruct l as [x|o k]; [done|]. intros (x & m & mid & Hx & Hd & Hr & H). exists x, m, mid. cbn [refs middles set_field].
  by rewrite lookup_delete_ne.
Qed.

Lemma target_deleted own i dst s r p :
  counted p s → refs s !! dst = Some r → own dst = Some i → kept own i dst dst s → target_ok own i dst (s .[ refs := delete dst (refs s) ]).
Proof.
  intros C Hr Hd Hk. split_and!; [done|apply lookup_delete_eq| |by apply kept_deleted].
  destruct dst as [x|o k]; [done|]. destruct (ct_field _ _ C o k r Hr) as (n & Hn & Hlt). cbn. rewrite Hn. by apply Nat.ltb_lt.
Qed.

(** What a call leaves to do can be done. *)
Lemma call_todo own i c s s' ws p : counted p s → allowed own i c s → call c s = Some (s', ws) → todo_ok own i ws s'.
Proof.
  intros C Hc E. assert (∀ s, todo_ok own i [] s) as Hnil by (intros s0; exists [], []; split_and!; [done|constructor|by left]).
  assert (∀ dst, is_var dst → own dst = Some i → refs s !! dst = None → target_ok own i dst s) as Hvar by (intros [x|o k] Hv ??; [by split_and!|done]).
  destruct c as [dst m o fields|dst src|dst src|l|dst src|dst]; cbn [call allowed] in *.
  - destruct (_ && _); [|done]. by injection E as <- <-.
  - destruct Hc as (Hd & Hv & Hr & Hs). injection E as <- <-. exists [], [SetStrong dst src]. split_and!; [done|constructor|right].
    eexists. split; [done|]. split; [by apply Hvar|done].
  - destruct Hc as (Hd & Hv & Hr & Hs). injection E as <- <-. exists [], [SetWeak dst src]. split_and!; [done|constructor|right].
    eexists. split; [done|]. split; [by apply Hvar|done].
  - apply bind_Some in E as (r & _ & [= <- <-]). exists (release r), []. rewrite app_nil_r. split_and!; [done|apply release_ok|by left].
  - destruct Hc as (Hd & Hk & Hm & Hsrc & Hks). apply bind_Some in E as (r & Hr & E). apply bind_Some in E as (r' & Hr' & E).
    case_bool_decide as Heq; injection E as <- <-; [done|]. eexists (release r), [_]. split_and!; [done|apply release_ok|right].
    eexists. split; [done|]. pose proof (target_deleted _ _ _ _ _ _ C Hr Hd Hk) as Ht.
    assert (source_ok own i dst src (s .[ refs := delete dst (refs s) ])) as Hs'.
    { split_and!; [done| |by apply kept_deleted]. cbn. rewrite lookup_delete_ne; [by eexists|]. intros ->. congruence. }
    by destruct r.
  - destruct Hc as [Hd Hk]. apply bind_Some in E as (r & Hr & [= <- <-]). eexists (release r), [_]. split_and!; [done|apply release_ok|right].
    eexists. split; [done|]. by eapply target_deleted.
Qed.

Lemma todo_app own i ws' ws s : Forall is_release ws' → todo_ok own i ws s → todo_ok own i (ws' ++ ws) s.
Proof.
  intros H (rel & tail & -> & Hrel & Ht). exists (ws' ++ rel), tail. split_and!; [by rewrite app_assoc|by apply Forall_app|done].
Qed.

Lemma todo_pass own own' i ws s :
  (∀ l, own' l ≠ own l → may_read own i l → ws = []) → todo_ok own i ws s → todo_ok own' i ws s.
Proof.
  intros H (rel & tail & -> & Hrel & Ht). exists rel, tail. split_and!; [done|done|]. destruct Ht as [?|(w & -> & Hw)]; [by left|right].
  exists w. split; [done|]. assert (∀ l, may_read own i l → own' l = own l) as Hsame.
  { intros l Hl. destruct (decide (own' l = own l)) as [|Hne]; [done|]. specialize (H l Hne Hl). by destruct rel. }
  assert (∀ l, may_read own i l → may_read own' i l) as Hread by (intros l Hl; unfold may_read; by rewrite Hsame).
  assert (∀ dst l, kept own i dst l s → kept own' i dst l s) as Hkept.
  { intros dst [x|o k]; [done|]. intros (x & m & mid & Hx & Hrest). exists x, m, mid. split; [by apply Hread|done]. }
  assert (∀ dst, target_ok own i dst s → target_ok own' i dst s) as Ht.
  { intros dst (Hd & H1 & H2 & H3). split_and!; [rewrite Hsame; [done|by left]|done|done|by apply Hkept]. }
  assert (∀ dst src, source_ok own i dst src s → source_ok own' i dst src s) as Hs.
  { intros dst src (H1 & H2 & H3). split_and!; [by apply Hread|done|by apply Hkept]. }
  destruct w; try done; cbn [set_ok] in *; [destruct Hw; split..|]; auto.
Qed.

Definition fit own (y : Sys) : Prop :=
  counted (pend y) (store y) ∧ ∀ i ws, threads y !! i = Some ws → todo_ok own i ws (store y).

Lemma careful_fit own y own' y' : careful_small (own, y) (own', y') → fit own y → fit own' y'.
Proof.
  intros [H Hsm] [C T]. cbn [snd] in Hsm.
  inversion H as [a s ts i w ws s' ws' Hi E|a s ts i c s' ws Hi Hc E|a b y0 Hp]; subst; cbn [store threads] in *.
  - assert (counted (pend (mkSys s' (<[i := ws' ++ ws]> ts))) s') as C' by exact (step_counted _ _ (conj (step_exec _ _ _ _ _ _ _ Hi E) Hsm) C).
    split; [exact C'|]. cbn [store threads]. pose proof (T i _ Hi) as (rel & tail & Hst & Hrel & Ht).
    assert ((is_release w ∧ todo_ok own' i ws s) ∨ set_ok own' i w s ∧ ws = []) as Hw.
    { destruct rel as [|w' rel]; cbn [app] in Hst.
      - right. destruct Ht as [->|(w' & -> & Hw)]; [done|]. by injection Hst as -> ->.
      - left. injection Hst as -> ->. apply Forall_cons in Hrel as [Hw Hrel]. split; [done|]. by exists rel, tail. }
    intros j wsj. destruct (decide (i = j)) as [<-|Hne].
    + rewrite list_lookup_insert_eq by (by eapply lookup_lt_Some). intros [= <-]. destruct Hw as [[Hw Hws]|[Hw ->]].
      * apply todo_app; [by apply (exec_release _ _ _ _ Hw E)|]. eapply todo_frame; [exact C|exact C'|exact (release_frame _ _ _ _ _ _ Hw E)|done].
      * destruct (set_effect _ _ _ _ _ _ Hw E) as [-> _]. exists [], []. split_and!; [done|constructor|by left].
    + rewrite list_lookup_insert_ne by done. intros Hj. eapply todo_frame; [exact C|exact C'| |by apply T].
      destruct Hw as [[Hw _]|[Hw _]]; [exact (release_frame _ _ _ _ _ _ Hw E)|]. apply (set_effect _ _ _ _ _ _ Hw E). congruence.
  - assert (counted (pend (mkSys s' (<[i := ws]> ts))) s') as C' by exact (step_counted _ _ (conj (step_call _ _ _ _ _ _ Hi E) Hsm) C).
    split; [exact C'|]. cbn [store threads]. intros j wsj. destruct (decide (i = j)) as [<-|Hne].
    + rewrite list_lookup_insert_eq by (by eapply lookup_lt_Some). intros [= <-]. exact (call_todo _ _ _ _ _ _ _ C Hc E).
    + rewrite list_lookup_insert_ne by done. intros Hj. eapply todo_frame; [exact C|exact C'| |by apply T]. exact (call_frame _ _ _ _ _ _ _ Hc E (not_eq_sym Hne)).
  - split; [done|]. intros i ws Hi. eapply todo_pass; [|by apply T]. intros l Hl Hr. exact (Hp l i ws Hl Hi Hr).
Qed.

Lemma careful_reach own n own' y : rtc careful_small (own, init n) (own', y) → fit own' y.
Proof.
  intros H. assert (∀ x x', rtc careful_small x x' → fit x.1 x.2 → fit x'.1 x'.2) as G.
  { clear. induction 1 as [x|x x1 x2 Hx _ IH]; [done|]. intros F. apply IH. destruct x, x1. by eapply careful_fit. }
  apply (G _ _ H). split; [apply init_counted|]. cbn. intros i ws [-> _]%lookup_replicate. exists [], []. split_and!; [done|constructor|by left].
Qed.

Lemma todo_ready own i w ws s : todo_ok own i (w :: ws) s → ready w s.
Proof.
  intros (rel & tail & E & Hrel & Ht). destruct rel as [|w' rel]; cbn [app] in E.
  - destruct Ht as [->|(w' & -> & Hw)]; [done|]. injection E as -> ->. destruct w'; try done; cbn [set_ok ready] in *; unfold target_ok, source_ok in Hw; tauto.
  - injection E as -> ->. apply Forall_cons in Hrel as [Hw _]. by destruct w'.
Qed.
End careful.

Lemma pending_progress y i w ws :
  counted (pend y) (store y) → threads y !! i = Some (w :: ws) → ready w (store y) → ∃ s' ws', exec w (store y) = Some (s', ws').
Proof.
  intros C Hi Hr. destruct (exec_progress (λ x, pending x (<[i := ws]> (threads y))) w (store y)) as [[s' ws'] E]; [|done|by eexists _, _].
  apply (counted_ext _ _ _ C). intros m. by split_and!; symmetry; apply (pending_exec (threads y) i w ws [] _ Hi).
Qed.

(** C18: No memory is used after it was freed, whatever the threads do and however they
    interleave: each release, each deletion of an object and of a control block finds its memory
    allocated and its count positive, and a strong reference always leads to an object that is
    allocated.  When moreover the threads use references in turn (a reference is written by its owner
    only, who holds it until the write is done, and a field is used while a variable other than the
    target of the assignment keeps its object), every copy and every assignment finds its source and the memory
    of its target too: no thread is ever stuck. *)
Theorem no_use_after_free n y :
  rtc step_small (init n) y →
  (∀ i w ws, threads y !! i = Some (w :: ws) → is_release w → ∃ s' ws',
     exec w (store y) = Some (s', ws') ∧ step y (mkSys s' (<[i := ws' ++ ws]> (threads y))))
  ∧ (∀ l a, refs (store y) !! l = Some (Strong (Some a)) → ∃ o,
    deref (Strong (Some a)) (store y) = Some o ∧ is_Some (objects (store y) !! o))
  ∧ ∀ own own', rtc careful_small (own, init n) (own', y) →
    ∀ i w ws, threads y !! i = Some (w :: ws) → ∃ s' ws',
     exec w (store y) = Some (s', ws') ∧ careful (own', y) (own', mkSys s' (<[i := ws' ++ ws]> (threads y))).
Proof.
  intros C%reach_counted. split_and!.
  - intros i w ws Hi Hw. destruct (pending_progress y i w ws C Hi) as (s' & ws' & E); [by destruct w|]. exists s', ws'. split; [done|].
    destruct y. by apply step_exec with w.
  - intros l a Hl. destruct (strong_object _ _ _ _ C Hl) as (mid & o & Hm & Ho & Hs). exists o. split; [|done].
    cbn [deref]. by rewrite Hm.
  - intros own own' [_ T]%careful_reach i w ws Hi. destruct (pending_progress y i w ws C Hi) as (s' & ws' & E); [by eapply todo_ready, T|].
    exists s', ws'. split; [done|]. destruct y. by apply careful_exec with w.
Qed.

(** ** Assigning a reference that the old object holds *)

Lemma last_strong_first a s mid o :
  middles s !! a = Some mid → strong_count mid = 1 → ptr mid = Some o →
  ∃ s1 ws, exec (RemoveStrong a) s = Some (s1, DeleteObj o :: ws) ∧ objects s1 = objects s ∧ refs s1 = refs s.
Proof.
  intros Hm H1 Ho. cbn [exec]. unfold remove_strong. rewrite Hm. cbn [mbind option_bind]. rewrite H1. cbn [Z.ltb Z.compare negb].
  unfold set_field. cbn [strong_count ptr weak_count]. rewrite Ho. cbn [Z.sub Z.add Z.opp Z.eqb]. by eexists _, _.
Qed.

(** An assignment whose source is a field of the object that only its target keeps alive
    ([head = head->next] on a list) reads freed memory: the old reference is released first, which
    deletes the object and with it the source, and only then is the source read. *)
Theorem assign_own_field n y dst a mid o i r :
  rtc step_small (init n) y → let s := store y in
  refs s !! dst = Some (Strong (Some a)) → middles s !! a = Some mid → strong_count mid = 1 → ptr mid = Some o →
  refs s !! Field o i = Some r → middle r ≠ Some a →
  ∃ s1 fuel s2, call (Assign dst (Field o i)) s = Some (s1, [RemoveStrong a; SetStrong dst (Field o i)])
    ∧ run fuel [RemoveStrong a] s1 = Some s2 ∧ exec (SetStrong dst (Field o i)) s2 = None.
Proof.
  intros C%reach_counted s Hd Hm H1 Ho Hf Hne. set (s1 := s .[ refs := delete dst (refs s) ]).
  assert (counted (plus_work (pend y) [RemoveStrong a]) s1) as C1 by exact (release_counted _ _ _ _ [] C Hd (Forall_nil_2 _)).
  destruct (last_strong_first a s1 mid o Hm H1 Ho) as (s2 & ws2 & E2 & Eo & Er).
  destruct (ct_field _ _ C o i r Hf) as (k & Hk & Hlt).
  pose proof (exec_release_counted (RemoveStrong a) _ _ _ _ I C1 E2) as C2.
  destruct (exec_release (RemoveStrong a) _ _ _ I E2) as (Hrel2 & _ & _). apply Forall_cons in Hrel2 as [_ Hrel2].
  (* the deletion of the object *)
  destruct (drop_fields k o (refs s2)) as [ws3 l3] eqn:Ed.
  assert (exec (DeleteObj o) s2 = Some (s2 .[ objects := delete o (objects s2) ] .[ refs := l3 ], ws3)) as E3.
  { cbn [exec]. unfold delete_object. assert (objects s2 !! o = Some k) as -> by (rewrite Eo; exact Hk). cbn [mbind option_bind].
    by rewrite Ed. }
  set (s3 := s2 .[ objects := _ ] .[ refs := _ ]) in *.
  assert (refs s3 !! Field o i = None) as Hgone.
  { destruct (refs s3 !! Field o i) as [x|] eqn:Hx; [|done]. exfalso.
    apply (drop_fields_ok _ _ _ _ _ Ed) in Hx as [_ Hi]. pose proof (Hi i eq_refl). lia. }
  assert (counted (plus_work (plus_work (pend y) ws2) [DeleteObj o]) s2) as C2'
    by (apply (counted_ext _ _ _ C2); intros m; split_and!; symmetry; apply plus_work_cons).
  pose proof (exec_release_counted (DeleteObj o) _ _ _ _ I C2' E3) as C3.
  destruct (exec_release (DeleteObj o) _ _ _ I E3) as (Hrel3 & _ & _).
  destruct (run_releases (weights (ws3 ++ ws2) + 3 * size (refs s3)) (ws3 ++ ws2) s3 (pend y)) as (s4 & E4 & _ & Hmono).
  - apply (counted_ext _ _ _ C3). intros m. split_and!; symmetry; apply plus_work_app.
  - by apply Forall_app.
  - lia.
  - exists s1, (S (S (weights (ws3 ++ ws2) + 3 * size (refs s3)))), s4. split_and!.
    + cbn [call]. rewrite Hd. cbn [mbind option_bind]. rewrite Hf. cbn [mbind option_bind]. rewrite bool_decide_false; [done|].
      cbn. congruence.
    + cbn [run]. rewrite E2. cbn [mbind option_bind app run]. rewrite E3. cbn [mbind option_bind]. rewrite app_nil_r. exact E4.
    + cbn [exec]. destruct (refs s4 !! Field o i) as [x|] eqn:Hx; [|done]. apply Hmono in Hx. congruence.
Qed.

(** ** A run *)

(** A schedule: which thread moves, and its call when it has nothing pending. *)
Definition play1 (mv : nat * option Call) (y : Sys) : option Sys :=
  match threads y !! mv.1, mv.2 with
  | Some (w :: ws), None => '(s, ws') ← exec w (store y); Some (mkSys s (<[mv.1 := ws' ++ ws]> (threads y)))
  | Some [], Some c => '(s, ws) ← call c (store y); Some (mkSys s (<[mv.1 := ws]> (threads y)))
  | _, _ => None
  end.
Definition total (y : Sys) : nat := (size (refs (store y)) + sum_list (length <$> threads y))%nat.
Fixpoint play (mvs : list (nat * option Call)) (y : Sys) : option Sys :=
  match mvs with
  | [] => Some y
  | mv :: mvs => if (total y <? 100)%nat then y ← play1 mv y; play mvs y else None
  end.

Lemma pending_le w ts : (pending w ts <= sum_list (length <$> ts))%nat.
Proof.
  induction ts as [|l ts IH]; [done|]. cbn. assert (cnt w l <= length l)%nat; [|lia].
  clear. induction l as [|x l IH]; [done|]. cbn. case_decide; lia.
Qed.

Lemma total_small y : (total y < 100)%nat → small (pend y) (store y).
Proof.
  unfold total. intros H m. unfold S_, W_, pend. pose proof (pending_le (RemoveStrong m) (threads y)). pose proof (pending_le (RemoveWeak m) (threads y)).
  assert (∀ r, (count_if (is_ref r) (refs (store y)) <= size (refs (store y)))%nat) as Hc
    by (intros r; apply map_subseteq_size, map_filter_subseteq).
  pose proof (Hc (Strong (Some m))). pose proof (Hc (Weak (Some m))). unfold strongs, weaks. lia.
Qed.

Lemma play1_step mv y y' : play1 mv y = Some y' → step y y'.
Proof.
  unfold play1. destruct mv as [i [c|]], y as [s ts]; cbn; intros E; destruct (ts !! i) as [[|w ws]|] eqn:Hi; try done.
  - apply bind_Some in E as ([s' ws] & E & [= <-]). by eapply step_call.
  - apply bind_Some in E as ([s' ws'] & E & [= <-]). by eapply step_exec.
Qed.

Lemma play_reach mvs : ∀ y y', play mvs y = Some y' → rtc step_small y y'.
Proof.
  induction mvs as [|mv mvs IH]; intros y y' E; cbn [play] in E; [by injection E as ->; apply rtc_refl|].
  destruct (Nat.ltb_spec (total y) 100) as [Hs|]; [|done]. apply bind_Some in E as (y1 & E1 & E). apply rtc_l with y1; [|by apply IH].
  split; [by apply (play1_step mv)|by apply total_small].
Qed.

(** A list of two nodes whose head is in [Var 0], and another thread's weak reference. *)
Definition demo_list : list (nat * option Call) :=
  [(0, Some (Make (Var 0) 0 10 [Strong None])); (0, Some (Make (Var 1) 1 11 []));
   (0, Some (Assign (Field 10 0) (Var 1))); (0, None); (0, Some (Destroy (Var 1))); (0, None);
   (1, Some (CopyWeak (Var 2) (Var 0))); (1, None)]%nat.
Definition demo (more : list (nat * option Call)) : Sys := default (init 2) (play (demo_list ++ more) (init 2)).

Lemma demo_reach more : is_Some (play (demo_list ++ more) (init 2)) → rtc step_small (init 2) (demo more).
Proof. intros [y E]. unfold demo. rewrite E. by apply (play_reach (demo_list ++ more)). Qed.

(** The list is dropped while the other thread makes its weak reference strong. *)
Definition demo_drop : Sys := demo [(0, Some (Destroy (Var 0))); (1, Some (CopyStrong (Var 3) (Var 2)))]%nat.

(** The same list as its thread builds it: everything is its own. *)
Definition demo_at (k : nat) : Sys := default (init 2) (play (take k demo_list) (init 2)).
Definition demo_own : Loc → option nat := λ _, Some 0%nat.

Lemma demo_call k c y' :
  play1 (0%nat, Some c) (demo_at k) = Some y' → (total (demo_at k) <? 100)%nat = true → allowed demo_own 0 c (store (demo_at k)) →
  careful_small (demo_own, demo_at k) (demo_own, y').
Proof.
  intros E Ht Ha. split; [|by apply total_small, Nat.ltb_lt]. unfold play1 in E. cbn [fst snd] in E.
  destruct (demo_at k) as [s ts]. cbn [threads store] in *. destruct (ts !! 0%nat) as [[|w ws]|] eqn:Hi; try done.
  apply bind_Some in E as ([s' ws] & E & [= <-]). by eapply careful_call.
Qed.

Lemma demo_careful : rtc careful_small (demo_own, init 2) (demo_own, demo_at 3).
Proof.
  apply rtc_l with (demo_own, demo_at 1).
  { by apply (demo_call 0 (Make (Var 0) 0 10 [Strong None])). }
  apply rtc_l with (demo_own, demo_at 2).
  { by apply (demo_call 1 (Make (Var 1) 1 11 [])). }
  apply rtc_once. apply (demo_call 2 (Assign (Field 10 0) (Var 1))); [reflexivity|reflexivity|].
  split; [reflexivity|]. split.
  - exists 0%nat, 0%nat, (mkMiddle (Some 10%nat) 1 0). split_and!; [by left|done|reflexivity..].
  - split_and!; [by left|by eexists|exact I].
Qed.

Lemma no_use_after_free_witness :
  (∃ s' ws', exec (RemoveStrong 0) (store demo_drop) = Some (s', ws'))
  ∧ deref (Strong (Some 1%nat)) (store demo_drop) = Some 11%nat
  ∧ ∃ s' ws', exec (SetStrong (Field 10 0) (Var 1)) (store (demo_at 3)) = Some (s', ws').
Proof.
  destruct (no_use_after_free 2 demo_drop) as (H1 & H2 & _); [apply demo_reach; vm_compute; by eexists|]. split_and!.
  - destruct (H1 0%nat (RemoveStrong 0) []) as (s' & ws' & E & _); [vm_compute; reflexivity|exact I|]. by exists s', ws'.
  - destruct (H2 (Field 10 0) 1%nat) as (o & E2 & _); [vm_compute; reflexivity|]. rewrite E2. clear H1 H2. revert E2. vm_compute. congruence.
  - destruct (no_use_after_free 2 (demo_at 3)) as (_ & _ & H3); [apply (play_reach (take 3 demo_list)); vm_compute; reflexivity|].
    destruct (H3 demo_own demo_own demo_careful 0%nat (SetStrong (Field 10 0) (Var 1)) []) as (s' & ws' & E & _); [vm_compute; reflexivity|]. by exists s', ws'.
Defined.

Lemma exactly_referenced_witness : middles (store (demo [])) !! 0%nat = Some (mkMiddle (Some 10%nat) 1 1) ∧ is_Some (objects (store (demo [])) !! 11%nat).
Proof.
  split; [vm_compute; reflexivity|]. destruct (exactly_referenced 2 (demo [])) as [_ H].
  - apply demo_reach. vm_compute. by eexists.
  - vm_compute. by repeat constructor.
  - apply H. exists (Field 10 0), 1%nat. split; vm_compute; reflexivity.
Defined.

Lemma releases_end_witness : ∃ s', run (3 + 3 * 3) [RemoveStrong 0] (store (demo [(0%nat, Some (Destroy (Var 0)))])) = Some s'.
Proof.
  destruct (releases_end 2 (demo [(0%nat, Some (Destroy (Var 0)))]) 0 [RemoveStrong 0]) as (s' & E & _).
  - apply demo_reach. vm_compute. by eexists.
  - vm_compute. reflexivity.
  - by repeat constructor.
  - exists s'. rewrite <- E. f_equal.
Defined.

Lemma assign_own_field_witness :
  ∃ s1 fuel s2, call (Assign (Var 0) (Field 10 0)) (store (demo [])) = Some (s1, [RemoveStrong 0; SetStrong (Var 0) (Field 10 0)])
    ∧ run fuel [RemoveStrong 0] s1 = Some s2 ∧ exec (SetStrong (Var 0) (Field 10 0)) s2 = None.
Proof.
  apply (assign_own_field 2 (demo []) (Var 0) 0 (mkMiddle (Some 10%nat) 1 1) 10 0 (Strong (Some 1%nat))).
  1: apply demo_reach; vm_compute; by eexists.
  all: first [vm_compute; reflexivity|by intros [=]].
Defined.
