(* ===== verification/Sched.v ===== *)
(** * Threads, the scheduler and condition variables ([thread.cc], [condition.h])

    The cores of the machine run threads; a thread that is not running is in
    the ready queue, in the reaper queue, or in the queue of a condition
    variable.  A monitor (a lock with the data it protects and one condition
    variable) is a parameter of the model, described by the class [Monitor]:
    what an operation does from the acquisition of the lock to its release.
    [Sync] gives the monitors of the kernel.

    The steps of the model are the pieces of the kernel that run without
    another core seeing an intermediate state: a critical section, one operation
    on a queue, a context switch.  The kernel is not preemptible, so a thread
    leaves its core only in [wait], [yield] and [stop].  A schedule is a list of
    steps, each on one core; [run_schedule] executes it, and the theorems are
    about every schedule. *)

From stdpp Require Import gmap.
From S2P Require Import Prelude Queue.

(** ** Monitors *)

(** What a critical section notifies when it releases the lock. *)
Inductive Notify := NoNotify | NotifyOne | NotifyAll.

(** How the critical section of an operation ends: the operation is done with a
    result; the thread waits on the condition variable and then goes on with an
    operation; or it releases the lock and goes on. *)
Inductive Outcome (St Op : Type) :=
  | Done (st : St) (result : Z) (n : Notify)
  | Blocks (st : St) (o : Op)
  | Continues (st : St) (o : Op).
Arguments Done {St Op} st result n.
Arguments Blocks {St Op} st o.
Arguments Continues {St Op} st o.

(** [run o st] is the critical section of [o], [None] where an [ASSERT] fails. *)
Class Monitor (St Op : Type) := run : Op → St → option (Outcome St Op).

(** The operation waits in the state, and stays as it is. *)
Definition waits {St Op} `{Monitor St Op} (o : Op) (st : St) : Prop := run o st = Some (Blocks st o).

(** ** The state *)

Inductive Action := ActionReady | ActionStop | ActionWait | ActionNone.
#[export] Instance Action_eq_dec : EqDecision Action.
Proof. solve_decision. Defined.

(** Where a thread is: [Run] outside of the scheduler; [InWait] in [wait], after
    the lock was released; [WakeOne]/[WakeAll] in [notify_one]/[notify_all] after
    the lock was released, with the threads to wake; [Resume p] just switched to
    from [p], before [p->post_switch()]; [Left] switched from, before its
    [post_switch]; [Off] not on a core. *)
Inductive Pc := Run | InWait | WakeOne (t : Z) | WakeAll (p : Z) | Resume (prev : Z) | Left | Off.
#[export] Instance Pc_eq_dec : EqDecision Pc.
Proof. solve_decision. Defined.

(** A thread control block; [prog] is what the thread still has to do, [out] the
    results of what it has done. *)
Record TCB (Op : Type) := mkTCB {
  action : Action; cond_epoch : Z; is_idle : bool; pc : Pc; prog : list Op; out : list Z }.
Arguments mkTCB {Op}.
Arguments action {Op}.
Arguments cond_epoch {Op}.
Arguments is_idle {Op}.
Arguments pc {Op}.
Arguments prog {Op}.
Arguments out {Op}.
#[export] Instance eta_TCB Op : Eta (TCB Op) :=
  fun t => mkTCB (action t) (cond_epoch t) (is_idle t) (pc t) (prog t) (out t).

(** [current] is what the [fs] register of the core says, [current_thread] what
    its [PerCore] block says. *)
Record Core := mkCore { current : Z; idle_thread : Z; current_thread : Z }.
#[export] Instance eta_Core : Eta Core := fun c => mkCore (current c) (idle_thread c) (current_thread c).

Record Condition := mkCondition { waiting : Queue; epoch : Z }.
#[export] Instance eta_Condition : Eta Condition := fun c => mkCondition (waiting c) (epoch c).

Record Sys (St Op : Type) := mkSys {
  shared : St; cond : Condition; readyQueue : Queue; reaperQueue : Queue;
  next : gmap Z Z; tcbs : gmap Z (TCB Op); cores : list Core; n_active : Z; halted : bool }.
Arguments mkSys {St Op}.
Arguments shared {St Op}.
Arguments cond {St Op}.
Arguments readyQueue {St Op}.
Arguments reaperQueue {St Op}.
Arguments next {St Op}.
Arguments tcbs {St Op}.
Arguments cores {St Op}.
Arguments n_active {St Op}.
Arguments halted {St Op}.
#[export] Instance eta_Sys St Op : Eta (Sys St Op) :=
  fun s => mkSys (shared s) (cond s) (readyQueue s) (reaperQueue s) (next s) (tcbs s) (cores s) (n_active s) (halted s).

Section Sched.
Context {St Op : Type} `{Monitor St Op}.
Implicit Types (s : Sys St Op) (tcb : TCB Op) (st : St) (o : Op).

Definition set_tcb (t : Z) (tcb : TCB Op) (s : Sys St Op) : Sys St Op := s .[ tcbs := <[t := tcb]> (tcbs s) ].

(** The thread a core runs. *)
Definition cur (s : Sys St Op) (c : nat) : option (Z * TCB Op) :=
  core ← cores s !! c; tcb ← tcbs s !! current core; Some (current core, tcb).

(** ** Switching threads *)

Definition context_switch (c : nat) (me : Z) (tcb : TCB Op) (nxt : Z) (s : Sys St Op) : option (Sys St Op) :=
  core ← cores s !! c;
  ntcb ← tcbs s !! nxt;
  Some (set_tcb nxt (ntcb .[ pc := Resume me ])
         (set_tcb me (tcb .[ pc := Left ]) (s .[ cores := <[c := core .[ current := nxt ]]> (cores s) ]))).

(** [prev->post_switch()], run by the thread [me] that was switched to. *)
Definition post_switch (c : nat) (me : Z) (tcb : TCB Op) (prev : Z) (s : Sys St Op) : option (Sys St Op) :=
  core ← cores s !! c;
  ptcb ← tcbs s !! prev;
  let s := s .[ cores := <[c := core .[ current_thread := me ]]> (cores s) ] in
  let s := set_tcb prev (ptcb .[ pc := Off ]) (set_tcb me (tcb .[ pc := Run ]) s) in
  match action ptcb with
  | ActionReady =>
      if is_idle ptcb then None
      else '(q, nx) ← add prev (readyQueue s) (next s); Some (s .[ readyQueue := q ] .[ next := nx ])
  | ActionStop =>
      if is_idle ptcb then None
      else '(q, nx) ← add prev (reaperQueue s) (next s); Some (s .[ reaperQueue := q ] .[ next := nx ])
  | ActionWait =>
      if is_idle ptcb then None
      else if epoch (cond s) =? cond_epoch ptcb then
        '(q, nx) ← add prev (waiting (cond s)) (next s);
        Some (s .[ cond := (cond s) .[ waiting := q ] ] .[ next := nx ])
      else
        '(q, nx) ← add prev (readyQueue s) (next s); Some (s .[ readyQueue := q ] .[ next := nx ])
  | ActionNone => Some s
  end.

Definition yield (c : nat) (me : Z) (tcb : TCB Op) (s : Sys St Op) : option (Sys St Op) :=
  '(nxt, q) ← remove (readyQueue s) (next s);
  let s := s .[ readyQueue := q ] in
  if nxt =? 0 then Some s
  else if me =? nxt then None
  else context_switch c me (tcb .[ action := ActionReady ]) nxt s.

Definition stop (c : nat) (me : Z) (tcb : TCB Op) (s : Sys St Op) : option (Sys St Op) :=
  if is_idle tcb then None
  else
    '(nxt, q) ← remove (readyQueue s) (next s);
    let s := s .[ readyQueue := q ] in
    nxt ← (if nxt =? 0 then core ← cores s !! c; Some (idle_thread core)
           else ntcb ← tcbs s !! nxt; if is_idle ntcb then None else Some nxt);
    context_switch c me (tcb .[ action := ActionStop ]) nxt s.

(** One turn of the loop, after [reap]. *)
Definition event_loop (c : nat) (me : Z) (tcb : TCB Op) (s : Sys St Op) : option (Sys St Op) :=
  if negb (is_idle tcb) then None
  else
    '(nxt, q) ← remove (readyQueue s) (next s);
    let s := s .[ readyQueue := q ] in
    if negb (nxt =? 0) then
      ntcb ← tcbs s !! nxt;
      if is_idle ntcb then None else context_switch c me (tcb .[ action := ActionNone ]) nxt s
    else Some s.

(** One turn of the loop of [reap]: the thread is freed, and the last one turns
    the machine off. *)
Definition reap (s : Sys St Op) : option (Sys St Op) :=
  '(t, q) ← remove (reaperQueue s) (next s);
  let s := s .[ reaperQueue := q ] in
  if t =? 0 then Some s
  else
    _ ← tcbs s !! t;
    let s := s .[ tcbs := delete t (tcbs s) ] .[ next := delete t (next s) ] .[ n_active := u64 (n_active s - 1) ] in
    Some (s .[ halted := n_active s =? 0 ]).

(** A new thread: the memory at [t] was not in use; [TCB::alloc] sets neither
    [action] nor [cond_epoch], so they are what the memory held. *)
Definition make_thread (t : Z) (p : list Op) (act : Action) (ep : Z) (s : Sys St Op) : option (Sys St Op) :=
  if decide (t = 0 ∨ is_Some (tcbs s !! t)) then None
  else
    let s := s .[ n_active := u64 (n_active s + 1) ] in
    let s := set_tcb t (mkTCB act ep false Off p []) s in
    '(q, nx) ← add t (readyQueue s) (next s);
    Some (s .[ readyQueue := q ] .[ next := nx ]).

(** ** Condition variables *)

(** [wait] up to the release of the lock. *)
Definition wait_begin (me : Z) (tcb : TCB Op) (s : Sys St Op) : Sys St Op :=
  if is_idle tcb then set_tcb me tcb s
  else set_tcb me (tcb .[ cond_epoch := epoch (cond s) ] .[ pc := InWait ]) s.

(** [wait] after the release of the lock. *)
Definition wait_switch (c : nat) (me : Z) (tcb : TCB Op) (s : Sys St Op) : option (Sys St Op) :=
  '(nxt, q) ← remove (readyQueue s) (next s);
  let s := s .[ readyQueue := q ] in
  if nxt =? 0 then Some (set_tcb me (tcb .[ pc := Run ]) s)
  else context_switch c me (tcb .[ action := ActionWait ]) nxt s.

(** [notify_one] and [notify_all] up to the release of the lock. *)
Definition notify_one (me : Z) (tcb : TCB Op) (s : Sys St Op) : option (Sys St Op) :=
  '(t, w) ← remove (waiting (cond s)) (next s);
  let s := s .[ cond := mkCondition w (u64 (epoch (cond s) + 1)) ] in
  Some (set_tcb me (tcb .[ pc := WakeOne t ]) s).

Definition notify_all (me : Z) (tcb : TCB Op) (s : Sys St Op) : option (Sys St Op) :=
  let '(p, w) := remove_all (waiting (cond s)) in
  let s := s .[ cond := mkCondition w (u64 (epoch (cond s) + 1)) ] in
  Some (set_tcb me (tcb .[ pc := WakeAll p ]) s).

(** What they do after the release of the lock; [notify_all] one turn at a time. *)
Definition wake_one (me : Z) (tcb : TCB Op) (t : Z) (s : Sys St Op) : option (Sys St Op) :=
  let s := set_tcb me (tcb .[ pc := Run ]) s in
  if negb (t =? 0) then '(q, nx) ← add t (readyQueue s) (next s); Some (s .[ readyQueue := q ] .[ next := nx ])
  else Some s.

Definition wake_all (me : Z) (tcb : TCB Op) (p : Z) (s : Sys St Op) : option (Sys St Op) :=
  if negb (p =? 0) then
    n ← get_next p (next s);
    '(q, nx) ← add p (readyQueue s) (next s);
    Some (set_tcb me (tcb .[ pc := WakeAll n ]) (s .[ readyQueue := q ] .[ next := nx ]))
  else Some (set_tcb me (tcb .[ pc := Run ]) s).

(** One operation of the monitor, from the acquisition of its lock. *)
Definition operate (me : Z) (tcb : TCB Op) (o : Op) (rest : list Op) (s : Sys St Op) : option (Sys St Op) :=
  oc ← run o (shared s);
  match oc with
  | Done st r n =>
      let s := s .[ shared := st ] in
      let tcb := tcb .[ prog := rest ] .[ out := out tcb ++ [r] ] in
      match n with
      | NoNotify => Some (set_tcb me tcb s)
      | NotifyOne => notify_one me tcb s
      | NotifyAll => notify_all me tcb s
      end
  | Blocks st o => Some (wait_begin me (tcb .[ prog := o :: rest ]) (s .[ shared := st ]))
  | Continues st o => Some (set_tcb me (tcb .[ prog := o :: rest ]) (s .[ shared := st ]))
  end.

(** ** Schedules *)

(** What a core does next: go on with its thread, or one of the things a running
    thread may do at any point outside of the scheduler. *)
Inductive Choice := Go | Yield | Reap | Spawn (t : Z) (p : list Op) (act : Action) (ep : Z).

Definition step (c : nat) (ch : Choice) (s : Sys St Op) : option (Sys St Op) :=
  if halted s then None
  else
    '(me, tcb) ← cur s c;
    match ch, pc tcb with
    | Go, Run =>
        if is_idle tcb then event_loop c me tcb s
        else match prog tcb with
             | o :: rest => operate me tcb o rest s
             | [] => stop c me tcb s
             end
    | Go, InWait => wait_switch c me tcb s
    | Go, WakeOne t => wake_one me tcb t s
    | Go, WakeAll p => wake_all me tcb p s
    | Go, Resume prev => post_switch c me tcb prev s
    | Yield, Run => if is_idle tcb then None else yield c me tcb s
    | Reap, Run => reap s
    | Spawn t p act ep, Run => if is_idle tcb then None else make_thread t p act ep s
    | _, _ => None
    end.

Fixpoint run_schedule (l : list (nat * Choice)) (s : Sys St Op) : option (Sys St Op) :=
  match l with
  | [] => Some s
  | (c, ch) :: l => s ← step c ch s; run_schedule l s
  end.

(** ** The start: every core in its idle thread, and some new threads *)

Definition boot (idles : list Z) (st : St) : Sys St Op :=
  mkSys st (mkCondition new_queue 0) new_queue new_queue ∅
    (list_to_map ((λ i, (i, mkTCB ActionNone 0 true Run [] [])) <$> idles))
    ((λ i, mkCore i i i) <$> idles) 0 false.

Fixpoint make_threads (l : list (Z * list Op)) (s : Sys St Op) : option (Sys St Op) :=
  match l with
  | [] => Some s
  | (t, p) :: l => s ← make_thread t p ActionNone 0 s; make_threads l s
  end.

(** The states of a machine with the threads [l] after a schedule. *)
Definition reached (idles : list Z) (l : list (Z * list Op)) (st : St) (sch : list (nat * Choice)) : option (Sys St Op) :=
  s ← make_threads l (boot idles st); run_schedule sch s.

End Sched.
Arguments Choice : clear implicits.
