(* ===== verification/SchedInv.v ===== *)
(** * The invariant of the scheduler

    Every thread is in exactly one place: one of the three queues, or in the
    hands of one core.  [wf s G] says so for the state [s] with the ghost
    description [G] of the places, and that the queues are the linked lists the
    pointers make; every step preserves it, and in a state that satisfies it
    no step fails. *)

From stdpp Require Import gmap.
From S2P Require Import Prelude Queue Sched.

Section Inv.
Context {St Op : Type} `{Monitor St Op}.
Implicit Types (s : Sys St Op) (tcb : TCB Op) (T : gmap Z (TCB Op)) (nx : gmap Z Z).

(** A thread that no core has. *)
Definition worker T (t : Z) : Prop := ∃ tcb, T !! t = Some tcb ∧ is_idle tcb = false ∧ pc tcb = Off.

(** A stopped one. *)
Definition retired T (t : Z) : Prop := ∃ tcb, T !! t = Some tcb ∧ is_idle tcb = false ∧ pc tcb = Off ∧ prog tcb = [].

(** The threads [h] a core holds besides the current one and its idle thread. *)
Definition in_hand T nx (idle : Z) (p : Pc) (h : list Z) : Prop :=
  match p with
  | Run | InWait => h = []
  | WakeOne t => (t = 0 ∧ h = []) ∨ (h = [t] ∧ worker T t)
  | WakeAll p => chain nx p h ∧ Forall (worker T) h
  | Resume prev =>
      (prev = idle ∧ h = [])
      ∨ (h = [prev] ∧ ∃ tcb, T !! prev = Some tcb ∧ is_idle tcb = false ∧ pc tcb = Left ∧ action tcb ≠ ActionNone
             ∧ (action tcb = ActionStop → prog tcb = []))
  | Left | Off => False
  end.

(** The idle thread of a core whose current thread is another one, at [p]. *)
Definition idle_off (idle : Z) (p : Pc) (itcb : TCB Op) : Prop :=
  if decide (p = Resume idle) then pc itcb = Left ∧ action itcb = ActionNone else pc itcb = Off.

Record core_ok T nx (core : Core) (h : list Z) : Prop := {
  core_cur : ∃ tcb, T !! current core = Some tcb
    ∧ in_hand T nx (idle_thread core) (pc tcb) h
    ∧ (is_idle tcb = true → current core = idle_thread core ∧ (pc tcb = Run ∨ ∃ prev, pc tcb = Resume prev ∧ prev ≠ idle_thread core))
    ∧ ((∀ prev, pc tcb ≠ Resume prev) → current_thread core = current core)
    ∧ ∃ itcb, T !! idle_thread core = Some itcb ∧ is_idle itcb = true
        ∧ (current core ≠ idle_thread core → idle_off (idle_thread core) (pc tcb) itcb);
}.

Definition owned (core : Core) (h : list Z) : list Z :=
  current core :: h ++ (if decide (current core = idle_thread core) then [] else [idle_thread core]).
#[local] Arguments owned : simpl never.

Record Place := mkPlace { rq : list Z; wq : list Z; pq : list Z; hands : list (list Z) }.

Definition all_threads s (G : Place) : list Z :=
  rq G ++ wq G ++ pq G ++ concat (zip_with owned (cores s) (hands G)).

Record wf s (G : Place) : Prop := {
  wf_nodup : NoDup (all_threads s G);
  wf_dom : ∀ t, t ∈ all_threads s G ↔ is_Some (tcbs s !! t);
  wf_null : 0 ∉ all_threads s G;
  wf_rq : holds (readyQueue s) (next s) (rq G);
  wf_wq : holds (waiting (cond s)) (next s) (wq G);
  wf_pq : holds (reaperQueue s) (next s) (pq G);
  wf_workers : Forall (worker (tcbs s)) (rq G ++ wq G);
  wf_retired : Forall (retired (tcbs s)) (pq G);
  wf_cores : Forall2 (core_ok (tcbs s) (next s)) (cores s) (hands G);
}.

(** ** Frames *)

Lemma worker_frame T T' t : T' !! t = T !! t → worker T t → worker T' t.
Proof. intros E (tcb & Ht & Hr). exists tcb. by rewrite E. Qed.

Lemma retired_frame T T' l : (∀ t, t ∈ l → T' !! t = T !! t) → Forall (retired T) l → Forall (retired T') l.
Proof.
  rewrite !Forall_forall. intros E Hl t Ht. destruct (Hl t Ht) as (tcb & Hr). exists tcb. by rewrite (E t Ht).
Qed.

Lemma workers_frame T T' l : (∀ t, t ∈ l → T' !! t = T !! t) → Forall (worker T) l → Forall (worker T') l.
Proof. rewrite !Forall_forall. intros E Hl t Ht. eapply worker_frame; [by apply E|by apply Hl]. Qed.

Lemma owned_current core h : current core ∈ owned core h.
Proof. by left. Qed.
Lemma owned_hand core h t : t ∈ h → t ∈ owned core h.
Proof. intros Ht. unfold owned. right. apply elem_of_app. by left. Qed.
Lemma owned_idle core h : idle_thread core ∈ owned core h.
Proof.
  unfold owned. case_decide as E; [rewrite E; left|]. right. apply elem_of_app. right. by left.
Qed.

Lemma in_hand_frame T nx T' nx' idle p h :
  (∀ t, t ∈ h → T' !! t = T !! t ∧ nx' !! t = nx !! t) → in_hand T nx idle p h → in_hand T' nx' idle p h.
Proof.
  intros E. destruct p as [| |t|p|prev| |]; cbn; try done.
  - intros [?|[-> Hw]]; [by left|]. right. split; [done|]. eapply worker_frame; [|done]. apply E. by left.
  - intros [Hc Hw]. split; [eapply chain_frame; [|done]; intros; by apply E|].
    eapply workers_frame; [|done]. intros; by apply E.
  - intros [?|(-> & Hw)]; [by left|]. right. split; [done|].
    rewrite (proj1 (E prev (list_elem_of_here _ _))). exact Hw.
Qed.

Lemma core_ok_frame T nx T' nx' core h :
  (∀ t, t ∈ owned core h → T' !! t = T !! t ∧ nx' !! t = nx !! t) → core_ok T nx core h → core_ok T' nx' core h.
Proof.
  intros E [(tcb & Ht & Hh & Hi & Hct & itcb & Hit & Hr)]. split. exists tcb.
  rewrite (proj1 (E _ (owned_current core h))). split_and!; [done| |done|done|].
  - eapply in_hand_frame; [|exact Hh]. intros t Hth. apply E. by apply owned_hand.
  - exists itcb. rewrite (proj1 (E _ (owned_idle core h))). done.
Qed.

Lemma app3_perm (a b c l x : list Z) : a ++ b ++ c ≡ₚ l → a ++ b ++ c ++ x ≡ₚ l ++ x.
Proof. intros <-. by rewrite <- !(assoc_L (++)). Qed.

(** ** Changing one core and the queues *)

Definition rest_of s (G : Place) (c : nat) : list Z :=
  concat (zip_with owned (take c (cores s)) (take c (hands G)))
  ++ concat (zip_with owned (drop (S c) (cores s)) (drop (S c) (hands G))).

Lemma zip_split (cs : list Core) (hs : list (list Z)) c core h :
  cs !! c = Some core → hs !! c = Some h →
  concat (zip_with owned cs hs) ≡ₚ
  owned core h ++ concat (zip_with owned (take c cs) (take c hs))
    ++ concat (zip_with owned (drop (S c) cs) (drop (S c) hs)).
Proof.
  revert hs c. induction cs as [|c0 cs IH]; intros hs c Hc Hh; [done|].
  destruct hs as [|h0 hs]; [done|]. destruct c as [|c]; cbn in *.
  - simplify_eq. rewrite !drop_0. done.
  - rewrite (IH hs c Hc Hh). cbn. rewrite (Permutation_app_swap_app (owned c0 h0) (owned core h)).
    by rewrite <- (assoc_L (++)).
Qed.

Lemma all_split s G c core h :
  cores s !! c = Some core → hands G !! c = Some h →
  all_threads s G ≡ₚ (rq G ++ wq G ++ pq G ++ owned core h) ++ rest_of s G c.
Proof. intros Hc Hh. unfold all_threads, rest_of. rewrite (zip_split _ _ _ _ _ Hc Hh). by rewrite <- !(assoc_L (++)). Qed.

Lemma rest_other s G c c' core h :
  c ≠ c' → cores s !! c' = Some core → hands G !! c' = Some h → ∀ t, t ∈ owned core h → t ∈ rest_of s G c.
Proof.
  intros Hne Hc Hh t Ht. unfold rest_of. apply elem_of_app.
  destruct (decide (c' < c)%nat); [left|right]; apply list_elem_of_In, in_concat; exists (owned core h);
    (split; [|by apply list_elem_of_In]); apply list_elem_of_In, list_elem_of_lookup.
  - exists c'. rewrite lookup_zip_with, !lookup_take_lt by lia. by rewrite Hc, Hh.
  - exists (c' - S c)%nat. rewrite lookup_zip_with, !lookup_drop.
    replace (S c + (c' - S c))%nat with c' by lia. by rewrite Hc, Hh.
Qed.

Lemma wf_update s s' G c core h core' h' R' W' P' :
  wf s G → cores s !! c = Some core → hands G !! c = Some h →
  cores s' = <[c := core']> (cores s) →
  let old := rq G ++ wq G ++ pq G ++ owned core h in
  let new := R' ++ W' ++ P' ++ owned core' h' in
  NoDup new → 0 ∉ new →
  (∀ t, t ∈ new ↔ is_Some (tcbs s' !! t) ∧ (t ∈ old ∨ tcbs s !! t = None)) →
  (∀ t, is_Some (tcbs s !! t) → t ∉ old → tcbs s' !! t = tcbs s !! t ∧ next s' !! t = next s !! t) →
  holds (readyQueue s') (next s') R' → holds (waiting (cond s')) (next s') W' → holds (reaperQueue s') (next s') P' →
  Forall (worker (tcbs s')) (R' ++ W') → Forall (retired (tcbs s')) P' → core_ok (tcbs s') (next s') core' h' →
  wf s' (mkPlace R' W' P' (<[c := h']> (hands G))).
Proof.
  intros Hwf Hc Hh Hcs old new Hnd H0 Hnew Hframe HR HW HP Hwk Hrt Hck.
  pose proof (all_split s G c core h Hc Hh) as Hall. fold old in Hall.
  assert (c < length (cores s))%nat as Hlt by (by eapply lookup_lt_Some).
  assert (c < length (hands G))%nat as Hlh by (by eapply lookup_lt_Some).
  set (G' := mkPlace R' W' P' (<[c := h']> (hands G))).
  assert (all_threads s' G' ≡ₚ new ++ rest_of s G c) as Hall'.
  { rewrite (all_split s' G' c core' h'); cbn.
    - unfold rest_of; cbn. rewrite Hcs. rewrite !take_insert_ge, !drop_insert_lt by lia. unfold new. done.
    - rewrite Hcs. by apply list_lookup_insert_eq.
    - by apply list_lookup_insert_eq. }
  assert (NoDup (old ++ rest_of s G c)) as Hnd0 by (rewrite <- Hall; apply Hwf).
  apply NoDup_app in Hnd0 as (_ & Hdis & Hndr).
  assert (∀ t, t ∈ rest_of s G c → is_Some (tcbs s !! t) ∧ t ∉ old) as Hrest.
  { intros t Ht. split; [|by intros Ho; apply (Hdis t)]. apply (wf_dom _ _ Hwf). rewrite Hall. apply elem_of_app. by right. }
  split; fold G'.
  - rewrite Hall'. apply NoDup_app. split_and!; [done| |done]. intros t Ht Htr.
    apply Hnew in Ht as [_ Ho]. destruct (Hrest t Htr) as [[x Hx] Hno]. destruct Ho as [?|E]; [done|congruence].
  - intros t. rewrite Hall', elem_of_app. split.
    + intros [Ht|Ht]; [by apply Hnew in Ht as [? _]|]. destruct (Hrest t Ht) as [Hs Hno].
      by rewrite (proj1 (Hframe t Hs Hno)).
    + intros Hs. destruct (tcbs s !! t) as [x|] eqn:E; [|left; apply Hnew; split; [done|by right]].
      destruct (decide (t ∈ old)) as [Ho|Ho]; [left; apply Hnew; split; [done|by left]|]. right.
      assert (t ∈ all_threads s G) as Ht by (apply (wf_dom _ _ Hwf); rewrite E; by eexists).
      rewrite Hall in Ht. apply elem_of_app in Ht as [?|?]; done.
  - rewrite Hall', elem_of_app. intros [?|Ht]; [done|]. apply (wf_null _ _ Hwf). rewrite Hall. apply elem_of_app. by right.
  - done.
  - done.
  - done.
  - done.
  - done.
  - rewrite Hcs. apply Forall2_lookup. intros i. destruct (decide (i = c)) as [->|Hne].
    + cbn. rewrite !list_lookup_insert_eq by done. by constructor.
    + cbn. rewrite !list_lookup_insert_ne by done.
      pose proof (proj1 (Forall2_lookup _ _ _) (wf_cores _ _ Hwf) i) as Hi.
      inversion Hi as [core1 h1 Hok E1 E2|E1 E2]; [|constructor]. constructor.
      eapply core_ok_frame; [|exact Hok]. intros t Ht.
      assert (t ∈ rest_of s G c) as Htr by (eapply (rest_other s G c i); [done|by symmetry|by symmetry|done]).
      destruct (Hrest t Htr) as [Hs Hno]. by apply Hframe.
Qed.

(** A step that moves threads between the places of one core and the queues. *)
Lemma wf_move s s' G c core h core' h' R' W' P' :
  wf s G → cores s !! c = Some core → hands G !! c = Some h →
  cores s' = <[c := core']> (cores s) →
  R' ++ W' ++ P' ++ owned core' h' ≡ₚ rq G ++ wq G ++ pq G ++ owned core h →
  (∀ t, is_Some (tcbs s' !! t) ↔ is_Some (tcbs s !! t)) →
  (∀ t, t ∉ rq G ++ wq G ++ pq G ++ owned core h → tcbs s' !! t = tcbs s !! t ∧ next s' !! t = next s !! t) →
  holds (readyQueue s') (next s') R' → holds (waiting (cond s')) (next s') W' → holds (reaperQueue s') (next s') P' →
  Forall (worker (tcbs s')) (R' ++ W') → Forall (retired (tcbs s')) P' → core_ok (tcbs s') (next s') core' h' →
  wf s' (mkPlace R' W' P' (<[c := h']> (hands G))).
Proof.
  intros Hwf Hc Hh Hcs Hp Hdom Hframe HR HW HP Hwk Hrt Hck.
  pose proof (all_split s G c core h Hc Hh) as Hall.
  assert (∀ t, t ∈ rq G ++ wq G ++ pq G ++ owned core h → t ∈ all_threads s G) as Hin
    by (intros t Ht; rewrite Hall; apply elem_of_app; by left).
  eapply wf_update; try done.
  - rewrite Hp. pose proof (wf_nodup _ _ Hwf) as Hnd. rewrite Hall in Hnd. by apply NoDup_app in Hnd as [? _].
  - rewrite Hp. intros H0. by apply (wf_null _ _ Hwf), Hin.
  - intros t. rewrite Hp, Hdom. split; [|intros [[x Hx] [?|E]]; [done|congruence]].
    intros Ht. split; [by apply (wf_dom _ _ Hwf), Hin|by left].
  - intros t _. apply Hframe.
Qed.

(** What [wf] says about the current thread of a core. *)
Lemma wf_cur s G c me tcb :
  wf s G → cur s c = Some (me, tcb) →
  ∃ core h, cores s !! c = Some core ∧ hands G !! c = Some h ∧ current core = me ∧ tcbs s !! me = Some tcb
    ∧ core_ok (tcbs s) (next s) core h
    ∧ NoDup (rq G ++ wq G ++ pq G ++ owned core h) ∧ 0 ∉ rq G ++ wq G ++ pq G ++ owned core h
    ∧ (∀ t, t ∈ rq G ++ wq G ++ pq G ++ owned core h → is_Some (tcbs s !! t)).
Proof.
  intros Hwf Hcur. unfold cur in Hcur. destruct (cores s !! c) as [core|] eqn:Hc; cbn in Hcur; [|done].
  destruct (tcbs s !! current core) as [x|] eqn:Ht; cbn in Hcur; [|done]. simplify_eq.
  destruct (Forall2_lookup_l _ _ _ _ _ (wf_cores _ _ Hwf) Hc) as (h & Hh & Hok).
  pose proof (all_split s G c core h Hc Hh) as Hall.
  exists core, h. split_and!; try done.
  - pose proof (wf_nodup _ _ Hwf) as Hnd. rewrite Hall in Hnd. by apply NoDup_app in Hnd as [? _].
  - intros H0. apply (wf_null _ _ Hwf). rewrite Hall. apply elem_of_app. by left.
  - intros t Hin. apply (wf_dom _ _ Hwf). rewrite Hall. apply elem_of_app. by left.
Qed.

(** ** Steps that keep the current thread *)

Definition switching (p : Pc) : Prop := ∃ prev, p = Resume prev.
(** The core holds no other thread. *)
Definition bare (p : Pc) : Prop := p = Run ∨ p = InWait ∨ p = WakeOne 0 ∨ p = WakeAll 0.

Lemma bare_not_switching p : bare p → ¬ switching p.
Proof. intros Hb [prev ->]. destruct Hb as [|[|[]]]; done. Qed.

Lemma bare_hand T nx idle p h : bare p → 0 ∉ h → in_hand T nx idle p h ↔ h = [].
Proof.
  intros [->|[->|[->| ->]]] H0; cbn; try done.
  - split; [|by left]. intros [[_ ?]|[-> _]]; [done|]. destruct H0. by left.
  - split; [|by intros ->]. intros [Hc _]. destruct h as [|t h]; [done|]. destruct Hc as (<- & ? & _). done.
Qed.

Lemma idle_off_calm idle p itcb : ¬ switching p → idle_off idle p itcb ↔ pc itcb = Off.
Proof. intros Hp. unfold idle_off. case_decide as E; [|done]. destruct Hp. by exists idle. Qed.

Lemma core_ok_me T nx T' nx' core h h' tcb tcb' :
  core_ok T nx core h → T !! current core = Some tcb → T' !! current core = Some tcb' →
  is_idle tcb' = is_idle tcb → in_hand T' nx' (idle_thread core) (pc tcb') h' →
  ¬ switching (pc tcb) → ¬ switching (pc tcb') → (is_idle tcb = true → pc tcb' = Run) →
  (current core ≠ idle_thread core → T' !! idle_thread core = T !! idle_thread core) →
  core_ok T' nx' core h'.
Proof.
  intros [(x & Hx & Hh & Hi & Hct & itcb & Hit & Hidle & Hoff)] Ht Ht' Eidle Hh' Hp Hp' Hrun Hfr.
  assert (x = tcb) as -> by congruence. split. exists tcb'. split_and!; [done|done| | |].
  - rewrite Eidle. intros E. destruct (Hi E) as [? _]. split; [done|]. left. by apply Hrun.
  - intros _. apply Hct. intros prev E. apply Hp. by exists prev.
  - destruct (decide (current core = idle_thread core)) as [E|E].
    + exists tcb'. rewrite <- E in *. simplify_eq. split_and!; [done|by rewrite Eidle|done].
    + exists itcb. rewrite (Hfr E). split_and!; [done|done|]. intros _. apply idle_off_calm; [done|].
      by apply (idle_off_calm (idle_thread core) (pc tcb)); [|apply Hoff].
Qed.

Lemma hand_null core h (l : list Z) : 0 ∉ l ++ owned core h → 0 ∉ h.
Proof. intros H0 Hh. apply H0, elem_of_app. right. by apply owned_hand. Qed.

Lemma place_eta (G : Place) c h : hands G !! c = Some h → mkPlace (rq G) (wq G) (pq G) (<[c := h]> (hands G)) = G.
Proof. intros Hh. destruct G; cbn in *. by rewrite list_insert_id. Qed.

(** Members of the places are distinct. *)
Lemma me_not_queued (l : list Z) core h : NoDup (l ++ owned core h) → current core ∉ l.
Proof. intros (_ & Hd & _)%NoDup_app Hl. apply (Hd _ Hl). apply owned_current. Qed.

Lemma me_not_held (l : list Z) core h : NoDup (l ++ owned core h) → current core ∉ h.
Proof.
  intros (_ & _ & Hn)%NoDup_app Hl. unfold owned in Hn. apply NoDup_cons in Hn as [Hn _].
  apply Hn, elem_of_app. by left.
Qed.

Lemma queued_not_owned (R W P : list Z) core h t :
  NoDup (R ++ W ++ P ++ owned core h) → t ∈ R ++ W ++ P → t ∉ owned core h.
Proof.
  intros Hnd Ht. replace (R ++ W ++ P ++ owned core h) with ((R ++ W ++ P) ++ owned core h) in Hnd
    by (by rewrite <- !(assoc_L (++))).
  apply NoDup_app in Hnd as (_ & Hd & _). by apply Hd.
Qed.

Lemma insert_dom T t tcb tcb' u : T !! t = Some tcb → is_Some (<[t := tcb']> T !! u) ↔ is_Some (T !! u).
Proof. intros Ht. rewrite lookup_insert_is_Some. split; [intros [<-|[_ ?]]; [by eexists|done]|]. destruct (decide (t = u)); [by left|by right]. Qed.

Lemma worker_not_me T t tcb : T !! t = Some tcb → pc tcb ≠ Off → ¬ worker T t.
Proof. intros Ht Hp (x & Hx & _ & Hoff). congruence. Qed.

(** The current thread moves threads between its hand and the queues. *)
Lemma wf_keep s s' G c me tcb tcb' core h h' R' W' P' :
  wf s G → cur s c = Some (me, tcb) → cores s !! c = Some core → hands G !! c = Some h →
  ¬ switching (pc tcb) → ¬ switching (pc tcb') → is_idle tcb' = is_idle tcb → (is_idle tcb = true → pc tcb' = Run) →
  tcbs s' = <[me := tcb']> (tcbs s) → cores s' = cores s →
  R' ++ W' ++ P' ++ h' ≡ₚ rq G ++ wq G ++ pq G ++ h →
  (∀ t, t ∉ rq G ++ wq G ++ pq G ++ h → next s' !! t = next s !! t) →
  holds (readyQueue s') (next s') R' → holds (waiting (cond s')) (next s') W' → holds (reaperQueue s') (next s') P' →
  Forall (worker (tcbs s)) (R' ++ W') → Forall (retired (tcbs s)) P' →
  (in_hand (tcbs s) (next s') (idle_thread core) (pc tcb') h') →
  wf s' (mkPlace R' W' P' (<[c := h']> (hands G))).
Proof.
  intros Hwf Hcur Hc Hh Hp Hp' Hi Hrun HT Hcs Hperm Hnx HR HW HP Hwk Hrt Hhand.
  destruct (wf_cur _ _ _ _ _ Hwf Hcur) as (core0 & h0 & Hc0 & Hh0 & Hme & Ht & Hok & Hnd & H0 & _). simplify_eq.
  assert (current core ∉ rq G ++ wq G ++ pq G ++ h) as Hme.
  { intros Hin. rewrite !(assoc_L (++)) in Hnd, Hin. apply elem_of_app in Hin as [Hin|Hin].
    - by apply me_not_queued in Hnd.
    - by apply me_not_held in Hnd. }
  assert (∀ t, t ∈ R' ++ W' ++ P' ++ h' → tcbs s' !! t = tcbs s !! t) as Hfr.
  { intros t Hin. rewrite HT. apply lookup_insert_ne. intros <-. apply Hme. by rewrite <- Hperm. }
  eapply (wf_move s s' G c core h core h'); try done.
  - rewrite Hcs. symmetry. by apply list_insert_id.
  - unfold owned. rewrite !(assoc_L (++)) in Hperm |- *.
    rewrite <- !Permutation_middle. apply perm_skip. rewrite !(assoc_L (++)).
    by rewrite Hperm.
  - intros t. rewrite HT. by eapply insert_dom.
  - intros t Hout. split.
    + rewrite HT. apply lookup_insert_ne. intros <-. apply Hout. rewrite !elem_of_app. do 3 right. apply owned_current.
    + apply Hnx. intros Hin. apply Hout. rewrite !elem_of_app in Hin |- *. unfold owned. rewrite elem_of_cons, elem_of_app. tauto.
  - eapply workers_frame; [|exact Hwk]. intros t Hin. apply Hfr. rewrite !elem_of_app in *. tauto.
  - eapply retired_frame; [|exact Hrt]. intros t Hin. apply Hfr. rewrite !elem_of_app in *. tauto.
  - eapply (core_ok_me _ _ _ _ core h h' tcb tcb'); try done.
    + rewrite HT. apply lookup_insert_eq.
    + eapply in_hand_frame; [|exact Hhand]. intros t Hin. split; [|done]. apply Hfr. rewrite !elem_of_app. tauto.
    + intros E. rewrite HT. by apply lookup_insert_ne.
Qed.

(** A step that changes neither the places nor the links. *)
Lemma wf_local s s' G c me tcb tcb' :
  wf s G → cur s c = Some (me, tcb) → bare (pc tcb) → bare (pc tcb') →
  is_idle tcb' = is_idle tcb → (is_idle tcb = true → pc tcb' = Run) →
  tcbs s' = <[me := tcb']> (tcbs s) → cores s' = cores s → next s' = next s →
  readyQueue s' = readyQueue s → waiting (cond s') = waiting (cond s) → reaperQueue s' = reaperQueue s → wf s' G.
Proof.
  intros Hwf Hcur Hb Hb' Hi Hrun HT Hcs Hnx Hr Hw Hp.
  destruct (wf_cur _ _ _ _ _ Hwf Hcur) as (core & h & Hc & Hh & Hme & Ht & Hok & Hnd & H0 & _).
  rewrite !(assoc_L (++)) in H0. apply hand_null in H0.
  destruct Hok as [(x & Hx & Hhand & _)]. simplify_eq.
  rewrite <- (place_eta G c h Hh).
  eapply (wf_keep s s' G c _ tcb tcb' core h h); try done.
  - by apply bare_not_switching.
  - by apply bare_not_switching.
  - by rewrite Hnx.
  - rewrite Hr, Hnx. apply Hwf.
  - rewrite Hw, Hnx. apply Hwf.
  - rewrite Hp, Hnx. apply Hwf.
  - apply Hwf.
  - apply Hwf.
  - apply (bare_hand _ _ _ (pc tcb)) in Hhand; [|done|done]. by apply bare_hand.
Qed.

End Inv.
