(* ===== verification/SchedStep.v ===== *)
(** * Every step keeps the invariant of the scheduler

    Each operation of [Sched] succeeds in a state that satisfies [wf] and leads
    to one; [quiet] describes what the operations that are not operations of
    the monitor leave unchanged. *)

From stdpp Require Import gmap.
From S2P Require Import Prelude Queue Sched SchedInv.

Section Steps.
Context {St Op : Type} `{Monitor St Op}.
Implicit Types (s : Sys St Op) (tcb : TCB Op).

(** On its way to the queue of the condition variable. *)
Definition sleepy (tcb : TCB Op) : Prop := pc tcb = InWait ∨ (pc tcb = Left ∧ action tcb = ActionWait).

(** Only a notification gets the thread running again. *)
Definition committed s (G : Place) (t : Z) (tcb : TCB Op) : Prop :=
  t ∈ wq G ∨ (sleepy tcb ∧ cond_epoch tcb = epoch (cond s)).

(** The step from [s] to [s'] changes neither the monitor nor what the threads
    have to do; [new] is the thread it creates. *)
Record quiet (new : option (Z * list Op)) s (G : Place) s' (G' : Place) : Prop := {
  quiet_shared : shared s' = shared s;
  quiet_epoch : epoch (cond s') = epoch (cond s);
  quiet_back : ∀ t tcb', tcbs s' !! t = Some tcb' →
    (∃ tcb, tcbs s !! t = Some tcb ∧ prog tcb' = prog tcb ∧ out tcb' = out tcb ∧ is_idle tcb' = is_idle tcb
       ∧ (sleepy tcb' → sleepy tcb ∧ cond_epoch tcb' = cond_epoch tcb))
    ∨ (tcbs s !! t = None ∧ ∃ p, new = Some (t, p) ∧ prog tcb' = p ∧ out tcb' = [] ∧ pc tcb' = Off);
  quiet_fwd : ∀ t tcb, tcbs s !! t = Some tcb → prog tcb ≠ [] → is_Some (tcbs s' !! t);
  quiet_wait : ∀ t, t ∈ wq G' → t ∈ wq G ∨ ∃ tcb, tcbs s !! t = Some tcb ∧ sleepy tcb ∧ cond_epoch tcb = epoch (cond s);
}.

Lemma not_sleepy_run tcb : pc tcb = Run → ¬ sleepy tcb.
Proof. unfold sleepy. by intros -> [|[]]. Qed.

Ltac sched := unfold set_tcb, set_field in *; cbn in *.

(** Two control blocks change, in ways that keep the work. *)
Lemma quiet_two s G s' G' t1 x1 x1' t2 x2 x2' :
  shared s' = shared s → epoch (cond s') = epoch (cond s) →
  tcbs s !! t1 = Some x1 → tcbs s !! t2 = Some x2 →
  tcbs s' = <[t2 := x2']> (<[t1 := x1']> (tcbs s)) →
  prog x1' = prog x1 ∧ out x1' = out x1 ∧ is_idle x1' = is_idle x1 ∧ (sleepy x1' → sleepy x1 ∧ cond_epoch x1' = cond_epoch x1) →
  prog x2' = prog x2 ∧ out x2' = out x2 ∧ is_idle x2' = is_idle x2 ∧ (sleepy x2' → sleepy x2 ∧ cond_epoch x2' = cond_epoch x2) →
  (∀ t, t ∈ wq G' → t ∈ wq G ∨ ∃ tcb, tcbs s !! t = Some tcb ∧ sleepy tcb ∧ cond_epoch tcb = epoch (cond s)) →
  quiet None s G s' G'.
Proof.
  intros Hs He H1 H2 HT (?&?&?&?) (?&?&?&?) Hw. split; [done|done| | |done].
  - intros t tcb'. rewrite HT. intros Ht. left. destruct (decide (t = t2)) as [-> |N2].
    + rewrite lookup_insert_eq in Ht. simplify_eq. by exists x2.
    + rewrite lookup_insert_ne in Ht by done. destruct (decide (t = t1)) as [-> |N1].
      * rewrite lookup_insert_eq in Ht. simplify_eq. by exists x1.
      * rewrite lookup_insert_ne in Ht by done. by exists tcb'.
  - intros t tcb Ht _. rewrite HT. rewrite !lookup_insert_is_Some'. right. right. by eexists.
Qed.

Lemma quiet_one s G s' G' t x x' :
  shared s' = shared s → epoch (cond s') = epoch (cond s) → tcbs s !! t = Some x →
  tcbs s' = <[t := x']> (tcbs s) →
  prog x' = prog x ∧ out x' = out x ∧ is_idle x' = is_idle x ∧ (sleepy x' → sleepy x ∧ cond_epoch x' = cond_epoch x) →
  wq G' = wq G →
  quiet None s G s' G'.
Proof.
  intros Hs He Ht HT Hx Hw. eapply (quiet_two _ _ _ _ t x x' t x x'); try done.
  - by rewrite insert_insert_eq.
  - intros u. rewrite Hw. by left.
Qed.

(** ** Switching to a thread of the ready queue *)

Lemma switch_ready_wf s G c me tcb a n R q core h :
  wf s G → cur s c = Some (me, tcb) → cores s !! c = Some core → hands G !! c = Some h →
  pc tcb = Run ∨ pc tcb = InWait →
  (if is_idle tcb then a = ActionNone else a ≠ ActionNone) → (a = ActionStop → prog tcb = []) →
  (a = ActionWait → pc tcb = InWait) →
  rq G = n :: R → holds q (next s) R →
  ∃ s', context_switch c me (tcb .[ action := a ]) n (s .[ readyQueue := q ]) = Some s'
    ∧ ∃ G', wf s' G' ∧ quiet None s G s' G'.
Proof.
  intros Hwf Hcur Hc Hh Hpc Ha Hstop Hwait HR Hq.
  destruct (wf_cur _ _ _ _ _ Hwf Hcur) as (core0 & h0 & Hc0 & Hh0 & Hme & Ht & Hok & Hnd & H0 & Hin). simplify_eq.
  assert (bare (pc tcb)) as Hb by (unfold bare; tauto).
  assert (h = []) as ->.
  { destruct Hok as [(x & Hx & Hhand & _)]. assert (x = tcb) as -> by congruence.
    apply (bare_hand _ _ _ (pc tcb)) in Hhand; [done|done|]. rewrite !(assoc_L (++)) in H0. by apply hand_null in H0. }
  pose proof (wf_workers _ _ Hwf) as Hwk. rewrite HR in Hwk. cbn in Hwk. apply Forall_cons in Hwk as [(ntcb & Hn & Hni & Hnp) Hwk].
  assert (current core ≠ n) as Hmn by (intros E; rewrite <- E, Ht in Hn; simplify_eq; destruct Hpc; congruence).
  set (s' := set_tcb n (ntcb .[ pc := Resume (current core) ])
     (set_tcb (current core) (tcb .[ action := a ] .[ pc := Left ])
        (s .[ readyQueue := q ] .[ cores := <[c := core .[ current := n ]]> (cores s) ]))).
  exists s'. split; [unfold context_switch; sched; rewrite Hc; cbn; by rewrite Hn|].
  set (h' := if decide (current core = idle_thread core) then [] else [current core]).
  exists (mkPlace R (wq G) (pq G) (<[c := h']> (hands G))).
  destruct Hok as [(x & Hx & _ & Hidle & Hct & itcb & Hit & Hii & Hoff)]. assert (x = tcb) as -> by congruence. clear Hx.
  assert (n ≠ idle_thread core) as Hni' by (intros ->; congruence).
  assert (∀ t, t ∉ n :: [current core] → tcbs s' !! t = tcbs s !! t) as Hfr.
  { intros t Hout. apply not_elem_of_cons in Hout as [? [? _]%not_elem_of_cons]. unfold s'. sched.
    rewrite !lookup_insert_ne by done. done. }
  assert (NoDup (n :: R ++ wq G ++ pq G ++ owned core [])) as Hnd' by (by rewrite HR in Hnd).
  assert (∀ t, t ∈ R ++ wq G ++ pq G → tcbs s' !! t = tcbs s !! t) as Hqf.
  { intros t Hinl. apply Hfr. apply NoDup_cons in Hnd' as [Hnn Hnd2]. rewrite !not_elem_of_cons. split_and!.
    - intros ->. apply Hnn. rewrite !elem_of_app in *. tauto.
    - intros ->. by apply (queued_not_owned _ _ _ _ _ _ Hnd2 Hinl), owned_current.
    - apply not_elem_of_nil. }
  split.
  - eapply (wf_move s s' G c core [] (core .[ current := n ]) h'); try done.
    + rewrite HR. unfold owned, h', set_field. cbn.
      destruct (decide (n = idle_thread core)) as [?|_]; [done|].
      assert (∀ l : list Z, n :: R ++ wq G ++ pq G ++ l ≡ₚ R ++ wq G ++ pq G ++ n :: l) as E
        by (intros l; rewrite !(assoc_L (++)); apply Permutation_middle).
      rewrite <- E. do 4 f_equiv. case_decide as Ei; [by rewrite Ei|done].
    + intros t. unfold s'. sched. rewrite !lookup_insert_is_Some'.
      split; [intros [<-|[<-|?]]; [by eexists|by eexists|done]|by right; right].
    + intros t Hout. split; [|done]. apply Hfr. intros Hi. apply Hout. rewrite HR, !elem_of_app.
      apply elem_of_cons in Hi as [-> |[-> |?%not_elem_of_nil]%elem_of_cons]; [left; by left| |done].
      do 3 right. apply owned_current.
    + apply Hwf.
    + apply Hwf.
    + eapply workers_frame; [|exact Hwk]. intros t Hi. apply Hqf. rewrite !elem_of_app in *. tauto.
    + eapply retired_frame; [|apply Hwf]. intros t Hi. apply Hqf. rewrite !elem_of_app in *. tauto.
    + split. unfold s', set_tcb, set_field; cbn. exists (ntcb .[ pc := Resume (current core) ]).
      rewrite lookup_insert_eq. unfold set_field; cbn. split_and!; [done| |congruence| |].
      * unfold h'. case_decide as Ei; [by left|]. right. split; [done|]. eexists.
        rewrite lookup_insert_ne, lookup_insert_eq by done. split; [done|]. cbn.
        destruct (is_idle tcb) eqn:Eit; [|by split_and!]. by destruct (Hidle eq_refl) as [? _].
      * intros Hr. by destruct (Hr (current core)).
      * destruct (decide (current core = idle_thread core)) as [Ei|Ei].
        -- eexists. rewrite <- Ei, lookup_insert_ne, lookup_insert_eq by done. split; [done|]. cbn.
           assert (itcb = tcb) as -> by congruence. split; [done|]. intros _. unfold idle_off. rewrite decide_True by done.
           rewrite Hii in Ha. done.
        -- exists itcb. rewrite !lookup_insert_ne by done. split_and!; [done|done|]. intros _.
           unfold idle_off. rewrite decide_False by congruence.
           apply (idle_off_calm (idle_thread core) (pc tcb)); [by apply bare_not_switching|by apply Hoff].
  - eapply (quiet_two _ _ _ _ (current core) tcb _ n ntcb _); try done.
    + sched. split_and!; try done. unfold sleepy. cbn. intros [?|[_ E]]; [done|]. split; [|done]. left. by apply Hwait.
    + sched. split_and!; try done. unfold sleepy. cbn. by intros [|[]].
    + intros t Hw. by left.
Qed.

(** ** Switching to the idle thread *)

Lemma switch_idle_wf s G c me tcb q core h :
  wf s G → cur s c = Some (me, tcb) → cores s !! c = Some core → hands G !! c = Some h →
  pc tcb = Run → is_idle tcb = false → prog tcb = [] → rq G = [] → holds q (next s) [] →
  ∃ s', context_switch c me (tcb .[ action := ActionStop ]) (idle_thread core) (s .[ readyQueue := q ]) = Some s'
    ∧ ∃ G', wf s' G' ∧ quiet None s G s' G'.
Proof.
  intros Hwf Hcur Hc Hh Hpc Hni Hprog HR Hq.
  destruct (wf_cur _ _ _ _ _ Hwf Hcur) as (core0 & h0 & Hc0 & Hh0 & Hme & Ht & Hok & Hnd & H0 & Hin). simplify_eq.
  destruct Hok as [(x & Hx & Hhand & _ & Hct & itcb & Hit & Hii & Hoff)]. assert (x = tcb) as -> by congruence. clear Hx.
  rewrite Hpc in Hhand. cbn in Hhand. subst h.
  assert (current core ≠ idle_thread core) as Hmi by (intros E; rewrite E in Ht; congruence).
  set (s' := set_tcb (idle_thread core) (itcb .[ pc := Resume (current core) ])
     (set_tcb (current core) (tcb .[ action := ActionStop ] .[ pc := Left ])
        (s .[ readyQueue := q ] .[ cores := <[c := core .[ current := idle_thread core ]]> (cores s) ]))).
  exists s'. split; [unfold context_switch; sched; rewrite Hc; cbn; by rewrite Hit|].
  exists (mkPlace (rq G) (wq G) (pq G) (<[c := [current core]]> (hands G))).
  assert (∀ t, t ∉ owned core [] → tcbs s' !! t = tcbs s !! t) as Hfr.
  { intros t Hout. unfold s'. sched. rewrite !lookup_insert_ne; [done| |].
    - intros <-. apply Hout, owned_current.
    - intros <-. apply Hout, owned_idle. }
  assert (∀ t, t ∈ rq G ++ wq G ++ pq G → tcbs s' !! t = tcbs s !! t) as Hqf.
  { intros t Hinl. apply Hfr. by eapply queued_not_owned. }
  split.
  - eapply (wf_move s s' G c core [] (core .[ current := idle_thread core ]) [current core]); try done.
    + do 3 f_equiv. unfold owned, set_field. cbn. rewrite (decide_True (P := idle_thread core = idle_thread core)) by done.
      destruct (decide (current core = idle_thread core)) as [?|_]; [done|]. apply perm_swap.
    + intros t. unfold s'. sched. rewrite !lookup_insert_is_Some'.
      split; [intros [<-|[<-|?]]; [by eexists|by eexists|done]|by right; right].
    + intros t Hout. split; [|done]. apply Hfr. intros Hi. apply Hout. rewrite !elem_of_app. tauto.
    + by rewrite HR.
    + apply Hwf.
    + apply Hwf.
    + eapply workers_frame; [|apply Hwf]. intros t Hi. apply Hqf. rewrite !elem_of_app in *. tauto.
    + eapply retired_frame; [|apply Hwf]. intros t Hi. apply Hqf. rewrite !elem_of_app in *. tauto.
    + split. unfold s', set_tcb, set_field; cbn. exists (itcb .[ pc := Resume (current core) ]).
      rewrite lookup_insert_eq. unfold set_field; cbn. split_and!; [done| | | |].
      * right. split; [done|]. eexists. rewrite lookup_insert_ne, lookup_insert_eq by done. by split_and!.
      * intros _. split; [done|]. right. by exists (current core).
      * intros Hr. by destruct (Hr (current core)).
      * by exists (itcb .[ pc := Resume (current core) ]).
  - eapply (quiet_two _ _ _ _ (current core) tcb _ (idle_thread core) itcb _); try done.
    + sched. split_and!; try done. unfold sleepy. cbn. by intros [|[]].
    + sched. split_and!; try done. unfold sleepy. cbn. by intros [|[]].
    + intros t Hw. by left.
Qed.

(** ** [post_switch] *)

(** Adding a thread to one of the queues. *)
Lemma add_others t q nx l :
  holds q nx l → t ≠ 0 → t ∉ l →
  ∃ q' nx', add t q nx = Some (q', nx') ∧ holds q' nx' (l ++ [t])
    ∧ (∀ q2 l2, holds q2 nx l2 → (∀ u, u ∈ l2 → u ∉ l ∧ u ≠ t) → holds q2 nx' l2)
    ∧ ∀ u, u ∉ l → u ≠ t → nx' !! u = nx !! u.
Proof.
  intros Hq Ht0 Ht. destruct (add_ok t q nx l Hq Ht0 Ht) as (q' & nx' & Ha & Hq' & Hf).
  exists q', nx'. split_and!; [done|done| |done].
  intros q2 l2 H2 Hd. eapply holds_frame; [|exact H2]. intros u Hu. by apply Hf; apply Hd.
Qed.

(** The thread after [post_switch], and the one it had switched from. *)
Definition posted c me tcb prev ptcb core s : Sys St Op :=
  set_tcb prev (ptcb .[ pc := Off ])
    (set_tcb me (tcb .[ pc := Run ]) (s .[ cores := <[c := core .[ current_thread := me ]]> (cores s) ])).

Lemma post_switch_idle_wf s G c me tcb core :
  wf s G → cur s c = Some (me, tcb) → cores s !! c = Some core → hands G !! c = Some [] →
  pc tcb = Resume (idle_thread core) →
  ∃ s', post_switch c me tcb (idle_thread core) s = Some s' ∧ ∃ G', wf s' G' ∧ quiet None s G s' G'.
Proof.
  intros Hwf Hcur Hc Hh Hpc.
  destruct (wf_cur _ _ _ _ _ Hwf Hcur) as (core0 & h0 & Hc0 & Hh0 & Hme & Ht & Hok & Hnd & H0 & Hin). simplify_eq.
  destruct Hok as [(x & Hx & Hhand & Hidle & Hct & itcb & Hit & Hii & Hoff)]. assert (x = tcb) as -> by congruence. clear Hx.
  assert (is_idle tcb = false) as Hni.
  { destruct (is_idle tcb) eqn:E; [|done]. destruct (Hidle eq_refl) as [_ [?|(p & Ep & ?)]]; congruence. }
  assert (current core ≠ idle_thread core) as Hmi by (intros E; rewrite E in Ht; congruence).
  pose proof (Hoff Hmi) as H1. unfold idle_off in H1. rewrite Hpc in H1. rewrite decide_True in H1 by done. destruct H1 as [Hil Hia].
  set (s' := posted c (current core) tcb (idle_thread core) itcb core s).
  exists s'. split; [unfold post_switch; rewrite Hc; cbn; rewrite Hit; cbn; by rewrite Hia|].
  exists (mkPlace (rq G) (wq G) (pq G) (<[c := []]> (hands G))).
  assert (∀ t, t ∈ rq G ++ wq G ++ pq G → tcbs s' !! t = tcbs s !! t) as Hqf.
  { intros t Hinl. unfold s', posted. sched. pose proof (queued_not_owned _ _ _ _ _ _ Hnd Hinl) as Hd. rewrite !lookup_insert_ne; [done| |].
    - intros <-. apply Hd, owned_current.
    - intros <-. apply Hd, owned_idle. }
  split.
  - eapply (wf_move s s' G c core [] (core .[ current_thread := current core ]) []); try done.
    + intros t. unfold s', posted. sched. rewrite !lookup_insert_is_Some'.
      split; [intros [<-|[<-|?]]; [by eexists|by eexists|done]|by right; right].
    + intros t Hout. split; [|done]. unfold s', posted. sched.
      rewrite !lookup_insert_ne; [done|intros <-; apply Hout..]; rewrite !elem_of_app; do 3 right;
        [apply owned_current|apply owned_idle].
    + apply Hwf.
    + apply Hwf.
    + apply Hwf.
    + eapply workers_frame; [|apply Hwf]. intros t Hi. apply Hqf. rewrite !elem_of_app in *. tauto.
    + eapply retired_frame; [|apply Hwf]. intros t Hi. apply Hqf. rewrite !elem_of_app in *. tauto.
    + split. unfold s', posted, set_tcb, set_field; cbn. exists (tcb .[ pc := Run ]).
      rewrite lookup_insert_ne, lookup_insert_eq by done. unfold set_field; cbn. split_and!; [done|done| |done|].
      * congruence.
      * eexists. rewrite lookup_insert_eq. split; [done|]. by split.
  - eapply (quiet_two _ _ _ _ (current core) tcb _ (idle_thread core) itcb _); try done.
    + sched. split_and!; try done. unfold sleepy. cbn. by intros [|[]].
    + sched. split_and!; try done. unfold sleepy. cbn. by intros [|[]].
    + intros t Hw. by left.
Qed.

(** [prev] goes from the hand of the core to one of the queues. *)
Lemma posted_wf s s' G c me tcb prev ptcb core R' W' P' :
  wf s G → cur s c = Some (me, tcb) → cores s !! c = Some core → hands G !! c = Some [prev] →
  pc tcb = Resume prev → tcbs s !! prev = Some ptcb → is_idle ptcb = false →
  cores s' = cores (posted c me tcb prev ptcb core s) → tcbs s' = tcbs (posted c me tcb prev ptcb core s) →
  R' ++ W' ++ P' ≡ₚ prev :: rq G ++ wq G ++ pq G →
  (∀ t, t ∉ prev :: rq G ++ wq G ++ pq G → next s' !! t = next s !! t) →
  holds (readyQueue s') (next s') R' → holds (waiting (cond s')) (next s') W' → holds (reaperQueue s') (next s') P' →
  (∀ t, t ∈ R' ++ W' → t = prev ∨ t ∈ rq G ++ wq G) →
  (∀ t, t ∈ P' → (t = prev ∧ prog ptcb = []) ∨ t ∈ pq G) →
  wf s' (mkPlace R' W' P' (<[c := []]> (hands G))).
Proof.
  intros Hwf Hcur Hc Hh Hpc Hpt Hpi Hcs HT Hperm Hnx HR HW HP HRW HPP.
  destruct (wf_cur _ _ _ _ _ Hwf Hcur) as (core0 & h0 & Hc0 & Hh0 & Hme & Ht & Hok & Hnd & H0 & Hin). simplify_eq.
  destruct Hok as [(x & Hx & _ & Hidle & Hct & itcb & Hit & Hii & Hoff)]. assert (x = tcb) as -> by congruence. clear Hx.
  assert (current core ≠ prev) as Hmp.
  { rewrite !(assoc_L (++)) in Hnd. apply me_not_held in Hnd. intros E. apply Hnd. rewrite E. by left. }
  assert (prev ≠ idle_thread core) as Hpi' by (intros ->; congruence).
  assert (∀ t, t ≠ current core → t ≠ prev → tcbs s' !! t = tcbs s !! t) as Hfr.
  { intros t ? ?. rewrite HT. unfold posted. sched. by rewrite !lookup_insert_ne by done. }
  assert (∀ t, t ∈ rq G ++ wq G ++ pq G → tcbs s' !! t = tcbs s !! t) as Hqf.
  { intros t Hinl. pose proof (queued_not_owned _ _ _ _ _ _ Hnd Hinl) as Hd. apply Hfr.
    - intros ->. apply Hd, owned_current.
    - intros ->. apply Hd, owned_hand. by left. }
  assert (tcbs s' !! prev = Some (ptcb .[ pc := Off ])) as Hp' by (rewrite HT; apply lookup_insert_eq).
  assert (tcbs s' !! current core = Some (tcb .[ pc := Run ])) as Hm'.
  { rewrite HT. unfold posted. sched. by rewrite lookup_insert_ne, lookup_insert_eq. }
  eapply (wf_move s s' G c core [prev] (core .[ current_thread := current core ]) []); try done.
  - unfold owned, set_field. cbn. rewrite (app3_perm _ _ _ _ _ Hperm), (app3_perm (rq G) (wq G) (pq G) _ _ (reflexivity _)).
    etrans; [apply (Permutation_middle (rq G ++ wq G ++ pq G))|]. apply Permutation_app_head, perm_swap.
  - intros t. rewrite HT. unfold posted. sched. rewrite !lookup_insert_is_Some'.
    split; [intros [<-|[<-|?]]; [by eexists|by eexists|done]|by right; right].
  - intros t Hout. rewrite !elem_of_app in Hout. split.
    + apply Hfr; intros ->; apply Hout; do 3 right; [apply owned_current|apply owned_hand; by left].
    + apply Hnx. rewrite elem_of_cons, !elem_of_app. intros [-> |Hi]; apply Hout; [|tauto].
      do 3 right. apply owned_hand. by left.
  - apply Forall_forall. intros t Hi. destruct (HRW t Hi) as [-> |Hi'].
    + exists (ptcb .[ pc := Off ]). by split_and!.
    + eapply worker_frame; [apply Hqf; rewrite !elem_of_app in *; tauto|].
      by apply (proj1 (Forall_forall _ _) (wf_workers _ _ Hwf)).
  - apply Forall_forall. intros t Hi. destruct (HPP t Hi) as [[-> Hpr]|Hi'].
    + exists (ptcb .[ pc := Off ]). by split_and!.
    + destruct (proj1 (Forall_forall _ _) (wf_retired _ _ Hwf) t Hi') as (y & Hy & Hr). exists y.
      rewrite Hqf by (rewrite !elem_of_app; tauto). done.
  - split. unfold set_field; cbn. exists (tcb .[ pc := Run ]). split_and!; [done|done| |done|].
    + intros E. destruct (Hidle E) as [? _]. split; [done|by left].
    + destruct (decide (current core = idle_thread core)) as [E|E].
      * eexists. rewrite <- E. split; [exact Hm'|]. split; [|done]. cbn. congruence.
      * exists itcb. rewrite Hfr by congruence. split_and!; [done|done|]. intros _. cbn.
        pose proof (Hoff E) as Ho. unfold idle_off in *. rewrite Hpc in Ho. rewrite decide_False in Ho by congruence.
        by rewrite decide_False by done.
Qed.

Lemma post_switch_worker_wf s G c me tcb prev core :
  wf s G → cur s c = Some (me, tcb) → cores s !! c = Some core → hands G !! c = Some [prev] →
  pc tcb = Resume prev → (∃ ptcb, tcbs s !! prev = Some ptcb ∧ is_idle ptcb = false ∧ pc ptcb = Left
    ∧ action ptcb ≠ ActionNone ∧ (action ptcb = ActionStop → prog ptcb = [])) →
  ∃ s', post_switch c me tcb prev s = Some s' ∧ ∃ G', wf s' G' ∧ quiet None s G s' G'.
Proof.
  intros Hwf Hcur Hc Hh Hpc (ptcb & Hp & Hpi & Hpl & Hpa & Hstop).
  destruct (wf_cur _ _ _ _ _ Hwf Hcur) as (core0 & h0 & Hc0 & Hh0 & Hme & Ht & Hok & Hnd & H0 & Hin). simplify_eq.
  assert (prev ≠ 0) as Hp0.
  { intros ->. apply H0. rewrite !elem_of_app. do 3 right. apply owned_hand. by left. }
  assert (current core ≠ prev) as Hmp by congruence.
  assert (∀ l, l ⊆ rq G ++ wq G ++ pq G → prev ∉ l) as Hpn.
  { intros l Hl Hi. apply (queued_not_owned _ _ _ _ _ _ Hnd (Hl _ Hi)), owned_hand. by left. }
  rewrite !(assoc_L (++)) in Hnd. apply NoDup_app in Hnd as (Hnd & _ & _).
  rewrite <- !(assoc_L (++)) in Hnd. apply NoDup_app in Hnd as (_ & HdR & Hnd). apply NoDup_app in Hnd as (_ & HdW & _).
  assert (prev ∉ rq G ∧ prev ∉ wq G ∧ prev ∉ pq G) as (HpR & HpW & HpP)
    by (split_and!; apply Hpn; intros u Hu; rewrite !elem_of_app; tauto).
  assert (∀ R' W' P' s', wf s' (mkPlace R' W' P' (<[c:=[]]> (hands G))) →
    tcbs s' = tcbs (posted c (current core) tcb prev ptcb core s) → shared s' = shared s → epoch (cond s') = epoch (cond s) →
    (∀ t, t ∈ W' → t ∈ wq G ∨ t = prev ∧ action ptcb = ActionWait ∧ epoch (cond s) = cond_epoch ptcb) →
    ∃ G', wf s' G' ∧ quiet None s G s' G') as Hfin.
  { intros R' W' P' s' Hwf' HT Hs He Hw. eexists. split; [exact Hwf'|].
    eapply (quiet_two _ _ _ _ (current core) tcb (tcb .[ pc := Run ]) prev ptcb (ptcb .[ pc := Off ])); try done.
    - sched. split_and!; try done. unfold sleepy. cbn. by intros [|[]].
    - sched. split_and!; try done. unfold sleepy. cbn. by intros [|[]].
    - intros t Hi. destruct (Hw t Hi) as [?|(-> & Ha & E)]; [by left|]. right. exists ptcb.
      split_and!; [done|right; by split|done]. }
  unfold post_switch. rewrite Hc. cbn [mbind option_bind]. rewrite Hp. cbn [mbind option_bind].
  fold (posted c (current core) tcb prev ptcb core s). rewrite Hpi.
  change (readyQueue (posted c (current core) tcb prev ptcb core s)) with (readyQueue s).
  change (reaperQueue (posted c (current core) tcb prev ptcb core s)) with (reaperQueue s).
  change (cond (posted c (current core) tcb prev ptcb core s)) with (cond s).
  change (next (posted c (current core) tcb prev ptcb core s)) with (next s).
  destruct (add_others prev (readyQueue s) (next s) (rq G) (wf_rq _ _ Hwf) Hp0 HpR) as (qr & nr & Har & Hqr & Hor & Hfr).
  assert (wf (posted c (current core) tcb prev ptcb core s .[ readyQueue := qr ] .[ next := nr ])
             (mkPlace (rq G ++ [prev]) (wq G) (pq G) (<[c:=[]]> (hands G)))) as Hready.
  { eapply (posted_wf s _ G c _ tcb prev ptcb core); try done.
    - rewrite <- (assoc_L (++)). cbn. by rewrite <- Permutation_middle.
    - intros t [? Hi]%not_elem_of_cons. apply Hfr; [|done]. intros ?. apply Hi. rewrite elem_of_app. by left.
    - apply Hor; [apply Hwf|]. intros u Hu. split; [|by intros ->]. intros Hur. apply (HdR _ Hur), elem_of_app. by left.
    - apply Hor; [apply Hwf|]. intros u Hu. split; [|by intros ->]. intros Hur. apply (HdR _ Hur), elem_of_app. by right.
    - intros t. rewrite !elem_of_app, list_elem_of_singleton. tauto.
    - intros t. by right. }
  destruct (action ptcb) eqn:Ea; [| | |done].
  - rewrite Har. cbn [mbind option_bind]. eexists. split; [reflexivity|]. eapply Hfin; try done. intros t. by left.
  - destruct (add_others prev (reaperQueue s) (next s) (pq G) (wf_pq _ _ Hwf) Hp0 HpP) as (qp & np & Hap & Hqp & Hop & Hfp).
    rewrite Hap. cbn [mbind option_bind]. eexists. split; [reflexivity|].
    eapply (Hfin (rq G) (wq G) (pq G ++ [prev])); try done; [|intros t; by left].
    eapply (posted_wf s _ G c _ tcb prev ptcb core); try done.
    + rewrite !(assoc_L (++)). by rewrite <- Permutation_cons_append.
    + intros t [? Hi]%not_elem_of_cons. apply Hfp; [|done]. intros ?. apply Hi. rewrite !elem_of_app. tauto.
    + apply Hop; [apply Hwf|]. intros u Hu. split; [|by intros ->]. intros Hup. apply (HdR _ Hu), elem_of_app. by right.
    + apply Hop; [apply Hwf|]. intros u Hu. split; [|by intros ->]. intros Hup. by apply (HdW _ Hu).
    + intros t. by right.
    + intros t. rewrite elem_of_app, list_elem_of_singleton. intros [?| ->]; [by right|]. left. split; [done|by apply Hstop].
  - destruct (Z.eqb_spec (epoch (cond s)) (cond_epoch ptcb)) as [Ee|Ee].
    + destruct (add_others prev (waiting (cond s)) (next s) (wq G) (wf_wq _ _ Hwf) Hp0 HpW) as (qw & nw & Haw & Hqw & How & Hfw).
      rewrite Haw. cbn [mbind option_bind]. eexists. split; [reflexivity|].
      eapply (Hfin (rq G) (wq G ++ [prev]) (pq G)); try done.
      * eapply (posted_wf s _ G c _ tcb prev ptcb core); try done.
        -- symmetry. rewrite <- (assoc_L (++) (wq G)), !(assoc_L (++) (rq G) (wq G)). apply Permutation_middle.
        -- intros t [? Hi]%not_elem_of_cons. apply Hfw; [|done]. intros ?. apply Hi. rewrite !elem_of_app. tauto.
        -- apply How; [apply Hwf|]. intros u Hu. split; [|by intros ->]. intros Huw. apply (HdR _ Hu), elem_of_app. by left.
        -- apply How; [apply Hwf|]. intros u Hu. split; [|by intros ->]. intros Huw. by apply (HdW _ Huw).
        -- intros t. rewrite !elem_of_app, list_elem_of_singleton. tauto.
        -- intros t. by right.
      * intros t. rewrite elem_of_app, list_elem_of_singleton. intros [?| ->]; [by left|]. by right.
    + rewrite Har. cbn [mbind option_bind]. eexists. split; [reflexivity|]. eapply Hfin; try done. intros t. by left.
Qed.

(** ** Notifications *)

(** The core of a running thread holds nothing. *)
Lemma bare_core s G c me tcb :
  wf s G → cur s c = Some (me, tcb) → bare (pc tcb) →
  ∃ core, cores s !! c = Some core ∧ current core = me ∧ hands G !! c = Some [] ∧ tcbs s !! me = Some tcb.
Proof.
  intros Hwf Hcur Hb.
  destruct (wf_cur _ _ _ _ _ Hwf Hcur) as (core & h & Hc & Hh & Hme & Ht & [(x & Hx & Hhand & _)] & Hnd & H0 & Hin).
  exists core. split_and!; [done|done| |done]. subst me. assert (x = tcb) as -> by congruence.
  apply (bare_hand _ _ _ (pc tcb)) in Hhand; [by subst h|done|]. rewrite !(assoc_L (++)) in H0. by apply hand_null in H0.
Qed.

(** The condition after a notification. *)
Definition notified (me : Z) (tcb : TCB Op) (w : Queue) (s : Sys St Op) : Sys St Op :=
  set_tcb me tcb (s .[ cond := mkCondition w (u64 (epoch (cond s) + 1)) ]).

Lemma notify_one_wf s G c me tcb tcb1 :
  wf s G → cur s c = Some (me, tcb) → bare (pc tcb) → is_idle tcb = false → is_idle tcb1 = false →
  ∃ w h, notify_one me tcb1 s = Some (notified me (tcb1 .[ pc := WakeOne (default 0 (head (wq G))) ]) w s)
    ∧ wf (notified me (tcb1 .[ pc := WakeOne (default 0 (head (wq G))) ]) w s)
         (mkPlace (rq G) (tail (wq G)) (pq G) (<[c := h]> (hands G))).
Proof.
  intros Hwf Hcur Hb Hi Hi1. destruct (bare_core _ _ _ _ _ Hwf Hcur Hb) as (core & Hc & <- & Hh & Ht).
  destruct (remove_holds _ _ _ (wf_wq _ _ Hwf)) as (w & Hr & Hw). unfold notify_one. rewrite Hr. cbn [mbind option_bind].
  exists w, (option_list (head (wq G))). split; [done|].
  eapply (wf_keep s _ G c _ tcb (tcb1 .[ pc := WakeOne (default 0 (head (wq G))) ]) core []); try done.
  - by apply bare_not_switching.
  - intros [prev E]. done.
  - rewrite Hi. exact Hi1.
  - congruence.
  - rewrite app_nil_r. f_equiv. destruct (wq G) as [|t W]; cbn; [by rewrite app_nil_r|].
    rewrite (assoc_L (++)). by rewrite <- Permutation_cons_append.
  - apply Hwf.
  - apply Hwf.
  - pose proof (wf_workers _ _ Hwf) as Hwk. apply Forall_app in Hwk as [? Hwk]. apply Forall_app. split; [done|].
    destruct (wq G) as [|t W]; [done|]. by apply Forall_cons in Hwk as [_ ?].
  - apply Hwf.
  - unfold set_field. cbn. pose proof (wf_workers _ _ Hwf) as Hwk. apply Forall_app in Hwk as [_ Hwk].
    destruct (wq G) as [|t W]; cbn; [by left|]. right. by apply Forall_cons in Hwk as [? _].
Qed.

Lemma notify_all_wf s G c me tcb tcb1 :
  wf s G → cur s c = Some (me, tcb) → bare (pc tcb) → is_idle tcb = false → is_idle tcb1 = false →
  ∃ w, notify_all me tcb1 s = Some (notified me (tcb1 .[ pc := WakeAll (first (waiting (cond s))) ]) w s)
    ∧ wf (notified me (tcb1 .[ pc := WakeAll (first (waiting (cond s))) ]) w s)
         (mkPlace (rq G) [] (pq G) (<[c := wq G]> (hands G))).
Proof.
  intros Hwf Hcur Hb Hi Hi1. destruct (bare_core _ _ _ _ _ Hwf Hcur Hb) as (core & Hc & <- & Hh & Ht).
  destruct (remove_all_ok _ _ _ (wf_wq _ _ Hwf)) as [Hch Hw]. unfold notify_all. cbn [remove_all] in *.
  exists (mkQueue 0 0 0). split; [done|].
  eapply (wf_keep s _ G c _ tcb (tcb1 .[ pc := WakeAll (first (waiting (cond s))) ]) core [] (wq G)); try done.
  - by apply bare_not_switching.
  - intros [prev E]. done.
  - rewrite Hi. exact Hi1.
  - congruence.
  - rewrite app_nil_r. cbn. by rewrite (Permutation_app_comm (pq G)).
  - apply Hwf.
  - apply Hwf.
  - pose proof (wf_workers _ _ Hwf) as Hwk. apply Forall_app in Hwk as [? Hwk]. by apply Forall_app.
  - apply Hwf.
  - unfold set_field. cbn. split; [apply Hwf|]. pose proof (wf_workers _ _ Hwf) as Hwk. by apply Forall_app in Hwk as [_ ?].
Qed.

(** Putting a thread that the core holds into the ready queue. *)
Lemma wake_wf s G c me tcb tcb' t h core q nx :
  wf s G → cur s c = Some (me, tcb) → cores s !! c = Some core → hands G !! c = Some (t :: h) → worker (tcbs s) t →
  ¬ switching (pc tcb) → ¬ switching (pc tcb') → is_idle tcb' = is_idle tcb → is_idle tcb = false →
  add t (readyQueue s) (next s) = Some (q, nx) →
  (∀ nx', (∀ u, u ∈ h → nx' !! u = next s !! u) → in_hand (tcbs s) nx' (idle_thread core) (pc tcb') h) →
  wf (set_tcb me tcb' (s .[ readyQueue := q ] .[ next := nx ])) (mkPlace (rq G ++ [t]) (wq G) (pq G) (<[c := h]> (hands G))).
Proof.
  intros Hwf Hcur Hc Hh Hwk Hp Hp' Hi Hni Hadd Hhand.
  destruct (wf_cur _ _ _ _ _ Hwf Hcur) as (core0 & h0 & Hc0 & Hh0 & Hme & Ht & _ & Hnd & H0 & _). simplify_eq.
  assert (t ≠ 0) as Ht0 by (intros ->; apply H0; rewrite !elem_of_app; do 3 right; apply owned_hand; by left).
  assert (t ∉ rq G ++ wq G ++ pq G) as Htn.
  { intros Hi'. apply (queued_not_owned _ _ _ _ _ _ Hnd Hi'), owned_hand. by left. }
  assert (NoDup (rq G ++ wq G ++ pq G ++ t :: h)) as Hnd'.
  { unfold owned in Hnd. rewrite !(assoc_L (++)) in Hnd |- *. rewrite <- Permutation_middle in Hnd.
    apply NoDup_cons in Hnd as [_ Hnd]. by rewrite (assoc_L (++)) in Hnd; apply NoDup_app in Hnd as [? _]. }
  rewrite !elem_of_app in Htn.
  destruct (add_others t (readyQueue s) (next s) (rq G) (wf_rq _ _ Hwf) Ht0) as (q' & nx' & Ha & Hq & Ho & Hf); [tauto|].
  rewrite Hadd in Ha. simplify_eq. apply NoDup_app in Hnd' as (_ & HdR & Hnd').
  apply NoDup_app in Hnd' as (_ & HdW & Hnd'). apply NoDup_app in Hnd' as (_ & HdP & Hnh).
  eapply (wf_keep s _ G c _ tcb tcb' core (t :: h) h); try done.
  - congruence.
  - rewrite <- (assoc_L (++)). cbn. rewrite <- Permutation_middle.
    rewrite !(assoc_L (++) (wq G)), <- Permutation_middle. by rewrite <- Permutation_middle.
  - intros u Hu. rewrite !elem_of_app in Hu. unfold set_tcb, set_field. cbn. apply Hf; [tauto|]. intros ->. apply Hu. do 3 right. by left.
  - apply Ho; [apply Hwf|]. intros u Hu. split; [|intros ->; tauto]. intros Hur. apply (HdR _ Hur), elem_of_app. by left.
  - apply Ho; [apply Hwf|]. intros u Hu. split; [|intros ->; tauto]. intros Hur. apply (HdR _ Hur). rewrite !elem_of_app. tauto.
  - rewrite <- (assoc_L (++)). pose proof (wf_workers _ _ Hwf) as Hw. apply Forall_app in Hw as [? ?].
    apply Forall_app. split; [done|]. apply Forall_app. split; [by apply Forall_singleton|done].
  - apply Hwf.
  - apply Hhand. intros u Hu. unfold set_tcb, set_field. cbn. apply Hf.
    + intros Hur. apply (HdR _ Hur). rewrite !elem_of_app. right. right. by right.
    + intros ->. by apply NoDup_cons in Hnh as [? _].
Qed.

(** ** Threads that end and threads that start *)

Lemma quiet_refl s G : quiet None s G s G.
Proof.
  split; [done|done| | |].
  - intros t tcb Ht. left. by exists tcb.
  - intros t tcb Ht _. by eexists.
  - intros t Ht. by left.
Qed.

Lemma reap_wf s G c me tcb :
  wf s G → cur s c = Some (me, tcb) →
  ∃ s', reap s = Some s' ∧ ∃ G', wf s' G' ∧ quiet None s G s' G'.
Proof.
  intros Hwf Hcur.
  destruct (wf_cur _ _ _ _ _ Hwf Hcur) as (core & h & Hc & Hh & Hme & Ht & Hok & Hnd & H0 & Hin).
  destruct (remove_holds _ _ _ (wf_pq _ _ Hwf)) as (q & Hr & Hq). unfold reap. rewrite Hr. cbn [mbind option_bind].
  pose proof (wf_retired _ _ Hwf) as Hret. destruct (pq G) as [|t P] eqn:EP; cbn [head tail from_option id] in *.
  - eexists. split; [reflexivity|]. exists G. split; [|by destruct (quiet_refl s G)].
    destruct Hwf. split; try done. by rewrite EP.
  - apply Forall_cons in Hret as [(x & Hx & Hxi & Hxp & Hxr) Hret].
    assert (t ∈ rq G ++ wq G ++ (t :: P) ++ owned core h) as Htin.
    { rewrite !elem_of_app. right. right. left. by left. }
    assert (t ≠ 0) as Ht0 by (intros ->; done). cbn. rewrite (proj2 (Z.eqb_neq t 0) Ht0). rewrite Hx. cbn [mbind option_bind].
    eexists. split; [reflexivity|]. exists (mkPlace (rq G) (wq G) P (<[c := h]> (hands G))).
    assert (t :: rq G ++ wq G ++ P ++ owned core h ≡ₚ rq G ++ wq G ++ (t :: P) ++ owned core h) as Hperm.
    { cbn. rewrite !(assoc_L (++) (rq G)). apply Permutation_middle. }
    rewrite <- Hperm in Hnd, H0. apply NoDup_cons in Hnd as [Htn Hnd]. apply not_elem_of_cons in H0 as [_ H0].
    assert (∀ u, u ∈ rq G ++ wq G ++ P ++ owned core h → delete t (tcbs s) !! u = tcbs s !! u) as HT
      by (intros u Hu; apply lookup_delete_ne; by intros ->).
    assert (∀ u, u ∈ rq G ++ wq G ++ P ++ owned core h → delete t (next s) !! u = next s !! u) as HN
      by (intros u Hu; apply lookup_delete_ne; by intros ->).
    assert (∀ q l, l ⊆ rq G ++ wq G ++ P ++ owned core h → holds q (next s) l → holds q (delete t (next s)) l) as HQ.
    { intros q' l Hl. apply holds_frame. intros u Hu. by apply HN, Hl. }
    split.
    + eapply (wf_update s _ G c core h core h); try done.
      * symmetry. by apply list_insert_id.
      * intros u. rewrite EP. unfold set_field. cbn [tcbs]. rewrite <- Hperm, lookup_delete_is_Some, elem_of_cons. split.
        -- intros Hu. split; [|by left; right]. split; [by intros ->|]. apply Hin. rewrite <- Hperm. by right.
        -- intros [[Hne Hs] [[->|Hu]|E]]; [done|done|]. rewrite E in Hs. by destruct Hs.
      * intros u Hs Hout. rewrite EP in Hout. unfold set_field; cbn [tcbs next].
        split; apply lookup_delete_ne; by intros ->.
      * apply HQ; [|apply Hwf]. intros u Hu. rewrite !elem_of_app. tauto.
      * apply HQ; [|apply Hwf]. intros u Hu. rewrite !elem_of_app. tauto.
      * apply HQ; [|done]. intros u Hu. rewrite !elem_of_app. tauto.
      * eapply workers_frame; [|apply Hwf]. intros u Hu. apply HT. rewrite !elem_of_app in *. tauto.
      * eapply retired_frame; [|exact Hret]. intros u Hu. apply HT. rewrite !elem_of_app in *. tauto.
      * eapply core_ok_frame; [|exact Hok]. intros u Hu. split; [apply HT|apply HN]; rewrite !elem_of_app; tauto.
    + split; [done|done| | |].
      * intros u y. unfold set_field. cbn [tcbs]. intros (Hne & Hu)%lookup_delete_Some. left. by exists y.
      * intros u y Hu Hy. unfold set_field. cbn [tcbs]. apply lookup_delete_is_Some.
        split; [intros <-; congruence|by eexists].
      * intros u Hu. by left.
Qed.

Lemma make_thread_wf s G c me tcb t p act ep :
  wf s G → cur s c = Some (me, tcb) → t ≠ 0 → tcbs s !! t = None →
  ∃ s', make_thread t p act ep s = Some s' ∧ ∃ G', wf s' G' ∧ quiet (Some (t, p)) s G s' G'.
Proof.
  intros Hwf Hcur Ht0 Hfresh.
  destruct (wf_cur _ _ _ _ _ Hwf Hcur) as (core & h & Hc & Hh & Hme & Ht & Hok & Hnd & H0 & Hin).
  assert (t ∉ rq G ++ wq G ++ pq G ++ owned core h) as Htn by (intros Hi; destruct (Hin _ Hi); congruence).
  assert (t ∉ rq G ∧ t ∉ wq G ∧ t ∉ pq G ∧ t ∉ owned core h) as (HtR & HtW & HtP & HtO) by (rewrite !elem_of_app in Htn; tauto).
  unfold make_thread. rewrite decide_False by (rewrite Hfresh; intros [?|[? ?]]; done).
  destruct (add_others t (readyQueue s) (next s) (rq G) (wf_rq _ _ Hwf) Ht0 HtR) as (q & nx & Ha & Hq & Ho & Hf).
  cbn zeta. match goal with |- context [add t (readyQueue ?x) (next ?x)] =>
    change (readyQueue x) with (readyQueue s); change (next x) with (next s) end. rewrite Ha. cbn [mbind option_bind].
  eexists. split; [reflexivity|]. exists (mkPlace (rq G ++ [t]) (wq G) (pq G) (<[c := h]> (hands G))).
  pose proof Hnd as Hnd'. apply NoDup_app in Hnd' as (_ & HdR & _).
  assert (∀ u, u ≠ t → <[t := mkTCB act ep false Off p []]> (tcbs s) !! u = tcbs s !! u) as HT
    by (intros u Hu; by apply lookup_insert_ne).
  assert ((rq G ++ [t]) ++ wq G ++ pq G ++ owned core h ≡ₚ t :: rq G ++ wq G ++ pq G ++ owned core h) as Hperm.
  { rewrite <- (assoc_L (++)). cbn. by rewrite <- Permutation_middle. }
  split.
  - eapply (wf_update s _ G c core h core h); try done.
    + symmetry. by apply list_insert_id.
    + rewrite Hperm. by apply NoDup_cons.
    + rewrite Hperm. by apply not_elem_of_cons.
    + intros u. rewrite Hperm, elem_of_cons. unfold set_tcb, set_field. cbn [tcbs]. rewrite lookup_insert_is_Some'. split.
      * intros [->|Hu]; [by split; [left|right]|]. split; [right; by apply Hin|by left].
      * intros [[<-|[x Hx]] [Hu|E]]; [by right|by left|by right|congruence].
    + intros u Hs Hout. unfold set_tcb, set_field. cbn [tcbs next]. split; [apply HT; intros ->; destruct Hs; congruence|].
      apply Hf; [rewrite !elem_of_app in Hout; tauto|]. intros ->. destruct Hs; congruence.
    + apply Ho; [apply Hwf|]. intros u Hu. split; [|by intros ->]. intros Hur. apply (HdR _ Hur). rewrite !elem_of_app. tauto.
    + apply Ho; [apply Hwf|]. intros u Hu. split; [|by intros ->]. intros Hur. apply (HdR _ Hur). rewrite !elem_of_app. tauto.
    + unfold set_tcb, set_field. cbn [tcbs]. pose proof (wf_workers _ _ Hwf) as Hw. rewrite <- (assoc_L (++)).
      apply Forall_app in Hw as [Hw1 Hw2]. apply Forall_app. split; [|apply Forall_cons; split].
      * eapply workers_frame; [|exact Hw1]. intros u Hu. apply HT. by intros ->.
      * exists (mkTCB act ep false Off p []). rewrite lookup_insert_eq. done.
      * eapply workers_frame; [|exact Hw2]. intros u Hu. apply HT. by intros ->.
    + eapply retired_frame; [|apply Hwf]. intros u Hu. apply HT. by intros ->.
    + eapply core_ok_frame; [|exact Hok]. intros u Hu. split; [apply HT; by intros ->|].
      apply Hf; [|by intros ->]. intros Hur. apply (HdR _ Hur). rewrite !elem_of_app. tauto.
  - split; [done|done| | |].
    + intros u y. unfold set_tcb, set_field. cbn [tcbs]. intros [[<- <-]|[Hne Hu]]%lookup_insert_Some.
      * right. split; [done|]. by exists p.
      * left. by exists y.
    + intros u y Hu _. unfold set_tcb, set_field. cbn [tcbs]. apply lookup_insert_is_Some'. right. by eexists.
    + intros u Hu. by left.
Qed.

(** ** Operations of the monitor *)

(** What an operation with the outcome [oc] changes. *)
Definition operated (me : Z) (tcb : TCB Op) (rest : list Op) s (G : Place) s' (G' : Place) (oc : Outcome St Op) : Prop :=
  match oc with
  | Done st r n =>
      shared s' = st
      ∧ (∃ p, tcbs s' = <[me := tcb .[ prog := rest ] .[ out := out tcb ++ [r] ] .[ pc := p ]]> (tcbs s) ∧ p ≠ InWait ∧ p ≠ Left)
      ∧ match n with
        | NoNotify => epoch (cond s') = epoch (cond s) ∧ wq G' = wq G
        | NotifyOne => epoch (cond s') = u64 (epoch (cond s) + 1) ∧ wq G' = tail (wq G)
        | NotifyAll => epoch (cond s') = u64 (epoch (cond s) + 1) ∧ wq G' = []
        end
  | Blocks st o =>
      shared s' = st ∧ epoch (cond s') = epoch (cond s) ∧ wq G' = wq G
      ∧ tcbs s' = <[me := tcb .[ prog := o :: rest ] .[ cond_epoch := epoch (cond s) ] .[ pc := InWait ]]> (tcbs s)
  | Continues st o =>
      shared s' = st ∧ epoch (cond s') = epoch (cond s) ∧ wq G' = wq G
      ∧ tcbs s' = <[me := tcb .[ prog := o :: rest ]]> (tcbs s)
  end.

Lemma wf_shared s G st : wf s G → wf (s .[ shared := st ]) G.
Proof. by intros []. Qed.

Lemma operate_wf s G c me tcb o rest oc :
  wf s G → cur s c = Some (me, tcb) → pc tcb = Run → is_idle tcb = false → run o (shared s) = Some oc →
  ∃ s', operate me tcb o rest s = Some s' ∧ ∃ G', wf s' G' ∧ operated me tcb rest s G s' G' oc.
Proof.
  intros Hwf Hcur Hpc Hi Hoc. unfold operate. rewrite Hoc. cbn [mbind option_bind].
  assert (bare (pc tcb)) as Hb by (left; done).
  destruct oc as [st r n|st o'|st o'].
  - destruct n.
    + eexists. split; [reflexivity|]. exists G. split; [|split_and!; try done; exists Run; split; [sched; by rewrite Hpc|done]].
      eapply (wf_local (s .[ shared := st ]) _ G c me tcb (tcb .[ prog := rest ] .[ out := out tcb ++ [r] ]));
        try done; by apply wf_shared.
    + destruct (notify_one_wf (s .[ shared := st ]) G c me tcb (tcb .[ prog := rest ] .[ out := out tcb ++ [r] ]))
        as (w & h & Hn & Hw); [by apply wf_shared|done|done|done|exact Hi|].
      eexists. split; [exact Hn|]. eexists. split; [exact Hw|]. split_and!; try done. by eexists.
    + destruct (notify_all_wf (s .[ shared := st ]) G c me tcb (tcb .[ prog := rest ] .[ out := out tcb ++ [r] ]))
        as (w & Hn & Hw); [by apply wf_shared|done|done|done|exact Hi|].
      eexists. split; [exact Hn|]. eexists. split; [exact Hw|]. split_and!; try done. by eexists.
  - unfold wait_begin. cbn [is_idle]. unfold set_field at 1. cbn [is_idle]. rewrite Hi.
    eexists. split; [reflexivity|]. exists G. split; [|by split_and!].
    eapply (wf_local (s .[ shared := st ]) _ G c me tcb (tcb .[ prog := o' :: rest ] .[ cond_epoch := epoch (cond s) ] .[ pc := InWait ]));
      try done; [by apply wf_shared|by right; left|congruence].
  - eexists. split; [reflexivity|]. exists G. split; [|by split_and!].
    eapply (wf_local (s .[ shared := st ]) _ G c me tcb (tcb .[ prog := o' :: rest ])); try done; by apply wf_shared.
Qed.

(** ** Every step *)

Definition created (ch : Choice Op) : option (Z * list Op) :=
  match ch with Spawn t p _ _ => Some (t, p) | _ => None end.

Inductive effect (c : nat) (ch : Choice Op) s (G : Place) s' (G' : Place) : Prop :=
  | effect_quiet : quiet (created ch) s G s' G' → effect c ch s G s' G'
  | effect_op me tcb o rest oc :
      cur s c = Some (me, tcb) → pc tcb = Run → is_idle tcb = false → prog tcb = o :: rest →
      run o (shared s) = Some oc → operated me tcb rest s G s' G' oc → effect c ch s G s' G'.

(** The step the thread at [pc tcb] may take; a step of the monitor may fail an
    assertion of the monitor. *)
Definition enabled s (tcb : TCB Op) (ch : Choice Op) : Prop :=
  match ch with
  | Go => pc tcb = Run → is_idle tcb = false → ∀ o rest, prog tcb = o :: rest → run o (shared s) ≠ None
  | Yield => pc tcb = Run ∧ is_idle tcb = false
  | Reap => pc tcb = Run
  | Spawn t _ _ _ => pc tcb = Run ∧ is_idle tcb = false ∧ t ≠ 0 ∧ tcbs s !! t = None
  end.

(** A step on the ready queue by a thread at [Run] or [InWait]. *)
Lemma ready_wf s G :
  wf s G → ∃ q, remove (readyQueue s) (next s) = Some (default 0 (head (rq G)), q) ∧ holds q (next s) (tail (rq G))
    ∧ (rq G = [] → wf (s .[ readyQueue := q ]) G)
    ∧ (∀ n R, rq G = n :: R → n ≠ 0 ∧ ∃ x, tcbs s !! n = Some x ∧ is_idle x = false ∧ pc x = Off).
Proof.
  intros Hwf. destruct (remove_holds _ _ _ (wf_rq _ _ Hwf)) as (q & Hr & Hq). exists q. split_and!; [done|done| |].
  - intros E. rewrite E in Hq. destruct Hwf. split; try done. by rewrite E.
  - intros n R E. split.
    + intros ->. apply (wf_null _ _ Hwf). unfold all_threads. rewrite E. by left.
    + pose proof (wf_workers _ _ Hwf) as Hw. rewrite E in Hw. by apply Forall_cons in Hw as [? _].
Qed.

End Steps.
