(* ===== verification/Schedule.v ===== *)
(** * Schedules of the kernel

    What holds after every schedule of a machine that starts with its idle
    threads and some new threads: the scheduler does not fail and never loses
    or duplicates a thread; and, for a monitor that notifies when it must, no
    thread sleeps while the condition it waits for holds. *)

From stdpp Require Import gmap.
From S2P Require Import Prelude Queue Sched SchedInv SchedStep.

Section Schedule.
Context {St Op : Type} `{Monitor St Op}.
Implicit Types (s : Sys St Op) (tcb : TCB Op) (ch : Choice Op).

(** ** One step *)

Lemma yield_wf s G c me tcb :
  wf s G → cur s c = Some (me, tcb) → pc tcb = Run → is_idle tcb = false →
  ∃ s', yield c me tcb s = Some s' ∧ ∃ G', wf s' G' ∧ quiet None s G s' G'.
Proof.
  intros Hwf Hcur Hpc Hi. destruct (ready_wf s G Hwf) as (q & Hr & Hq & Hnil & Hcons).
  destruct (wf_cur _ _ _ _ _ Hwf Hcur) as (core & h & Hc & Hh & Hme & Ht & _).
  unfold yield. rewrite Hr. cbn [mbind option_bind]. destruct (rq G) as [|n R] eqn:ER; cbn [head tail from_option id] in *.
  - eexists. split; [reflexivity|]. exists G. split; [by apply Hnil|]. by destruct (quiet_refl s G).
  - destruct (Hcons n R eq_refl) as (Hn0 & x & Hx & Hxi & Hxp). cbn. rewrite (proj2 (Z.eqb_neq n 0) Hn0).
    destruct (Z.eqb_spec me n) as [->|_]; [congruence|].
    eapply (switch_ready_wf s G c me tcb ActionReady n R q core h); try done; [by left|by rewrite Hi].
Qed.

Lemma stop_wf s G c me tcb :
  wf s G → cur s c = Some (me, tcb) → pc tcb = Run → is_idle tcb = false → prog tcb = [] →
  ∃ s', stop c me tcb s = Some s' ∧ ∃ G', wf s' G' ∧ quiet None s G s' G'.
Proof.
  intros Hwf Hcur Hpc Hi Hprog. destruct (ready_wf s G Hwf) as (q & Hr & Hq & _ & Hcons).
  destruct (wf_cur _ _ _ _ _ Hwf Hcur) as (core & h & Hc & Hh & Hme & Ht & _).
  unfold stop. rewrite Hi, Hr. cbn [mbind option_bind]. destruct (rq G) as [|n R] eqn:ER; cbn [head tail from_option id] in *.
  - cbn. change (cores (s .[ readyQueue := q ])) with (cores s). rewrite Hc. cbn [mbind option_bind].
    by eapply (switch_idle_wf s G c me tcb q core h).
  - destruct (Hcons n R eq_refl) as (Hn0 & x & Hx & Hxi & Hxp). rewrite (proj2 (Z.eqb_neq n 0) Hn0).
    change (tcbs (s .[ readyQueue := q ])) with (tcbs s). rewrite Hx. cbn [mbind option_bind]. rewrite Hxi. cbn [mbind option_bind].
    eapply (switch_ready_wf s G c me tcb ActionStop n R q core h); try done; [by left|by rewrite Hi].
Qed.

Lemma event_loop_wf s G c me tcb :
  wf s G → cur s c = Some (me, tcb) → pc tcb = Run → is_idle tcb = true →
  ∃ s', event_loop c me tcb s = Some s' ∧ ∃ G', wf s' G' ∧ quiet None s G s' G'.
Proof.
  intros Hwf Hcur Hpc Hi. destruct (ready_wf s G Hwf) as (q & Hr & Hq & Hnil & Hcons).
  destruct (wf_cur _ _ _ _ _ Hwf Hcur) as (core & h & Hc & Hh & Hme & Ht & _).
  unfold event_loop. rewrite Hi, Hr. cbn [negb mbind option_bind]. destruct (rq G) as [|n R] eqn:ER; cbn [head tail from_option id] in *.
  - eexists. split; [reflexivity|]. exists G. split; [by apply Hnil|]. by destruct (quiet_refl s G).
  - destruct (Hcons n R eq_refl) as (Hn0 & x & Hx & Hxi & Hxp). rewrite (proj2 (Z.eqb_neq n 0) Hn0). cbn [negb].
    change (tcbs (s .[ readyQueue := q ])) with (tcbs s). rewrite Hx. cbn [mbind option_bind]. rewrite Hxi.
    eapply (switch_ready_wf s G c me tcb ActionNone n R q core h); try done; [by left|by rewrite Hi].
Qed.

Lemma wait_switch_wf s G c me tcb :
  wf s G → cur s c = Some (me, tcb) → pc tcb = InWait → is_idle tcb = false →
  ∃ s', wait_switch c me tcb s = Some s' ∧ ∃ G', wf s' G' ∧ quiet None s G s' G'.
Proof.
  intros Hwf Hcur Hpc Hi. destruct (ready_wf s G Hwf) as (q & Hr & Hq & Hnil & Hcons).
  destruct (wf_cur _ _ _ _ _ Hwf Hcur) as (core & h & Hc & Hh & Hme & Ht & _).
  unfold wait_switch. rewrite Hr. cbn [mbind option_bind]. destruct (rq G) as [|n R] eqn:ER; cbn [head tail from_option id] in *.
  - eexists. split; [reflexivity|]. exists G. split.
    + eapply (wf_local (s .[ readyQueue := q ]) _ G c me tcb (tcb .[ pc := Run ])); try done; [by apply Hnil|by right; left|by left].
    + eapply (quiet_one _ _ _ _ me tcb (tcb .[ pc := Run ])); try done. split_and!; try done.
      intros Hs. by apply not_sleepy_run in Hs.
  - destruct (Hcons n R eq_refl) as (Hn0 & x & Hx & Hxi & Hxp). rewrite (proj2 (Z.eqb_neq n 0) Hn0).
    eapply (switch_ready_wf s G c me tcb ActionWait n R q core h); try done; [by right|by rewrite Hi].
Qed.

Lemma post_switch_wf s G c me tcb prev :
  wf s G → cur s c = Some (me, tcb) → pc tcb = Resume prev →
  ∃ s', post_switch c me tcb prev s = Some s' ∧ ∃ G', wf s' G' ∧ quiet None s G s' G'.
Proof.
  intros Hwf Hcur Hpc. destruct (wf_cur _ _ _ _ _ Hwf Hcur) as (core & h & Hc & Hh & Hme & Ht & [(x & Hx & Hhand & _)] & _).
  subst me. assert (x = tcb) as -> by congruence. rewrite Hpc in Hhand. cbn in Hhand.
  destruct Hhand as [[-> ->]|(-> & Hp)]; [by eapply post_switch_idle_wf|by eapply post_switch_worker_wf].
Qed.

Lemma wake_one_wf s G c me tcb t :
  wf s G → cur s c = Some (me, tcb) → pc tcb = WakeOne t →
  ∃ s', wake_one me tcb t s = Some s' ∧ ∃ G', wf s' G' ∧ quiet None s G s' G'.
Proof.
  intros Hwf Hcur Hpc. destruct (wf_cur _ _ _ _ _ Hwf Hcur) as (core & h & Hc & Hh & Hme & Ht & [(x & Hx & Hhand & Hid & _)] & Hnd & H0 & _).
  subst me. assert (x = tcb) as -> by congruence. rewrite Hpc in Hhand, Hid. cbn in Hhand.
  assert (is_idle tcb = false) as Hi.
  { destruct (is_idle tcb) eqn:E; [|done]. destruct (Hid eq_refl) as [_ [?|(? & ? & _)]]; done. }
  unfold wake_one. destruct Hhand as [[-> ->]|(-> & Hw)].
  - eexists. split; [reflexivity|]. exists G. split.
    + eapply (wf_local s _ G c _ tcb (tcb .[ pc := Run ])); try done; [by right; right; left|by left].
    + eapply (quiet_one _ _ _ _ (current core) tcb (tcb .[ pc := Run ])); try done. split_and!; try done.
      intros Hs. by apply not_sleepy_run in Hs.
  - assert (t ≠ 0) as Ht0 by (intros ->; apply H0; rewrite !elem_of_app; do 3 right; apply owned_hand; by left).
    assert (t ∉ rq G) as HtR.
    { intros Hi'. eapply (queued_not_owned _ _ _ _ _ t Hnd); [apply elem_of_app; by left|]. apply owned_hand. by left. }
    rewrite (proj2 (Z.eqb_neq t 0) Ht0). cbn [negb].
    destruct (add_ok t (readyQueue s) (next s) (rq G) (wf_rq _ _ Hwf) Ht0 HtR) as (q & nx & Ha & _).
    match goal with |- context [add t (readyQueue ?x) (next ?x)] =>
      change (readyQueue x) with (readyQueue s); change (next x) with (next s) end.
    rewrite Ha. cbn [mbind option_bind]. eexists. split; [reflexivity|]. eexists. split.
    + eapply (wake_wf s G c _ tcb (tcb .[ pc := Run ]) t [] core q nx); try done.
      * rewrite Hpc. by intros [].
      * by intros [].
    + eapply (quiet_one _ _ _ _ (current core) tcb (tcb .[ pc := Run ])); try done. split_and!; try done.
      intros Hs. by apply not_sleepy_run in Hs.
Qed.

Lemma wake_all_wf s G c me tcb p :
  wf s G → cur s c = Some (me, tcb) → pc tcb = WakeAll p →
  ∃ s', wake_all me tcb p s = Some s' ∧ ∃ G', wf s' G' ∧ quiet None s G s' G'.
Proof.
  intros Hwf Hcur Hpc. destruct (wf_cur _ _ _ _ _ Hwf Hcur) as (core & h & Hc & Hh & Hme & Ht & [(x & Hx & Hhand & Hid & _)] & Hnd & H0 & _).
  subst me. assert (x = tcb) as -> by congruence. rewrite Hpc in Hhand, Hid. cbn in Hhand.
  assert (is_idle tcb = false) as Hi.
  { destruct (is_idle tcb) eqn:E; [|done]. destruct (Hid eq_refl) as [_ [?|(? & ? & _)]]; done. }
  unfold wake_all. destruct Hhand as [Hch Hw]. destruct h as [|t h].
  - cbn in Hch. subst p. eexists. split; [reflexivity|]. exists G. split.
    + eapply (wf_local s _ G c _ tcb (tcb .[ pc := Run ])); try done; [by right; right; right|by left].
    + eapply (quiet_one _ _ _ _ (current core) tcb (tcb .[ pc := Run ])); try done. split_and!; try done.
      intros Hs. by apply not_sleepy_run in Hs.
  - destruct Hch as (-> & Ht0 & n & Hn & Hch). apply Forall_cons in Hw as [Hw1 Hw].
    rewrite (proj2 (Z.eqb_neq t 0) Ht0). cbn [negb]. unfold get_next. rewrite (proj2 (Z.eqb_neq t 0) Ht0), Hn.
    cbn [mbind option_bind]. assert (t ∉ rq G) as HtR.
    { intros Hi'. eapply (queued_not_owned _ _ _ _ _ t Hnd); [apply elem_of_app; by left|]. apply owned_hand. by left. }
    destruct (add_ok t (readyQueue s) (next s) (rq G) (wf_rq _ _ Hwf) Ht0 HtR) as (q & nx & Ha & _).
    rewrite Ha. cbn [mbind option_bind]. eexists. split; [reflexivity|]. eexists. split.
    + eapply (wake_wf s G c _ tcb (tcb .[ pc := WakeAll n ]) t h core q nx); try done.
      * rewrite Hpc. by intros [].
      * by intros [].
      * intros nx' Hf. cbn. split; [by eapply chain_frame|done].
    + eapply (quiet_one _ _ _ _ (current core) tcb (tcb .[ pc := WakeAll n ])); try done. split_and!; try done.
      unfold sleepy, set_field. cbn. by intros [|[]].
Qed.

(** Every enabled step succeeds and keeps the invariant. *)
Lemma step_ok s G c me tcb ch :
  wf s G → halted s = false → cur s c = Some (me, tcb) → enabled s tcb ch →
  ∃ s', step c ch s = Some s' ∧ ∃ G', wf s' G' ∧ effect c ch s G s' G'.
Proof.
  intros Hwf Hh Hcur Hen. unfold step. rewrite Hh, Hcur. cbn [mbind option_bind].
  assert (∀ r, (∃ s', r = Some s' ∧ ∃ G', wf s' G' ∧ quiet (created ch) s G s' G') →
    ∃ s', r = Some s' ∧ ∃ G', wf s' G' ∧ effect c ch s G s' G') as Hq.
  { intros r (s' & Hr & G' & Hw & Hqt). exists s'. split; [done|]. exists G'. split; [done|]. by apply effect_quiet. }
  destruct ch as [| | |t p act ep]; cbn [enabled created] in *.
  - destruct (pc tcb) as [| |t|p|prev| |] eqn:Hpc.
    + destruct (is_idle tcb) eqn:Hi; [by apply Hq, event_loop_wf|].
      destruct (prog tcb) as [|o rest] eqn:Hprog; [by apply Hq, stop_wf|].
      destruct (run o (shared s)) as [oc|] eqn:Hoc; [|by destruct (Hen eq_refl eq_refl o rest eq_refl)].
      destruct (operate_wf s G c me tcb o rest oc) as (s' & Hs & G' & Hw & Heff); try done.
      exists s'. split; [done|]. exists G'. split; [done|]. by eapply effect_op.
    + apply Hq. apply wait_switch_wf; try done.
      destruct (wf_cur _ _ _ _ _ Hwf Hcur) as (core & h & Hc & Hhd & Hme & Ht & [(x & Hx & _ & Hid & _)] & _).
      subst me. assert (x = tcb) as -> by congruence. destruct (is_idle tcb) eqn:E; [|done].
      destruct (Hid eq_refl) as [_ [?|(? & ? & _)]]; congruence.
    + by apply Hq, (wake_one_wf s G c).
    + by apply Hq, (wake_all_wf s G c).
    + by apply Hq, post_switch_wf.
    + destruct (wf_cur _ _ _ _ _ Hwf Hcur) as (core & h & Hc & Hhd & Hme & Ht & [(x & Hx & Hhand & _)] & _).
      subst me. assert (x = tcb) as -> by congruence. by rewrite Hpc in Hhand.
    + destruct (wf_cur _ _ _ _ _ Hwf Hcur) as (core & h & Hc & Hhd & Hme & Ht & [(x & Hx & Hhand & _)] & _).
      subst me. assert (x = tcb) as -> by congruence. by rewrite Hpc in Hhand.
  - destruct Hen as [Hpc Hi]. rewrite Hpc, Hi. by apply Hq, yield_wf.
  - rewrite Hen. by eapply Hq, reap_wf.
  - destruct Hen as (Hpc & Hi & ? & ?). rewrite Hpc, Hi. by eapply Hq, make_thread_wf.
Qed.

(** A step that is taken was enabled. *)
Lemma step_enabled s c ch s' :
  step c ch s = Some s' → halted s = false ∧ ∃ me tcb, cur s c = Some (me, tcb) ∧ enabled s tcb ch.
Proof.
  unfold step. destruct (halted s); [done|]. destruct (cur s c) as [[me tcb]|]; [|done]. cbn [mbind option_bind].
  intros Hs. split; [done|]. exists me, tcb. split; [done|]. destruct ch as [| | |t p act ep]; cbn.
  - intros Hpc Hi o rest Hp E. rewrite Hpc, Hi, Hp in Hs. unfold operate in Hs. by rewrite E in Hs.
  - destruct (pc tcb), (is_idle tcb); done.
  - destruct (pc tcb); done.
  - destruct (pc tcb), (is_idle tcb); try done. unfold make_thread in Hs.
    case_decide as E; [done|]. split_and!; [done|done| |]; [by intros ->; destruct E; left|].
    destruct (tcbs s !! t) eqn:Et; [|done]. destruct E. right. by eexists.
Qed.

Lemma step_inv s G c ch s' : wf s G → step c ch s = Some s' → ∃ G', wf s' G' ∧ effect c ch s G s' G'.
Proof.
  intros Hwf Hs. destruct (step_enabled _ _ _ _ Hs) as (Hh & me & tcb & Hcur & Hen).
  destruct (step_ok s G c me tcb ch Hwf Hh Hcur Hen) as (s1 & Hs1 & Hr). rewrite Hs in Hs1. by simplify_eq.
Qed.

(** ** The start *)

Record started (idles : list Z) (l : list (Z * list Op)) (st : St) s (G : Place) : Prop := {
  started_wf : wf s G;
  started_shared : shared s = st;
  started_epoch : epoch (cond s) = 0;
  started_wq : wq G = [];
  started_running : halted s = false;
  started_cores : cores s = (λ i, mkCore i i i) <$> idles;
  started_threads : ∀ t tcb, tcbs s !! t = Some tcb →
    (tcb = mkTCB ActionNone 0 true Run [] [] ∧ t ∈ idles) ∨ ∃ p, (t, p) ∈ l ∧ tcb = mkTCB ActionNone 0 false Off p [];
  started_all : ∀ t p, (t, p) ∈ l → tcbs s !! t = Some (mkTCB ActionNone 0 false Off p []);
}.

Definition idles_ok (idles : list Z) : Prop := NoDup idles ∧ 0 ∉ idles ∧ idles ≠ [].

Lemma boot_tcbs (idles : list Z) (st : St) t :
  tcbs (boot (Op := Op) idles st) !! t = if decide (t ∈ idles) then Some (mkTCB ActionNone 0 true Run [] []) else None.
Proof.
  unfold boot. cbn. induction idles as [|i l IH]; cbn; [done|]. destruct (decide (t = i)) as [->|Hne].
  - rewrite lookup_insert_eq. rewrite decide_True; [done|by left].
  - rewrite lookup_insert_ne by done. rewrite IH. apply decide_ext. rewrite elem_of_cons. tauto.
Qed.

Lemma boot_owned (idles : list Z) :
  concat (zip_with owned ((λ i, mkCore i i i) <$> idles) (replicate (length idles) [])) = idles.
Proof.
  induction idles as [|i l IH]; [done|]. rewrite fmap_cons. cbn [length replicate zip_with concat]. rewrite IH.
  unfold owned. cbn. by rewrite decide_True.
Qed.

Lemma boot_started idles st : idles_ok idles → started idles [] st (boot idles st) (mkPlace [] [] [] (replicate (length idles) [])).
Proof.
  intros (Hnd & H0 & _).
  assert (all_threads (boot (Op := Op) idles st) (mkPlace [] [] [] (replicate (length idles) [])) = idles) as Hall
    by apply boot_owned.
  split; try done.
  - split; rewrite ?Hall; try apply holds_new; try apply Forall_nil_2.
    + done.
    + intros t. rewrite boot_tcbs. case_decide; [split; [by eexists|done]|]. split; [done|by intros []].
    + done.
    + apply Forall2_same_length_lookup. cbn. split; [by rewrite length_fmap, length_replicate|].
      intros i core h Hc [-> _]%lookup_replicate. apply list_lookup_fmap_Some in Hc as (x & -> & Hx).
      apply list_elem_of_lookup_2 in Hx. pose proof (boot_tcbs idles st x) as Et. rewrite decide_True in Et by done.
      split. exists (mkTCB ActionNone 0 true Run [] []). cbn. split_and!; [done|done|by split; [|left]|done|].
      exists (mkTCB ActionNone 0 true Run [] []). by split_and!.
  - intros t tcb. rewrite boot_tcbs. case_decide; [|done]. intros [= <-]. by left.
  - intros t p Hi. by apply not_elem_of_nil in Hi.
Qed.

Lemma make_thread_started idles l st s G t p s' :
  idles_ok idles → started idles l st s G → make_thread t p ActionNone 0 s = Some s' →
  ∃ G', started idles ((t, p) :: l) st s' G'.
Proof.
  intros Hok [Hwf Hsh Hep Hwq Hh Hcs Hth Hall] Hmk.
  assert (∃ me tcb, cur s 0 = Some (me, tcb)) as (me & tcb & Hcur).
  { destruct Hok as (_ & _ & Hne). destruct idles as [|i idles]; [done|]. unfold cur. rewrite Hcs. cbn.
    destruct (tcbs s !! i) eqn:E; [by eexists _, _|]. exfalso.
    assert (cores s !! 0%nat = Some (mkCore i i i)) as Hc by (by rewrite Hcs).
    destruct (Forall2_lookup_l _ _ _ _ _ (wf_cores _ _ Hwf) Hc) as (h & _ & [(x & Hx & _)]). cbn in Hx. congruence. }
  assert (¬ (t = 0 ∨ is_Some (tcbs s !! t))) as Hf by (intros Hf; unfold make_thread in Hmk; by rewrite decide_True in Hmk).
  assert (t ≠ 0) as Ht0 by (intros ->; apply Hf; by left).
  assert (tcbs s !! t = None) as Ht by (destruct (tcbs s !! t) eqn:E; [destruct Hf; right; by eexists|done]).
  destruct (make_thread_wf s G 0 me tcb t p ActionNone 0 Hwf Hcur Ht0 Ht) as (s1 & Hs1 & G' & Hw' & _).
  assert (s1 = s') as -> by congruence. clear Hs1. unfold make_thread in Hmk. rewrite decide_False in Hmk by done. exists G'.
  match type of Hmk with context [add t ?q ?n] => destruct (add t q n) as [[q1 nx1]|] eqn:Ea end; [|done].
  cbn [mbind option_bind] in *. injection Hmk as <-.
  assert (wq G' = []) as Hwq'.
  { pose proof (wf_wq _ _ Hw') as Hc. destruct (wq G') as [|u W]; [done|]. apply holds_chain in Hc.
    pose proof (holds_chain _ _ _ (wf_wq _ _ Hwf)) as Hc0. rewrite Hwq in Hc0. cbn in Hc, Hc0.
    destruct Hc as (E & ? & _). unfold set_field in E. cbn in E. congruence. }
  split; try done.
  - intros u x. unfold set_tcb, set_field. cbn [tcbs]. intros [[<- <-]|[Hne Hu]]%lookup_insert_Some.
    + right. exists p. split; [by left|done].
    + destruct (Hth u x Hu) as [?|(p' & ? & ?)]; [by left|]. right. exists p'. split; [by right|done].
  - intros u p'. unfold set_tcb, set_field. cbn [tcbs]. intros Hi.
    apply elem_of_cons in Hi as [[= -> ->]|Hi]; [apply lookup_insert_eq|].
    rewrite lookup_insert_ne; [by apply Hall|]. intros <-. specialize (Hall _ _ Hi). congruence.
Qed.

Lemma make_threads_started idles st l : ∀ l0 s G s',
  idles_ok idles → started idles l0 st s G → make_threads l s = Some s' → ∃ G', started idles (rev l ++ l0) st s' G'.
Proof.
  induction l as [|[t p] l IH]; intros l0 s G s' Hok Hst Hmk; cbn in Hmk; [simplify_eq; by exists G|].
  destruct (make_thread t p ActionNone 0 s) as [s1|] eqn:E; [|done]. cbn in Hmk.
  destruct (make_thread_started _ _ _ _ _ _ _ _ Hok Hst E) as (G1 & Hst1).
  destruct (IH _ _ _ _ Hok Hst1 Hmk) as (G2 & Hst2). exists G2. cbn. by rewrite <- (assoc_L (++)).
Qed.

(** ** Induction over schedules *)

(** [I n s G] holds [n] steps after the start, if every step allowed by [A]
    keeps it. *)
Lemma run_inv (A : Choice Op → Prop) (I : nat → Sys St Op → Place → Prop) :
  (∀ n s G c ch s' G', A ch → wf s G → wf s' G' → I n s G → effect c ch s G s' G' → I (S n) s' G') →
  ∀ sch n s G s', Forall (λ x, A x.2) sch → wf s G → I n s G → run_schedule sch s = Some s' →
  ∃ G', wf s' G' ∧ I (n + length sch)%nat s' G'.
Proof.
  intros Hstep sch. induction sch as [|[c ch] sch IH]; intros n s G s' HA Hwf HI Hrun; cbn in Hrun.
  - simplify_eq. exists G. rewrite Nat.add_0_r. done.
  - apply Forall_cons in HA as [HA1 HA]. destruct (step c ch s) as [s1|] eqn:E; [|done]. cbn in Hrun.
    destruct (step_inv s G c ch s1 Hwf E) as (G1 & Hw1 & Heff).
    destruct (IH (S n) s1 G1 s' HA Hw1) as (G2 & Hw2 & HI2); [exact (Hstep n s G c ch s1 G1 HA1 Hwf Hw1 HI Heff)|done|].
    exists G2. split; [done|]. cbn. by rewrite Nat.add_succ_r.
Qed.

Lemma reached_inv (A : Choice Op → Prop) (I : nat → Sys St Op → Place → Prop) idles l st sch s :
  idles_ok idles → Forall (λ x, A x.2) sch → reached idles l st sch = Some s →
  (∀ s G, started idles (rev l) st s G → I 0%nat s G) →
  (∀ n s G c ch s' G', A ch → wf s G → wf s' G' → I n s G → effect c ch s G s' G' → I (S n) s' G') →
  ∃ G, wf s G ∧ I (length sch) s G.
Proof.
  intros Hok HA Hr H0 Hstep. unfold reached in Hr. destruct (make_threads l (boot idles st)) as [s0|] eqn:E; [|done].
  cbn in Hr. destruct (make_threads_started _ _ _ _ _ _ _ Hok (boot_started idles st Hok) E) as (G0 & Hst).
  rewrite app_nil_r in Hst. eapply (run_inv A I Hstep sch 0); try done; [apply Hst|by apply H0].
Qed.

Lemma reached_wf idles l st sch s : idles_ok idles → reached idles l st sch = Some s → ∃ G, wf s G.
Proof.
  intros Hok Hr. destruct (reached_inv (λ _, True) (λ _ _ _, True) idles l st sch s) as (G & Hw & _); try done; [|by exists G].
  by apply Forall_forall.
Qed.

(** ** The scheduler is safe *)

(** A thread that waits in the queue of the condition variable. *)
Definition blocked s (t : Z) : Prop := ∃ W, holds (waiting (cond s)) (next s) W ∧ t ∈ W.

Lemma blocked_wq s G t : wf s G → blocked s t → t ∈ wq G.
Proof.
  intros Hwf (W & HW & Ht). rewrite (chain_unique _ _ _ _ (holds_chain _ _ _ (wf_wq _ _ Hwf)) (holds_chain _ _ _ HW)). done.
Qed.

Lemma wq_blocked s G t : wf s G → t ∈ wq G → blocked s t.
Proof. intros Hwf Ht. exists (wq G). split; [apply Hwf|done]. Qed.

(** C30: after every schedule, every core has a current thread, and every step
    this thread may take (what its code does next, or a yield, a reaping or the
    creation of a thread at an unused address) succeeds: no assertion of the
    scheduler fails and no null pointer is dereferenced. *)
Theorem scheduler_never_fails idles l st sch s c core
    (Hi : idles_ok idles) (Hr : reached idles l st sch = Some s) (Hh : halted s = false) (Hc : cores s !! c = Some core) :
  ∃ me tcb, cur s c = Some (me, tcb) ∧ ∀ ch, enabled s tcb ch ↔ is_Some (step c ch s).
Proof.
  destruct (reached_wf idles l st sch s Hi Hr) as (G & Hwf).
  destruct (Forall2_lookup_l _ _ _ _ _ (wf_cores _ _ Hwf) Hc) as (h & _ & [(tcb & Ht & _)]).
  assert (cur s c = Some (current core, tcb)) as Hcur by (unfold cur; rewrite Hc; cbn; by rewrite Ht).
  exists (current core), tcb. split; [done|]. intros ch. split.
  - intros Hen. destruct (step_ok s G c _ tcb ch Hwf Hh Hcur Hen) as (s' & -> & _). by eexists.
  - intros [s' Hs]. destruct (step_enabled _ _ _ _ Hs) as (_ & me & x & Hcur' & Hen). rewrite Hcur in Hcur'. by simplify_eq.
Qed.

(** C4: after every schedule, every thread is in exactly one place: the ready
    queue, the queue of the condition variable, the reaper queue (whose threads
    are freed), or with one core, as its current thread, as its idle thread, or
    in the hands of the current thread, which has just switched from it or is
    about to wake it.  So no thread runs on two cores, none runs while it is
    queued, none is freed while it runs or is queued, and none is lost. *)
Theorem threads_conserved idles l st sch s
    (Hi : idles_ok idles) (Hr : reached idles l st sch = Some s) :
  ∃ R W P hs,
    holds (readyQueue s) (next s) R ∧ holds (waiting (cond s)) (next s) W ∧ holds (reaperQueue s) (next s) P
    ∧ length hs = length (cores s)
    ∧ (∀ c core h, cores s !! c = Some core → hs !! c = Some h →
         ∃ tcb, tcbs s !! current core = Some tcb ∧ in_hand (tcbs s) (next s) (idle_thread core) (pc tcb) h)
    ∧ NoDup (R ++ W ++ P ++ concat (zip_with owned (cores s) hs))
    ∧ ∀ t, t ∈ R ++ W ++ P ++ concat (zip_with owned (cores s) hs) ↔ is_Some (tcbs s !! t).
Proof.
  destruct (reached_wf idles l st sch s Hi Hr) as (G & Hwf). exists (rq G), (wq G), (pq G), (hands G).
  split_and!; try apply Hwf.
  - symmetry. eapply Forall2_length, Hwf.
  - intros c core h Hc Hh. destruct (Forall2_lookup_lr _ _ _ _ _ _ (wf_cores _ _ Hwf) Hc Hh) as [(tcb & Ht & Hhand & _)].
    by exists tcb.
Qed.

(** ** No lost wakeup: monitors that notify all *)

Definition outcome_state (oc : Outcome St Op) : St :=
  match oc with Done st _ _ | Blocks st _ | Continues st _ => st end.

(** The operations of [P] wait for a condition that no operation makes true
    without notifying all; [V n] holds of the states [n] steps after the start,
    for fewer steps than the epoch can count. *)
Class NotifiesAll (P : Op → Prop) (V : nat → St → Prop) : Prop := {
  valid_mono n st : V n st → V (S n) st;
  valid_step n o st oc : V n st → run o st = Some oc → V (S n) (outcome_state oc);
  stable_done n o st st' r nt o' : V n st → Z.of_nat (S n) < 18446744073709551616 →
    run o st = Some (Done st' r nt) → nt ≠ NotifyAll → P o' → waits o' st → waits o' st';
  stable_blocks n o st st' o1 o' : V n st → run o st = Some (Blocks st' o1) → P o' → o' = o1 ∨ waits o' st → waits o' st';
  stable_continues n o st st' o1 o' : V n st → run o st = Some (Continues st' o1) → P o' → waits o' st → waits o' st';
}.

Lemma wq_thread s G t : wf s G → t ∈ wq G → is_Some (tcbs s !! t).
Proof. intros Hwf Ht. apply (wf_dom _ _ Hwf). unfold all_threads. rewrite !elem_of_app. tauto. Qed.

(** Every committed thread has a reason to wait. *)
Definition justified (P : Op → Prop) (V : nat → St → Prop) (n : nat) s (G : Place) : Prop :=
  V n (shared s) ∧ 0 <= epoch (cond s) <= Z.of_nat n
  ∧ ∀ t tcb, tcbs s !! t = Some tcb →
      (sleepy tcb → cond_epoch tcb <= epoch (cond s))
      ∧ (committed s G t tcb → ∃ o rest, prog tcb = o :: rest ∧ (P o → waits o (shared s))).

Lemma justified_quiet P V `{!NotifiesAll P V} new n s G s' G' :
  wf s G → quiet new s G s' G' → justified P V n s G → justified P V (S n) s' G'.
Proof.
  intros Hwf [Hsh Hep Hback Hfwd Hwait] (HV & He & HJ).
  split; [rewrite Hsh; by apply valid_mono|]. split; [rewrite Hep; lia|]. intros t tcb' Ht'. rewrite Hep, Hsh.
  destruct (Hback t tcb' Ht') as [(tcb & Ht & Hpr & _ & _ & Hsl)|(Ht & p & _ & _ & _ & Hpc)].
  - destruct (HJ t tcb Ht) as [J1 J2]. split; [intros Hs; destruct (Hsl Hs) as [? ->]; by apply J1|].
    intros Hcm. rewrite Hpr. apply J2. destruct Hcm as [Hw|[Hs Hce]].
    + destruct (Hwait t Hw) as [?|(x & Hx & ? & ?)]; [by left|]. right. assert (x = tcb) as -> by congruence. done.
    + destruct (Hsl Hs) as [? E]. right. split; [done|]. rewrite <- E, <- Hep. done.
  - assert (¬ sleepy tcb') as Hns by (intros [?|[? _]]; congruence). split; [done|]. intros [Hw|[? _]]; [|done].
    destruct (Hwait t Hw) as [Hw'|(x & Hx & _)]; [|congruence].
    destruct (wq_thread s G t Hwf Hw') as [x Hx]. congruence.
Qed.

(** What an operation changes for the committed threads. *)
Lemma operated_committed me tcb rest s G s' G' oc n :
  wf s G → tcbs s !! me = Some tcb → pc tcb = Run → 0 <= epoch (cond s) <= Z.of_nat n → Z.of_nat (S n) < 18446744073709551616 →
  (∀ t x, tcbs s !! t = Some x → sleepy x → cond_epoch x <= epoch (cond s)) →
  operated me tcb rest s G s' G' oc →
  epoch (cond s) <= epoch (cond s') <= Z.of_nat (S n)
  ∧ ∀ t x', tcbs s' !! t = Some x' →
      (sleepy x' → cond_epoch x' <= epoch (cond s'))
      ∧ (committed s' G' t x' →
           (∃ st o, oc = Blocks st o ∧ t = me ∧ prog x' = o :: rest)
           ∨ (t ≠ me ∧ tcbs s !! t = Some x' ∧ committed s G t x' ∧ (∀ st r, oc ≠ Done st r NotifyAll))).
Proof.
  intros Hwf Hme Hpc He Hn Hsl Hop.
  assert (me ∉ wq G) as Hmw.
  { intros Hw. pose proof (wf_workers _ _ Hwf) as Hwk. apply Forall_app in Hwk as [_ Hwk].
    destruct (proj1 (Forall_forall _ _) Hwk me Hw) as (x & Hx & _ & Hoff). congruence. }
  destruct oc as [st r nt|st o|st o]; cbn in Hop.
  - destruct Hop as (_ & (p & HT & Hp1 & Hp2) & Hnt).
    assert (epoch (cond s) <= epoch (cond s') <= Z.of_nat (S n) ∧ wq G' ⊆ wq G ∧
      (nt = NotifyAll → wq G' = [] ∧ epoch (cond s') = epoch (cond s) + 1)) as (He' & Hsub & Hall).
    { destruct nt; destruct Hnt as [E1 E2]; rewrite E1, E2; (split; [word_lia|]); (split; [|try done; try discriminate]).
      - done.
      - destruct (wq G); [done|]. cbn. intros u Hu. by right.
      - apply list_subseteq_nil.
      - intros _. split; [done|]. word_lia. }
    split; [done|]. intros t x'. rewrite HT. intros [[<- <-]|[Hne Ht]]%lookup_insert_Some.
    + assert (¬ sleepy (tcb .[ prog := rest ] .[ out := out tcb ++ [r] ] .[ pc := p ])) as Hns
        by (unfold sleepy, set_field; cbn; intros [?|[? _]]; congruence).
      split; [done|]. intros [Hw|[? _]]; [|done]. by apply Hsub in Hw.
    + split; [intros Hs; specialize (Hsl t x' Ht Hs); lia|]. intros Hcm. right.
      assert (nt ≠ NotifyAll) as Hna.
      { intros E. destruct (Hall E) as [E1 E2]. destruct Hcm as [Hw|[Hs Hce]]; [rewrite E1 in Hw; by apply not_elem_of_nil in Hw|].
        specialize (Hsl t x' Ht Hs). lia. }
      split_and!; [done|done| |congruence]. destruct Hcm as [Hw|[Hs Hce]]; [left; by apply Hsub|].
      right. split; [done|]. specialize (Hsl t x' Ht Hs). lia.
  - destruct Hop as (_ & E1 & E2 & HT). rewrite E1. split; [lia|]. intros t x'. rewrite HT.
    intros [[<- <-]|[Hne Ht]]%lookup_insert_Some.
    + split; [intros _; unfold set_field; cbn; lia|]. intros _. left. by exists st, o.
    + split; [intros Hs; by apply (Hsl t x')|]. intros Hcm. right. split_and!; [done|done| |done].
      unfold committed in *. rewrite E1, E2 in Hcm. done.
  - destruct Hop as (_ & E1 & E2 & HT). rewrite E1. split; [lia|]. intros t x'. rewrite HT.
    intros [[<- <-]|[Hne Ht]]%lookup_insert_Some.
    + assert (¬ sleepy (tcb .[ prog := o :: rest ])) as Hns
        by (unfold sleepy, set_field; cbn; intros [?|[? _]]; congruence).
      split; [done|]. intros [Hw|[? _]]; [|done]. rewrite E2 in Hw. done.
    + split; [intros Hs; by apply (Hsl t x')|]. intros Hcm. right. split_and!; [done|done| |done].
      unfold committed in *. rewrite E1, E2 in Hcm. done.
Qed.

Lemma operated_state me tcb rest s G s' G' oc : operated me tcb rest s G s' G' oc → shared s' = outcome_state oc.
Proof. destruct oc; by intros [? _]. Qed.

Lemma justified_step P V `{!NotifiesAll P V} n s G c ch s' G' :
  Z.of_nat (S n) < 18446744073709551616 →
  wf s G → justified P V n s G → effect c ch s G s' G' → justified P V (S n) s' G'.
Proof.
  intros Hn Hwf HJ Heff. destruct Heff as [Hq|me tcb o rest oc Hcur Hpc Hi Hpr Hoc Hop]; [by eapply justified_quiet|].
  destruct HJ as (HV & He & HJ). destruct (wf_cur _ _ _ _ _ Hwf Hcur) as (core & h & _ & _ & _ & Ht & _).
  destruct (operated_committed me tcb rest s G s' G' oc n Hwf Ht Hpc He Hn) as (He' & Hcm); [|done|].
  { intros t x Hx Hs. by apply (HJ t x Hx). }
  split; [rewrite (operated_state _ _ _ _ _ _ _ _ Hop); by apply (valid_step n o (shared s))|].
  split; [lia|]. intros t x' Hx'. destruct (Hcm t x' Hx') as [Hsl Hc]. split; [done|]. intros Hcommit.
  destruct (Hc Hcommit) as [(st & o1 & -> & -> & Hpr')|(Hne & Hx & Hcs & Hnall)].
  - exists o1, rest. split; [done|]. intros HP. destruct Hop as (-> & _). eapply stable_blocks; [exact HV|exact Hoc|done|by left].
  - destruct (proj2 (HJ t x' Hx) Hcs) as (o' & rest' & E & Hw). exists o', rest'. split; [done|]. intros HP. specialize (Hw HP).
    destruct oc as [st r nt|st o1|st o1]; destruct Hop as (-> & _).
    + eapply stable_done; [exact HV|exact Hn|exact Hoc| |done|done]. intros ->. by apply (Hnall st r).
    + eapply stable_blocks; [exact HV|exact Hoc|done|by right].
    + by eapply stable_continues.
Qed.

Lemma no_lost_wakeup P V `{!NotifiesAll P V} idles l st sch s t :
  idles_ok idles → reached idles l st sch = Some s → V 0%nat st →
  Z.of_nat (length sch) < 18446744073709551616 → blocked s t →
  ∃ tcb o rest, tcbs s !! t = Some tcb ∧ prog tcb = o :: rest ∧ (P o → waits o (shared s)).
Proof.
  intros Hi Hr HV Hn Hb.
  destruct (reached_inv (λ _, True) (λ n s G, Z.of_nat n < 18446744073709551616 → justified P V n s G) idles l st sch s Hi)
    as (G & Hwf & HJ); [by apply Forall_forall|done| | |].
  - intros s0 G [Hwf Hsh Hep Hwq Hh Hcs Hth _] _. split; [by rewrite Hsh|]. split; [rewrite Hep; lia|]. intros u x Hu.
    assert (¬ sleepy x) as Hns.
    { destruct (Hth u x Hu) as [[-> _]|(p & _ & ->)]; intros [?|[? _]]; done. }
    split; [done|]. intros [Hw|[? _]]; [|done]. rewrite Hwq in Hw. by apply not_elem_of_nil in Hw.
  - intros n s0 G c ch s1 G' _ Hwf Hwf' HJ Heff Hlt. eapply (justified_step P V n s0 G c ch); [done|done|apply HJ; lia|done].
  - destruct (HJ Hn) as (_ & _ & HJ'). pose proof (blocked_wq s G t Hwf Hb) as Hw.
    destruct (wq_thread s G t Hwf Hw) as [x Hx]. exists x. destruct (proj2 (HJ' t x Hx)) as (o & rest & E & HP); [by left|].
    by exists o, rest.
Qed.

(** ** No lost wakeup: monitors that notify one *)

(** The waiting operations of the monitor each take a token; an operation that
    adds one notifies one thread. *)
Class Tokens (consumer : Op → Prop) (tokens : St → nat) : Prop := {
  tok_quiet o st st' r : run o st = Some (Done st' r NoNotify) →
    (tokens st' <= tokens st)%nat ∧ (consumer o → (tokens st' <= tokens st - 1)%nat);
  tok_one o st st' r : run o st = Some (Done st' r NotifyOne) → ¬ consumer o ∧ (tokens st' <= S (tokens st))%nat;
  tok_blocks o st st' o' : run o st = Some (Blocks st' o') → tokens st' = 0%nat ∧ consumer o';
  tok_continues o st st' o' : run o st = Some (Continues st' o') → (tokens st' <= tokens st)%nat ∧ (consumer o → consumer o');
}.

(** A thread that will take a token without being notified first. *)
Definition active (consumer : Op → Prop) s (G : Place) (t : Z) : Prop :=
  ∃ tcb o rest, tcbs s !! t = Some tcb ∧ prog tcb = o :: rest ∧ consumer o ∧ ¬ committed s G t tcb.

Definition enough consumer (tokens : St → nat) s (G : Place) : Prop :=
  ∃ A, NoDup A ∧ (tokens (shared s) <= length A)%nat ∧ ∀ t, t ∈ A → active consumer s G t.

Record served consumer tokens (n : nat) s (G : Place) : Prop := {
  served_epoch : 0 <= epoch (cond s) <= Z.of_nat n;
  served_sleepy : ∀ t tcb, tcbs s !! t = Some tcb → sleepy tcb → cond_epoch tcb <= epoch (cond s);
  served_consumer : ∀ t tcb, tcbs s !! t = Some tcb → committed s G t tcb → ∃ o rest, prog tcb = o :: rest ∧ consumer o;
  served_enough : ∀ t tcb, tcbs s !! t = Some tcb → committed s G t tcb → enough consumer tokens s G;
}.

Lemma quiet_committed new s G s' G' t tcb' :
  wf s G → quiet new s G s' G' → tcbs s' !! t = Some tcb' → committed s' G' t tcb' →
  ∃ tcb, tcbs s !! t = Some tcb ∧ prog tcb' = prog tcb ∧ committed s G t tcb.
Proof.
  intros Hwf [Hsh Hep Hback Hfwd Hwait] Ht' Hcm.
  destruct (Hback t tcb' Ht') as [(tcb & Ht & Hpr & _ & _ & Hsl)|(Ht & p & _ & _ & _ & Hpc)].
  - exists tcb. split_and!; [done|done|]. destruct Hcm as [Hw|[Hs Hce]].
    + destruct (Hwait t Hw) as [?|(x & Hx & ? & ?)]; [by left|]. right. assert (x = tcb) as -> by congruence. done.
    + destruct (Hsl Hs) as [? E]. right. split; [done|]. rewrite <- E, <- Hep. done.
  - destruct Hcm as [Hw|[[?|[? _]] _]]; [|congruence|congruence].
    destruct (Hwait t Hw) as [Hw'|(x & Hx & _)]; [|congruence]. destruct (wq_thread s G t Hwf Hw') as [x Hx]. congruence.
Qed.

Lemma served_quiet consumer tokens new n s G s' G' :
  wf s G → quiet new s G s' G' → served consumer tokens n s G → served consumer tokens (S n) s' G'.
Proof.
  intros Hwf Hq [He Hsl Hco Hen]. pose proof Hq as [Hsh Hep Hback Hfwd Hwait]. split.
  - rewrite Hep. lia.
  - intros t tcb' Ht' Hs. rewrite Hep.
    destruct (Hback t tcb' Ht') as [(tcb & Ht & _ & _ & _ & Hsl')|(_ & p & _ & _ & _ & Hpc)].
    + destruct (Hsl' Hs) as [? ->]. by apply (Hsl t).
    + destruct Hs as [?|[? _]]; congruence.
  - intros t tcb' Ht' Hcm. destruct (quiet_committed _ _ _ _ _ _ _ Hwf Hq Ht' Hcm) as (tcb & Ht & Epr & Hc).
    rewrite Epr. by eapply Hco.
  - intros t tcb' Ht' Hcm. destruct (quiet_committed _ _ _ _ _ _ _ Hwf Hq Ht' Hcm) as (tcb & Ht & Epr & Hc).
    destruct (Hen t tcb Ht Hc) as (A & Hnd & Hlen & HA). exists A. rewrite Hsh. split_and!; [done|done|].
    intros u Hu. destruct (HA u Hu) as (x & o & rest & Hx & Hpr & Hcs & Hnc).
    destruct (Hfwd u x Hx) as [x' Hx']; [by rewrite Hpr|].
    destruct (Hback u x' Hx') as [(y & Hy & Epr' & _)|(Hno & _)]; [|congruence]. assert (y = x) as -> by congruence.
    exists x', o, rest. split_and!; [done|congruence|done|]. intros Hcx.
    destruct (quiet_committed _ _ _ _ _ _ _ Hwf Hq Hx' Hcx) as (y & Hy' & _ & Hcy). congruence.
Qed.

(** Threads other than [me] are as active as before when nobody new is committed. *)
Lemma active_other consumer s G s' G' me x' t :
  tcbs s' = <[me := x']> (tcbs s) → t ≠ me →
  (∀ u x, u ≠ me → tcbs s !! u = Some x → committed s' G' u x → committed s G u x) →
  active consumer s G t → active consumer s' G' t.
Proof.
  intros HT Hne Hcm (x & o & rest & Hx & Hpr & Hcs & Hnc). exists x, o, rest. rewrite HT, lookup_insert_ne by done.
  split_and!; [done..|]. intros Hc. by apply Hnc, (Hcm t).
Qed.

Lemma served_operated consumer tokens `{!Tokens consumer tokens} n s G s' G' c me tcb o rest oc :
  Z.of_nat (S n) < 18446744073709551616 → wf s G → wf s' G' →
  cur s c = Some (me, tcb) → pc tcb = Run → prog tcb = o :: rest → run o (shared s) = Some oc →
  operated me tcb rest s G s' G' oc → served consumer tokens n s G → served consumer tokens (S n) s' G'.
Proof.
  intros Hn Hwf Hwf' Hcur Hpc Hpr Hoc Hop [He Hsl Hco Hen].
  destruct (wf_cur _ _ _ _ _ Hwf Hcur) as (core & h & _ & _ & _ & Hme & _).
  destruct (operated_committed me tcb rest s G s' G' oc n Hwf Hme Hpc He Hn Hsl Hop) as (He' & Hcm).
  split.
  - lia.
  - intros t x' Hx'. by apply (Hcm t x' Hx').
  - intros t x' Hx' Hc. destruct (proj2 (Hcm t x' Hx') Hc) as [(st & o1 & -> & -> & E)|(_ & Hx & Hcs & _)]; [|by eapply Hco].
    exists o1, rest. split; [done|]. by destruct (tok_blocks _ _ _ _ Hoc).
  - intros t x' Hx' Hc.
    assert (∀ u x, u ≠ me → tcbs s' !! u = Some x → committed s' G' u x → committed s G u x) as Hback.
    { intros u x Hu Hx Hcu. by destruct (proj2 (Hcm u x Hx) Hcu) as [(st & o1 & _ & ? & _)|(_ & _ & ? & _)]. }
    destruct (proj2 (Hcm t x' Hx') Hc) as [(st & o1 & -> & -> & E)|(Hne & Hx & Hcs & Hnall)].
    { destruct Hop as (Hsh & _). exists []. rewrite Hsh. destruct (tok_blocks _ _ _ _ Hoc) as [-> _].
      split_and!; [apply NoDup_nil_2|done|]. intros u Hu. by apply not_elem_of_nil in Hu. }
    destruct (Hen t x' Hx Hcs) as (A & Hnd & Hlen & HA).
    assert (∀ y', tcbs s' = <[me := y']> (tcbs s) → ∀ u, u ∈ A → u ≠ me → active consumer s' G' u) as Hact.
    { intros y' HT u Hu Hum. eapply active_other; [exact HT|done| |by apply HA].
      intros v y Hv Hy. apply Hback; [done|]. by rewrite HT, lookup_insert_ne. }
    assert (me ∈ A → consumer o) as Hmc.
    { intros HmA. destruct (HA me HmA) as (y & o1 & r1 & Hy & Epr & Hcy & _). congruence. }
    destruct oc as [st r nt|st o1|st o1].
    + destruct Hop as (Hsh & (p & HT & Hp1 & Hp2) & Hnt). destruct nt as [| |]; [| |by destruct (Hnall st r)].
      * destruct (tok_quiet _ _ _ _ Hoc) as [Hle Hle'].
        destruct (decide (me ∈ A)) as [HmA|HmA].
        -- destruct (proj1 (elem_of_Permutation A me) HmA) as (A' & HA').
           exists A'. rewrite Hsh. rewrite HA' in Hnd, Hlen. apply NoDup_cons in Hnd as [HnA Hnd]. cbn in Hlen.
           specialize (Hle' (Hmc HmA)). split_and!; [done|lia|].
           intros u Hu. eapply Hact; [exact HT|rewrite HA'; by right|by intros ->].
        -- exists A. rewrite Hsh. split_and!; [done|lia|]. intros u Hu. eapply Hact; [exact HT|done|by intros ->].
      * destruct (tok_one _ _ _ _ Hoc) as [Hnc Hle]. destruct Hnt as [Hep Hwq].
        destruct (wq G) as [|t1 W] eqn:EW.
        -- exfalso. destruct Hc as [Hw|[Hs Hce]]; [rewrite Hwq in Hw; by apply not_elem_of_nil in Hw|].
           specialize (Hsl t x' Hx Hs). rewrite Hep in Hce. word_lia.
        -- assert (t1 ∈ wq G) as Ht1 by (rewrite EW; left).
           pose proof (proj1 (Forall_forall _ _) (proj2 (proj1 (Forall_app _ _ _) (wf_workers _ _ Hwf))) t1 Ht1) as (y & Hy & Hyi & Hyp).
           assert (t1 ≠ me) as Ht1m by congruence.
           assert (committed s G t1 y) as Hc1 by (by left).
           exists (t1 :: A). rewrite Hsh. split_and!.
           ++ apply NoDup_cons. split; [|done]. intros HtA. destruct (HA t1 HtA) as (z & ? & ? & Hz & _ & _ & Hnz). congruence.
           ++ cbn. lia.
           ++ intros u [->|Hu]%elem_of_cons; [|eapply Hact; [exact HT|done|intros ->; by apply Hnc, Hmc]].
              destruct (Hco t1 y Hy Hc1) as (o1 & r1 & Epr & Hcon). exists y, o1, r1. rewrite HT, lookup_insert_ne by done.
              split_and!; [done..|]. intros [Hw|[[?|[? _]] _]]; [|congruence|congruence].
              rewrite Hwq in Hw. pose proof (holds_nodup _ _ _ (wf_wq _ _ Hwf)) as Hnw. rewrite EW in Hnw.
              by apply NoDup_cons in Hnw as [? _].
    + destruct Hop as (Hsh & _). exists []. rewrite Hsh. destruct (tok_blocks _ _ _ _ Hoc) as [-> _].
      split_and!; [apply NoDup_nil_2|done|]. intros u Hu. by apply not_elem_of_nil in Hu.
    + destruct Hop as (Hsh & Hep & Hwq & HT). destruct (tok_continues _ _ _ _ Hoc) as [Hle Hcc].
      exists A. rewrite Hsh. split_and!; [done|lia|]. intros u Hu. destruct (decide (u = me)) as [->|Hum]; [|by eapply Hact].
      exists (tcb .[ prog := o1 :: rest ]), o1, rest. rewrite HT, lookup_insert_eq. split_and!; [done|done|by apply Hcc, Hmc|].
      intros Hcx. destruct (proj2 (Hcm me (tcb .[ prog := o1 :: rest ]) ltac:(by rewrite HT, lookup_insert_eq)) Hcx)
        as [(st' & o2 & [=] & _)|(? & _)]; done.
Qed.

(** A thread that will take a token without waiting for a notification. *)
Definition awake (consumer : Op → Prop) s (t : Z) : Prop :=
  ¬ blocked s t ∧ ∃ tcb o rest, tcbs s !! t = Some tcb ∧ prog tcb = o :: rest ∧ consumer o
    ∧ ¬ (sleepy tcb ∧ cond_epoch tcb = epoch (cond s)).

Lemma tokens_not_lost consumer tokens `{!Tokens consumer tokens} idles l st sch s t :
  idles_ok idles → reached idles l st sch = Some s → Z.of_nat (length sch) < 18446744073709551616 → blocked s t →
  ∃ A, NoDup A ∧ (tokens (shared s) <= length A)%nat ∧ ∀ u, u ∈ A → awake consumer s u.
Proof.
  intros Hi Hr Hn Hb.
  destruct (reached_inv (λ _, True) (λ n s G, Z.of_nat n < 18446744073709551616 → served consumer tokens n s G) idles l st sch s Hi)
    as (G & Hwf & HJ); [by apply Forall_forall|done| | |].
  - intros s0 G [Hwf Hsh Hep Hwq Hh Hcs Hth _] _.
    assert (∀ u x, tcbs s0 !! u = Some x → ¬ sleepy x) as Hns.
    { intros u x Hu. destruct (Hth u x Hu) as [[-> _]|(p & _ & ->)]; intros [?|[? _]]; done. }
    assert (∀ u x, tcbs s0 !! u = Some x → ¬ committed s0 G u x) as Hnc.
    { intros u x Hu [Hw|[Hs _]]; [|by apply (Hns u x)]. rewrite Hwq in Hw. by apply not_elem_of_nil in Hw. }
    split; [rewrite Hep; lia|intros u x Hu Hs; by destruct (Hns u x)|intros u x Hu Hc..]; by destruct (Hnc u x).
  - intros n s0 G c ch s1 G' _ Hwf Hwf' HJ Heff Hlt. assert (served consumer tokens n s0 G) as Hs by (apply HJ; lia).
    destruct Heff as [Hq|me tcb o rest oc Hcur Hpc _ Hpr Hoc Hop]; [exact (served_quiet _ _ _ n s0 G s1 G' Hwf Hq Hs)|].
    exact (served_operated consumer tokens n s0 G s1 G' c me tcb o rest oc Hlt Hwf Hwf' Hcur Hpc Hpr Hoc Hop Hs).
  - pose proof (blocked_wq s G t Hwf Hb) as Hw. destruct (wq_thread s G t Hwf Hw) as [x Hx].
    destruct (served_enough _ _ _ _ _ (HJ Hn) t x Hx) as (A & Hnd & Hlen & HA); [by left|].
    exists A. split_and!; [done|done|]. intros u Hu. destruct (HA u Hu) as (y & o & rest & Hy & Hpr & Hco & Hnc). split.
    + intros Hbu. apply Hnc. left. by eapply blocked_wq.
    + exists y, o, rest. split_and!; [done|done|done|]. intros Hs. apply Hnc. by right.
Qed.

End Schedule.
