(* ===== verification/Sync.v ===== *)
(** * The monitors of the kernel

    [semaphore.h], [blocking_lock.h], [barrier.h], [count_down_latch.h],
    [future.h] and the System V semaphores of [syscall.cc], as instances of
    [Monitor]: each operation is what it does from the acquisition of its lock
    to the release.  The theorems are about every schedule of threads that use
    one such object, on any number of cores. *)

From stdpp Require Import gmap.
From S2P Require Import Prelude Queue Sched SchedInv SchedStep Schedule.

(** Fewer steps than the 64-bit epoch counts. *)
Definition short_schedule {Op} (sch : list (nat * Choice Op)) : Prop := Z.of_nat (length sch) < 18446744073709551616.

(** No thread is created after the start. *)
Definition no_spawn {Op} (ch : Choice Op) : Prop := match ch with Spawn _ _ _ _ => False | _ => True end.

(** ** Semaphores *)

Module Semaphore.

Inductive SemOp := Down | Up.

#[export] Instance sem_run : Monitor N SemOp := λ o count,
  match o with
  | Down => if (count =? 0)%N then Some (Blocks count Down) else Some (Done (count - 1)%N 0 NoNotify)
  | Up => Some (Done ((count + 1) mod 18446744073709551616)%N 0 NotifyOne)
  end.

#[export] Instance sem_tokens : Tokens (λ o, o = Down) N.to_nat.
Proof.
  split; [intros o count st' r|intros o count st' r|intros o count st' o'|intros o count st' o']; destruct o; cbn;
    repeat case_match; intros [=]; subst.
  - apply N.eqb_neq in H. split; [lia|intros _; lia].
  - split; [done|]. pose proof (N.Div0.mod_le (count + 1) 18446744073709551616). lia.
  - apply N.eqb_eq in H. split; [lia|done].
Qed.

(** C26: no wakeup of a [Semaphore] is lost: whenever a thread is blocked in
    [down] (in the queue of the condition), there are at least as many threads
    in [down] that are awake as the count of the semaphore, so every unit the
    count shows is about to be taken; in particular a thread stays blocked with
    a positive count only while another one is on its way to take it. *)
Theorem no_unit_idle idles l count (sch : list (nat * Choice SemOp)) s t
    (Hi : idles_ok idles) (Hn : short_schedule sch)
    (Hr : reached idles l count sch = Some s) (Hb : blocked s t) :
  ∃ A, NoDup A ∧ (shared s <= N.of_nat (length A))%N ∧ ∀ u, u ∈ A → awake (λ o, o = Down) s u.
Proof.
  destruct (tokens_not_lost (λ o, o = Down) N.to_nat idles l count sch s t Hi Hr Hn Hb) as (A & Hnd & Hlen & HA).
  exists A. split_and!; [done|lia|done].
Qed.

(** One core; two threads are in [down], the third has just done [up]. *)
Definition sem_sched : list (nat * Choice SemOp) := replicate 9 (0%nat, Go).
Definition sem_threads : list (Z * list SemOp) := [(8, [Down]); (16, [Down]); (24, [Up])].
Definition sem_demo : Sys N SemOp :=
  Eval vm_compute in default (boot [1] 0%N) (reached [1] sem_threads 0%N sem_sched).

Lemma sem_demo_reached : reached [1] sem_threads 0%N sem_sched = Some sem_demo.
Proof. by vm_compute. Qed.

Lemma one_idle_ok : idles_ok [1].
Proof. split_and!; [apply NoDup_singleton|by intros ?%list_elem_of_singleton|done]. Qed.

Lemma sem_demo_blocked : blocked sem_demo 16.
Proof.
  exists [16]. split; [|by left]. split; [|apply NoDup_singleton|done|done]. cbn. split_and!; [done|done|]. by exists 0.
Qed.

Lemma no_unit_idle_witness :
  shared sem_demo = 1%N ∧ ∃ A, NoDup A ∧ (1 <= N.of_nat (length A))%N ∧ ∀ u, u ∈ A → awake (λ o, o = Down) sem_demo u.
Proof.
  split; [done|]. apply (no_unit_idle [1] sem_threads 0%N sem_sched sem_demo 16).
  - apply one_idle_ok.
  - done.
  - apply sem_demo_reached.
  - apply sem_demo_blocked.
Defined.

Lemma scheduler_never_fails_witness :
  ∃ me tcb, cur sem_demo 0 = Some (me, tcb) ∧ ∀ ch, enabled sem_demo tcb ch ↔ is_Some (step 0 ch sem_demo).
Proof.
  apply (scheduler_never_fails [1] sem_threads 0%N sem_sched sem_demo 0 (mkCore 24 1 24)).
  - apply one_idle_ok.
  - apply sem_demo_reached.
  - done.
  - done.
Defined.

Lemma threads_conserved_witness :
  ∃ R W P hs,
    holds (readyQueue sem_demo) (next sem_demo) R ∧ holds (waiting (cond sem_demo)) (next sem_demo) W
    ∧ holds (reaperQueue sem_demo) (next sem_demo) P ∧ length hs = length (cores sem_demo)
    ∧ (∀ c core h, cores sem_demo !! c = Some core → hs !! c = Some h →
         ∃ tcb, tcbs sem_demo !! current core = Some tcb
           ∧ in_hand (tcbs sem_demo) (next sem_demo) (idle_thread core) (pc tcb) h)
    ∧ NoDup (R ++ W ++ P ++ concat (zip_with owned (cores sem_demo) hs))
    ∧ ∀ t, t ∈ R ++ W ++ P ++ concat (zip_with owned (cores sem_demo) hs) ↔ is_Some (tcbs sem_demo !! t).
Proof.
  apply (threads_conserved [1] sem_threads 0%N sem_sched sem_demo).
  - apply one_idle_ok.
  - apply sem_demo_reached.
Defined.

End Semaphore.

(** ** Blocking locks *)

Module BlockingLock.

Inductive LockOp := Lock | Unlock.

#[export] Instance lock_run : Monitor bool LockOp := λ o locked,
  match o with
  | Lock => if locked then Some (Blocks locked Lock) else Some (Done true 0 NoNotify)
  | Unlock => if locked then Some (Done false 0 NotifyOne) else None
  end.

Definition free (locked : bool) : nat := if locked then 0%nat else 1%nat.

#[export] Instance lock_tokens : Tokens (λ o, o = Lock) free.
Proof.
  split; intros o st; [intros st' r|intros st' r|intros st' o'|intros st' o']; destruct o, st; intros [=]; subst;
    cbn; split; try done; lia.
Qed.

(** The programs that lock and unlock in turn. *)
Fixpoint balanced (p : list LockOp) : Prop :=
  match p with
  | [] => True
  | Lock :: Unlock :: p => balanced p
  | _ => False
  end.

(** Between [lock] and [unlock]. *)
Definition holds_lock (p : list LockOp) : Prop := ∃ rest, p = Unlock :: rest ∧ balanced rest.

Definition fair_use (ch : Choice LockOp) : Prop := match ch with Spawn _ p _ _ => balanced p | _ => True end.

Definition holder (s : Sys bool LockOp) (t : Z) : Prop := ∃ tcb, tcbs s !! t = Some tcb ∧ holds_lock (prog tcb).

Record exclusive (s : Sys bool LockOp) : Prop := {
  excl_progs : ∀ t tcb, tcbs s !! t = Some tcb → balanced (prog tcb) ∨ holds_lock (prog tcb);
  excl_one : ∀ t u, holder s t → holder s u → t = u;
  excl_locked : shared s = true ↔ ∃ t, holder s t;
}.

Lemma balanced_not_holder p : balanced p → ¬ holds_lock p.
Proof. by intros Hb (rest & -> & _). Qed.

Lemma exclusive_quiet new s G s' G' :
  (∀ t p, new = Some (t, p) → balanced p) → quiet new s G s' G' → exclusive s → exclusive s'.
Proof.
  intros Hnew [Hsh _ Hback Hfwd _] [Hp H1 Hl].
  assert (∀ t, holder s' t ↔ holder s t) as Hh.
  { intros t. split; intros (x & Hx & Hhl).
    - destruct (Hback t x Hx) as [(y & Hy & E & _)|(_ & p & Ep & E & _)]; [exists y; by rewrite <- E|].
      exfalso. eapply balanced_not_holder; [by eapply Hnew|by rewrite <- E].
    - destruct (Hfwd t x Hx) as [x' Hx']; [by destruct Hhl as (rest & -> & _)|]. exists x'. split; [done|].
      destruct (Hback t x' Hx') as [(y & Hy & E & _)|(? & _)]; [|congruence]. rewrite E. by simplify_eq. }
  split.
  - intros t x Hx. destruct (Hback t x Hx) as [(y & Hy & E & _)|(_ & p & Ep & E & _)].
    + rewrite E. by eapply Hp.
    + left. rewrite E. by eapply Hnew.
  - intros t u. rewrite !Hh. apply H1.
  - rewrite Hsh, Hl. split; intros [t Ht]; exists t; by apply Hh.
Qed.

(** An operation of [me] that changes its program. *)
Lemma exclusive_set s s' me tcb tcb' :
  tcbs s !! me = Some tcb → tcbs s' = <[me := tcb']> (tcbs s) → exclusive s →
  (balanced (prog tcb') ∧ shared s' = false ∧ (shared s = true → holds_lock (prog tcb)))
  ∨ (holds_lock (prog tcb') ∧ shared s' = true ∧ shared s = false)
  ∨ (balanced (prog tcb') ∧ balanced (prog tcb) ∧ shared s' = shared s) →
  exclusive s'.
Proof.
  intros Hme HT [Hp H1 Hl] Hcase.
  assert (∀ t, t ≠ me → holder s' t ↔ holder s t) as Hh
    by (intros t Ht; unfold holder; by rewrite HT, lookup_insert_ne).
  assert (holder s' me ↔ holds_lock (prog tcb')) as Hm.
  { unfold holder. rewrite HT, lookup_insert_eq. split; [by intros (x & [= <-] & ?)|]. intros ?. by exists tcb'. }
  assert (holder s me ↔ holds_lock (prog tcb)) as Hm0.
  { unfold holder. rewrite Hme. split; [by intros (x & [= <-] & ?)|]. intros ?. by exists tcb. }
  assert (balanced (prog tcb') ∨ holds_lock (prog tcb')) as Hpm by naive_solver.
  split.
  - intros t x. rewrite HT. intros [[<- <-]|[_ Hx]]%lookup_insert_Some; [done|by eapply Hp].
  - intros t u Ht Hu. destruct Hcase as [(Hb & _ & Hlk)|[(Hhl & _ & Hs)|(Hb & Hb0 & _)]].
    + apply balanced_not_holder in Hb. assert (t ≠ me) as Htm by (intros ->; tauto). assert (u ≠ me) as Hum by (intros ->; tauto).
      apply H1; by apply Hh.
    + destruct (decide (t = me)) as [->|Htm], (decide (u = me)) as [->|Hum]; [done|exfalso..].
      * rewrite (proj2 Hl) in Hs; [done|]. exists u. by apply Hh.
      * rewrite (proj2 Hl) in Hs; [done|]. exists t. by apply Hh.
      * rewrite (proj2 Hl) in Hs; [done|]. exists t. by apply Hh.
    + apply balanced_not_holder in Hb. assert (t ≠ me) as Htm by (intros ->; tauto). assert (u ≠ me) as Hum by (intros ->; tauto).
      apply H1; by apply Hh.
  - destruct Hcase as [(Hb & -> & Hlk)|[(Hhl & -> & Hs)|(Hb & Hb0 & ->)]].
    + split; [done|]. intros [t Ht]. exfalso. destruct (decide (t = me)) as [->|Htm].
      * apply Hm in Ht. by apply balanced_not_holder in Hb.
      * apply Hh in Ht; [|done]. assert (shared s = true) as E by (apply Hl; by exists t).
        apply Htm. apply H1; [done|]. by apply Hm0, Hlk.
    + split; [|done]. intros _. exists me. by apply Hm.
    + rewrite Hl. split; intros [t Ht]; (destruct (decide (t = me)) as [->|Htm]; [|exists t; by apply Hh]); exfalso.
      * apply Hm0 in Ht. by apply balanced_not_holder in Hb0.
      * apply Hm in Ht. by apply balanced_not_holder in Hb.
Qed.

Lemma exclusive_step s G c ch s' G' : fair_use ch → effect c ch s G s' G' → exclusive s → exclusive s'.
Proof.
  intros Huse Heff Hex. destruct Heff as [Hq|me tcb o rest oc Hcur Hpc Hi Hpr Hoc Hop].
  - eapply exclusive_quiet; [|exact Hq|done]. intros t p E. by destruct ch; cbn in *; simplify_eq.
  - unfold cur in Hcur. destruct (cores s !! c) as [core|]; [|done]. cbn in Hcur.
    destruct (tcbs s !! current core) as [x|] eqn:Hme; [|done]. cbn in Hcur. simplify_eq.
    destruct (excl_progs s Hex _ _ Hme) as [Hb|(r & E & Hb)]; rewrite Hpr in *; [|injection E as -> ->].
    + destruct o; [|done]. destruct rest as [|[] rest]; try done. unfold run, lock_run in Hoc.
      destruct (shared s) eqn:Es; simplify_eq; cbn in Hop.
      * destruct Hop as (Hsh & _ & _ & HT). eapply exclusive_set; [exact Hme|exact HT|done|].
        right. right. rewrite Hpr, Hsh, Es. done.
      * destruct Hop as (Hsh & (p & HT & _) & _). eapply exclusive_set; [exact Hme|exact HT|done|].
        right. left. rewrite Hsh. split_and!; [by exists rest|done|done].
    + unfold run, lock_run in Hoc. destruct (shared s) eqn:Es; simplify_eq; cbn in Hop.
      destruct Hop as (Hsh & (p & HT & _) & _). eapply exclusive_set; [exact Hme|exact HT|done|].
      left. rewrite Hsh, Hpr. split_and!; [done|done|]. intros _. by exists r.
Qed.

(** C9: for threads that lock and unlock a [BlockingLock] in turn, at every point
    of every schedule at most one thread is between its [lock] and its
    [unlock], the lock is taken exactly when one is, and the assertion of
    [unlock] holds for it. *)
Theorem mutual_exclusion idles l (sch : list (nat * Choice LockOp)) s
    (Hi : idles_ok idles) (Hl : Forall (λ x, balanced x.2) l) (Hsch : Forall (λ x, fair_use x.2) sch)
    (Hr : reached idles l false sch = Some s) :
  (∀ t u, holder s t → holder s u → t = u) ∧ (shared s = true ↔ ∃ t, holder s t)
  ∧ ∀ t, holder s t → run Unlock (shared s) ≠ None.
Proof.
  destruct (reached_inv fair_use (λ _ s _, exclusive s) idles l false sch s Hi Hsch Hr) as (G & _ & [_ H1 H2]).
  - intros s0 G [_ Hsh _ _ _ _ Hth _].
    assert (∀ t, ¬ holder s0 t) as Hno.
    { intros t (x & Hx & rest & E & _). destruct (Hth t x Hx) as [[-> _]|(p & Hp & ->)]; [done|]. cbn in E. subst p.
      apply list_elem_of_In, in_rev, list_elem_of_In in Hp.
      by apply (proj1 (Forall_forall _ _) Hl) in Hp. }
    split.
    + intros t x Hx. left. destruct (Hth t x Hx) as [[-> _]|(p & Hp & ->)]; [done|].
      apply list_elem_of_In, in_rev, list_elem_of_In in Hp. by apply (proj1 (Forall_forall _ _) Hl) in Hp.
    + intros t u Ht. by destruct (Hno t).
    + rewrite Hsh. split; [done|]. intros [t Ht]. by destruct (Hno t).
  - intros n s0 G c ch s1 G' Huse _ _ Hex Heff. by eapply exclusive_step.
  - split_and!; [done|done|]. intros t Ht. rewrite (proj2 H2); [done|by exists t].
Qed.

(** Thread 8 has the lock, thread 16 waits for it. *)
Definition lock_sched : list (nat * Choice LockOp) :=
  [(0%nat, Go); (0%nat, Go); (0%nat, Go); (0%nat, Yield); (0%nat, Go); (0%nat, Go)].
Definition lock_threads : list (Z * list LockOp) := [(8, [Lock; Unlock]); (16, [Lock; Unlock])].
Definition lock_demo : Sys bool LockOp :=
  Eval vm_compute in default (boot [1] false) (reached [1] lock_threads false lock_sched).

Lemma mutual_exclusion_witness :
  holder lock_demo 8
  ∧ (∀ t u, holder lock_demo t → holder lock_demo u → t = u) ∧ (shared lock_demo = true ↔ ∃ t, holder lock_demo t)
  ∧ ∀ t, holder lock_demo t → run Unlock (shared lock_demo) ≠ None.
Proof.
  split.
  - eexists. split; [reflexivity|]. by exists [].
  - apply (mutual_exclusion [1] lock_threads lock_sched lock_demo).
    + apply Semaphore.one_idle_ok.
    + by repeat constructor.
    + by repeat constructor.
    + by vm_compute.
Defined.

End BlockingLock.

(** ** Barriers *)

Module Barrier.

(** [Resync] is the operation of a thread that has arrived and waits in the loop. *)
Inductive BarrierOp := Sync | Resync.
#[export] Instance BarrierOp_eq_dec : EqDecision BarrierOp.
Proof. solve_decision. Defined.

#[export] Instance barrier_run : Monitor N BarrierOp := λ o count,
  match o with
  | Sync =>
      let count := ((count + 18446744073709551615) mod 18446744073709551616)%N in
      if (count =? 0)%N then Some (Done count 0 NotifyAll) else Some (Blocks count Resync)
  | Resync => if negb (count =? 0)%N then Some (Blocks count Resync) else Some (Done count 0 NoNotify)
  end.

#[export] Instance barrier_notifies : NotifiesAll (λ _, True) (λ _ _, True).
Proof.
  split; try done.
  - intros n o st st' r nt o' _ _ Hr Hnt _ Hw. destruct o; cbn in Hr; repeat case_match; by simplify_eq.
  - intros n o st st' o1 o' _ Hr _ Hw. unfold waits, run, barrier_run in *. destruct o.
    + destruct ((st + 18446744073709551615) mod 18446744073709551616 =? 0)%N eqn:E; simplify_eq.
      destruct Hw as [->|Hw]; [by rewrite E|]. destruct o'; [|by rewrite E].
      cbv zeta in Hw. by case_match.
    + destruct (st =? 0)%N eqn:E; cbn in Hr; simplify_eq.
      destruct Hw as [->|Hw]; [by rewrite E|]. destruct o'; [done|by rewrite E].
  - intros n [] st st' o1 o' _; cbn; repeat case_match; intros [=].
Qed.

Definition pending (s : Sys N BarrierOp) (t : Z) : bool :=
  match tcbs s !! t with Some tcb => bool_decide (prog tcb = [Sync]) | None => false end.

(** Of the threads [ts], those that have not arrived yet. *)
Definition missing (s : Sys N BarrierOp) (ts : list Z) : list Z := filter (λ t, pending s t = true) ts.

Record counted (ts : list Z) (s : Sys N BarrierOp) : Prop := {
  counted_count : shared s = N.of_nat (length (missing s ts));
  counted_progs : ∀ t tcb, tcbs s !! t = Some tcb →
    (prog tcb = [] ∨ prog tcb = [Resync] ∨ prog tcb = [Sync]) ∧ (prog tcb = [Sync] → t ∈ ts)
    ∧ (out tcb ≠ [] → shared s = 0%N);
}.

Lemma missing_ext s s' ts : (∀ t, t ∈ ts → pending s' t = pending s t) → missing s' ts = missing s ts.
Proof.
  unfold missing. induction ts as [|t ts IH]; intros E; [done|]. rewrite !filter_cons, (E t) by left.
  rewrite IH; [done|]. intros u Hu. apply E. by right.
Qed.

(** One of the missing threads arrives. *)
Lemma missing_arrive s s' ts me :
  NoDup ts → me ∈ ts → pending s me = true → pending s' me = false → (∀ t, t ≠ me → pending s' t = pending s t) →
  length (missing s ts) = S (length (missing s' ts)).
Proof.
  intros Hnd Hin Hp Hp' E. induction ts as [|t ts IH]; [by apply not_elem_of_nil in Hin|].
  apply NoDup_cons in Hnd as [Hn Hnd]. unfold missing in *. rewrite !filter_cons. apply elem_of_cons in Hin as [<-|Hin].
  - rewrite Hp, Hp'. rewrite decide_True, decide_False by done. cbn. f_equal.
    pose proof (missing_ext s s' ts) as Hm. unfold missing in Hm. rewrite Hm; [done|].
    intros u Hu. apply E. by intros ->.
  - assert (t ≠ me) as Htm by (by intros ->). rewrite (E t Htm). case_decide; cbn; rewrite (IH Hnd Hin); done.
Qed.

Lemma counted_quiet ts s G s' G' : quiet None s G s' G' → counted ts s → counted ts s'.
Proof.
  intros [Hsh _ Hback Hfwd _] [Hc Hp].
  assert (∀ t, pending s' t = pending s t) as Hpe.
  { intros t. unfold pending. destruct (tcbs s' !! t) as [x'|] eqn:E.
    - destruct (Hback t x' E) as [(x & -> & -> & _)|(_ & p & ? & _)]; done.
    - destruct (tcbs s !! t) as [x|] eqn:Ex; [|done]. symmetry. apply bool_decide_eq_false. intros Epr.
      destruct (Hfwd t x Ex) as [? ?]; [by rewrite Epr|congruence]. }
  split.
  - rewrite Hsh, Hc. rewrite (missing_ext s s'); done.
  - intros t x' Hx'. destruct (Hback t x' Hx') as [(x & Hx & -> & -> & _)|(_ & p & ? & _)]; [|done].
    rewrite Hsh. by apply Hp.
Qed.

Lemma counted_step ts s G c ch s' G' :
  NoDup ts → Z.of_nat (length ts) < 18446744073709551616 → no_spawn ch → effect c ch s G s' G' → counted ts s → counted ts s'.
Proof.
  intros Hnd Hlen Hch Heff Hcn. destruct Heff as [Hq|me tcb o rest oc Hcur Hpc Hi Hpr Hoc Hop].
  { assert (created ch = None) as E by (by destruct ch). rewrite E in Hq. by eapply counted_quiet. }
  unfold cur in Hcur. destruct (cores s !! c) as [core|]; [|done]. cbn in Hcur.
  destruct (tcbs s !! current core) as [x|] eqn:Hme; [|done]. cbn in Hcur. simplify_eq.
  destruct Hcn as [Hc Hp]. destruct (Hp _ _ Hme) as (Hpg & Hin & Hout). rewrite Hpr in *.
  assert (rest = []) as -> by (by destruct Hpg as [?|[[=]|[=]]]).
  assert (∀ y, tcbs s' = <[current core := y]> (tcbs s) → ∀ t, t ≠ current core → pending s' t = pending s t) as Hpe
    by (intros y HT t Ht; unfold pending; by rewrite HT, lookup_insert_ne).
  assert (∀ y, tcbs s' = <[current core := y]> (tcbs s) → prog y ≠ [Sync] → pending s' (current core) = false) as Hpm.
  { intros y HT Hy. unfold pending. rewrite HT, lookup_insert_eq. by apply bool_decide_eq_false. }
  assert (length (missing s ts) <= length ts)%nat as Hle by apply length_filter.
  destruct o; unfold run, barrier_run in Hoc.
  - assert (pending s (current core) = true) as Hpend by (unfold pending; rewrite Hme; by apply bool_decide_eq_true).
    assert (∀ y, tcbs s' = <[current core := y]> (tcbs s) → prog y ≠ [Sync] →
      length (missing s ts) = S (length (missing s' ts))) as Harr.
    { intros y HT Hy. eapply missing_arrive; try done; [by apply Hin|by eapply Hpm|by eapply Hpe]. }
    assert (∀ k, length (missing s ts) = S k →
      ((shared s + 18446744073709551615) mod 18446744073709551616)%N = N.of_nat k) as Hdec.
    { intros k E. rewrite Hc, E. replace (N.of_nat (S k) + 18446744073709551615)%N with (N.of_nat k + 1 * 18446744073709551616)%N by lia.
      rewrite N.Div0.mod_add, N.mod_small by lia. done. }
    destruct (N.eqb_spec ((shared s + 18446744073709551615) mod 18446744073709551616) 0) as [E|E]; simplify_eq; cbn in Hop.
    + destruct Hop as (Hsh & (p & HT & _) & _). rewrite E in Hsh. pose proof (Harr _ HT ltac:(done)) as Ha.
      pose proof (Hdec _ Ha) as Hd. split; [congruence|]. intros t x. rewrite HT, Hsh.
      intros [[<- <-]|[Hne Hx]]%lookup_insert_Some; [split_and!; [by left|done|done]|].
      destruct (Hp t x Hx) as (? & ? & _). done.
    + destruct Hop as (Hsh & _ & _ & HT). pose proof (Harr _ HT ltac:(done)) as Ha.
      pose proof (Hdec _ Ha) as Hd. split; [congruence|]. intros t x. rewrite HT, Hsh.
      intros [[<- <-]|[Hne Hx]]%lookup_insert_Some.
      * split_and!; [by right; left|done|]. intros Ho. specialize (Hout Ho). lia.
      * destruct (Hp t x Hx) as (? & ? & Ho). split_and!; [done|done|]. intros Hne'. specialize (Ho Hne'). lia.
  - destruct (N.eqb_spec (shared s) 0) as [E|E]; cbn in Hoc; simplify_eq; cbn in Hop.
    + destruct Hop as (Hsh & (p & HT & _) & _). split.
      * rewrite Hsh, Hc. f_equal. f_equal. symmetry. apply missing_ext. intros t _.
        destruct (decide (t = current core)) as [->|Ht]; [|by eapply Hpe]. rewrite (Hpm _ HT) by done.
        unfold pending. rewrite Hme. symmetry. apply bool_decide_eq_false. by rewrite Hpr.
      * intros t x. rewrite HT, Hsh. intros [[<- <-]|[Hne Hx]]%lookup_insert_Some; [split_and!; [by left|done|done]|by apply Hp].
    + destruct Hop as (Hsh & _ & _ & HT). split.
      * rewrite Hsh, Hc. f_equal. f_equal. symmetry. apply missing_ext. intros t _.
        destruct (decide (t = current core)) as [->|Ht]; [|by eapply Hpe]. rewrite (Hpm _ HT) by done.
        unfold pending. rewrite Hme. symmetry. apply bool_decide_eq_false. by rewrite Hpr.
      * intros t x. rewrite HT, Hsh. intros [[<- <-]|[Hne Hx]]%lookup_insert_Some; [|by apply Hp].
        split_and!; [by right; left|done|done].
Qed.

(** C22: a [Barrier] made for [n] threads, used once by each of [n] threads: no
    thread returns from [sync] before all [n] have arrived, and as long as a
    thread is blocked in it some thread has not arrived yet, so the last arrival
    leaves nobody blocked. *)
Theorem barrier_correct idles ts (sch : list (nat * Choice BarrierOp)) s t
    (Hi : idles_ok idles) (Hnd : NoDup ts) (Hlen : Z.of_nat (length ts) < 18446744073709551616)
    (Hn : short_schedule sch) (Hsch : Forall (λ x, no_spawn x.2) sch)
    (Hr : reached idles ((λ t, (t, [Sync])) <$> ts) (N.of_nat (length ts)) sch = Some s) :
  ((∃ tcb, tcbs s !! t = Some tcb ∧ out tcb ≠ []) → missing s ts = [])
  ∧ (blocked s t → missing s ts ≠ []).
Proof.
  destruct (reached_inv no_spawn (λ _ s _, counted ts s) idles _ _ sch s Hi Hsch Hr) as (G & _ & [Hc Hp]).
  - intros s0 G [_ Hsh _ _ _ _ Hth Hall]. split.
    + rewrite Hsh. f_equal. symmetry. f_equal. apply filter_Forall, Forall_forall. intros u Hu.
      unfold pending. rewrite (Hall u [Sync]); [by apply bool_decide_eq_true|].
      apply list_elem_of_In. rewrite <- in_rev. apply list_elem_of_In, list_elem_of_fmap. by exists u.
    + intros t0 x Hx. destruct (Hth t0 x Hx) as [[-> _]|(p & Hp & ->)]; [by split_and!; [left|..]|].
      apply list_elem_of_In, in_rev, list_elem_of_In, list_elem_of_fmap in Hp as (u & [= -> ->] & Hu).
      split_and!; [by right; right|done|done].
  - intros n s0 G c ch s1 G' Hch _ _ Hcn Heff. by eapply counted_step.
  - split.
    + intros (tcb & Ht & Ho). destruct (Hp t tcb Ht) as (_ & _ & H0). rewrite (H0 Ho) in Hc.
      destruct (missing s ts); [done|cbn in Hc; lia].
    + intros Hb E. destruct (no_lost_wakeup (λ _, True) (λ _ _, True) idles _ _ sch s t Hi Hr I Hn Hb) as (tcb & o & rest & Ht & Hpr & Hw).
      specialize (Hw I). rewrite Hc, E in Hw. by destruct o.
Qed.

(** Thread 8 waits at a barrier for two, thread 16 has not arrived. *)
Definition barrier_sched : list (nat * Choice BarrierOp) := replicate 5 (0%nat, Go).
Definition barrier_demo : Sys N BarrierOp :=
  Eval vm_compute in default (boot [1] 0%N) (reached [1] [(8, [Sync]); (16, [Sync])] 2%N barrier_sched).

Lemma barrier_correct_witness :
  blocked barrier_demo 8 ∧ missing barrier_demo [8; 16] ≠ [].
Proof.
  assert (blocked barrier_demo 8) as Hb.
  { exists [8]. split; [|by left]. split; [|apply NoDup_singleton|done|done]. cbn. split_and!; [done|done|]. by exists 0. }
  split; [done|]. revert Hb. apply (barrier_correct [1] [8; 16] barrier_sched barrier_demo 8).
  - apply Semaphore.one_idle_ok.
  - apply NoDup_cons. split; [by intros ?%list_elem_of_singleton|apply NoDup_singleton].
  - done.
  - done.
  - by repeat constructor.
  - by vm_compute.
Defined.

End Barrier.

(** ** Count-down latches *)

Module CountDownLatch.

Inductive LatchOp := Up | Down | Sync.

#[export] Instance latch_run : Monitor N LatchOp := λ o count,
  match o with
  | Up => Some (Done ((count + 1) mod 18446744073709551616)%N 0 NoNotify)
  | Down =>
      if (count =? 0)%N then None
      else
        let count := (count - 1)%N in
        if (count =? 0)%N then Some (Done count 0 NotifyAll) else Some (Done count 0 NoNotify)
  | Sync => if negb (count =? 0)%N then Some (Blocks count Sync) else Some (Done count 0 NoNotify)
  end.

Lemma latch_waits_iff o count : waits o count ↔ o = Sync ∧ count ≠ 0%N.
Proof.
  unfold waits, run, latch_run. destruct o; (split; [|try by intros [? _]]).
  - done.
  - repeat case_match; done.
  - destruct (N.eqb_spec count 0); done.
  - intros [_ Hc]. by rewrite (proj2 (N.eqb_neq _ _) Hc).
Qed.

(** The count starts at zero and grows by one in a step, so it does not wrap. *)
#[export] Instance latch_notifies : NotifiesAll (λ _, True) (λ n count, (count <= N.of_nat n)%N).
Proof.
  split.
  - intros n st Hst. lia.
  - intros n o st oc Hv Hr. pose proof (N.Div0.mod_le (st + 1) 18446744073709551616).
    unfold run, latch_run in Hr. destruct o; repeat case_match; simplify_eq; cbn; lia.
  - intros n o st st' r nt o' Hv Hn Hr Hnt _. rewrite !latch_waits_iff. intros [-> Hst]. split; [done|].
    unfold run, latch_run in Hr. destruct o.
    + simplify_eq. rewrite N.mod_small; lia.
    + destruct (N.eqb_spec st 0); [done|]. destruct (N.eqb_spec (st - 1) 0); by simplify_eq.
    + destruct (N.eqb_spec st 0); cbn in Hr; by simplify_eq.
  - intros n o st st' o1 o' Hv Hr _. rewrite !latch_waits_iff. unfold run, latch_run in Hr. destruct o; [done| |].
    + repeat case_match; done.
    + destruct (N.eqb_spec st 0); cbn in Hr; [done|]. simplify_eq. intros [->|[-> _]]; done.
  - intros n o st st' o1 o' Hv Hr. unfold run, latch_run in Hr. destruct o; repeat case_match; done.
Qed.

(** no wakeup of a [CountDownLatch] is lost: a thread that is blocked in
    [sync] is blocked because the count is not zero. *)
Theorem blocked_counts idles l (sch : list (nat * Choice LatchOp)) s t
    (Hi : idles_ok idles) (Hn : short_schedule sch)
    (Hr : reached idles l 0%N sch = Some s) (Hb : blocked s t) : shared s ≠ 0%N.
Proof.
  destruct (no_lost_wakeup (λ _, True) (λ n count, (count <= N.of_nat n)%N) idles l 0%N sch s t Hi Hr)
    as (tcb & o & rest & _ & _ & Hw); [cbn; lia|done|done|]. by apply latch_waits_iff in Hw as [_ ?].
Qed.

(** Thread 8 has counted up and waits, thread 16 will count down. *)
Definition latch_sched : list (nat * Choice LatchOp) := replicate 6 (0%nat, Go).
Definition latch_demo : Sys N LatchOp :=
  Eval vm_compute in default (boot [1] 0%N) (reached [1] [(8, [Up; Sync]); (16, [Down])] 0%N latch_sched).

Lemma blocked_counts_witness : blocked latch_demo 8 ∧ shared latch_demo ≠ 0%N.
Proof.
  assert (blocked latch_demo 8) as Hb.
  { exists [8]. split; [|by left]. split; [|apply NoDup_singleton|done|done]. cbn. split_and!; [done|done|]. by exists 0. }
  split; [done|]. apply (blocked_counts [1] [(8, [Up; Sync]); (16, [Down])] latch_sched latch_demo 8).
  - apply Semaphore.one_idle_ok.
  - done.
  - by vm_compute.
  - done.
Defined.

End CountDownLatch.

(** ** Futures *)

Module Future.

Record FutureState := mkFuture { ready : bool; value : Z }.
#[export] Instance eta_FutureState : Eta FutureState := fun f => mkFuture (ready f) (value f).

(** [get] reads the value after it has released the lock. *)
Inductive FutureOp := Set_ (v : Z) | Get | GetValue.

#[export] Instance future_run : Monitor FutureState FutureOp := λ o f,
  match o with
  | Set_ v => Some (Done (f .[ value := v ] .[ ready := true ]) 0 NotifyAll)
  | Get => if negb (ready f) then Some (Blocks f Get) else Some (Continues f GetValue)
  | GetValue => Some (Done f (value f) NoNotify)
  end.

Lemma future_waits_iff o f : waits o f ↔ o = Get ∧ ready f = false.
Proof. unfold waits, run, future_run. destruct o, (ready f); cbn; naive_solver. Qed.

#[export] Instance future_notifies : NotifiesAll (λ _, True) (λ _ _, True).
Proof.
  split; try done.
  - intros n o st st' r nt o' _ _ Hr Hnt _. rewrite !future_waits_iff. unfold run, future_run in Hr.
    destruct o, (ready st) eqn:E; cbn in Hr; simplify_eq; by rewrite ?E.
  - intros n o st st' o1 o' _ Hr _. rewrite !future_waits_iff. unfold run, future_run in Hr.
    destruct o, (ready st) eqn:E; cbn in Hr; simplify_eq. rewrite E. naive_solver.
  - intros n o st st' o1 o' _ Hr _. rewrite !future_waits_iff. unfold run, future_run in Hr.
    destruct o, (ready st) eqn:E; cbn in Hr; simplify_eq. by rewrite E.
Qed.

(** The programs that set the value [v] or get it. *)
Definition client (v : Z) (p : list FutureOp) : Prop := p = [Set_ v] ∨ p = [Get].

(** The value the future is set to, and where a thread that gets it is. *)
Record delivering (l : list (Z * list FutureOp)) (v : Z) (s : Sys FutureState FutureOp) : Prop := {
  del_value : ready (shared s) = true → value (shared s) = v;
  del_progs : ∀ t tcb, tcbs s !! t = Some tcb → prog tcb = [] ∨ client v (prog tcb) ∨ prog tcb = [GetValue] ∧ ready (shared s) = true;
  del_getters : ∀ t tcb, (t, [Get]) ∈ l → tcbs s !! t = Some tcb →
    out tcb = [] ∧ prog tcb = [Get] ∨ out tcb = [] ∧ prog tcb = [GetValue] ∨ out tcb = [v] ∧ prog tcb = [];
}.

(** A step of [me] that leaves the other threads alone. *)
Lemma delivering_set l v s s' me tcb tcb' :
  tcbs s !! me = Some tcb → tcbs s' = <[me := tcb']> (tcbs s) → delivering l v s →
  (ready (shared s') = true → value (shared s') = v) → (ready (shared s) = true → ready (shared s') = true) →
  (prog tcb' = [] ∨ client v (prog tcb') ∨ prog tcb' = [GetValue] ∧ ready (shared s') = true) →
  (out tcb = [] ∧ prog tcb = [Get] ∨ out tcb = [] ∧ prog tcb = [GetValue] ∨ out tcb = [v] ∧ prog tcb = [] →
   out tcb' = [] ∧ prog tcb' = [Get] ∨ out tcb' = [] ∧ prog tcb' = [GetValue] ∨ out tcb' = [v] ∧ prog tcb' = []) →
  delivering l v s'.
Proof.
  intros Hme HT [Hv Hp Hg] Hv' Hrd Hpm Hgm. split; [done| |]; rewrite HT; intros t x.
  - intros [[<- <-]|[_ Hx]]%lookup_insert_Some; [done|].
    destruct (Hp t x Hx) as [?|[?|[? ?]]]; [by left|by right; left|right; right]. split; [done|by apply Hrd].
  - intros Hin [[<- <-]|[_ Hx]]%lookup_insert_Some; [apply Hgm|]; by eapply Hg.
Qed.

Lemma delivering_step l v s G c ch s' G' :
  no_spawn ch → effect c ch s G s' G' → delivering l v s → delivering l v s'.
Proof.
  intros Hch Heff Hd. destruct Heff as [[Hsh _ Hback _ _]|me tcb o rest oc Hcur Hpc Hi Hpr Hoc Hop].
  - destruct Hd as [Hv Hp Hg]. split; rewrite ?Hsh; [done| |]; intros t x'; [intros Hx'|intros Hin Hx'];
      (destruct (Hback t x' Hx') as [(x & Hx & E1 & E2 & _)|(_ & p & Ep & _)]; [|by destruct ch]);
      rewrite ?E1, ?E2; [by eapply Hp|by eapply Hg].
  - unfold cur in Hcur. destruct (cores s !! c) as [core|]; [|done]. cbn in Hcur.
    destruct (tcbs s !! current core) as [x|] eqn:Hme; [|done]. cbn in Hcur. simplify_eq.
    pose proof (del_value _ _ _ Hd) as Hv. unfold run, future_run in Hoc.
    destruct (del_progs _ _ _ Hd _ _ Hme) as [E|[[E|E]|[E Hrd]]]; rewrite Hpr in E; [done|injection E as -> ->..].
    + simplify_eq. destruct Hop as (Hsh & (p & HT & _) & _).
      eapply (delivering_set l v s s' _ tcb); [done|exact HT|done|by rewrite Hsh|by rewrite Hsh|by left|].
      rewrite Hpr. naive_solver.
    + destruct (ready (shared s)) eqn:Er; cbn in Hoc; simplify_eq.
      * destruct Hop as (Hsh & _ & _ & HT). eapply (delivering_set l v s s' _ tcb); [done|exact HT|done|rewrite Hsh..|]; try done.
        -- intros _. by apply Hv.
        -- right. right. by rewrite Er.
        -- rewrite Hpr. unfold set_field. cbn. naive_solver.
      * destruct Hop as (Hsh & _ & _ & HT). eapply (delivering_set l v s s' _ tcb); [done|exact HT|done|rewrite Hsh..|]; try done.
        -- by rewrite Er.
        -- right. left. by right.
        -- rewrite Hpr. unfold set_field. cbn. naive_solver.
    + simplify_eq. destruct Hop as (Hsh & (p & HT & _) & _).
      eapply (delivering_set l v s s' _ tcb); [done|exact HT|done|rewrite Hsh..|]; try done; [by left|].
      rewrite Hpr. unfold set_field. cbn. rewrite (Hv Hrd). intros [[? ?]|[[-> _]|[? ?]]]; [done|by right; right|done].
Qed.

(** a [Future] that is only ever set to [v] (by any number of threads)
    delivers it: a thread that calls [get] returns with [v] when it returns, and
    no thread is blocked in [get] once the future is set. *)
Theorem future_delivers idles l v v0 (sch : list (nat * Choice FutureOp)) s
    (Hi : idles_ok idles) (Hn : short_schedule sch)
    (Hl : Forall (λ x, client v x.2) l) (Hsch : Forall (λ x, no_spawn x.2) sch)
    (Hr : reached idles l (mkFuture false v0) sch = Some s) :
  (∀ t tcb, (t, [Get]) ∈ l → tcbs s !! t = Some tcb → prog tcb = [] → out tcb = [v])
  ∧ ∀ t, blocked s t → ready (shared s) = false.
Proof.
  destruct (reached_inv no_spawn (λ _ s _, delivering l v s) idles l _ sch s Hi Hsch Hr) as (G & _ & [Hv Hp Hg]).
  - intros s0 G [_ Hsh _ _ _ _ Hth Hall]. split; [by rewrite Hsh| |].
    + intros t x Hx. destruct (Hth t x Hx) as [[-> _]|(p & Hp & ->)]; [by left|]. right. left.
      apply list_elem_of_In, in_rev, list_elem_of_In in Hp. by apply (proj1 (Forall_forall _ _) Hl) in Hp.
    + intros t x Hin Hx. rewrite (Hall t [Get]) in Hx; [simplify_eq; by left|].
      apply list_elem_of_In. rewrite <- in_rev. by apply list_elem_of_In.
  - intros n s0 G c ch s1 G' Huse _ _ Hd Heff. by eapply delivering_step.
  - split.
    + intros t x Hin Hx E. destruct (Hg t x Hin Hx) as [[_ ?]|[[_ ?]|[? _]]]; congruence.
    + intros t Hb. destruct (no_lost_wakeup (λ _, True) (λ _ _, True) idles l _ sch s t Hi Hr I Hn Hb) as (tcb & o & rest & _ & _ & Hw).
      by apply future_waits_iff in Hw as [_ ?].
Qed.

(** Thread 8 waits for the value, thread 16 sets it, thread 8 returns. *)
Definition future_sched : list (nat * Choice FutureOp) := replicate 12 (0%nat, Go).
Definition future_demo : Sys FutureState FutureOp :=
  Eval vm_compute in default (boot [1] (mkFuture false 0)) (reached [1] [(8, [Get]); (16, [Set_ 5])] (mkFuture false 0) future_sched).

Lemma future_delivers_witness :
  ∃ tcb, tcbs future_demo !! 8 = Some tcb ∧ prog tcb = [] ∧ out tcb = [5].
Proof.
  eexists. split; [reflexivity|]. split; [reflexivity|].
  eapply (future_delivers [1] [(8, [Get]); (16, [Set_ 5])] 5 0 future_sched future_demo).
  - apply Semaphore.one_idle_ok.
  - done.
  - constructor; [by right|]. constructor; [by left|]. constructor.
  - by repeat constructor.
  - by vm_compute.
  - by left.
  - reflexivity.
  - reflexivity.
Defined.

End Future.

(** ** The semaphores of [semop] *)

Module KernelSemaphore.

Record SemState := mkSem { value : Z; removed : bool }.
#[export] Instance eta_SemState : Eta SemState := fun s => mkSem (value s) (removed s).

(** [Semop op] is [semaphore_op] from its start, [Semwait op] from one of its
    waiting loops; [Semctl] is the removal. *)
Inductive KSemOp := Semop (op : Z) | Semwait (op : Z) | Semctl.

Definition wait_zero (sem : SemState) : Outcome SemState KSemOp :=
  if negb (removed sem) && negb (value sem =? 0) then Blocks sem (Semwait 0)
  else if removed sem then Done sem (-1) NoNotify
  else Done sem 0 NoNotify.

Definition wait_dec (op : Z) (sem : SemState) : Outcome SemState KSemOp :=
  let need := - op in
  if negb (removed sem) && (value sem <? need) then Blocks sem (Semwait op)
  else if removed sem then Done sem (-1) NoNotify
  else Done (sem .[ value := value sem - need ]) 0 NoNotify.

(** Signed overflow of [value] is undefined. *)
Definition semaphore_op (op : Z) (sem : SemState) : option (Outcome SemState KSemOp) :=
  if removed sem then Some (Done sem (-1) NoNotify)
  else if 0 <? op then
    if 2147483647 <? value sem + op then None
    else Some (Done (sem .[ value := value sem + op ]) 0 NotifyAll)
  else if op =? 0 then Some (wait_zero sem)
  else Some (wait_dec op sem).

#[export] Instance ksem_run : Monitor SemState KSemOp := λ o sem,
  match o with
  | Semop op => semaphore_op op sem
  | Semwait op => if 0 <? op then None else if op =? 0 then Some (wait_zero sem) else Some (wait_dec op sem)
  | Semctl => Some (Done (sem .[ removed := true ]) 0 NotifyAll)
  end.

(** The operations that wait to decrement. *)
Definition decrement (o : KSemOp) : Prop := match o with Semwait op => op < 0 | _ => False end.

Lemma waits_dec op sem : op < 0 → waits (Semwait op) sem ↔ removed sem = false ∧ value sem < - op.
Proof.
  intros Hop. unfold waits, run, ksem_run. rewrite (proj2 (Z.ltb_ge 0 op)), (proj2 (Z.eqb_neq op 0)) by lia.
  unfold wait_dec. destruct (removed sem) eqn:E; cbn.
  - split; [done|by intros [? _]].
  - destruct (Z.ltb_spec (value sem) (- op)); [done|]. split; [done|]. intros [_ ?]. lia.
Qed.

(** A critical section that does not notify all does not raise the value. *)
Lemma run_lowers o sem oc :
  run o sem = Some oc →
  match oc with
  | Done sem' _ nt => nt = NotifyAll ∨ (removed sem' = removed sem ∧ value sem' <= value sem)
  | Blocks sem' o' => sem' = sem ∧ waits o' sem
  | Continues _ _ => False
  end.
Proof.
  assert (∀ op, op < 0 → match wait_dec op sem with
    | Done sem' _ nt => nt = NotifyAll ∨ (removed sem' = removed sem ∧ value sem' <= value sem)
    | Blocks sem' o' => sem' = sem ∧ waits o' sem | Continues _ _ => False end) as Hdec.
  { intros op Hop. unfold wait_dec. destruct (removed sem) eqn:E; cbn; [right; by rewrite E|].
    destruct (Z.ltb_spec (value sem) (- op)); [split; [done|]; by apply waits_dec|].
    right. unfold set_field. cbn. split; [done|lia]. }
  assert (match wait_zero sem with
    | Done sem' _ nt => nt = NotifyAll ∨ (removed sem' = removed sem ∧ value sem' <= value sem)
    | Blocks sem' o' => sem' = sem ∧ waits o' sem | Continues _ _ => False end) as Hzero.
  { unfold waits, run, ksem_run. unfold wait_zero. destruct (removed sem) eqn:E; cbn; [right; by rewrite E|].
    destruct (value sem =? 0) eqn:Ev; cbn; [right; split; [done|lia]|]. done. }
  unfold run, ksem_run. destruct o as [op|op|]; [unfold semaphore_op|..].
  - destruct (removed sem) eqn:E; [intros [= <-]; right; by split|].
    destruct (Z.ltb_spec 0 op); [destruct (2147483647 <? value sem + op); [done|]; intros [= <-]; by left|].
    destruct (Z.eqb_spec op 0); intros [= <-]; [done|]. apply Hdec. lia.
  - destruct (Z.ltb_spec 0 op); [done|]. destruct (Z.eqb_spec op 0); intros [= <-]; [done|]. apply Hdec. lia.
  - intros [= <-]. by left.
Qed.

#[export] Instance ksem_notifies : NotifiesAll decrement (λ _ _, True).
Proof.
  split; try done.
  - intros n o st st' r nt [|op|] _ _ Hr Hnt Hd; try done. cbn in Hd. rewrite !waits_dec by done.
    apply run_lowers in Hr as [?|[-> ?]]; [done|]. intros [? ?]. split; [done|lia].
  - intros n o st st' o1 o' _ Hr Hd. apply run_lowers in Hr as [-> Hw]. by intros [->|?].
  - intros n o st st' o1 o' _ Hr. by apply run_lowers in Hr.
Qed.

(** no decrement is lost: a thread that is blocked in [semop] with a negative
    operation is blocked because the semaphore still exists and its value is too
    small; a removal or an increment that would do leaves no such thread
    blocked. *)
Theorem decrement_not_lost idles l v (sch : list (nat * Choice KSemOp)) s t op tcb rest
    (Hi : idles_ok idles) (Hn : short_schedule sch)
    (Hr : reached idles l (mkSem v false) sch = Some s) (Hb : blocked s t)
    (Ht : tcbs s !! t = Some tcb) (Hp : prog tcb = Semwait op :: rest) (Hop : op < 0) :
  removed (shared s) = false ∧ value (shared s) < - op.
Proof.
  destruct (no_lost_wakeup decrement (λ _ _, True) idles l _ sch s t Hi Hr I Hn Hb) as (x & o & rest' & Hx & Hpr & Hw).
  assert (x = tcb) as -> by congruence. rewrite Hp in Hpr. simplify_eq. by apply (waits_dec op (shared s) Hop), Hw.
Qed.

(** The machine of the counterexample: one core, thread 8 waits for zero, thread
    16 decrements a value of one to zero. *)
Definition lost_start : list (Z * list KSemOp) := [(8, [Semop 0]); (16, [Semop (-1)])].
Definition lost_schedule : list (nat * Choice KSemOp) :=
  replicate 9 (0%nat, Go) ++ [(0%nat, Reap)].

(** Every step of the stuck machine changes nothing. *)
Definition stuck {St Op} `{Monitor St Op} (s : Sys St Op) : Prop :=
  ∀ c ch s', no_spawn ch → step c ch s = Some s' → s' = s.

Lemma stuck_schedule {St Op} `{Monitor St Op} (s : Sys St Op) sch s' :
  stuck s → Forall (λ x, no_spawn x.2) sch → run_schedule sch s = Some s' → s' = s.
Proof.
  intros Hst. revert s'. induction sch as [|[c ch] sch IH]; intros s' Hn Hr; cbn in Hr; [by simplify_eq|].
  apply Forall_cons in Hn as [Hn1 Hn]. destruct (step c ch s) as [s1|] eqn:E; [|done]. cbn in Hr.
  rewrite (Hst c ch s1 Hn1 E) in Hr. by apply IH.
Qed.

(** Where the schedule ends: thread 16 is gone, the core is in its idle thread. *)
Definition lost_state : Sys SemState KSemOp :=
  mkSys (mkSem 0 false) (mkCondition (mkQueue 8 8 1) 0) new_queue new_queue {[8 := 0]}
    {[8 := mkTCB ActionWait 0 false Off [Semwait 0] []; 1 := mkTCB ActionNone 0 true Run [] []]}
    [mkCore 1 1 1] 1 false.

Lemma lost_state_stuck : stuck lost_state.
Proof.
  intros [|c] ch s' Hn.
  - destruct ch as [| | |]; [..|done]; vm_compute; by intros [= <-].
  - unfold step, cur. cbn. done.
Qed.

(** C37: a wakeup of [semop] with operation zero is lost: with one core, a
    semaphore of value one, a thread that waits for zero and a thread that
    decrements, the schedule leads to a state in which the value is zero and the
    semaphore exists, the first thread is still blocked though its operation
    would now succeed, and no further schedule of the existing threads ever
    changes anything: a decrement that reaches zero notifies nobody. *)
Theorem zero_waiter_lost :
  ∃ s, reached [1] lost_start (mkSem 1 false) lost_schedule = Some s
  ∧ shared s = mkSem 0 false ∧ blocked s 8
  ∧ (∃ tcb, tcbs s !! 8 = Some tcb ∧ prog tcb = [Semwait 0] ∧ run (Semwait 0) (shared s) = Some (Done (shared s) 0 NoNotify))
  ∧ ∀ sch s', Forall (λ x, no_spawn x.2) sch → run_schedule sch s = Some s' → s' = s.
Proof.
  exists lost_state. split_and!; [by vm_compute|done| | |].
  - exists [8]. split; [|by left]. split; [|apply NoDup_singleton|done|done]. cbn. split_and!; [done|done|]. by exists 0.
  - exists (mkTCB ActionWait 0 false Off [Semwait 0] []). by split_and!.
  - intros sch s'. apply stuck_schedule, lost_state_stuck.
Qed.

(** Thread 8 waits to decrement a semaphore of value zero. *)
Definition dec_sched : list (nat * Choice KSemOp) := replicate 5 (0%nat, Go).
Definition dec_demo : Sys SemState KSemOp :=
  Eval vm_compute in default (boot [1] (mkSem 0 false)) (reached [1] [(8, [Semop (-1)]); (16, [Semop 1])] (mkSem 0 false) dec_sched).

Lemma decrement_not_lost_witness :
  blocked dec_demo 8 ∧ removed (shared dec_demo) = false ∧ value (shared dec_demo) < 1.
Proof.
  assert (blocked dec_demo 8) as Hb.
  { exists [8]. split; [|by left]. split; [|apply NoDup_singleton|done|done]. cbn. split_and!; [done|done|]. by exists 0. }
  split; [done|].
  apply (decrement_not_lost [1] [(8, [Semop (-1)]); (16, [Semop 1])] 0 dec_sched dec_demo 8 (-1)
           (mkTCB ActionWait 0 false Off [Semwait (-1)] []) []).
  - apply Semaphore.one_idle_ok.
  - done.
  - by vm_compute.
  - done.
  - reflexivity.
  - reflexivity.
  - lia.
Defined.

End KernelSemaphore.
