(* ===== verification/BlockIO.v ===== *)
(** * Block devices ([block_io.h], [block_io.cc], [ramdisk.cc])

    The base class of everything that is read by blocks: [read] reads within
    one block, [read_all] repeats it.  A class that implements the two virtual
    functions is a value of the record [BlockIO]; the typeclass [Backed] states
    what such a class promises, and [read_all] is proved against it. *)

From S2P Require Import Prelude.

(** The virtual functions of the class; [read_block] returns the bytes it puts
    in the buffer, [None] when it stops the machine. *)
Record BlockIO := mkBlockIO {
  block_size : Z;
  size_in_bytes : Z;
  read_block : Z → option bytes;
}.

(** The C++ template [min]. *)
Definition min_ (a b : Z) : Z := if a <? b then a else b.

(** Division by a zero block size traps. *)
Definition size_in_blocks (d : BlockIO) : option Z :=
  if block_size d =? 0 then None
  else Some (u32 (size_in_bytes d + block_size d - 1) / block_size d).

(** The return value and the bytes written at [buffer]. *)
Definition read (d : BlockIO) (offset desired_n : Z) : option (Z * bytes) :=
  let sz := size_in_bytes d in
  if sz <? offset then Some (-1, [])
  else if offset =? sz then Some (0, [])
  else
    let n := min_ desired_n (u32 (sz - offset)) in
    if block_size d =? 0 then None
    else
      let block_number := offset / block_size d in
      let offset_in_block := offset mod block_size d in
      let actual_n := min_ (u32 (block_size d - offset_in_block)) n in
      if negb (actual_n <=? n) then None
      else if negb (u32 (offset + actual_n) <=? sz) then None
      else if actual_n =? block_size d then
        if negb (offset_in_block =? 0) then None
        else b ← read_block d block_number; Some (actual_n, b)
      else if negb (u32 (offset_in_block + actual_n) <=? block_size d) then None
      else
        temp ← read_block d block_number;
        out ← load_n temp (Z.to_nat offset_in_block) (Z.to_nat actual_n);
        Some (actual_n, out).

(** The loop, with the number of turns it is allowed: every turn that goes on
    reads at least one byte. *)
Fixpoint read_all_loop (fuel : nat) (d : BlockIO) (offset n total_count : Z) (out : bytes)
    : option (Z * bytes) :=
  if n =? 0 then Some (total_count, out)
  else match fuel with
  | O => None
  | S fuel =>
      '(cnt, bs) ← read d offset n;
      if cnt <? 0 then Some (cnt, out)
      else if cnt =? 0 then Some (total_count, out)
      else read_all_loop fuel d (u32 (offset + cnt)) (u32 (n - cnt)) (total_count + cnt) (out ++ bs)
  end.

Definition read_all (d : BlockIO) (offset n : Z) : option (Z * bytes) :=
  read_all_loop (Z.to_nat n) d offset n 0 [].

(** [read(offset, thing)] for a [thing] of [size] bytes. *)
Definition read_thing (d : BlockIO) (offset size : Z) : option bytes :=
  '(cnt, bs) ← read_all d offset size;
  if cnt =? size then Some bs else None.

(** ** The interface

    [d] presents the bytes [data]: its size is theirs and every block that
    starts inside them reads their bytes (past the end anything). *)
Class Backed (d : BlockIO) (data : bytes) : Prop := {
  backed_block_size : 0 < block_size d < 2 ^ 31;
  backed_size : size_in_bytes d = Z.of_nat (length data);
  backed_small : Z.of_nat (length data) < 2 ^ 31;
  backed_read : ∀ b, 0 <= b → b * block_size d < Z.of_nat (length data) →
    ∃ blk, read_block d b = Some blk ∧ Z.of_nat (length blk) = block_size d
    ∧ ∀ i, (i < length blk)%nat → (Z.to_nat (b * block_size d) + i < length data)%nat →
        blk !! i = data !! (Z.to_nat (b * block_size d) + i)%nat;
}.

(** [n] bytes of [data] from [offset] on. *)
Definition slice (data : bytes) (offset n : Z) : bytes :=
  take (Z.to_nat n) (drop (Z.to_nat offset) data).

Lemma length_slice data offset n :
  0 <= offset → 0 <= n → offset + n <= Z.of_nat (length data) → Z.of_nat (length (slice data offset n)) = n.
Proof. intros. unfold slice. rewrite length_take, length_drop. lia. Qed.

Lemma slice_app data offset n m :
  0 <= offset → 0 <= n → 0 <= m →
  slice data offset n ++ slice data (offset + n) m = slice data offset (n + m).
Proof.
  intros. unfold slice. rewrite !Z2Nat.inj_add by lia.
  rewrite <- drop_drop. generalize (drop (Z.to_nat offset) data) as l. intros l.
  by rewrite take_take_drop.
Qed.

Section Backed.
Context (d : BlockIO) (data : bytes) `{!Backed d data}.

Lemma block_slice b i n blk :
  0 <= b → 0 <= i → 0 <= n → i + n <= block_size d → b * block_size d + i + n <= Z.of_nat (length data) →
  Z.of_nat (length blk) = block_size d →
  (∀ j, (j < length blk)%nat → (Z.to_nat (b * block_size d) + j < length data)%nat →
    blk !! j = data !! (Z.to_nat (b * block_size d) + j)%nat) →
  take (Z.to_nat n) (drop (Z.to_nat i) blk) = slice data (b * block_size d + i) n.
Proof using Backed0.
  pose proof backed_block_size as Hbs.
  intros Hb Hi Hn Hin Hend Hl Hblk. unfold slice.
  apply list_eq_same_length with (Z.to_nat n).
  - rewrite length_take, length_drop. lia.
  - rewrite length_take, length_drop. lia.
  - intros k x y Hk Hx Hy. rewrite lookup_take, decide_True, lookup_drop in Hx, Hy by lia.
    rewrite Hblk in Hx by lia.
    replace (Z.to_nat (b * block_size d) + (Z.to_nat i + k))%nat
      with (Z.to_nat (b * block_size d + i) + k)%nat in Hx by lia.
    congruence.
Qed.

(** One call reads some bytes, at least one when any are asked for and left. *)
Lemma read_ok offset n :
  is_u32 offset → is_u32 n → offset < Z.of_nat (length data) →
  ∃ k, read d offset n = Some (k, slice data offset k)
    ∧ 0 <= k <= Z.min n (Z.of_nat (length data) - offset) ∧ (0 < n → 0 < k).
Proof using Backed0.
  intros Ho Hn Hlt. pose proof backed_block_size as Hbs. pose proof backed_size as Hsz.
  pose proof backed_small as Hsm. change (2 ^ 31) with 2147483648 in *.
  unfold read. rewrite Hsz. set (len := Z.of_nat (length data)) in *.
  rewrite (proj2 (Z.ltb_ge _ _)) by lia. rewrite (proj2 (Z.eqb_neq _ _)) by lia.
  rewrite (u32_id (len - offset)) by word_lia.
  set (m := min_ n (len - offset)).
  assert (m = Z.min n (len - offset)) as Hm by (subst m; unfold min_; destruct (Z.ltb_spec n (len - offset)); lia).
  clearbody m. rewrite (proj2 (Z.eqb_neq (block_size d) 0)) by lia.
  set (b := offset / block_size d). set (i := offset mod block_size d).
  assert (offset = b * block_size d + i ∧ 0 <= i < block_size d ∧ 0 <= b) as (Eo & Hi & Hb).
  { subst b i. pose proof (Z.div_mod offset (block_size d)). pose proof (Z.mod_pos_bound offset (block_size d)).
    split_and!; try lia. apply Z.div_pos; word_lia. }
  clearbody b i. rewrite (u32_id (block_size d - i)) by word_lia.
  set (k := min_ (block_size d - i) m).
  assert (k = Z.min (block_size d - i) m) as Hk by (subst k; unfold min_; destruct (Z.ltb_spec (block_size d - i) m); lia).
  clearbody k. assert (0 <= k <= m) as Hkm by word_lia.
  rewrite (proj2 (Z.leb_le k m)) by lia. cbn [negb].
  rewrite u32_id by word_lia. rewrite (proj2 (Z.leb_le _ _)) by lia. cbn [negb].
  destruct (backed_read b) as (blk & -> & Hlb & Hblk); [done|lia|]. cbn [mbind option_bind].
  assert (take (Z.to_nat k) (drop (Z.to_nat i) blk) = slice data offset k) as Hs.
  { rewrite Eo. apply block_slice; try done; lia. }
  exists k. destruct (Z.eqb_spec k (block_size d)) as [Ek|Ek].
  - assert (i = 0) as Hi0 by lia. rewrite Hi0. cbn [Z.eqb negb mbind option_bind].
    split_and!; [|lia..]. rewrite Hi0, drop_0, take_ge in Hs by lia. by rewrite Hs.
  - rewrite u32_id by word_lia. rewrite (proj2 (Z.leb_le _ _)) by lia. cbn [negb].
    rewrite load_n_ok by lia. cbn [mbind option_bind]. rewrite Hs. split_and!; [done|lia..].
Qed.

Lemma read_all_loop_ok fuel : ∀ offset n total out,
  is_u32 offset → is_u32 n → offset <= Z.of_nat (length data) → n <= Z.of_nat fuel →
  read_all_loop fuel d offset n total out =
    Some (total + Z.min n (Z.of_nat (length data) - offset),
          out ++ slice data offset (Z.min n (Z.of_nat (length data) - offset))).
Proof using Backed0.
  pose proof backed_small as Hsm. pose proof backed_size as Hsz. change (2 ^ 31) with 2147483648 in *.
  induction fuel as [|fuel IH]; intros offset n total out Ho Hn Hle Hf; cbn [read_all_loop].
  - assert (n = 0) as -> by word_lia. rewrite Z.eqb_refl, Z.min_l, Z.add_0_r by lia. cbn. by rewrite app_nil_r.
  - destruct (Z.eqb_spec n 0) as [->|Hn0].
    { rewrite Z.min_l, Z.add_0_r by lia. cbn. by rewrite app_nil_r. }
    destruct (decide (offset = Z.of_nat (length data))) as [->|Hne].
    { unfold read. rewrite Hsz, Z.ltb_irrefl, Z.eqb_refl. cbn [mbind option_bind Z.ltb Z.compare Z.eqb].
      rewrite Z.sub_diag, Z.min_r, Z.add_0_r by word_lia. cbn. by rewrite app_nil_r. }
    destruct (read_ok offset n) as (k & -> & Hk & Hk0); [done|done|lia|]. cbn [mbind option_bind].
    specialize (Hk0 ltac:(word_lia)).
    rewrite (proj2 (Z.ltb_ge k 0)), (proj2 (Z.eqb_neq k 0)) by lia.
    rewrite (u32_id (offset + k)), (u32_id (n - k)) by word_lia.
    rewrite IH by word_lia. rewrite <- app_assoc, slice_app by word_lia.
    f_equal. f_equal; [lia|]. do 2 f_equal. lia.
Qed.
End Backed.

(** On any device that presents [data], [read_all] terminates and reads exactly the bytes
    of [data] from the offset on, as many as asked for and left, whatever blocks they lie in; from
    past the end it reports an error. *)
Theorem read_all_exact d data offset n :
  Backed d data → is_u32 offset → is_u32 n → 0 < n →
  read_all d offset n =
    if Z.of_nat (length data) <? offset then Some (-1, [])
    else let k := Z.min n (Z.of_nat (length data) - offset) in Some (k, slice data offset k).
Proof.
  intros B Ho Hn Hn0. destruct (Z.ltb_spec (Z.of_nat (length data)) offset).
  - unfold read_all. destruct (Z.to_nat n) eqn:E; [lia|]. cbn [read_all_loop].
    rewrite (proj2 (Z.eqb_neq n 0)) by lia. unfold read. rewrite backed_size.
    by rewrite (proj2 (Z.ltb_lt _ _)) by lia.
  - unfold read_all. rewrite (read_all_loop_ok d data) by (done || word_lia). done.
Qed.

(** The same for the callers. *)
Lemma read_all_ok d data `{!Backed d data} offset n :
  0 <= offset → 0 <= n → offset + n <= Z.of_nat (length data) →
  read_all d offset n = Some (n, slice data offset n).
Proof.
  intros Ho Hn Hle. pose proof backed_small as Hsm. change (2 ^ 31) with 2147483648 in *.
  unfold read_all. rewrite (read_all_loop_ok d data) by (done || word_lia).
  rewrite Z.min_l by lia. done.
Qed.

Lemma read_thing_ok d data `{!Backed d data} offset n :
  0 <= offset → 0 <= n → offset + n <= Z.of_nat (length data) →
  read_thing d offset n = Some (slice data offset n).
Proof.
  intros. unfold read_thing. rewrite (read_all_ok d data) by done. cbn [mbind option_bind].
  by rewrite Z.eqb_refl.
Qed.

(** ** The RAM disk

    [ld_memory] is the memory from the module's address on and [ld_size] the
    size of the file; the constructor's delay loop only yields. *)
Record limine_file := mkFile { ld_memory : bytes; ld_size : Z }.

Definition ramdisk_read_block (mod_ : limine_file) (block : Z) : option bytes :=
  let self := mkBlockIO 512 (u32 (ld_size mod_)) (λ _, None) in
  blocks ← size_in_blocks self;
  if negb (block <? blocks) then None
  else load_n (ld_memory mod_) (Z.to_nat (u32 (512 * block))) 512.

Definition RamDisk (mod_ : limine_file) : BlockIO :=
  mkBlockIO 512 (u32 (ld_size mod_)) (ramdisk_read_block mod_).

(** The bytes of the module's file. *)
Definition file_bytes (mod_ : limine_file) : bytes := take (Z.to_nat (ld_size mod_)) (ld_memory mod_).

(** The module's memory is whole 512-byte blocks and holds its file. *)
Class WholeBlocks (mod_ : limine_file) : Prop := whole_blocks :
  Z.of_nat (length (ld_memory mod_)) mod 512 = 0
  ∧ 0 <= ld_size mod_ <= Z.of_nat (length (ld_memory mod_)) ∧ ld_size mod_ < 2 ^ 31.

#[export] Instance RamDisk_backed mod_ : WholeBlocks mod_ → Backed (RamDisk mod_) (file_bytes mod_).
Proof.
  intros (Hm & [H0 Hle] & H1). change (2 ^ 31) with 2147483648 in *. unfold file_bytes.
  assert (Z.of_nat (length (take (Z.to_nat (ld_size mod_)) (ld_memory mod_))) = ld_size mod_) as El
    by (rewrite length_take; lia).
  split; cbn [block_size size_in_bytes RamDisk].
  - done.
  - rewrite El. apply u32_id. word_lia.
  - rewrite El. exact H1.
  - rewrite El. intros b Hb Hlt. unfold read_block, RamDisk, ramdisk_read_block, size_in_blocks.
    cbn [block_size size_in_bytes Z.eqb mbind option_bind].
    rewrite (u32_id (ld_size mod_)) by word_lia. rewrite u32_id by word_lia.
    rewrite (proj2 (Z.ltb_lt b _)) by word_lia. cbn [negb]. rewrite u32_id by word_lia.
    rewrite load_n_ok by word_lia. eexists. split; [done|].
    split; [rewrite length_take, length_drop; word_lia|].
    rewrite !length_take, length_drop. intros i Hi Hin.
    rewrite !lookup_take, !decide_True, lookup_drop by lia. f_equal. lia.
Qed.

Definition demo_file : limine_file := mkFile (Z.of_nat <$> seq 0 1536) 1100.

#[export] Instance demo_file_whole : WholeBlocks demo_file.
Proof. split_and!; vm_compute; done. Qed.

Lemma read_all_exact_witness : read_all (RamDisk demo_file) 1020 600 = Some (80, Z.of_nat <$> seq 1020 80).
Proof.
  etransitivity;
    [apply (read_all_exact _ (file_bytes demo_file) 1020 600); [apply _|split; reflexivity + done|split; reflexivity + done|reflexivity]|].
  vm_compute. reflexivity.
Defined.
