(* ===== verification/Ext2.v ===== *)
(** * The Ext2 file system ([ext2.h], [ext2.cc])

    Mounting, i-nodes, the blocks of a file and the entries of a directory,
    read from a block device.  A [Node] is itself a block device: its instance of
    [Backed] says which bytes of the disk are the bytes of the file. *)

From S2P Require Import Prelude BlockIO.

(** ** On-disk structures

    The structs are read as bytes and their fields are little-endian. *)

Definition le16 (b : bytes) (off : nat) : Z := load16 b off.
Definition le32 (b : bytes) (off : nat) : Z := load16 b off + 65536 * load16 b (off + 2).

Record SuperBlock := mkSuperBlock {
  sb_inodes_count : Z;
  sb_blocks_count : Z;
  sb_reserved_blocks_count : Z;
  sb_free_blocks_count : Z;
  sb_free_inodes_count : Z;
  sb_first_data_block : Z;
  sb_log_block_size : Z;
  sb_log_frag_size : Z;
  sb_blocks_per_group : Z;
  sb_frags_per_group : Z;
  sb_inodes_per_group : Z;
  sb_mtime : Z;
  sb_wtime : Z;
  sb_mnt_count : Z;
  sb_max_mnt_count : Z;
  sb_magic : Z;
  sb_state : Z;
  sb_errors : Z;
  sb_minor_rev_level : Z;
  sb_lastcheck : Z;
  sb_checkinterval : Z;
  sb_creator_os : Z;
  sb_rev_level : Z;
  sb_def_resuid : Z;
  sb_def_resgid : Z;
  sb_first_inode : Z;
  sb_inode_size : Z;
  sb_block_group_nr : Z;
  sb_feature_compat : Z;
  sb_feature_incompat : Z;
  sb_feature_ro_compat : Z;
  sb_uuid : bytes;
  sb_volume_name : bytes;
  sb_algo_bitmap : Z;
}.
Definition SuperBlock_size : Z := 140.
Definition SuperBlock_of (b : bytes) : SuperBlock :=
  mkSuperBlock (le32 b 0) (le32 b 4) (le32 b 8) (le32 b 12) (le32 b 16) (le32 b 20) (le32 b 24)
    (le32 b 28) (le32 b 32) (le32 b 36) (le32 b 40) (le32 b 44) (le32 b 48) (le16 b 52)
    (le16 b 54) (le16 b 56) (le16 b 58) (le16 b 60) (le16 b 62) (le32 b 64) (le32 b 68)
    (le32 b 72) (le32 b 76) (le16 b 80) (le16 b 82) (le32 b 84) (le16 b 88) (le16 b 90)
    (le32 b 92) (le32 b 96) (le32 b 100) (take 16 (drop 104 b)) (take 16 (drop 120 b))
    (le32 b 136).

Record BlockGroup := mkBlockGroup {
  bg_block_bitmap : Z;
  bg_inode_bitmap : Z;
  bg_inode_table : Z;
  bg_free_blocks_count : Z;
  bg_free_inodes_count : Z;
  bg_used_dirs_count : Z;
  bg_pad : Z;
  bg_reserved : bytes;
}.
Definition BlockGroup_size : Z := 32.
Definition BlockGroup_of (b : bytes) : BlockGroup :=
  mkBlockGroup (le32 b 0) (le32 b 4) (le32 b 8) (le16 b 12) (le16 b 14) (le16 b 16) (le16 b 18)
    (take 12 (drop 20 b)).

Record NodeData := mkNodeData {
  nd_mode : Z;
  nd_uid : Z;
  nd_size_low : Z;
  nd_atime : Z;
  nd_ctime : Z;
  nd_mtime : Z;
  nd_dtime : Z;
  nd_gid : Z;
  nd_n_links : Z;
  nd_n_sectors : Z;
  nd_flags : Z;
  nd_os1 : Z;
  nd_direct0 : Z;
  nd_direct1 : Z;
  nd_direct2 : Z;
  nd_direct3 : Z;
  nd_direct4 : Z;
  nd_direct5 : Z;
  nd_direct6 : Z;
  nd_direct7 : Z;
  nd_direct8 : Z;
  nd_direct9 : Z;
  nd_direct10 : Z;
  nd_direct11 : Z;
  nd_indirect_1 : Z;
  nd_indirect_2 : Z;
  nd_indirect_3 : Z;
  nd_gen : Z;
  nd_reserved1 : Z;
  nd_reserved2 : Z;
  nd_fragment : Z;
  nd_os2 : bytes;
}.
Definition NodeData_size : Z := 128.
Definition NodeData_of (b : bytes) : NodeData :=
  mkNodeData (le16 b 0) (le16 b 2) (le32 b 4) (le32 b 8) (le32 b 12) (le32 b 16) (le32 b 20)
    (le16 b 24) (le16 b 26) (le32 b 28) (le32 b 32) (le32 b 36) (le32 b 40) (le32 b 44)
    (le32 b 48) (le32 b 52) (le32 b 56) (le32 b 60) (le32 b 64) (le32 b 68) (le32 b 72)
    (le32 b 76) (le32 b 80) (le32 b 84) (le32 b 88) (le32 b 92) (le32 b 96) (le32 b 100)
    (le32 b 104) (le32 b 108) (le32 b 112) (take 12 (drop 116 b)).

Definition get_type (data : NodeData) : Z := Z.shiftr (nd_mode data) 12.
Definition is_dir (data : NodeData) : bool := get_type data =? 4.
Definition is_file (data : NodeData) : bool := get_type data =? 8.
Definition is_symlink (data : NodeData) : bool := get_type data =? 10.

(** ** Nodes *)

Record Node := mkNode {
  n_number : Z;
  n_block_size : Z;
  n_data : NodeData;
  n_device : BlockIO;
}.

(** The pointers [&data.direct0] to [&data.direct11]. *)
Definition direct (data : NodeData) : list Z :=
  [nd_direct0 data; nd_direct1 data; nd_direct2 data; nd_direct3 data; nd_direct4 data; nd_direct5 data;
   nd_direct6 data; nd_direct7 data; nd_direct8 data; nd_direct9 data; nd_direct10 data; nd_direct11 data].

(** Past the single indirect block the code stops the machine. *)
Definition node_read_block (nd : Node) (index : Z) : option bytes :=
  let bs := n_block_size nd in
  if bs / 512 =? 0 then None
  else if negb (index <? nd_n_sectors (n_data nd) / (bs / 512)) then None
  else
    let refs_per_block := bs / 4 in
    block_index ←
      (if index <? 12 then direct (n_data nd) !! Z.to_nat index
       else if index <? u32 (12 + refs_per_block) then
         b ← read_thing (n_device nd)
               (u32 (u32 (nd_indirect_1 (n_data nd) * bs) + u32 ((index - 12) * 4))) 4;
         Some (le32 b 0)
       else None);
    '(cnt, b) ← read_all (n_device nd) (u32 (block_index * bs)) bs;
    if cnt =? bs then Some b else None.

(** A node as the block device it implements. *)
Definition node_io (nd : Node) : BlockIO :=
  mkBlockIO (n_block_size nd) (nd_size_low (n_data nd)) (node_read_block nd).

Definition n_links (nd : Node) : Z := nd_n_links (n_data nd).

(** The 60 bytes of the block pointers, which hold a short symbolic link. *)
Definition inline_symbol (data : NodeData) : bytes :=
  (direct data ++ [nd_indirect_1 data; nd_indirect_2 data; nd_indirect_3 data]) ≫=
    λ x, bytes16 (x mod 65536) ++ bytes16 (x / 65536).

Definition get_symbol (nd : Node) : option bytes :=
  if negb (is_symlink (n_data nd)) then None
  else
    let sz := nd_size_low (n_data nd) in
    if sz <=? 60 then load_n (inline_symbol (n_data nd)) 0 (Z.to_nat sz)
    else
      '(cnt, b) ← read_all (node_io nd) 0 sz;
      if cnt =? sz then Some b else None.

(** Comparison of two strings that end in a zero byte; reading past an array
    is [None]. *)
Fixpoint streq (a b : bytes) : option bool :=
  match a, b with
  | x :: a, y :: b => if x =? y then if x =? 0 then Some true else streq a b else Some false
  | _, _ => None
  end.

(** The directory loop, which calls [work inode name] for each entry; [None]
    also stands for a walk longer than [fuel]. *)
Section Entries.
Context {S : Type} (nd : Node) (work : Z → bytes → S → option S).

Fixpoint entries_loop (fuel : nat) (offset : Z) (acc : S) : option S :=
  if nd_size_low (n_data nd) <=? offset then Some acc
  else match fuel with
  | O => None
  | Datatypes.S fuel =>
      inode ← read_thing (node_io nd) offset 4;
      total_size ← read_thing (node_io nd) (u32 (offset + 4)) 2;
      name_length ← read_thing (node_io nd) (u32 (offset + 6)) 1;
      let nl := nth 0 name_length 0 in
      '(cnt, name) ← read_all (node_io nd) (u32 (offset + 8)) nl;
      if negb (cnt =? nl) then None
      else
        acc ← work (le32 inode 0) (name ++ [0]) acc;
        entries_loop fuel (u32 (offset + le16 total_size 0)) acc
  end.

Definition entries (acc : S) : option S :=
  if negb (is_dir (n_data nd)) then None
  else entries_loop (Z.to_nat (nd_size_low (n_data nd))) 0 acc.
End Entries.

Definition node_find (nd : Node) (name : bytes) : option Z :=
  entries nd (λ number nm out, same ← streq name nm; Some (if same : bool then number else out)) 0.

Definition entry_count (nd : Node) : option Z :=
  if negb (is_dir (n_data nd)) then None else entries nd (λ _ _ count, Some (u32 (count + 1))) 0.

(** ** The file system *)

Record Ext2 := mkExt2 {
  device : BlockIO;
  root : option Node;
  blockSize : Z;
  numberOfNodes : Z;
  numberOfBlocks : Z;
  iNodeSize : Z;
  nGroups : Z;
  iNodeTables : list Z;
  iNodesPerGroup : Z;
  groupTable : list BlockGroup;
}.
#[export] Instance eta_Ext2 : Eta Ext2 := fun e =>
  mkExt2 (device e) (root e) (blockSize e) (numberOfNodes e) (numberOfBlocks e) (iNodeSize e) (nGroups e)
    (iNodeTables e) (iNodesPerGroup e) (groupTable e).

Definition get_node (fs : Ext2) (number : Z) : option Node :=
  if negb (0 <? number) then None
  else if negb (number <=? numberOfNodes fs) then None
  else
    let index := number - 1 in
    if iNodesPerGroup fs =? 0 then None
    else
      let groupIndex := index / iNodesPerGroup fs in
      if negb (groupIndex <? nGroups fs) then None
      else
        let indexInGroup := index mod iNodesPerGroup fs in
        iTableBase ← iNodeTables fs !! Z.to_nat groupIndex;
        if negb (iTableBase <=? numberOfBlocks fs) then None
        else
          let nodeOffset := u32 (u32 (iTableBase * blockSize fs) + u32 (indexInGroup * iNodeSize fs)) in
          b ← read_thing (device fs) nodeOffset NodeData_size;
          Some (mkNode number (blockSize fs) (NodeData_of b) (device fs)).

(** Splitting the group table into its descriptors. *)
Fixpoint group_table (n : nat) (b : bytes) : list BlockGroup :=
  match n with
  | O => []
  | S n => BlockGroup_of b :: group_table n (drop 32 b)
  end.

(** The constructor [Ext2::Ext2]: every failed assertion stops the machine. *)
Definition Ext2_mount (dev : BlockIO) : option Ext2 :=
  b ← read_thing dev 1024 SuperBlock_size;
  let sb := SuperBlock_of b in
  let shift := u32 (sb_log_block_size sb + 10) in
  if 32 <=? shift then None
  else
    let bs := Z.shiftl 1 shift in
    if sb_blocks_per_group sb =? 0 then None
    else
      let groups := u32 (sb_blocks_count sb + sb_blocks_per_group sb - 1) / sb_blocks_per_group sb in
      if negb (sb_blocks_count sb <=? u32 (groups * sb_blocks_per_group sb)) then None
      else
        let superBlockNumber := 1024 / bs in
        let groupTableNumber := superBlockNumber + 1 in
        let groupTableSize := BlockGroup_size * groups in
        '(cnt, tbl) ← read_all dev (u32 (groupTableNumber * bs)) (u32 groupTableSize);
        if negb (u64 cnt =? groupTableSize) then None
        else
          let gt := group_table (Z.to_nat groups) tbl in
          let fs := mkExt2 dev None bs (sb_inodes_count sb) (sb_blocks_count sb) (sb_inode_size sb) groups
                      (bg_inode_table <$> gt) (sb_inodes_per_group sb) gt in
          r ← get_node fs 2;
          Some (fs .[ root := Some r ]).

(** The null reference is [None] inside. *)
Definition ext2_find (fs : Ext2) (dir : Node) (name : bytes) : option (option Node) :=
  number ← node_find dir name;
  if number =? 0 then Some None else nd ← get_node fs number; Some (Some nd).

(** ** Which bytes of the disk a file is made of *)

(** The disk block of block [b] of a node, on a disk that presents [disk]. *)
Definition block_ptr (nd : Node) (disk : bytes) (b : Z) : Z :=
  if b <? 12 then default 0 (direct (n_data nd) !! Z.to_nat b)
  else le32 (slice disk (nd_indirect_1 (n_data nd) * n_block_size nd + (b - 12) * 4) 4) 0.

Definition file_byte (nd : Node) (disk : bytes) (j : Z) : Z :=
  let bs := n_block_size nd in
  default 0 (disk !! Z.to_nat (block_ptr nd disk (j / bs) * bs + j mod bs)).

Definition file_data (nd : Node) (disk : bytes) : bytes :=
  file_byte nd disk <$> seqZ 0 (nd_size_low (n_data nd)).

(** A node whose blocks are reachable and inside the disk. *)
Class NodeOk (nd : Node) (disk : bytes) : Prop := {
  node_block_size : 1024 <= n_block_size nd < 2 ^ 31;
  node_size : 0 <= nd_size_low (n_data nd) < 2 ^ 31;
  node_blocks : ∀ b, 0 <= b → b * n_block_size nd < nd_size_low (n_data nd) →
    b < nd_n_sectors (n_data nd) / (n_block_size nd / 512) ∧ b < 12 + n_block_size nd / 4
    ∧ 0 <= block_ptr nd disk b
    ∧ block_ptr nd disk b * n_block_size nd + n_block_size nd <= Z.of_nat (length disk)
    ∧ (12 <= b → 0 <= nd_indirect_1 (n_data nd)
       ∧ nd_indirect_1 (n_data nd) * n_block_size nd + n_block_size nd <= Z.of_nat (length disk));
}.

Lemma length_file_data nd disk :
  0 <= nd_size_low (n_data nd) → Z.of_nat (length (file_data nd disk)) = nd_size_low (n_data nd).
Proof. intros. unfold file_data. rewrite length_fmap, length_seqZ. lia. Qed.

Lemma lookup_slice data offset n i :
  (i < Z.to_nat n)%nat → slice data offset n !! i = data !! (Z.to_nat offset + i)%nat.
Proof. intros. unfold slice. by rewrite lookup_take, decide_True, lookup_drop by lia. Qed.

(** Reading one block of a node. *)
Lemma node_read_block_ok nd disk b :
  Backed (n_device nd) disk → NodeOk nd disk → 0 <= b → b * n_block_size nd < nd_size_low (n_data nd) →
  node_read_block nd b = Some (slice disk (block_ptr nd disk b * n_block_size nd) (n_block_size nd)).
Proof.
  intros B N Hb Hlt. destruct N as [Hbs Hsz Hbl]. destruct (Hbl b Hb Hlt) as (H1 & H2 & H3 & H4 & H5).
  pose proof (backed_small (d := n_device nd) (data := disk)) as Hsm. change (2 ^ 31) with 2147483648 in *.
  unfold node_read_block. rewrite (proj2 (Z.eqb_neq _ 0)) by word_lia.
  rewrite (proj2 (Z.ltb_lt _ _) H1). cbn [negb]. set (ptr := block_ptr nd disk b) in *.
  match goal with |- context [mbind ?f ?e] => assert (e = Some ptr) as -> end.
  { subst ptr. unfold block_ptr in *. destruct (Z.ltb_spec b 12) as [Hd|Hd].
    - destruct (lookup_lt_is_Some_2 (direct (n_data nd)) (Z.to_nat b)) as [x Hx]; [cbn; lia|].
      by rewrite Hx.
    - destruct (H5 Hd) as [H6 H7].
      rewrite (u32_id (12 + _)), (proj2 (Z.ltb_lt b _)) by word_lia.
      rewrite (u32_id (nd_indirect_1 _ * _)), (u32_id ((b - 12) * 4)), u32_id by word_lia.
      rewrite (read_thing_ok _ disk) by word_lia. done. }
  cbn [mbind option_bind]. rewrite u32_id by word_lia.
  rewrite (read_all_ok _ disk) by word_lia. cbn [mbind option_bind]. by rewrite Z.eqb_refl.
Qed.

#[export] Instance node_backed nd disk :
  Backed (n_device nd) disk → NodeOk nd disk → Backed (node_io nd) (file_data nd disk).
Proof.
  intros B N. pose proof N as [Hbs Hsz Hbl].
  split; cbn [block_size size_in_bytes node_io]; rewrite ?length_file_data by lia;
    [change (2 ^ 31) with 2147483648 in *; lia|done|lia|].
  intros b Hb Hlt. destruct (Hbl b Hb Hlt) as (_ & _ & H3 & H4 & _).
  exists (slice disk (block_ptr nd disk b * n_block_size nd) (n_block_size nd)).
  split; [by apply node_read_block_ok|].
  assert (Z.of_nat (length (slice disk (block_ptr nd disk b * n_block_size nd) (n_block_size nd))) = n_block_size nd) as El
    by (apply length_slice; nia).
  split; [exact El|]. intros i Hi Hin. pose proof (length_file_data nd disk ltac:(lia)) as Elf.
  rewrite lookup_slice by lia. unfold file_data. rewrite list_lookup_fmap.
  set (j := (Z.to_nat (b * n_block_size nd) + i)%nat) in *.
  rewrite (proj2 (lookup_seqZ 0 (nd_size_low (n_data nd)) j (Z.of_nat j))) by lia.
  cbn [fmap option_fmap option_map]. unfold file_byte.
  assert (Z.of_nat j / n_block_size nd = b ∧ Z.of_nat j mod n_block_size nd = Z.of_nat i) as [-> ->].
  { replace (Z.of_nat j) with (Z.of_nat i + b * n_block_size nd) by lia.
    rewrite Z.div_add, Z_mod_plus_full by lia. rewrite Z.div_small, Z.mod_small by lia. lia. }
  replace (Z.to_nat (block_ptr nd disk b * n_block_size nd + Z.of_nat i))
    with (Z.to_nat (block_ptr nd disk b * n_block_size nd) + i)%nat by lia.
  destruct (lookup_lt_is_Some_2 disk (Z.to_nat (block_ptr nd disk b * n_block_size nd) + i)) as [x ->]; [lia|done].
Qed.

(** C38: A file whose blocks lie inside the disk is read exactly: [read_all] on its node
    returns the file's bytes from the offset on, byte [j] being byte [j mod block_size] of the
    disk block that the direct pointers or the indirect block name for block [j / block_size]. *)
Theorem ext2_file_read nd disk offset n :
  Backed (n_device nd) disk → NodeOk nd disk → 0 <= offset → 0 <= n →
  offset + n <= nd_size_low (n_data nd) →
  ∃ out, read_all (node_io nd) offset n = Some (n, out)
  ∧ Z.of_nat (length out) = n
  ∧ ∀ i, 0 <= i < n → out !! Z.to_nat i = Some (file_byte nd disk (offset + i)).
Proof.
  intros B N Ho Hn Hle. pose proof N as [_ Hsz _]. pose proof (length_file_data nd disk ltac:(lia)) as El.
  exists (slice (file_data nd disk) offset n).
  split; [apply (read_all_ok _ (file_data nd disk)); lia|].
  split; [apply length_slice; lia|]. intros i Hi. rewrite lookup_slice by lia.
  unfold file_data. rewrite list_lookup_fmap.
  by rewrite (proj2 (lookup_seqZ 0 _ _ (offset + i))) by lia.
Qed.

(** ** Directories

    The format of a directory: a sequence of entries with their names and
    padding. *)

Record DirEntry := mkDirEntry { de_inode : Z; de_type : Z; de_name : bytes; de_pad : bytes }.

Definition bytes32 (x : Z) : bytes := bytes16 (x mod 65536) ++ bytes16 (x / 65536).
Definition de_size (e : DirEntry) : Z := 8 + Z.of_nat (length (de_name e)) + Z.of_nat (length (de_pad e)).
Definition encode (e : DirEntry) : bytes :=
  bytes32 (de_inode e) ++ bytes16 (de_size e) ++ [Z.of_nat (length (de_name e))] ++ [de_type e]
    ++ de_name e ++ de_pad e.
Definition encode_dir (es : list DirEntry) : bytes := es ≫= encode.

Definition no_zero (name : bytes) : Prop := Forall (λ x, x ≠ 0) name.
Definition ok_entry (e : DirEntry) : Prop :=
  is_u32 (de_inode e) ∧ no_zero (de_name e) ∧ (length (de_name e) <= 255)%nat ∧ de_size e < 65536.

Lemma slice_mid pre mid post :
  slice (pre ++ mid ++ post) (Z.of_nat (length pre)) (Z.of_nat (length mid)) = mid.
Proof. unfold slice. rewrite !Nat2Z.id. by rewrite drop_app_length, take_app_length. Qed.
Lemma slice_at data pre mid post o n :
  data = pre ++ mid ++ post → o = Z.of_nat (length pre) → n = Z.of_nat (length mid) → slice data o n = mid.
Proof. intros -> -> ->. apply slice_mid. Qed.

Lemma le32_bytes32 x : is_u32 x → le32 (bytes32 x) 0 = x.
Proof. intros. unfold le32, bytes32, load16, bytes16. cbn. word_lia. Qed.
Lemma le16_bytes16 x : le16 (bytes16 x) 0 = x.
Proof. unfold le16. rewrite <- (app_nil_r (bytes16 x)). apply load16_bytes16. Qed.
Lemma length_bytes32 x : length (bytes32 x) = 4%nat.
Proof. done. Qed.
Lemma length_encode e : Z.of_nat (length (encode e)) = de_size e.
Proof. unfold encode, de_size. rewrite !length_app, length_bytes32, bytes16_length. cbn. lia. Qed.

Lemma streq_zero a b r :
  no_zero a → no_zero b → streq (a ++ 0 :: r) (b ++ [0]) = Some (bool_decide (a = b)).
Proof.
  intros Ha. revert b. induction Ha as [|x a Hx Ha IH]; intros b Hb; destruct Hb as [|y b Hy Hb]; cbn [streq app].
  - done.
  - destruct (Z.eqb_spec 0 y); [lia|]. by rewrite bool_decide_eq_false_2 by congruence.
  - destruct (Z.eqb_spec x 0); [lia|]. by rewrite bool_decide_eq_false_2 by congruence.
  - destruct (Z.eqb_spec x y) as [->|Hne].
    + destruct (Z.eqb_spec y 0); [done|]. rewrite IH by done. f_equal. apply bool_decide_ext. naive_solver.
    + by rewrite bool_decide_eq_false_2 by congruence.
Qed.

(** Calling [work] on the entries in order. *)
Fixpoint run_entries {S} (work : Z → bytes → S → option S) (es : list DirEntry) (acc : S) : option S :=
  match es with
  | [] => Some acc
  | e :: es => acc ← work (de_inode e) (de_name e ++ [0]) acc; run_entries work es acc
  end.

Section Directory.
Context (nd : Node) (disk : bytes) `{!Backed (n_device nd) disk} `{!NodeOk nd disk}.
Context {S : Type} (work : Z → bytes → S → option S).

Lemma entries_loop_ok es : ∀ fuel pre acc,
  file_data nd disk = pre ++ encode_dir es → Forall ok_entry es →
  Z.of_nat (length (encode_dir es)) <= Z.of_nat fuel →
  entries_loop nd work fuel (Z.of_nat (length pre)) acc = run_entries work es acc.
Proof using All.
  pose proof node_size as Hsz. pose proof (length_file_data nd disk ltac:(lia)) as Hlen.
  change (2 ^ 31) with 2147483648 in *.
  induction es as [|e es IH]; intros fuel pre acc Hd Hes Hf.
  - cbn in Hd. rewrite app_nil_r in Hd. rewrite Hd in Hlen.
    destruct fuel; cbn [entries_loop]; by rewrite (proj2 (Z.leb_le _ _)) by lia.
  - apply Forall_cons in Hes as [(Hi & Hnz & Hnl & Hts) Hes].
    change (encode_dir (e :: es)) with (encode e ++ encode_dir es) in *.
    pose proof (length_encode e) as Hle. pose proof Hle as Hle'. unfold de_size in Hle'.
    rewrite length_app in Hf. rewrite Hd, !length_app in Hlen.
    destruct fuel as [|fuel]; [lia|]. cbn [entries_loop].
    rewrite (proj2 (Z.leb_gt _ _)) by lia.
    set (o := Z.of_nat (length pre)) in *.
    set (dn := de_name e) in *. set (dp := de_pad e) in *.
    assert (file_data nd disk = pre ++ bytes32 (de_inode e) ++ bytes16 (de_size e)
      ++ [Z.of_nat (length dn)] ++ [de_type e] ++ dn ++ dp ++ encode_dir es) as Hd'.
    { rewrite Hd. unfold encode. rewrite <- !app_assoc. done. }
    rewrite !(u32_id (o + _)) by word_lia.
    rewrite (read_thing_ok _ (file_data nd disk) o 4) by (rewrite ?length_file_data; lia).
    rewrite (slice_at _ pre (bytes32 (de_inode e)) _ o 4 Hd') by done.
    cbn [mbind option_bind].
    rewrite (read_thing_ok _ (file_data nd disk) (o + 4) 2) by (rewrite ?length_file_data; lia).
    rewrite (slice_at _ (pre ++ bytes32 (de_inode e)) (bytes16 (de_size e))
      ([Z.of_nat (length dn)] ++ [de_type e] ++ dn ++ dp ++ encode_dir es))
      by (rewrite ?Hd', ?length_app, ?length_bytes32, ?bytes16_length, <- ?app_assoc; done || (cbn; lia)).
    cbn [mbind option_bind].
    rewrite (read_thing_ok _ (file_data nd disk) (o + 6) 1) by (rewrite ?length_file_data; lia).
    rewrite (slice_at _ (pre ++ bytes32 (de_inode e) ++ bytes16 (de_size e)) [Z.of_nat (length dn)]
      ([de_type e] ++ dn ++ dp ++ encode_dir es))
      by (rewrite ?Hd', ?length_app, ?length_bytes32, ?bytes16_length, <- ?app_assoc; done || (cbn; lia)).
    cbn [mbind option_bind nth].
    rewrite (read_all_ok _ (file_data nd disk) (o + 8) (Z.of_nat (length dn))) by (rewrite ?length_file_data; lia).
    rewrite (slice_at _ (pre ++ bytes32 (de_inode e) ++ bytes16 (de_size e) ++ [Z.of_nat (length dn)] ++ [de_type e]) dn
      (dp ++ encode_dir es)) by (rewrite ?Hd', ?length_app, ?length_bytes32, ?bytes16_length, <- ?app_assoc; done || (cbn; lia)).
    cbn [mbind option_bind]. rewrite Z.eqb_refl. cbn [negb].
    rewrite le32_bytes32, le16_bytes16 by done. rewrite u32_id by word_lia.
    cbn [run_entries]. fold dn. destruct (work _ _ acc) as [acc'|]; [|done]. cbn [mbind option_bind].
    replace (o + de_size e) with (Z.of_nat (length (pre ++ encode e))) by (rewrite length_app; lia).
    apply IH; [by rewrite Hd, <- app_assoc|done|lia].
Qed.

Lemma entries_ok es acc :
  is_dir (n_data nd) = true → file_data nd disk = encode_dir es → Forall ok_entry es →
  entries nd work acc = run_entries work es acc.
Proof using All.
  intros Hdir Hd Hes. unfold entries. rewrite Hdir. cbn [negb].
  pose proof node_size as Hsz. pose proof (length_file_data nd disk ltac:(lia)) as Hlen.
  apply (entries_loop_ok es _ []); [done..|]. rewrite <- Hd. lia.
Qed.
End Directory.

(** The i-number a lookup gives: that of the last entry with the name. *)
Definition last_entry (name : bytes) (es : list DirEntry) : Z :=
  foldl (λ out e, if decide (de_name e = name) then de_inode e else out) 0 es.

(** Looking a name up in a directory, encoded as a sequence of entries of any sizes, gives
    the i-number of the last entry with exactly that name, and zero when there is none. *)
Theorem ext2_directory_find nd disk es name rest :
  Backed (n_device nd) disk → NodeOk nd disk → is_dir (n_data nd) = true →
  file_data nd disk = encode_dir es → Forall ok_entry es → no_zero name →
  node_find nd (name ++ 0 :: rest) = Some (last_entry name es).
Proof.
  intros B N Hdir Hd Hes Hn. unfold node_find. rewrite (entries_ok nd disk _ es) by done.
  unfold last_entry. generalize 0 at 2 3 as out. clear Hd.
  induction Hes as [|e es (_ & Hz & _) _ IH]; intros out; [done|]. cbn [run_entries foldl].
  rewrite streq_zero by done. cbn [mbind option_bind].
  rewrite IH. f_equal. f_equal. unfold bool_decide. by repeat case_decide; subst.
Qed.

(** A directory entry with size zero is never passed: the directory loop, which the code
    does not bound, returns for no number of turns. *)
Theorem ext2_zero_entry_loops {S} nd disk (work : Z → bytes → S → option S) fuel acc :
  Backed (n_device nd) disk → NodeOk nd disk → 8 <= nd_size_low (n_data nd) →
  le16 (slice (file_data nd disk) 4 2) 0 = 0 →
  entries_loop nd work fuel 0 acc = None.
Proof.
  intros B N Hsz Hz. revert acc. induction fuel as [|fuel IH]; intros acc; cbn [entries_loop];
    rewrite (proj2 (Z.leb_gt _ _)) by lia; [done|].
  pose proof node_size as Hs. pose proof (length_file_data nd disk ltac:(lia)) as Hlen.
  destruct (read_thing (node_io nd) 0 4); [|done]. cbn [mbind option_bind].
  change (u32 (0 + 4)) with 4. change (u32 (0 + 6)) with 6.
  rewrite (read_thing_ok _ (file_data nd disk) 4 2) by lia. cbn [mbind option_bind].
  destruct (read_thing (node_io nd) 6 1); [|done]. cbn [mbind option_bind].
  destruct (read_all (node_io nd) _ _) as [[cnt name]|]; [|done]. cbn [mbind option_bind].
  destruct (negb _); [done|]. destruct (work _ _ acc); [|done]. cbn [mbind option_bind].
  rewrite Hz. apply IH.
Qed.

(** ** A concrete disk

    Four blocks of 1024 bytes; a directory of three entries in block 2. *)

Definition demo_entries : list DirEntry :=
  [mkDirEntry 2 2 [46] [0; 0; 0]; mkDirEntry 11 1 [105; 110; 105; 116] []; mkDirEntry 12 1 [105; 110; 105; 116] []].
Definition demo_disk_file : limine_file :=
  mkFile (replicate 2048 0 ++ encode_dir demo_entries ++ replicate 2012 0) 4096.
Definition demo_node_data (size : Z) : NodeData :=
  mkNodeData 16877 0 size 0 0 0 0 0 2 2 0 0 2 0 0 0 0 0 0 0 0 0 0 0 0 0 0 0 0 0 0 [].
Definition demo_dir (size : Z) : Node := mkNode 2 1024 (demo_node_data size) (RamDisk demo_disk_file).

#[export] Instance demo_disk_whole : WholeBlocks demo_disk_file.
Proof. split_and!; vm_compute; done. Qed.
Lemma demo_dir_ok size : 0 <= size <= 1024 → NodeOk (demo_dir size) (file_bytes demo_disk_file).
Proof.
  intros Hs. split; cbn [demo_dir n_block_size n_data nd_size_low demo_node_data].
  - split; [lia|reflexivity].
  - split; [lia|]. apply Z.le_lt_trans with 1024; [lia|reflexivity].
  - intros b Hb Hlt. assert (b = 0) as -> by lia. split_and!; vm_compute; done.
Qed.

Lemma ext2_file_read_witness : ∃ out, read_all (node_io (demo_dir 36)) 12 8 = Some (8, out)
  ∧ out !! 4%nat = Some 12.
Proof.
  destruct (ext2_file_read (demo_dir 36) (file_bytes demo_disk_file) 12 8) as (out & E & _ & H);
    [apply RamDisk_backed; apply _|apply demo_dir_ok; lia|lia|lia|vm_compute; discriminate|].
  exists out. split; [exact E|]. etransitivity; [apply (H 4); lia|]. vm_compute. reflexivity.
Defined.

Lemma ext2_directory_find_witness : node_find (demo_dir 36) [105; 110; 105; 116; 0] = Some 12.
Proof.
  etransitivity;
    [apply (ext2_directory_find (demo_dir 36) (file_bytes demo_disk_file) demo_entries [105; 110; 105; 116] [])|].
  - apply RamDisk_backed. apply _.
  - apply demo_dir_ok. lia.
  - reflexivity.
  - vm_compute. reflexivity.
  - repeat constructor; vm_compute; done.
  - repeat constructor; done.
  - reflexivity.
Defined.

(** Past the entries the block holds zeros, an entry of size zero. *)
Definition demo_broken : Node := mkNode 2 1024 (demo_node_data 1024) (RamDisk (mkFile (replicate 4096 0) 4096)).
Lemma ext2_zero_entry_loops_witness :
  entries_loop demo_broken (λ _ _ n, Some (n + 1)) 100 0 0 = None.
Proof.
  apply (ext2_zero_entry_loops demo_broken (file_bytes (mkFile (replicate 4096 0) 4096))).
  - apply RamDisk_backed. split_and!; vm_compute; done.
  - split; cbn; [split; [lia|reflexivity]|split; [lia|reflexivity]|].
    intros b Hb Hlt. assert (b = 0) as -> by lia. split_and!; vm_compute; done.
  - reflexivity + (cbn; lia).
  - vm_compute. reflexivity.
Defined.
