(* ===== verification/PageTable.v ===== *)
(** * Page tables ([vmm.cc], first half)

    Four-level x86-64 page tables in physical memory: the walk that maps a page,
    allocating and splitting tables on its way, the walk that finds a page's
    entry, and the check of user buffers.  Tables are read and written through
    the direct map, as [PhysMem] models it. *)

From stdpp Require Import gmap.
From S2P Require Import Prelude PhysMem.

Definition PAGE_SIZE : Z := FRAME_SIZE.
Definition PAGE_MASK : Z := PAGE_SIZE - 1.
Definition HUGE_2M : Z := 2 * 1024 * 1024.
Definition PRIVATE_BASE : Z := PAGE_SIZE.
Definition CONFIGURED_MAX_PA : Z := 128 * 1024 * 1024.
Definition SHARED_LIMIT : Z := 18446744071562067968.

Definition PTE_PRESENT : Z := 1.
Definition PTE_WRITE : Z := 2.
Definition PTE_USER : Z := 4.
Definition PTE_HUGE : Z := 128.
Definition PTE_ADDR_MASK : Z := 4503599627366400.

(** [~PAGE_MASK] as a 64-bit word. *)
Definition page_align_down (value : Z) : Z := Z.land value 18446744073709547520.
Definition page_align_up (value : Z) : Z := Z.land (u64 (value + PAGE_MASK)) 18446744073709547520.

Definition make_entry (ppn : Z) (user write : bool) : Z :=
  Z.lor (Z.lor (Z.lor (u64 (Z.shiftl ppn 12)) PTE_PRESENT) (if write then PTE_WRITE else 0))
    (if user then PTE_USER else 0).

Definition table_index (vpn : Z) (level : nat) : Z := Z.land (Z.shiftr vpn (Z.of_nat level * 9)) 511.
Definition ppn_in_configured_phys (ppn : Z) : bool := PA_of_PPN ppn <? CONFIGURED_MAX_PA.

Definition VPN_of_VA (va : Z) : Z := Z.shiftr va LOG_FRAME_SIZE.
(** The frame number in an entry. *)
Definition entry_ppn (entry : Z) : Z := PPN_of (Z.land (Z.shiftr entry 12) 68719476735).

(** A flag of an entry. *)
Definition has (entry flag : Z) : bool := negb (Z.land entry flag =? 0).

Section PageTable.
Context (hhdm_offset : Z).

(** [table[index]] for a pointer [table]. *)
Definition entry_at (table index : Z) (s : PhysMem) : Z := load hhdm_offset (u64 (table + 8 * index)) s.
Definition set_entry (table index v : Z) (s : PhysMem) : PhysMem := store hhdm_offset (u64 (table + 8 * index)) v s.

(** Filling a table: entry [i] gets [f i], for [i] from [i0] on. *)
Fixpoint fill_table (n : nat) (i : Z) (table : Z) (f : Z → Z) (s : PhysMem) : PhysMem :=
  match n with
  | O => s
  | S n => fill_table n (i + 1) table f (set_entry table i (f i) s)
  end.

(** A huge entry becomes a table of 512 smaller ones. *)
Definition split_large_entry (table index : Z) (level : nat) (s : PhysMem) : option PhysMem :=
  if negb ((level =? 2)%nat || (level =? 1)%nat) then None
  else
    let entry := entry_at table index s in
    if negb (has entry PTE_PRESENT) then None
    else if negb (has entry PTE_HUGE) then None
    else
      '(child, s) ← alloc hhdm_offset s;
      child_table ← VA_of_PPN hhdm_offset child;
      let base := Z.land entry PTE_ADDR_MASK in
      let leaf_flags := Z.land entry (Z.lor (Z.lor PTE_PRESENT PTE_WRITE) PTE_USER) in
      let s :=
        if (level =? 2)%nat then
          fill_table 512 0 child_table (λ i, Z.lor (Z.lor (u64 (base + i * HUGE_2M)) leaf_flags) PTE_HUGE) s
        else
          fill_table 512 0 child_table (λ i, Z.lor (u64 (base + i * PAGE_SIZE)) leaf_flags) s in
      Some (set_entry table index (make_entry child (has leaf_flags PTE_USER) (has leaf_flags PTE_WRITE)) s).

Fixpoint map_level (level : nat) (table_ppn vpn ppn : Z) (user write : bool) (s : PhysMem) : option PhysMem :=
  table ← VA_of_PPN hhdm_offset table_ppn;
  let index := table_index vpn level in
  match level with
  | O => Some (set_entry table index (make_entry ppn user write) s)
  | S level' =>
      s ← (if has (entry_at table index s) PTE_PRESENT then
             if has (entry_at table index s) PTE_HUGE && ((level =? 2)%nat || (level =? 1)%nat)
             then split_large_entry table index level s else Some s
           else
             '(child, s) ← alloc hhdm_offset s;
             Some (set_entry table index (make_entry child true true) s));
      map_level level' (entry_ppn (entry_at table index s)) vpn ppn user write s
  end.

Definition map_in_root (cr3 vpn ppn : Z) (user write : bool) (s : PhysMem) : option PhysMem :=
  map_level 3 (PPN_of (Z.shiftr cr3 12)) vpn ppn user write s.

(** The walk returns a pointer to the entry, [None] inside for [nullptr]. *)
Fixpoint find_pte_level (level : nat) (table vpn_full : Z) (s : PhysMem) : option (option Z) :=
  let index := table_index vpn_full level in
  let entry := entry_at table index s in
  if negb (has entry PTE_PRESENT) then Some None
  else match level with
  | O => Some (Some (u64 (table + 8 * index)))
  | S level' =>
      if has entry PTE_HUGE && ((level =? 2)%nat || (level =? 1)%nat) then Some None
      else
        table ← VA_of_PPN hhdm_offset (entry_ppn entry);
        find_pte_level level' table vpn_full s
  end.

Definition find_pte_in_root (cr3 va : Z) (s : PhysMem) : option (option Z) :=
  table ← VA_of_PPN hhdm_offset (PPN_of (Z.shiftr cr3 12));
  find_pte_level 3 table (Z.shiftr va 12) s.

(** The loop over the pages of a buffer, with the number of pages it may visit. *)
Fixpoint user_pages_ok (fuel : nat) (cr3 va last_page : Z) (s : PhysMem) : option bool :=
  match fuel with
  | O => None
  | S fuel =>
      pte ← find_pte_in_root cr3 va s;
      match pte with
      | None => Some false
      | Some p =>
          let e := load hhdm_offset p s in
          if negb (has e PTE_PRESENT) || negb (has e PTE_USER) then Some false
          else if va =? last_page then Some true
          else user_pages_ok fuel cr3 (u64 (va + PAGE_SIZE)) last_page s
      end
  end.

Definition user_buffer_ok (cr3 addr length : Z) (s : PhysMem) : option bool :=
  if length =? 0 then Some (addr <? hhdm_offset)
  else if (addr <? PRIVATE_BASE) || (hhdm_offset <=? addr) then Some false
  else
    let end_ := u64 (addr + length - 1) in
    if (end_ <? addr) || (hhdm_offset <=? end_) then Some false
    else
      let first_page := page_align_down addr in
      let last_page := page_align_down end_ in
      user_pages_ok (S (Z.to_nat ((last_page - first_page) / PAGE_SIZE))) cr3 first_page last_page s.

(** ** What the tables mean

    The MMU's reading of the tables: the frame a page is mapped to and its
    write and user permissions, which every level can take away.  The frame
    number in an entry is [addr_of]. *)

Definition addr_of (e : Z) : Z := Z.land e PTE_ADDR_MASK / 4096.

Fixpoint translate (level : nat) (t vpn perm : Z) (s : PhysMem) : option (Z * Z) :=
  let e := word s (t * 4096 + 8 * table_index vpn level) in
  if negb (has e PTE_PRESENT) then None
  else
    let perm := Z.land perm e in
    match level with
    | O => Some (addr_of e, perm)
    | S level' =>
        if has e PTE_HUGE && ((level =? 2)%nat || (level =? 1)%nat)
        then Some (addr_of e + vpn mod 512 ^ Z.of_nat level, perm)
        else translate level' (addr_of e) vpn perm s
    end.

(** The place of a page's entry, when the walk reaches one, and the entry, [0]
    when it does not. *)
Fixpoint leaf_slot (level : nat) (t vpn : Z) (s : PhysMem) : option Z :=
  let a := t * 4096 + 8 * table_index vpn level in
  let e := word s a in
  match level with
  | O => Some a
  | S level' =>
      if negb (has e PTE_PRESENT) then None
      else if has e PTE_HUGE && ((level =? 2)%nat || (level =? 1)%nat) then None
      else leaf_slot level' (addr_of e) vpn s
  end.
Definition leaf (level : nat) (t vpn : Z) (s : PhysMem) : Z :=
  match leaf_slot level t vpn s with Some a => word s a | None => 0 end.
End PageTable.

(** ** Arithmetic of entries *)

Lemma land_low e flag : 0 <= flag < 4096 → Z.land e flag = Z.land (e mod 4096) flag.
Proof.
  intros Hf. assert (flag = Z.land (Z.ones 12) flag) as E.
  { rewrite Z.land_comm, Z.land_ones by lia. symmetry. by apply Z.mod_small. }
  rewrite E at 1. by rewrite Z.land_assoc, Z.land_ones by lia.
Qed.
Lemma has_low e flag : 0 <= flag < 4096 → has e flag = has (e mod 4096) flag.
Proof. intros. unfold has. by rewrite land_low. Qed.

Lemma addr_mask_eq e : Z.land e PTE_ADDR_MASK = (e mod 2 ^ 52) / 4096 * 4096.
Proof.
  replace PTE_ADDR_MASK with (Z.land (Z.ones 52) PTE_ADDR_MASK) by reflexivity.
  rewrite Z.land_assoc, Z.land_ones by lia.
  apply (clear_low_bits 52 (e mod 2 ^ 52) 12 PTE_ADDR_MASK); [|lia|reflexivity].
  apply Z.mod_pos_bound. reflexivity.
Qed.

Lemma entry_ppn_eq e : entry_ppn e = (e / 4096) mod 2 ^ 36.
Proof.
  unfold entry_ppn, PPN_of. rewrite (shiftr_div e 12 4096) by done.
  rewrite (land_ones_mod _ 36 68719476735), (land_ones_mod _ 48 281474976710655) by done.
  pose proof (Z.mod_pos_bound (e / 4096) (2 ^ 36) eq_refl).
  apply Z.mod_small. change (2 ^ 36) with 68719476736 in *. change (2 ^ 48) with 281474976710656. lia.
Qed.

Lemma addr_of_eq e : addr_of e = (e / 4096) mod 2 ^ 40.
Proof.
  unfold addr_of. rewrite addr_mask_eq, Z.div_mul by done.
  assert (2 ^ 52 = 4096 * 2 ^ 40) as -> by reflexivity. rewrite Z.rem_mul_r by done.
  rewrite Z.mul_comm, Z.div_add by done. rewrite Z.div_small; [done|]. by apply Z.mod_pos_bound.
Qed.

(** The code keeps 36 bits of a frame number, the processor 40. *)
Lemma entry_ppn_addr e : addr_of e < 2 ^ 36 → entry_ppn e = addr_of e.
Proof.
  rewrite entry_ppn_eq, addr_of_eq. change (2 ^ 36) with 68719476736. change (2 ^ 40) with 1099511627776.
  word_lia.
Qed.

(** The flags of a table entry, as a number. *)
Definition flags_of (user write : bool) : Z := 1 + (if write then 2 else 0) + (if user then 4 else 0).

Lemma make_entry_eq ppn user write :
  0 <= ppn < 2 ^ 36 → make_entry ppn user write = ppn * 4096 + flags_of user write.
Proof.
  intros Hp. change (2 ^ 36) with 68719476736 in Hp. unfold make_entry, flags_of.
  rewrite (shiftl_mul ppn 12 4096) by done. rewrite u64_id by word_lia.
  rewrite <- !Z.lor_assoc.
  replace (Z.lor PTE_PRESENT (Z.lor (if write then PTE_WRITE else 0) (if user then PTE_USER else 0)))
    with (1 + (if write then 2 else 0) + (if user then 4 else 0)) by (by destruct user, write).
  change 4096 with (2 ^ 12). apply lor_disjoint; [done|]. change (2 ^ 12) with 4096.
  destruct user, write; lia.
Qed.

Lemma make_entry_facts ppn user write :
  0 <= ppn < 2 ^ 36 →
  let e := make_entry ppn user write in
  has e PTE_PRESENT = true ∧ has e PTE_HUGE = false ∧ addr_of e = ppn
  ∧ ∀ perm, 0 <= perm < 8 → Z.land perm e = Z.land perm (flags_of user write).
Proof.
  intros Hp e. subst e. rewrite make_entry_eq by done. change (2 ^ 36) with 68719476736 in Hp.
  assert ((ppn * 4096 + flags_of user write) mod 4096 = flags_of user write) as E
    by (unfold flags_of; destruct user, write; word_lia).
  rewrite addr_of_eq, !(has_low (_ + _)), E by done. split_and!.
  - by destruct user, write.
  - by destruct user, write.
  - change (2 ^ 40) with 1099511627776. unfold flags_of. destruct user, write; word_lia.
  - intros perm Hpm. rewrite Z.land_comm, land_low, E by lia. apply Z.land_comm.
Qed.

(** The entries a split writes: [base] a multiple of the page size. *)
Lemma split_entry_facts base lf huge :
  base mod 4096 = 0 → 0 <= base < 2 ^ 52 → 0 <= lf < 8 → has lf PTE_PRESENT = true → huge = 0 ∨ huge = 128 →
  let e := Z.lor (Z.lor base lf) huge in
  has e PTE_PRESENT = true ∧ has e PTE_HUGE = negb (huge =? 0) ∧ Z.land e PTE_ADDR_MASK = base
  ∧ ∀ perm, 0 <= perm < 8 → Z.land perm e = Z.land perm lf.
Proof.
  intros Hb Hr Hl Hp Hh e. change (2 ^ 52) with 4503599627370496 in Hr.
  assert (e = base + (lf + huge)) as Ee.
  { subst e. rewrite <- Z.lor_assoc. assert (Z.lor lf huge = lf + huge) as ->.
    { destruct Hh as [->| ->]; [by rewrite Z.lor_0_r, Z.add_0_r|].
      rewrite Z.lor_comm, Z.add_comm. apply (lor_disjoint 1 lf 7); [done|]. change (2 ^ 7) with 128. lia. }
    replace base with (base / 4096 * 2 ^ 12) at 1 by (change (2 ^ 12) with 4096; word_lia).
    rewrite lor_disjoint; [change (2 ^ 12) with 4096; word_lia|done|change (2 ^ 12) with 4096; lia]. }
  assert (e mod 4096 = lf + huge) as E by (rewrite Ee; word_lia).
  assert (lf = 0 ∨ lf = 1 ∨ lf = 2 ∨ lf = 3 ∨ lf = 4 ∨ lf = 5 ∨ lf = 6 ∨ lf = 7) as Hlf by lia.
  rewrite !(has_low e), E by done. split_and!.
  - destruct Hh as [->| ->]; destruct Hlf as [->|[->|[->|[->|[->|[->|[->| ->]]]]]]]; done.
  - destruct Hh as [->| ->]; destruct Hlf as [->|[->|[->|[->|[->|[->|[->| ->]]]]]]]; done.
  - rewrite addr_mask_eq, Ee, Z.mod_small by (change (2 ^ 52) with 4503599627370496; word_lia). word_lia.
  - intros perm Hpm. rewrite Z.land_comm, land_low, E by lia.
    assert (perm = 0 ∨ perm = 1 ∨ perm = 2 ∨ perm = 3 ∨ perm = 4 ∨ perm = 5 ∨ perm = 6 ∨ perm = 7) as Hpp by lia.
    destruct Hh as [->| ->]; destruct Hlf as [->|[->|[->|[->|[->|[->|[->| ->]]]]]]];
      destruct Hpp as [->|[->|[->|[->|[->|[->|[->| ->]]]]]]]; done.
Qed.

Lemma table_index_eq vpn level : table_index vpn level = (vpn / 512 ^ Z.of_nat level) mod 512.
Proof.
  unfold table_index. rewrite (land_ones_mod _ 9) by done. f_equal.
  apply shiftr_div; [lia|]. change 512 with (2 ^ 9). rewrite <- Z.pow_mul_r by lia. f_equal. lia.
Qed.
Lemma table_index_range vpn level : 0 <= table_index vpn level < 512.
Proof. rewrite table_index_eq. by apply Z.mod_pos_bound. Qed.

(** Two pages with the same index differ below it. *)
Lemma same_index vpn vpn' level :
  table_index vpn' (S level) = table_index vpn (S level) →
  vpn' mod 512 ^ Z.of_nat (S (S level)) ≠ vpn mod 512 ^ Z.of_nat (S (S level)) →
  vpn' mod 512 ^ Z.of_nat (S level) ≠ vpn mod 512 ^ Z.of_nat (S level).
Proof.
  rewrite !table_index_eq. intros Ei Hne E. apply Hne.
  assert (0 < 512 ^ Z.of_nat (S level)) by (apply Z.pow_pos_nonneg; lia).
  rewrite (Nat2Z.inj_succ (S level)), Z.pow_succ_r, (Z.mul_comm 512) by lia.
  rewrite !Z.rem_mul_r by lia. by rewrite E, Ei.
Qed.

(** ** Trees of tables *)

Section Tree.
Context (hh : Z) (entries : list MemmapEntry) (P : platform hh entries).

Abbreviation frame_client := (frame_client hh entries) (only parsing).
Abbreviation usable := (usable entries) (only parsing).

(** The entry of a large page, which has no table below it. *)
Definition is_huge (e : Z) (level : nat) : bool := has e PTE_HUGE && ((level =? 2)%nat || (level =? 1)%nat).

Definition slot (t i : Z) : Z := t * 4096 + 8 * i.

(** [tree level t T s]: the tables below table [t] are the frames of [T], each
    reached by one path only, and large pages are aligned. *)
Fixpoint tree (level : nat) (t : Z) (T : gset Z) (s : PhysMem) : Prop :=
  match level with
  | O => T = {[t]}
  | S level' => ∃ sub : Z → gset Z,
      (∀ i, 0 <= i < 512 → t ∉ sub i)
      ∧ (∀ i j, 0 <= i < 512 → 0 <= j < 512 → i ≠ j → sub i ## sub j)
      ∧ (∀ p, p ∈ T ↔ p = t ∨ ∃ i, 0 <= i < 512 ∧ p ∈ sub i)
      ∧ ∀ i, 0 <= i < 512 →
          let e := word s (slot t i) in
          if has e PTE_PRESENT then
            if is_huge e level
            then sub i = ∅ ∧ Z.land e PTE_ADDR_MASK mod (4096 * 512 ^ Z.of_nat level) = 0
            else tree level' (addr_of e) (sub i) s
          else sub i = ∅
  end.

(** Frame [p] is not the allocator's to give. *)
Definition owned (A : gset Z) (p : Z) : Prop := ok_frame hh p ∧ (usable p → p ∈ A).

Lemma slot_frame t i : 0 <= i < 512 → slot t i / 4096 = t.
Proof using. unfold slot. intros. word_lia. Qed.
Lemma slot_inj t i j : slot t i = slot t j → i = j.
Proof using. unfold slot. lia. Qed.

Lemma tree_root l t T s : tree l t T s → t ∈ T.
Proof using.
  destruct l as [|l]; cbn [tree]; [intros ->; by apply elem_of_singleton|].
  intros (sub & _ & _ & HT & _). apply HT. by left.
Qed.

Lemma land7 e : 0 <= Z.land e 7 < 8.
Proof using. rewrite (land_ones_mod e 3 7) by done. by apply Z.mod_pos_bound. Qed.

Lemma land_flags perm e : 0 <= perm < 8 → Z.land perm e = Z.land perm (Z.land e 7).
Proof using.
  intros Hp. rewrite (Z.land_comm e), Z.land_assoc. f_equal.
  rewrite (land_ones_mod perm 3 7) by done. symmetry. by apply Z.mod_small.
Qed.

Lemma perm_range perm e : 0 <= perm < 8 → 0 <= Z.land perm e < 8.
Proof using. intros Hp. rewrite land_flags, Z.land_assoc by done. apply land7. Qed.

(** A tree is as before where its tables are. *)
Lemma tree_frame l : ∀ t T s s',
  tree l t T s → (∀ a, a / 4096 ∈ T → word s' a = word s a) → tree l t T s'.
Proof using.
  induction l as [|l IH]; intros t T s s' Ht Hw; [exact Ht|].
  pose proof (tree_root _ _ _ _ Ht) as Hroot. cbn [tree] in Ht |- *.
  destruct Ht as (sub & H1 & H2 & H3 & H4). exists sub. split_and!; [done..|].
  intros i Hi. specialize (H4 i Hi). cbn in H4 |- *. rewrite Hw by (by rewrite slot_frame).
  destruct (has _ PTE_PRESENT); [|done]. destruct (is_huge _ _); [done|].
  eapply IH; [exact H4|]. intros a Ha. apply Hw, H3. eauto.
Qed.

(** One step of the reading. *)
Lemma translate_S l t vpn perm s :
  translate (S l) t vpn perm s =
  let e := word s (slot t (table_index vpn (S l))) in
  if has e PTE_PRESENT then
    if is_huge e (S l)
    then Some (addr_of e + vpn mod 512 ^ Z.of_nat (S l), Z.land perm e)
    else translate l (addr_of e) vpn (Z.land perm e) s
  else None.
Proof using. cbn [translate]. unfold slot. by destruct (has _ PTE_PRESENT). Qed.

Lemma leaf_slot_S l t vpn s :
  leaf_slot (S l) t vpn s =
  let e := word s (slot t (table_index vpn (S l))) in
  if has e PTE_PRESENT then if is_huge e (S l) then None else leaf_slot l (addr_of e) vpn s else None.
Proof using. cbn [leaf_slot]. unfold slot. by destruct (has _ PTE_PRESENT). Qed.

Lemma leaf_S l t vpn s :
  leaf (S l) t vpn s =
  let e := word s (slot t (table_index vpn (S l))) in
  if has e PTE_PRESENT then if is_huge e (S l) then 0 else leaf l (addr_of e) vpn s else 0.
Proof using.
  unfold leaf. rewrite leaf_slot_S. cbn zeta. destruct (has _ PTE_PRESENT); [|done]. by destruct (is_huge _ _).
Qed.

(** The path to a user page: no large pages, and every right granted. *)
Fixpoint user_path (level : nat) (t vpn : Z) (s : PhysMem) : Prop :=
  match level with
  | O => True
  | S level' =>
      let e := word s (slot t (table_index vpn level)) in
      has e PTE_PRESENT = true → is_huge e level = false ∧ Z.land e 7 = 7 ∧ user_path level' (addr_of e) vpn s
  end.

(** The page is the same in both states. *)
Definition same_page (level : nat) (t : Z) (s s' : PhysMem) (vpn : Z) : Prop :=
  (∀ perm, 0 <= perm < 8 → translate level t vpn perm s' = translate level t vpn perm s)
  ∧ (user_path level t vpn s → user_path level t vpn s' ∧ leaf level t vpn s' = leaf level t vpn s).

Lemma same_page_trans l t s s1 s2 vpn :
  same_page l t s s1 vpn → same_page l t s1 s2 vpn → same_page l t s s2 vpn.
Proof using.
  intros [H1 H2] [H3 H4]. split.
  - intros perm Hp. by rewrite H3, H1.
  - intros [Hu E]%H2. destruct (H4 Hu) as [? E']. split; [done|]. by rewrite E'.
Qed.

(** A page is the same when its entry is, and it is the same below. *)
Lemma entry_same l t s s' vpn :
  let e := word s (slot t (table_index vpn (S l))) in
  word s' (slot t (table_index vpn (S l))) = e →
  (has e PTE_PRESENT = true → is_huge e (S l) = false → same_page l (addr_of e) s s' vpn) →
  same_page (S l) t s s' vpn.
Proof using.
  intros e He Hb. unfold same_page. setoid_rewrite translate_S. rewrite !leaf_S. cbn [user_path]. cbn zeta.
  rewrite He. fold e. destruct (has e PTE_PRESENT); [|by repeat split].
  destruct (is_huge e (S l)); [split; [done|]; intros Hu; by destruct (Hu eq_refl)|].
  destruct (Hb eq_refl eq_refl) as [W1 W2]. split.
  - intros perm Hpm. apply W1. by apply perm_range.
  - intros Hu. destruct (Hu eq_refl) as (? & ? & Hu'). destruct (W2 Hu') as [? ->]. split; [|done]. by intros _.
Qed.

(** The walk only reads the tables. *)
Lemma walk_frame l : ∀ t T s s' vpn,
  tree l t T s → (∀ a, a / 4096 ∈ T → word s' a = word s a) → same_page l t s s' vpn.
Proof using.
  induction l as [|l IH]; intros t T s s' vpn Ht Hw; pose proof (tree_root _ _ _ _ Ht) as Hroot.
  - unfold same_page, leaf. cbn [translate leaf_slot]. fold (slot t (table_index vpn 0)).
    rewrite !Hw; [by split|..]. all: rewrite slot_frame by apply table_index_range; done.
  - pose proof (table_index_range vpn (S l)) as Hi. destruct Ht as (sub & H1 & H2 & H3 & H4).
    specialize (H4 _ Hi). cbn zeta in H4. apply entry_same.
    { by rewrite Hw by (by rewrite slot_frame). }
    intros Hpr Hhu. rewrite Hpr, Hhu in H4. eapply IH; [exact H4|]. intros a Ha. apply Hw, H3. eauto.
Qed.

(** ** Access to the tables *)

Lemma ok_frame_bound p : ok_frame hh p → 1 <= p < 2 ^ 36.
Proof using P.
  intros [H1 H2]. pose proof (plat_hhdm _ _ P) as Hh.
  change (2 ^ 64) with 18446744073709551616 in *. change (2 ^ 36) with 68719476736. lia.
Qed.

Lemma slot_va p i : ok_frame hh p → 0 <= i < 512 →
  u64 (u64 (frame_va hh p + 8 * i) - hh) = slot p i ∧ u64 (frame_va hh p + 8 * i) = frame_va hh p + 8 * i.
Proof using P.
  intros [H1 H2] Hi. pose proof (plat_hhdm _ _ P) as Hh. change (2 ^ 64) with 18446744073709551616 in *.
  unfold frame_va, slot. word_lia.
Qed.

Lemma entry_at_word p i s : ok_frame hh p → 0 <= i < 512 → entry_at hh (frame_va hh p) i s = word s (slot p i).
Proof using P. intros Hp Hi. unfold entry_at, load. by destruct (slot_va p i Hp Hi) as [-> _]. Qed.

Lemma set_entry_store p i v s : ok_frame hh p → 0 <= i < 512 →
  set_entry hh (frame_va hh p) i v s = s .[ mem := <[slot p i := v]> (mem s) ].
Proof using P. intros Hp Hi. unfold set_entry, store. by destruct (slot_va p i Hp Hi) as [-> _]. Qed.

Lemma word_insert s a v b :
  word (s .[ mem := <[a := v]> (mem s) ]) b = if decide (b = a) then v else word s b.
Proof using.
  unfold word. cbn. case_decide as E; [by rewrite E, lookup_insert_eq|by rewrite lookup_insert_ne].
Qed.

Lemma word_set_entry p i v s b : ok_frame hh p → 0 <= i < 512 →
  word (set_entry hh (frame_va hh p) i v s) b = if decide (b = slot p i) then v else word s b.
Proof using P. intros. by rewrite set_entry_store, word_insert. Qed.

Lemma set_entry_client s A p i v : owned A p → 0 <= i < 512 →
  frame_client s A → frame_client (set_entry hh (frame_va hh p) i v s) A.
Proof using P.
  intros [Hok Hin] Hi C. rewrite set_entry_store by done. apply fc_store; [done|]. by rewrite slot_frame.
Qed.

Lemma VA_of_table p : ok_frame hh p → VA_of_PPN hh p = Some (frame_va hh p).
Proof using P. intros Hp. by destruct (ok_frame_facts _ _ P p Hp) as (_ & -> & _). Qed.

(** Filling a whole table. *)
Lemma fill_table_ok n : ∀ i p f s A,
  owned A p → 0 <= i → i + Z.of_nat n <= 512 → frame_client s A →
  let s' := fill_table hh n i (frame_va hh p) f s in
  frame_client s' A ∧ (∀ a, a / 4096 ≠ p → word s' a = word s a)
  ∧ (∀ k, 0 <= k < 512 → word s' (slot p k) = if decide (i <= k < i + Z.of_nat n) then f k else word s (slot p k)).
Proof using P.
  induction n as [|n IH]; intros i p f s A Hp Hi Hn C s'; subst s'; cbn [fill_table].
  { split_and!; try done. intros k Hk. rewrite decide_False by lia. done. }
  destruct (IH (i + 1) p f (set_entry hh (frame_va hh p) i (f i) s) A) as (C' & Ho & Hk); [done|lia|lia| |].
  { apply set_entry_client; [done|lia|done]. }
  destruct Hp as [Hok Hin]. split_and!; [done| |].
  - intros a Ha. rewrite Ho, word_set_entry, decide_False by (done || lia || intros ->; rewrite slot_frame in Ha; lia). done.
  - intros k Hk'. rewrite Hk by done. rewrite word_set_entry by (done || lia).
    destruct (decide (k = i)) as [->|].
    + rewrite decide_False by lia. rewrite decide_True by done. by rewrite decide_True by lia.
    + rewrite (decide_False (P := slot p k = slot p i)) by (intros ?%slot_inj; lia).
      repeat case_decide; try lia; done.
Qed.
(** ** New tables *)

Lemma zero_table l t s :
  (∀ k, 0 <= k < 512 → word s (slot t k) = 0) →
  tree l t {[t]} s
  ∧ ∀ vpn, (∀ perm, translate l t vpn perm s = None) ∧ user_path l t vpn s ∧ leaf l t vpn s = 0.
Proof using.
  intros Hz. destruct l as [|l].
  - split; [done|]. intros vpn. unfold leaf. cbn [translate leaf_slot]. fold (slot t (table_index vpn 0)).
    rewrite Hz by apply table_index_range. by split.
  - split.
    + exists (λ _, ∅). split_and!; [intros; apply not_elem_of_empty|intros; apply disjoint_empty_l| |].
      * intros p. rewrite elem_of_singleton. split; [by left|]. by intros [->|(i & _ & ?%not_elem_of_empty)].
      * intros i Hi. cbn. by rewrite Hz.
    + intros vpn. setoid_rewrite translate_S. rewrite leaf_S. cbn [user_path]. cbn zeta.
      rewrite Hz by apply table_index_range. by repeat split.
Qed.

(** Table [c] of [s1] shows a page as table [t] of [s] does, when [t] is made
    to point at it. *)
Definition attached (l : nat) (t c : Z) (u w : bool) (s s1 : PhysMem) (vpn : Z) : Prop :=
  (∀ perm, 0 <= perm < 8 →
    translate l c vpn (Z.land perm (flags_of u w)) s1 = translate (S l) t vpn perm s)
  ∧ (user_path (S l) t vpn s →
      u = true ∧ w = true ∧ user_path l c vpn s1 ∧ leaf l c vpn s1 = leaf (S l) t vpn s).

(** A table that entry [i] of [t], so far without a table below it, is made to
    point at. *)
Lemma attach l t T i c u w s s1 s2 :
  tree (S l) t T s → 0 <= i < 512 → c ∉ T → 0 <= c < 2 ^ 36 →
  has (word s (slot t i)) PTE_PRESENT = false ∨ is_huge (word s (slot t i)) (S l) = true →
  (∀ a, a / 4096 ≠ c → word s1 a = word s a) →
  tree l c {[c]} s1 →
  (∀ a, word s2 a = if decide (a = slot t i) then make_entry c u w else word s1 a) →
  (∀ vpn, table_index vpn (S l) = i → attached l t c u w s s1 vpn) →
  tree (S l) t ({[c]} ∪ T) s2 ∧ ∀ vpn, same_page (S l) t s s2 vpn.
Proof using.
  intros Ht Hi Hc Hcr Hno Hs1 Htc Hs2 Htr. pose proof (tree_root _ _ _ _ Ht) as Hroot.
  destruct (make_entry_facts c u w Hcr) as (Ep & Eh & Ec & Ef). cbn zeta in *.
  destruct Ht as (sub & H1 & H2 & H3 & H4).
  assert (t ≠ c) as Htc' by (intros ->; done).
  assert (∀ a, a / 4096 ∈ T → a ≠ slot t i → word s2 a = word s a) as Hw.
  { intros a Ha Hne. rewrite Hs2, decide_False by done. apply Hs1. intros E. by rewrite E in Ha. }
  assert (∀ a, a / 4096 = c → word s2 a = word s1 a) as Hwc.
  { intros a Ha. rewrite Hs2, decide_False; [done|]. intros E. by rewrite E, slot_frame in Ha. }
  assert (word s2 (slot t i) = make_entry c u w) as Ei by (rewrite Hs2; by rewrite decide_True).
  assert (is_huge (make_entry c u w) (S l) = false) as Eh' by (unfold is_huge; by rewrite Eh).
  assert (sub i = ∅) as Esub.
  { specialize (H4 i Hi). cbn zeta in H4. destruct Hno as [E|E]; rewrite E in H4; [done|].
    destruct (has _ PTE_PRESENT); [by destruct H4|done]. }
  assert (∀ j a, 0 <= j < 512 → a / 4096 ∈ sub j → word s2 a = word s a) as Hwsub.
  { intros j a Hj Ha. apply Hw; [apply H3; eauto|]. intros ->. rewrite slot_frame in Ha by done. by apply (H1 j). }
  split.
  - exists (λ j, if decide (j = i) then {[c]} else sub j). split_and!.
    + intros j Hj. case_decide; [by rewrite elem_of_singleton|auto].
    + intros j k Hj Hk Hne. assert (∀ j, 0 <= j < 512 → c ∉ sub j) by (intros x Hx Hin; apply Hc, H3; eauto).
      repeat case_decide; try lia; [apply disjoint_singleton_l; auto|apply disjoint_singleton_r; auto|auto].
    + intros p. rewrite elem_of_union, elem_of_singleton, H3. split.
      * intros [->|[->|(j & Hj & Hp)]]; [right; exists i; rewrite decide_True by done; split; [done|by apply elem_of_singleton]|by left|].
        right. exists j. split; [done|]. case_decide; [|done]. subst. rewrite Esub in Hp. by apply not_elem_of_empty in Hp.
      * intros [->|(j & Hj & Hp)]; [by right; left|]. case_decide; [left; by apply elem_of_singleton in Hp|right; right; eauto].
    + intros j Hj. cbn zeta. destruct (decide (j = i)) as [->|Hne].
      * rewrite Ei, Ep, Eh', Ec. eapply tree_frame; [exact Htc|]. intros a Ha%elem_of_singleton. auto.
      * rewrite Hw; [|by rewrite slot_frame|intros ?%slot_inj; lia].
        specialize (H4 j Hj). cbn zeta in H4. destruct (has _ PTE_PRESENT); [|done].
        destruct (is_huge _ _); [done|]. eapply tree_frame; [exact H4|]. intros a Ha. by apply (Hwsub j).
  - intros vpn. pose proof (table_index_range vpn (S l)) as Hx.
    destruct (decide (table_index vpn (S l) = i)) as [E|Hne].
    + unfold same_page. setoid_rewrite translate_S. rewrite !leaf_S. cbn [user_path]. cbn zeta.
      destruct (Htr vpn E) as [Htr1 Htr2]. cbn [user_path] in Htr2. cbn zeta in Htr2. rewrite leaf_S in Htr2. cbn zeta in Htr2.
      setoid_rewrite translate_S in Htr1. cbn zeta in Htr1. rewrite E, Ei, Ep, Eh', Ec in *.
      destruct (walk_frame l c {[c]} s1 s2 vpn Htc) as [W1 W2]; [intros a Ha%elem_of_singleton; auto|]. split.
      * intros perm Hpm. rewrite Ef, <- Htr1 by done. apply W1. by apply perm_range.
      * intros (-> & -> & Hu & <-)%Htr2. destruct (W2 Hu) as [Hu' ->]. split; [|done]. intros _. split_and!; [done| |done].
        rewrite Z.land_comm, Ef by lia. done.
    + apply entry_same.
      { apply Hw; [by rewrite slot_frame|intros ?%slot_inj; lia]. }
      intros Hpr Hhu. specialize (H4 _ Hx). cbn zeta in H4. rewrite Hpr, Hhu in H4.
      eapply walk_frame; [exact H4|]. intros a Ha. by apply (Hwsub (table_index vpn (S l))).
Qed.

(** The table a large entry [e] of level [S l] is split into. *)
Definition split_entry (l : nat) (e i : Z) : Z :=
  Z.lor (Z.lor (Z.land e PTE_ADDR_MASK + i * (4096 * 512 ^ Z.of_nat l)) (Z.land e 7))
    (if (l =? 0)%nat then 0 else PTE_HUGE).

Lemma split_table l c e s :
  l = 0%nat ∨ l = 1%nat → has e PTE_PRESENT = true →
  Z.land e PTE_ADDR_MASK mod (4096 * 512 ^ Z.of_nat (S l)) = 0 →
  (∀ k, 0 <= k < 512 → word s (slot c k) = split_entry l e k) →
  tree l c {[c]} s
  ∧ ∀ vpn perm, 0 <= perm < 8 → translate l c vpn (Z.land perm e) s =
      Some (addr_of e + vpn mod 512 ^ Z.of_nat (S l), Z.land perm e).
Proof using.
  intros Hl Hpr Hal Hw. enough (tree l c {[c]} s ∧ ∀ vpn perm, 0 <= perm < 8 →
    translate l c vpn (Z.land perm e) s =
      Some (Z.land e PTE_ADDR_MASK / 4096 + vpn mod 512 ^ Z.of_nat (S l), Z.land perm e)) by done. set (b := Z.land e PTE_ADDR_MASK) in *.
  assert (0 <= b < 4503599627370496) as Hb.
  { subst b. rewrite addr_mask_eq. change (2 ^ 52) with 4503599627370496. word_lia. }
  assert (has (Z.land e 7) PTE_PRESENT = true) as Hpr7.
  { unfold has in *. by rewrite <- Z.land_assoc. }
  pose proof (land7 e) as H7.
  assert (∀ perm, 0 <= perm < 8 → Z.land (Z.land perm e) (Z.land e 7) = Z.land perm e) as Hidem.
  { intros perm Hp. rewrite (land_flags perm e) by done. by rewrite <- Z.land_assoc, Z.land_diag. }
  pose proof (λ perm, perm_range perm e) as Hr.
  unfold split_entry in Hw. fold b in Hw. destruct Hl as [->| ->]; cbn in Hal.
  - assert (∀ k, 0 <= k < 512 → word s (slot c k) = Z.lor (Z.lor (b + k * 4096) (Z.land e 7)) 0) as Hw' by exact Hw.
    clear Hw. rename Hw' into Hw. split; [done|]. intros vpn perm Hp. cbn [translate]. fold (slot c (table_index vpn 0)).
    pose proof (table_index_range vpn 0) as Hi. rewrite Hw by done.
    destruct (split_entry_facts (b + table_index vpn 0 * 4096) (Z.land e 7) 0) as (Ep & _ & Ea & Ef);
      [word_lia|change (2 ^ 52) with 4503599627370496; word_lia|done|done|by left|].
    unfold addr_of. rewrite Ep, Ea, Ef, Hidem by auto. cbn [negb]. do 2 f_equal.
    rewrite table_index_eq. cbn. rewrite Z.div_1_r. word_lia.
  - assert (∀ k, 0 <= k < 512 → word s (slot c k) = Z.lor (Z.lor (b + k * 2097152) (Z.land e 7)) 128) as Hw' by exact Hw.
    clear Hw. rename Hw' into Hw.
    assert (∀ k, 0 <= k < 512 → let e' := word s (slot c k) in
      has e' PTE_PRESENT = true ∧ is_huge e' 1 = true ∧ Z.land e' PTE_ADDR_MASK = b + k * 2097152
      ∧ ∀ perm, 0 <= perm < 8 → Z.land perm e' = Z.land perm (Z.land e 7)) as Hf.
    { intros k Hk. cbn zeta. rewrite Hw by done.
      destruct (split_entry_facts (b + k * 2097152) (Z.land e 7) 128) as (Ep & Eh & Ea & Ef);
        [word_lia|change (2 ^ 52) with 4503599627370496; word_lia|done|done|by right|].
      unfold PTE_HUGE. split_and!; [done| |done|done]. unfold is_huge. by rewrite Eh. }
    split.
    + exists (λ _, ∅). split_and!; [intros; apply not_elem_of_empty|intros; apply disjoint_empty_l| |].
      * intros p. rewrite elem_of_singleton. split; [by left|]. by intros [->|(i & _ & ?%not_elem_of_empty)].
      * intros i Hi. cbn zeta. destruct (Hf i Hi) as (-> & -> & -> & _). split; [done|]. cbn. word_lia.
    + intros vpn perm Hp. rewrite translate_S. unfold addr_of. cbn zeta. pose proof (table_index_range vpn 1) as Hi.
      destruct (Hf _ Hi) as (-> & -> & -> & ->); [|by auto]. rewrite Hidem by done. do 2 f_equal.
      rewrite table_index_eq. cbn. word_lia.
Qed.

(** A new frame is not owned before. *)
Lemma fresh_not_owned s' A A' p : frame_client s' A' → p ∈ A' → p ∉ A → ¬ owned A p.
Proof using P. intros C Hp Hn [_ Ho]. apply Hn, Ho. eapply client_usable; eauto. Qed.
Lemma client_owned s A p : frame_client s A → p ∈ A → owned A p.
Proof using P. intros C Hp. split; [|done]. eapply usable_ok, client_usable; eauto. Qed.
Lemma owned_mono A A' p : A ⊆ A' → owned A p → owned A' p.
Proof using. intros HA [? ?]. split; [done|]. auto. Qed.

(** ** A walk step: a table below entry [i] *)

Lemma room_S n A : room entries (S n) A → room entries n A.
Proof using.
  intros (l & Hnd & Hl & Hin). destruct l as [|p l]; [done|]. exists l.
  apply NoDup_cons in Hnd as [_ Hnd]. split_and!; [done|by injection Hl|]. intros q Hq. apply Hin. by right.
Qed.

(** How the tables grow: from [T] and [A] to [T'] and [A']. *)
Record grows (s s' : PhysMem) (A A' T T' : gset Z) : Prop := {
  grow_client : frame_client s' A';
  grow_A : A ⊆ A';
  grow_T : T ⊆ T';
  grow_new : ∀ p, p ∈ T' → p ∈ T ∨ p ∈ A' ∧ p ∉ A;
  grow_all : ∀ p, p ∈ A' → p ∈ A ∨ p ∈ T';
  grow_words : ∀ a, a / 4096 ∉ T' → word s' a = word s a;
}.

Lemma grows_add s s' A T c :
  frame_client s' ({[c]} ∪ A) → c ∉ A → (∀ a, a / 4096 ∉ {[c]} ∪ T → word s' a = word s a) →
  grows s s' A ({[c]} ∪ A) T ({[c]} ∪ T).
Proof using.
  intros C Hc Hw. split; [done|apply union_subseteq_r|apply union_subseteq_r| | |done].
  - intros p [->%elem_of_singleton|Hp]%elem_of_union; [|by left].
    right. split; [|done]. apply elem_of_union_l. by apply elem_of_singleton.
  - intros p [->%elem_of_singleton|Hp]%elem_of_union; [|by left].
    right. apply elem_of_union_l. by apply elem_of_singleton.
Qed.

(** The new table [c] with the words of [s1], pointed at in [s2]. *)
Lemma grow_attach l t T i c u w s s1 s2 A :
  tree (S l) t T s → 0 <= i < 512 → (∀ p, p ∈ T → owned A p) → usable c → c ∉ A →
  frame_client s2 ({[c]} ∪ A) →
  has (word s (slot t i)) PTE_PRESENT = false ∨ is_huge (word s (slot t i)) (S l) = true →
  (∀ a, a / 4096 ≠ c → word s1 a = word s a) →
  tree l c {[c]} s1 →
  (∀ a, word s2 a = if decide (a = slot t i) then make_entry c u w else word s1 a) →
  (∀ vpn, table_index vpn (S l) = i → attached l t c u w s s1 vpn) →
  grows s s2 A ({[c]} ∪ A) T ({[c]} ∪ T) ∧ tree (S l) t ({[c]} ∪ T) s2
  ∧ (has (word s2 (slot t i)) PTE_PRESENT = true ∧ is_huge (word s2 (slot t i)) (S l) = false)
  ∧ ∀ vpn, same_page (S l) t s s2 vpn.
Proof using P.
  intros Ht Hi Hown Hu Hc C Hno Hs1 Htc Hs2 Htr.
  assert (c ∉ T) as HcT by (intros Hin; by apply Hc, (Hown c Hin)).
  assert (0 <= c < 2 ^ 36) as Hcr by (pose proof (ok_frame_bound c (usable_ok _ _ P c Hu)); lia).
  destruct (attach l t T i c u w s s1 s2) as [Ht2 Htr2]; [done..|].
  destruct (make_entry_facts c u w Hcr) as (Ep & Eh & _). cbn zeta in *.
  split_and!; [|done| | |done].
  - apply grows_add; [done..|]. intros a Ha. pose proof (tree_root _ _ _ _ Ht).
    rewrite Hs2, decide_False.
    + apply Hs1. intros E. apply Ha. rewrite E. apply elem_of_union_l. by apply elem_of_singleton.
    + intros E. apply Ha. rewrite E, slot_frame by done. by apply elem_of_union_r.
  - rewrite Hs2, decide_True by done. done.
  - rewrite Hs2, decide_True by done. unfold is_huge. by rewrite Eh.
Qed.

Lemma split_ok l t i s A n :
  frame_client s A → room entries (S n) A → owned A t → 0 <= i < 512 →
  has (word s (slot t i)) PTE_PRESENT = true → is_huge (word s (slot t i)) (S l) = true →
  let e := word s (slot t i) in
  ∃ c s1 s2, split_large_entry hh (frame_va hh t) i (S l) s = Some s2
    ∧ c ∉ A ∧ usable c ∧ frame_client s2 ({[c]} ∪ A)
    ∧ (∀ a, a / 4096 ≠ c → word s1 a = word s a)
    ∧ (∀ k, 0 <= k < 512 → word s1 (slot c k) = split_entry l e k)
    ∧ ∀ a, word s2 a = if decide (a = slot t i) then make_entry c (has e PTE_USER) (has e PTE_WRITE) else word s1 a.
Proof using P.
  intros C R Hown Hi Hpr Hhu e. pose proof (proj1 Hown) as Hok. unfold split_large_entry.
  rewrite entry_at_word by done. fold e in Hpr, Hhu |- *. rewrite Hpr. cbn [negb].
  unfold is_huge in Hhu. apply andb_true_iff in Hhu as [-> Hl]. rewrite Hl. cbn [negb].
  destruct (alloc_step _ _ P _ _ _ C R) as (c & s0 & -> & Hc & Hu & C0 & _ & _ & Ho0).
  cbn [mbind option_bind]. rewrite VA_of_table by (by eapply usable_ok). cbn [mbind option_bind].
  assert (owned ({[c]} ∪ A) c) as Hoc by (eapply client_owned; [done|set_solver]).
  assert (∀ fl, (fl = PTE_USER ∨ fl = PTE_WRITE) →
    has (Z.land e (Z.lor (Z.lor PTE_PRESENT PTE_WRITE) PTE_USER)) fl = has e fl) as Hfl.
  { intros fl Hfl. unfold has. rewrite <- Z.land_assoc. by destruct Hfl as [->| ->]. }
  rewrite !Hfl by auto.
  assert (∀ f, (∀ k, 0 <= k < 512 → f k = split_entry l e k) →
    let s1 := fill_table hh 512 0 (frame_va hh c) f s0 in
    frame_client s1 ({[c]} ∪ A) ∧ (∀ a, a / 4096 ≠ c → word s1 a = word s a)
    ∧ ∀ k, 0 <= k < 512 → word s1 (slot c k) = split_entry l e k) as Hfill.
  { intros f Hf. destruct (fill_table_ok 512 0 c f s0 _ Hoc ltac:(lia) ltac:(lia) C0) as (C1 & Ho1 & Hk1).
    split_and!; [done| |].
    - intros a Ha. rewrite Ho1 by done. by apply Ho0.
    - intros k Hk. rewrite Hk1, decide_True by lia. by apply Hf. }
  assert (∃ s1, (if (S l =? 2)%nat then fill_table hh 512 0 (frame_va hh c)
      (λ i, Z.lor (Z.lor (u64 (Z.land e PTE_ADDR_MASK + i * HUGE_2M))
         (Z.land e (Z.lor (Z.lor PTE_PRESENT PTE_WRITE) PTE_USER))) PTE_HUGE) s0
    else fill_table hh 512 0 (frame_va hh c)
      (λ i, Z.lor (u64 (Z.land e PTE_ADDR_MASK + i * PAGE_SIZE))
         (Z.land e (Z.lor (Z.lor PTE_PRESENT PTE_WRITE) PTE_USER))) s0) = s1
    ∧ frame_client s1 ({[c]} ∪ A) ∧ (∀ a, a / 4096 ≠ c → word s1 a = word s a)
    ∧ ∀ k, 0 <= k < 512 → word s1 (slot c k) = split_entry l e k) as (s1 & -> & C1 & Ho1 & Hk1).
  { eexists. split; [reflexivity|].
    assert (0 <= Z.land e PTE_ADDR_MASK < 4503599627370496) as Hb.
    { rewrite addr_mask_eq. change (2 ^ 52) with 4503599627370496. word_lia. }
    destruct l as [|[|l]]; [| |done]; apply Hfill; intros k Hk; unfold split_entry, HUGE_2M, PAGE_SIZE, FRAME_SIZE; cbn.
    - rewrite u64_id by word_lia. by rewrite Z.lor_0_r.
    - rewrite u64_id by word_lia. done. }
  exists c, s1. eexists. split; [reflexivity|]. split_and!; try done.
  - apply set_entry_client; [|done|done]. eapply owned_mono; [|done]. apply union_subseteq_r.
  - intros a. by apply word_set_entry.
Qed.
Lemma flags_of_entry e perm :
  has e PTE_PRESENT = true → 0 <= perm < 8 →
  Z.land perm e = Z.land perm (flags_of (has e PTE_USER) (has e PTE_WRITE)).
Proof using.
  intros Hpr Hp. rewrite land_flags by done. f_equal.
  assert (∀ fl, fl = 1 ∨ fl = 2 ∨ fl = 4 → has e fl = has (Z.land e 7) fl) as Hfl.
  { intros fl Hfl. unfold has. rewrite <- Z.land_assoc. by destruct Hfl as [->|[->| ->]]. }
  unfold flags_of, PTE_PRESENT, PTE_WRITE, PTE_USER in *. rewrite Hfl in Hpr by auto. rewrite !Hfl by auto.
  clear Hfl. pose proof (land7 e) as Hz. generalize dependent (Z.land e 7). intros z Hpr Hz.
  assert (z = 0 ∨ z = 1 ∨ z = 2 ∨ z = 3 ∨ z = 4 ∨ z = 5 ∨ z = 6 ∨ z = 7) as Hzz by lia.
  destruct Hzz as [->|[->|[->|[->|[->|[->|[->| ->]]]]]]]; by vm_compute in Hpr |- *.
Qed.

(** The step of [map_level] above level 0. *)
Definition below (l : nat) (table i : Z) (s : PhysMem) : option PhysMem :=
  if has (entry_at hh table i s) PTE_PRESENT then
    if has (entry_at hh table i s) PTE_HUGE && ((S l =? 2)%nat || (S l =? 1)%nat)
    then split_large_entry hh table i (S l) s else Some s
  else
    '(child, s) ← alloc hh s;
    Some (set_entry hh table i (make_entry child true true) s).

Lemma below_ok l t T i s A n :
  frame_client s A → room entries (S n) A → tree (S l) t T s → (∀ p, p ∈ T → owned A p) → 0 <= i < 512 →
  ∃ s' A' T', below l (frame_va hh t) i s = Some s' ∧ room entries n A' ∧ grows s s' A A' T T' ∧ tree (S l) t T' s'
    ∧ (has (word s' (slot t i)) PTE_PRESENT = true ∧ is_huge (word s' (slot t i)) (S l) = false)
    ∧ ∀ vpn, same_page (S l) t s s' vpn.
Proof using P.
  intros C R Ht Hown Hi. pose proof (tree_root _ _ _ _ Ht) as Hroot. pose proof (Hown t Hroot) as Hot.
  pose proof (proj1 Hot) as Hok. unfold below. rewrite !entry_at_word by done.
  destruct (has (word s (slot t i)) PTE_PRESENT) eqn:Hpr.
  - fold (is_huge (word s (slot t i)) (S l)). destruct (is_huge _ _) eqn:Hhu.
    + destruct (split_ok l t i s A n) as (c & s1 & s2 & -> & Hc & Hu & C2 & Ho1 & Hk & Hs2); [done..|]. cbn zeta in *.
      destruct Ht as (sub & H1 & H2 & H3 & H4). pose proof (H4 i Hi) as Hal. cbn zeta in Hal.
      rewrite Hpr, Hhu in Hal. destruct Hal as [_ Hal].
      assert (l = 0%nat ∨ l = 1%nat) as Hl.
      { unfold is_huge in Hhu. destruct l as [|[|l]]; [by left|by right|]. by rewrite andb_false_r in Hhu. }
      destruct (split_table l c (word s (slot t i)) s1 Hl Hpr Hal Hk) as [Htc Htr].
      exists s2, ({[c]} ∪ A), ({[c]} ∪ T). split; [done|]. split; [by apply room_take|].
      apply (grow_attach l t T i c (has (word s (slot t i)) PTE_USER) (has (word s (slot t i)) PTE_WRITE) s s1 s2 A); try done; [by exists sub|by right|].
      intros vpn Ei. split.
      * intros perm Hpm. rewrite translate_S. cbn zeta. rewrite Ei, Hpr, Hhu, <- (Htr vpn perm Hpm). f_equal.
        symmetry. by apply flags_of_entry.
      * cbn [user_path]. cbn zeta. rewrite Ei, Hpr, Hhu. intros Hup. by destruct (Hup eq_refl).
    + exists s, A, T. split_and!; try done; [by apply room_S|split; try done; auto].
  - destruct (alloc_step _ _ P _ _ _ C R) as (c & s1 & -> & Hc & Hu & C1 & R1 & Hz & Ho).
    cbn [mbind option_bind]. destruct (zero_table l c s1 Hz) as [Htc Htr].
    exists (set_entry hh (frame_va hh t) i (make_entry c true true) s1), ({[c]} ∪ A), ({[c]} ∪ T).
    split; [done|]. split; [done|].
    apply (grow_attach l t T i c true true s s1 _ A); try done.
    + apply set_entry_client; [|done|done]. eapply owned_mono; [|done]. apply union_subseteq_r.
    + by left.
    + intros a. by apply word_set_entry.
    + intros vpn Ei. destruct (Htr vpn) as (H1 & H2 & H3). split.
      * intros perm _. rewrite H1, translate_S. cbn zeta. by rewrite Ei, Hpr.
      * intros _. rewrite H3, leaf_S. cbn zeta. by rewrite Ei, Hpr.
Qed.
(** ** The whole walk *)

Lemma map_level_S l t vpn ppn u w s :
  map_level hh (S l) t vpn ppn u w s =
  (table ← VA_of_PPN hh t;
   s1 ← below l table (table_index vpn (S l)) s;
   map_level hh l (entry_ppn (entry_at hh table (table_index vpn (S l)) s1)) vpn ppn u w s1).
Proof using. reflexivity. Qed.

(** The subtree below entry [i] of [t] has grown. *)
Lemma regrow l t T1 i sub Tc s1 s2 A1 A2 :
  0 <= i < 512 → (∀ p, p ∈ T1 → owned A1 p) →
  (∀ i, 0 <= i < 512 → t ∉ sub i) →
  (∀ i j, 0 <= i < 512 → 0 <= j < 512 → i ≠ j → sub i ## sub j) →
  (∀ p, p ∈ T1 ↔ p = t ∨ ∃ i, 0 <= i < 512 ∧ p ∈ sub i) →
  (∀ i, 0 <= i < 512 → let e := word s1 (slot t i) in
     if has e PTE_PRESENT then
       if is_huge e (S l)
       then sub i = ∅ ∧ Z.land e PTE_ADDR_MASK mod (4096 * 512 ^ Z.of_nat (S l)) = 0
       else tree l (addr_of e) (sub i) s1
     else sub i = ∅) →
  has (word s1 (slot t i)) PTE_PRESENT = true → is_huge (word s1 (slot t i)) (S l) = false →
  grows s1 s2 A1 A2 (sub i) Tc → tree l (addr_of (word s1 (slot t i))) Tc s2 →
  grows s1 s2 A1 A2 T1 (T1 ∪ Tc) ∧ tree (S l) t (T1 ∪ Tc) s2
  ∧ (∀ j, 0 <= j < 512 → word s2 (slot t j) = word s1 (slot t j))
  ∧ ∀ vpn, table_index vpn (S l) ≠ i → same_page (S l) t s1 s2 vpn.
Proof using P.
  intros Hi Hown H1 H2 H3 H4 Hpr Hhu G Htc. pose proof (grow_T _ _ _ _ _ _ G) as HT.
  assert (∀ p, p ∈ T1 → p ∈ Tc → p ∈ sub i) as Hnew.
  { intros p Hp Hpc. destruct (grow_new _ _ _ _ _ _ G p Hpc) as [|[Hin Hn]]; [done|].
    exfalso. eapply (fresh_not_owned s2 A1 A2 p); eauto using grow_client. }
  assert (t ∉ Tc) as HtTc.
  { intros Hin. apply (H1 i Hi), Hnew; [|done]. apply H3. by left. }
  assert (∀ j, 0 <= j < 512 → j ≠ i → ∀ p, p ∈ sub j → p ∉ Tc) as Hsub.
  { intros j Hj Hne p Hp Hpc. apply (H2 j i Hj Hi Hne p Hp), Hnew; [|done]. apply H3. eauto. }
  assert (∀ j, 0 <= j < 512 → word s2 (slot t j) = word s1 (slot t j)) as Hroot.
  { intros j Hj. apply (grow_words _ _ _ _ _ _ G). by rewrite slot_frame. }
  split_and!; [| |done|].
  - split.
    + apply (grow_client _ _ _ _ _ _ G).
    + apply (grow_A _ _ _ _ _ _ G).
    + apply union_subseteq_l.
    + intros p [Hp|Hp]%elem_of_union; [by left|]. destruct (grow_new _ _ _ _ _ _ G p Hp); [|by right].
      left. apply H3. eauto.
    + intros p Hp. destruct (grow_all _ _ _ _ _ _ G p Hp); [by left|]. right. by apply elem_of_union_r.
    + intros a Ha. apply (grow_words _ _ _ _ _ _ G). intros ?. apply Ha. by apply elem_of_union_r.
  - exists (λ j, if decide (j = i) then Tc else sub j). split_and!.
    + intros j Hj. case_decide; [done|auto].
    + intros j k Hj Hk Hne. repeat case_decide; try lia; [|symmetry|auto]; subst.
      * symmetry. intros p Hp. by apply (Hsub k).
      * symmetry. intros p Hp. by apply (Hsub j).
    + intros p. rewrite elem_of_union, H3. split.
      * intros [[->|(j & Hj & Hp)]|Hp]; [by left| |].
        -- right. exists j. split; [done|]. case_decide; [subst; by apply HT|done].
        -- right. exists i. split; [done|]. by rewrite decide_True.
      * intros [->|(j & Hj & Hp)]; [left; by left|]. case_decide; [by right|left; right; eauto].
    + intros j Hj. cbn zeta. rewrite Hroot by done. destruct (decide (j = i)) as [->|Hne].
      * by rewrite Hpr, Hhu.
      * specialize (H4 j Hj). cbn zeta in H4. destruct (has _ PTE_PRESENT); [|done].
        destruct (is_huge _ _); [done|]. eapply tree_frame; [exact H4|].
        intros a Ha. apply (grow_words _ _ _ _ _ _ G). by apply (Hsub j).
  - intros vpn Hne. pose proof (table_index_range vpn (S l)) as Hx. apply entry_same.
    { by apply Hroot. }
    intros Hpr' Hhu'. specialize (H4 _ Hx). cbn zeta in H4. rewrite Hpr', Hhu' in H4.
    eapply walk_frame; [exact H4|]. intros a Ha. apply (grow_words _ _ _ _ _ _ G).
    by apply (Hsub (table_index vpn (S l))).
Qed.

Lemma grows_owned s s' A A' T T' :
  grows s s' A A' T T' → (∀ p, p ∈ T → owned A p) → ∀ p, p ∈ T' → owned A' p.
Proof using P.
  intros G Hown p Hp. destruct (grow_new _ _ _ _ _ _ G p Hp) as [HpT|[HpA _]].
  - eapply owned_mono; [apply (grow_A _ _ _ _ _ _ G)|auto].
  - eapply client_owned, HpA. apply (grow_client _ _ _ _ _ _ G).
Qed.

Lemma grows_trans s s1 s2 A A1 A2 T T1 T2 :
  grows s s1 A A1 T T1 → grows s1 s2 A1 A2 T1 T2 → grows s s2 A A2 T T2.
Proof using.
  intros G1 G2. pose proof (grow_A _ _ _ _ _ _ G1) as HA1. pose proof (grow_T _ _ _ _ _ _ G2) as HT2. split.
  - apply (grow_client _ _ _ _ _ _ G2).
  - etrans; [exact HA1|]. apply (grow_A _ _ _ _ _ _ G2).
  - etrans; [apply (grow_T _ _ _ _ _ _ G1)|done].
  - intros p Hp. destruct (grow_new _ _ _ _ _ _ G2 p Hp) as [Hp1|[Hp2 Hn]].
    + destruct (grow_new _ _ _ _ _ _ G1 p Hp1) as [|[Hin ?]]; [by left|right].
      split; [|done]. by apply (grow_A _ _ _ _ _ _ G2).
    + right. split; [done|]. intros ?. by apply Hn, HA1.
  - intros p Hp. destruct (grow_all _ _ _ _ _ _ G2 p Hp) as [Hp1|]; [|by right].
    destruct (grow_all _ _ _ _ _ _ G1 p Hp1); [by left|right; by apply HT2].
  - intros a Ha. rewrite (grow_words _ _ _ _ _ _ G2) by done. apply (grow_words _ _ _ _ _ _ G1).
    intros ?. by apply Ha, HT2.
Qed.

Lemma map_level_ok n l : ∀ t T s A vpn ppn u w,
  frame_client s A → room entries (l + n) A → tree l t T s → (∀ p, p ∈ T → owned A p) → 0 <= ppn < 2 ^ 36 →
  ∃ s' A' T', map_level hh l t vpn ppn u w s = Some s' ∧ grows s s' A A' T T' ∧ tree l t T' s'
    ∧ leaf l t vpn s' = make_entry ppn u w
    ∧ (∀ perm, 0 <= perm < 8 → ∃ pm, translate l t vpn perm s' = Some (ppn, Z.land pm (flags_of u w)))
    ∧ (user_path l t vpn s → user_path l t vpn s')
    ∧ (∀ vpn', vpn' mod 512 ^ Z.of_nat (S l) ≠ vpn mod 512 ^ Z.of_nat (S l) → same_page l t s s' vpn')
    ∧ room entries n A'.
Proof using P.
  induction l as [|l IH]; intros t T s A vpn ppn u w C R Ht Hown Hppn.
  - pose proof (Hown t (tree_root _ _ _ _ Ht)) as Hot. pose proof (proj1 Hot) as Hok.
    cbn [map_level]. rewrite VA_of_table by done. cbn [mbind option_bind].
    pose proof (table_index_range vpn 0) as Hi.
    eexists _, A, T. split; [reflexivity|]. set (s' := set_entry _ _ _ _ _).
    assert (∀ b, word s' b = if decide (b = slot t (table_index vpn 0)) then make_entry ppn u w else word s b) as Hw
      by (intros b; by apply word_set_entry).
    split_and!; [|done| | |done| |done].
    + split; try done; auto; [by apply set_entry_client|].
      intros a Ha. rewrite Hw, decide_False; [done|]. intros ->. apply Ha. rewrite slot_frame by done.
      by apply tree_root in Ht.
    + unfold leaf. cbn [leaf_slot]. fold (slot t (table_index vpn 0)). by rewrite Hw, decide_True.
    + intros perm Hpm. exists perm. cbn [translate]. fold (slot t (table_index vpn 0)).
      rewrite Hw, decide_True by done. destruct (make_entry_facts ppn u w Hppn) as (-> & _ & Ec & ->); [|done].
      cbn [negb]. by rewrite Ec.
    + intros vpn' Hne. unfold same_page, leaf. cbn [translate leaf_slot user_path]. fold (slot t (table_index vpn' 0)).
      rewrite Hw, decide_False; [by split|]. intros E%slot_inj. apply Hne.
      rewrite !table_index_eq in E. cbn in E. rewrite !Z.div_1_r in E. exact E.
  - pose proof (Hown t (tree_root _ _ _ _ Ht)) as Hot. pose proof (proj1 Hot) as Hok.
    rewrite map_level_S, VA_of_table by done. cbn [mbind option_bind].
    pose proof (table_index_range vpn (S l)) as Hi. set (i := table_index vpn (S l)) in *.
    destruct (below_ok l t T i s A (l + n) C R Ht Hown Hi) as (s1 & A1 & T1 & -> & R1 & G1 & Ht1 & (Hpr & Hhu) & Htr1).
    cbn [mbind option_bind]. rewrite entry_at_word by done.
    pose proof (grow_client _ _ _ _ _ _ G1) as C1.
    pose proof (grows_owned _ _ _ _ _ _ G1 Hown) as Hown1.
    destruct Ht1 as (sub & H1 & H2 & H3 & H4). pose proof (H4 i Hi) as Htc. cbn zeta in Htc. rewrite Hpr, Hhu in Htc.
    assert (addr_of (word s1 (slot t i)) < 2 ^ 36) as Hlt.
    { apply (ok_frame_bound _). eapply Hown1, H3. right. exists i. split; [done|]. by eapply tree_root. }
    rewrite entry_ppn_addr by done.
    destruct (IH _ (sub i) s1 A1 vpn ppn u w C1 R1 Htc) as (s2 & A2 & Tc & E & G2 & Ht2 & Hlf & Hp & Hu & Ho & R2); [|done|].
    { intros p Hp. apply Hown1, H3. eauto. }
    destruct (regrow l t T1 i sub Tc s1 s2 A1 A2) as (G & Ht' & Hroot & Htr2); [done..|].
    exists s2, A2, (T1 ∪ Tc). split_and!; [done|by eapply grows_trans|done| | | | |done].
    + rewrite leaf_S. cbn zeta. fold i. by rewrite Hroot, Hpr, Hhu.
    + intros perm Hpm. rewrite translate_S. cbn zeta. fold i. rewrite Hroot, Hpr, Hhu by done.
      apply Hp. by apply perm_range.
    + intros [Hus _]%(Htr1 vpn). cbn [user_path] in Hus |- *. cbn zeta in *. fold i in Hus |- *.
      rewrite Hroot by done. intros Hpr'. destruct (Hus Hpr') as (? & ? & ?). auto.
    + intros vpn' Hne. eapply same_page_trans; [apply Htr1|].
      destruct (decide (table_index vpn' (S l) = i)) as [Ei|Hi']; [|by apply Htr2].
      apply entry_same; [by rewrite Ei, Hroot|]. rewrite Ei. intros _ _. apply Ho. by apply same_index.
Qed.

(** ** Walks from a root *)

Lemma root_ppn root : ok_frame hh root → PPN_of (Z.shiftr (root * 4096) 12) = root.
Proof using P.
  intros Hr%ok_frame_bound. change (2 ^ 36) with 68719476736 in Hr. unfold PPN_of.
  rewrite (shiftr_div _ 12 4096), Z.div_mul, (land_ones_mod _ 48) by done.
  apply Z.mod_small. change (2 ^ 48) with 281474976710656. lia.
Qed.

Lemma find_pte_level_ok l : ∀ t T s vpn,
  tree l t T s → (∀ p, p ∈ T → ok_frame hh p) →
  ∃ r, find_pte_level hh l (frame_va hh t) vpn s = Some r
    ∧ match r with
      | Some p => leaf_slot l t vpn s = Some (u64 (p - hh)) ∧ has (leaf l t vpn s) PTE_PRESENT = true
      | None => has (leaf l t vpn s) PTE_PRESENT = false
      end.
Proof using P.
  induction l as [|l IH]; intros t T s vpn Ht Hown; pose proof (Hown t (tree_root _ _ _ _ Ht)) as Hok.
  - unfold leaf. cbn [find_pte_level leaf_slot]. fold (slot t (table_index vpn 0)).
    pose proof (table_index_range vpn 0) as Hi.
    rewrite entry_at_word by done. destruct (has _ PTE_PRESENT) eqn:Hpr; eexists; (split; [reflexivity|]); [|done].
    split; [|done]. f_equal. symmetry. by destruct (slot_va t _ Hok Hi) as [-> _].
  - pose proof (table_index_range vpn (S l)) as Hi. rewrite leaf_S, leaf_slot_S. cbn [find_pte_level]. cbn zeta.
    rewrite entry_at_word by done. fold (is_huge (word s (slot t (table_index vpn (S l)))) (S l)).
    destruct Ht as (sub & H1 & H2 & H3 & H4). specialize (H4 _ Hi). cbn zeta in H4.
    destruct (has _ PTE_PRESENT) eqn:Hpr; [|by exists None]. cbn [negb].
    destruct (is_huge _ _); [by exists None|].
    assert (ok_frame hh (addr_of (word s (slot t (table_index vpn (S l)))))) as Hokc.
    { apply Hown, H3. right. eexists. split; [done|]. by eapply tree_root. }
    pose proof (ok_frame_bound _ Hokc). rewrite entry_ppn_addr, VA_of_table by (done || lia). cbn [mbind option_bind].
    eapply IH; [exact H4|]. intros p Hp. apply Hown, H3. eauto.
Qed.

(** The same from a root: what the kernel's walk finds. *)
Lemma find_pte_ok root T s vpn :
  tree 3 root T s → (∀ p, p ∈ T → ok_frame hh p) →
  ∃ r, find_pte_in_root hh (root * 4096) (vpn * 4096) s = Some r
    ∧ match r with
      | Some p => leaf_slot 3 root vpn s = Some (u64 (p - hh)) ∧ load hh p s = leaf 3 root vpn s
                  ∧ has (leaf 3 root vpn s) PTE_PRESENT = true
      | None => has (leaf 3 root vpn s) PTE_PRESENT = false
      end.
Proof using P.
  intros Ht Hown. pose proof (Hown root (tree_root _ _ _ _ Ht)) as Hok.
  unfold find_pte_in_root. rewrite root_ppn, VA_of_table by done. cbn [mbind option_bind].
  rewrite (shiftr_div _ 12 4096), Z.div_mul by done.
  destruct (find_pte_level_ok 3 root T s vpn Ht Hown) as (r & -> & Hr). exists r. split; [done|].
  destruct r as [p|]; [|done]. destruct Hr as [E Hpr]. split_and!; [done| |done].
  unfold leaf, load. by rewrite E.
Qed.

(** The kernel's check of one page: what it reads in the page's entry. *)
Definition user_page (root vpn : Z) (s : PhysMem) : bool :=
  has (leaf 3 root vpn s) PTE_PRESENT && has (leaf 3 root vpn s) PTE_USER.

Lemma user_pages_ok_S fuel cr3 va last_page s :
  user_pages_ok hh (S fuel) cr3 va last_page s =
  (pte ← find_pte_in_root hh cr3 va s;
   match pte with
   | None => Some false
   | Some p =>
       if negb (has (load hh p s) PTE_PRESENT) || negb (has (load hh p s) PTE_USER) then Some false
       else if va =? last_page then Some true
       else user_pages_ok hh fuel cr3 (u64 (va + PAGE_SIZE)) last_page s
   end).
Proof using. reflexivity. Qed.

Lemma user_pages_ok_spec root T s n : ∀ p,
  tree 3 root T s → (∀ q, q ∈ T → ok_frame hh q) → 0 <= p → (p + Z.of_nat n + 1) * 4096 < 2 ^ 64 →
  ∃ b, user_pages_ok hh (S n) (root * 4096) (p * 4096) ((p + Z.of_nat n) * 4096) s = Some b
    ∧ (b = true ↔ ∀ k, p <= k <= p + Z.of_nat n → user_page root k s = true).
Proof using P.
  change (2 ^ 64) with 18446744073709551616.
  induction n as [|n IH]; intros p Ht Hown Hp Hlt; rewrite user_pages_ok_S;
    destruct (find_pte_ok root T s p Ht Hown) as ([q|] & -> & Hq); cbn [mbind option_bind].
  2, 4: exists false; split; [done|]; split; [done|]; intros Hall;
    specialize (Hall p ltac:(lia)); unfold user_page in Hall; by rewrite Hq in Hall.
  all: destruct Hq as (_ & -> & Hpr); rewrite Hpr; cbn [negb orb];
    destruct (has (leaf 3 root p s) PTE_USER) eqn:Hus; cbn [negb orb].
  2, 4: exists false; split; [done|]; split; [done|]; intros Hall;
    specialize (Hall p ltac:(lia)); unfold user_page in Hall; by rewrite Hpr, Hus in Hall.
  all: assert (user_page root p s = true) as Hup by (unfold user_page; by rewrite Hpr, Hus).
  - rewrite (proj2 (Z.eqb_eq _ _)) by lia. exists true. split; [done|]. split; [|done].
    intros _ k Hk. by replace k with p by lia.
  - rewrite (proj2 (Z.eqb_neq _ _)) by lia.
    replace (u64 (p * 4096 + PAGE_SIZE)) with ((p + 1) * 4096)
      by (unfold PAGE_SIZE, FRAME_SIZE; rewrite u64_id by word_lia; lia).
    destruct (IH (p + 1) Ht Hown ltac:(lia) ltac:(lia)) as (b & E & Hb).
    replace (p + 1 + Z.of_nat n) with (p + Z.of_nat (S n)) in E, Hb by lia.
    exists b. split; [exact E|]. rewrite Hb. split.
    + intros Hall k Hk. destruct (decide (k = p)) as [->|]; [done|]. apply Hall. lia.
    + intros Hall k Hk. apply Hall. lia.
Qed.

Lemma align_down v : is_u64 v → page_align_down v = v / 4096 * 4096.
Proof using. intros Hv. unfold page_align_down. apply (clear_low64 v 12); [done|lia|reflexivity]. Qed.

Lemma align_up v : 0 <= v → v + 4095 < 2 ^ 64 → page_align_up v = (v + 4095) / 4096 * 4096.
Proof using.
  change (2 ^ 64) with 18446744073709551616. intros H0 Hv. unfold page_align_up, PAGE_MASK, PAGE_SIZE, FRAME_SIZE.
  change (Z.land (u64 (v + (4096 - 1))) 18446744073709547520) with (page_align_down (u64 (v + (4096 - 1)))).
  rewrite u64_id, align_down by word_lia. done.
Qed.

Lemma user_buffer_ok_spec root T s addr length :
  tree 3 root T s → (∀ q, q ∈ T → ok_frame hh q) → is_u64 addr → is_u64 length →
  ∃ b, user_buffer_ok hh (root * 4096) addr length s = Some b
    ∧ (b = true ↔ (length = 0 ∧ addr < hh) ∨
        (0 < length ∧ PRIVATE_BASE <= addr ∧ addr + length <= hh
         ∧ ∀ a, addr <= a < addr + length → user_page root (a / 4096) s = true)).
Proof using P.
  intros Ht Hown Ha Hl. pose proof (plat_hhdm _ _ P) as Hh. change (2 ^ 64) with 18446744073709551616 in *.
  pose proof (plat_hhdm_page _ _ P) as Hh0.
  unfold user_buffer_ok. destruct (Z.eqb_spec length 0) as [->|Hl0].
  { eexists. split; [done|]. rewrite Z.ltb_lt. split; [by left|]. intros [[_ ?]|[? _]]; [done|lia]. }
  destruct (Z.ltb_spec addr PRIVATE_BASE) as [H1|H1]; cbn [orb].
  { exists false. split; [done|]. split; [done|]. intros [[? _]|(_ & ? & _)]; lia. }
  destruct (Z.leb_spec hh addr) as [H2|H2].
  { exists false. split; [done|]. split; [done|]. intros [[? _]|(_ & _ & ? & _)]; word_lia. }
  set (e := u64 (addr + length - 1)).
  assert (e = if decide (addr + length <= 18446744073709551616) then addr + length - 1
              else addr + length - 1 - 18446744073709551616) as Ee by (subst e; case_decide; word_lia).
  destruct (Z.ltb_spec e addr) as [H3|H3]; cbn [orb].
  { exists false. split; [done|]. split; [done|]. intros [[? _]|(_ & _ & ? & _)]; [lia|].
    case_decide; word_lia. }
  destruct (Z.leb_spec hh e) as [H4|H4].
  { exists false. split; [done|]. split; [done|]. intros [[? _]|(_ & _ & ? & _)]; [lia|].
    case_decide; word_lia. }
  assert (e = addr + length - 1) as Ee' by (case_decide; word_lia). clear Ee. clearbody e.
  rewrite !align_down by word_lia.
  destruct (user_pages_ok_spec root T s (Z.to_nat (e / 4096 - addr / 4096)) (addr / 4096) Ht Hown)
    as (b & E & Hb); [word_lia|change (2 ^ 64) with 18446744073709551616; word_lia|].
  rewrite Z2Nat.id in E, Hb by word_lia.
  replace (addr / 4096 + (e / 4096 - addr / 4096)) with (e / 4096) in E, Hb by lia.
  unfold PAGE_SIZE, FRAME_SIZE. replace ((e / 4096 * 4096 - addr / 4096 * 4096) / 4096) with (e / 4096 - addr / 4096)
    by word_lia.
  exists b. split; [exact E|]. rewrite Hb. split.
  - intros Hall. right. split_and!; [word_lia|done|lia|]. intros a Ha'. apply Hall. word_lia.
  - intros [[? _]|(_ & _ & _ & Hall)]; [lia|]. intros k Hk.
    destruct (decide (k = addr / 4096)) as [->|]; [apply Hall; word_lia|].
    replace k with (k * 4096 / 4096) by (apply Z.div_mul; lia). apply Hall. word_lia.
Qed.

(** [VMM::user_buffer_ok] never faults and accepts a buffer exactly when it lies between
    the first page and the kernel's addresses, without wrapping around, and every page it
    touches is mapped with the user flag in its page table entry. *)
Theorem user_buffer_ok_iff root T s addr length :
  tree 3 root T s → (∀ q, q ∈ T → ok_frame hh q) → is_u64 addr → is_u64 length →
  ∃ b, user_buffer_ok hh (root * 4096) addr length s = Some b
    ∧ (b = true ↔ (length = 0 ∧ addr < hh) ∨
        (0 < length ∧ PRIVATE_BASE <= addr ∧ addr + length <= hh
         ∧ ∀ a, addr <= a < addr + length → user_page root (a / 4096) s = true)).
Proof using P. apply user_buffer_ok_spec. Qed.

(** The walk reads 48 bits of an address. *)
Lemma table_index_alias vpn l : (l <= 3)%nat → table_index (vpn + 2 ^ 36) l = table_index vpn l.
Proof using.
  intros Hl. rewrite !table_index_eq. change (2 ^ 36) with 68719476736.
  destruct l as [|[|[|[|l]]]]; [..|lia]; cbn; word_lia.
Qed.
Lemma leaf_slot_alias l : ∀ t vpn s, (l <= 3)%nat → leaf_slot l t (vpn + 2 ^ 36) s = leaf_slot l t vpn s.
Proof using.
  induction l as [|l IH]; intros t vpn s Hl; [cbn [leaf_slot]|rewrite !leaf_slot_S; cbn zeta];
    rewrite table_index_alias by done; [done|].
  destruct (has _ PTE_PRESENT); [|done]. destruct (is_huge _ _); [done|]. apply IH. lia.
Qed.

(** The check is fooled by addresses that are not canonical: for every user buffer that it
    accepts it also accepts the same address with bit 48 set, which no load or store of the kernel
    can use. *)
Theorem user_buffer_ok_aliases root T s addr length :
  tree 3 root T s → (∀ q, q ∈ T → ok_frame hh q) → 0 <= addr → 0 < length → addr + length <= 2 ^ 47 →
  user_buffer_ok hh (root * 4096) addr length s = Some true →
  user_buffer_ok hh (root * 4096) (addr + 2 ^ 48) length s = Some true ∧ check_canonical (addr + 2 ^ 48) = None.
Proof using P.
  intros Ht Hok Ha Hl Hle E. pose proof (plat_hhdm _ _ P) as Hh. change (2 ^ 64) with 18446744073709551616 in Hh.
  change (2 ^ 47) with 140737488355328 in Hle. split.
  - destruct (user_buffer_ok_spec root T s addr length Ht Hok) as (b & E1 & Hb); [word_lia..|].
    rewrite E in E1. injection E1 as <-. destruct (proj1 Hb eq_refl) as [[? _]|(_ & H1 & H2 & H3)]; [lia|].
    destruct (user_buffer_ok_spec root T s (addr + 2 ^ 48) length Ht Hok) as (b' & -> & Hb');
      [change (2 ^ 48) with 281474976710656; word_lia..|]. f_equal. apply Hb'. right.
    change (2 ^ 48) with 281474976710656. split_and!; [done|lia|lia|]. intros a Ha'.
    rewrite <- (H3 (a - 281474976710656)) by lia. unfold user_page, leaf.
    replace (a / 4096) with ((a - 281474976710656) / 4096 + 2 ^ 36) by (change (2 ^ 36) with 68719476736; word_lia).
    by rewrite leaf_slot_alias by lia.
  - unfold check_canonical. change (2 ^ 48) with 281474976710656.
    assert (i64 (addr + 281474976710656) = addr + 281474976710656) as -> by (unfold i64; word_lia).
    rewrite (Z.shiftl_mul_pow2 _ 16), Z.shiftr_div_pow2 by done. change (2 ^ 16) with 65536.
    destruct (Z.eqb_spec (i64 ((addr + 281474976710656) * 65536) / 65536) (addr + 281474976710656)) as [E1|]; [|done].
    exfalso. unfold i64 in E1. word_lia.
Qed.

(** C12: Mapping a page never fails while three frames are left: afterwards the page
    translates to the frame, its entry, which the kernel's own walk finds, carries the flags
    asked for, and no other page translates differently; the tables still form a tree, and
    only tables are written. *)
Theorem map_in_root_maps root T s A vpn ppn user write :
  frame_client s A → room entries 3 A → tree 3 root T s → (∀ p, p ∈ T → owned A p) →
  0 <= ppn < 2 ^ 36 → 0 <= vpn < 2 ^ 36 →
  ∃ s' A' T', map_in_root hh (root * 4096) vpn ppn user write s = Some s'
    ∧ grows s s' A A' T T' ∧ tree 3 root T' s'
    ∧ (∃ perm, translate 3 root vpn 7 s' = Some (ppn, Z.land perm (flags_of user write)))
    ∧ (∃ p, find_pte_in_root hh (root * 4096) (vpn * 4096) s' = Some (Some p)
        ∧ load hh p s' = make_entry ppn user write)
    ∧ ∀ vpn', 0 <= vpn' < 2 ^ 36 → vpn' ≠ vpn → translate 3 root vpn' 7 s' = translate 3 root vpn' 7 s.
Proof using P.
  intros C R Ht Hown Hppn Hvpn. pose proof (Hown root (tree_root _ _ _ _ Ht)) as [Hok _].
  unfold map_in_root. rewrite root_ppn by done.
  destruct (map_level_ok 0 3 root T s A vpn ppn user write C R Ht Hown Hppn)
    as (s' & A' & T' & -> & G & Ht' & Hlf & Hp & _ & Ho).
  exists s', A', T'. split_and!; [done..|apply Hp; lia| |].
  - assert (∀ p, p ∈ T' → ok_frame hh p) as Hok' by (intros p Hp'; by apply (grows_owned _ _ _ _ _ _ G)).
    destruct (find_pte_ok root T' s' vpn Ht' Hok') as (r & -> & Hr). rewrite Hlf in Hr.
    destruct (make_entry_facts ppn user write Hppn) as (Hpr & _). cbn zeta in Hpr. rewrite Hpr in Hr.
    destruct r as [p|]; [|done]. exists p. by destruct Hr as (_ & ? & _).
  - intros vpn' Hv' Hne. apply Ho; [|lia]. change (512 ^ Z.of_nat 4) with (2 ^ 36).
    by rewrite !Z.mod_small.
Qed.
End Tree.

(** ** Concrete tables *)

Definition demo_root : PhysMem := (demo_alloc demo_start).2.
Definition demo_mapped : PhysMem :=
  default demo_root (map_in_root demo_hhdm (65536 * 4096) 5 7 true true demo_root).

Lemma alloc_zeroed hh entries s A p s' :
  platform hh entries → frame_client hh entries s A → alloc hh s = Some (p, s') →
  ∀ k, 0 <= k < 512 → word s' (slot p k) = 0.
Proof.
  intros P [chain I]%frame_client_inv E; [|done].
  destruct (alloc_ok _ _ P _ _ _ I) as [(E' & _)|(p' & s2 & ? & E' & _ & _ & _ & Hz & _)]; rewrite E in E'; [done|].
  by injection E' as <- <-.
Qed.

Lemma demo_root_ok :
  frame_client demo_hhdm demo_map demo_root {[65536]} ∧ room demo_map 3 {[65536]}
  ∧ tree 3 65536 {[65536]} demo_root ∧ ∀ p, p ∈ ({[65536]} : gset Z) → owned demo_hhdm demo_map {[65536]} p.
Proof.
  assert (alloc demo_hhdm demo_start = Some (65536, demo_root)) as E by (vm_compute; reflexivity).
  assert (frame_client demo_hhdm demo_map demo_root {[65536]}) as C.
  { replace ({[65536]} : gset Z) with ({[65536]} ∪ ∅ : gset Z) by apply (right_id_L ∅ (∪)).
    eapply fc_alloc; [apply fc_init|exact E]. }
  split_and!; [exact C| | |].
  - exists [1; 2; 3]. split_and!; [|done|].
    + repeat constructor; rewrite ?elem_of_cons, ?elem_of_nil; lia.
    + intros p Hp. rewrite !elem_of_cons, elem_of_nil in Hp. split.
      * exists (mkEntry 0 4096 16384). split_and!; [left|reflexivity|]. unfold range_frame. cbn. lia.
      * rewrite elem_of_singleton. lia.
  - apply zero_table. eapply alloc_zeroed; [apply demo_platform|apply fc_init|exact E].
  - intros p ->%elem_of_singleton. eapply client_owned; [apply demo_platform|exact C|]. by apply elem_of_singleton.
Qed.

Lemma demo_mapped_ok :
  ∃ T, tree 3 65536 T demo_mapped ∧ ∀ q, q ∈ T → ok_frame demo_hhdm q.
Proof.
  destruct demo_root_ok as (C & R & Ht & Hown).
  destruct (map_level_ok _ _ demo_platform 0 3 65536 _ _ _ 5 7 true true C R Ht Hown)
    as (s' & A' & T' & E & G & Ht' & _); [done|].
  assert (map_in_root demo_hhdm (65536 * 4096) 5 7 true true demo_root = Some s') as E' by exact E.
  unfold demo_mapped. rewrite E'. cbn [default]. exists T'. split; [done|].
  intros q [HqT|[HqA _]]%(grow_new _ _ _ _ _ _ _ _ G); [by apply Hown|].
  eapply client_owned, HqA; [apply demo_platform|]. apply (grow_client _ _ _ _ _ _ _ _ G).
Qed.

Lemma map_in_root_maps_witness :
  ∃ s', map_in_root demo_hhdm (65536 * 4096) 5 7 true true demo_root = Some s'
    ∧ ∃ perm, translate 3 65536 5 7 s' = Some (7, Z.land perm 7).
Proof.
  destruct demo_root_ok as (C & R & Ht & Hown).
  destruct (map_in_root_maps demo_hhdm demo_map demo_platform 65536 {[65536]} demo_root {[65536]} 5 7 true true C R Ht Hown)
    as (s' & A' & T' & E & _ & _ & Hp & _); [done..|]. exists s'. split; [exact E|exact Hp].
Defined.

Lemma user_buffer_ok_iff_witness :
  user_buffer_ok demo_hhdm (65536 * 4096) 20500 100 demo_mapped = Some true.
Proof.
  destruct demo_mapped_ok as (T & Ht & Hok).
  destruct (user_buffer_ok_iff demo_hhdm demo_map demo_platform 65536 T demo_mapped 20500 100 Ht Hok)
    as (b & -> & Hb); [by vm_compute..|]. f_equal. apply Hb. right.
  split_and!; [lia|by vm_compute|by vm_compute|]. intros a Ha.
  replace (a / 4096) with 5 by (Z.div_mod_to_equations; lia). by vm_compute.
Defined.

Lemma user_buffer_ok_aliases_witness :
  user_buffer_ok demo_hhdm (65536 * 4096) (20500 + 2 ^ 48) 100 demo_mapped = Some true
  ∧ check_canonical (20500 + 2 ^ 48) = None.
Proof.
  destruct demo_mapped_ok as (T & Ht & Hok).
  apply (user_buffer_ok_aliases demo_hhdm demo_map demo_platform 65536 T demo_mapped 20500 100 Ht Hok);
    [lia|lia|by vm_compute|by vm_compute].
Defined.
