(* ===== verification/AddrSpace.v ===== *)
(** * User address spaces

    What the tables below one root mean for a region of the addresses, such as
    the lower half: a map from pages to frames.  Mapping a page and clearing its entry are the
    insertion and the deletion of the map ([PageTable] carries the walks). *)

From stdpp Require Import gmap.
From S2P Require Import Prelude PhysMem PageTable.

(** Pages the walk tells apart. *)
Definition distinct_pages (region : Z → Prop) : Prop :=
  ∀ vpn vpn', region vpn → region vpn' → vpn' ≠ vpn → vpn' mod 2 ^ 36 ≠ vpn mod 2 ^ 36.

(** The pages of the lower half. *)
Definition low_page (vpn : Z) : Prop := 0 <= vpn < 2 ^ 35.
Lemma low_distinct : distinct_pages low_page.
Proof.
  unfold low_page. intros vpn vpn' H1 H2. change (2 ^ 35) with 34359738368 in *.
  change (2 ^ 36) with 68719476736. by rewrite !Z.mod_small by lia.
Qed.

(** ** The tables, enumerated *)

Lemma list_bind_ext_elem {A B} (f g : A → list B) l : (∀ x, x ∈ l → f x = g x) → l ≫= f = l ≫= g.
Proof.
  induction l as [|x l IH]; intros H; [done|]. cbn. f_equal; [apply H; by left|].
  apply IH. intros y Hy. apply H. by right.
Qed.

(** The tables below table [t] of a level, and below its entry [i]. *)
Fixpoint tables (level : nat) (t : Z) (s : PhysMem) : list Z :=
  match level with
  | O => []
  | S level' => seqZ 0 512 ≫= λ i,
      let e := word s (slot t i) in
      if has e PTE_PRESENT && negb (is_huge e level) then addr_of e :: tables level' (addr_of e) s else []
  end.
Definition branch (l : nat) (t i : Z) (s : PhysMem) : list Z :=
  let e := word s (slot t i) in
  if has e PTE_PRESENT && negb (is_huge e (S l)) then addr_of e :: tables l (addr_of e) s else [].
(** The tables of the lower half. *)
Definition low_tables (root : Z) (s : PhysMem) : list Z := seqZ 0 256 ≫= λ i, branch 2 root i s.

Lemma elem_of_tables_S l t s p : p ∈ tables (S l) t s ↔ ∃ i, 0 <= i < 512 ∧ p ∈ branch l t i s.
Proof.
  cbn [tables]. rewrite list_elem_of_bind. split; intros (i & H1 & H2); exists i.
  - apply elem_of_seqZ in H2. split; [lia|exact H1].
  - split; [exact H2|]. apply elem_of_seqZ. lia.
Qed.

Lemma elem_of_low_tables root s p : p ∈ low_tables root s ↔ ∃ i, 0 <= i < 256 ∧ p ∈ branch 2 root i s.
Proof.
  unfold low_tables. rewrite list_elem_of_bind. split; intros (i & H1 & H2); exists i.
  - apply elem_of_seqZ in H2. split; [lia|exact H1].
  - split; [exact H2|]. apply elem_of_seqZ. lia.
Qed.

(** The enumeration and the tree agree. *)
Lemma tree_tables l : ∀ t T s p, tree l t T s → p ∈ T ↔ p = t ∨ p ∈ tables l t s.
Proof.
  induction l as [|l IH]; intros t T s p Ht.
  - cbn in *. subst T. rewrite elem_of_singleton, elem_of_nil. tauto.
  - destruct Ht as (sub & H1 & H2 & H3 & H4). rewrite H3, elem_of_tables_S.
    apply or_iff_compat_l. split; intros (i & Hi & Hp); exists i; (split; [done|]); specialize (H4 i Hi);
      cbn zeta in H4; unfold branch in *; destruct (has _ PTE_PRESENT); try (rewrite H4 in Hp; set_solver); cbn [andb] in *.
    + destruct (is_huge _ _); [destruct H4 as [H4 _]; rewrite H4 in Hp; set_solver|].
      cbn [negb]. rewrite elem_of_cons. by apply (IH _ _ _ _ H4).
    + destruct (is_huge _ _); cbn [negb] in Hp; [by apply elem_of_nil in Hp|].
      rewrite elem_of_cons in Hp. by apply (IH _ _ _ _ H4).
    + by apply elem_of_nil in Hp.
Qed.

Lemma branch_sub l t s sub i p :
  (let e := word s (slot t i) in
   if has e PTE_PRESENT then
     if is_huge e (S l)
     then sub i = (∅ : gset Z) ∧ Z.land e PTE_ADDR_MASK mod (4096 * 512 ^ Z.of_nat (S l)) = 0
     else tree l (addr_of e) (sub i) s
   else sub i = ∅) → p ∈ branch l t i s ↔ p ∈ sub i.
Proof.
  cbn zeta. intros H. unfold branch. destruct (has _ PTE_PRESENT); cbn [andb].
  - destruct (is_huge _ _); cbn [negb].
    + destruct H as [-> _]. rewrite elem_of_nil. split; [done|]. by intros ?%not_elem_of_empty.
    + rewrite elem_of_cons. by rewrite (tree_tables _ _ _ _ p H).
  - rewrite H, elem_of_nil. split; [done|]. by intros ?%not_elem_of_empty.
Qed.

Lemma tables_frame l : ∀ t T s s', tree l t T s → (∀ a, a / 4096 ∈ T → word s' a = word s a) → tables l t s' = tables l t s.
Proof.
  induction l as [|l IH]; intros t T s s' Ht Hw; [done|]. pose proof (tree_root _ _ _ _ Ht) as Hroot.
  destruct Ht as (sub & H1 & H2 & H3 & H4). cbn [tables]. apply list_bind_ext_elem. intros i Hi%elem_of_seqZ.
  assert (0 <= i < 512) as Hi' by lia. specialize (H4 i Hi'). cbn zeta in H4 |- *. rewrite Hw by (by rewrite slot_frame).
  destruct (has _ PTE_PRESENT); [|done]. destruct (is_huge _ _); [done|]. cbn [andb negb]. f_equal.
  eapply IH; [exact H4|]. intros a Ha. apply Hw, H3. eauto.
Qed.

Section AddrSpace.
Context (hh : Z) (entries : list MemmapEntry) (P : platform hh entries).
Context (region : Z → Prop) (R1 : distinct_pages region) (root : Z).

(** The frames [A] are handed out, [T] are the tables below [root] and page
    [vpn] of the region is mapped to frame [M !! vpn], with every right. *)
Record aspace (s : PhysMem) (A T : gset Z) (M : gmap Z Z) : Prop := {
  as_client : frame_client hh entries s A;
  as_tree : tree 3 root T s;
  as_owned : ∀ p, p ∈ T → owned hh entries A p;
  as_path : ∀ vpn, region vpn → user_path 3 root vpn s;
  as_leaf : ∀ vpn, region vpn →
    leaf 3 root vpn s = match M !! vpn with Some f => make_entry f true true | None => 0 end;
  as_dom : ∀ vpn f, M !! vpn = Some f → region vpn ∧ f ∈ A ∧ f ∉ T;
  as_inj : ∀ vpn vpn' f, M !! vpn = Some f → M !! vpn' = Some f → vpn = vpn';
}.

Lemma as_tables s A T M : aspace s A T M → ∀ p, p ∈ T → ok_frame hh p.
Proof using. intros S p Hp. by apply (as_owned _ _ _ _ S). Qed.

Lemma as_frame s A T M vpn f : aspace s A T M → M !! vpn = Some f → ok_frame hh f ∧ 0 <= f < 2 ^ 36.
Proof using P.
  intros S Hf. destruct (as_dom _ _ _ _ S _ _ Hf) as (_ & HA & _).
  assert (ok_frame hh f) as Hok by (eapply usable_ok, client_usable; eauto using as_client).
  pose proof (ok_frame_bound _ _ P f Hok). split; [done|lia].
Qed.

(** What the processor reads: every page of [M] is open to user code. *)
Lemma user_path_translate l : ∀ t vpn perm s,
  user_path l t vpn s → 0 <= perm < 8 →
  translate l t vpn perm s =
  let e := leaf l t vpn s in if has e PTE_PRESENT then Some (addr_of e, Z.land perm e) else None.
Proof using.
  induction l as [|l IH]; intros t vpn perm s Hu Hp.
  - unfold leaf. cbn [translate leaf_slot]. by destruct (has _ PTE_PRESENT).
  - rewrite translate_S, leaf_S. cbn [user_path] in Hu. cbn zeta in *.
    destruct (has (word s (slot t (table_index vpn (S l)))) PTE_PRESENT) eqn:Hpr; [|done].
    destruct (Hu eq_refl) as (-> & H7 & Hu'). rewrite IH; [|done|by apply perm_range].
    rewrite (land_flags perm), H7 by done. rewrite (land_ones_mod perm 3 7) by done.
    rewrite (Z.mod_small perm) by (change (2 ^ 3) with 8; lia). done.
Qed.

Lemma as_translate s A T M vpn :
  aspace s A T M → region vpn → translate 3 root vpn 7 s = (λ f, (f, 7)) <$> M !! vpn.
Proof using P.
  intros S Hv. rewrite user_path_translate by (done || by apply (as_path _ _ _ _ S)). cbn zeta.
  rewrite (as_leaf _ _ _ _ S vpn Hv). destruct (M !! vpn) as [f|] eqn:E; [|done].
  destruct (as_frame _ _ _ _ _ _ S E) as [_ Hf].
  destruct (make_entry_facts f true true Hf) as (-> & _ & -> & ->); [|lia]. done.
Qed.

(** What the kernel's walk finds. *)
Lemma as_find_pte s A T M vpn :
  aspace s A T M → region vpn →
  match M !! vpn with
  | Some f => ∃ p a, find_pte_in_root hh (root * 4096) (vpn * 4096) s = Some (Some p)
      ∧ leaf_slot 3 root vpn s = Some a ∧ u64 (p - hh) = a
      ∧ load hh p s = make_entry f true true ∧ has (load hh p s) PTE_PRESENT = true
      ∧ entry_ppn (load hh p s) = f
  | None => find_pte_in_root hh (root * 4096) (vpn * 4096) s = Some None
  end.
Proof using P.
  intros S Hv. destruct (find_pte_ok _ _ P root T s vpn (as_tree _ _ _ _ S) (as_tables _ _ _ _ S)) as (r & E & Hr).
  rewrite (as_leaf _ _ _ _ S vpn Hv) in Hr. destruct (M !! vpn) as [f|] eqn:Ef.
  - destruct (as_frame _ _ _ _ _ _ S Ef) as [_ Hf].
    destruct (make_entry_facts f true true Hf) as (Hpr & _ & Ha & _). cbn zeta in *. rewrite Hpr in Hr.
    destruct r as [p|]; [|done]. destruct Hr as (Es & El & _). exists p. eexists. rewrite El.
    split_and!; try done. rewrite entry_ppn_addr; rewrite Ha; [done|apply Hf].
  - destruct r as [p|]; [|done]. by destruct Hr as (_ & _ & ?).
Qed.

(** Stores outside the tables do not matter. *)
Lemma as_frame_client s s' A A' T M :
  aspace s A T M → frame_client hh entries s' A' → (∀ a, a / 4096 ∈ T → word s' a = word s a) →
  (∀ p, p ∈ T → owned hh entries A' p) → (∀ vpn f, M !! vpn = Some f → f ∈ A') → aspace s' A' T M.
Proof using.
  intros S C Hw Hown HA. assert (∀ vpn, same_page 3 root s s' vpn) as Hs.
  { intros vpn. eapply walk_frame; [apply (as_tree _ _ _ _ S)|done]. }
  split; [done|eapply tree_frame; [apply (as_tree _ _ _ _ S)|done]|done| | | |apply (as_inj _ _ _ _ S)].
  - intros vpn Hv. apply (Hs vpn), (as_path _ _ _ _ S vpn Hv).
  - intros vpn Hv. rewrite <- (as_leaf _ _ _ _ S vpn Hv). apply (Hs vpn), (as_path _ _ _ _ S vpn Hv).
  - intros vpn f Hf. destruct (as_dom _ _ _ _ S vpn f Hf) as (? & _ & ?). split_and!; [done|by eapply HA|done].
Qed.

(** Mapping a page is the insertion. *)
Lemma as_map n s A T M vpn f :
  aspace s A T M → room entries (3 + n) A → region vpn → f ∈ A → f ∉ T → (∀ v, M !! v ≠ Some f) →
  ∃ s' A' T', map_in_root hh (root * 4096) vpn f true true s = Some s'
    ∧ aspace s' A' T' (<[vpn := f]> M) ∧ grows hh entries s s' A A' T T' ∧ room entries n A'.
Proof using P R1.
  intros S R Hv HfA HfT Hinj.
  assert (0 <= f < 2 ^ 36) as Hf.
  { assert (ok_frame hh f) as Hok by (eapply usable_ok, client_usable; eauto using as_client).
    pose proof (ok_frame_bound _ _ P f Hok). lia. }
  unfold map_in_root. rewrite (root_ppn _ _ P) by (eapply as_tables, tree_root, as_tree; eauto).
  destruct (map_level_ok _ _ P n 3 root T s A vpn f true true (as_client _ _ _ _ S) R (as_tree _ _ _ _ S)
    (as_owned _ _ _ _ S) Hf) as (s' & A' & T' & E & G & Ht & Hlf & _ & Hu & Ho & R').
  exists s', A', T'. split_and!; [done| |done|done].
  assert (∀ v, region v → v ≠ vpn → same_page 3 root s s' v) as Hsame.
  { intros v Hv' Hne. apply Ho. by apply R1. }
  split.
  - apply (grow_client _ _ _ _ _ _ _ _ G).
  - done.
  - eapply grows_owned; [done|exact G|apply (as_owned _ _ _ _ S)].
  - intros v Hv'. pose proof (as_path _ _ _ _ S v Hv') as Hp.
    destruct (decide (v = vpn)) as [->|]; [by apply Hu|by apply Hsame].
  - intros v Hv'. destruct (decide (v = vpn)) as [->|]; [by rewrite lookup_insert_eq|].
    rewrite lookup_insert_ne, <- (as_leaf _ _ _ _ S v Hv') by done.
    by apply Hsame, (as_path _ _ _ _ S v Hv').
  - assert (∀ g, g ∈ A → g ∉ T → g ∈ A' ∧ g ∉ T') as Hg.
    { intros g HgA HgT. split; [by apply (grow_A _ _ _ _ _ _ _ _ G)|]. intros HgT'.
      destruct (grow_new _ _ _ _ _ _ _ _ G g HgT') as [|[_ ?]]; done. }
    intros v g Hvg. destruct (decide (v = vpn)) as [->|Hne].
    + rewrite lookup_insert_eq in Hvg. injection Hvg as <-. split; [done|by apply Hg].
    + rewrite lookup_insert_ne in Hvg by done. destruct (as_dom _ _ _ _ S v g Hvg) as (? & ? & ?).
      split; [done|by apply Hg].
  - intros v v' g H1 H2. destruct (decide (v = vpn)) as [->|Hne], (decide (v' = vpn)) as [->|Hne']; [done|..].
    + rewrite lookup_insert_eq in H1. rewrite lookup_insert_ne in H2 by done. injection H1 as <-. by destruct (Hinj v').
    + rewrite lookup_insert_eq in H2. rewrite lookup_insert_ne in H1 by done. injection H2 as <-. by destruct (Hinj v).
    + rewrite lookup_insert_ne in H1, H2 by done. by eapply (as_inj _ _ _ _ S).
Qed.

(** *** Clearing an entry *)

Lemma clear_level l : ∀ t T s A vpn a,
  frame_client hh entries s A → tree l t T s → (∀ p, p ∈ T → owned hh entries A p) →
  leaf_slot l t vpn s = Some a →
  let s' := s .[ mem := <[a := 0]> (mem s) ] in
  a / 4096 ∈ T ∧ grows hh entries s s' A A T T ∧ tree l t T s' ∧ leaf l t vpn s' = 0
  ∧ (user_path l t vpn s → user_path l t vpn s')
  ∧ (∀ vpn', vpn' mod 512 ^ Z.of_nat (S l) ≠ vpn mod 512 ^ Z.of_nat (S l) → same_page l t s s' vpn')
  ∧ match l with O => True | S l' => ∀ i, 0 <= i < 512 → branch l' t i s' = branch l' t i s end.
Proof using P.
  induction l as [|l IH]; intros t T s A vpn a C Ht Hown Ha s'; pose proof (tree_root _ _ _ _ Ht) as Hroot.
  - cbn [leaf_slot] in Ha. fold (slot t (table_index vpn 0)) in Ha. injection Ha as <-.
    pose proof (table_index_range vpn 0) as Hi. rewrite slot_frame by done.
    assert (∀ b, word s' b = if decide (b = slot t (table_index vpn 0)) then 0 else word s b) as Hw
      by (intros b; apply word_insert).
    split_and!; [done| |done| |done| |done].
    + split; try done; auto.
      * apply fc_store; [done|]. rewrite slot_frame by done. by apply Hown.
      * intros b Hb. rewrite Hw, decide_False; [done|]. intros ->. by rewrite slot_frame in Hb.
    + unfold leaf. cbn [leaf_slot]. fold (slot t (table_index vpn 0)). by rewrite Hw, decide_True.
    + intros vpn' Hne. unfold same_page, leaf. cbn [translate leaf_slot user_path]. fold (slot t (table_index vpn' 0)).
      rewrite Hw, decide_False; [by split|]. intros E%slot_inj. apply Hne.
      rewrite !table_index_eq in E. cbn in E. rewrite !Z.div_1_r in E. exact E.
  - pose proof (table_index_range vpn (S l)) as Hi. set (i := table_index vpn (S l)) in *.
    rewrite leaf_slot_S in Ha. cbn zeta in Ha. fold i in Ha.
    destruct Ht as (sub & H1 & H2 & H3 & H4). pose proof (H4 i Hi) as Htc. cbn zeta in Htc.
    destruct (has (word s (slot t i)) PTE_PRESENT) eqn:Hpr; [|done].
    destruct (is_huge (word s (slot t i)) (S l)) eqn:Hhu; [done|].
    assert (∀ p, p ∈ sub i → p ∈ T) as Hsub by (intros p Hp; apply H3; eauto).
    destruct (IH _ (sub i) s A vpn a C Htc) as (HaT & G & Htc' & Hlf & Hu & Ho & Hbr); [auto|done|]. fold s' in G, Htc', Hlf, Hu, Ho, Hbr.
    destruct (regrow _ _ P l t T i sub (sub i) s s' A A) as (G' & Ht' & Hroot' & Hsame); [done..|].
    assert (T ∪ sub i = T) as ET by (apply leibniz_equiv; intros p; rewrite elem_of_union; naive_solver).
    rewrite ET in G', Ht'. split_and!; [auto|done|done| | | |].
    + rewrite leaf_S. cbn zeta. fold i. by rewrite Hroot', Hpr, Hhu.
    + cbn [user_path]. cbn zeta. fold i. rewrite Hroot' by done. intros Hus Hpr'.
      destruct (Hus Hpr') as (? & ? & ?). auto.
    + intros vpn' Hne. destruct (decide (table_index vpn' (S l) = i)) as [Ei|Hi']; [|by apply Hsame].
      apply entry_same; [by rewrite Ei, Hroot'|]. rewrite Ei. intros _ _. apply Ho. by apply same_index.
    + intros j Hj. unfold branch. cbn zeta. rewrite Hroot' by done. pose proof (H4 j Hj) as Hj4. cbn zeta in Hj4.
      destruct (decide (j = i)) as [->|Hne].
      * rewrite Hpr, Hhu. cbn [andb negb]. f_equal. destruct l as [|l]; [done|]. cbn [tables].
        apply list_bind_ext_elem. intros k Hk%elem_of_seqZ. apply (Hbr k). lia.
      * destruct (has (word s (slot t j)) PTE_PRESENT); [|done]. destruct (is_huge (word s (slot t j)) (S l)); [done|]. cbn [andb negb]. f_equal.
        eapply tables_frame; [exact Hj4|]. intros b Hb. apply (grow_words _ _ _ _ _ _ _ _ G).
        intros Hb'. by apply (H2 j i Hj Hi Hne (b / 4096)).
Qed.

(** Clearing the entry the walk found and giving the frame back is the deletion. *)
Lemma as_unmap s A T M vpn f p :
  aspace s A T M → M !! vpn = Some f →
  find_pte_in_root hh (root * 4096) (vpn * 4096) s = Some (Some p) →
  ∃ s', free hh (Some entries) f (store hh p 0 s) = Some s'
    ∧ aspace s' (A ∖ {[f]}) T (delete vpn M)
    ∧ low_tables root s' = low_tables root s
    ∧ ∀ a, a / 4096 ∉ {[f]} ∪ T → word s' a = word s a.
Proof using P R1.
  intros S Hf Hp. destruct (as_dom _ _ _ _ S _ _ Hf) as (Hv & HfA & HfT).
  pose proof (as_find_pte s A T M vpn S Hv) as Hfind. rewrite Hf in Hfind.
  destruct Hfind as (p' & a & E & Ha & Epa & _). rewrite Hp in E. injection E as <-.
  unfold store. rewrite Epa.
  destruct (clear_level 3 root T s A vpn a (as_client _ _ _ _ S) (as_tree _ _ _ _ S) (as_owned _ _ _ _ S) Ha)
    as (HaT & G & Ht & Hlf & Hu & Ho & Hbr).
  set (s1 := s .[ mem := <[a := 0]> (mem s) ]) in *. pose proof (grow_client _ _ _ _ _ _ _ _ G) as C1.
  destruct (frame_client_inv _ _ P _ _ C1) as [chain I].
  destruct (give_back_ok _ _ P _ _ _ _ I HfA) as (s2 & E2 & _ & Hw2). exists s2. split; [done|].
  assert (∀ b, b / 4096 ≠ f → word s2 b = word s1 b) as Hw.
  { intros b Hb. apply Hw2. intros ->. by rewrite Z.div_mul in Hb. }
  assert (aspace s1 A T (delete vpn M)) as S1.
  { split; [done|done|apply (as_owned _ _ _ _ S)| | | |].
    - intros v Hv'. pose proof (as_path _ _ _ _ S v Hv').
      destruct (decide (v = vpn)) as [->|]; [by apply Hu|]. by apply Ho; [apply R1|].
    - intros v Hv'. destruct (decide (v = vpn)) as [->|]; [by rewrite lookup_delete_eq|].
      rewrite lookup_delete_ne, <- (as_leaf _ _ _ _ S v Hv') by done.
      apply Ho; [by apply R1|by apply (as_path _ _ _ _ S)].
    - intros v g [_ Hg]%lookup_delete_Some. by apply (as_dom _ _ _ _ S).
    - intros v v' g [_ H1]%lookup_delete_Some [_ H2]%lookup_delete_Some. by eapply (as_inj _ _ _ _ S). }
  split_and!.
  - eapply as_frame_client; [exact S1|by eapply fc_free| | |].
    + intros b Hb. apply Hw. by intros <-.
    + intros q Hq. destruct (as_owned _ _ _ _ S q Hq) as [? Hin]. split; [done|]. intros Hus.
      apply elem_of_difference. split; [auto|]. intros ->%elem_of_singleton. done.
    + intros v g Hg. destruct (as_dom _ _ _ _ S1 v g Hg) as (_ & HgA & _). apply elem_of_difference. split; [done|].
      intros ->%elem_of_singleton. apply lookup_delete_Some in Hg as [Hne Hg]. by apply Hne, (as_inj _ _ _ _ S _ _ f).
  - unfold low_tables. apply list_bind_ext_elem. intros i Hi%elem_of_seqZ. rewrite <- Hbr by lia.
    destruct (as_tree _ _ _ _ S1) as (sub & H1 & H2 & H3 & H4). specialize (H4 i ltac:(lia)). cbn zeta in H4.
    assert (∀ b, b / 4096 ∈ T → word s2 b = word s1 b) as HwT by (intros b Hb; apply Hw; by intros <-).
    unfold branch. cbn zeta. rewrite HwT by (rewrite slot_frame by lia; by eapply tree_root).
    destruct (has (word s1 (slot root i)) PTE_PRESENT); [|done].
    destruct (is_huge (word s1 (slot root i)) 3); [done|]. cbn [andb negb]. f_equal.
    eapply tables_frame; [exact H4|]. intros b Hb. apply HwT, H3. right. exists i. split; [lia|done].
  - intros b Hb. rewrite Hw.
    + apply (grow_words _ _ _ _ _ _ _ _ G). intros ?. apply Hb. by apply elem_of_union_r.
    + intros E'. apply Hb, elem_of_union_l, elem_of_singleton. done.
Qed.
(** *** Frames that are not mapped *)

Definition unmapped_frame (f : Z) (A T : gset Z) (M : gmap Z Z) : Prop := f ∈ A ∧ f ∉ T ∧ ∀ vpn, M !! vpn ≠ Some f.

Lemma as_alloc s A T M n :
  aspace s A T M → room entries (S n) A →
  ∃ f s', alloc hh s = Some (f, s') ∧ f ∉ A ∧ aspace s' ({[f]} ∪ A) T M ∧ unmapped_frame f ({[f]} ∪ A) T M
    ∧ room entries n ({[f]} ∪ A) ∧ (∀ a, a / 4096 ≠ f → word s' a = word s a)
    ∧ ∀ k, 0 <= k < 512 → word s' (f * 4096 + 8 * k) = 0.
Proof using P.
  intros S R. destruct (alloc_step _ _ P _ _ _ (as_client _ _ _ _ S) R) as (f & s' & E & Hf & Hu & C & R' & Hz & Hw).
  assert (f ∉ T) as HfT by (intros Hin; by apply Hf, (as_owned _ _ _ _ S f Hin)).
  exists f, s'. split_and!; try done.
  - eapply as_frame_client; [done|done| | |].
    + intros a Ha. apply Hw. by intros <-.
    + intros p Hp. eapply owned_mono; [apply union_subseteq_r|by apply (as_owned _ _ _ _ S)].
    + intros vpn g Hg. apply elem_of_union_r. by apply (as_dom _ _ _ _ S vpn g).
  - split_and!; [apply elem_of_union_l; by apply elem_of_singleton|done|].
    intros vpn Hg. apply Hf. by apply (as_dom _ _ _ _ S vpn f).
Qed.

Lemma as_write s s' A T M f :
  aspace s A T M → frame_client hh entries s' A → f ∉ T → (∀ a, a / 4096 ≠ f → word s' a = word s a) →
  aspace s' A T M.
Proof using.
  intros S C Hf Hw. eapply as_frame_client; [done|done| |apply (as_owned _ _ _ _ S)|].
  - intros a Ha. apply Hw. by intros <-.
  - intros vpn g Hg. by apply (as_dom _ _ _ _ S vpn g).
Qed.

Lemma as_free s A T M f :
  aspace s A T M → unmapped_frame f A T M →
  ∃ s', free hh (Some entries) f s = Some s' ∧ aspace s' (A ∖ {[f]}) T M
    ∧ ∀ a, a / 4096 ≠ f → word s' a = word s a.
Proof using P.
  intros S (HfA & HfT & HfM). destruct (frame_client_inv _ _ P _ _ (as_client _ _ _ _ S)) as [chain I].
  destruct (give_back_ok _ _ P _ _ _ _ I HfA) as (s' & E & _ & Hw0).
  assert (∀ a, a / 4096 ≠ f → word s' a = word s a) as Hw.
  { intros a Ha. apply Hw0. intros ->. by rewrite Z.div_mul in Ha. }
  exists s'. split_and!; [done| |done]. eapply as_frame_client; [done|eapply fc_free; [apply (as_client _ _ _ _ S)|done..]| | |].
  - intros a Ha. apply Hw. by intros <-.
  - intros p Hp. destruct (as_owned _ _ _ _ S p Hp) as [Hok Hin]. split; [done|]. intros Hus.
    apply elem_of_difference. split; [auto|]. intros ->%elem_of_singleton. done.
  - intros vpn g Hg. apply elem_of_difference. split; [by apply (as_dom _ _ _ _ S vpn g)|].
    intros ->%elem_of_singleton. by apply (HfM vpn).
Qed.
(** A zeroed root table maps nothing. *)
Lemma as_zero s A :
  frame_client hh entries s A → root ∈ A → (∀ k, 0 <= k < 512 → word s (slot root k) = 0) → aspace s A {[root]} ∅.
Proof using P.
  intros C Hr Hz. destruct (zero_table 3 root s Hz) as [Ht Hv]. split; [done|done| | | | |].
  - intros p ->%elem_of_singleton. by eapply client_owned.
  - intros vpn _. apply Hv.
  - intros vpn _. rewrite lookup_empty. apply Hv.
  - intros vpn f. by rewrite lookup_empty.
  - intros vpn vpn' f. by rewrite lookup_empty.
Qed.
End AddrSpace.
