(* ===== verification/Vme.v ===== *)
(** * The mappings of a thread ([vmm.cc]: [VME] and its list)

    A mapping is a VME; a thread's mappings are a list sorted by address.
    [insert_vme] allocates addresses first-fit. *)

From S2P Require Import Prelude PhysMem Ext2.

Record VME := mkVME {
  start : Z;
  end_ : Z;
  node : option Node;
  offset : Z;
  shared : bool;
}.
#[export] Instance eta_VME : Eta VME := fun v =>
  mkVME (start v) (end_ v) (node v) (offset v) (shared v).

(** The pointer returned on failure: all ones. *)
Definition MAP_FAILED : Z := 18446744073709551615.

(** ** The list *)

Fixpoint find_vme (head : list VME) (va : Z) : option VME :=
  match head with
  | [] => None
  | v :: next => if (start v <=? va) && (va <? end_ v) then Some v else find_vme next va
  end.

Fixpoint clone_vme_list (head : list VME) : list VME :=
  match head with
  | [] => []
  | v :: next => mkVME (start v) (end_ v) (node v) (offset v) (shared v) :: clone_vme_list next
  end.

Definition fits_in_range (start_ length limit : Z) : bool :=
  (start_ <? limit) && (length <=? u64 (limit - start_)).

(** The loop of [insert_vme]: the candidate address, the list before the place
    of the new VME and the list after it. *)
Fixpoint find_gap (candidate length : Z) (next : list VME) : Z * list VME * list VME :=
  match next with
  | [] => (candidate, [], [])
  | v :: next' =>
      if (candidate <=? start v) && (length <=? u64 (start v - candidate)) then (candidate, [], next)
      else let '(c, before, after) := find_gap (end_ v) length next' in (c, v :: before, after)
  end.

Definition insert_vme (head : list VME) (base limit length : Z) (file : option Node) (off : Z) (shr : bool)
    : Z * list VME :=
  let '(candidate, before, after) := find_gap base length head in
  if negb (fits_in_range candidate length limit) then (MAP_FAILED, head)
  else (candidate, before ++ mkVME candidate (u64 (candidate + length)) file off shr :: after).

(** ** Well-formed lists

    Sorted, apart and inside [lo, limit), made of whole pages. *)

Definition vme_ok (v : VME) : Prop :=
  start v < end_ v ∧ start v mod 4096 = 0 ∧ end_ v mod 4096 = 0 ∧ is_u64 (offset v) ∧ offset v mod 4096 = 0.

Fixpoint wf_vmes (lo limit : Z) (l : list VME) : Prop :=
  match l with
  | [] => lo <= limit
  | v :: l' => vme_ok v ∧ lo <= start v ∧ wf_vmes (end_ v) limit l'
  end.

(** No mapping overlaps the [length] bytes from [x] on. *)
Definition free_at (l : list VME) (x length : Z) : Prop :=
  Forall (λ v, x + length <= start v ∨ end_ v <= x) l.

Lemma wf_lo l : ∀ lo limit, wf_vmes lo limit l → lo <= limit.
Proof.
  induction l as [|v l IH]; intros lo limit; cbn; [done|]. intros ((? & _) & ? & ?%IH). lia.
Qed.
Lemma wf_weaken lo lo' limit l : wf_vmes lo limit l → lo' <= lo → wf_vmes lo' limit l.
Proof. destruct l as [|v l]; cbn; [lia|]. intros (? & ? & ?) ?. split_and!; [done|lia|done]. Qed.

Lemma find_vme_below l : ∀ lo limit va, wf_vmes lo limit l → va < lo → find_vme l va = None.
Proof.
  induction l as [|v l IH]; intros lo limit va; cbn; [done|]. intros ((? & _) & ? & Hl) Hva.
  rewrite (proj2 (Z.leb_gt _ _)) by lia. cbn. eapply IH; [exact Hl|lia].
Qed.
Lemma find_vme_range l : ∀ lo limit va v,
  wf_vmes lo limit l → find_vme l va = Some v → lo <= start v ∧ start v <= va < end_ v ∧ end_ v <= limit ∧ vme_ok v.
Proof.
  induction l as [|u l IH]; intros lo limit va v; cbn; [done|]. intros (Hu & ? & Hl).
  destruct (Z.leb_spec (start u) va); destruct (Z.ltb_spec va (end_ u)); cbn.
  1: { intros [= <-]. pose proof (wf_lo _ _ _ Hl). by split_and!. }
  all: intros (? & ? & ?)%(IH _ _ _ _ Hl); pose proof (proj1 Hu); split; [lia|done].
Qed.

Lemma find_vme_cons v l va :
  find_vme (v :: l) va = if decide (start v <= va < end_ v) then Some v else find_vme l va.
Proof.
  cbn. destruct (Z.leb_spec (start v) va); destruct (Z.ltb_spec va (end_ v)); cbn; case_decide; try lia; done.
Qed.

Lemma free_below l : ∀ lo limit x length,
  wf_vmes lo limit l → x + length <= lo → free_at l x length.
Proof.
  induction l as [|v l IH]; intros lo limit x length; cbn; [constructor|]. intros ((? & _) & ? & Hl) ?.
  constructor; [lia|]. eapply IH; [exact Hl|lia].
Qed.

Lemma clone_vme_list_eq l : clone_vme_list l = l.
Proof. induction l as [|[] l IH]; cbn; by f_equal. Qed.

(** ** First fit *)

Section Insert.
Context (length limit : Z) (file : option Node) (off : Z) (shr : bool).
Context (Hlen : 0 < length) (Hpages : length mod 4096 = 0) (Hoff : is_u64 off ∧ off mod 4096 = 0).
Context (Hlimit : limit < 2 ^ 64).

Let new (a : Z) : VME := mkVME a (u64 (a + length)) file off shr.

Lemma find_gap_ok l : ∀ c,
  wf_vmes c limit l → 0 <= c → c mod 4096 = 0 →
  ∃ a before after, find_gap c length l = (a, before, after) ∧ c <= a <= limit
    ∧ (∀ x, c <= x → free_at l x length → a <= x)
    ∧ (a + length <= limit → free_at l a length ∧ wf_vmes c limit (before ++ new a :: after)
        ∧ ∀ va, find_vme (before ++ new a :: after) va =
            if decide (a <= va < a + length) then Some (new a) else find_vme l va).
Proof using Hlen Hpages Hoff Hlimit.
  change (2 ^ 64) with 18446744073709551616 in Hlimit.
  assert (∀ a, 0 <= a → a mod 4096 = 0 → a + length <= limit → start (new a) = a ∧ end_ (new a) = a + length ∧ vme_ok (new a))
    as Hnew.
  { intros a Ha Ha' Hle. unfold vme_ok, new. cbn. rewrite u64_id by word_lia.
    destruct Hoff. split_and!; try done; try lia. word_lia. }
  clearbody new. induction l as [|v l IH]; intros c Hwf Hc Hc'; pose proof (wf_lo _ _ _ Hwf) as Hle.
  - exists c, [], []. split_and!; [done|lia|done|done|]. intros Hfit. cbn [app].
    destruct (Hnew c Hc Hc' Hfit) as (E1 & E2 & Hok). split_and!; [constructor|cbn; split_and!; try done; lia|].
    intros va. rewrite find_vme_cons, E1, E2. done.
  - cbn [wf_vmes] in Hwf. destruct Hwf as (Hv & Hcv & Hwf). pose proof (wf_lo _ _ _ Hwf) as Hle'.
    destruct Hv as (Hse & Hs & He & Hrest). cbn [find_gap].
    rewrite (proj2 (Z.leb_le _ _) Hcv), u64_id by word_lia. cbn [andb].
    destruct (Z.leb_spec length (start v - c)) as [Hfit|Hno].
    + exists c, [], (v :: l). split_and!; [done|lia|done|done|]. intros Hfit'.
      destruct (Hnew c Hc Hc' Hfit') as (E1 & E2 & Hok). split_and!.
      * constructor; [lia|]. apply (free_below _ _ _ _ _ Hwf). lia.
      * cbn [app wf_vmes]. rewrite E1, E2. split_and!; try done; try lia.
      * intros va. cbn [app]. rewrite find_vme_cons, E1, E2. done.
    + destruct (IH (end_ v) Hwf) as (a & b & r & -> & Ha & Hmin & Hok); [lia|done|].
      exists a, (v :: b), r. split_and!; [done|lia|lia| |].
      * intros x Hx [Hxv Hxl]%Forall_cons. apply Hmin; [lia|done].
      * intros Hfit. destruct (Hok Hfit) as (Hfree & Hwf' & Hfind). split_and!.
        -- constructor; [lia|done].
        -- cbn [app wf_vmes]. by split_and!.
        -- intros va. cbn [app]. rewrite !find_vme_cons, Hfind. repeat case_decide; try done; lia.
Qed.

(** [insert_vme] is first-fit: the mapping goes to the lowest address of the range where
    its bytes overlap no other mapping, and it fails, changing nothing, only when there is
    no such address; afterwards an address finds the new mapping if it lies in it and the
    mapping it found before otherwise. *)
Theorem insert_vme_first_fit base l :
  wf_vmes base limit l → 0 <= base → base mod 4096 = 0 →
  let '(a, l') := insert_vme l base limit length file off shr in
  (a = MAP_FAILED ∧ l' = l ∧ ∀ x, base <= x → x + length <= limit → ¬ free_at l x length)
  ∨ (base <= a ∧ a + length <= limit ∧ free_at l a length
     ∧ (∀ x, base <= x → free_at l x length → a <= x) ∧ wf_vmes base limit l'
     ∧ ∀ va, find_vme l' va =
         if decide (a <= va < a + length) then Some (mkVME a (a + length) file off shr) else find_vme l va).
Proof using Hlen Hpages Hoff Hlimit.
  intros Hwf Hb Hb'. destruct (find_gap_ok l base Hwf Hb Hb') as (a & b & r & E & Ha & Hmin & Hok).
  unfold insert_vme. rewrite E. unfold fits_in_range. change (2 ^ 64) with 18446744073709551616 in Hlimit.
  destruct (Z.ltb_spec a limit) as [Hlt|Hge]; cbn [andb negb].
  - rewrite u64_id by word_lia. destruct (Z.leb_spec length (limit - a)); cbn [negb].
    + right. destruct Hok as (Hfree & Hwf' & Hfind); [lia|]. split_and!; [lia|lia|done|done|done|].
      intros va. rewrite Hfind. unfold new. rewrite u64_id by word_lia. done.
    + left. split_and!; [done..|]. intros x Hx Hl Hf. specialize (Hmin x Hx Hf). lia.
  - left. split_and!; [done..|]. intros x Hx Hl Hf. specialize (Hmin x Hx Hf). lia.
Qed.
End Insert.

Lemma insert_vme_first_fit_witness :
  (insert_vme [mkVME 4096 12288 None 0 false; mkVME 16384 20480 None 0 false] 4096 1048576 8192 None 0 false).1 = 20480
  ∧ free_at [mkVME 4096 12288 None 0 false; mkVME 16384 20480 None 0 false] 20480 8192.
Proof.
  pose proof (insert_vme_first_fit 8192 1048576 None 0 false ltac:(lia) ltac:(done) ltac:(done) ltac:(done) 4096
    [mkVME 4096 12288 None 0 false; mkVME 16384 20480 None 0 false]) as H.
  cbn in H. destruct H as [(? & _)|(_ & _ & H & _)].
  - unfold vme_ok. cbn. split_and!; done.
  - done.
  - done.
  - done.
  - split; [done|exact H].
Defined.

(** What an address is backed by: a file, or none, and the offset in it. *)
Definition backing (l : list VME) (va : Z) : option (option Node * Z) :=
  v ← find_vme l va; Some (node v, u64 (offset v + u64 (va - start v))).

Lemma backing_cons v l va :
  backing (v :: l) va =
  if decide (start v <= va < end_ v) then Some (node v, u64 (offset v + u64 (va - start v))) else backing l va.
Proof. unfold backing. rewrite find_vme_cons. by case_decide. Qed.
Lemma backing_below l lo limit va : wf_vmes lo limit l → va < lo → backing l va = None.
Proof. intros Hwf Hva. unfold backing. by rewrite (find_vme_below _ _ _ _ Hwf Hva). Qed.
