(* ===== verification/Vmm.v ===== *)
(** * Virtual memory ([vmm.cc], [vmm.h])

    The mappings of a thread (its list of VMEs) and the pages behind them:
    [mmap], [munmap], the page fault handler, [fork_from] and the set-up and
    tear-down of a thread's address space.  The walks of the page tables are in
    [PageTable]. *)

From stdpp Require Import gmap.
From S2P Require Import Prelude PhysMem BlockIO Ext2 PageTable AddrSpace Vme.

(** The state as one thread sees it: [vmes] and [cr3] are its own, the rest is
    shared by all.  A linked list of VMEs is a list. *)
Record Vmm := mkVmm {
  phys : PhysMem;
  common_cr3 : Z;
  cr3 : Z;
  vmes : list VME;
  shared_vmes : list VME;
  active_vmm_threads : Z;
  shared_roots_ready : Z;
}.
#[export] Instance eta_Vmm : Eta Vmm := fun v =>
  mkVmm (phys v) (common_cr3 v) (cr3 v) (vmes v) (shared_vmes v) (active_vmm_threads v) (shared_roots_ready v).

Definition MAP_SHARED : Z := 1.
Definition MAP_ANONYMOUS : Z := 2.
(** ** Bytes of memory *)

Definition word_byte (w j : Z) : Z := (w / 256 ^ j) mod 256.
Definition set_word_byte (w j b : Z) : Z := w + (b - word_byte w j) * 256 ^ j.

Section Vmm.
Context (hhdm_offset : Z) (memmap : option (list MemmapEntry)).

(** A byte store through the direct map, inside the word that holds the byte. *)
Definition store_byte (va b : Z) (s : PhysMem) : PhysMem :=
  let a := va - va mod 8 in
  store hhdm_offset a (set_word_byte (load hhdm_offset a s) (va mod 8) b) s.
Fixpoint store_bytes (va : Z) (bs : bytes) (s : PhysMem) : PhysMem :=
  match bs with
  | [] => s
  | b :: bs => store_bytes (u64 (va + 1)) bs (store_byte va b s)
  end.
(** [memcpy] of [n] words. *)
Fixpoint copy_words (n : nat) (dst src : Z) (s : PhysMem) : PhysMem :=
  match n with
  | O => s
  | S n => copy_words n (u64 (dst + 8)) (u64 (src + 8)) (store hhdm_offset dst (load hhdm_offset src s) s)
  end.

Definition shared_base : Z := u64 (hhdm_offset + CONFIGURED_MAX_PA).

(** The conversion [VPN(VA(va))]. *)
Definition VPN_VA (va : Z) : option Z := va ← check_canonical va; Some (VPN_of_VA va).

Definition load_page (vme : VME) (va_page frame : Z) (s : PhysMem) : option PhysMem :=
  frame_ptr ← VA_of_PPN hhdm_offset frame;
  let s := zero_words hhdm_offset 512 frame_ptr s in
  match node vme with
  | None => Some s
  | Some nd =>
      let page_index := u64 (va_page - start vme) / PAGE_SIZE in
      let file_offset := u64 (offset vme + u64 (page_index * PAGE_SIZE)) in
      let file_size := size_in_bytes (node_io nd) in
      if file_size <=? file_offset then Some s
      else
        let bytes_to_read :=
          if file_size <? u64 (file_offset + PAGE_SIZE) then u64 (file_size - file_offset) else PAGE_SIZE in
        '(cnt, bs) ← read_all (node_io nd) (u32 file_offset) (u32 bytes_to_read);
        if cnt =? bytes_to_read then Some (store_bytes frame_ptr bs s) else None
  end.

(** *** Shared roots *)

Fixpoint fill_root_slots (n : nat) (slot table : Z) (s : PhysMem) : option PhysMem :=
  match n with
  | O => Some s
  | S n =>
      s ← (if has (entry_at hhdm_offset table slot s) PTE_PRESENT then Some s
           else '(child, s) ← alloc hhdm_offset s;
                Some (set_entry hhdm_offset table slot (make_entry child true true) s));
      fill_root_slots n (slot + 1) table s
  end.

Definition ensure_shared_roots (v : Vmm) : option Vmm :=
  if negb (shared_roots_ready v =? 0) then Some v
  else
    root ← VA_of_PPN hhdm_offset (PPN_of (Z.shiftr (common_cr3 v) 12));
    let first_slot := Z.land (Z.shiftr shared_base 39) 511 in
    let last_slot := Z.land (Z.shiftr SHARED_LIMIT 39) 511 in
    if negb (has (entry_at hhdm_offset root first_slot (phys v)) PTE_PRESENT) then None
    else
      s ← fill_root_slots (Z.to_nat (last_slot - (first_slot + 1))) (first_slot + 1) root (phys v);
      Some (v .[ phys := s ] .[ shared_roots_ready := 1 ]).

(** *** Mapping device memory *)

Fixpoint map_mmio_loop (fuel : nat) (curr end__ : Z) (v : Vmm) : option Vmm :=
  if end__ <=? curr then Some v
  else match fuel with
  | O => None
  | S fuel =>
      va ← VA_of_PA hhdm_offset curr;
      let ppn := PPN_of_PA curr in
      s ← map_in_root hhdm_offset (common_cr3 v) (VPN_of_VA va) ppn false true (phys v);
      s ← (if negb (cr3 v =? common_cr3 v)
           then map_in_root hhdm_offset (cr3 v) (VPN_of_VA va) ppn false true s else Some s);
      map_mmio_loop fuel (u64 (curr + PAGE_SIZE)) end__ (v .[ phys := s ])
  end.

Definition map_mmio (pa length : Z) (v : Vmm) : option (Z * Vmm) :=
  let length := if length =? 0 then PAGE_SIZE else length in
  let start_ := page_align_down pa in
  let end__ := page_align_up (u64 (pa + length)) in
  v ← map_mmio_loop (Z.to_nat ((end__ - start_) / PAGE_SIZE)) start_ end__ v;
  va ← VA_of_PA hhdm_offset pa;
  Some (va, v).

(** *** Unmapping pages *)

(** The loop over the pages from [va] to [end__], with the number of turns it
    may take. *)
Fixpoint unmap_pages (fuel : nat) (root va end__ : Z) (s : PhysMem) : option PhysMem :=
  if end__ <=? va then Some s
  else match fuel with
  | O => None
  | S fuel =>
      pte ← find_pte_in_root hhdm_offset root va s;
      s ← match pte with
          | Some p =>
              if has (load hhdm_offset p s) PTE_PRESENT then
                let raw_ppn := Z.land (Z.shiftr (load hhdm_offset p s) 12) 68719476735 in
                let s := store hhdm_offset p 0 s in
                if negb (raw_ppn =? 0) then free hhdm_offset memmap (PPN_of raw_ppn) s else Some s
              else Some s
          | None => Some s
          end;
      unmap_pages fuel root (u64 (va + PAGE_SIZE)) end__ s
  end.
Definition pages_between (va end__ : Z) : nat := Z.to_nat ((end__ - va + PAGE_MASK) / PAGE_SIZE).

Definition free_mapped_frames (vme : VME) (root : Z) (s : PhysMem) : option PhysMem :=
  unmap_pages (pages_between (start vme) (end_ vme)) root (start vme) (end_ vme) s.

Definition free_shared_vmes_only (v : Vmm) : Vmm := v .[ shared_vmes := [] ].

(** The entries from [i] on of a table, each freed with [below] what is below
    it; [huge] tells whether a large page can stand here. *)
Fixpoint free_entries (below : Z → PhysMem → option PhysMem) (huge : bool) (n : nat) (i table : Z) (s : PhysMem)
    : option PhysMem :=
  match n with
  | O => Some s
  | S n =>
      let entry := entry_at hhdm_offset table i s in
      s ← (if negb (has entry PTE_PRESENT) then Some s
           else if has entry PTE_HUGE && huge then Some (set_entry hhdm_offset table i 0 s)
           else
             let child := entry_ppn entry in
             if (child =? 0) || negb (ppn_in_configured_phys child) then Some (set_entry hhdm_offset table i 0 s)
             else
               s ← below child s;
               free hhdm_offset memmap child (set_entry hhdm_offset table i 0 s));
      free_entries below huge n (i + 1) table s
  end.

Fixpoint free_table_tree (levels_below : nat) (table_ppn : Z) (s : PhysMem) : option PhysMem :=
  match levels_below with
  | O => Some s
  | S l =>
      table ← VA_of_PPN hhdm_offset table_ppn;
      free_entries (free_table_tree l) ((levels_below =? 2)%nat || (levels_below =? 1)%nat) 512 0 table s
  end.

Definition free_private_page_tables (root_cr3 : Z) (s : PhysMem) : option PhysMem :=
  root ← VA_of_PPN hhdm_offset (PPN_of (Z.shiftr root_cr3 12));
  free_entries (free_table_tree 2) false 256 0 root s.

(** *** [fork_from] *)

Fixpoint clone_entries (page : Z → Z → Z → PhysMem → option PhysMem) (n : nat) (i table : Z) (s : PhysMem)
    : option PhysMem :=
  match n with
  | O => Some s
  | S n =>
      let entry := entry_at hhdm_offset table i s in
      s ← (if negb (has entry PTE_PRESENT) then Some s else page i entry table s);
      clone_entries page n (i + 1) table s
  end.

Fixpoint clone_user_pages (dst_cr3 : Z) (level : nat) (table_ppn base_vpn : Z) (s : PhysMem) : option PhysMem :=
  table ← VA_of_PPN hhdm_offset table_ppn;
  clone_entries (λ i entry _ s,
    let vpn_bits := Z.lor base_vpn (Z.shiftl i (Z.of_nat level * 9)) in
    match level with
    | O =>
        if negb (has entry PTE_USER) then Some s
        else
          '(dst_ppn, s) ← alloc hhdm_offset s;
          dst ← VA_of_PPN hhdm_offset dst_ppn;
          src ← VA_of_PPN hhdm_offset (entry_ppn entry);
          let s := copy_words 512 dst src s in
          vpn ← VPN_VA (u64 (Z.shiftl vpn_bits LOG_FRAME_SIZE));
          map_in_root hhdm_offset dst_cr3 vpn dst_ppn true (has entry PTE_WRITE) s
    | S l =>
        if has entry PTE_HUGE then None
        else clone_user_pages dst_cr3 l (entry_ppn entry) vpn_bits s
    end) 512 0 table s.

Definition fork_from (source_cr3 : Z) (v : Vmm) : option Vmm :=
  let v := v .[ vmes := clone_vme_list (vmes v) ] in
  root ← VA_of_PPN hhdm_offset (PPN_of (Z.shiftr source_cr3 12));
  s ← clone_entries (λ i entry _ s, clone_user_pages (cr3 v) 2 (entry_ppn entry) (Z.shiftl i 27) s)
        256 0 root (phys v);
  Some (v .[ phys := s ]).

(** *** [mmap] and [munmap] *)

Definition mmap (length flags : Z) (file : option Node) (off : Z) (v : Vmm) : Z * Vmm :=
  if length =? 0 then (MAP_FAILED, v)
  else if negb (off mod PAGE_SIZE =? 0) then (MAP_FAILED, v)
  else
    let length := page_align_up length in
    let anonymous := negb (Z.land flags MAP_ANONYMOUS =? 0) in
    let shr := negb (Z.land flags MAP_SHARED =? 0) in
    let no_file := match file with None => true | Some _ => false end in
    if negb (Bool.eqb anonymous no_file) then (MAP_FAILED, v)
    else if shr then
      let '(a, l) := insert_vme (shared_vmes v) shared_base SHARED_LIMIT length file off true in
      (a, v .[ shared_vmes := l ])
    else
      let '(a, l) := insert_vme (vmes v) PRIVATE_BASE hhdm_offset length file off false in
      (a, v .[ vmes := l ]).

(** The loop over the list; the pages of each overlap are unmapped first. *)
Fixpoint munmap_loop (root start_ end__ : Z) (curr : list VME) (s : PhysMem) : option (list VME * PhysMem) :=
  match curr with
  | [] => Some ([], s)
  | v :: next =>
      if (end_ v <=? start_) || (end__ <=? start v) then
        '(rest, s) ← munmap_loop root start_ end__ next s; Some (v :: rest, s)
      else
        let unmap_start := if start_ <? start v then start v else start_ in
        let unmap_end := if end_ v <? end__ then end_ v else end__ in
        s ← unmap_pages (pages_between unmap_start unmap_end) root unmap_start unmap_end s;
        '(rest, s) ← munmap_loop root start_ end__ next s;
        if (start v <? unmap_start) && (unmap_end <? end_ v) then
          let tail := mkVME unmap_end (end_ v) (node v) (u64 (offset v + u64 (unmap_end - start v))) false in
          Some (v .[ end_ := unmap_start ] :: tail :: rest, s)
        else if (unmap_start =? start v) && (unmap_end <? end_ v) then
          Some (v .[ offset := u64 (offset v + u64 (unmap_end - start v)) ] .[ start := unmap_end ] :: rest, s)
        else if (start v <? unmap_start) && (unmap_end =? end_ v) then
          Some (v .[ end_ := unmap_start ] :: rest, s)
        else Some (rest, s)
  end.

Definition munmap (addr length : Z) (v : Vmm) : option (Z * Vmm) :=
  if negb (addr mod PAGE_SIZE =? 0) then Some (-1, v)
  else if length =? 0 then Some (-1, v)
  else
    let length := page_align_up length in
    let end__ := u64 (addr + length) in
    if end__ <? addr then Some (-1, v)
    else if (addr <? PRIVATE_BASE) || (hhdm_offset <? end__) then Some (-1, v)
    else if (shared_base <=? addr) || (shared_base <? end__) then Some (-1, v)
    else
      '(l, s) ← munmap_loop (cr3 v) addr end__ (vmes v) (phys v);
      Some (0, v .[ vmes := l ] .[ phys := s ]).

(** *** Page faults *)

(** What the handler does under the lock before it loads a shared page: the
    mapping, and whether the page has been mapped in the meantime. *)
Definition shared_lookup (va_page : Z) (v : Vmm) : option (option (VME * bool)) :=
  match find_vme (shared_vmes v) va_page with
  | None => Some None
  | Some vme =>
      pte ← find_pte_in_root hhdm_offset (common_cr3 v) va_page (phys v);
      Some (Some (vme, match pte with Some p => has (load hhdm_offset p (phys v)) PTE_PRESENT | None => false end))
  end.

(** The frame of a fault, with the page's data. *)
Definition load_frame (vme : VME) (va_page : Z) (v : Vmm) : option (Z * Vmm) :=
  '(frame, s) ← alloc hhdm_offset (phys v);
  s ← load_page vme va_page frame s;
  Some (frame, v .[ phys := s ]).

(** The second look under the lock: the frame is mapped unless another thread
    was faster. *)
Definition shared_commit (va_page frame : Z) (v : Vmm) : option Vmm :=
  pte ← find_pte_in_root hhdm_offset (common_cr3 v) va_page (phys v);
  if match pte with Some p => has (load hhdm_offset p (phys v)) PTE_PRESENT | None => false end
  then s ← free hhdm_offset memmap frame (phys v); Some (v .[ phys := s ])
  else
    vpn ← VPN_VA va_page;
    s ← map_in_root hhdm_offset (common_cr3 v) vpn frame true true (phys v);
    Some (v .[ phys := s ]).

Definition private_fault (va_page : Z) (v : Vmm) : option Vmm :=
  match find_vme (vmes v) va_page with
  | None => None
  | Some p =>
      '(frame, v) ← load_frame p va_page v;
      vpn ← VPN_VA va_page;
      s ← map_in_root hhdm_offset (cr3 v) vpn frame true true (phys v);
      Some (v .[ phys := s ])
  end.

Definition pageFaultHandler (disabled : bool) (cr2 error_code : Z) (v : Vmm) : option Vmm :=
  if disabled then None
  else if negb (Z.land error_code 1 =? 0) then None
  else
    let va_page := page_align_down cr2 in
    if (shared_base <=? va_page) && (va_page <? SHARED_LIMIT) then
      r ← shared_lookup va_page v;
      match r with
      | Some (vme, true) => Some v
      | Some (vme, false) =>
          '(frame, v) ← load_frame vme va_page v;
          shared_commit va_page frame v
      | None => private_fault va_page v
      end
    else private_fault va_page v.

(** *** Threads *)

Definition init_system (v : Vmm) : Vmm := v .[ common_cr3 := cr3 v ].

Fixpoint copy_entries (n : nat) (i dst src : Z) (s : PhysMem) : PhysMem :=
  match n with
  | O => s
  | S n => copy_entries n (i + 1) dst src (set_entry hhdm_offset dst i (entry_at hhdm_offset src i s) s)
  end.

Definition init_thread (v : Vmm) : option Vmm :=
  v ← ensure_shared_roots v;
  '(new_cr3_ppn, s) ← alloc hhdm_offset (phys v);
  new_table ← VA_of_PPN hhdm_offset new_cr3_ppn;
  old_table ← VA_of_PPN hhdm_offset (PPN_of (Z.shiftr (common_cr3 v) 12));
  let s := copy_entries 256 256 new_table old_table s in
  Some (v .[ phys := s ] .[ cr3 := PA_of_PPN new_cr3_ppn ]
          .[ active_vmm_threads := u64 (active_vmm_threads v + 1) ]).

Fixpoint free_all_frames (l : list VME) (root : Z) (s : PhysMem) : option PhysMem :=
  match l with
  | [] => Some s
  | p :: next => s ← free_mapped_frames p root s; free_all_frames next root s
  end.

Definition fini_thread (v : Vmm) : option Vmm :=
  s ← free_all_frames (vmes v) (cr3 v) (phys v);
  let v := v .[ phys := s ] .[ vmes := [] ] in
  let old := cr3 v in
  let v := v .[ cr3 := common_cr3 v ] .[ active_vmm_threads := u64 (active_vmm_threads v - 1) ] in
  let v := if active_vmm_threads v =? 0 then free_shared_vmes_only v else v in
  s ← free_private_page_tables old (phys v);
  s ← free hhdm_offset memmap (PPN_of (Z.shiftr old 12)) s;
  Some (v .[ phys := s ]).
End Vmm.

(** ** Unmapping *)

Section Unmap.
Context (hh : Z) (entries : list MemmapEntry) (P : platform hh entries).
Context (root : Z).
Let memmap := Some entries.

Abbreviation aspace := (aspace hh entries low_page root) (only parsing).

(** The pages of [R] have lost their frames, and their frames are given back;
    the data of all other frames is as it was. *)
Record unmapped (R : Z → Prop) (T : gset Z) (s s' : PhysMem) (A A' : gset Z) (M M' : gmap Z Z) : Prop := {
  um_gone : ∀ vpn, R vpn → M' !! vpn = None;
  um_kept : ∀ vpn, ¬ R vpn → M' !! vpn = M !! vpn;
  um_frames : ∀ f, f ∈ A' ↔ f ∈ A ∧ ¬ ∃ vpn, R vpn ∧ M !! vpn = Some f;
  um_data : ∀ a, a / 4096 ∈ A' → a / 4096 ∉ T → word s' a = word s a;
  um_low : low_tables root s' = low_tables root s;
}.

Lemma unmapped_refl (R : Z → Prop) T s A M : (∀ vpn, R vpn → M !! vpn = None) → unmapped R T s s A A M M.
Proof using.
  intros HR. split; try done. intros f. split; [|by intros [? _]]. intros Hf. split; [done|].
  intros (vpn & Hv & E). by rewrite HR in E.
Qed.

Lemma unmapped_trans (R R' R'' : Z → Prop) T s s1 s2 A A1 A2 M M1 M2 :
  unmapped R T s s1 A A1 M M1 → unmapped R' T s1 s2 A1 A2 M1 M2 → (∀ vpn, R'' vpn ↔ R vpn ∨ R' vpn) →
  unmapped R'' T s s2 A A2 M M2.
Proof using.
  intros [G1 K1 F1 D1 L1] [G2 K2 F2 D2 L2] HR.
  assert (∀ vpn f, M1 !! vpn = Some f → ¬ R vpn) as N1 by (intros vpn f E Hv; by rewrite G1 in E).
  assert (∀ vpn f, M2 !! vpn = Some f → ¬ R' vpn) as N2 by (intros vpn f E Hv; by rewrite G2 in E).
  split.
  - intros vpn Hv. destruct (M2 !! vpn) as [f|] eqn:E; [|done]. pose proof (N2 _ _ E) as Hn.
    rewrite K2 in E by done. pose proof (N1 _ _ E). apply HR in Hv. by destruct Hv.
  - intros vpn Hv. rewrite HR in Hv. rewrite K2, K1 by tauto. done.
  - intros f. rewrite F2, F1. split.
    + intros [[HA N] N']. split; [done|]. intros (vpn & Hv & E). apply HR in Hv as [Hv|Hv]; [by apply N; eauto|].
      apply N'. exists vpn. split; [done|]. rewrite K1; [done|]. intros ?. apply N. eauto.
    + intros [HA N]. split; [split; [done|]|].
      * intros (vpn & Hv & E). apply N. exists vpn. split; [apply HR; by left|done].
      * intros (vpn & Hv & E). apply N. exists vpn. split; [apply HR; by right|].
        rewrite <- K1; [done|]. by eapply N1.
  - intros a Ha HT. rewrite D2 by done. apply D1; [|done]. by apply F2 in Ha as [? _].
  - by rewrite L2, L1.
Qed.

Lemma unmapped_ext (R R' : Z → Prop) T s s' A A' M M' :
  unmapped R T s s' A A' M M' → (∀ vpn, R' vpn ↔ R vpn) → unmapped R' T s s' A A' M M'.
Proof using.
  intros [G K F D L] HR. split; [| | |done|done].
  - intros vpn Hv. by apply G, HR.
  - intros vpn Hv. apply K. by rewrite <- HR.
  - intros f. rewrite F. by setoid_rewrite HR.
Qed.

(** One page. *)
Lemma unmap_page_ok T s A M p :
  aspace s A T M → low_page p →
  ∃ pte s' A' M', find_pte_in_root hh (root * 4096) (p * 4096) s = Some pte
    ∧ match pte with
      | Some q =>
          if has (load hh q s) PTE_PRESENT then
            let raw_ppn := Z.land (Z.shiftr (load hh q s) 12) 68719476735 in
            let s := store hh q 0 s in
            if negb (raw_ppn =? 0) then free hh memmap (PPN_of raw_ppn) s else Some s
          else Some s
      | None => Some s
      end = Some s'
    ∧ aspace s' A' T M' ∧ unmapped (λ vpn, vpn = p) T s s' A A' M M'.
Proof using P.
  intros S Hp. pose proof (as_find_pte _ _ P _ _ _ _ _ _ _ S Hp) as Hf. destruct (M !! p) as [f|] eqn:E.
  - destruct Hf as (q & a & Eq & _ & _ & _ & Hpr & Ef). exists (Some q).
    destruct (as_unmap _ _ P _ low_distinct _ _ _ _ _ _ _ _ S E Eq) as (s' & Es & S' & Hlow & Hw).
    exists s', (A ∖ {[f]}), (delete p M). split_and!; [done| |done|].
    + rewrite Hpr. cbv zeta. change (PPN_of (Z.land (Z.shiftr (load hh q s) 12) 68719476735)) with (entry_ppn (load hh q s)).
      rewrite Ef. destruct (as_frame _ _ P _ _ _ _ _ _ _ _ S E) as [[Hf1 _] Hf2].
      assert (Z.land (Z.shiftr (load hh q s) 12) 68719476735 ≠ 0) as Hne.
      { intros E0. unfold entry_ppn in Ef. rewrite E0 in Ef. vm_compute in Ef. lia. }
      by rewrite (proj2 (Z.eqb_neq _ _) Hne).
    + split.
      * intros vpn ->. apply lookup_delete_eq.
      * intros vpn Hv. by apply lookup_delete_ne.
      * intros g. rewrite elem_of_difference, elem_of_singleton. split.
        -- intros [HA Hne]. split; [done|]. intros (vpn & -> & Eg). congruence.
        -- intros [HA N]. split; [done|]. intros ->. apply N. eauto.
      * intros b Hb HT. apply Hw. intros [E'%elem_of_singleton|?]%elem_of_union; [|done].
        apply elem_of_difference in Hb as [_ Hb]. apply Hb. by apply elem_of_singleton.
      * exact Hlow.
  - exists None, s, A, M. split_and!; [done..|]. apply unmapped_refl. by intros vpn ->.
Qed.

Lemma unmap_pages_ok T n : ∀ p s A M,
  aspace s A T M → 0 <= p → p + Z.of_nat n <= 2 ^ 35 →
  ∃ s' A' M', unmap_pages hh memmap n (root * 4096) (p * 4096) ((p + Z.of_nat n) * 4096) s = Some s'
    ∧ aspace s' A' T M' ∧ unmapped (λ vpn, p <= vpn < p + Z.of_nat n) T s s' A A' M M'.
Proof using P.
  change (2 ^ 35) with 34359738368. induction n as [|n IH]; intros p s A M Sp Hp Hn; cbn [unmap_pages].
  - rewrite (proj2 (Z.leb_le _ _)) by lia. exists s, A, M. split_and!; [done..|]. apply unmapped_refl. lia.
  - rewrite (proj2 (Z.leb_gt _ _)) by lia.
    destruct (unmap_page_ok T s A M p Sp) as (pte & s1 & A1 & M1 & -> & E & S1 & U1);
      [unfold low_page; change (2 ^ 35) with 34359738368; lia|].
    cbn [mbind option_bind]. cbv zeta in E. rewrite E. cbn [mbind option_bind].
    replace (u64 (p * 4096 + PAGE_SIZE)) with ((p + 1) * 4096)
      by (unfold PAGE_SIZE, FRAME_SIZE; rewrite u64_id by word_lia; lia).
    replace (p + Z.of_nat (S n)) with (p + 1 + Z.of_nat n) by lia.
    destruct (IH (p + 1) s1 A1 M1 S1) as (s' & A' & M' & -> & S' & U'); [lia|lia|].
    exists s', A', M'. split_and!; [done..|]. eapply unmapped_trans; [exact U1|exact U'|]. intros vpn. cbn. lia.
Qed.

(** The loops of [munmap] and [free_mapped_frames] at whole pages. *)
Lemma unmap_range_ok T s A M va end__ :
  aspace s A T M → va mod 4096 = 0 → end__ mod 4096 = 0 → 0 <= va <= end__ → end__ <= 2 ^ 47 →
  ∃ s' A' M', unmap_pages hh memmap (pages_between va end__) (root * 4096) va end__ s = Some s'
    ∧ aspace s' A' T M' ∧ unmapped (λ vpn, va <= vpn * 4096 < end__) T s s' A A' M M'.
Proof using P.
  change (2 ^ 47) with 140737488355328. intros S Hva He Hle Hlim.
  destruct (unmap_pages_ok T (pages_between va end__) (va / 4096) s A M S) as (s' & A' & M' & E & S' & U).
  1, 2: unfold pages_between, PAGE_MASK, PAGE_SIZE, FRAME_SIZE; change (2 ^ 35) with 34359738368; word_lia.
  assert (va / 4096 * 4096 = va) as E1 by word_lia.
  assert ((va / 4096 + Z.of_nat (pages_between va end__)) * 4096 = end__) as E2
    by (unfold pages_between, PAGE_MASK, PAGE_SIZE, FRAME_SIZE; word_lia).
  rewrite E1, E2 in E. exists s', A', M'. split_and!; [done..|]. eapply unmapped_ext; [exact U|].
  intros vpn. cbn. lia.
Qed.
(** What [munmap] leaves of the mapping [v] that overlaps the range. *)
Definition remains (st en : Z) (v : VME) (rest : list VME) : list VME :=
  let unmap_start := if st <? start v then start v else st in
  let unmap_end := if end_ v <? en then end_ v else en in
  if (start v <? unmap_start) && (unmap_end <? end_ v) then
    v .[ end_ := unmap_start ]
    :: mkVME unmap_end (end_ v) (node v) (u64 (offset v + u64 (unmap_end - start v))) false :: rest
  else if (unmap_start =? start v) && (unmap_end <? end_ v) then
    v .[ offset := u64 (offset v + u64 (unmap_end - start v)) ] .[ start := unmap_end ] :: rest
  else if (start v <? unmap_start) && (unmap_end =? end_ v) then v .[ end_ := unmap_start ] :: rest
  else rest.

Lemma remains_ok st en v rest lo :
  vme_ok v → 0 <= start v → lo <= start v → wf_vmes (end_ v) (2 ^ 47) rest → 0 <= st → st mod 4096 = 0 → en mod 4096 = 0 →
  st < end_ v → start v < en → end_ v <= 2 ^ 47 → st < en →
  wf_vmes lo (2 ^ 47) (remains st en v rest)
  ∧ ∀ va, backing (remains st en v rest) va =
      if decide (st <= va < en ∧ start v <= va < end_ v) then None else backing (v :: rest) va.
Proof using.
  intros (Hse & Hs & He & Ho & Ho') Hv0 Hlo Hwf Hst Hst' Hen' H1 H2 Hend Hlt. unfold remains.
  set (us := if st <? start v then start v else st). set (ue := if end_ v <? en then end_ v else en).
  assert (us = Z.max st (start v)) as Eus by (subst us; destruct (Z.ltb_spec st (start v)); lia).
  assert (ue = Z.min en (end_ v)) as Eue by (subst ue; destruct (Z.ltb_spec (end_ v) en); lia).
  assert (us mod 4096 = 0) as Hus by (subst us; by destruct (Z.ltb_spec st (start v))).
  assert (ue mod 4096 = 0) as Hue by (subst ue; by destruct (Z.ltb_spec (end_ v) en)).
  clearbody us ue. change (2 ^ 47) with 140737488355328 in *.
  assert (∀ va, va < end_ v → backing rest va = None) as Hbelow by (intros va Hva; by eapply backing_below).
  destruct v as [sv ev nv ov shv]. cbn [start end_ node offset shared] in *.
  assert (is_u64 (u64 (ov + u64 (ue - sv))) ∧ u64 (ov + u64 (ue - sv)) mod 4096 = 0) as [Ht1 Ht2] by (split; word_lia).
  assert (∀ va, ue <= va < ev → u64 (u64 (ov + u64 (ue - sv)) + u64 (va - ue)) = u64 (ov + u64 (va - sv))) as Eoff
    by (intros va Hva; word_lia).
  destruct (Z.ltb_spec sv us), (Z.ltb_spec ue ev); cbn [andb];
    [|destruct (Z.eqb_spec us sv), (Z.eqb_spec ue ev); try lia; cbn [andb]..].
  all: split; [unfold set_field; cbn [wf_vmes]; unfold vme_ok; cbn [start end_ node offset shared];
    repeat match goal with |- _ ∧ _ => split end; first [done|lia|eapply wf_weaken; [exact Hwf|lia]]|].
  all: intros va; unfold set_field; cbn [app]; rewrite !backing_cons; cbn [start end_ node offset].
  all: repeat case_decide; try done; try lia; try (rewrite Eoff by lia; done); try (symmetry; apply Hbelow; lia); apply Hbelow; lia.
Qed.
Lemma munmap_loop_cons st en v next s :
  munmap_loop hh memmap (root * 4096) st en (v :: next) s =
  if (end_ v <=? st) || (en <=? start v) then
    '(rest, s) ← munmap_loop hh memmap (root * 4096) st en next s; Some (v :: rest, s)
  else
    let us := if st <? start v then start v else st in
    let ue := if end_ v <? en then end_ v else en in
    s ← unmap_pages hh memmap (pages_between us ue) (root * 4096) us ue s;
    '(rest, s) ← munmap_loop hh memmap (root * 4096) st en next s;
    Some (remains st en v rest, s).
Proof using.
  cbn [munmap_loop]. destruct (_ || _); [done|]. cbv zeta. set (us := if st <? start v then start v else st).
  set (ue := if end_ v <? en then end_ v else en). unfold remains. fold us ue.
  destruct (unmap_pages _ _ _ _ _ _ _); cbn [mbind option_bind]; [|done].
  destruct (munmap_loop _ _ _ _ _ _ _) as [[rest s2]|]; cbn [mbind option_bind]; [|done].
  destruct (_ && _); [done|]. destruct (_ && _); [done|]. by destruct (_ && _).
Qed.

(** The pages of the range that a mapping covers. *)
Definition covered (l : list VME) (st en vpn : Z) : Prop :=
  st <= vpn * 4096 < en ∧ is_Some (find_vme l (vpn * 4096)).

Lemma munmap_loop_ok T st en l : ∀ lo s A M,
  aspace s A T M → wf_vmes lo (2 ^ 47) l → 0 <= lo → 0 <= st → st mod 4096 = 0 → en mod 4096 = 0 → st < en →
  ∃ l' s' A' M', munmap_loop hh memmap (root * 4096) st en l s = Some (l', s')
    ∧ aspace s' A' T M' ∧ wf_vmes lo (2 ^ 47) l'
    ∧ (∀ va, backing l' va = if decide (st <= va < en) then None else backing l va)
    ∧ unmapped (covered l st en) T s s' A A' M M'.
Proof using P.
  induction l as [|v l IH]; intros lo s A M Hs Hwf Hlo Hst Hst' Hen' Hlt.
  { exists [], s, A, M. split_and!; try done; [intros va; by case_decide|].
    apply unmapped_refl. intros vpn [_ [v Hv]]. done. }
  cbn [wf_vmes] in Hwf. destruct Hwf as (Hv & Hlov & Hwf). pose proof Hv as (Hse & Hvs & Hve & _).
  pose proof (wf_lo _ _ _ Hwf) as Hend. change (2 ^ 47) with 140737488355328 in Hend.
  assert (∀ va, va < end_ v → find_vme l va = None) as Hbelow by (intros va ?; by eapply find_vme_below).
  rewrite munmap_loop_cons. destruct (Z.leb_spec (end_ v) st) as [Hout|Hin1]; cbn [orb];
    [|destruct (Z.leb_spec en (start v)) as [Hout|Hin2]].
  1, 2: destruct (IH (end_ v) s A M Hs Hwf) as (l' & s' & A' & M' & -> & Hs' & Hwf' & Hb & U); [lia|done..|];
    cbn [mbind option_bind]; exists (v :: l'), s', A', M'; split_and!; [done..| |];
    [intros va; rewrite !backing_cons, Hb; repeat case_decide; done || lia|];
    eapply unmapped_ext; [exact U|]; intros vpn; unfold covered; rewrite find_vme_cons; case_decide; split;
    intros [? ?]; (split; [done|]); try done; try lia.
  - cbv zeta. set (us := if st <? start v then start v else st). set (ue := if end_ v <? en then end_ v else en).
    assert (us = Z.max st (start v)) as Eus by (subst us; destruct (Z.ltb_spec st (start v)); lia).
    assert (ue = Z.min en (end_ v)) as Eue by (subst ue; destruct (Z.ltb_spec (end_ v) en); lia).
    assert (us mod 4096 = 0) as Hus by (subst us; by destruct (Z.ltb_spec st (start v))).
    assert (ue mod 4096 = 0) as Hue by (subst ue; by destruct (Z.ltb_spec (end_ v) en)).
    clearbody us ue.
    destruct (unmap_range_ok T s A M us ue Hs Hus Hue) as (s1 & A1 & M1 & -> & Hs1 & U1);
      [lia|change (2 ^ 47) with 140737488355328; lia|]. cbn [mbind option_bind].
    destruct (IH (end_ v) s1 A1 M1 Hs1 Hwf) as (l' & s' & A' & M' & -> & Hs' & Hwf' & Hb & U); [lia|done..|].
    cbn [mbind option_bind].
    destruct (remains_ok st en v l' lo Hv) as [Hwf2 Hb2]; try done; try lia.
    exists (remains st en v l'), s', A', M'. split_and!; [done..| |].
    + intros va. rewrite Hb2, !backing_cons, Hb. repeat case_decide; done || lia.
    + eapply unmapped_trans; [exact U1|exact U|]. intros vpn. unfold covered. rewrite find_vme_cons.
      case_decide as Hc.
      * rewrite Hbelow by lia. split; [intros [? _]; left; lia|intros [?|[_ [? ?]]]; [split; [lia|by eexists]|done]].
      * split; [intros [? ?]; by right|intros [?|[? ?]]; [lia|done]].
Qed.
End Unmap.

(** C6: [VMM::munmap] of a page-aligned range of the lower half takes the range, and nothing
    else, out of the mappings: an address outside keeps the file and the offset behind it, also
    when a mapping is cut in two.  Every page of the range that was mapped loses its entry
    and its frame goes back to the allocator, once; the other pages keep their frames and
    their data. *)
Theorem munmap_removes_range hh entries root v A T M addr length :
  platform hh entries → hh + CONFIGURED_MAX_PA < 2 ^ 64 →
  aspace hh entries low_page root (phys v) A T M → cr3 v = root * 4096 →
  wf_vmes PRIVATE_BASE (2 ^ 47) (vmes v) → addr mod 4096 = 0 → 4096 <= addr → 0 < length → addr + length <= 2 ^ 47 →
  let en := addr + (length + 4095) / 4096 * 4096 in
  ∃ v' A' M', munmap hh (Some entries) addr length v = Some (0, v')
    ∧ aspace hh entries low_page root (phys v') A' T M'
    ∧ wf_vmes PRIVATE_BASE (2 ^ 47) (vmes v')
    ∧ (∀ va, backing (vmes v') va = if decide (addr <= va < en) then None else backing (vmes v) va)
    ∧ unmapped root (covered (vmes v) addr en) T (phys v) (phys v') A A' M M'.
Proof.
  intros P Hmax Hs Hroot Hwf Ha Ha' Hl Hlim en. pose proof (plat_hhdm _ _ P) as Hh.
  change (2 ^ 64) with 18446744073709551616 in *. change (2 ^ 47) with 140737488355328 in Hlim.
  assert (addr + length <= en < addr + length + 4096) as He1 by (subst en; word_lia).
  assert (en mod 4096 = 0) as He2 by (subst en; word_lia).
  assert (en <= 140737488355328) as He3 by (clearbody en; word_lia).
  unfold munmap, PAGE_SIZE, FRAME_SIZE, PRIVATE_BASE. rewrite Ha. cbn [Z.eqb negb].
  rewrite (proj2 (Z.eqb_neq length 0)) by lia.
  assert (u64 (addr + page_align_up length) = en) as ->.
  { rewrite align_up by word_lia. apply u64_id. word_lia. }
  assert (shared_base hh = hh + 134217728) as -> by (unfold shared_base, CONFIGURED_MAX_PA in *; word_lia).
  unfold PAGE_SIZE, FRAME_SIZE. rewrite (proj2 (Z.ltb_ge en addr)), (proj2 (Z.ltb_ge addr _)), (proj2 (Z.ltb_ge hh _)),
    (proj2 (Z.leb_gt _ addr)), (proj2 (Z.ltb_ge _ en)) by lia. cbn [orb].
  rewrite Hroot. destruct (munmap_loop_ok hh entries P root T addr en (vmes v) PRIVATE_BASE (phys v) A M Hs Hwf)
    as (l' & s' & A' & M' & -> & Hs' & Hwf' & Hb & U); [done|lia|done|done|lia|].
  cbn [mbind option_bind]. eexists _, A', M'. split; [reflexivity|]. unfold set_field. cbn [phys vmes]. by split_and!.
Qed.

(** ** The data of a page *)

Lemma word_byte_same w j b : 0 <= j → 0 <= b < 256 → word_byte (set_word_byte w j b) j = b.
Proof.
  intros Hj Hb. unfold set_word_byte, word_byte. assert (0 < 256 ^ j) by (apply Z.pow_pos_nonneg; lia).
  rewrite Z.div_add by lia. generalize (w / 256 ^ j). intros q. clear -Hb. word_lia.
Qed.

Lemma word_byte_other w j k b :
  0 <= j → 0 <= k → j ≠ k → 0 <= b < 256 → word_byte (set_word_byte w j b) k = word_byte w k.
Proof.
  intros Hj Hk Hne Hb. unfold set_word_byte, word_byte.
  assert (0 < 256 ^ j) by (apply Z.pow_pos_nonneg; lia).
  destruct (decide (k < j)) as [Hlt|Hge].
  - replace (256 ^ j) with (256 ^ (j - k - 1) * 256 * 256 ^ k) at 2.
    2: { rewrite (Z.mul_comm _ 256), <- Z.pow_succ_r, <- Z.pow_add_r by lia. f_equal. lia. }
    rewrite Z.mul_assoc, Z.div_add by (pose proof (Z.pow_pos_nonneg 256 k); lia).
    by rewrite Z.mul_assoc, Z.mod_add by lia.
  - assert (256 ^ k = 256 ^ j * 256 * 256 ^ (k - j - 1)) as ->.
    { rewrite (Z.mul_comm _ 256), <- Z.pow_succ_r, <- Z.pow_add_r by lia. f_equal. lia. }
    assert (0 < 256 ^ (k - j - 1)) by (apply Z.pow_pos_nonneg; lia).
    rewrite <- !Z.div_div by lia. f_equal. f_equal. rewrite Z.div_add by lia.
    set (q := w / 256 ^ j). word_lia.
Qed.

(** A byte of physical memory. *)
Definition byte_of (s : PhysMem) (pa : Z) : Z := word_byte (word s (pa - pa mod 8)) (pa mod 8).

(** The byte [i] of the page a mapping shows at [va], when its file has the
    bytes [data] (none for an anonymous mapping). *)
Definition page_byte (v : VME) (data : bytes) (va i : Z) : Z :=
  let off := u64 (offset v + u64 (va - start v)) + i in
  if off <? Z.of_nat (length data) then nth (Z.to_nat off) data 0 else 0.

(** The file behind a mapping has the bytes [data]. *)
Definition file_of (v : VME) (data : bytes) : Prop :=
  match node v with None => data = [] | Some nd => Backed (node_io nd) data ∧ wf_bytes data end.

Section Load.
Context (hh : Z) (entries : list MemmapEntry) (P : platform hh entries).

Lemma store_byte_ok f i b s A :
  owned hh entries A f → 0 <= i < 4096 → 0 <= b < 256 → frame_client hh entries s A →
  let s' := store_byte hh (frame_va hh f + i) b s in
  frame_client hh entries s' A ∧ (∀ a, a / 4096 ≠ f → word s' a = word s a)
  ∧ ∀ k, 0 <= k < 4096 → byte_of s' (f * 4096 + k) = if decide (k = i) then b else byte_of s (f * 4096 + k).
Proof using P.
  intros [Hok Hin] Hi Hb C s'. pose proof Hok as [Hf1 Hf2]. pose proof (plat_hhdm _ _ P) as Hh.
  pose proof (plat_hhdm_page _ _ P) as Hh0. change (2 ^ 64) with 18446744073709551616 in *.
  assert ((frame_va hh f + i) mod 8 = i mod 8) as Em by (unfold frame_va; word_lia).
  assert (u64 (frame_va hh f + i - i mod 8 - hh) = f * 4096 + i - i mod 8) as Ea by (unfold frame_va; word_lia).
  assert (∀ k, 0 <= k < 4096 → (f * 4096 + k) mod 8 = k mod 8) as Ek by (intros; word_lia).
  subst s'. unfold store_byte. rewrite Em. unfold store, load. rewrite Ea. fold (word s (f * 4096 + i - i mod 8)).
  set (w := word s (f * 4096 + i - i mod 8)).
  assert ((f * 4096 + i - i mod 8) / 4096 = f) as Ef by word_lia. split_and!.
  - apply fc_store; [done|]. by rewrite Ef.
  - intros a Ha. rewrite word_insert, decide_False; [done|]. intros ->. done.
  - intros k Hk. unfold byte_of. rewrite word_insert, Ek by done.
    destruct (decide (f * 4096 + k - k mod 8 = f * 4096 + i - i mod 8)) as [E|E].
    + rewrite E. fold w. case_decide as Eki.
      * subst k. apply word_byte_same; word_lia.
      * apply word_byte_other; word_lia.
    + by rewrite decide_False by (intros ->; done).
Qed.

Lemma store_bytes_ok f A bs : ∀ i s,
  owned hh entries A f → 0 <= i → i + Z.of_nat (length bs) <= 4096 → wf_bytes bs → frame_client hh entries s A →
  let s' := store_bytes hh (u64 (frame_va hh f + i)) bs s in
  frame_client hh entries s' A ∧ (∀ a, a / 4096 ≠ f → word s' a = word s a)
  ∧ ∀ k, 0 <= k < 4096 → byte_of s' (f * 4096 + k) =
      if decide (i <= k < i + Z.of_nat (length bs)) then nth (Z.to_nat (k - i)) bs 0 else byte_of s (f * 4096 + k).
Proof using P.
  induction bs as [|b bs IH]; intros i s Ho Hi Hle Hbs C s'; subst s'; cbn [store_bytes length] in *.
  { split_and!; try done. intros k Hk. by rewrite decide_False by lia. }
  apply Forall_cons in Hbs as [Hb Hbs]. destruct (store_byte_ok f i b s A Ho ltac:(lia) Hb C) as (C1 & W1 & B1).
  replace (u64 (u64 (frame_va hh f + i) + 1)) with (u64 (frame_va hh f + (i + 1))) by word_lia.
  assert (u64 (frame_va hh f + i) = frame_va hh f + i) as ->.
  { destruct Ho as [[H1 H2] _]. pose proof (plat_hhdm _ _ P). change (2 ^ 64) with 18446744073709551616 in *.
    unfold frame_va. apply u64_id. word_lia. }
  destruct (IH (i + 1) (store_byte hh (frame_va hh f + i) b s) Ho) as (C2 & W2 & B2); [lia|lia|done|done|].
  split_and!; [done|intros a Ha; by rewrite W2, W1|].
  intros k Hk. rewrite B2 by done. destruct (decide (k = i)) as [->|Hne].
  - rewrite decide_False, B1, !decide_True by lia. by rewrite Z.sub_diag.
  - rewrite (B1 k), (decide_False (P := k = i)) by done. destruct (decide (i + 1 <= k < i + 1 + Z.of_nat (length bs))) as [Hin|Hout]; [rewrite decide_True by lia|by rewrite decide_False by lia].
    replace (Z.to_nat (k - i)) with (S (Z.to_nat (k - (i + 1)))) by lia. done.
Qed.

(** [load_page] always gives a page its data: the file's bytes, zeros after its
    end. *)
Lemma load_page_ok v data va f s A :
  frame_client hh entries s A → f ∈ A → file_of v data → is_u64 (offset v) → start v <= va → is_u64 va → is_u64 (start v) →
  (va - start v) mod 4096 = 0 → offset v mod 4096 = 0 →
  ∃ s', load_page hh v va f s = Some s' ∧ frame_client hh entries s' A
    ∧ (∀ a, a / 4096 ≠ f → word s' a = word s a)
    ∧ ∀ i, 0 <= i < 4096 → byte_of s' (f * 4096 + i) = page_byte v data va i.
Proof using P.
  intros C Hf Hdata Ho Hva Hva64 Hst64 Hal Hal'. pose proof (client_owned _ _ P _ _ _ C Hf) as Hown. pose proof Hown as [Hok Hin].
  unfold load_page. rewrite (VA_of_table _ _ P) by done. cbn [mbind option_bind].
  destruct (zero_words_client _ _ P f s A Hok Hin C) as (C0 & Hz & Hw0).
  set (s0 := zero_words hh 512 (frame_va hh f) s) in *. clearbody s0.
  assert (∀ i, 0 <= i < 4096 → byte_of s0 (f * 4096 + i) = 0) as Hzero.
  { intros i Hi. unfold byte_of. replace (f * 4096 + i - (f * 4096 + i) mod 8) with (f * 4096 + 8 * (i / 8)) by word_lia.
    rewrite Hz by word_lia. unfold word_byte. by rewrite Z.div_0_l by (apply Z.pow_nonzero; word_lia). }
  unfold file_of in Hdata. unfold page_byte. destruct (node v) as [nd|].
  2: { subst data. exists s0. split_and!; [done..|]. intros i Hi. rewrite Hzero by done.
       destruct (Z.ltb_spec (u64 (offset v + u64 (va - start v)) + i) (Z.of_nat (length (@nil Z)))); [cbn in *; word_lia|done]. }
  destruct Hdata as [B Hwf]. pose proof (backed_small (d := node_io nd) (data := data)) as Hsm.
  change (2 ^ 31) with 2147483648 in Hsm. rewrite (backed_size (d := node_io nd) (data := data)).
  assert (u64 (u64 (va - start v) / PAGE_SIZE * PAGE_SIZE) = u64 (va - start v)) as -> by (unfold PAGE_SIZE, FRAME_SIZE; word_lia).
  set (off := u64 (offset v + u64 (va - start v))).
  assert (is_u64 off ∧ off mod 4096 = 0) as [Hoff Hoff'] by (subst off; split; word_lia). clearbody off.
  set (len := Z.of_nat (length data)) in *. destruct (Z.leb_spec len off) as [Hpast|Hlt].
  { exists s0. split_and!; [done..|]. intros i Hi. rewrite Hzero by done. destruct (Z.ltb_spec (off + i) len); [lia|done]. }
  set (n := if len <? u64 (off + PAGE_SIZE) then u64 (len - off) else PAGE_SIZE).
  assert (n = Z.min 4096 (len - off)) as En.
  { subst n. unfold PAGE_SIZE, FRAME_SIZE. rewrite !u64_id by word_lia. destruct (Z.ltb_spec len (off + 4096)); lia. }
  clearbody n. rewrite !u32_id by word_lia. rewrite (read_all_ok _ data) by word_lia. cbn [mbind option_bind].
  rewrite Z.eqb_refl. eexists. split; [reflexivity|].
  assert (Z.of_nat (length (slice data off n)) = n) as El by (apply length_slice; word_lia).
  destruct (store_bytes_ok f A (slice data off n) 0 s0 Hown) as (C1 & W1 & B1);
    [done|lia|apply wf_bytes_take; by apply wf_bytes_drop|done|].
  assert (u64 (frame_va hh f + 0) = frame_va hh f) as Eva.
  { destruct Hok as [H1 H2]. pose proof (plat_hhdm _ _ P). change (2 ^ 64) with 18446744073709551616 in *.
    unfold frame_va. rewrite Z.add_0_r. apply u64_id. word_lia. }
  rewrite Eva in C1, W1, B1. split_and!; [done|intros a Ha; by rewrite W1, Hw0|].
  intros i Hi. rewrite B1, El, Hzero by done. destruct (Z.ltb_spec (off + i) len) as [Hi1|Hi1].
  - rewrite decide_True by lia. rewrite !nth_lookup. rewrite lookup_slice by lia. replace (Z.to_nat off + Z.to_nat (i - 0))%nat with (Z.to_nat (off + i)) by word_lia. done.
  - by rewrite decide_False by lia.
Qed.
End Load.

(** ** Page faults *)

Section Fault.
Context (hh : Z) (entries : list MemmapEntry) (P : platform hh entries).
Context (region : Z → Prop) (R1 : distinct_pages region) (root : Z).
Let memmap := Some entries.

Abbreviation aspace := (aspace hh entries region root) (only parsing).

(** The frame a fault loads: new, not mapped yet, and with the page's data. *)
Lemma load_frame_ok v A T M n m data va lo limit :
  aspace (phys v) A T M → room entries (S n) A → wf_vmes lo limit [m] → 0 <= lo → limit <= 2 ^ 64 →
  start m <= va < end_ m → va mod 4096 = 0 → file_of m data →
  ∃ f s', load_frame hh m va v = Some (f, v .[ phys := s' ]) ∧ f ∉ A
    ∧ aspace s' ({[f]} ∪ A) T M ∧ unmapped_frame f ({[f]} ∪ A) T M ∧ room entries n ({[f]} ∪ A)
    ∧ (∀ a, a / 4096 ≠ f → word s' a = word (phys v) a)
    ∧ ∀ i, 0 <= i < 4096 → byte_of s' (f * 4096 + i) = page_byte m data va i.
Proof using P.
  intros Hs R ((Hse & Hs1 & He1 & Ho & Ho') & Hlo & Hlim) Hlo0 Hlimit Hva Hal Hd.
  cbn in Hlim. change (2 ^ 64) with 18446744073709551616 in Hlimit.
  destruct (as_alloc _ _ P _ _ _ _ _ _ n Hs R) as (f & s1 & E & Hf & Hs' & Hu & R' & Hw1 & _). unfold load_frame. rewrite E.
  cbn [mbind option_bind].
  destruct (load_page_ok _ _ P m data va f s1 ({[f]} ∪ A)) as (s2 & -> & C2 & Hw2 & Hb);
    [apply (as_client _ _ _ _ _ _ _ _ Hs')|apply Hu|done|done|lia|word_lia|word_lia|word_lia|done|].
  exists f, s2. split_and!; try done.
  - eapply as_write; [exact Hs'|done|apply Hu|done].
  - intros a Ha. by rewrite Hw2, Hw1.
Qed.

(** Mapping a frame that is not mapped yet. *)
Lemma map_new_ok n s A T M vpn f :
  aspace s A T M → room entries (3 + n) A → region vpn → unmapped_frame f A T M →
  ∃ s' A' T', map_in_root hh (root * 4096) vpn f true true s = Some s'
    ∧ aspace s' A' T' (<[vpn := f]> M) ∧ A ⊆ A'
    ∧ (∀ g, g ∈ A → g ∉ T → g ∉ T' ∧ ∀ a, a / 4096 = g → word s' a = word s a) ∧ room entries n A'.
Proof using P R1.
  intros Hs R Hv (HfA & HfT & HfM).
  destruct (as_map _ _ P _ R1 _ n _ _ _ _ _ _ Hs R Hv HfA HfT HfM) as (s' & A' & T' & E & Hs' & G & R').
  exists s', A', T'. split_and!; [done..|apply (grow_A _ _ _ _ _ _ _ _ G)| |done].
  intros g HgA HgT. assert (g ∉ T') as HgT'.
  { intros Hin. destruct (grow_new _ _ _ _ _ _ _ _ G g Hin) as [|[_ ?]]; done. }
  split; [done|]. intros a <-. by apply (grow_words _ _ _ _ _ _ _ _ G).
Qed.

Lemma VPN_VA_page va : check_canonical va = Some va → VPN_VA va = Some (va / 4096).
Proof using.
  intros E. unfold VPN_VA. rewrite E. cbn [mbind option_bind]. unfold VPN_of_VA, LOG_FRAME_SIZE. f_equal.
  by apply shiftr_div.
Qed.

Lemma byte_of_frame s s' g i :
  (∀ a, a / 4096 = g → word s' a = word s a) → 0 <= i < 4096 → byte_of s' (g * 4096 + i) = byte_of s (g * 4096 + i).
Proof using. intros Hw Hi. unfold byte_of. rewrite Hw; [done|]. word_lia. Qed.

(** The two commits, one after the other. *)
Lemma commits_ok v va s w l A T M vpn :
  va = vpn * 4096 → aspace s A T M → room entries 3 A → common_cr3 v = root * 4096 → region vpn → M !! vpn = None →
  check_canonical va = Some va → unmapped_frame w A T M → unmapped_frame l A T M → w ≠ l →
  ∃ v3 v4 A' T', shared_commit hh memmap va w (v .[ phys := s ]) = Some v3
    ∧ shared_commit hh memmap va l v3 = Some v4
    ∧ aspace (phys v4) (A' ∖ {[l]}) T' (<[vpn := w]> M) ∧ A ⊆ A'
    ∧ ∀ a, a / 4096 = w → word (phys v4) a = word s a.
Proof using P R1.
  intros -> Hs R Hcr Hv HM Hcan Hw Hl Hne.
  destruct (map_new_ok 0 s A T M vpn w Hs R Hv Hw) as (s3 & A3 & T3 & E3 & Hs3 & HA & Hkeep & _).
  unfold shared_commit at 1. unfold set_field. cbn [phys common_cr3]. rewrite Hcr.
  pose proof (as_find_pte _ _ P _ _ _ _ _ _ _ Hs Hv) as Hp. rewrite HM in Hp. rewrite Hp. cbn [mbind option_bind].
  rewrite VPN_VA_page, Z.div_mul by done. cbn [mbind option_bind]. rewrite E3. cbn [mbind option_bind].
  pose proof (as_find_pte _ _ P _ _ _ _ _ _ vpn Hs3 Hv) as Hp3. rewrite lookup_insert_eq in Hp3.
  destruct Hp3 as (q & a & Eq & _ & _ & _ & Hpr & _).
  assert (unmapped_frame l A3 T3 (<[vpn := w]> M)) as Hl3.
  { destruct Hl as (HlA & HlT & HlM). split_and!; [by apply HA|by apply Hkeep|]. intros v'.
    destruct (decide (v' = vpn)) as [->|]; [rewrite lookup_insert_eq; congruence|by rewrite lookup_insert_ne]. }
  destruct (as_free _ _ P _ _ _ _ _ _ l Hs3 Hl3) as (s4 & E4 & Hs4 & Hw4).
  eexists _, _, A3, T3. split; [reflexivity|]. unfold shared_commit, set_field. cbn [phys common_cr3]. rewrite ?Hcr, Eq.
  cbn [mbind option_bind]. rewrite Hpr. fold memmap in E4. rewrite E4. cbn [mbind option_bind].
  split; [reflexivity|]. cbn [phys]. split_and!; [done|done|].
  intros b Hb. rewrite Hw4 by congruence. destruct Hw as (HwA & HwT & _). by apply (Hkeep w).
Qed.

(** C27: Two threads that fault on the same page of a shared mapping both load a frame, since
    they load it without the lock.  Whichever of the two maps its frame first, the page ends up
    mapped to that frame and the other frame goes back to the allocator. *)
Theorem shared_fault_race v A T M vpn m data lo limit (first : bool) :
  aspace (phys v) A T M → room entries 5 A → common_cr3 v = root * 4096 → region vpn → M !! vpn = None →
  check_canonical (vpn * 4096) = Some (vpn * 4096) →
  find_vme (shared_vmes v) (vpn * 4096) = Some m → wf_vmes lo limit (shared_vmes v) → 0 <= lo → limit <= 2 ^ 64 → file_of m data →
  shared_lookup hh (vpn * 4096) v = Some (Some (m, false))
  ∧ ∃ f1 v1 f2 v2 v3 v4 A' T', load_frame hh m (vpn * 4096) v = Some (f1, v1)
    ∧ load_frame hh m (vpn * 4096) v1 = Some (f2, v2)
    ∧ let winner := if first then f1 else f2 in
      let loser := if first then f2 else f1 in
      shared_commit hh memmap (vpn * 4096) winner v2 = Some v3
    ∧ shared_commit hh memmap (vpn * 4096) loser v3 = Some v4
    ∧ aspace (phys v4) (A' ∖ {[loser]}) T' (<[vpn := winner]> M) ∧ winner ∉ A ∧ {[winner]} ∪ A ⊆ A'
    ∧ ∀ i, 0 <= i < 4096 → byte_of (phys v4) (winner * 4096 + i) = page_byte m data (vpn * 4096) i.
Proof using P R1.
  intros Hs R Hcr Hv HM Hcan Hfind Hwf Hlo Hlim Hd.
  destruct (find_vme_range _ _ _ _ _ Hwf Hfind) as (Hlom & Hva & Hend & Hok).
  assert (wf_vmes lo limit [m]) as Hwfm by (cbn; by split_and!).
  assert (vpn * 4096 mod 4096 = 0) as Hal by (by rewrite Z.mod_mul).
  unfold shared_lookup. rewrite Hfind, Hcr. pose proof (as_find_pte _ _ P _ _ _ _ _ _ _ Hs Hv) as Hp. rewrite HM in Hp.
  rewrite Hp. cbn [mbind option_bind]. split; [done|].
  destruct (load_frame_ok v A T M 4 m data (vpn * 4096) lo limit) as (f1 & s1 & E1 & Hf1 & Hs1 & Hu1 & R1' & Hw1 & Hb1); [done..|].
  pose (v1 := v .[ phys := s1 ]).
  destruct (load_frame_ok v1 ({[f1]} ∪ A) T M 3 m data (vpn * 4096) lo limit Hs1 R1')
    as (f2 & s2 & E2 & Hf2 & Hs2 & Hu2 & R2' & Hw2 & Hb2); [done..|].
  exists f1, (v .[ phys := s1 ]), f2, (v .[ phys := s2 ]).
  assert (f1 ≠ f2) as Hne by (intros ->; exact (Hf2 (proj1 Hu1))).
  assert (unmapped_frame f1 ({[f2]} ∪ ({[f1]} ∪ A)) T M) as Hu1'.
  { destruct Hu1 as (? & ? & ?). split_and!; [by apply elem_of_union_r|done..]. }
  assert (∀ i, 0 <= i < 4096 → byte_of s2 (f1 * 4096 + i) = page_byte m data (vpn * 4096) i) as Hb1'.
  { intros i Hi. rewrite <- Hb1 by done. apply byte_of_frame; [|done]. intros a <-. by apply Hw2. }
  destruct (commits_ok v (vpn * 4096) s2 (if first then f1 else f2) (if first then f2 else f1)
    ({[f2]} ∪ ({[f1]} ∪ A)) T M vpn) as (v3 & v4 & A' & T' & E3 & E4 & Hs4 & HA & Hw); try done; try by destruct first.
  exists v3, v4, A', T'. split_and!; [done|done|done|done|done| | |].
  - destruct first; [done|]. intros ?. apply Hf2. by apply elem_of_union_r.
  - etrans; [|exact HA]. intros g. rewrite !elem_of_union, !elem_of_singleton. destruct first; tauto.
  - intros i Hi. rewrite byte_of_frame with (s := s2); [by destruct first; auto| |done]. exact Hw.
Qed.
End Fault.

(** C7: A fault on a page of a private mapping always ends with the page mapped, open to
    user code, to a new frame that holds the page's data: the file's bytes, zeros from the end of
    the file on, or zeros everywhere for an anonymous mapping.  No other page changes,
    neither its frame nor its data. *)
Theorem page_fault_loads hh entries root v A T M m data cr2 error_code :
  platform hh entries → hh + CONFIGURED_MAX_PA < 2 ^ 64 →
  aspace hh entries low_page root (phys v) A T M → cr3 v = root * 4096 → room entries 4 A →
  0 <= cr2 < 2 ^ 47 → Z.land error_code 1 = 0 →
  let vpn := cr2 / 4096 in
  M !! vpn = None → wf_vmes PRIVATE_BASE (2 ^ 47) (vmes v) → find_vme (vmes v) (vpn * 4096) = Some m → file_of m data →
  ∃ f s' A' T', pageFaultHandler hh (Some entries) false cr2 error_code v = Some (v .[ phys := s' ])
    ∧ f ∉ A ∧ aspace hh entries low_page root s' A' T' (<[vpn := f]> M) ∧ {[f]} ∪ A ⊆ A'
    ∧ translate 3 root vpn 7 s' = Some (f, 7)
    ∧ (∀ i, 0 <= i < 4096 → byte_of s' (f * 4096 + i) = page_byte m data (vpn * 4096) i)
    ∧ ∀ vpn' g i, M !! vpn' = Some g → 0 <= i < 4096 → byte_of s' (g * 4096 + i) = byte_of (phys v) (g * 4096 + i).
Proof.
  intros P Hmax Hs Hroot R Hcr2 Herr vpn HM Hwf Hfind Hd. pose proof (plat_hhdm _ _ P) as Hh.
  change (2 ^ 64) with 18446744073709551616 in *. change (2 ^ 47) with 140737488355328 in *.
  destruct (find_vme_range _ _ _ _ _ Hwf Hfind) as (Hlo & Hva & Hend & Hok).
  assert (page_align_down cr2 = vpn * 4096) as Epage by (apply align_down; word_lia).
  assert (low_page vpn) as Hv by (subst vpn; unfold low_page; change (2 ^ 35) with 34359738368; word_lia).
  unfold pageFaultHandler. rewrite Herr, Epage. cbn [Z.eqb negb].
  assert (shared_base hh = hh + 134217728) as -> by (unfold shared_base, CONFIGURED_MAX_PA in *; word_lia).
  rewrite (proj2 (Z.leb_gt _ (vpn * 4096))) by lia. cbn [andb]. unfold private_fault. rewrite Hfind.
  destruct (load_frame_ok _ _ P low_page root v A T M 3 m data (vpn * 4096) PRIVATE_BASE (2 ^ 47))
    as (f & s1 & -> & Hf & Hs1 & Hu & R1 & Hw1 & Hb); try done.
  { by rewrite Z.mod_mul. }
  cbn [mbind option_bind].
  assert (check_canonical (vpn * 4096) = Some (vpn * 4096)) as Hcan by (apply check_canonical_low; change (2 ^ 47) with 140737488355328; subst vpn; word_lia).
  rewrite VPN_VA_page, Z.div_mul by done. cbn [mbind option_bind]. change (cr3 (v .[ phys := s1 ])) with (cr3 v). rewrite Hroot.
  destruct (map_new_ok _ _ P low_page low_distinct root 0 s1 _ T M vpn f Hs1 R1 Hv Hu) as (s' & A' & T' & E & Hs' & HA & Hkeep & _).
  change (phys (v .[ phys := s1 ])) with s1. rewrite E. cbn [mbind option_bind].
  exists f, s', A', T'. split_and!; try done.
  - rewrite (as_translate _ _ P _ _ _ _ _ _ _ Hs' Hv). by rewrite lookup_insert_eq.
  - intros i Hi. rewrite byte_of_frame with (s := s1); [by apply Hb| |done]. by apply Hkeep; apply Hu.
  - intros vpn' g i Hg Hi. destruct (as_dom _ _ _ _ _ _ _ _ Hs1 vpn' g Hg) as (_ & HgA & HgT).
    destruct (as_dom _ _ _ _ _ _ _ _ Hs vpn' g Hg) as (_ & HgA' & _).
    apply byte_of_frame; [|done]. intros a Ha. destruct (Hkeep g HgA HgT) as [_ ->]; [|done]. apply Hw1. congruence.
Qed.

(** ** A concrete thread

    One anonymous mapping of four pages, nothing mapped yet. *)

Definition demo_vme : VME := mkVME 4096 20480 None 0 false.
Definition demo_vmm : Vmm := mkVmm demo_root (65536 * 4096) (65536 * 4096) [demo_vme] [demo_vme] 1 1.

Lemma demo_aspace region : aspace demo_hhdm demo_map region 65536 demo_root {[65536]} {[65536]} ∅.
Proof.
  destruct demo_root_ok as (C & _). apply as_zero; [apply demo_platform|exact C|by apply elem_of_singleton|].
  apply (alloc_zeroed demo_hhdm demo_map demo_start ∅ 65536 demo_root);
    [apply demo_platform|apply fc_init|vm_compute; reflexivity].
Qed.

Lemma demo_room : room demo_map 5 {[65536]}.
Proof.
  exists [1; 2; 3; 4; 65537]. split_and!; [|done|].
  - repeat constructor; rewrite ?elem_of_cons, ?elem_of_nil; lia.
  - intros p Hp. rewrite !elem_of_cons, elem_of_nil in Hp. split; [|rewrite elem_of_singleton; lia].
    destruct (decide (p = 65537)) as [->|].
    + exists (mkEntry 0 268435456 8192). split_and!; [right; right; left|reflexivity|]. unfold range_frame. cbn. lia.
    + exists (mkEntry 0 4096 16384). split_and!; [left|reflexivity|]. unfold range_frame. cbn. lia.
Qed.

Lemma demo_wf : wf_vmes PRIVATE_BASE (2 ^ 47) [demo_vme].
Proof. cbn [wf_vmes]. unfold vme_ok. by split_and!. Qed.

Lemma munmap_removes_range_witness :
  ∃ v', munmap demo_hhdm (Some demo_map) 8192 4096 demo_vmm = Some (0, v')
    ∧ backing (vmes v') 8192 = None ∧ backing (vmes v') 12288 = Some (None, 8192).
Proof.
  destruct (munmap_removes_range demo_hhdm demo_map 65536 demo_vmm {[65536]} {[65536]} ∅ 8192 4096)
    as (v' & A' & M' & E & _ & _ & Hb & _);
    [apply demo_platform|done|apply demo_aspace|done|apply demo_wf|done..|].
  exists v'. split; [exact E|]. rewrite !Hb. split; [done|reflexivity].
Defined.

Lemma page_fault_loads_witness :
  ∃ f s', pageFaultHandler demo_hhdm (Some demo_map) false 5000 6 demo_vmm = Some (demo_vmm .[ phys := s' ])
    ∧ translate 3 65536 1 7 s' = Some (f, 7) ∧ byte_of s' (f * 4096 + 904) = 0.
Proof.
  destruct (page_fault_loads demo_hhdm demo_map 65536 demo_vmm {[65536]} {[65536]} ∅ demo_vme [] 5000 6)
    as (f & s' & A' & T' & E & _ & _ & _ & Ht & Hb & _);
    [apply demo_platform|done|apply demo_aspace|done|apply room_S, demo_room|done|done|apply lookup_empty|apply demo_wf|
     reflexivity|reflexivity|].
  exists f, s'. split_and!; [exact E|exact Ht|]. rewrite Hb by lia. reflexivity.
Defined.

Lemma shared_fault_race_witness :
  ∃ f1 v1 f2 v2 v3 v4, load_frame demo_hhdm demo_vme 8192 demo_vmm = Some (f1, v1)
    ∧ load_frame demo_hhdm demo_vme 8192 v1 = Some (f2, v2)
    ∧ shared_commit demo_hhdm (Some demo_map) 8192 f2 v2 = Some v3
    ∧ shared_commit demo_hhdm (Some demo_map) 8192 f1 v3 = Some v4.
Proof.
  destruct (shared_fault_race demo_hhdm demo_map demo_platform low_page low_distinct 65536 demo_vmm {[65536]} {[65536]} ∅
    2 demo_vme [] PRIVATE_BASE (2 ^ 47) false) as (_ & f1 & v1 & f2 & v2 & v3 & v4 & A' & T' & E1 & E2 & E3 & E4 & _);
    [apply demo_aspace|apply demo_room|done|done|apply lookup_empty|reflexivity|reflexivity|apply demo_wf|done|done|done|].
  exists f1, v1, f2, v2, v3, v4. by split_and!.
Defined.

(** A length within a page of 2^64 is rounded up to zero: [mmap] reports success, at the
    first address of the range when nothing lies below it, and maps nothing. *)
Theorem mmap_wraps hh length v :
  2 ^ 64 - 4096 < length < 2 ^ 64 → Forall (λ m, PRIVATE_BASE <= start m) (vmes v) →
  PRIVATE_BASE < hh < 2 ^ 64 →
  mmap hh length MAP_ANONYMOUS None 0 v = (PRIVATE_BASE, v .[ vmes := mkVME PRIVATE_BASE PRIVATE_BASE None 0 false :: vmes v ])
  ∧ ∀ va, find_vme (mkVME PRIVATE_BASE PRIVATE_BASE None 0 false :: vmes v) va = find_vme (vmes v) va.
Proof.
  change (2 ^ 64) with 18446744073709551616. intros Hl Hv Hh. split.
  - unfold mmap. rewrite (proj2 (Z.eqb_neq length 0)) by lia. cbn [negb Z.eqb].
    assert (page_align_up length = 0) as ->.
    { unfold page_align_up, PAGE_MASK, PAGE_SIZE, FRAME_SIZE.
      change (Z.land (u64 (length + (4096 - 1))) 18446744073709547520) with (page_align_down (u64 (length + (4096 - 1)))).
      rewrite align_down by word_lia. word_lia. }
    assert (find_gap PRIVATE_BASE 0 (vmes v) = (PRIVATE_BASE, [], vmes v)) as E.
    { destruct (vmes v) as [|m l]; [done|]. apply Forall_cons in Hv as [Hm _]. cbn [find_gap].
      rewrite (proj2 (Z.leb_le _ _) Hm), (proj2 (Z.leb_le 0 _)) by word_lia. done. }
    unfold insert_vme. rewrite E. unfold fits_in_range, PRIVATE_BASE, PAGE_SIZE, FRAME_SIZE in *.
    rewrite (proj2 (Z.ltb_lt _ hh)), (proj2 (Z.leb_le 0 _)) by word_lia. done.
  - intros va. rewrite find_vme_cons. cbn [start end_]. by rewrite decide_False by lia.
Qed.

Lemma mmap_wraps_witness :
  (mmap demo_hhdm 18446744073709551615 MAP_ANONYMOUS None 0 demo_vmm).1 = 4096.
Proof.
  destruct (mmap_wraps demo_hhdm 18446744073709551615 demo_vmm) as [-> _];
    [done|by repeat constructor|done|reflexivity].
Defined.
