(* ===== verification/VirtioInit.v ===== *)
(** * Bringing up the network card ([virtio_net.cc], [virtio_net_init_pci])

    The walk of the PCI capabilities, the mapping of the card's registers, the
    negotiation of features, the set-up of the two queues and of their memory.
    Registers are read and written through the class [VirtioDevice], which says what
    a card may do with them; [log] is the sequence of accesses.  The specification is
    [follow], the order in which the virtio standard wants them.  The address of a
    register in its window is left symbolic, and the pages of the rings hold what
    [VirtioHw] says of a cleared page.  The fields of [g_hw] that are only written
    (the function, the layout, the pointers to the windows) are left out. *)

From stdpp Require Import gmap.
From S2P Require Import Prelude Pcie VirtioHw VirtioNet PhysMem PageTable Vme Vmm.

(** ** Registers *)

(** The fields of [VirtioPciCommonCfg] that the driver uses, the bytes of the
    device window, the doorbells. *)
Inductive Reg :=
| DeviceFeatureSelect | DeviceFeature | DriverFeatureSelect | DriverFeature
| NumQueues | DeviceStatus | QueueSelect | QueueSize | QueueEnable | QueueNotifyOff
| QueueDesc | QueueDriver | QueueDevice | DeviceCfg (i : Z) | Doorbell (a : Z).
#[export] Instance reg_eq_dec : EqDecision Reg.
Proof. solve_decision. Defined.

(** The value of a read, at the width of the field. *)
Definition field (r : Reg) (v : Z) : Z :=
  match r with
  | DeviceStatus | DeviceCfg _ => u8 v
  | NumQueues | QueueSelect | QueueSize | QueueEnable | QueueNotifyOff | Doorbell _ => u16 v
  | QueueDesc | QueueDriver | QueueDevice => u64 v
  | _ => u32 v
  end.

Inductive Access := Rd (r : Reg) (v : Z) | Wr (r : Reg) (v : Z) | PciWr (a v : Z).

(** The bits of a status byte, without [DEVICE_NEEDS_RESET], which the card may set
    at any time. *)
Definition status_in (x y : Z) : Prop := Z.land (Z.land x 191) (Z.lnot y) = 0.

(** A card.  It holds a status of which it reports a part, and keeps what it
    reported; a status that is written, other than the reset, bounds what it
    holds; no other access adds to it. *)
Class VirtioDevice (D : Type) := {
  dev_read : Reg → D → Z * D;
  dev_write : Reg → Z → D → D;
  dev_status : D → Z;
  read_status d : status_in (dev_read DeviceStatus d).1 (dev_status d)
    ∧ status_in (dev_status (dev_read DeviceStatus d).2) (dev_read DeviceStatus d).1;
  read_other r d : r ≠ DeviceStatus → status_in (dev_status (dev_read r d).2) (dev_status d);
  write_status v d : v ≠ 0 → status_in (dev_status (dev_write DeviceStatus v d)) v;
  write_other r v d : r ≠ DeviceStatus → status_in (dev_status (dev_write r v d)) (dev_status d)
}.

(** The card, the accesses so far, virtual memory and the globals. *)
Record Init (D : Type) := mkInit { dev : D; log : list Access; vmm : Vmm; raw : RawNic }.
Arguments mkInit {D}. Arguments dev {D}. Arguments log {D}. Arguments vmm {D}. Arguments raw {D}.
#[export] Instance eta_Init D : Eta (Init D) := fun s => mkInit (dev s) (log s) (vmm s) (raw s).

Definition PCI_CAP_ID_VENDOR : Z := 9.
Definition PCI_REG_CAP_PTR : Z := 0x34.
Definition VIRTIO_PCI_CAP_COMMON_CFG : Z := 1.
Definition VIRTIO_PCI_CAP_NOTIFY_CFG : Z := 2.
Definition VIRTIO_PCI_CAP_ISR_CFG : Z := 3.
Definition VIRTIO_PCI_CAP_DEVICE_CFG : Z := 4.
Definition VIRTIO_STATUS_ACKNOWLEDGE : Z := 1.
Definition VIRTIO_STATUS_DRIVER : Z := 2.
Definition VIRTIO_STATUS_DRIVER_OK : Z := 4.
Definition VIRTIO_STATUS_FEATURES_OK : Z := 8.
Definition VIRTIO_STATUS_FAILED : Z := 128.
Definition VIRTIO_F_VERSION_1 : Z := 2 ^ 32.
Definition VIRTIO_NET_F_MAC : Z := 2 ^ 5.
Definition VIRTIO_NET_F_STATUS : Z := 2 ^ 16.

(** ** The capabilities *)

Record VirtioPciRegion := mkRegion { present : bool; r_bar : Z; r_offset : Z; r_length : Z }.
#[export] Instance region_eq_dec : EqDecision VirtioPciRegion.
Proof. solve_decision. Defined.
Record VirtioPciLayout := mkLayout {
  l_common : VirtioPciRegion; l_notify : VirtioPciRegion; l_isr : VirtioPciRegion;
  l_device : VirtioPciRegion; notify_multiplier : Z
}.
#[export] Instance eta_layout : Eta VirtioPciLayout := fun l =>
  mkLayout (l_common l) (l_notify l) (l_isr l) (l_device l) (notify_multiplier l).
Definition no_region : VirtioPciRegion := mkRegion false 0 0 0.
Definition no_layout : VirtioPciLayout := mkLayout no_region no_region no_region no_region 0.

Definition store_region (b off len : Z) : VirtioPciRegion := mkRegion true b off len.

Section capabilities.
Context (cfg : Z → Z) (fn : PciFunction).

Definition cap8 (a : Z) : Z := pci_config_read8 cfg (bus fn) (device fn) (function fn) (u8 a).
Definition cap32 (a : Z) : Z := pci_config_read32 cfg (bus fn) (device fn) (function fn) (u8 a).

(** The body of the loop, for the capability at [cap]. *)
Definition parse_cap (cap : Z) (layout : VirtioPciLayout) : VirtioPciLayout :=
  if cap8 cap =? PCI_CAP_ID_VENDOR then
    let cfg_type := cap8 (cap + 3) in
    let b := cap8 (cap + 4) in
    let off := cap32 (cap + 8) in
    let len := cap32 (cap + 12) in
    if b <? 6 then
      if cfg_type =? VIRTIO_PCI_CAP_COMMON_CFG then layout .[ l_common := store_region b off len ]
      else if cfg_type =? VIRTIO_PCI_CAP_NOTIFY_CFG then
        layout .[ l_notify := store_region b off len ] .[ notify_multiplier := cap32 (cap + 16) ]
      else if cfg_type =? VIRTIO_PCI_CAP_ISR_CFG then layout .[ l_isr := store_region b off len ]
      else if cfg_type =? VIRTIO_PCI_CAP_DEVICE_CFG then layout .[ l_device := store_region b off len ]
      else layout
    else layout
  else layout.

Definition next_cap (cap : Z) : Z := u8 (Z.land (cap8 (cap + 1)) 0xfc).

Fixpoint parse_caps (n : nat) (cap : Z) (layout : VirtioPciLayout) : VirtioPciLayout :=
  match n with
  | O => layout
  | S n => if cap =? 0 then layout else parse_caps n (next_cap cap) (parse_cap cap layout)
  end.

Definition parse_virtio_pci_layout : bool * VirtioPciLayout :=
  let layout := parse_caps 48 (u8 (Z.land (cap8 PCI_REG_CAP_PTR) 0xfc)) no_layout in
  (present (l_common layout) && present (l_notify layout), layout).
End capabilities.

(** ** The driver *)

Section driver.
Context {D : Type} `{VirtioDevice D} (cfg : Z → Z) (hhdm_offset : Z).

Definition rd (r : Reg) (s : Init D) : Z * Init D :=
  let '(v, d) := dev_read r (dev s) in
  (field r v, s .[ dev := d ] .[ log := log s ++ [Rd r (field r v)] ]).
Definition wr (r : Reg) (v : Z) (s : Init D) : Init D :=
  s .[ dev := dev_write r v (dev s) ] .[ log := log s ++ [Wr r v] ].

Definition map_pci_region (fn : PciFunction) (region : VirtioPciRegion) (s : Init D) : option (Z * Init D) :=
  if negb (present region) then Some (0, s)
  else
    let base := pci_read_bar cfg fn (r_bar region) in
    if base =? 0 then Some (0, s)
    else
      '(va, v) ← map_mmio hhdm_offset (u64 (base + r_offset region)) (r_length region) (vmm s);
      Some (va, s .[ vmm := v ]).

Definition read_device_features (s : Init D) : Z * Init D :=
  let s := wr DeviceFeatureSelect 0 s in
  let '(low, s) := rd DeviceFeature s in
  let s := wr DeviceFeatureSelect 1 s in
  let '(high, s) := rd DeviceFeature s in
  (Z.lor low (u64 (Z.shiftl high 32)), s).

Definition write_driver_features (features : Z) (s : Init D) : Init D :=
  let s := wr DriverFeatureSelect 0 s in
  let s := wr DriverFeature (u32 features) s in
  let s := wr DriverFeatureSelect 1 s in
  wr DriverFeature (u32 (Z.shiftr features 32)) s.

Definition add_device_status (status : Z) (s : Init D) : Init D :=
  let '(old, s) := rd DeviceStatus s in
  wr DeviceStatus (u8 (Z.lor old status)) s.

Fixpoint wait_for_reset (n : nat) (s : Init D) : bool * Init D :=
  match n with
  | O => (false, s)
  | S n => let '(v, s) := rd DeviceStatus s in if v =? 0 then (true, s) else wait_for_reset n s
  end.

(** A new page, with its physical address; the allocator clears it. *)
Definition new_page (s : Init D) : option (Z * Init D) :=
  '(ppn, p) ← alloc hhdm_offset (phys (vmm s));
  _ ← VA_of_PPN hhdm_offset ppn;
  let v := vmm s in
  Some (PA_of_PPN ppn, s .[ vmm := v .[ phys := p ] ]).

Definition alloc_queue_pages (q : VirtioQueue) (s : Init D) : option (VirtioQueue * Init D) :=
  '(desc_pa, s) ← new_page s;
  '(avail_pa, s) ← new_page s;
  '(used_pa, s) ← new_page s;
  Some (q .[ q_desc := replicate QSIZE (mkDesc addr_null 0 0 0) ] .[ q_avail := avail_zero ] .[ q_used := used_zero ]
          .[ q_desc_pa := desc_pa ] .[ q_avail_pa := avail_pa ] .[ q_used_pa := used_pa ]
          .[ q_used_consume := 0 ] .[ q_pending := 0 ], s).

Fixpoint alloc_packet_buffers (n : nat) (s : Init D) : option (list VirtioBuffer * Init D) :=
  match n with
  | O => Some ([], s)
  | S n =>
      '(pa, s) ← new_page s;
      '(bufs, s) ← alloc_packet_buffers n s;
      Some (mkBuffer (replicate 4096 0) pa false 0 :: bufs, s)
  end.

Definition setup_virtqueue (notify_base mult queue_index : Z) (q : VirtioQueue) (s : Init D)
    : option (bool * VirtioQueue * Init D) :=
  let s := wr QueueSelect queue_index s in
  let '(max_size, s) := rd QueueSize s in
  if max_size <? VIRTIO_NET_QUEUE_SIZE then Some (false, q, s)
  else
    '(q, s) ← alloc_queue_pages q s;
    let s := wr QueueSize VIRTIO_NET_QUEUE_SIZE s in
    let s := wr QueueDesc (q_desc_pa q) s in
    let s := wr QueueDriver (q_avail_pa q) s in
    let s := wr QueueDevice (q_used_pa q) s in
    let '(notify_off, s) := rd QueueNotifyOff s in
    let q := q .[ q_notify := Some (u64 (notify_base + u32 (notify_off * mult))) ] in
    Some (true, q, wr QueueEnable 1 s).

Definition set_hw (h : VirtioHwState) (s : Init D) : Init D :=
  let n := raw s in s .[ raw := n .[ g_hw := h ] ].
Definition set_backend (b : BackendKind) (s : Init D) : Init D :=
  let n := raw s in let g := g_net n in s .[ raw := n .[ g_net := g .[ backend := b ] ] ].
(** The doorbell writes that [init_rx_buffers_locked] made reach the card. *)
Definition ring (bells : list (Z * Z)) (s : Init D) : Init D := foldl (λ s b, wr (Doorbell b.1) b.2 s) s bells.

(** The reset and the features; [None] for a failure. *)
Definition negotiate (s : Init D) : option Z * Init D :=
  let s := wr DeviceStatus 0 s in
  let '(reset, s) := wait_for_reset (Z.to_nat 1000000) s in
  if negb reset then (None, s)
  else
    let s := add_device_status VIRTIO_STATUS_ACKNOWLEDGE s in
    let s := add_device_status VIRTIO_STATUS_DRIVER s in
    let '(offered, s) := read_device_features s in
    if Z.land offered VIRTIO_F_VERSION_1 =? 0 then (None, wr DeviceStatus VIRTIO_STATUS_FAILED s)
    else
      let wanted := VIRTIO_F_VERSION_1 in
      let wanted := if negb (Z.land offered VIRTIO_NET_F_MAC =? 0) then Z.lor wanted VIRTIO_NET_F_MAC else wanted in
      let wanted := if negb (Z.land offered VIRTIO_NET_F_STATUS =? 0) then Z.lor wanted VIRTIO_NET_F_STATUS else wanted in
      let s := write_driver_features wanted s in
      let s := add_device_status VIRTIO_STATUS_FEATURES_OK s in
      let '(status, s) := rd DeviceStatus s in
      if Z.land status VIRTIO_STATUS_FEATURES_OK =? 0 then (None, wr DeviceStatus VIRTIO_STATUS_FAILED s)
      else (Some wanted, s).

Fixpoint read_mac (n : nat) (i : Z) (s : Init D) : bytes * Init D :=
  match n with
  | O => ([], s)
  | S n => let '(b, s) := rd (DeviceCfg i) s in let '(bs, s) := read_mac n (i + 1) s in (b :: bs, s)
  end.

(** From the reset on. *)
Definition bring_up (mult notify_base device_cfg : Z) (s : Init D) : option (bool * Init D) :=
  let '(negotiated, s) := negotiate s in
  match negotiated with
  | None => Some (false, s)
  | Some wanted =>
      let s := if negb (Z.land wanted VIRTIO_NET_F_MAC =? 0) && negb (device_cfg =? 0)
               then let '(mac, s) := read_mac 6 0 s in
                    let h := g_hw (raw s) in set_hw (h .[ hw_mac := mac ]) s
               else s in
      '(rx_bufs, s) ← alloc_packet_buffers QSIZE s;
      '(tx_bufs, s) ← alloc_packet_buffers QSIZE s;
      let h := g_hw (raw s) in
      let h := h .[ rx_buffers := rx_bufs ] .[ tx_buffers := tx_bufs ] in
      '(ok, rx, s) ← setup_virtqueue notify_base mult VIRTIO_NET_RX_QUEUE (hw_rx h) s;
      let h := h .[ hw_rx := rx ] in
      if negb ok then Some (false, wr DeviceStatus VIRTIO_STATUS_FAILED (set_hw h s))
      else
        '(ok, tx, s) ← setup_virtqueue notify_base mult VIRTIO_NET_TX_QUEUE (hw_tx h) s;
        let h := h .[ hw_tx := tx ] in
        if negb ok then Some (false, wr DeviceStatus VIRTIO_STATUS_FAILED (set_hw h s))
        else
          let h := h .[ hw_features := wanted ] in
          let h := init_tx_buffers_locked h in
          let rung := length (doorbells h) in
          let h := init_rx_buffers_locked h in
          let s := ring (drop rung (doorbells h)) s in
          let s := add_device_status VIRTIO_STATUS_DRIVER_OK s in
          let s := set_backend BackendVirtio (set_hw (h .[ hw_ready := true ]) s) in
          let '(_, s) := rd NumQueues s in
          Some (true, s)
  end.

Definition virtio_net_init_pci (s : Init D) : option (bool * Init D) :=
  if hw_ready (g_hw (raw s)) then Some (true, set_backend BackendVirtio s)
  else
    let s := set_hw (hw_zero .[ doorbells := doorbells (g_hw (raw s)) ]) s in
    match pci_find_virtio_net cfg with
    | None => Some (false, s)
    | Some fn =>
        let '(a, v) := pci_enable_mmio_and_bus_mastering cfg fn in
        let s := s .[ log := log s ++ [PciWr a v] ] in
        let '(found, layout) := parse_virtio_pci_layout cfg fn in
        if negb found then Some (false, s)
        else
          '(common, s) ← map_pci_region fn (l_common layout) s;
          '(notify_base, s) ← map_pci_region fn (l_notify layout) s;
          '(device_cfg, s) ← map_pci_region fn (l_device layout) s;
          if (common =? 0) || (notify_base =? 0) then Some (false, s)
          else bring_up (notify_multiplier layout) notify_base device_cfg s
    end.
End driver.

(** ** The order of the standard

    What a driver may do next: reset the card and wait, acknowledge it, read the
    features on offer and write a part of them, confirm the features, set up
    queues (size and addresses before the queue is enabled), set [DRIVER_OK], and only
    then notify queues.  A status write adds one bit to those of the earlier phases, or
    gives up. *)

Definition adds (v bit st : Z) : bool :=
  negb (Z.land v bit =? 0) && (Z.land (Z.land v 191) (Z.lnot (Z.lor st bit)) =? 0).

(** The two windows of feature bits: on offer, and written by the driver. *)
Record Features := mkFeatures { o_sel : Z; o_low : Z; o_high : Z; w_sel : Z; w_low : Z; w_high : Z }.
Definition word64 (low high : Z) : Z := Z.lor low (u64 (Z.shiftl high 32)).

Inductive Phase :=
| POff | PReset | PAck
| PDriver (f : Features)
| PFeatures (offered written : Z) (enabled : list Z)
| PQueue (offered written : Z) (enabled : list Z) (queue : Z) (max : option Z) (set : list Reg)
| PLive (offered written : Z)
| PFailed.

Definition in_list {A} `{EqDecision A} (x : A) (l : list A) : bool := bool_decide (x ∈ l).

Definition follow (p : Phase) (a : Access) : option Phase :=
  match p, a with
  | POff, PciWr _ _ => Some POff
  | POff, Wr DeviceStatus v => if v =? 0 then Some PReset else None
  | PReset, Rd DeviceStatus _ => Some PReset
  | PReset, Wr DeviceStatus v => if adds v VIRTIO_STATUS_ACKNOWLEDGE 0 then Some PAck else None
  | PAck, Rd DeviceStatus _ => Some PAck
  | PAck, Wr DeviceStatus v => if adds v VIRTIO_STATUS_DRIVER 1 then Some (PDriver (mkFeatures 0 0 0 0 0 0)) else None
  | PDriver f, Wr DeviceFeatureSelect v => Some (PDriver (mkFeatures v (o_low f) (o_high f) (w_sel f) (w_low f) (w_high f)))
  | PDriver f, Rd DeviceFeature v =>
      if o_sel f =? 0 then Some (PDriver (mkFeatures (o_sel f) v (o_high f) (w_sel f) (w_low f) (w_high f)))
      else if o_sel f =? 1 then Some (PDriver (mkFeatures (o_sel f) (o_low f) v (w_sel f) (w_low f) (w_high f)))
      else None
  | PDriver f, Wr DriverFeatureSelect v => Some (PDriver (mkFeatures (o_sel f) (o_low f) (o_high f) v (w_low f) (w_high f)))
  | PDriver f, Wr DriverFeature v =>
      if w_sel f =? 0 then Some (PDriver (mkFeatures (o_sel f) (o_low f) (o_high f) (w_sel f) v (w_high f)))
      else if w_sel f =? 1 then Some (PDriver (mkFeatures (o_sel f) (o_low f) (o_high f) (w_sel f) (w_low f) v))
      else None
  | PDriver f, Rd DeviceStatus _ => Some (PDriver f)
  | PDriver f, Wr DeviceStatus v =>
      let offered := word64 (o_low f) (o_high f) in
      let written := word64 (w_low f) (w_high f) in
      if adds v VIRTIO_STATUS_FEATURES_OK 3 && (Z.land written (Z.lnot offered) =? 0) then Some (PFeatures offered written [])
      else if v =? VIRTIO_STATUS_FAILED then Some PFailed else None
  | PFeatures o w on, Rd DeviceStatus _ | PFeatures o w on, Rd (DeviceCfg _) _ => Some (PFeatures o w on)
  | PFeatures o w on, Wr QueueSelect i => Some (PQueue o w on i None [])
  | PFeatures o w on, Wr DeviceStatus v =>
      if adds v VIRTIO_STATUS_DRIVER_OK 11 && in_list VIRTIO_NET_RX_QUEUE on && in_list VIRTIO_NET_TX_QUEUE on
      then Some (PLive o w)
      else if v =? VIRTIO_STATUS_FAILED then Some PFailed else None
  | PQueue o w on i _ set, Rd QueueSize v => Some (PQueue o w on i (Some v) set)
  | PQueue o w on i (Some m) set, Wr QueueSize v => if v <=? m then Some (PQueue o w on i (Some m) (QueueSize :: set)) else None
  | PQueue o w on i m set, Wr QueueDesc _ => Some (PQueue o w on i m (QueueDesc :: set))
  | PQueue o w on i m set, Wr QueueDriver _ => Some (PQueue o w on i m (QueueDriver :: set))
  | PQueue o w on i m set, Wr QueueDevice _ => Some (PQueue o w on i m (QueueDevice :: set))
  | PQueue o w on i m set, Rd QueueNotifyOff _ => Some (PQueue o w on i m set)
  | PQueue o w on i _ set, Wr QueueEnable v =>
      if (v =? 1) && in_list QueueSize set && in_list QueueDesc set && in_list QueueDriver set && in_list QueueDevice set
      then Some (PFeatures o w (on ++ [i])) else None
  | PQueue _ _ _ _ _ _, Wr DeviceStatus v => if v =? VIRTIO_STATUS_FAILED then Some PFailed else None
  | PLive o w, Rd NumQueues _ | PLive o w, Wr (Doorbell _) _ => Some (PLive o w)
  | _, _ => None
  end.

Definition follow_all (p : Phase) (l : list Access) : option Phase := foldl (λ o a, p ← o; follow p a) (Some p) l.

Lemma follow_all_snoc p l a : follow_all p (l ++ [a]) = (q ← follow_all p l; follow q a).
Proof. unfold follow_all. by rewrite foldl_app. Qed.

Lemma follow_all_app p l1 l2 : follow_all p (l1 ++ l2) = foldl (λ o a, p ← o; follow p a) (follow_all p l1) l2.
Proof. unfold follow_all. by rewrite foldl_app. Qed.

Lemma status_in_spec x y : status_in x y ↔ ∀ i, 0 <= i → Z.testbit x i = true → Z.testbit 191 i = true → Z.testbit y i = true.
Proof.
  unfold status_in. split.
  - intros E i Hi Hx H191. destruct (Z.testbit y i) eqn:Hy; [done|]. exfalso.
    assert (Z.testbit (Z.land (Z.land x 191) (Z.lnot y)) i = true) as Ht by (by rewrite !Z.land_spec, Z.lnot_spec, Hx, H191, Hy).
    by rewrite E, Z.bits_0 in Ht.
  - intros Hs. apply Z.bits_inj'. intros i Hi. rewrite Z.bits_0, !Z.land_spec, Z.lnot_spec by done.
    destruct (Z.testbit x i) eqn:Hx, (Z.testbit 191 i) eqn:H191; try done. cbn [andb]. by rewrite (Hs i Hi Hx H191).
Qed.

Lemma status_in_trans x y z : status_in x y → status_in y z → status_in x z.
Proof. rewrite !status_in_spec. intros H1 H2 i Hi Hx H191. apply (H2 i Hi); [|done]. by apply H1. Qed.
Lemma status_in_all x : status_in x (-1).
Proof. apply status_in_spec. intros i Hi _ _. by rewrite Z.bits_m1. Qed.
Lemma status_in_u8 x y : status_in (u8 x) y ↔ status_in x y.
Proof.
  unfold status_in. assert (Z.land (u8 x) 191 = Z.land x 191) as ->; [|done]. unfold u8. change 256 with (2 ^ 8).
  rewrite <- (Z.land_ones x 8 ltac:(lia)), <- Z.land_assoc. by f_equal.
Qed.
Lemma status_in_u8_r x y : status_in x (u8 y) ↔ status_in x y.
Proof.
  rewrite !status_in_spec. assert (∀ i, Z.testbit 191 i = true → 0 <= i → Z.testbit (u8 y) i = Z.testbit y i) as E.
  { intros i H191 Hi. unfold u8. change 256 with (2 ^ 8). rewrite Z.mod_pow2_bits_low; [done|].
    destruct (Z.lt_ge_cases i 8) as [|Hge]; [done|]. change 191 with (191 mod 2 ^ 8) in H191. by rewrite Z.mod_pow2_bits_high in H191. }
  split; intros Hs i Hi Hx H191; specialize (Hs i Hi Hx H191); [by rewrite <- E|by rewrite E].
Qed.

(** A read status with one more bit. *)
Lemma adds_status old bit st :
  status_in old st → bit ∈ [1; 2; 4; 8] → adds (u8 (Z.lor old bit)) bit st = true.
Proof.
  intros Ho Hb. unfold adds. apply andb_true_iff. split.
  - apply negb_true_iff, Z.eqb_neq. intros E. assert (∃ k, 0 <= k < 8 ∧ bit = 2 ^ k) as (k & Hk & ->).
    { rewrite !elem_of_cons in Hb. destruct Hb as [->|[->|[->|[->|Hb%not_elem_of_nil]]]]; [exists 0|exists 1|exists 2|exists 3|done]; lia. }
    assert (Z.testbit (Z.land (u8 (Z.lor old (2 ^ k))) (2 ^ k)) k = true) as Ht.
    { rewrite Z.land_spec, Z.pow2_bits_true by lia. unfold u8. change 256 with (2 ^ 8).
      by rewrite Z.mod_pow2_bits_low, Z.lor_spec, Z.pow2_bits_true, orb_true_r by lia. }
    by rewrite E, Z.bits_0 in Ht.
  - apply Z.eqb_eq. apply (proj2 (status_in_u8 (Z.lor old bit) (Z.lor st bit))). apply status_in_spec.
    intros i Hi. rewrite !Z.lor_spec. intros [Hx|Hx]%orb_true_iff H191; apply orb_true_iff; [left|by right].
    by apply (proj1 (status_in_spec _ _) Ho).
Qed.

(** ** The driver follows it *)

Section order.
Context {D : Type} `{VirtioDevice D}.
Abbreviation Init := (Init D).

(** The accesses so far are in order and lead to [p]; the card holds at most the
    status bits of [st]. *)
Record at_phase (p : Phase) (st : Z) (s : Init) : Prop := {
  at_log : follow_all POff (log s) = Some p;
  at_status : status_in (dev_status (dev s)) st
}.

Lemma at_phase_same p st s s' : at_phase p st s → dev s' = dev s → log s' = log s → at_phase p st s'.
Proof. intros [H1 H2] Ed El. split; congruence. Qed.

Lemma at_more p st st' s : at_phase p st s → status_in st st' → at_phase p st' s.
Proof. intros [H1 H2] Hs. split; [done|]. by eapply status_in_trans. Qed.

Lemma at_rd p p' st r s v s' :
  at_phase p st s → rd r s = (v, s') → r ≠ DeviceStatus → follow p (Rd r v) = Some p' → at_phase p' st s'.
Proof.
  intros [H1 H2] E Hr Hp. unfold rd in E. pose proof (read_other r (dev s) Hr) as Hs. destruct (dev_read r (dev s)) as [w d].
  injection E as <- <-. split.
  - cbn [log set_field]. by rewrite follow_all_snoc, H1.
  - cbn [dev set_field]. by eapply status_in_trans.
Qed.

Lemma at_rd_status p p' st s v s' :
  at_phase p st s → rd DeviceStatus s = (v, s') → follow p (Rd DeviceStatus v) = Some p' → at_phase p' v s' ∧ status_in v st.
Proof.
  intros [H1 H2] E Hp. unfold rd in E. pose proof (read_status (dev s)) as [Hs1 Hs2]. destruct (dev_read DeviceStatus (dev s)) as [w d].
  cbn [fst snd] in Hs1, Hs2. injection E as <- <-. split; [split|].
  - cbn [log set_field]. by rewrite follow_all_snoc, H1.
  - cbn [dev set_field field]. by apply status_in_u8_r.
  - cbn [field]. apply status_in_u8. by eapply status_in_trans.
Qed.

Lemma at_wr p p' st r v s :
  at_phase p st s → r ≠ DeviceStatus → follow p (Wr r v) = Some p' → at_phase p' st (wr r v s).
Proof.
  intros [H1 H2] Hr Hp. split.
  - unfold wr. cbn [log set_field]. by rewrite follow_all_snoc, H1.
  - unfold wr. cbn [dev set_field]. eapply status_in_trans; [by apply write_other|done].
Qed.

Lemma at_wr_status p p' st v s :
  at_phase p st s → v ≠ 0 → follow p (Wr DeviceStatus v) = Some p' → at_phase p' v (wr DeviceStatus v s).
Proof.
  intros [H1 H2] Hv Hp. split.
  - unfold wr. cbn [log set_field]. by rewrite follow_all_snoc, H1.
  - unfold wr. cbn [dev set_field]. by apply write_status.
Qed.

Lemma adds_nonzero v bit st : adds v bit st = true → v ≠ 0 ∧ status_in v (Z.lor st bit).
Proof. unfold adds. intros [H1 H2]%andb_true_iff. split; [by intros ->|]. by apply Z.eqb_eq. Qed.

Lemma at_add p p' st bit s :
  at_phase p st s → bit ∈ [1; 2; 4; 8] → (∀ v, follow p (Rd DeviceStatus v) = Some p) →
  (∀ v, adds v bit st = true → follow p (Wr DeviceStatus v) = Some p') → at_phase p' (Z.lor st bit) (add_device_status bit s).
Proof.
  intros Ha Hb Hrd Hwr. unfold add_device_status. destruct (rd DeviceStatus s) as [old s1] eqn:E.
  destruct (at_rd_status _ _ _ _ _ _ Ha E (Hrd old)) as [Ha1 Ho]. pose proof (adds_status old bit st Ho Hb) as Hadds.
  destruct (adds_nonzero _ _ _ Hadds) as [Hv Hin]. eapply at_more; [|exact Hin]. by eapply at_wr_status; [exact Ha1|exact Hv|by apply Hwr].
Qed.

Lemma at_wait n : ∀ st s b s', at_phase PReset st s → wait_for_reset n s = (b, s') →
  if b then at_phase PReset 0 s' else at_phase PReset (-1) s'.
Proof.
  induction n as [|n IH]; intros st s b s' Ha E; cbn [wait_for_reset] in E.
  - injection E as <- <-. eapply at_more; [exact Ha|apply status_in_all].
  - destruct (rd DeviceStatus s) as [v s1] eqn:E1. destruct (at_rd_status PReset PReset _ _ _ _ Ha E1 eq_refl) as [Ha1 _].
    destruct (Z.eqb_spec v 0) as [->|]; [by injection E as <- <-|by eapply IH].
Qed.

(** What the negotiation leaves alone. *)
Definition quiet (s s' : Init) : Prop := vmm s' = vmm s ∧ raw s' = raw s.
Lemma quiet_trans s1 s2 s3 : quiet s1 s2 → quiet s2 s3 → quiet s1 s3.
Proof. unfold quiet. intros [-> ->] [-> ->]. done. Qed.
Lemma quiet_wr r v s : quiet s (wr r v s).
Proof. done. Qed.
Lemma quiet_rd r s v s' : rd r s = (v, s') → quiet s s'.
Proof. unfold rd. destruct (dev_read r (dev s)). by intros [= _ <-]. Qed.
Lemma quiet_add bit s : quiet s (add_device_status bit s).
Proof. unfold add_device_status. destruct (rd DeviceStatus s) as [v s1] eqn:E. apply (quiet_rd _ _ _ _ E). Qed.
Lemma quiet_wait n : ∀ s b s', wait_for_reset n s = (b, s') → quiet s s'.
Proof.
  induction n as [|n IH]; intros s b s' E; cbn [wait_for_reset] in E; [by injection E as _ <-|].
  destruct (rd DeviceStatus s) as [v s1] eqn:E1. pose proof (quiet_rd _ _ _ _ E1) as Q. destruct (v =? 0); [by injection E as _ <-|].
  eapply quiet_trans; [exact Q|by eapply IH].
Qed.

(** The features on offer, and the part of them the driver writes. *)
Definition wanted_mask : Z := Z.lor (Z.lor VIRTIO_F_VERSION_1 VIRTIO_NET_F_MAC) VIRTIO_NET_F_STATUS.

Lemma at_offered p st s v s' :
  at_phase (PDriver p) st s → read_device_features s = (v, s') →
  ∃ low high, v = word64 low high ∧ is_u32 low ∧ is_u32 high ∧ quiet s s'
    ∧ at_phase (PDriver (mkFeatures 1 low high (w_sel p) (w_low p) (w_high p))) st s'.
Proof.
  intros Ha E. unfold read_device_features in E.
  destruct (rd DeviceFeature (wr DeviceFeatureSelect 0 s)) as [low s1] eqn:E1.
  destruct (rd DeviceFeature (wr DeviceFeatureSelect 1 s1)) as [high s2] eqn:E2. injection E as <- <-.
  pose proof (at_wr _ _ _ DeviceFeatureSelect 0 _ Ha ltac:(done) eq_refl) as Ha1.
  pose proof (at_rd _ _ _ _ _ _ _ Ha1 E1 ltac:(done) eq_refl) as Ha2.
  pose proof (at_wr _ _ _ DeviceFeatureSelect 1 _ Ha2 ltac:(done) eq_refl) as Ha3.
  pose proof (at_rd _ _ _ _ _ _ _ Ha3 E2 ltac:(done) eq_refl) as Ha4.
  exists low, high. assert (∀ r t x t', rd r t = (x, t') → r = DeviceFeature → is_u32 x) as Hu.
  { intros r t x t' Er ->. unfold rd in Er. destruct (dev_read DeviceFeature (dev t)) as [y d]. injection Er as <- _. cbn [field]. word_lia. }
  split_and!; [done|by eapply Hu|by eapply Hu| |exact Ha4].
  eapply quiet_trans; [apply (quiet_rd _ _ _ _ E1)|apply (quiet_rd _ _ _ _ E2)].
Qed.

Lemma at_written p st f s :
  at_phase (PDriver p) st s →
  at_phase (PDriver (mkFeatures (o_sel p) (o_low p) (o_high p) 1 (u32 f) (u32 (Z.shiftr f 32)))) st (write_driver_features f s).
Proof.
  intros Ha. unfold write_driver_features.
  pose proof (at_wr _ _ _ DriverFeatureSelect 0 _ Ha ltac:(done) eq_refl) as Ha1.
  pose proof (at_wr _ _ _ DriverFeature (u32 f) _ Ha1 ltac:(done) eq_refl) as Ha2.
  pose proof (at_wr _ _ _ DriverFeatureSelect 1 _ Ha2 ltac:(done) eq_refl) as Ha3.
  exact (at_wr _ _ _ DriverFeature (u32 (Z.shiftr f 32)) _ Ha3 ltac:(done) eq_refl).
Qed.

Lemma testbit_flag o k : 0 <= k → negb (Z.land o (2 ^ k) =? 0) = Z.testbit o k.
Proof.
  intros Hk. destruct (Z.testbit o k) eqn:Ho.
  - apply negb_true_iff, Z.eqb_neq. intros E. assert (Z.testbit (Z.land o (2 ^ k)) k = true) as Ht by (by rewrite Z.land_spec, Ho, Z.pow2_bits_true).
    by rewrite E, Z.bits_0 in Ht.
  - apply negb_false_iff, Z.eqb_eq, Z.bits_inj'. intros i Hi. rewrite Z.land_spec, Z.bits_0, Z.pow2_bits_eqb by done.
    destruct (Z.eqb_spec k i) as [<-|]; [by rewrite Ho|apply andb_false_r].
Qed.

(** The choice of the code is a mask. *)
Lemma wanted_eq o :
  Z.land o VIRTIO_F_VERSION_1 ≠ 0 →
  (let w := VIRTIO_F_VERSION_1 in
   let w := if negb (Z.land o VIRTIO_NET_F_MAC =? 0) then Z.lor w VIRTIO_NET_F_MAC else w in
   if negb (Z.land o VIRTIO_NET_F_STATUS =? 0) then Z.lor w VIRTIO_NET_F_STATUS else w) = Z.land o wanted_mask.
Proof.
  intros H1. cbn zeta. unfold wanted_mask, VIRTIO_F_VERSION_1, VIRTIO_NET_F_MAC, VIRTIO_NET_F_STATUS in *.
  rewrite <- Z.eqb_neq, <- negb_true_iff, testbit_flag in H1 by lia. rewrite !testbit_flag by lia.
  apply Z.bits_inj'. intros i Hi. rewrite Z.land_spec, !Z.lor_spec, !Z.pow2_bits_eqb by lia.
  destruct (Z.testbit o 5) eqn:H5, (Z.testbit o 16) eqn:H16; rewrite ?Z.lor_spec, ?Z.pow2_bits_eqb by lia;
    (destruct (decide (i = 32)) as [->|]; [by rewrite H1|]); (destruct (decide (i = 5)) as [->|]; [by rewrite H5|]);
    (destruct (decide (i = 16)) as [->|]; [by rewrite H16|]);
    rewrite ?(proj2 (Z.eqb_neq 32 i)), ?(proj2 (Z.eqb_neq 5 i)), ?(proj2 (Z.eqb_neq 16 i)) by done; by rewrite andb_false_r.
Qed.
End order.

Lemma wanted_word o : let w := Z.land o wanted_mask in word64 (u32 w) (u32 (Z.shiftr w 32)) = w ∧ Z.land w (Z.lnot o) = 0.
Proof.
  intros w. assert (0 <= w < 2 ^ 64) as Hw.
  { assert (w = Z.land w (Z.ones 64)) as -> by (unfold w; by rewrite <- Z.land_assoc).
    rewrite Z.land_ones by lia. apply Z.mod_pos_bound. lia. }
  split.
  - change (2 ^ 64) with 18446744073709551616 in Hw. unfold word64. rewrite Z.shiftl_mul_pow2, Z.shiftr_div_pow2 by lia.
    rewrite Z.lor_comm. clearbody w. assert (2 ^ 32 = 4294967296) as E32 by reflexivity.
    replace (u64 (u32 (w / 2 ^ 32) * 2 ^ 32)) with (w / 2 ^ 32 * 2 ^ 32) by (rewrite E32; word_lia).
    rewrite lor_disjoint by (rewrite ?E32; word_lia). rewrite E32. word_lia.
  - unfold w. rewrite <- Z.land_assoc, (Z.land_comm wanted_mask), Z.land_assoc, Z.land_lnot_diag. apply Z.land_0_l.
Qed.

(** A status write that adds its bit. *)
Ltac adds_one :=
  let v := fresh in let Hv := fresh in
  intros v Hv; cbn [follow]; unfold VIRTIO_STATUS_ACKNOWLEDGE, VIRTIO_STATUS_DRIVER, VIRTIO_STATUS_DRIVER_OK; by rewrite Hv.

Definition stopped (p : Phase) : Prop := p = POff ∨ p = PReset ∨ p = PFailed.

Section follows.
Context {D : Type} `{VirtioDevice D} (hhdm_offset : Z).
Abbreviation Init := (Init D).

Lemma at_failed p st s : at_phase p st s → follow p (Wr DeviceStatus 128) = Some PFailed → at_phase PFailed 128 (wr DeviceStatus VIRTIO_STATUS_FAILED s).
Proof. intros Ha Hp. by eapply at_wr_status. Qed.

(** What the negotiation ends with. *)
Definition negotiated (r : option Z) (s : Init) : Prop :=
  match r with
  | Some w => ∃ o, w = Z.land o wanted_mask ∧ Z.land o VIRTIO_F_VERSION_1 ≠ 0 ∧ at_phase (PFeatures o w []) 11 s
  | None => ∃ p st, at_phase p st s ∧ stopped p
  end.

Lemma at_negotiate st s r s' : at_phase POff st s → negotiate s = (r, s') → quiet s s' ∧ negotiated r s'.
Proof.
  intros Ha E. unfold negotiate in E. revert E. generalize (Z.to_nat 1000000) as fuel. intros fuel E.
  assert (at_phase PReset (-1) (wr DeviceStatus 0 s)) as Ha1.
  { destruct Ha as [H1 _]. split; [|apply status_in_all]. unfold wr. cbn [log set_field]. by rewrite follow_all_snoc, H1. }
  destruct (wait_for_reset fuel (wr DeviceStatus 0 s)) as [b s1] eqn:E1.
  pose proof (quiet_trans _ _ _ (quiet_wr DeviceStatus 0 s) (quiet_wait _ _ _ _ E1)) as Q1.
  pose proof (at_wait _ _ _ _ _ Ha1 E1) as Ha2. destruct b; cbn [negb] in E; cycle 1.
  { injection E as <- <-. split; [done|]. exists PReset, (-1). split; [done|by right; left]. }
  pose proof (at_add PReset PAck 0 1 s1 Ha2 ltac:(by left) ltac:(done) ltac:(adds_one)) as Ha3.
  change (Z.lor 0 1) with 1 in Ha3.
  pose proof (at_add PAck (PDriver (mkFeatures 0 0 0 0 0 0)) _ 2 _ Ha3 ltac:(by right; left) ltac:(done) ltac:(adds_one)) as Ha4.
  change (Z.lor 1 2) with 3 in Ha4.
  pose proof (quiet_trans _ _ _ Q1 (quiet_trans _ _ _ (quiet_add 1 s1) (quiet_add 2 _))) as Q2.
  fold VIRTIO_STATUS_ACKNOWLEDGE VIRTIO_STATUS_DRIVER in Ha4, Q2.
  destruct (read_device_features _) as [o s2] eqn:E2. destruct (at_offered _ _ _ _ _ Ha4 E2) as (low & high & Ho & _ & _ & Q3 & Ha5).
  cbn [w_sel w_low w_high] in Ha5. pose proof (quiet_trans _ _ _ Q2 Q3) as Q4.
  destruct (Z.eqb_spec (Z.land o VIRTIO_F_VERSION_1) 0) as [Hv|Hv].
  { injection E as <- <-. split; [exact Q4|]. exists PFailed, 128. split; [|by right; right]. eapply at_failed; [exact Ha5|done]. }
  pose proof (wanted_eq o Hv) as Hw. cbv zeta in E, Hw. rewrite Hw in E. clear Hw.
  destruct (wanted_word o) as [Hww Hsub]. set (w := Z.land o wanted_mask) in *.
  pose proof (at_written _ _ w _ Ha5) as Ha6. cbn [o_sel o_low o_high] in Ha6.
  pose proof (at_add _ (PFeatures o w []) 3 8 _ Ha6 ltac:(by right; right; right; left) ltac:(done)
    ltac:(intros v Hv'; cbn [follow o_low o_high w_low w_high]; rewrite Hww, <- Ho, Hsub; unfold VIRTIO_STATUS_FEATURES_OK; by rewrite Hv')) as Ha7.
  change (Z.lor 3 8) with 11 in Ha7. fold VIRTIO_STATUS_FEATURES_OK in Ha7.
  pose proof (quiet_trans _ _ _ Q4 (quiet_add VIRTIO_STATUS_FEATURES_OK (write_driver_features w s2))) as Q5.
  destruct (rd DeviceStatus _) as [status s3] eqn:E3. pose proof (quiet_trans _ _ _ Q5 (quiet_rd _ _ _ _ E3)) as Q6.
  destruct (at_rd_status _ (PFeatures o w []) _ _ _ _ Ha7 E3 eq_refl) as [Ha8 Hst].
  destruct (Z.land status VIRTIO_STATUS_FEATURES_OK =? 0); injection E as <- <-; (split; [exact Q6|]).
  - exists PFailed, 128. split; [|by right; right]. eapply at_failed; [exact Ha8|done].
  - exists o. split_and!; [done|done|]. eapply at_more; [exact Ha8|exact Hst].
Qed.

(** ** Memory and queues *)

(** Nothing reached the card and the globals are as they were. *)
Definition silent (s s' : Init) : Prop := dev s' = dev s ∧ log s' = log s ∧ raw s' = raw s.
Lemma silent_trans s1 s2 s3 : silent s1 s2 → silent s2 s3 → silent s1 s3.
Proof. unfold silent. intros (-> & -> & ->) (-> & -> & ->). done. Qed.
Lemma at_silent p st s s' : at_phase p st s → silent s s' → at_phase p st s'.
Proof. intros Ha (Ed & El & _). by eapply at_phase_same. Qed.

Lemma new_page_silent s pa s' : new_page hhdm_offset s = Some (pa, s') → silent s s'.
Proof. unfold new_page. intros ([p ph] & _ & (va & _ & [= _ <-])%bind_Some)%bind_Some. done. Qed.

Lemma queue_pages_silent q s q' s' : alloc_queue_pages hhdm_offset q s = Some (q', s') → silent s s' ∧ q_notify q' = q_notify q.
Proof.
  unfold alloc_queue_pages. intros E. apply bind_Some in E as ([d s1] & E1 & E). apply bind_Some in E as ([a s2] & E2 & E).
  apply bind_Some in E as ([u s3] & E3 & [= <- <-]). split; [|done].
  apply new_page_silent in E1, E2, E3. by eapply silent_trans, silent_trans.
Qed.

Lemma buffers_silent n : ∀ s bufs s', alloc_packet_buffers hhdm_offset n s = Some (bufs, s') → silent s s'.
Proof.
  induction n as [|n IH]; intros s bufs s' E; cbn [alloc_packet_buffers] in E; [by injection E as _ <-|].
  apply bind_Some in E as ([pa s1] & E1 & E). apply bind_Some in E as ([bs s2] & E2 & [= _ <-]).
  apply new_page_silent in E1. eapply silent_trans; [exact E1|by eapply IH].
Qed.

Lemma at_setup o w on i nb mult q s ok q' s' :
  at_phase (PFeatures o w on) 11 s → setup_virtqueue hhdm_offset nb mult i q s = Some (ok, q', s') →
  raw s' = raw s ∧
  if ok then at_phase (PFeatures o w (on ++ [i])) 11 s' ∧ is_Some (q_notify q')
  else ∃ m, at_phase (PQueue o w on i m []) 11 s'.
Proof.
  intros Ha E. unfold setup_virtqueue in E. destruct (rd QueueSize (wr QueueSelect i s)) as [max s1] eqn:E1.
  pose proof (at_wr _ _ _ QueueSelect i _ Ha ltac:(done) eq_refl) as Ha1.
  pose proof (at_rd _ _ _ _ _ _ _ Ha1 E1 ltac:(done) eq_refl) as Ha2. destruct (quiet_rd _ _ _ _ E1) as [_ Q1].
  change (raw (wr QueueSelect i s)) with (raw s) in Q1. destruct (Z.ltb_spec max VIRTIO_NET_QUEUE_SIZE) as [Hlt|Hge].
  { injection E as <- <- <-. split; [exact Q1|]. by exists (Some max). }
  apply bind_Some in E as ([q2 s2] & E2 & E). destruct (queue_pages_silent _ _ _ _ E2) as [Sil _].
  pose proof (at_silent _ _ _ _ Ha2 Sil) as Ha3. destruct Sil as (_ & _ & Q2).
  assert (follow (PQueue o w on i (Some max) []) (Wr QueueSize VIRTIO_NET_QUEUE_SIZE) = Some (PQueue o w on i (Some max) [QueueSize])) as Hf
    by (cbn [follow]; by rewrite (proj2 (Z.leb_le _ _) Hge)).
  pose proof (at_wr _ _ _ QueueSize VIRTIO_NET_QUEUE_SIZE _ Ha3 ltac:(done) Hf) as Ha4.
  pose proof (at_wr _ _ _ QueueDesc (q_desc_pa q2) _ Ha4 ltac:(done) eq_refl) as Ha5.
  pose proof (at_wr _ _ _ QueueDriver (q_avail_pa q2) _ Ha5 ltac:(done) eq_refl) as Ha6.
  pose proof (at_wr _ _ _ QueueDevice (q_used_pa q2) _ Ha6 ltac:(done) eq_refl) as Ha7.
  destruct (rd QueueNotifyOff _) as [off s3] eqn:E3. injection E as <- <- <-.
  pose proof (at_rd _ _ _ _ _ _ _ Ha7 E3 ltac:(done) eq_refl) as Ha8. destruct (quiet_rd _ _ _ _ E3) as [_ Q3]. split.
  - change (raw (wr QueueEnable 1 s3)) with (raw s3). rewrite Q3. change (raw s2 = raw s). by rewrite Q2.
  - split; [|by eexists]. by apply (at_wr _ _ _ QueueEnable 1 _ Ha8 ltac:(done)).
Qed.

Lemma at_mac p st n : ∀ i s bs s', (∀ j v, follow p (Rd (DeviceCfg j) v) = Some p) →
  at_phase p st s → read_mac n i s = (bs, s') → at_phase p st s' ∧ quiet s s'.
Proof.
  induction n as [|n IH]; intros i s bs s' Hp Ha E; cbn [read_mac] in E; [by injection E as _ <-|].
  destruct (rd (DeviceCfg i) s) as [b s1] eqn:E1. destruct (read_mac n (i + 1) s1) as [bs1 s2] eqn:E2. injection E as _ <-.
  pose proof (at_rd _ _ _ _ _ _ _ Ha E1 ltac:(done) (Hp i b)) as Ha1. destruct (IH _ _ _ _ Hp Ha1 E2) as [Ha2 Q2].
  split; [exact Ha2|]. eapply quiet_trans; [apply (quiet_rd _ _ _ _ E1)|exact Q2].
Qed.
End follows.

Lemma init_rx_bells h a :
  q_notify (hw_rx h) = Some a →
  doorbells (init_rx_buffers_locked h) = doorbells h ++ [(a, 0)] ∧ hw_features (init_rx_buffers_locked h) = hw_features h.
Proof. intros E. unfold init_rx_buffers_locked, notify_queue. cbn [hw_rx q_notify set_field]. by rewrite E. Qed.

(** The end of [bring_up], once both queues are enabled. *)
Definition finish {D} `{VirtioDevice D} (h : VirtioHwState) (s : Init D) : Init D :=
  let h := init_tx_buffers_locked h in
  let rung := length (doorbells h) in
  let h := init_rx_buffers_locked h in
  let s := ring (drop rung (doorbells h)) s in
  let s := add_device_status VIRTIO_STATUS_DRIVER_OK s in
  let s := set_backend BackendVirtio (set_hw (h .[ hw_ready := true ]) s) in
  let '(_, s) := rd NumQueues s in s.

Section live.
Context {D : Type} `{VirtioDevice D} (hhdm_offset : Z).
Abbreviation Init := (Init D).

(** The card is live: the accesses [l] lead to the setting of [DRIVER_OK], the receive queue is
    notified, and without this notification the rest is in order. *)
Record live (o w : Z) (l : list Access) (s : Init) : Prop := {
  lv_phase : follow_all POff l = Some (PFeatures o w [VIRTIO_NET_RX_QUEUE; VIRTIO_NET_TX_QUEUE]);
  lv_features : hw_features (g_hw (raw s)) = w;
  lv_ready : hw_ready (g_hw (raw s)) = true;
  lv_backend : backend (g_net (raw s)) = BackendVirtio;
  lv_bell : ∃ a v v' n, let l2 := [Rd DeviceStatus v; Wr DeviceStatus v'; Rd NumQueues n] in
    log s = l ++ Wr (Doorbell a) VIRTIO_NET_RX_QUEUE :: l2 ∧ follow_all POff (l ++ l2) = Some (PLive o w)
}.

Lemma rd_log r (s : Init) v s1 : rd r s = (v, s1) → ∀ l, rd r (s .[ log := l ]) = (v, s1 .[ log := l ++ [Rd r v] ]) ∧ log s1 = log s ++ [Rd r v].
Proof.
  intros E l. unfold rd in *. change (dev (s .[ log := l ])) with (dev s). destruct (dev_read r (dev s)) as [w d].
  injection E as <- <-. done.
Qed.

(** What setting a status bit does to the card is the same whatever happened before. *)
Lemma add_log bit (s : Init) : ∃ v v', log (add_device_status bit s) = log s ++ [Rd DeviceStatus v; Wr DeviceStatus v']
  ∧ ∀ l, add_device_status bit (s .[ log := l ]) = (add_device_status bit s) .[ log := l ++ [Rd DeviceStatus v; Wr DeviceStatus v'] ].
Proof.
  unfold add_device_status. destruct (rd DeviceStatus s) as [old s1] eqn:E. pose proof (rd_log _ _ _ _ E) as Hl.
  eexists old, _. split.
  - unfold wr. cbn [log set_field]. rewrite (proj2 (Hl [])), <- app_assoc. reflexivity.
  - intros l. rewrite (proj1 (Hl l)). unfold wr. cbn [log set_field]. rewrite <- app_assoc. reflexivity.
Qed.

Lemma finish_live o w h s :
  at_phase (PFeatures o w [VIRTIO_NET_RX_QUEUE; VIRTIO_NET_TX_QUEUE]) 11 s → is_Some (q_notify (hw_rx h)) → hw_features h = w →
  live o w (log s) (finish h s).
Proof.
  intros Ha [a Hq] Hw. unfold finish. set (h1 := init_tx_buffers_locked h).
  destruct (init_rx_bells h1 a Hq) as [Eb Ef]. rewrite Eb, drop_app_length. cbn [ring foldl fst snd].
  set (s1 := wr (Doorbell a) 0 s). assert (at_phase (PFeatures o w [VIRTIO_NET_RX_QUEUE; VIRTIO_NET_TX_QUEUE]) 11 (s1 .[ log := log s ])) as Ha1.
  { destruct Ha as [H1 H2]. split; [exact H1|]. unfold s1, wr. cbn [dev set_field]. eapply status_in_trans; [by apply write_other|done]. }
  pose proof (at_add _ (PLive o w) 11 4 _ Ha1 ltac:(by right; right; left) ltac:(done) ltac:(adds_one)) as Ha2.
  change (Z.lor 11 4) with 15 in Ha2. fold VIRTIO_STATUS_DRIVER_OK in Ha2.
  destruct (add_log VIRTIO_STATUS_DRIVER_OK s1) as (v & v' & El & Eadd). rewrite Eadd in Ha2.
  set (s2 := add_device_status VIRTIO_STATUS_DRIVER_OK s1) in *. clearbody s2. set (s3 := set_backend BackendVirtio _).
  set (l3 := log s ++ [Rd DeviceStatus v; Wr DeviceStatus v']) in *.
  assert (at_phase (PLive o w) 15 (s3 .[ log := l3 ])) as Ha3 by (by apply (at_phase_same _ _ _ _ Ha2)).
  destruct (rd NumQueues s3) as [n s4] eqn:E4. destruct (rd_log _ _ _ _ E4 l3) as [E4' El4].
  pose proof (at_rd _ _ _ _ _ _ _ Ha3 E4' ltac:(done) eq_refl) as [Ha4 _].
  destruct (quiet_rd _ _ _ _ E4) as [_ Q]. split; rewrite ?Q; [apply Ha| |done|done|].
  - change (hw_features (init_rx_buffers_locked h1) = w). by rewrite Ef.
  - exists a, v, v', n. split.
    + rewrite El4. change (log s3) with (log s2). rewrite El. unfold s1, wr. cbn [log set_field]. by rewrite <- !app_assoc.
    + cbn [log set_field] in Ha4. unfold l3 in Ha4. by rewrite <- app_assoc in Ha4.
Qed.

Lemma bring_up_order mult nb dc st s ok s' :
  at_phase POff st s → hw_ready (g_hw (raw s)) = false → bring_up hhdm_offset mult nb dc s = Some (ok, s') →
  if ok then ∃ o w l, live o w l s' ∧ w = Z.land o wanted_mask ∧ Z.land o VIRTIO_F_VERSION_1 ≠ 0
  else hw_ready (g_hw (raw s')) = false ∧ backend (g_net (raw s')) = backend (g_net (raw s)) ∧ ∃ p st', at_phase p st' s' ∧ stopped p.
Proof.
  intros Ha Hr E. unfold bring_up in E. destruct (negotiate s) as [r s1] eqn:E1.
  destruct (at_negotiate _ _ _ _ Ha E1) as [[_ Q1] Hn]. destruct r as [w|]; cycle 1.
  { injection E as <- <-. rewrite Q1. split_and!; [done|done|exact Hn]. }
  destruct Hn as (o & Hw & Hv & Ha1). lazymatch type of E with context [if ?c then ?x else s1] => set (s2 := if c then x else s1) in E end.
  assert (at_phase (PFeatures o w []) 11 s2 ∧ hw_ready (g_hw (raw s2)) = false ∧ backend (g_net (raw s2)) = backend (g_net (raw s))) as (Ha2 & Hr2 & Hb2).
  { unfold s2. destruct (_ && _); [|by rewrite Q1]. destruct (read_mac 6 0 s1) as [mac s1'] eqn:Em.
    destruct (at_mac (PFeatures o w []) 11 6 0 s1 mac s1' ltac:(done) Ha1 Em) as [Ha1' [_ Q]]. split; [by apply (at_phase_same _ _ _ _ Ha1')|].
    unfold set_hw. cbn [raw set_field g_hw g_net hw_ready]. by rewrite Q, Q1. }
  clearbody s2. clear E1 Q1 Ha1 Hr. apply bind_Some in E as ([rxb s3] & E3 & E). apply bind_Some in E as ([txb s4] & E4 & E).
  pose proof (silent_trans _ _ _ (buffers_silent _ _ _ _ _ E3) (buffers_silent _ _ _ _ _ E4)) as Sil.
  pose proof (at_silent _ _ _ _ Ha2 Sil) as Ha4. destruct Sil as (_ & _ & Q4).
  apply bind_Some in E as ([[ok1 rx] s5] & E5 & E). destruct (at_setup _ _ _ _ _ _ _ _ _ _ _ _ Ha4 E5) as [Q5 Ha5]. rewrite Q4 in Q5.
  destruct ok1; cbn [negb] in E; cycle 1.
  { injection E as <- <-. destruct Ha5 as [m Ha5]. split_and!; [rewrite <- Hr2, <- Q4; reflexivity|rewrite <- Hb2, <- Q5; reflexivity|].
    exists PFailed, 128. split; [|by right; right]. eapply at_failed; [by apply (at_phase_same _ _ _ _ Ha5)|by destruct m]. }
  destruct Ha5 as [Ha5 Hnot]. apply bind_Some in E as ([[ok2 tx] s6] & E6 & E).
  destruct (at_setup _ _ _ _ _ _ _ _ _ _ _ _ Ha5 E6) as [Q6 Ha6]. rewrite Q5 in Q6. destruct ok2; cbn [negb] in E; cycle 1.
  { injection E as <- <-. destruct Ha6 as [m Ha6]. split_and!; [rewrite <- Hr2, <- Q4; reflexivity|rewrite <- Hb2, <- Q6; reflexivity|].
    exists PFailed, 128. split; [|by right; right]. eapply at_failed; [by apply (at_phase_same _ _ _ _ Ha6)|by destruct m]. }
  destruct Ha6 as [Ha6 _]. lazymatch type of E with context [@set_field _ _ hw_features ?i w ?x] => set (h := @set_field _ _ hw_features i w x) in E end.
  assert (Some (true, finish h s6) = Some (ok, s')) as E'.
  { rewrite <- E. unfold finish. cbv zeta. destruct (rd NumQueues _). done. }
  injection E' as <- <-. exists o, w, (log s6). split_and!; [|done|done].
  by apply finish_live.
Qed.
End live.

Definition is_live (p : Phase) : bool := match p with PLive _ _ => true | _ => false end.

Lemma adds_no_bit v bit st k : 0 <= k → adds v bit st = true → Z.testbit 191 k = true → Z.testbit (Z.lor st bit) k = false → Z.land v (2 ^ k) = 0.
Proof.
  intros Hk [_ Hin]%adds_nonzero H191 Hno. apply Z.eqb_eq, negb_false_iff. rewrite testbit_flag by done.
  destruct (Z.testbit v k) eqn:Hv; [|done]. rewrite status_in_spec in Hin. by rewrite (Hin k Hk Hv H191) in Hno.
Qed.

Lemma follow_driver_ok p v q : follow p (Wr DeviceStatus v) = Some q → is_live q = false → Z.land v VIRTIO_STATUS_DRIVER_OK = 0.
Proof.
  change VIRTIO_STATUS_DRIVER_OK with (2 ^ 2). intros E Hq. destruct p; cbn [follow] in E; try done.
  - destruct (Z.eqb_spec v 0) as [->|]; done.
  - destruct (adds _ _ _) eqn:Ha in E; [|done]. by apply (adds_no_bit _ _ _ 2) in Ha.
  - destruct (adds _ _ _) eqn:Ha in E; [|done]. by apply (adds_no_bit _ _ _ 2) in Ha.
  - destruct (adds _ _ _) eqn:Ha in E; [by apply (adds_no_bit _ _ _ 2) in Ha|]. cbn [andb] in E.
    destruct (Z.eqb_spec v VIRTIO_STATUS_FAILED) as [->|]; done.
  - destruct (_ && _) in E; [by injection E as <-|]. destruct (Z.eqb_spec v VIRTIO_STATUS_FAILED) as [->|]; done.
  - destruct max; (destruct (Z.eqb_spec v VIRTIO_STATUS_FAILED) as [->|]; done).
Qed.

Lemma follow_live p a q : follow p a = Some q → is_live q = false → is_live p = false.
Proof. destruct p; try done. cbn [follow]. destruct a as [[]|[]|]; try done; by intros [= <-]. Qed.

Lemma not_live_yet l p : follow_all POff l = Some p → is_live p = false → ∀ v, Wr DeviceStatus v ∈ l → Z.land v VIRTIO_STATUS_DRIVER_OK = 0.
Proof.
  revert p. induction l as [|a l IH] using rev_ind; intros p E Hp v Hv; [by apply not_elem_of_nil in Hv|].
  rewrite follow_all_snoc in E. apply bind_Some in E as (q & E & Ea). apply elem_of_app in Hv as [Hv|<-%list_elem_of_singleton].
  - eapply IH; [exact E|by eapply follow_live|done].
  - by eapply follow_driver_ok.
Qed.

Definition is_bell (x : Access) : bool := match x with Wr (Doorbell _) _ => true | _ => false end.

(** Before the card is live no doorbell rings. *)
Lemma follow_no_bell p a q : follow p a = Some q → is_live p = false → is_bell a = false.
Proof. destruct p; try done; cbn [follow]; destruct a as [|[] ?|]; try done; by destruct max. Qed.

Lemma no_bell_yet l p : follow_all POff l = Some p → is_live p = false → Forall (λ x, is_bell x = false) l.
Proof.
  revert p. induction l as [|a l IH] using rev_ind; intros p E Hp; [constructor|].
  rewrite follow_all_snoc in E. apply bind_Some in E as (q & E & Ea). pose proof (follow_live _ _ _ Ea Hp) as Hq.
  apply Forall_app. split; [by eapply IH|]. constructor; [by eapply follow_no_bell|constructor].
Qed.

Section init.
Context {D : Type} `{VirtioDevice D} (cfg : Z → Z) (hhdm_offset : Z).
Abbreviation Init := (Init D).

Lemma map_region_silent fn r (s : Init) va s' : map_pci_region cfg hhdm_offset fn r s = Some (va, s') → silent s s'.
Proof.
  unfold map_pci_region. destruct (negb _); [by intros [= _ <-]|]. cbn zeta. destruct (_ =? 0); [by intros [= _ <-]|].
  by intros ([x v] & _ & [= _ <-])%bind_Some.
Qed.

(** How the call ends. *)
Lemma init_outcome (s : Init) ok s' :
  log s = [] → hw_ready (g_hw (raw s)) = false → virtio_net_init_pci cfg hhdm_offset s = Some (ok, s') →
  if ok then ∃ o w l, live o w l s' ∧ w = Z.land o wanted_mask ∧ Z.land o VIRTIO_F_VERSION_1 ≠ 0
  else hw_ready (g_hw (raw s')) = false ∧ backend (g_net (raw s')) = backend (g_net (raw s))
       ∧ ∃ p, follow_all POff (log s') = Some p ∧ stopped p.
Proof.
  intros Hl Hr E. unfold virtio_net_init_pci in E. rewrite Hr in E. set (s1 := set_hw _ s) in E.
  assert (hw_ready (g_hw (raw s1)) = false ∧ backend (g_net (raw s1)) = backend (g_net (raw s)) ∧ log s1 = []) as (Hr1 & Hb1 & Hl1) by done.
  clearbody s1.
  destruct (pci_find_virtio_net cfg) as [fn|]; cycle 1.
  { injection E as <- <-. split_and!; [done|done|]. exists POff. rewrite Hl1. split; [done|by left]. }
  destruct (pci_enable_mmio_and_bus_mastering cfg fn) as [a v]. cbv zeta in E. set (s2 := s1 .[ log := _ ]) in E.
  assert (at_phase POff (-1) s2) as Ha by (split; [unfold s2; cbn [log set_field]; by rewrite Hl1|apply status_in_all]).
  change (raw s1) with (raw s2) in Hr1, Hb1. clearbody s2. destruct (parse_virtio_pci_layout cfg fn) as [found layout].
  assert (∀ t, silent s2 t → hw_ready (g_hw (raw t)) = false ∧ backend (g_net (raw t)) = backend (g_net (raw s))
    ∧ ∃ p, follow_all POff (log t) = Some p ∧ stopped p) as Hstop.
  { intros t (_ & El & ->). split_and!; [done|done|]. exists POff. rewrite El. split; [apply Ha|by left]. }
  destruct found; cbn [negb] in E; [|injection E as <- <-; by apply Hstop].
  apply bind_Some in E as ([c s3] & E3 & E). apply bind_Some in E as ([nb s4] & E4 & E). apply bind_Some in E as ([dc s5] & E5 & E).
  apply map_region_silent in E3, E4, E5. pose proof (silent_trans _ _ _ E3 (silent_trans _ _ _ E4 E5)) as Sil. clear E3 E4 E5.
  destruct (_ || _); [injection E as <- <-; by apply Hstop|]. pose proof (at_silent _ _ _ _ Ha Sil) as Ha5. destruct Sil as (_ & _ & Q).
  rewrite <- Q in Hr1, Hb1. pose proof (bring_up_order _ _ _ _ _ _ _ _ Ha5 Hr1 E) as Hout. destruct ok; [exact Hout|].
  destruct Hout as (H1 & H2 & p & st' & Hp & Hs). split_and!; [done|congruence|]. exists p. split; [apply Hp|exact Hs].
Qed.

(** C24: With any card, the accesses of [virtio_net_init_pci] are in the order of the standard, except
    that a call that succeeds notifies the receive queue just before it sets [DRIVER_OK]: the one
    doorbell it rings comes when both queues are enabled and the driver is not yet ready, so that the
    accesses with it are out of order, and without it in order.  The
    call succeeds exactly when the card goes live: it offers [VERSION_1], the driver has written, and
    keeps, those of the three features it knows that are on offer, both queues have their size and
    memory, and the interface uses the card. After a failure, all accesses are in order, and the card is
    not started and is not used. *)
Theorem init_in_order (s : Init) ok s' :
  log s = [] → hw_ready (g_hw (raw s)) = false → virtio_net_init_pci cfg hhdm_offset s = Some (ok, s') →
  if ok then ∃ offered l1 a l2, let written := Z.land offered wanted_mask in
         log s' = l1 ++ Wr (Doorbell a) VIRTIO_NET_RX_QUEUE :: l2
         ∧ follow_all POff l1 = Some (PFeatures offered written [VIRTIO_NET_RX_QUEUE; VIRTIO_NET_TX_QUEUE])
         ∧ follow_all POff (log s') = None
         ∧ follow_all POff (l1 ++ l2) = Some (PLive offered written) ∧ Forall (λ x, is_bell x = false) (l1 ++ l2)
         ∧ Z.land offered VIRTIO_F_VERSION_1 ≠ 0
         ∧ hw_features (g_hw (raw s')) = written ∧ hw_ready (g_hw (raw s')) = true ∧ backend (g_net (raw s')) = BackendVirtio
  else hw_ready (g_hw (raw s')) = false ∧ backend (g_net (raw s')) = backend (g_net (raw s))
       ∧ ∃ p, follow_all POff (log s') = Some p ∧ (p = POff ∨ p = PReset ∨ p = PFailed).
Proof.
  intros Hl Hr E. pose proof (init_outcome _ _ _ Hl Hr E) as Hout. destruct ok; [|exact Hout].
  destruct Hout as (o & w & l & L & -> & Hv). destruct L as [Hp ? ? ? (a & v & v' & n & El & Hf)].
  exists o, l, a, [Rd DeviceStatus v; Wr DeviceStatus v'; Rd NumQueues n]. cbv zeta in *. split_and!; try done.
  - by rewrite El, follow_all_app, Hp.
  - apply Forall_app. split; [by apply (no_bell_yet l _ Hp)|by repeat constructor].
Qed.

(** The receive queue is notified too early: in every successful call the doorbell rings
    before [DRIVER_OK] is written. *)
Theorem doorbell_before_driver_ok (s : Init) s' :
  log s = [] → hw_ready (g_hw (raw s)) = false → virtio_net_init_pci cfg hhdm_offset s = Some (true, s') →
  ∃ a l1 l2, log s' = l1 ++ Wr (Doorbell a) VIRTIO_NET_RX_QUEUE :: l2
    ∧ ∀ v, Wr DeviceStatus v ∈ l1 → Z.land v VIRTIO_STATUS_DRIVER_OK = 0.
Proof.
  intros Hl Hr E. destruct (init_outcome _ _ _ Hl Hr E) as (o & w & l & L & _ & _).
  destruct L as [Hp _ _ _ (a & v & v' & n & El & _)]. eexists a, l, _. split; [exact El|]. by apply (not_live_yet l _ Hp).
Qed.
End init.

(** ** The memory of the queues *)

Section memory.
Context {D : Type} `{VirtioDevice D} (hh : Z) (entries : list MemmapEntry) (P : platform hh entries).
Abbreviation Init := (Init D).
Abbreviation client v A := (frame_client hh entries (phys v) A).

(** The frames [ps] were handed out on the way from [v] to [v']. *)
Record takes (v : Vmm) (A : gset Z) (ps : list Z) (v' : Vmm) : Prop := {
  tk_nodup : NoDup ps;
  tk_fresh : ∀ p, p ∈ ps → p ∉ A;
  tk_client : client v' (list_to_set ps ∪ A)
}.

Lemma takes_app v A ps v1 qs v2 : takes v A ps v1 → takes v1 (list_to_set ps ∪ A) qs v2 → takes v A (ps ++ qs) v2.
Proof using. clear P.
  intros [H1 H2 _] [H4 H5 H6]. split.
  - apply NoDup_app. split_and!; [done| |done]. intros p Hp Hq. apply (H5 p Hq). set_solver.
  - intros p [Hp|Hp]%elem_of_app; [by apply H2|]. specialize (H5 p Hp). set_solver.
  - replace (list_to_set (ps ++ qs) ∪ A) with (list_to_set qs ∪ (list_to_set ps ∪ A) : gset Z); [done|].
    rewrite list_to_set_app_L. set_solver.
Qed.

Lemma takes_refl v A : client v A → takes v A [] v.
Proof using. intros C. split; [constructor|by intros p ?%not_elem_of_nil|]. cbn. by rewrite (left_id_L ∅ (∪)). Qed.

Definition page_addr (p : Z) : Z := p * 4096.

Lemma new_page_ok n (s : Init) A :
  client (vmm s) A → room entries (S n) A →
  ∃ p s', new_page hh s = Some (page_addr p, s') ∧ silent s s' ∧ takes (vmm s) A [p] (vmm s') ∧ room entries n (list_to_set [p] ∪ A).
Proof using P.
  intros C R. destruct (alloc_step hh entries P _ _ n C R) as (p & m & E & Hp & Hu & C' & R' & _).
  destruct (ok_frame_facts hh entries P p (usable_ok hh entries P p Hu)) as (Epa & Eva & _).
  unfold new_page. rewrite E. cbn [mbind option_bind]. rewrite Eva, Epa. cbn [mbind option_bind].
  eexists p, _. split; [reflexivity|]. cbn [list_to_set foldr]. rewrite (right_id_L ∅ (∪)). split_and!; [done| |done].
  split; [apply NoDup_singleton|by intros q ->%list_elem_of_singleton|]. cbn [list_to_set foldr]. by rewrite (right_id_L ∅ (∪)).
Qed.

Lemma list_to_set_app_room n (ps qs : list Z) A :
  room entries n (list_to_set qs ∪ (list_to_set ps ∪ A)) → room entries n (list_to_set (ps ++ qs) ∪ A).
Proof using. clear P.
  intros R. replace (list_to_set (ps ++ qs) ∪ A) with (list_to_set qs ∪ (list_to_set ps ∪ A) : gset Z); [done|].
  rewrite list_to_set_app_L. set_solver.
Qed.

Lemma buffers_ok k : ∀ n (s : Init) A,
  client (vmm s) A → room entries (k + n) A →
  ∃ ps s', alloc_packet_buffers hh k s = Some ((λ p, mkBuffer (replicate 4096 0) (page_addr p) false 0) <$> ps, s')
    ∧ silent s s' ∧ takes (vmm s) A ps (vmm s') ∧ room entries n (list_to_set ps ∪ A) ∧ length ps = k.
Proof using P.
  induction k as [|k IH]; intros n s A C R; cbn [alloc_packet_buffers].
  - exists [], s. split_and!; [done|done|by apply takes_refl| |done]. cbn. by rewrite (left_id_L ∅ (∪)).
  - destruct (new_page_ok (k + n) s A C R) as (p & s1 & -> & Sil & T & R1). cbn [mbind option_bind].
    destruct (IH n s1 _ (tk_client _ _ _ _ T) R1) as (ps & s2 & -> & Sil2 & T2 & R2 & Hl). cbn [mbind option_bind].
    exists (p :: ps), s2. split_and!; [done|by eapply silent_trans|exact (takes_app _ _ [p] _ _ _ T T2)| |by cbn; rewrite Hl].
    by apply (list_to_set_app_room n [p] ps).
Qed.

(** The addresses of the three parts of a queue. *)
Definition queue_pages (q : VirtioQueue) : list Z := [q_desc_pa q; q_avail_pa q; q_used_pa q].
Definition cleared (q : VirtioQueue) : Prop := q_avail q = avail_zero ∧ q_used q = used_zero.

Lemma queue_pages_ok n q (s : Init) A :
  client (vmm s) A → room entries (3 + n) A →
  ∃ ps q' s', alloc_queue_pages hh q s = Some (q', s') ∧ takes (vmm s) A ps (vmm s') ∧ room entries n (list_to_set ps ∪ A)
    ∧ queue_pages q' = page_addr <$> ps ∧ cleared q' ∧ length ps = 3%nat.
Proof using P.
  intros C R. unfold alloc_queue_pages.
  destruct (new_page_ok (2 + n) s A C R) as (p1 & s1 & -> & _ & T1 & R1). cbn [mbind option_bind].
  destruct (new_page_ok (1 + n) s1 _ (tk_client _ _ _ _ T1) R1) as (p2 & s2 & -> & _ & T2 & R2). cbn [mbind option_bind].
  destruct (new_page_ok n s2 _ (tk_client _ _ _ _ T2) R2) as (p3 & s3 & -> & _ & T3 & R3). cbn [mbind option_bind].
  pose proof (takes_app _ _ _ _ _ _ T1 T2) as T12.
  assert (takes (vmm s2) (list_to_set ([p1] ++ [p2]) ∪ A) [p3] (vmm s3)) as T3'.
  { replace (list_to_set ([p1] ++ [p2]) ∪ A) with (list_to_set [p2] ∪ (list_to_set [p1] ∪ A) : gset Z); [done|set_solver]. }
  exists [p1; p2; p3]. eexists _, s3. split; [reflexivity|]. split_and!; [exact (takes_app _ _ _ _ _ _ T12 T3')| |done..].
  apply (list_to_set_app_room n [p1; p2] [p3]).
  by replace (list_to_set [p1; p2] ∪ A) with (list_to_set [p2] ∪ (list_to_set [p1] ∪ A) : gset Z) by set_solver.
Qed.

Lemma setup_ok n nb mult i q (s : Init) A :
  client (vmm s) A → room entries (3 + n) A →
  ∃ ok ps q' s', setup_virtqueue hh nb mult i q s = Some (ok, q', s') ∧ takes (vmm s) A ps (vmm s')
    ∧ room entries n (list_to_set ps ∪ A)
    ∧ ok = negb ((rd QueueSize (wr QueueSelect i s)).1 <? VIRTIO_NET_QUEUE_SIZE)
    ∧ if ok then queue_pages q' = page_addr <$> ps ∧ cleared q' ∧ length ps = 3%nat ∧ is_Some (q_notify q') else ps = [].
Proof using P.
  intros C R. unfold setup_virtqueue. destruct (rd QueueSize (wr QueueSelect i s)) as [max s1] eqn:E1.
  destruct (quiet_rd _ _ _ _ E1) as [Q _]. change (vmm s1 = vmm s) in Q. rewrite <- Q in C |- *. clear E1 Q. cbn [fst].
  destruct (max <? VIRTIO_NET_QUEUE_SIZE); cbn [negb].
  - exists false, [], q, s1. split_and!; [done|by apply takes_refl| |done|done]. cbn. rewrite (left_id_L ∅ (∪)).
    do 3 apply room_S. exact R.
  - destruct (queue_pages_ok n q s1 A C R) as (ps & q' & s2 & -> & T & R2 & Hq & Hc & Hl). cbn [mbind option_bind].
    cbv zeta. destruct (rd QueueNotifyOff _) as [off s3] eqn:E3. destruct (quiet_rd _ _ _ _ E3) as [Q3 _].
    change (vmm s3 = vmm s2) in Q3. rewrite <- Q3 in T. eexists true, ps, _, _. split; [reflexivity|].
    split_and!; [exact T|done|done|done|done|done|by eexists].
Qed.
End memory.

Section handover.
Context {D : Type} `{VirtioDevice D} (hh : Z) (entries : list MemmapEntry) (P : platform hh entries).
Abbreviation Init := (Init D).
Abbreviation client v A := (frame_client hh entries (phys v) A).

Lemma mac_vmm n : ∀ i (s : Init) bs s', read_mac n i s = (bs, s') → vmm s' = vmm s.
Proof.
  induction n as [|n IH]; intros i s bs s' E; cbn [read_mac] in E; [by injection E as _ <-|].
  destruct (rd (DeviceCfg i) s) as [b s1] eqn:E1. destruct (read_mac n (i + 1) s1) as [bs1 s2] eqn:E2. injection E as _ <-.
  rewrite (IH _ _ _ _ E2). apply (quiet_rd _ _ _ _ E1).
Qed.

Lemma finish_vmm h (s : Init) : vmm (finish h s) = vmm s.
Proof.
  unfold finish. destruct (rd NumQueues _) as [v s1] eqn:E. destruct (quiet_rd _ _ _ _ E) as [Q _]. rewrite Q.
  set (l := drop _ _) in *.
  change (vmm (add_device_status VIRTIO_STATUS_DRIVER_OK (ring l s)) = vmm s). destruct (quiet_add VIRTIO_STATUS_DRIVER_OK (ring l s)) as [-> _].
  clear. revert s. induction l as [|b l IH]; intros s; [done|]. cbn [ring foldl]. exact (IH (wr (Doorbell b.1) b.2 s)).
Qed.

(** The rings of a card whose queues lie in the frames [ps]. *)
Definition owns (h : VirtioHwState) (ps : list Z) : Prop :=
  (b_pa <$> rx_buffers h) ++ (b_pa <$> tx_buffers h) ++ queue_pages (hw_rx h) ++ queue_pages (hw_tx h) = page_addr <$> ps
  ∧ q_desc (hw_rx h) = (λ b, mkDesc (addr_pa (b_pa b)) k_virtio_buffer_size VIRTQ_DESC_F_WRITE 0) <$> rx_buffers h
  ∧ Forall (λ b, k_virtio_buffer_size <= Z.of_nat (length (b_data b))) (rx_buffers h ++ tx_buffers h)
  ∧ tx_reachable (mkTxSys h 0 [] [] []).

Lemma init_commutes h a b :
  q_notify (hw_rx h) = Some a →
  (init_rx_buffers_locked (init_tx_buffers_locked h)) .[ hw_ready := b ] = init_tx_buffers_locked ((init_rx_buffers_locked h) .[ hw_ready := b ]).
Proof.
  intros E. unfold init_rx_buffers_locked, notify_queue. cbn [hw_rx q_notify set_field]. unfold init_tx_buffers_locked.
  cbn [hw_rx q_notify set_field]. by rewrite E.
Qed.

Definition new_buffer (p : Z) : VirtioBuffer := mkBuffer (replicate 4096 0) (page_addr p) false 0.

Lemma finish_owns h rxp txp rp tp :
  NoDup txp → length txp = 8%nat → rx_buffers h = new_buffer <$> rxp → tx_buffers h = new_buffer <$> txp →
  queue_pages (hw_rx h) = page_addr <$> rp → queue_pages (hw_tx h) = page_addr <$> tp → cleared (hw_tx h) →
  is_Some (q_notify (hw_rx h)) →
  owns ((init_rx_buffers_locked (init_tx_buffers_locked h)) .[ hw_ready := true ]) (rxp ++ txp ++ rp ++ tp).
Proof.
  intros Hnd Hl Hrx Htx Hrq Htq [Ha Hu] [a Hn]. rewrite (init_commutes _ a) by done. unfold owns.
  assert (b_pa <$> (new_buffer <$> txp) = page_addr <$> txp) as Epa by (by rewrite <- list_fmap_compose).
  assert (rx_buffers (init_rx_buffers_locked h) = (λ b, b .[ b_in_use := true ] .[ b_len := 0 ]) <$> rx_buffers h
    ∧ tx_buffers (init_rx_buffers_locked h) = tx_buffers h ∧ hw_tx (init_rx_buffers_locked h) = hw_tx h
    ∧ queue_pages (hw_rx (init_rx_buffers_locked h)) = queue_pages (hw_rx h)
    ∧ q_desc (hw_rx (init_rx_buffers_locked h)) =
        (λ b, mkDesc (addr_pa (b_pa b)) k_virtio_buffer_size VIRTQ_DESC_F_WRITE 0) <$> rx_buffers (init_rx_buffers_locked h)) as (E1 & E2 & E3 & E4 & E5).
  { unfold init_rx_buffers_locked, notify_queue. cbn [hw_rx q_notify set_field]. rewrite Hn. done. }
  set (h1 := init_rx_buffers_locked h) in *. clearbody h1. set (h2 := h1 .[ hw_ready := true ]).
  unfold init_tx_buffers_locked at 1 2 3 4 5 6 7 8. cbn [rx_buffers tx_buffers hw_rx hw_tx set_field queue_pages q_desc_pa q_avail_pa q_used_pa].
  split_and!.
  - change (rx_buffers h2) with (rx_buffers h1). change (tx_buffers h2) with (tx_buffers h1).
    change (hw_rx h2) with (hw_rx h1). rewrite !fmap_app, E1, E2, <- Hrq, <- Htq, Hrx, Htx, <- E4, <- !list_fmap_compose.
    rewrite <- E3. reflexivity.
  - exact E5.
  - change (rx_buffers h2) with (rx_buffers h1). change (tx_buffers h2) with (tx_buffers h1). rewrite E1, E2, Hrx, Htx, <- !list_fmap_compose.
    apply Forall_app. split; apply Forall_fmap, Forall_forall; intros p _; unfold compose, new_buffer; cbn [b_data set_field]; by rewrite length_replicate.
  - exists (mkTxSys (init_tx_buffers_locked h2) 0 [] [] []). split; [|apply rtc_refl]. exists h2. split; [|done].
    change (tx_buffers h2) with (tx_buffers h1). change (hw_tx h2) with (hw_tx h1). rewrite E2, E3, Htx. split.
    + by rewrite length_fmap.
    + by rewrite Ha.
    + by rewrite Hu.
    + apply Forall_fmap, Forall_forall. intros p _. unfold compose, new_buffer. cbn [b_data]. by rewrite length_replicate.
    + rewrite Epa. apply NoDup_fmap; [|done]. intros x y. unfold page_addr. lia.
Qed.
End handover.

Section bring_up.
Context {D : Type} `{VirtioDevice D} (hh : Z) (entries : list MemmapEntry) (P : platform hh entries).
Abbreviation Init := (Init D).
Abbreviation client v A := (frame_client hh entries (phys v) A).

Lemma bring_up_frames mult nb dc (s : Init) A :
  client (vmm s) A → room entries 22 A →
  ∃ ok ps s', bring_up hh mult nb dc s = Some (ok, s') ∧ takes hh entries (vmm s) A ps (vmm s')
    ∧ if ok then length ps = 22%nat ∧ owns (g_hw (raw s')) ps
      else (negotiate s).1 = None ∧ ps = [] ∨ length ps = 16%nat ∨ length ps = 19%nat.
Proof using P.
  intros C R. unfold bring_up. destruct (negotiate s) as [r s1] eqn:E1.
  assert (vmm s1 = vmm s) as Q1.
  { revert E1. unfold negotiate. generalize (Z.to_nat 1000000) as fuel. intros fuel E1.
    destruct (wait_for_reset fuel _) as [b t1] eqn:Ew. destruct (quiet_wait _ _ _ _ Ew) as [V1 _]. change (vmm t1 = vmm s) in V1.
    destruct b; cbn [negb] in E1; [|by injection E1 as _ <-].
    destruct (read_device_features _) as [o t2] eqn:Eo.
    assert (vmm t2 = vmm s) as V2.
    { unfold read_device_features in Eo. destruct (rd DeviceFeature _) as [lo t3] eqn:E3. destruct (rd DeviceFeature (wr _ _ t3)) as [hi t4] eqn:E4.
      injection Eo as _ <-. destruct (quiet_rd _ _ _ _ E4) as [-> _]. change (vmm t3 = vmm s). destruct (quiet_rd _ _ _ _ E3) as [-> _].
      change (vmm (add_device_status VIRTIO_STATUS_DRIVER (add_device_status VIRTIO_STATUS_ACKNOWLEDGE t1)) = vmm s).
      rewrite (proj1 (quiet_add VIRTIO_STATUS_DRIVER _)), (proj1 (quiet_add VIRTIO_STATUS_ACKNOWLEDGE _)). exact V1. }
    destruct (_ =? 0) in E1; [injection E1 as _ <-; exact V2|]. cbv zeta in E1.
    destruct (rd DeviceStatus _) as [st t5] eqn:E5. assert (vmm t5 = vmm s) as V5.
    { rewrite (proj1 (quiet_rd _ _ _ _ E5)), (proj1 (quiet_add _ _)). exact V2. }
    destruct (_ =? 0) in E1; injection E1 as _ <-; exact V5. }
  cbn [fst]. destruct r as [w|]; cycle 1.
  { exists false, [], s1. split_and!; [done| |by left]. rewrite Q1. by apply takes_refl. }
  lazymatch goal with |- context [if ?c then ?x else s1] => set (s2 := if c then x else s1) end.
  assert (vmm s2 = vmm s) as Q2.
  { unfold s2. destruct (_ && _); [|done]. destruct (read_mac 6 0 s1) as [mac t] eqn:Em. exact (eq_trans (mac_vmm _ _ _ _ _ Em) Q1). }
  clearbody s2. clear E1 Q1. rewrite <- Q2 in C |- *. clear Q2.
  destruct (buffers_ok hh entries P 8 14 s2 A C R) as (rxp & s3 & -> & _ & T3 & R3 & L3). cbn [mbind option_bind].
  destruct (buffers_ok hh entries P 8 6 s3 _ (tk_client _ _ _ _ _ _ T3) R3) as (txp & s4 & -> & _ & T4 & R4 & L4). cbn [mbind option_bind].
  pose proof (takes_app _ _ _ _ _ _ _ _ T3 T4) as T34. apply list_to_set_app_room in R4. cbv zeta.
  lazymatch goal with |- context [setup_virtqueue hh nb mult VIRTIO_NET_RX_QUEUE ?q s4] =>
    destruct (setup_ok hh entries P 3 nb mult VIRTIO_NET_RX_QUEUE q s4 _ (tk_client _ _ _ _ _ _ T34) R4)
      as (ok1 & rp & rx & s5 & -> & T5 & R5 & _ & H5) end.
  cbn [mbind option_bind]. pose proof (takes_app _ _ _ _ _ _ _ _ T34 T5) as T35. apply list_to_set_app_room in R5.
  destruct ok1; cbn [negb]; cycle 1.
  { subst rp. eexists false, _, _. split; [reflexivity|]. split; [exact T35|]. right. left. rewrite !length_app, L3, L4. done. }
  destruct H5 as (Hq5 & _ & L5 & Hn5).
  lazymatch goal with |- context [setup_virtqueue hh nb mult VIRTIO_NET_TX_QUEUE ?q s5] =>
    destruct (setup_ok hh entries P 0 nb mult VIRTIO_NET_TX_QUEUE q s5 _ (tk_client _ _ _ _ _ _ T35) R5)
      as (ok2 & tp & tx & s6 & -> & T6 & _ & _ & H6) end.
  cbn [mbind option_bind]. pose proof (takes_app _ _ _ _ _ _ _ _ T35 T6) as T36. destruct ok2; cbn [negb]; cycle 1.
  { subst tp. eexists false, _, _. split; [reflexivity|]. split; [exact T36|]. right. right. rewrite !length_app, L3, L4, L5. done. }
  destruct H6 as (Hq6 & Hc6 & L6 & _).
  lazymatch goal with |- context [@set_field _ _ hw_features ?i w ?x] => set (h := @set_field _ _ hw_features i w x) end.
  exists true, (((rxp ++ txp) ++ rp) ++ tp), (finish h s6). split; [|split].
  - unfold finish. cbv zeta. destruct (rd NumQueues _). done.
  - by rewrite finish_vmm.
  - split; [rewrite !length_app, L3, L4, L5, L6; done|]. rewrite <- !app_assoc. unfold finish. cbv zeta.
    destruct (rd NumQueues _) as [v s7] eqn:E7. rewrite (proj2 (quiet_rd _ _ _ _ E7)).
    apply (finish_owns h rxp txp rp tp (tk_nodup _ _ _ _ _ _ T4)); done.
Qed.

(** C25: With 22 frames left, the set-up of the card never stops the machine. When it succeeds
    the card has been given the addresses of 22 different frames that nobody else holds, each buffer is
    as large as its descriptor says, and the rings are in a start state of the transmit protocol, so that
    what is proved of every reachable state holds from here on. *)
Theorem bring_up_owns_memory mult nb dc (s : Init) A :
  client (vmm s) A → room entries 22 A →
  ∃ ok s', bring_up hh mult nb dc s = Some (ok, s')
    ∧ (ok = true → ∃ ps, length ps = 22%nat ∧ NoDup ps ∧ (∀ p, p ∈ ps → p ∉ A) ∧ client (vmm s') (list_to_set ps ∪ A)
        ∧ owns (g_hw (raw s')) ps).
Proof using P.
  intros C R. destruct (bring_up_frames mult nb dc s A C R) as (ok & ps & s' & E & [T1 T2 T3] & Hout). exists ok, s'. split; [done|].
  intros ->. destruct Hout as [L O]. by exists ps.
Qed.

(** A set-up that fails after the features were agreed on keeps at least 16 frames: they stay
    handed out, and the next attempt clears the pointers to them. *)
Theorem failed_bring_up_leaks mult nb dc (s : Init) A s' :
  client (vmm s) A → room entries 22 A → (negotiate s).1 ≠ None → bring_up hh mult nb dc s = Some (false, s') →
  ∃ ps, (16 <= length ps)%nat ∧ NoDup ps ∧ (∀ p, p ∈ ps → p ∉ A) ∧ client (vmm s') (list_to_set ps ∪ A).
Proof using P.
  intros C R Hn E. destruct (bring_up_frames mult nb dc s A C R) as (ok & ps & s2 & E2 & [T1 T2 T3] & Hout).
  rewrite E in E2. injection E2 as <- <-. exists ps. split_and!; [|done..]. destruct Hout as [[? _]|[-> | ->]]; [done|lia|lia].
Qed.
End bring_up.

(** ** The walk of the capabilities *)

Section walk.
Context (cfg : Z → Z) (fn : PciFunction).

(** The capabilities the chain visits, in order, at most [n]. *)
Fixpoint chain (n : nat) (cap : Z) : list Z :=
  match n with
  | O => []
  | S n => if cap =? 0 then [] else cap :: chain n (next_cap cfg fn cap)
  end.

(** What a capability says of the region [type]. *)
Definition describes (type cap : Z) : bool :=
  (cap8 cfg fn cap =? PCI_CAP_ID_VENDOR) && (cap8 cfg fn (cap + 4) <? 6) && (cap8 cfg fn (cap + 3) =? type).
Definition region_at (cap : Z) : VirtioPciRegion :=
  mkRegion true (cap8 cfg fn (cap + 4)) (cap32 cfg fn (cap + 8)) (cap32 cfg fn (cap + 12)).
Definition last_region (type : Z) (caps : list Z) : VirtioPciRegion :=
  match last (filter (λ c, describes type c = true) caps) with Some c => region_at c | None => no_region end.

Lemma parse_caps_snoc n : ∀ cap layout, parse_caps cfg fn n cap layout = foldl (λ l c, parse_cap cfg fn c l) layout (chain n cap).
Proof. induction n as [|n IH]; intros cap layout; cbn [parse_caps chain]; [done|]. destruct (cap =? 0); [done|]. apply IH. Qed.

Lemma last_region_snoc type caps c :
  last_region type (caps ++ [c]) = if describes type c then region_at c else last_region type caps.
Proof.
  unfold last_region. rewrite filter_app. destruct (describes type c) eqn:E.
  - rewrite filter_cons_True by done. by rewrite filter_nil, last_snoc.
  - rewrite filter_cons_False by congruence. by rewrite filter_nil, app_nil_r.
Qed.

Lemma parse_fold caps : let l := foldl (λ l c, parse_cap cfg fn c l) no_layout caps in
  l_common l = last_region 1 caps ∧ l_notify l = last_region 2 caps ∧ l_isr l = last_region 3 caps ∧ l_device l = last_region 4 caps.
Proof.
  induction caps as [|c caps IH] using rev_ind; [done|]. rewrite foldl_app. cbn [foldl]. rewrite !last_region_snoc.
  set (l := foldl _ _ caps) in *. clearbody l. unfold parse_cap, describes.
  destruct (_ =? PCI_CAP_ID_VENDOR); cbn [andb]; [|exact IH]. cbv zeta. destruct (_ <? 6); cbn [andb]; [|exact IH].
  unfold VIRTIO_PCI_CAP_COMMON_CFG, VIRTIO_PCI_CAP_NOTIFY_CFG, VIRTIO_PCI_CAP_ISR_CFG, VIRTIO_PCI_CAP_DEVICE_CFG.
  generalize (cap8 cfg fn (c + 3)) as t. intros t. destruct IH as (H1 & H2 & H3 & H4).
  destruct (Z.eqb_spec t 1) as [->|]; [done|]. destruct (Z.eqb_spec t 2) as [->|]; [done|].
  destruct (Z.eqb_spec t 3) as [->|]; [done|]. destruct (Z.eqb_spec t 4) as [->|]; done.
Qed.

Lemma chain_length n cap : (length (chain n cap) <= n)%nat.
Proof. revert cap. induction n as [|n IH]; intros cap; cbn [chain]; [done|]. destruct (cap =? 0); [cbn; lia|]. cbn. specialize (IH (next_cap cfg fn cap)). lia. Qed.

(** Whatever the configuration space holds, a cyclic list too, the walk looks at no more than 48
    capabilities; each region is the one the last of them with its type describes, a capability that names no
    base address register is skipped, and the card is accepted iff the common and the notification region were found. *)
Theorem parse_layout_last :
  ∃ caps, (length caps <= 48)%nat ∧ caps = chain 48 (u8 (Z.land (cap8 cfg fn PCI_REG_CAP_PTR) 0xfc))
    ∧ let '(found, l) := parse_virtio_pci_layout cfg fn in
      l_common l = last_region 1 caps ∧ l_notify l = last_region 2 caps ∧ l_isr l = last_region 3 caps ∧ l_device l = last_region 4 caps
      ∧ (found = true ↔ (∃ c, c ∈ caps ∧ describes 1 c = true) ∧ ∃ c, c ∈ caps ∧ describes 2 c = true).
Proof.
  eexists. split; [apply chain_length|split; [reflexivity|]]. unfold parse_virtio_pci_layout. rewrite parse_caps_snoc.
  generalize (chain 48 (u8 (Z.land (cap8 cfg fn PCI_REG_CAP_PTR) 0xfc))) as caps. intros caps.
  destruct (parse_fold caps) as (H1 & H2 & H3 & H4). split_and!; [done..|]. rewrite andb_true_iff, H1, H2.
  assert (∀ type, present (last_region type caps) = true ↔ ∃ c, c ∈ caps ∧ describes type c = true) as Hp.
  { clear. intros type. unfold last_region. destruct (last _) as [c|] eqn:E.
    - split; [intros _|done]. apply last_Some_elem_of, list_elem_of_filter in E as [? ?]. by exists c.
    - split; [done|]. intros (c & Hc & Hd). apply last_None in E. exfalso.
      assert (c ∈ filter (λ c, describes type c = true) caps) as Hin by (by apply list_elem_of_filter). rewrite E in Hin. by apply not_elem_of_nil in Hin. }
  by rewrite !Hp.
Qed.
End walk.

(** ** A card *)

Lemma status_in_refl x : status_in x x.
Proof. by apply status_in_spec. Qed.

(** Its state is its status and the feature word that is selected. *)
#[export] Instance demo_card (queue_size : Z) : VirtioDevice (Z * Z).
Proof.
  refine {|
    dev_read r d := (match r with
                     | DeviceStatus => d.1
                     | DeviceFeature => if d.2 =? 0 then 65573 else 1
                     | NumQueues => 2 | QueueSize => queue_size | QueueNotifyOff => 1
                     | DeviceCfg i => 82 + i
                     | _ => 0
                     end, d);
    dev_write r v d := match r with
                       | DeviceStatus => (v, d.2)
                       | DeviceFeatureSelect => (d.1, v)
                       | _ => d
                       end;
    dev_status d := d.1
  |}.
  - intros d. split; apply status_in_refl.
  - intros r d _. apply status_in_refl.
  - intros v d _. apply status_in_refl.
  - intros r v d Hr. destruct r; try done; apply status_in_refl.
Defined.

(** Its configuration space: slot 3 of bus 0, three capabilities. *)
Definition demo_cfg (a : Z) : Z :=
  let off := a - pci_config_address 0 3 0 0 in
  if (off <? 0) || (256 <=? off) then 4294967295
  else if off =? 0 then 0x10411af4
  else if off =? 0x10 then 0xfe000000
  else if off =? 0x34 then 0x40
  else if off =? 0x40 then 9 + 0x50 * 256 + 1 * 16777216
  else if off =? 0x4c then 56
  else if off =? 0x50 then 9 + 0x64 * 256 + 2 * 16777216
  else if off =? 0x58 then 0x1000
  else if off =? 0x5c then 0x1000
  else if off =? 0x60 then 4
  else if off =? 0x64 then 9 + 4 * 16777216
  else if off =? 0x6c then 0x2000
  else if off =? 0x70 then 0x1000
  else 0.

Definition demo_mem : list MemmapEntry := [mkEntry 0 4096 262144].
Lemma demo_mem_ok : platform demo_hhdm demo_mem.
Proof.
  split; [by vm_compute|by vm_compute| |].
  - intros e ->%list_elem_of_singleton _. by vm_compute.
  - intros i j e e' Hi Hj _ _ Hne. destruct i as [|i], j as [|j]; by simplify_eq/=.
Qed.

(** The root table is the first frame. *)
Definition demo_phys : PhysMem := (demo_alloc (PhysMem_init (Some demo_mem) ∅)).2.
Definition demo_machine : Init (Z * Z) :=
  mkInit (0, 0) [] (mkVmm demo_phys 4096 4096 [] [] 1 1) boot_nic.

Lemma demo_client : frame_client demo_hhdm demo_mem (phys (vmm demo_machine)) ({[1]} ∪ ∅) ∧ room demo_mem 22 ({[1]} ∪ ∅).
Proof.
  split.
  - apply (fc_alloc _ _ (PhysMem_init (Some demo_mem) ∅)); [apply fc_init|].
    change (vmm demo_machine) with (mkVmm demo_phys 4096 4096 [] [] 1 1). cbn [phys]. unfold demo_phys, demo_alloc.
    destruct (alloc demo_hhdm (PhysMem_init (Some demo_mem) ∅)) as [[p m]|] eqn:E; cbn [default snd].
    + assert (p = 1) as ->; [|done]. assert (fst <$> alloc demo_hhdm (PhysMem_init (Some demo_mem) ∅) = Some 1) as E1 by (vm_compute; reflexivity).
      rewrite E in E1. by injection E1.
    + exfalso. assert (fst <$> alloc demo_hhdm (PhysMem_init (Some demo_mem) ∅) = Some 1) as E1 by (vm_compute; reflexivity). by rewrite E in E1.
  - exists (seqZ 10 22). split_and!; [apply NoDup_seqZ|done|]. intros p [Hp1 Hp2]%elem_of_seqZ. split.
    + exists (mkEntry 0 4096 262144). split_and!; [by left|done|]. unfold range_frame. cbn. lia.
    + rewrite not_elem_of_union, not_elem_of_singleton. split; [lia|apply not_elem_of_empty].
Qed.

Abbreviation demo_call c := (@virtio_net_init_pci (Z * Z) (demo_card c) demo_cfg demo_hhdm demo_machine).
Abbreviation demo_bring_up c := (@bring_up (Z * Z) (demo_card c) demo_hhdm 4 18446603340482613248 0 demo_machine).

Lemma demo_live : ∃ s', demo_call 256 = Some (true, s').
Proof.
  assert (fst <$> demo_call 256 = Some true) as E by (vm_compute; reflexivity).
  destruct (demo_call 256) as [[ok s']|]; [|done]. cbn in E. injection E as ->. by exists s'.
Qed.

Lemma init_in_order_witness : ∃ s' o w l1 a l2, demo_call 256 = Some (true, s') ∧ log s' = l1 ++ Wr (Doorbell a) 0 :: l2
  ∧ follow_all POff (l1 ++ l2) = Some (PLive o w) ∧ hw_ready (g_hw (raw s')) = true.
Proof.
  destruct demo_live as [s' E]. exists s'.
  destruct (@init_in_order (Z * Z) (demo_card 256) demo_cfg demo_hhdm demo_machine true s' eq_refl eq_refl E)
    as (o & l1 & a & l2 & H1 & _ & _ & H2 & _ & _ & _ & H3 & _).
  exists o, (Z.land o wanted_mask), l1, a, l2. split_and!; assumption.
Defined.

Lemma doorbell_before_driver_ok_witness : ∃ s' a l1 l2, demo_call 256 = Some (true, s') ∧ log s' = l1 ++ Wr (Doorbell a) 0 :: l2.
Proof.
  destruct demo_live as [s' E]. exists s'.
  destruct (@doorbell_before_driver_ok (Z * Z) (demo_card 256) demo_cfg demo_hhdm demo_machine s' eq_refl eq_refl E) as (a & l1 & l2 & H & _).
  exists a, l1, l2. split; assumption.
Defined.

Lemma bring_up_owns_memory_witness : ∃ s' ps, demo_bring_up 256 = Some (true, s') ∧ length ps = 22%nat ∧ owns (g_hw (raw s')) ps.
Proof.
  destruct demo_client as [C R].
  destruct (@bring_up_owns_memory (Z * Z) (demo_card 256) demo_hhdm demo_mem demo_mem_ok 4 18446603340482613248 0 demo_machine _ C R) as (ok & s' & E & Hs).
  assert (ok = true) as ->.
  { assert (fst <$> demo_bring_up 256 = Some true) as Et by (vm_compute; reflexivity). rewrite E in Et. by injection Et. }
  destruct (Hs eq_refl) as (ps & Hl & _ & _ & _ & Ho). exists s', ps. split_and!; assumption.
Defined.

(** The receive queue of this card has only four slots. *)
Lemma failed_bring_up_leaks_witness : ∃ s' ps, demo_bring_up 4 = Some (false, s') ∧ (16 <= length ps)%nat ∧ NoDup (ps : list Z).
Proof.
  destruct demo_client as [C R]. assert (fst <$> demo_bring_up 4 = Some false) as Et by (vm_compute; reflexivity).
  destruct (demo_bring_up 4) as [[ok s']|] eqn:E; [|discriminate Et]. cbn in Et. assert (ok = false) as -> by congruence.
  assert ((@negotiate (Z * Z) (demo_card 4) demo_machine).1 ≠ None) as Hn by (vm_compute; discriminate).
  destruct (@failed_bring_up_leaks (Z * Z) (demo_card 4) demo_hhdm demo_mem demo_mem_ok 4 18446603340482613248 0 demo_machine _ s' C R Hn E)
    as (ps & Hl & Hnd & _). exists s', ps. split_and!; [reflexivity|assumption|assumption].
Defined.
