(* ===== verification/VmmThreads.v ===== *)
(** * Address spaces of threads ([vmm.cc]: [init_thread], [fini_thread])

    A thread starts with an empty lower half and the kernel's upper half, and
    gives back what it holds when it ends: the frames behind its mappings, the
    tables of its lower half and its root table. *)

From stdpp Require Import gmap.
From S2P Require Import Prelude PhysMem BlockIO Ext2 PageTable AddrSpace Vme Vmm.

Section Threads.
Context (hh : Z) (entries : list MemmapEntry) (P : platform hh entries).
Let memmap := Some entries.

Abbreviation frame_client := (frame_client hh entries) (only parsing).
Abbreviation owned := (owned hh entries) (only parsing).

(** ** Freeing a tree of tables *)

(** A frame the kernel is configured for, which [free_table_tree] gives back. *)
Definition low_frame (p : Z) : Prop := p * 4096 < CONFIGURED_MAX_PA.

(** What freeing the tables below table [t] of a level does. *)
Definition frees (l : nat) : Prop := ∀ t T s A,
  frame_client s A → tree l t T s → (∀ p, p ∈ T → p ∈ A ∧ low_frame p) →
  ∃ s' A', free_table_tree hh memmap l t s = Some s' ∧ frame_client s' A'
    ∧ (∀ p, p ∈ A' ↔ p ∈ A ∧ (p ∉ T ∨ p = t))
    ∧ ∀ a, a / 4096 ∉ T → word s' a = word s a.

(** An entry of table [t] at level [S l], with the tables [sub] below it. *)
Definition entry_tree (l : nat) (t i : Z) (sub : gset Z) (s : PhysMem) : Prop :=
  let e := word s (slot t i) in
  if has e PTE_PRESENT then
    if is_huge e (S l)
    then sub = ∅ ∧ Z.land e PTE_ADDR_MASK mod (4096 * 512 ^ Z.of_nat (S l)) = 0
    else tree l (addr_of e) sub s
  else sub = ∅.

Lemma entry_tree_frame l t i sub s s' :
  entry_tree l t i sub s → word s' (slot t i) = word s (slot t i) →
  (∀ a, a / 4096 ∈ sub → word s' a = word s a) → entry_tree l t i sub s'.
Proof using.
  unfold entry_tree. intros H E Hw. cbn zeta in *. rewrite E. destruct (has _ PTE_PRESENT); [|done].
  destruct (is_huge _ _); [done|]. by eapply tree_frame.
Qed.

(** Freeing one entry, as the body of the loop does. *)
Lemma free_entry_ok l huge t i sub s A :
  frees l → (∀ e, is_huge e (S l) = has e PTE_HUGE && huge) →
  frame_client s A → owned A t → 0 <= i < 512 → entry_tree l t i sub s → t ∉ sub → (∀ p, p ∈ sub → p ∈ A ∧ low_frame p) →
  ∃ s' A', (let entry := entry_at hh (frame_va hh t) i s in
      if negb (has entry PTE_PRESENT) then Some s
      else if has entry PTE_HUGE && huge then Some (set_entry hh (frame_va hh t) i 0 s)
      else
        let child := entry_ppn entry in
        if (child =? 0) || negb (ppn_in_configured_phys child) then Some (set_entry hh (frame_va hh t) i 0 s)
        else
          s ← free_table_tree hh memmap l child s;
          free hh memmap child (set_entry hh (frame_va hh t) i 0 s)) = Some s'
    ∧ frame_client s' A' ∧ (∀ p, p ∈ A' ↔ p ∈ A ∧ p ∉ sub)
    ∧ ∀ a, a ≠ slot t i → a / 4096 ∉ sub → word s' a = word s a.
Proof using P.
  intros Hl Hhuge C Hot Hi He Ht Hsub. pose proof (proj1 Hot) as Hok. cbv zeta. rewrite (entry_at_word _ _ P) by done.
  unfold entry_tree in He. cbn zeta in He. set (e := word s (slot t i)) in *. rewrite <- Hhuge.
  assert (∀ A0 s0, frame_client s0 A0 → owned A0 t → frame_client (set_entry hh (frame_va hh t) i 0 s0) A0
    ∧ ∀ a, a ≠ slot t i → word (set_entry hh (frame_va hh t) i 0 s0) a = word s0 a) as Hset.
  { intros A0 s0 C0 Ho0. split; [by apply (set_entry_client _ _ P)|]. intros a Ha. by rewrite (word_set_entry _ _ P), decide_False. }
  destruct (has e PTE_PRESENT); cbn [negb].
  2: { subst sub. exists s, A. split_and!; [done..| |done]. intros p. set_solver. }
  destruct (is_huge e (S l)).
  { destruct He as [-> _]. destruct (Hset A s C Hot). eexists _, A. split_and!; [reflexivity|done| |auto].
    intros p. set_solver. }
  set (c := addr_of e) in *. pose proof (tree_root _ _ _ _ He) as Hc. destruct (Hsub c Hc) as [HcA Hlow].
  assert (usable entries c) as Hus by (by eapply client_usable).
  pose proof (usable_ok _ _ P c Hus) as Hcok. pose proof (ok_frame_bound _ _ P c Hcok) as Hcb.
  assert (entry_ppn e = c) as -> by (apply entry_ppn_addr; apply Hcb).
  rewrite (proj2 (Z.eqb_neq c 0)) by lia. unfold ppn_in_configured_phys.
  destruct (ok_frame_facts _ _ P c Hcok) as (-> & _). rewrite (proj2 (Z.ltb_lt _ _) Hlow). cbn [orb negb].
  destruct (Hl c sub s A C He Hsub) as (s1 & A1 & -> & C1 & HA1 & Hw1). cbn [mbind option_bind].
  assert (owned A1 t) as Hot1.
  { split; [done|]. intros Hu. apply HA1. split; [by apply Hot|by left]. }
  destruct (Hset A1 s1 C1 Hot1) as [C2 Hw2]. set (s2 := set_entry hh (frame_va hh t) i 0 s1) in *.
  assert (c ∈ A1) as HcA1 by (apply HA1; auto).
  destruct (frame_client_inv _ _ P _ _ C2) as [chain I].
  destruct (give_back_ok _ _ P _ _ _ _ I HcA1) as (s3 & E3 & _ & Hw3). exists s3, (A1 ∖ {[c]}).
  split_and!; [exact E3|by eapply fc_free| |].
  - intros p. rewrite elem_of_difference, elem_of_singleton, HA1. split.
    + intros [[? [?|?]] ?]; [by split|done].
    + intros [? Hp]. split; [by split; [|left]|]. by intros ->.
  - intros a Ha Hin. rewrite Hw3, Hw2, Hw1; [done..|]. intros ->. rewrite Z.div_mul in Hin by done. done.
Qed.

Lemma free_entries_ok l huge t sub n : ∀ i s A,
  frees l → (∀ e, is_huge e (S l) = has e PTE_HUGE && huge) →
  frame_client s A → owned A t → 0 <= i → i + Z.of_nat n <= 512 →
  (∀ j, i <= j < i + Z.of_nat n → entry_tree l t j (sub j) s ∧ t ∉ sub j ∧ ∀ p, p ∈ sub j → p ∈ A ∧ low_frame p) →
  (∀ j k, i <= j < i + Z.of_nat n → i <= k < i + Z.of_nat n → j ≠ k → sub j ## sub k) →
  ∃ s' A', free_entries hh memmap (free_table_tree hh memmap l) huge n i (frame_va hh t) s = Some s'
    ∧ frame_client s' A' ∧ (∀ p, p ∈ A' ↔ p ∈ A ∧ ¬ ∃ j, i <= j < i + Z.of_nat n ∧ p ∈ sub j)
    ∧ ∀ a, a / 4096 ≠ t → (∀ j, i <= j < i + Z.of_nat n → a / 4096 ∉ sub j) → word s' a = word s a.
Proof using P.
  induction n as [|n IH]; intros i s A Hl Hhuge C Hot Hi Hn He Hd; cbn [free_entries].
  { exists s, A. split_and!; [done..| |done]. intros p. split; [|by intros [? _]]. intros ?. split; [done|].
    intros (j & ? & _). lia. }
  destruct (He i ltac:(lia)) as (Hei & Hti & Hsubi).
  destruct (free_entry_ok l huge t i (sub i) s A) as (s1 & A1 & E & C1 & HA1 & Hw1); [done..|lia|done|done|done|].
  cbv zeta in E |- *. rewrite E. cbn [mbind option_bind].
  assert (owned A1 t) as Hot1.
  { split; [apply Hot|]. intros Hu. apply HA1. split; [by apply Hot|done]. }
  destruct (IH (i + 1) s1 A1) as (s' & A' & E' & C' & HA' & Hw'); try done; try lia.
  - intros j Hj. destruct (He j ltac:(lia)) as (Hej & Htj & Hsubj). split_and!; [|done|].
    + eapply entry_tree_frame; [exact Hej|apply Hw1|].
      * intros ?%slot_inj. lia.
      * by rewrite slot_frame by lia.
      * intros a Ha. apply Hw1; [intros ->; rewrite slot_frame in Ha by lia; done|].
        intros Ha'. by apply (Hd i j ltac:(lia) ltac:(lia) ltac:(lia) (a / 4096)).
    + intros p Hp. destruct (Hsubj p Hp). split; [|done]. apply HA1. split; [done|].
      intros Hp'. by apply (Hd i j ltac:(lia) ltac:(lia) ltac:(lia) p).
  - intros j k Hj Hk. apply Hd; lia.
  - exists s', A'. split_and!; [done..| |].
    + intros p. rewrite HA', HA1. split.
      * intros [[HA Hni] Hnj]. split; [done|]. intros (j & Hj & Hp). destruct (decide (j = i)) as [->|]; [done|].
        apply Hnj. exists j. split; [lia|done].
      * intros [HA Hnj]. split; [split; [done|]|].
        -- intros Hp. apply Hnj. exists i. split; [lia|done].
        -- intros (j & Hj & Hp). apply Hnj. exists j. split; [lia|done].
    + intros a Ha Hnj. rewrite Hw'; [|done|intros j Hj; apply Hnj; lia]. apply Hw1; [|apply Hnj; lia].
      intros ->. by rewrite slot_frame in Ha by lia.
Qed.

Lemma free_table_tree_ok l : (l <= 2)%nat → frees l.
Proof using P.
  induction l as [|l IH]; intros Hle t T s A C Ht HT.
  { cbn in Ht. subst T. exists s, A. cbn [free_table_tree]. split_and!; [done..| |done].
    intros p. rewrite elem_of_singleton. split; [|by intros [? _]]. intros ?. split; [done|].
    destruct (decide (p = t)); [by right|by left]. }
  pose proof (tree_root _ _ _ _ Ht) as Hroot. destruct (HT t Hroot) as [HtA _].
  pose proof (client_owned _ _ P _ _ _ C HtA) as Hot.
  destruct Ht as (sub & H1 & H2 & H3 & H4). cbn [free_table_tree]. rewrite (VA_of_table _ _ P) by apply Hot.
  cbn [mbind option_bind].
  destruct (free_entries_ok l ((S l =? 2)%nat || (S l =? 1)%nat) t sub 512 0 s A) as (s' & A' & -> & C' & HA' & Hw');
    [apply IH; lia|done|done|done|lia|lia| | |].
  - intros j Hj. split_and!; [apply H4; lia|apply H1; lia|]. intros p Hp. apply HT, H3. right. exists j. split; [lia|done].
  - intros j k Hj Hk. apply H2; lia.
  - exists s', A'. split_and!; [done..| |].
    + intros p. rewrite HA', H3. split.
      * intros [HA Hn]. split; [done|]. destruct (decide (p = t)) as [->|Hne]; [by right|left].
        intros [?|(j & Hj & Hp)]; [done|]. apply Hn. exists j. split; [lia|done].
      * intros [HA [Hn| ->]]; (split; [done|]); intros (j & Hj & Hp).
        -- apply Hn. right. exists j. split; [lia|done].
        -- by apply (H1 j ltac:(lia)).
    + intros a Ha. apply Hw'.
      * intros E. apply Ha. rewrite E. apply H3. by left.
      * intros j Hj Hp. apply Ha, H3. right. exists j. split; [lia|done].
Qed.
(** ** The frames behind the mappings *)

Lemma free_all_frames_ok root T l : ∀ lo s A M,
  aspace hh entries low_page root s A T M → wf_vmes lo (2 ^ 47) l → 0 <= lo →
  ∃ s' A' M', free_all_frames hh memmap l (root * 4096) s = Some s'
    ∧ aspace hh entries low_page root s' A' T M'
    ∧ unmapped root (λ vpn, is_Some (find_vme l (vpn * 4096))) T s s' A A' M M'.
Proof using P.
  induction l as [|v l IH]; intros lo s A M Hs Hwf Hlo; cbn [free_all_frames].
  { exists s, A, M. split_and!; [done..|]. apply unmapped_refl. by intros vpn [? ?]. }
  cbn [wf_vmes] in Hwf. destruct Hwf as ((Hse & Hvs & Hve & _) & Hlov & Hwf). pose proof (wf_lo _ _ _ Hwf) as Hend.
  destruct (unmap_range_ok _ _ P root T s A M (start v) (end_ v)) as (s1 & A1 & M1 & E1 & Hs1 & U1); [done..|lia|done|].
  unfold free_mapped_frames. fold memmap in E1. rewrite E1. cbn [mbind option_bind].
  destruct (IH (end_ v) s1 A1 M1 Hs1 Hwf) as (s' & A' & M' & -> & Hs' & U'); [lia|].
  exists s', A', M'. split_and!; [done..|]. eapply unmapped_trans; [exact U1|exact U'|].
  intros vpn. cbn beta. rewrite find_vme_cons. case_decide as Hc.
  - split; [intros _; by left|intros _; by eexists].
  - split; [intros ?; by right|intros [?|?]; [done|done]].
Qed.

(** Freeing the lower half of a root table. *)
Lemma free_private_ok root T s A M :
  aspace hh entries low_page root s A T M → root ∈ A → (∀ p, p ∈ low_tables root s → p ∈ A ∧ low_frame p) →
  ∃ s' A', free_private_page_tables hh memmap (root * 4096) s = Some s' ∧ frame_client s' A'
    ∧ ∀ p, p ∈ A' ↔ p ∈ A ∧ p ∉ low_tables root s.
Proof using P.
  intros Hs Hroot Hlow. pose proof (as_client _ _ _ _ _ _ _ _ Hs) as C.
  pose proof (client_owned _ _ P _ _ _ C Hroot) as Hot.
  destruct (as_tree _ _ _ _ _ _ _ _ Hs) as (sub & H1 & H2 & H3 & H4).
  assert (∀ i p, 0 <= i < 512 → p ∈ branch 2 root i s ↔ p ∈ sub i) as Hbr.
  { intros i p Hi. apply branch_sub. exact (H4 i Hi). }
  unfold free_private_page_tables. rewrite (root_ppn _ _ P), (VA_of_table _ _ P) by apply Hot. cbn [mbind option_bind].
  destruct (free_entries_ok 2 false root sub 256 0 s A) as (s' & A' & -> & C' & HA' & _);
    [by apply free_table_tree_ok|intros e; unfold is_huge; by rewrite !andb_false_r|done|done|lia|lia| | |].
  - intros j Hj. split_and!; [apply H4; lia|apply H1; lia|]. intros p Hp. apply Hlow, elem_of_low_tables.
    exists j. split; [lia|]. apply Hbr; [lia|done].
  - intros j k Hj Hk. apply H2; lia.
  - exists s', A'. split_and!; [done..|]. intros p. rewrite HA', elem_of_low_tables.
    split; intros [HA Hn]; (split; [done|]); intros (j & Hj & Hp); apply Hn; exists j; (split; [lia|]); apply Hbr; (lia || done).
Qed.

(** C23: When a thread ends, exactly these frames go back to the allocator, each once: the frames behind
    its mappings, the tables of its lower half and its root table.  (Frames mapped outside
    every mapping, those of the program image, its stack, the [brk] heap and all copies [fork]
    makes, are not among them: they are lost.) *)
Theorem fini_thread_frees root v A T M :
  aspace hh entries low_page root (phys v) A T M → cr3 v = root * 4096 → wf_vmes PRIVATE_BASE (2 ^ 47) (vmes v) →
  root ∈ A → (∀ p, p ∈ low_tables root (phys v) → p ∈ A ∧ low_frame p) →
  ∃ v' A', fini_thread hh memmap v = Some v' ∧ frame_client (phys v') A'
    ∧ (∀ f, f ∈ A' ↔ f ∈ A ∧ f ≠ root ∧ f ∉ low_tables root (phys v)
        ∧ ¬ ∃ vpn, is_Some (find_vme (vmes v) (vpn * 4096)) ∧ M !! vpn = Some f)
    ∧ cr3 v' = common_cr3 v ∧ vmes v' = []
    ∧ shared_vmes v' = if u64 (active_vmm_threads v - 1) =? 0 then [] else shared_vmes v.
Proof using P.
  intros Hs Hcr Hwf Hroot Hlow. unfold fini_thread. rewrite Hcr.
  destruct (free_all_frames_ok root T (vmes v) PRIVATE_BASE (phys v) A M Hs Hwf) as (s1 & A1 & M1 & -> & Hs1 & U); [done|].
  cbn [mbind option_bind]. pose proof (um_low _ _ _ _ _ _ _ _ _ U) as Elow. pose proof (um_frames _ _ _ _ _ _ _ _ _ U) as HA1.
  assert (∀ p, p ∈ T → p ∈ A → p ∈ A1) as HT.
  { intros p Hp HA. apply HA1. split; [done|]. intros (vpn & _ & Hm). by apply (as_dom _ _ _ _ _ _ _ _ Hs) in Hm as (_ & _ & ?). }
  assert (root ∈ A1) as Hroot1 by (apply HT; [by eapply tree_root, as_tree|done]).
  assert (∀ p, p ∈ low_tables root (phys v) → p ∈ T) as HlowT.
  { intros p (i & Hi & Hp)%elem_of_low_tables. destruct (as_tree _ _ _ _ _ _ _ _ Hs) as (sub & H1 & H2 & H3 & H4).
    apply H3. right. exists i. split; [lia|]. apply (branch_sub 2 root (phys v)); [apply (H4 i); lia|done]. }
  destruct (free_private_ok root T s1 A1 M1 Hs1 Hroot1) as (s2 & A2 & E2 & C2 & HA2).
  { intros p Hp. rewrite Elow in Hp. destruct (Hlow p Hp). split; [|done]. apply HT; auto. }
  assert (root ∈ A2) as Hroot2.
  { apply HA2. split; [done|]. rewrite Elow. intros (i & Hi & Hp)%elem_of_low_tables.
    destruct (as_tree _ _ _ _ _ _ _ _ Hs) as (sub & H1 & H2 & H3 & H4).
    apply (H1 i); [lia|]. apply (branch_sub 2 root (phys v)); [apply (H4 i); lia|done]. }
  destruct (frame_client_inv _ _ P _ _ C2) as [chain I].
  destruct (give_back_ok _ _ P _ _ _ _ I Hroot2) as (s3 & E3 & _ & _).
  set (v2 := if _ =? 0 then _ else _).
  assert (phys v2 = s1) as -> by (subst v2; by destruct (_ =? 0)).
  cbn zeta. change (cr3 (v .[ phys := s1 ] .[ vmes := [] ])) with (cr3 v). rewrite Hcr, E2. cbn [mbind option_bind].
  rewrite (root_ppn _ _ P) by (eapply usable_ok, client_usable; [exact P|exact P|exact C2|done]).
  fold memmap in E3. rewrite E3. cbn [mbind option_bind]. eexists _, (A2 ∖ {[root]}). split; [reflexivity|].
  split; [by eapply fc_free|]. split; [|subst v2; by destruct (_ =? 0)].
  intros f. rewrite elem_of_difference, elem_of_singleton, HA2, HA1, Elow. tauto.
Qed.
(** ** A new address space *)

Lemma copy_entries_ok n : ∀ i dst src s A,
  owned A dst → ok_frame hh src → src ≠ dst → 0 <= i → i + Z.of_nat n <= 512 → frame_client s A →
  let s' := copy_entries hh n i (frame_va hh dst) (frame_va hh src) s in
  frame_client s' A ∧ (∀ a, a / 4096 ≠ dst → word s' a = word s a)
  ∧ ∀ k, 0 <= k < 512 → word s' (slot dst k) =
      if decide (i <= k < i + Z.of_nat n) then word s (slot src k) else word s (slot dst k).
Proof using P.
  induction n as [|n IH]; intros i dst src s A Hd Hs Hne Hi Hn C s'; subst s'; cbn [copy_entries].
  { split_and!; try done. intros k Hk. by rewrite decide_False by lia. }
  rewrite (entry_at_word _ _ P) by (done || lia). pose proof (proj1 Hd) as Hdok.
  set (s1 := set_entry hh (frame_va hh dst) i (word s (slot src i)) s).
  assert (frame_client s1 A) as C1 by (apply (set_entry_client _ _ P); [done|lia|done]).
  assert (∀ b, word s1 b = if decide (b = slot dst i) then word s (slot src i) else word s b) as Hw1.
  { intros b. apply (word_set_entry _ _ P); [done|lia]. }
  destruct (IH (i + 1) dst src s1 A Hd Hs Hne) as (C2 & Hw & Hk); [lia|lia|done|].
  split_and!; [done| |].
  - intros a Ha. rewrite Hw, Hw1, decide_False; [done| |done]. intros ->. rewrite slot_frame in Ha by lia. done.
  - intros k Hk'. rewrite Hk by done. destruct (decide (k = i)) as [->|Hki].
    + rewrite decide_False by lia. rewrite Hw1, !decide_True by lia. done.
    + rewrite !Hw1. rewrite (decide_False (P := slot dst k = slot dst i)) by (intros ?%slot_inj; lia).
      rewrite (decide_False (P := slot src k = slot dst i)).
      2: { intros E. apply Hne. rewrite <- (slot_frame src k), <- (slot_frame dst i) by lia. by rewrite E. }
      repeat case_decide; try lia; done.
Qed.

Lemma low_page_index vpn : low_page vpn → table_index vpn 3 < 256.
Proof using.
  unfold low_page. change (2 ^ 35) with 34359738368. intros Hv. rewrite table_index_eq.
  change (512 ^ Z.of_nat 3) with 134217728. word_lia.
Qed.

(** [s2] is [s1] with a root table written in frame [r]: lower half empty, upper half of [c]. *)
Record root_copied (r c : Z) (s1 s2 : PhysMem) : Prop := {
  rc_other : ∀ a, a / 4096 ≠ r → word s2 a = word s1 a;
  rc_low : ∀ k, 0 <= k < 256 → word s2 (slot r k) = 0;
  rc_high : ∀ k, 256 <= k < 512 → word s2 (slot r k) = word s1 (slot c k)
}.

(** The tables below the copied entries are shared. *)
Lemma root_copied_tree r c Tc s1 s2 :
  root_copied r c s1 s2 → tree 3 c Tc s1 → (∀ p, p ∈ Tc → p ≠ r) →
  ∃ T, (∀ p, p ∈ T → p = r ∨ p ∈ Tc) ∧ tree 3 r T s2.
Proof using.
  intros [Hw Hlow Hhigh] (sub & H1 & H2 & H3 & H4) HrT.
  assert (∀ i, 256 <= i < 512 → ∀ p, p ∈ sub i → p ∈ Tc) as Hsub.
  { intros i Hi p Hp. apply H3. right. exists i. split; [lia|done]. }
  assert (∀ p, p ∈ {[r]} ∪ ⋃ (sub <$> seqZ 256 256) ↔ p = r ∨ ∃ i, 256 <= i < 512 ∧ p ∈ sub i) as HT.
  { intros p. rewrite elem_of_union, elem_of_singleton, elem_of_union_list. apply or_iff_compat_l. split.
    - intros (X & (i & -> & Hi%elem_of_seqZ)%list_elem_of_fmap & Hp). exists i. split; [lia|done].
    - intros (i & Hi & Hp). exists (sub i). split; [|done]. apply list_elem_of_fmap. exists i. split; [done|].
      apply elem_of_seqZ. lia. }
  eexists. split; [by intros p [->|(i & Hi & Hp)]%HT; [left|right; eapply Hsub]|].
  exists (λ i, if decide (i < 256) then ∅ else sub i). split_and!.
  - intros i Hi. case_decide; [apply not_elem_of_empty|]. intros Hp. eapply HrT; [eapply (Hsub i); [lia|exact Hp]|done].
  - intros i j Hi Hj Hne. repeat case_decide; [apply disjoint_empty_l|apply disjoint_empty_l|apply disjoint_empty_r|auto].
  - intros p. rewrite HT. apply or_iff_compat_l. split; intros (i & Hi & Hp); exists i.
    + split; [lia|]. by rewrite decide_False by lia.
    + case_decide; [by apply not_elem_of_empty in Hp|]. split; [lia|done].
  - intros i Hi. cbn zeta. case_decide; [by rewrite Hlow by lia|].
    rewrite Hhigh by lia. specialize (H4 i Hi). cbn zeta in H4. destruct (has _ PTE_PRESENT); [|done].
    destruct (is_huge _ _); [done|]. eapply tree_frame; [exact H4|]. intros a Ha. apply Hw.
    eapply HrT, Hsub; [|exact Ha]. lia.
Qed.

(** The translations of the two halves. *)
Lemma root_copied_translate r c Tc s1 s2 vpn perm :
  root_copied r c s1 s2 → tree 3 c Tc s1 → (∀ p, p ∈ Tc → p ≠ r) →
  256 <= table_index vpn 3 → 0 <= perm < 8 → translate 3 r vpn perm s2 = translate 3 c vpn perm s1.
Proof using.
  intros [Hw _ Hhigh] (sub & H1 & H2 & H3 & H4) HrT Hv Hp. pose proof (table_index_range vpn 3).
  rewrite !translate_S. cbn zeta. rewrite Hhigh by lia.
  specialize (H4 (table_index vpn 3) ltac:(lia)). cbn zeta in H4.
  destruct (has _ PTE_PRESENT); [|done]. destruct (is_huge _ _); [done|].
  eapply walk_frame; [exact H4| |by apply perm_range]. intros a Ha. apply Hw, HrT, H3.
  right. exists (table_index vpn 3). split; [lia|done].
Qed.

Lemma root_copied_aspace r c s1 s2 A T :
  root_copied r c s1 s2 → frame_client s2 A → tree 3 r T s2 → (∀ p, p ∈ T → owned A p) →
  aspace hh entries low_page r s2 A T ∅ ∧ low_tables r s2 = [].
Proof using.
  intros [_ Hlow _] C HT HA. split; [split; try done|].
  - intros vpn Hv%low_page_index. pose proof (table_index_range vpn 3). cbn [user_path]. cbn zeta.
    by rewrite Hlow by lia.
  - intros vpn Hv%low_page_index. pose proof (table_index_range vpn 3). rewrite leaf_S. cbn zeta.
    by rewrite Hlow by lia.
  - unfold low_tables. rewrite (list_bind_ext_elem _ (λ _, [])); [by generalize (seqZ 0 256); intros l; induction l|].
    intros i Hi%elem_of_seqZ. unfold branch. cbn zeta. by rewrite Hlow by lia.
Qed.

Lemma init_thread_ok n v A c Tc :
  frame_client (phys v) A → tree 3 c Tc (phys v) → (∀ p, p ∈ Tc → owned A p) → common_cr3 v = c * 4096 →
  shared_roots_ready v ≠ 0 → room entries (S n) A →
  ∃ v' root T, init_thread hh v = Some v' ∧ root ∉ A ∧ cr3 v' = root * 4096
    ∧ aspace hh entries low_page root (phys v') ({[root]} ∪ A) T ∅ ∧ low_tables root (phys v') = []
    ∧ active_vmm_threads v' = u64 (active_vmm_threads v + 1)
    ∧ (∀ p, p ∈ T → p = root ∨ p ∈ Tc) ∧ (∀ a, a / 4096 ≠ root → word (phys v') a = word (phys v) a)
    ∧ room entries n ({[root]} ∪ A) ∧ vmes v' = vmes v ∧ common_cr3 v' = common_cr3 v
    ∧ ∀ vpn perm, 256 <= table_index vpn 3 → 0 <= perm < 8 →
        translate 3 root vpn perm (phys v') = translate 3 c vpn perm (phys v).
Proof using P.
  intros C Htc Hown Hcr Hready R. unfold init_thread, ensure_shared_roots.
  rewrite (proj2 (Z.eqb_neq _ _) Hready). cbn [negb mbind option_bind].
  destruct (alloc_step _ _ P _ _ _ C R) as (r & s1 & -> & Hr & Hu & C1 & R1 & Hz & Hw1). cbn [mbind option_bind].
  pose proof (usable_ok _ _ P r Hu) as Hrok. pose proof (Hown c (tree_root _ _ _ _ Htc)) as Hoc.
  assert (∀ p, p ∈ Tc → p ≠ r) as HrT by (intros p Hp ->; by apply Hr, (Hown r Hp)).
  rewrite (VA_of_table _ _ P r Hrok). cbn [mbind option_bind]. rewrite Hcr, (root_ppn _ _ P), (VA_of_table _ _ P) by apply Hoc.
  cbn [mbind option_bind].
  assert (owned ({[r]} ∪ A) r) as Hor by (eapply client_owned; [exact P|exact C1|set_solver]).
  destruct (copy_entries_ok 256 256 r c s1 ({[r]} ∪ A) Hor) as (C2 & Hw2 & Hk);
    [apply Hoc|apply HrT; by eapply tree_root|lia|lia|done|].
  set (s2 := copy_entries hh 256 256 (frame_va hh r) (frame_va hh c) s1) in *. clearbody s2.
  assert (root_copied r c (phys v) s2) as RC.
  { split.
    - intros a Ha. by rewrite Hw2, Hw1.
    - intros k Hk'. rewrite Hk, decide_False by lia. apply Hz. lia.
    - intros k Hk'. rewrite Hk, decide_True by lia. apply Hw1. rewrite slot_frame by lia. apply HrT. by eapply tree_root. }
  destruct (root_copied_tree _ _ _ _ _ RC Htc HrT) as (T & HT & Ht).
  assert (∀ p, p ∈ T → owned ({[r]} ∪ A) p) as HTo.
  { intros p [->|Hp]%HT; [done|]. eapply owned_mono; [apply union_subseteq_r|]. by apply Hown. }
  destruct (root_copied_aspace _ _ _ _ _ _ RC C2 Ht HTo) as [Has Hlt].
  eexists _, r, T. split; [reflexivity|]. unfold set_field. cbn [phys cr3 active_vmm_threads vmes common_cr3]. split_and!; try done.
  - by destruct (ok_frame_facts _ _ P r Hrok) as (-> & _).
  - apply (rc_other _ _ _ _ RC).
  - intros vpn perm Hv Hp. by apply (root_copied_translate _ _ _ _ _ _ _ RC Htc HrT).
Qed.
(** A new thread gets an address space of its own: a new root table, no page mapped in the
    lower half and no table below it, and in the upper half exactly the pages of the common
    address space. *)
Theorem init_thread_fresh v A c Tc :
  frame_client (phys v) A → tree 3 c Tc (phys v) → (∀ p, p ∈ Tc → owned A p) → common_cr3 v = c * 4096 →
  shared_roots_ready v ≠ 0 → room entries 1 A →
  ∃ v' root T, init_thread hh v = Some v' ∧ root ∉ A ∧ cr3 v' = root * 4096
    ∧ aspace hh entries low_page root (phys v') ({[root]} ∪ A) T ∅ ∧ low_tables root (phys v') = []
    ∧ active_vmm_threads v' = u64 (active_vmm_threads v + 1)
    ∧ ∀ vpn perm, 256 <= table_index vpn 3 → 0 <= perm < 8 →
        translate 3 root vpn perm (phys v') = translate 3 c vpn perm (phys v).
Proof using P.
  intros C Htc Hown Hcr Hready R.
  destruct (init_thread_ok 0 v A c Tc C Htc Hown Hcr Hready R) as (v' & r & T & H1 & H2 & H3 & H4 & H5 & H6 & _ & _ & _ & _ & _ & H7).
  exists v', r, T. by split_and!.
Qed.
End Threads.

Lemma fini_thread_frees_witness :
  ∃ v' A', fini_thread demo_hhdm (Some demo_map) demo_vmm = Some v' ∧ 65536 ∉ (A' : gset Z) ∧ shared_vmes v' = [].
Proof.
  destruct (fini_thread_frees demo_hhdm demo_map demo_platform 65536 demo_vmm {[65536]} {[65536]} ∅)
    as (v' & A' & E & _ & HA & _ & _ & Hs).
  - apply demo_aspace.
  - done.
  - apply demo_wf.
  - by apply elem_of_singleton.
  - assert (low_tables 65536 (phys demo_vmm) = []) as -> by (vm_compute; reflexivity).
    intros p Hp. by apply elem_of_nil in Hp.
  - exists v', A'. split_and!; [exact E| |exact Hs]. intros (_ & Hne & _)%HA. by apply Hne.
Defined.

Lemma init_thread_fresh_witness :
  ∃ v' root, init_thread demo_hhdm demo_vmm = Some v' ∧ cr3 v' = root * 4096 ∧ low_tables root (phys v') = []
    ∧ active_vmm_threads v' = 2.
Proof.
  destruct demo_root_ok as (C & R & Ht & Hown).
  destruct (init_thread_fresh demo_hhdm demo_map demo_platform demo_vmm {[65536]} 65536 {[65536]})
    as (v' & root & T & E & _ & Hc & _ & Hl & Ha & _); [exact C|exact Ht|exact Hown|done|done|by do 2 apply room_S|].
  exists v', root. by split_and!.
Defined.
