(* ===== verification/UserMem.v ===== *)
(** * The kernel's accesses to user memory

    The kernel reads and writes user memory through plain pointers: the
    processor translates the address with the page tables of the running
    thread.  [user_load] and [user_store] are one byte of such an access, as
    the processor performs it; an access that faults is [None].  [map_range]
    ([vmm.h]) maps new pages.  The lemmas describe user memory by what a load at
    each address of the lower half returns. *)

From stdpp Require Import gmap.
From S2P Require Import Prelude PhysMem BlockIO Ext2 PageTable AddrSpace Vme Vmm.

Section UserMem.
Context (hhdm_offset : Z).

(** The physical address the processor uses. The kernel may read any present
    page, and write only where every level allows it. *)
Definition user_pa (cr3 va : Z) (write : bool) (s : PhysMem) : option Z :=
  va ← check_canonical va;
  '(f, perm) ← translate 3 (cr3 / 4096) (va / 4096) 7 s;
  if write && negb (has perm PTE_WRITE) then None else Some (f * 4096 + va mod 4096).

Definition user_load (cr3 va : Z) (s : PhysMem) : option Z :=
  pa ← user_pa cr3 va false s; Some (byte_of s pa).

Definition user_store (cr3 va b : Z) (s : PhysMem) : option PhysMem :=
  pa ← user_pa cr3 va true s; Some (store_byte hhdm_offset (hhdm_offset + pa) b s).

(** A loop over the bytes from [va] on. *)
Fixpoint user_loads (cr3 : Z) (n : nat) (va : Z) (s : PhysMem) : option bytes :=
  match n with
  | O => Some []
  | S n =>
      b ← user_load cr3 va s;
      bs ← user_loads cr3 n (u64 (va + 1)) s;
      Some (b :: bs)
  end.

Fixpoint user_stores (cr3 va : Z) (bs : bytes) (s : PhysMem) : option PhysMem :=
  match bs with
  | [] => Some s
  | b :: bs => s ← user_store cr3 va b s; user_stores cr3 (u64 (va + 1)) bs s
  end.

(** [impl::map]: into the tables of the running thread. *)
Definition map (cr3 vpn ppn : Z) (user write : bool) (s : PhysMem) : option PhysMem :=
  map_in_root hhdm_offset cr3 vpn ppn user write s.

Fixpoint map_range_loop (fuel : nat) (cr3 start length i : Z) (user write : bool) (s : PhysMem) : option PhysMem :=
  match fuel with
  | O => None
  | S fuel =>
      if i <? length then
        vpn ← VPN_VA (u64 (start + i));
        '(ppn, s) ← alloc hhdm_offset s;
        s ← map cr3 vpn ppn user write s;
        map_range_loop fuel cr3 start length (u64 (i + FRAME_SIZE)) user write s
      else Some s
  end.
Definition map_range (cr3 start length : Z) (user write : bool) (s : PhysMem) : option PhysMem :=
  start ← check_canonical start;
  map_range_loop (S (Z.to_nat ((length + 4095) / FRAME_SIZE))) cr3 start length 0 user write s.

End UserMem.

(** ** What the accesses do *)

Definition low_addr (a : Z) : Prop := 0 <= a < 2 ^ 47.

Lemma low_addr_page a : low_addr a → low_page (a / 4096).
Proof. unfold low_addr, low_page. change (2 ^ 47) with 140737488355328. change (2 ^ 35) with 34359738368. word_lia. Qed.

(** The pages of the addresses from [va] on are mapped. *)
Definition mapped (M : gmap Z Z) (va n : Z) : Prop := ∀ a, va <= a < va + n → is_Some (M !! (a / 4096)).

(** Of the user memory only the bytes at [va] have changed, to [bs]. *)
Definition overwrites (cr3 va : Z) (bs : bytes) (s s' : PhysMem) : Prop :=
  ∀ a, low_addr a → user_load cr3 a s' =
    if decide (va <= a < va + Z.of_nat (length bs)) then Some (nth (Z.to_nat (a - va)) bs 0) else user_load cr3 a s.

Lemma overwrites_app cr3 va bs bs' s s1 s2 :
  overwrites cr3 va bs s s1 → overwrites cr3 (va + Z.of_nat (length bs)) bs' s1 s2 → overwrites cr3 va (bs ++ bs') s s2.
Proof.
  intros H1 H2 a Ha. rewrite H2, H1, length_app by done. repeat case_decide; try lia; try done.
  - rewrite app_nth2 by lia. do 2 f_equal. lia.
  - rewrite app_nth1 by lia. done.
Qed.

Lemma overwrites_push cr3 va bs bs' s s1 s2 :
  overwrites cr3 (va + Z.of_nat (length bs)) bs' s s1 → overwrites cr3 va bs s1 s2 → overwrites cr3 va (bs ++ bs') s s2.
Proof.
  intros H1 H2 a Ha. rewrite H2, H1, length_app by done. repeat case_decide; try lia; try done.
  - rewrite app_nth1 by lia. done.
  - rewrite app_nth2 by lia. do 2 f_equal. lia.
Qed.

Lemma user_loads_spec cr3 s bs : ∀ va,
  0 <= va → va + Z.of_nat (length bs) <= 2 ^ 47 →
  (∀ a, va <= a < va + Z.of_nat (length bs) → user_load cr3 a s = Some (nth (Z.to_nat (a - va)) bs 0)) →
  user_loads cr3 (length bs) va s = Some bs.
Proof.
  change (2 ^ 47) with 140737488355328.
  induction bs as [|b bs IH]; intros va H1 H2 H; [done|]. cbn [user_loads length] in *.
  rewrite H, Z.sub_diag by lia. cbn [mbind option_bind]. rewrite u64_id by word_lia.
  rewrite IH; [done|lia|lia|]. intros a Ha. rewrite H by lia.
  replace (Z.to_nat (a - va)) with (S (Z.to_nat (a - (va + 1)))) by lia. done.
Qed.

Section Access.
Context (hh : Z) (entries : list MemmapEntry) (P : platform hh entries) (root : Z).
Abbreviation aspace := (aspace hh entries low_page root) (only parsing).
Abbreviation cr3 := (root * 4096) (only parsing).

Lemma user_pa_ok s A T M va w :
  aspace s A T M → low_addr va → user_pa cr3 va w s = (λ f, f * 4096 + va mod 4096) <$> M !! (va / 4096).
Proof using P.
  intros S Ha. unfold user_pa. rewrite check_canonical_low by done. cbn [mbind option_bind].
  rewrite Z.div_mul, (as_translate _ _ P _ _ _ _ _ _ _ S) by (done || by apply low_addr_page).
  destruct (M !! (va / 4096)); [|done]. cbn [fmap option_fmap option_map mbind option_bind].
  change (has 7 PTE_WRITE) with true. by rewrite andb_false_r.
Qed.

Lemma user_load_ok s A T M va :
  aspace s A T M → low_addr va →
  user_load cr3 va s = (λ f, byte_of s (f * 4096 + va mod 4096)) <$> M !! (va / 4096).
Proof using P.
  intros S Ha. unfold user_load. rewrite (user_pa_ok _ _ _ _ _ _ S Ha). by destruct (M !! (va / 4096)).
Qed.

Lemma user_load_byte s A T M va b : aspace s A T M → low_addr va → user_load cr3 va s = Some b → 0 <= b < 256.
Proof using P.
  intros S Ha. rewrite (user_load_ok _ _ _ _ _ S Ha). destruct (M !! (va / 4096)); [|done]. intros [=<-].
  unfold byte_of, word_byte. word_lia.
Qed.

Lemma user_store_ok s A T M va b :
  aspace s A T M → low_addr va → is_Some (M !! (va / 4096)) → 0 <= b < 256 →
  ∃ s', user_store hh cr3 va b s = Some s' ∧ aspace s' A T M ∧ overwrites cr3 va [b] s s'
    ∧ ∀ p, (∀ vpn, M !! vpn ≠ Some (p / 4096)) → word s' p = word s p.
Proof using P.
  intros S Ha [f Hf] Hb. unfold user_store. rewrite (user_pa_ok _ _ _ _ _ _ S Ha), Hf.
  cbn [fmap option_fmap option_map mbind option_bind]. eexists. split; [reflexivity|].
  destruct (as_dom _ _ _ _ _ _ _ _ S _ _ Hf) as (_ & HfA & HfT).
  pose proof (client_owned _ _ P _ _ _ (as_client _ _ _ _ _ _ _ _ S) HfA) as Hown.
  destruct (store_byte_ok _ _ P f (va mod 4096) b s A Hown) as (C & Hw & Hbs);
    [word_lia|done|apply (as_client _ _ _ _ _ _ _ _ S)|].
  replace (hh + (f * 4096 + va mod 4096)) with (frame_va hh f + va mod 4096) by (unfold frame_va; lia).
  set (s' := store_byte hh _ b s) in *. clearbody s'.
  assert (aspace s' A T M) as S' by (eapply as_write; [exact S|done..]).
  split_and!; [done| |intros p Hp; apply Hw; intros E; apply (Hp (va / 4096)); by rewrite E].
  intros a Hal. rewrite (user_load_ok _ _ _ _ _ S' Hal), (user_load_ok _ _ _ _ _ S Hal). cbn [length].
  destruct (M !! (a / 4096)) as [g|] eqn:Hg; cbn [fmap option_fmap option_map].
  2: { rewrite decide_False; [done|]. intros ?. assert (a = va) as -> by lia. congruence. }
  destruct (decide (g = f)) as [->|Hne].
  - assert (a / 4096 = va / 4096) as Ep by (by eapply (as_inj _ _ _ _ _ _ _ _ S)).
    rewrite Hbs by word_lia. repeat case_decide; try word_lia; [|done].
    by replace (Z.to_nat (a - va)) with 0%nat by word_lia.
  - rewrite decide_False by (intros ?; assert (a = va) as -> by lia; congruence).
    f_equal. apply byte_of_frame; [|word_lia]. intros p E. apply Hw. by rewrite E.
Qed.

Lemma user_stores_ok T M bs : ∀ s A va,
  aspace s A T M → 0 <= va → va + Z.of_nat (length bs) <= 2 ^ 47 → mapped M va (Z.of_nat (length bs)) → wf_bytes bs →
  ∃ s', user_stores hh cr3 va bs s = Some s' ∧ aspace s' A T M ∧ overwrites cr3 va bs s s'
    ∧ ∀ p, (∀ vpn, M !! vpn ≠ Some (p / 4096)) → word s' p = word s p.
Proof using P.
  induction bs as [|b bs IH]; intros s A va S Hva Hle Hm Hbs; cbn [user_stores length] in *.
  - exists s. split_and!; try done. intros a Ha. by rewrite decide_False by (cbn; lia).
  - apply Forall_cons in Hbs as [Hb Hbs].
    destruct (user_store_ok s A T M va b S) as (s1 & -> & S1 & O1 & W1);
      [split; [done|]; lia|apply Hm; lia|done|]. cbn [mbind option_bind].
    change (2 ^ 47) with 140737488355328 in *.
    rewrite u64_id by word_lia. destruct (IH s1 A (va + 1) S1) as (s2 & -> & S2 & O2 & W2);
      [lia|lia|intros a ?; apply Hm; lia|done|].
    exists s2. split_and!; [done|done| |intros p Hp; by rewrite W2, W1].
    change (b :: bs) with ([b] ++ bs). by eapply overwrites_app.
Qed.

Lemma user_loads_ok s A T M n : ∀ va,
  aspace s A T M → 0 <= va → va + Z.of_nat n <= 2 ^ 47 → mapped M va (Z.of_nat n) →
  ∃ bs, user_loads cr3 n va s = Some bs ∧ length bs = n ∧ wf_bytes bs
    ∧ ∀ a, va <= a < va + Z.of_nat n → user_load cr3 a s = Some (nth (Z.to_nat (a - va)) bs 0).
Proof using P.
  induction n as [|n IH]; intros va As Hva Hle Hm; cbn [user_loads].
  - exists []. split_and!; try done; [by constructor|lia].
  - assert (low_addr va) as Ha by (split; lia).
    destruct (user_load cr3 va s) as [b|] eqn:Eb.
    2: { rewrite (user_load_ok _ _ _ _ _ As Ha) in Eb. destruct (Hm va) as [f Hf]; [lia|]. by rewrite Hf in Eb. }
    cbn [mbind option_bind]. change (2 ^ 47) with 140737488355328 in *. rewrite u64_id by word_lia.
    destruct (IH (va + 1) As) as (bs & -> & Hl & Hbs & Hn); [lia|lia|intros a ?; apply Hm; lia|].
    exists (b :: bs). split_and!; [done|cbn; by rewrite Hl| |].
    + constructor; [|done]. by eapply user_load_byte.
    + intros a Hr. destruct (decide (a = va)) as [->|Hne]; [by rewrite Eb, Z.sub_diag|].
      rewrite Hn by lia. replace (Z.to_nat (a - va)) with (S (Z.to_nat (a - (va + 1)))) by lia. done.
Qed.

(** *** [map_range] *)

(** [M'] is [M] with the [n] pages from [p] on mapped to new frames. *)
Record remapped (p n : Z) (A : gset Z) (M M' : gmap Z Z) : Prop := {
  rm_new : ∀ vpn, p <= vpn < p + n → ∃ f, M' !! vpn = Some f ∧ f ∉ A;
  rm_old : ∀ vpn, ¬ (p <= vpn < p + n) → M' !! vpn = M !! vpn
}.

(** The pages [p] to [p + n] read as zero, the rest of user memory is unchanged. *)
Definition zeroed (p n : Z) (s s' : PhysMem) : Prop :=
  ∀ a, low_addr a → user_load cr3 a s' = if decide (p <= a / 4096 < p + n) then Some 0 else user_load cr3 a s.

Lemma map_page_ok k s A T M vpn :
  aspace s A T M → room entries (4 + k) A → low_page vpn →
  ∃ f s1 s' A' T', alloc hh s = Some (f, s1) ∧ map hh cr3 vpn f true true s1 = Some s'
    ∧ aspace s' A' T' (<[vpn := f]> M) ∧ f ∉ A ∧ A ⊆ A' ∧ zeroed vpn 1 s s' ∧ room entries k A'.
Proof using P.
  intros S0 R Hv. destruct (as_alloc _ _ P _ _ _ _ _ _ _ S0 R) as (f & s1 & E & Hf & S1 & Hu & R1 & Hw1 & Hz1).
  destruct (map_new_ok _ _ P _ low_distinct root k s1 _ T M vpn f S1 R1 Hv Hu) as (s' & A' & T' & E' & S' & HA & Hk & R').
  exists f, s1, s', A', T'. split_and!; [done..| | |done].
  { etrans; [|exact HA]. apply union_subseteq_r. }
  intros a Ha. rewrite (user_load_ok _ _ _ _ _ S' Ha), (user_load_ok _ _ _ _ _ S0 Ha).
  destruct Hu as (HfA & HfT & HfM). destruct (decide (a / 4096 = vpn)) as [Ea|Ea].
  - rewrite decide_True, Ea, lookup_insert_eq by lia. cbn [fmap option_fmap option_map]. f_equal.
    transitivity (byte_of s1 (f * 4096 + a mod 4096)).
    { apply byte_of_frame; [by apply Hk|word_lia]. }
    unfold byte_of. replace (f * 4096 + a mod 4096 - (f * 4096 + a mod 4096) mod 8)
      with (f * 4096 + 8 * (a mod 4096 / 8)) by word_lia.
    rewrite Hz1 by word_lia. unfold word_byte. by rewrite Z.div_0_l by (apply Z.pow_nonzero; word_lia).
  - rewrite decide_False, lookup_insert_ne by lia. destruct (M !! (a / 4096)) as [g|] eqn:Hg; [|done].
    cbn [fmap option_fmap option_map]. f_equal.
    destruct (as_dom _ _ _ _ _ _ _ _ S0 _ _ Hg) as (_ & HgA & HgT).
    apply byte_of_frame; [|word_lia]. intros q Hq.
    assert (g ∈ {[f]} ∪ A) as HgA' by (by apply elem_of_union_r).
    destruct (Hk g HgA' HgT) as [_ ->]; [|done]. apply Hw1. rewrite Hq. intros ->. by apply (HfM (a / 4096)).
Qed.

Lemma map_range_loop_ok k n : ∀ fuel p i s A T M start,
  aspace s A T M → room entries (4 * n + k) A → 0 <= p → p + Z.of_nat n <= 2 ^ 35 → start + i = p * 4096 →
  0 <= start → 0 <= i → (n < fuel)%nat →
  ∃ s' A' T' M', map_range_loop hh fuel cr3 start (i + Z.of_nat n * 4096) i true true s = Some s'
    ∧ aspace s' A' T' M' ∧ A ⊆ A' ∧ remapped p (Z.of_nat n) A M M' ∧ zeroed p (Z.of_nat n) s s' ∧ room entries k A'.
Proof using P.
  change (2 ^ 35) with 34359738368.
  induction n as [|n IH]; intros fuel p i s A T M start S0 R Hp Hle Hs Hs0 Hi Hfuel; (destruct fuel as [|fuel]; [lia|]);
    cbn [map_range_loop].
  - rewrite Z.add_0_r, Z.ltb_irrefl. exists s, A, T, M. split_and!; try done.
    + split; [lia|done].
    + intros a Ha. by rewrite decide_False by lia.
  - rewrite (proj2 (Z.ltb_lt _ _)) by lia. rewrite Hs, (u64_id (p * 4096)) by word_lia.
    rewrite VPN_VA_page, Z.div_mul by (done || apply check_canonical_low; change (2 ^ 47) with 140737488355328; word_lia).
    cbn [mbind option_bind].
    destruct (map_page_ok (4 * n + k) s A T M p S0) as (f & s1 & s2 & A2 & T2 & -> & E & S2 & Hf & HA & Z2 & R2);
      [by replace (4 + (4 * n + k))%nat with (4 * S n + k)%nat by lia|unfold low_page; change (2 ^ 35) with 34359738368; lia|].
    cbn [mbind option_bind]. rewrite E. cbn [mbind option_bind]. unfold FRAME_SIZE. rewrite u64_id by word_lia.
    destruct (IH fuel (p + 1) (i + 4096) s2 A2 T2 _ start S2 R2) as (s3 & A3 & T3 & M3 & E3 & S3 & HA3 & [Hn Ho] & Z3 & R3);
      [lia..|]. replace (i + 4096 + Z.of_nat n * 4096) with (i + Z.of_nat (S n) * 4096) in E3 by lia.
    exists s3, A3, T3, M3. split_and!; [done|done|by etrans| | |done].
    + split.
      * intros vpn Hv. destruct (decide (vpn = p)) as [->|Hne].
        -- exists f. split; [|done]. rewrite Ho by lia. by rewrite lookup_insert_eq.
        -- destruct (Hn vpn) as (g & Hg & HgA); [lia|]. exists g. split; [done|]. intros ?. by apply HgA, HA.
      * intros vpn Hv. rewrite Ho by lia. by rewrite lookup_insert_ne by lia.
    + intros a Ha. rewrite Z3, Z2 by done. repeat case_decide; try lia; done.
Qed.

Lemma map_range_ok k n s A T M p :
  aspace s A T M → room entries (4 * n + k) A → 0 <= p < 2 ^ 35 → p + Z.of_nat n <= 2 ^ 35 →
  ∃ s' A' T' M', map_range hh cr3 (p * 4096) (Z.of_nat n * 4096) true true s = Some s'
    ∧ aspace s' A' T' M' ∧ A ⊆ A' ∧ remapped p (Z.of_nat n) A M M' ∧ zeroed p (Z.of_nat n) s s' ∧ room entries k A'.
Proof using P.
  intros S0 R Hp Hle. unfold map_range. rewrite check_canonical_low.
  2: { change (2 ^ 35) with 34359738368 in Hp. change (2 ^ 47) with 140737488355328. lia. }
  cbn [mbind option_bind].
  destruct (map_range_loop_ok k n (S (Z.to_nat ((Z.of_nat n * 4096 + 4095) / FRAME_SIZE))) p 0 s A T M (p * 4096) S0 R)
    as (s' & A' & T' & M' & E & H); [lia..|unfold FRAME_SIZE; word_lia|].
  rewrite Z.add_0_l in E. by exists s', A', T', M'.
Qed.
End Access.

Lemma overwrites_loads cr3 va bs s s' :
  overwrites cr3 va bs s s' → 0 <= va → va + Z.of_nat (length bs) <= 2 ^ 47 → user_loads cr3 (length bs) va s' = Some bs.
Proof.
  intros O H1 H2. apply user_loads_spec; [done|done|]. intros a Ha. rewrite O by (unfold low_addr; lia).
  by rewrite decide_True.
Qed.

(** ** A machine with a megabyte of memory, for the witnesses *)

Definition big_map : list MemmapEntry := [mkEntry 0 268435456 1048576].

Lemma big_platform : platform demo_hhdm big_map.
Proof.
  split; [done|done| |].
  - intros e He%list_elem_of_singleton _. subst e. cbn. split_and!; done.
  - intros i j e e' Hi Hj _ _ Hne. destruct i, j; cbn in *; done.
Qed.

Definition big_root : PhysMem := default (PhysMem_init (Some big_map) ∅)
  (snd <$> alloc demo_hhdm (PhysMem_init (Some big_map) ∅)).

Lemma big_alloc : alloc demo_hhdm (PhysMem_init (Some big_map) ∅) = Some (65536, big_root).
Proof. vm_compute. reflexivity. Qed.

Lemma big_aspace region : aspace demo_hhdm big_map region 65536 big_root {[65536]} {[65536]} ∅.
Proof.
  assert (frame_client demo_hhdm big_map big_root {[65536]}) as C.
  { replace ({[65536]} : gset Z) with ({[65536]} ∪ ∅ : gset Z) by apply (right_id_L ∅ (∪)).
    eapply fc_alloc; [apply fc_init|exact big_alloc]. }
  apply as_zero; [apply big_platform|exact C|by apply elem_of_singleton|].
  apply (alloc_zeroed demo_hhdm big_map (PhysMem_init (Some big_map) ∅) ∅ 65536 big_root);
    [apply big_platform|apply fc_init|exact big_alloc].
Qed.

Lemma big_room n : (n <= 255)%nat → room big_map n {[65536]}.
Proof.
  intros Hn. exists (seqZ 65537 (Z.of_nat n)). split_and!; [apply NoDup_seqZ|rewrite length_seqZ; lia|].
  intros p Hp%elem_of_seqZ. split; [|rewrite elem_of_singleton; lia].
  exists (mkEntry 0 268435456 1048576). split_and!; [by left|reflexivity|]. unfold range_frame. cbn. lia.
Qed.
