(* ===== verification/Fork.v ===== *)
(** * Copying an address space ([fork_from] of [vmm.cc])

    [fork_from] walks the lower half of the parent's tables and maps in the child a
    copy of every user page.  The child's root shares the tables of the upper half
    with the parent; the proof keeps apart what the two address spaces share
    and what they do not. *)

From stdpp Require Import gmap.
From S2P Require Import Prelude PhysMem BlockIO Ext2 PageTable AddrSpace Vme Vmm VmmThreads UserMem.

(** The tables of the upper half. *)
Definition high_tables (root : Z) (s : PhysMem) : list Z := seqZ 256 256 ≫= λ i, branch 2 root i s.

Lemma elem_of_high_tables root s p : p ∈ high_tables root s ↔ ∃ i, 256 <= i < 512 ∧ p ∈ branch 2 root i s.
Proof.
  unfold high_tables. rewrite list_elem_of_bind. split; intros (i & H1 & H2); exists i.
  - apply elem_of_seqZ in H2. split; [lia|exact H1].
  - split; [exact H2|]. apply elem_of_seqZ. lia.
Qed.

(** Only the entry and the tables below it count. *)
Lemma branch_frame l t T i s s' :
  tree (S l) t T s → 0 <= i < 512 → word s' (slot t i) = word s (slot t i) →
  (∀ a, a / 4096 ∈ T → a / 4096 ≠ t → word s' a = word s a) → branch l t i s' = branch l t i s.
Proof.
  intros (sub & H1 & H2 & H3 & H4) Hi He Hw. unfold branch. cbn zeta. rewrite He. specialize (H4 i Hi). cbn zeta in H4.
  destruct (has _ PTE_PRESENT); [|done]. destruct (is_huge _ _); [done|]. cbn [andb negb]. f_equal.
  eapply tables_frame; [exact H4|]. intros a Ha. apply Hw; [apply H3; right; by exists i|].
  intros E. rewrite E in Ha. by apply (H1 i).
Qed.

Lemma high_tables_frame root T s s' :
  tree 3 root T s → (∀ j, 256 <= j < 512 → word s' (slot root j) = word s (slot root j)) →
  (∀ a, a / 4096 ∈ high_tables root s → word s' a = word s a) → high_tables root s' = high_tables root s.
Proof.
  intros (sub & H1 & H2 & H3 & H4) He Hw. unfold high_tables. apply list_bind_ext_elem. intros j Hj%elem_of_seqZ.
  assert (256 <= j < 512) as Hj' by lia. assert (0 <= j < 512) as Hj0 by lia.
  unfold branch. cbn zeta. rewrite He by done. pose proof (branch_sub 2 root s sub j) as Hb.
  specialize (H4 j Hj0). pose proof (λ p, Hb p H4) as Hb'. clear Hb. cbn zeta in H4.
  destruct (has _ PTE_PRESENT); [|done]. destruct (is_huge _ _); [done|]. cbn [andb negb]. f_equal.
  eapply tables_frame; [exact H4|]. intros a Ha. apply Hw, elem_of_high_tables. exists j. split; [done|]. by apply Hb'.
Qed.

Lemma high_in_tree root T s p : tree 3 root T s → p ∈ high_tables root s → p ∈ T.
Proof.
  intros (sub & H1 & H2 & H3 & H4) (j & Hj & Hp)%elem_of_high_tables. assert (0 <= j < 512) as Hj' by lia.
  apply (branch_sub 2 root s sub j _ (H4 j Hj')) in Hp. apply H3. right. by exists j.
Qed.

(** Pages of [M] from [b] on. *)
Definition pages_from (b : Z) (M : gmap Z Z) : nat := size (filter (λ p, b <= p.1) M).

Lemma pages_from_take b M f : M !! b = Some f → pages_from b M = S (pages_from (b + 1) M).
Proof.
  intros Hf. unfold pages_from.
  assert (filter (λ p, b <= p.1) M = <[b := f]> (filter (λ p, b + 1 <= p.1) M)) as ->.
  { apply map_eq. intros v. apply option_eq. intros g. rewrite map_lookup_filter_Some, lookup_insert_Some, map_lookup_filter_Some. cbn.
    split.
    - intros [Hg Hb]. destruct (decide (b = v)) as [->|]; [left; split; [done|congruence]|right]. split; [done|]. split; [done|lia].
    - intros [[<- <-]|(Hne & Hg & Hb)]; [split; [done|lia]|split; [done|lia]]. }
  rewrite map_size_insert_None; [done|]. apply map_lookup_filter_None. right. intros g _ Hb. cbn in Hb. lia.
Qed.

Lemma pages_from_skip b b' M : b <= b' → (∀ v, b <= v < b' → M !! v = None) → pages_from b M = pages_from b' M.
Proof.
  intros Hb Hn. unfold pages_from. f_equal. apply map_eq. intros v. apply option_eq. intros g.
  rewrite !map_lookup_filter_Some. cbn. split; intros [Hg Hv]; (split; [done|]); [|lia].
  destruct (decide (b' <= v)); [done|]. rewrite Hn in Hg by lia. done.
Qed.

Lemma pages_from_all M : (∀ v f, M !! v = Some f → 0 <= v) → pages_from 0 M = size M.
Proof.
  intros H. unfold pages_from. f_equal. apply map_filter_id. intros v f Hf. cbn. by eapply H.
Qed.

Section Fork.
Context (hh : Z) (entries : list MemmapEntry) (P : platform hh entries).
Abbreviation frame_client := (frame_client hh entries) (only parsing).
Abbreviation owned := (owned hh entries) (only parsing).
Abbreviation aspace := (aspace hh entries low_page) (only parsing).

(** ** Copying a frame *)

Lemma copy_words_entries n : ∀ i d f s, ok_frame hh d → ok_frame hh f → 0 <= i → i + Z.of_nat n <= 512 →
  copy_words hh n (frame_va hh d + 8 * i) (frame_va hh f + 8 * i) s = copy_entries hh n i (frame_va hh d) (frame_va hh f) s.
Proof using P.
  induction n as [|n IH]; intros i d f s Hd Hf Hi Hn; [done|]. cbn [copy_words copy_entries].
  assert (0 <= i < 512) as Hi' by lia.
  destruct (slot_va _ _ P d i Hd Hi') as [_ Ed]. destruct (slot_va _ _ P f i Hf Hi') as [_ Ef].
  unfold set_entry, entry_at. rewrite Ed, Ef. destruct n as [|n]; [done|].
  assert (0 <= i + 1 < 512) as Hi1 by lia.
  destruct (slot_va _ _ P d (i + 1) Hd Hi1) as [_ Ed1]. destruct (slot_va _ _ P f (i + 1) Hf Hi1) as [_ Ef1].
  replace (frame_va hh d + 8 * i + 8) with (frame_va hh d + 8 * (i + 1)) by lia.
  replace (frame_va hh f + 8 * i + 8) with (frame_va hh f + 8 * (i + 1)) by lia.
  rewrite Ed1, Ef1. apply IH; [done|done|lia|lia].
Qed.

Lemma copy_words_ok d f s A :
  owned A d → ok_frame hh f → f ≠ d → frame_client s A →
  let s' := copy_words hh 512 (frame_va hh d) (frame_va hh f) s in
  frame_client s' A ∧ (∀ a, a / 4096 ≠ d → word s' a = word s a)
  ∧ ∀ k, 0 <= k < 512 → word s' (slot d k) = word s (slot f k).
Proof using P.
  intros Hd Hf Hne C. cbn zeta.
  assert (copy_words hh 512 (frame_va hh d) (frame_va hh f) s = copy_entries hh 512 0 (frame_va hh d) (frame_va hh f) s) as ->.
  { rewrite <- (copy_words_entries 512 0 d f s (proj1 Hd) Hf) by lia. by rewrite Z.mul_0_r, !Z.add_0_r. }
  destruct (copy_entries_ok _ _ P 512 0 d f s A Hd Hf Hne) as (C' & H1 & H2); [lia|lia|done|].
  split_and!; [done|done|]. intros k Hk. by rewrite H2, decide_True by lia.
Qed.

(** ** Mapping a low page does not touch the upper half *)

Lemma map_root_high root T s s' A n vpn f u w :
  frame_client s A → room entries (3 + n) A → tree 3 root T s → (∀ p, p ∈ T → owned A p) → 0 <= f < 2 ^ 36 → low_page vpn →
  map_level hh 3 root vpn f u w s = Some s' →
  (∀ j, 256 <= j < 512 → word s' (slot root j) = word s (slot root j))
  ∧ ∀ a, a / 4096 ∈ high_tables root s → word s' a = word s a.
Proof using P.
  intros C R Ht Hown Hf Hv%low_page_index E. pose proof (tree_root _ _ _ _ Ht) as Hroot.
  pose proof (proj1 (Hown root Hroot)) as Hok. pose proof (table_index_range vpn 3) as Hi.
  rewrite map_level_S, (VA_of_table _ _ P) in E by done. cbn [mbind option_bind] in E. set (i := table_index vpn 3) in *.
  destruct (below_ok _ _ P 2 root T i s A (2 + n) C R Ht Hown Hi) as (s1 & A1 & T1 & Eb & R1 & G1 & Ht1 & (Hpr & Hhu) & _).
  rewrite Eb in E. cbn [mbind option_bind] in E. rewrite (entry_at_word _ _ P) in E by done.
  (* what [below] wrote *)
  assert ((∀ j, 256 <= j < 512 → word s1 (slot root j) = word s (slot root j))
    ∧ ∀ a, a / 4096 ∈ T → a / 4096 ≠ root → word s1 a = word s a) as [Hw1 Hw2].
  { unfold below in Eb. rewrite !(entry_at_word _ _ P) in Eb by done.
    destruct (has (word s (slot root i)) PTE_PRESENT).
    - change ((3 =? 2)%nat || (3 =? 1)%nat) with false in Eb. rewrite andb_false_r in Eb. by injection Eb as <-.
    - destruct (alloc_step _ _ P _ _ _ C R) as (c & s2 & Ea & Hc & _ & _ & _ & _ & Ho). rewrite Ea in Eb.
      cbn [mbind option_bind] in Eb. injection Eb as <-.
      assert (∀ p, p ∈ T → p ≠ c) as HcT.
      { intros p Hp ->. destruct (Hown c Hp) as [_ Hin]. apply Hc, Hin.
        destruct (alloc_step _ _ P _ _ _ C R) as (c' & s2' & Ea' & _ & Hu & _). congruence. }
      split.
      + intros j Hj. rewrite (word_set_entry _ _ P), decide_False by (done || (intros E2%slot_inj; lia)).
        apply Ho. rewrite slot_frame by lia. by apply HcT.
      + intros a Ha Hne. rewrite (word_set_entry _ _ P), decide_False by (done || (intros ->; by rewrite slot_frame in Hne)).
        apply Ho. by apply HcT. }
  pose proof (grow_client _ _ _ _ _ _ _ _ G1) as C1. pose proof (grows_owned _ _ P _ _ _ _ _ _ G1 Hown) as Hown1.
  destruct Ht1 as (sub & H1 & H2 & H3 & H4). pose proof (H4 i Hi) as Htc. cbn zeta in Htc. rewrite Hpr, Hhu in Htc.
  assert (∀ p, p ∈ sub i → owned A1 p) as Howni by (intros p Hp; apply Hown1, H3; right; by exists i).
  assert (addr_of (word s1 (slot root i)) < 2 ^ 36) as Hlt.
  { apply (ok_frame_bound _ _ P). apply Howni. by eapply tree_root. }
  rewrite entry_ppn_addr in E by done.
  destruct (map_level_ok _ _ P n 2 _ (sub i) s1 A1 vpn f u w C1 R1 Htc Howni Hf) as (s2 & A2 & Tc & E' & G2 & _).
  rewrite E in E'. injection E' as <-.
  assert (∀ p, p ∈ T1 → p ∉ sub i → p ∉ Tc) as Hout.
  { intros p Hp Hn Hpc. destruct (grow_new _ _ _ _ _ _ _ _ G2 p Hpc) as [|[Hin Hn2]]; [done|].
    eapply (fresh_not_owned hh entries P s' A1 A2 p); [apply (grow_client _ _ _ _ _ _ _ _ G2)|done|done|by apply Hown1]. }
  assert (∀ a, a / 4096 ∈ T1 → a / 4096 ∉ sub i → word s' a = word s1 a) as Hw3
    by (intros a Ha Hn; apply (grow_words _ _ _ _ _ _ _ _ G2); by apply Hout).
  assert (root ∈ T1 ∧ root ∉ sub i) as [Hr1 Hr2] by (split; [apply H3; by left|by apply H1]).
  split.
  - intros j Hj. rewrite Hw3 by (by rewrite slot_frame by lia). by apply Hw1.
  - intros a (j & Hj & Ha)%elem_of_high_tables.
    assert (a / 4096 ∈ T ∧ a / 4096 ≠ root) as [HaT Hne].
    { destruct Ht as (sub0 & H01 & H02 & H03 & H04). assert (0 <= j < 512) as Hj' by lia.
      apply (branch_sub 2 root s (sub0) j _ (H04 j Hj')) in Ha. split; [apply H03; right; by exists j|].
      intros Er. rewrite Er in Ha. by apply (H01 j). }
    assert (branch 2 root j s1 = branch 2 root j s) as Eb2.
    { apply (branch_frame 2 root T); [done|lia|by apply Hw1|done]. }
    assert (0 <= j < 512) as Hj' by lia. rewrite <- Eb2 in Ha. apply (branch_sub 2 root s1 sub j _ (H4 j Hj')) in Ha.
    rewrite Hw3; [by apply Hw2|apply H3; right; by exists j|].
    intros Hai. apply (H2 j i Hj' Hi ltac:(lia) (a / 4096)); done.
Qed.
(** ** The copy in progress

    The parent has root [root], tables [T] and pages [M] in the first state [s0]; the
    pages below [bound] are already in the child, whose root is [rc]. *)

Section Clone.
Context (root rc : Z) (s0 : PhysMem) (A0 T : gset Z) (M : gmap Z Z) (Hs0 : aspace root s0 A0 T M).

Record cloning (n : nat) (bound : Z) (s : PhysMem) (A T2 : gset Z) (M2 : gmap Z Z) : Prop := {
  cl_child : aspace rc s A T2 M2;
  cl_room : room entries (4 * pages_from bound M + n) A;
  cl_A : A0 ⊆ A;
  cl_tables : ∀ a, a / 4096 ∈ T → word s a = word s0 a;
  cl_pages : ∀ vpn f a, M !! vpn = Some f → a / 4096 = f → word s a = word s0 a;
  cl_apart : ∀ p, p ∈ T → p ∈ T2 → p ∈ high_tables rc s;
  cl_data : ∀ vpn f, M !! vpn = Some f → f ∉ T2;
  cl_dom : ∀ vpn, is_Some (M2 !! vpn) ↔ is_Some (M !! vpn) ∧ vpn < bound;
  cl_copy : ∀ vpn f g, M !! vpn = Some f → M2 !! vpn = Some g →
    g ∉ A0 ∧ ∀ k, 0 <= k < 512 → word s (slot g k) = word s0 (slot f k)
}.

Lemma cloning_skip n b b' s A T2 M2 :
  cloning n b s A T2 M2 → b <= b' → (∀ v, b <= v < b' → M !! v = None) → cloning n b' s A T2 M2.
Proof using.
  intros [H1 H2 H3 H4 H5 H6 H7 H8 H9] Hb Hn. split; try done.
  - by rewrite <- (pages_from_skip b b' M Hb Hn).
  - intros v. rewrite H8. split; intros [Hv Hlt]; (split; [done|]); [lia|].
    destruct (decide (v < b)); [done|]. rewrite Hn in Hv by lia. by destruct Hv.
Qed.

(** The body of the loop at level 0. *)
Definition clone_page (cr3 vpn_bits src_ppn : Z) (write : bool) (s : PhysMem) : option PhysMem :=
  '(dst_ppn, s) ← alloc hh s;
  dst ← VA_of_PPN hh dst_ppn;
  src ← VA_of_PPN hh src_ppn;
  let s := copy_words hh 512 dst src s in
  vpn ← VPN_VA (u64 (Z.shiftl vpn_bits LOG_FRAME_SIZE));
  map_in_root hh cr3 vpn dst_ppn true write s.

Lemma page_va vpn : low_page vpn → VPN_VA (u64 (Z.shiftl vpn LOG_FRAME_SIZE)) = Some vpn.
Proof using.
  unfold low_page. change (2 ^ 35) with 34359738368. intros Hv. unfold LOG_FRAME_SIZE.
  rewrite Z.shiftl_mul_pow2 by lia. change (2 ^ 12) with 4096. rewrite u64_id by word_lia.
  rewrite VPN_VA_page by (apply check_canonical_low; change (2 ^ 47) with 140737488355328; lia). f_equal. word_lia.
Qed.

(** One page: a new frame [g] with the words of [f]. *)
Lemma clone_page_steps k vpn f s A T2 M2 :
  aspace rc s A T2 M2 → room entries (4 + k) A → low_page vpn → ok_frame hh f → f ∈ A →
  ∃ g s2 s3 A3 T3, clone_page (rc * 4096) vpn f true s = Some s3 ∧ aspace rc s3 A3 T3 (<[vpn := g]> M2) ∧ room entries k A3
    ∧ g ∉ A ∧ owned ({[g]} ∪ A) g ∧ usable entries g ∧ g ∉ T2 ∧ grows hh entries s2 s3 ({[g]} ∪ A) A3 T2 T3
    ∧ (∀ a, a / 4096 ≠ g → word s2 a = word s a) ∧ (∀ i, 0 <= i < 512 → word s2 (slot g i) = word s (slot f i))
    ∧ high_tables rc s3 = high_tables rc s ∧ ∀ a, a / 4096 ∈ high_tables rc s → word s3 a = word s a.
Proof using P.
  intros H1 R Hlow Hfok HfA. change (4 + k)%nat with (S (3 + k)) in R.
  destruct (as_alloc _ _ P _ _ _ _ _ _ _ H1 R) as (g & s1 & Ea & Hg & S1 & (HgA & HgT & HgM) & R1 & Hw1 & _).
  pose proof (client_owned _ _ P _ _ g (as_client _ _ _ _ _ _ _ _ S1) HgA) as Hog.
  pose proof (client_usable _ _ P _ _ g (as_client _ _ _ _ _ _ _ _ S1) HgA) as Hug.
  pose proof (ok_frame_bound _ _ P g (proj1 Hog)) as Hg36.
  assert (f ≠ g) as Hfg by (intros ->; exact (Hg HfA)).
  destruct (copy_words_ok g f s1 ({[g]} ∪ A) Hog Hfok Hfg (as_client _ _ _ _ _ _ _ _ S1)) as (C2 & Hw2 & Hc2). cbn zeta in *.
  remember (copy_words hh 512 (frame_va hh g) (frame_va hh f) s1) as s2 eqn:Es2.
  pose proof (as_write _ _ _ _ _ _ _ _ _ _ S1 C2 HgT Hw2) as S2.
  destruct (as_map _ _ P _ low_distinct rc _ s2 _ T2 M2 vpn g S2 R1 Hlow HgA HgT HgM) as (s3 & A3 & T3 & Em & S3 & G & R3).
  assert (∀ a, a / 4096 ≠ g → word s2 a = word s a) as Hw by (intros a Ha; rewrite (Hw2 a Ha); exact (Hw1 a Ha)).
  pose proof (as_tree _ _ _ _ _ _ _ _ H1) as Ht. pose proof (as_tree _ _ _ _ _ _ _ _ S2) as Ht2.
  assert (∀ a, a / 4096 ∈ T2 → word s2 a = word s a) as HwT by (intros a Ha; apply Hw; intros E; rewrite E in Ha; exact (HgT Ha)).
  assert (high_tables rc s2 = high_tables rc s) as Eh2.
  { apply (high_tables_frame rc T2 _ _ Ht).
    - intros j Hj. apply HwT. rewrite slot_frame by lia. exact (tree_root _ _ _ _ Ht).
    - intros a Ha. exact (HwT a (high_in_tree rc T2 s _ Ht Ha)). }
  pose proof Em as Em'. unfold map_in_root in Em'. rewrite (root_ppn _ _ P) in Em'
    by exact (proj1 (as_owned _ _ _ _ _ _ _ _ H1 rc (tree_root _ _ _ _ Ht))).
  destruct (map_root_high rc T2 s2 s3 _ _ vpn g true true C2 R1 Ht2 (as_owned _ _ _ _ _ _ _ _ S2)) as [He3 Hh3];
    [lia|exact Hlow|exact Em'|]. clear Em'.
  pose proof (high_tables_frame rc T2 s2 s3 Ht2 He3 Hh3) as Eh3.
  exists g, s2, s3, A3, T3. split.
  { unfold clone_page. rewrite Ea. cbn [mbind option_bind]. rewrite !(VA_of_table _ _ P) by (exact Hfok || exact (proj1 Hog)).
    cbn [mbind option_bind]. rewrite (page_va vpn Hlow). cbn [mbind option_bind]. rewrite <- Es2. exact Em. }
  clear Em Ea Es2. split_and!; [exact S3|exact R3|exact Hg|exact Hog|exact Hug|exact HgT|exact G|exact Hw| |by rewrite Eh3|].
  - intros i Hi. rewrite (Hc2 i Hi). apply Hw1. rewrite slot_frame by exact Hi. exact Hfg.
  - intros a Ha. rewrite Hh3 by (rewrite Eh2; exact Ha). exact (HwT a (high_in_tree rc T2 s _ Ht Ha)).
Qed.

Lemma clone_page_ok n vpn f s A T2 M2 :
  cloning n vpn s A T2 M2 → M !! vpn = Some f →
  ∃ s' A' T2' M2', clone_page (rc * 4096) vpn f true s = Some s' ∧ cloning n (vpn + 1) s' A' T2' M2'.
Proof using P Hs0.
  intros [H1 H2 H3 H4 H5 H6 H7 H8 H9] Hf. destruct (as_dom _ _ _ _ _ _ _ _ Hs0 _ _ Hf) as (Hlow & HfA & HfT).
  rewrite (pages_from_take vpn M f Hf) in H2.
  replace (4 * S (pages_from (vpn + 1) M) + n)%nat with (4 + (4 * pages_from (vpn + 1) M + n))%nat in H2 by lia.
  destruct (as_frame _ _ P _ _ _ _ _ _ _ _ Hs0 Hf) as [Hfok Hf36].
  destruct (clone_page_steps _ vpn f s A T2 M2 H1 H2 Hlow Hfok (H3 f HfA))
    as (g & s2 & s3 & A3 & T3 & Ec & S3 & R3 & Hg & Hog & Hug & HgT & G & Hw & Hc & Eh & Hh).
  exists s3, A3, T3, (<[vpn := g]> M2). split; [exact Ec|]. clear Ec.
  assert (∀ p, p ∈ {[g]} ∪ A → p ∉ T2 → p ∉ T3) as Hout.
  { intros p HpA HpT Hp. destruct (grow_new _ _ _ _ _ _ _ _ G p Hp) as [H|[_ H]]; [exact (HpT H)|exact (H HpA)]. }
  assert (∀ p, p ∈ A → p ≠ g) as Hold by (intros p Hp ->; exact (Hg Hp)).
  assert (∀ p, p ∈ T → usable entries p → p ∈ A) as HTA.
  { intros p Hp Hu. apply H3. exact (proj2 (as_owned _ _ _ _ _ _ _ _ Hs0 p Hp) Hu). }
  assert (∀ p, p ∈ T → p ∈ T3 → p ∈ T2) as HT3.
  { intros p Hp Hp3. destruct (grow_new _ _ _ _ _ _ _ _ G p Hp3) as [|[Hin Hn]]; [done|]. exfalso.
    apply Hn, elem_of_union_r, HTA; [exact Hp|].
    eapply client_usable; [exact P|apply (grow_client _ _ _ _ _ _ _ _ G)|exact Hin]. }
  (* a frame of [A] that is not a table of the child *)
  assert (∀ a, a / 4096 ∈ A → a / 4096 ∉ T2 → word s3 a = word s a) as Hkeep.
  { intros a HaA HaT. rewrite (grow_words _ _ _ _ _ _ _ _ G) by (apply Hout; [by apply elem_of_union_r|exact HaT]).
    apply Hw. by apply Hold. }
  assert (∀ v f', M !! v = Some f' → f' ∈ A) as HMA.
  { intros v f' Hv. apply H3. by destruct (as_dom _ _ _ _ _ _ _ _ Hs0 _ _ Hv) as (_ & ? & _). }
  split.
  - exact S3.
  - exact R3.
  - etrans; [exact H3|]. etrans; [apply union_subseteq_r|apply (grow_A _ _ _ _ _ _ _ _ G)].
  - intros a Ha. rewrite <- (H4 a Ha). destruct (decide (a / 4096 ∈ T3)) as [H|H].
    + apply Hh. apply H6; [exact Ha|by apply HT3].
    + rewrite (grow_words _ _ _ _ _ _ _ _ G) by exact H. apply Hw. intros E. rewrite E in Ha. by apply Hg, HTA.
  - intros v f' a Hv Ha. rewrite <- (H5 v f' a Hv Ha). apply Hkeep; rewrite Ha; [by eapply HMA|by eapply H7].
  - intros p Hp Hp3. rewrite Eh. apply H6; [exact Hp|by apply HT3].
  - intros v f' Hv. apply Hout; [apply elem_of_union_r; by eapply HMA|by eapply H7].
  - intros v. destruct (decide (v = vpn)) as [->|Hne].
    + rewrite lookup_insert_eq. split; [intros _; split; [by exists f|lia]|by eexists].
    + rewrite lookup_insert_ne, H8 by done. split; intros [? ?]; (split; [done|lia]).
  - intros v f' g' Hv Hg'. destruct (decide (v = vpn)) as [->|Hne].
    + rewrite lookup_insert_eq in Hg'. injection Hg' as <-. assert (f' = f) as -> by congruence.
      split; [intros ?; by apply Hg, H3|]. intros k Hk.
      rewrite (grow_words _ _ _ _ _ _ _ _ G).
      * rewrite (Hc k Hk). apply (H5 vpn f); [exact Hf|by apply slot_frame].
      * rewrite slot_frame by exact Hk. apply Hout; [apply elem_of_union_l; by apply elem_of_singleton|exact HgT].
    + rewrite lookup_insert_ne in Hg' by done. destruct (H9 v f' g' Hv Hg') as [Hn Hk]. split; [done|]. intros k Hk'.
      destruct (as_dom _ _ _ _ _ _ _ _ H1 _ _ Hg') as (_ & HgA' & HgT'). rewrite <- (Hk k Hk').
      apply Hkeep; rewrite slot_frame by exact Hk'; done.
Qed.

(** *** The walk of the parent's tables *)

(** Table [t] of level [l] is the parent's for the pages from [base] on. *)
Record table_of (l : nat) (t : Z) (Tt : gset Z) (base : Z) : Prop := {
  to_tree : tree l t Tt s0;
  to_sub : Tt ⊆ T;
  to_base : ∃ q, 0 <= q ∧ base = q * 512 ^ Z.of_nat (S l);
  to_pages : ∀ vpn, low_page vpn → base <= vpn < base + 512 ^ Z.of_nat (S l) →
    user_path l t vpn s0 ∧ leaf l t vpn s0 = match M !! vpn with Some f => make_entry f true true | None => 0 end
}.

Lemma pow_S l : 512 ^ Z.of_nat (S l) = 512 * 512 ^ Z.of_nat l.
Proof using. rewrite Nat2Z.inj_succ, Z.pow_succ_r by lia. done. Qed.
Lemma pow_pos l : 0 < 512 ^ Z.of_nat l.
Proof using. apply Z.pow_pos_nonneg; lia. Qed.

(** The entry of a page. *)
Lemma block_index l base q i vpn :
  base = q * 512 ^ Z.of_nat (S l) → 0 <= i < 512 →
  base + i * 512 ^ Z.of_nat l <= vpn < base + (i + 1) * 512 ^ Z.of_nat l → table_index vpn l = i.
Proof using.
  intros -> Hi Hv. rewrite table_index_eq, pow_S in *. pose proof (pow_pos l). set (w := 512 ^ Z.of_nat l) in *.
  replace (vpn / w) with (q * 512 + i); [word_lia|]. apply Z.div_unique with (vpn - (q * 512 + i) * w); nia.
Qed.

Lemma table_ok_frame l t Tt base : table_of l t Tt base → ok_frame hh t ∧ 0 <= t < 2 ^ 36.
Proof using P Hs0.
  intros [H1 H2 _ _]. assert (ok_frame hh t) as Hok by (eapply (as_tables _ _ _ _ _ _ _ _ Hs0), H2; by eapply tree_root).
  split; [done|]. pose proof (ok_frame_bound _ _ P t Hok). lia.
Qed.

(** An empty entry: no page of its block is mapped. *)
Lemma block_empty l t Tt base i vpn :
  table_of l t Tt base → 0 <= i < 512 → has (word s0 (slot t i)) PTE_PRESENT = false → low_page vpn →
  base + i * 512 ^ Z.of_nat l <= vpn < base + (i + 1) * 512 ^ Z.of_nat l → M !! vpn = None.
Proof using P Hs0.
  intros [H1 H2 (q & Hq & Hb) H4] Hi Hpr Hlow Hv. pose proof (block_index l base q i vpn Hb Hi Hv) as Ei.
  destruct (H4 vpn Hlow) as [_ Hl]; [rewrite pow_S; nia|].
  destruct (M !! vpn) as [f|] eqn:Hf; [|done]. exfalso.
  destruct (as_frame _ _ P _ _ _ _ _ _ _ _ Hs0 Hf) as [_ Hf36]. destruct (make_entry_facts f true true Hf36) as (Hp & _). cbn zeta in Hp.
  rewrite <- Hl in Hp. destruct l as [|l].
  - unfold leaf in Hp. cbn [leaf_slot] in Hp. fold (slot t (table_index vpn 0)) in Hp. rewrite Ei in Hp. congruence.
  - rewrite leaf_S in Hp. cbn zeta in Hp. rewrite Ei, Hpr in Hp. done.
Qed.

(** A table below: not a large page, and the parent's for its block. *)
Lemma block_table l t Tt base i :
  table_of (S l) t Tt base → 0 <= i < 512 → has (word s0 (slot t i)) PTE_PRESENT = true →
  base + (i + 1) * 512 ^ Z.of_nat (S l) <= 2 ^ 35 →
  is_huge (word s0 (slot t i)) (S l) = false
  ∧ ∃ Tc, table_of l (addr_of (word s0 (slot t i))) Tc (base + i * 512 ^ Z.of_nat (S l)).
Proof using P Hs0.
  intros [H1 H2 (q & Hq & Hb) H4] Hi Hpr Htop. pose proof (pow_pos (S l)). rewrite (pow_S (S l)) in *.
  set (w := 512 ^ Z.of_nat (S l)) in *. assert (0 <= base + i * w) as Hlo by nia.
  assert (∀ vpn, base + i * w <= vpn < base + i * w + w → low_page vpn ∧ table_index vpn (S l) = i
    ∧ base <= vpn < base + 512 * w) as Hin.
  { intros vpn Hv. split_and!; [unfold low_page; nia| |nia|nia].
    apply (block_index (S l) base q i vpn); [rewrite (pow_S (S l)); fold w; done|done|fold w; nia]. }
  assert (is_huge (word s0 (slot t i)) (S l) = false) as Hhu.
  { destruct (Hin (base + i * w)) as (Hlow & Ei & Hr); [lia|]. destruct (H4 _ Hlow Hr) as [Hu _].
    cbn [user_path] in Hu. cbn zeta in Hu. rewrite Ei in Hu. by destruct (Hu Hpr) as (? & _). }
  split; [exact Hhu|]. destruct H1 as (sub & _ & _ & Hs3 & Hs4). specialize (Hs4 i Hi). cbn zeta in Hs4. rewrite Hpr, Hhu in Hs4.
  exists (sub i). split; [exact Hs4| | |].
  - intros p Hp. apply H2, Hs3. right. exists i. exact (conj Hi Hp).
  - exists (q * 512 + i). split; [lia|]. fold w. rewrite Hb. ring.
  - fold w. intros vpn Hlow Hv. destruct (Hin vpn Hv) as (_ & Ei & Hr). destruct (H4 vpn Hlow Hr) as [Hu Hl].
    cbn [user_path] in Hu. rewrite leaf_S in Hl. cbn zeta in Hu, Hl. rewrite Ei in Hu, Hl. rewrite Hpr, Hhu in Hl.
    split; [|exact Hl]. by apply Hu.
Qed.

(** The loop over the entries of a table: [page] does a block. *)
Lemma clone_entries_ok n l t Tt base page m : ∀ i s A T2 M2,
  table_of l t Tt base →
  (∀ j s A T2 M2, 0 <= j < 512 → base + (j + 1) * 512 ^ Z.of_nat l <= 2 ^ 35 → has (word s0 (slot t j)) PTE_PRESENT = true →
    cloning n (base + j * 512 ^ Z.of_nat l) s A T2 M2 →
    ∃ s' A' T2' M2', page j (word s0 (slot t j)) (frame_va hh t) s = Some s'
      ∧ cloning n (base + (j + 1) * 512 ^ Z.of_nat l) s' A' T2' M2') →
  0 <= i → i + Z.of_nat m <= 512 → base + (i + Z.of_nat m) * 512 ^ Z.of_nat l <= 2 ^ 35 →
  cloning n (base + i * 512 ^ Z.of_nat l) s A T2 M2 →
  ∃ s' A' T2' M2', clone_entries hh page m i (frame_va hh t) s = Some s'
    ∧ cloning n (base + (i + Z.of_nat m) * 512 ^ Z.of_nat l) s' A' T2' M2'.
Proof using P Hs0.
  induction m as [|m IH]; intros i s A T2 M2 Ht Hpage Hi Hm Htop C; cbn [clone_entries].
  - exists s, A, T2, M2. rewrite Z.add_0_r. split; [reflexivity|exact C].
  - destruct (table_ok_frame _ _ _ _ Ht) as [Hok _]. assert (0 <= i < 512) as Hi' by lia. pose proof (pow_pos l).
    rewrite (entry_at_word _ _ P) by (exact Hok || exact Hi').
    assert (word s (slot t i) = word s0 (slot t i)) as ->.
    { apply (cl_tables _ _ _ _ _ _ C). rewrite slot_frame by exact Hi'. apply (to_sub _ _ _ _ Ht). exact (tree_root _ _ _ _ (to_tree _ _ _ _ Ht)). }
    assert (∃ s1 A1 T1 M1, (if negb (has (word s0 (slot t i)) PTE_PRESENT) then Some s
        else page i (word s0 (slot t i)) (frame_va hh t) s) = Some s1
      ∧ cloning n (base + (i + 1) * 512 ^ Z.of_nat l) s1 A1 T1 M1) as (s1 & A1 & T1 & M1 & -> & C1).
    { assert (base + (i + 1) * 512 ^ Z.of_nat l <= 2 ^ 35) as Htop1 by nia.
      destruct (has (word s0 (slot t i)) PTE_PRESENT) eqn:Hpr; cbn [negb].
      - exact (Hpage i s A T2 M2 Hi' Htop1 Hpr C).
      - exists s, A, T2, M2. split; [reflexivity|]. apply (cloning_skip _ _ _ _ _ _ _ C); [nia|].
        intros v Hv. apply (block_empty l t Tt base i v Ht Hi' Hpr); [|exact Hv].
        destruct (to_base _ _ _ _ Ht) as (q & Hq & Hb). pose proof (pow_pos (S l)). unfold low_page. nia. }
    cbn [mbind option_bind]. destruct (IH (i + 1) s1 A1 T1 M1 Ht Hpage) as (s2 & A2 & T2' & M2' & E & C2); [lia|lia| |exact C1|].
    + replace (i + 1 + Z.of_nat m) with (i + Z.of_nat (S m)) by lia. exact Htop.
    + exists s2, A2, T2', M2'. split; [exact E|]. by replace (i + Z.of_nat (S m)) with (i + 1 + Z.of_nat m) by lia.
Qed.

Lemma vpn_bits_eq l base q i :
  base = q * 512 ^ Z.of_nat (S l) → 0 <= i < 512 → Z.lor base (Z.shiftl i (Z.of_nat l * 9)) = base + i * 512 ^ Z.of_nat l.
Proof using.
  intros -> Hi. assert (∀ k, 512 ^ Z.of_nat k = 2 ^ (Z.of_nat k * 9)) as E.
  { intros k. change 512 with (2 ^ 9). rewrite <- Z.pow_mul_r by lia. f_equal. lia. }
  rewrite Z.shiftl_mul_pow2, <- E by lia. pose proof (pow_pos l). pose proof (pow_S l) as ES. rewrite (E (S l)) in ES |- *.
  apply lor_disjoint; [lia|]. rewrite ES. nia.
Qed.

Lemma clone_user_pages_S l dst t base s :
  clone_user_pages hh dst l t base s =
  (table ← VA_of_PPN hh t;
   clone_entries hh (λ i entry _ s,
     let vpn_bits := Z.lor base (Z.shiftl i (Z.of_nat l * 9)) in
     match l with
     | O => if negb (has entry PTE_USER) then Some s else clone_page dst vpn_bits (entry_ppn entry) (has entry PTE_WRITE) s
     | S l => if has entry PTE_HUGE then None else clone_user_pages hh dst l (entry_ppn entry) vpn_bits s
     end) 512 0 table s).
Proof using. by destruct l. Qed.

Lemma clone_user_pages_ok n l : (l <= 2)%nat → ∀ t Tt base s A T2 M2,
  table_of l t Tt base → base + 512 ^ Z.of_nat (S l) <= 2 ^ 35 → cloning n base s A T2 M2 →
  ∃ s' A' T2' M2', clone_user_pages hh (rc * 4096) l t base s = Some s'
    ∧ cloning n (base + 512 ^ Z.of_nat (S l)) s' A' T2' M2'.
Proof using P Hs0.
  induction l as [|l IH]; intros Hl t Tt base s A T2 M2 Ht Htop C; rewrite clone_user_pages_S;
    destruct (table_ok_frame _ _ _ _ Ht) as [Hok _]; rewrite (VA_of_table _ _ P) by exact Hok; cbn [mbind option_bind];
    destruct (to_base _ _ _ _ Ht) as (q & Hq & Hb); rewrite pow_S in Htop |- *.
  - destruct (clone_entries_ok n 0 t Tt base (λ i entry _ s, let vpn_bits := Z.lor base (Z.shiftl i (Z.of_nat 0 * 9)) in
       if negb (has entry PTE_USER) then Some s else clone_page (rc * 4096) vpn_bits (entry_ppn entry) (has entry PTE_WRITE) s)
       512 0 s A T2 M2 Ht) as (s' & A' & T2' & M2' & E & C'); [|lia|lia|lia| |].
    + intros j s1 A1 T1 M1 Hj Hj1 Hpr C1. cbn zeta. rewrite (vpn_bits_eq 0 base q j Hb Hj).
      change (512 ^ Z.of_nat 0) with 1 in *. rewrite Z.mul_1_r in *.
      assert (low_page (base + j)) as Hlow by (unfold low_page; pose proof (pow_pos 1); nia).
      destruct (to_pages _ _ _ _ Ht (base + j) Hlow) as [_ Hlf]; [rewrite pow_S; change (512 ^ Z.of_nat 0) with 1; lia|].
      assert (table_index (base + j) 0 = j) as Ej
        by (apply (block_index 0 base q j (base + j) Hb Hj); change (512 ^ Z.of_nat 0) with 1; lia).
      unfold leaf in Hlf. cbn [leaf_slot] in Hlf. fold (slot t (table_index (base + j) 0)) in Hlf. rewrite Ej in Hlf.
      destruct (M !! (base + j)) as [f|] eqn:Hf; [|by rewrite Hlf in Hpr].
      destruct (as_frame _ _ P _ _ _ _ _ _ _ _ Hs0 Hf) as [Hfok Hf36].
      destruct (make_entry_facts f true true Hf36) as (_ & _ & Ha & Hfl). cbn zeta in Ha, Hfl.
      assert (has (word s0 (slot t j)) PTE_USER = true ∧ has (word s0 (slot t j)) PTE_WRITE = true) as [-> ->].
      { rewrite Hlf. unfold has. rewrite !(Z.land_comm (make_entry f true true)). unfold PTE_USER, PTE_WRITE.
        by rewrite (Hfl 4), (Hfl 2) by lia. }
      cbn [negb]. rewrite entry_ppn_addr by (rewrite Hlf, Ha; lia). rewrite Hlf, Ha.
      replace (base + (j + 1) * 1) with (base + j + 1) by lia.
      exact (clone_page_ok n (base + j) f s1 A1 T1 M1 C1 Hf).
    + rewrite Z.mul_0_l, Z.add_0_r. exact C.
    + exists s', A', T2', M2'. split; [exact E|]. exact C'.
  - destruct (clone_entries_ok n (S l) t Tt base (λ i entry _ s, let vpn_bits := Z.lor base (Z.shiftl i (Z.of_nat (S l) * 9)) in
       if has entry PTE_HUGE then None else clone_user_pages hh (rc * 4096) l (entry_ppn entry) vpn_bits s)
       512 0 s A T2 M2 Ht) as (s' & A' & T2' & M2' & E & C'); [|lia|lia|lia| |].
    + intros j s1 A1 T1 M1 Hj Hj1 Hpr C1. cbn zeta. rewrite (vpn_bits_eq (S l) base q j Hb Hj).
      destruct (block_table l t Tt base j Ht Hj Hpr Hj1) as (Hhu & Tc & Htc).
      destruct (table_ok_frame _ _ _ _ Htc) as [_ Hc36].
      assert (has (word s0 (slot t j)) PTE_HUGE = false) as ->.
      { unfold is_huge in Hhu. destruct l as [|[|l]]; [by rewrite andb_true_r in Hhu|by rewrite andb_true_r in Hhu|lia]. }
      rewrite entry_ppn_addr by lia.
      destruct (IH ltac:(lia) _ Tc _ s1 A1 T1 M1 Htc) as (s2 & A2 & T2' & M2' & E2 & C2); [lia|exact C1|].
      exists s2, A2, T2', M2'. split; [exact E2|].
      replace (base + (j + 1) * 512 ^ Z.of_nat (S l)) with (base + j * 512 ^ Z.of_nat (S l) + 512 ^ Z.of_nat (S l)) by lia. exact C2.
    + rewrite Z.mul_0_l, Z.add_0_r. exact C.
    + exists s', A', T2', M2'. split; [exact E|]. exact C'.
Qed.

Lemma root_table : table_of 3 root T 0.
Proof using Hs0.
  split; [apply (as_tree _ _ _ _ _ _ _ _ Hs0)|reflexivity|by exists 0|]. intros vpn Hlow _.
  split; [by apply (as_path _ _ _ _ _ _ _ _ Hs0)|by apply (as_leaf _ _ _ _ _ _ _ _ Hs0)].
Qed.

Lemma cloning_start n T2 :
  aspace rc s0 A0 T2 ∅ → room entries (4 * size M + n) A0 → (∀ p, p ∈ T → p ∈ T2 → p ∈ high_tables rc s0) →
  (∀ vpn f, M !! vpn = Some f → f ∉ T2) → cloning n 0 s0 A0 T2 ∅.
Proof using Hs0.
  intros S2 R Ha Hd. assert (∀ v f, M !! v = Some f → 0 <= v) as Hlow.
  { intros v f Hf. destruct (as_dom _ _ _ _ _ _ _ _ Hs0 _ _ Hf) as ([? _] & _). done. }
  split; try done.
  - by rewrite (pages_from_all M Hlow).
  - intros vpn. rewrite lookup_empty. split; [by intros []|]. intros [[f Hf] Hv]. pose proof (Hlow vpn f Hf). lia.
Qed.

Lemma fork_from_ok n v T2 :
  phys v = s0 → cr3 v = rc * 4096 → cloning n 0 s0 A0 T2 ∅ →
  ∃ s' A' T2' M2', fork_from hh (root * 4096) v = Some (v .[ vmes := clone_vme_list (vmes v) ] .[ phys := s' ])
    ∧ cloning n (2 ^ 35) s' A' T2' M2'.
Proof using P Hs0.
  intros Hs Hcr C. pose proof root_table as Ht. destruct (table_ok_frame _ _ _ _ Ht) as [Hok _].
  destruct (clone_entries_ok n 3 root T 0 (λ i entry _ s, clone_user_pages hh (rc * 4096) 2 (entry_ppn entry) (Z.shiftl i 27) s)
    256 0 s0 A0 T2 ∅ Ht) as (s' & A' & T2' & M2' & E & C'); [|lia|lia|reflexivity|exact C|].
  - intros j s1 A1 T1 M1 Hj Hj1 Hpr C1. destruct (block_table 2 root T 0 j Ht Hj Hpr Hj1) as (_ & Tc & Htc).
    destruct (table_ok_frame _ _ _ _ Htc) as [_ Hc36].
    assert (Z.shiftl j 27 = 0 + j * 512 ^ Z.of_nat 3) as -> by (rewrite Z.shiftl_mul_pow2 by lia; reflexivity).
    rewrite entry_ppn_addr by lia.
    replace (0 + (j + 1) * 512 ^ Z.of_nat 3) with (0 + j * 512 ^ Z.of_nat 3 + 512 ^ Z.of_nat 3) in Hj1 |- * by lia.
    by apply (clone_user_pages_ok n 2 ltac:(lia) _ Tc _ s1 A1 T1 M1 Htc).
  - exists s', A', T2', M2'. split; [|exact C'].
    unfold fork_from. rewrite (root_ppn _ _ P) by exact Hok. rewrite (VA_of_table _ _ P) by exact Hok.
    cbn [mbind option_bind]. rewrite <- Hcr, <- Hs in E.
    transitivity (s1 ← Some s'; Some (v .[ vmes := clone_vme_list (vmes v) ] .[ phys := s1 ])); [|reflexivity].
    rewrite <- E. reflexivity.
Qed.

(** *** What a finished copy is *)

Lemma byte_copied s s' f g i :
  (∀ k, 0 <= k < 512 → word s' (slot g k) = word s (slot f k)) → 0 <= i < 4096 →
  byte_of s' (g * 4096 + i) = byte_of s (f * 4096 + i).
Proof using.
  intros H Hi. unfold byte_of. assert (∀ x, (x * 4096 + i) mod 8 = i mod 8) as Em by (intros; word_lia).
  rewrite !Em. assert (∀ x, x * 4096 + i - i mod 8 = slot x (i / 8)) as Es by (intros; unfold slot; word_lia).
  rewrite !Es, H by word_lia. reflexivity.
Qed.

Lemma cloned_parent n b s A T2 M2 :
  cloning n b s A T2 M2 → aspace root s A T M.
Proof using Hs0.
  intros C. eapply as_frame_client; [exact Hs0|apply (as_client _ _ _ _ _ _ _ _ (cl_child _ _ _ _ _ _ C))|exact (cl_tables _ _ _ _ _ _ C)| |].
  - intros p Hp. eapply owned_mono; [exact (cl_A _ _ _ _ _ _ C)|exact (as_owned _ _ _ _ _ _ _ _ Hs0 p Hp)].
  - intros vpn f Hf. apply (cl_A _ _ _ _ _ _ C). by destruct (as_dom _ _ _ _ _ _ _ _ Hs0 _ _ Hf) as (_ & ? & _).
Qed.

Lemma cloned_parent_loads n b s A T2 M2 a :
  cloning n b s A T2 M2 → low_addr a → user_load (root * 4096) a s = user_load (root * 4096) a s0.
Proof using P Hs0.
  intros C Ha. rewrite (user_load_ok _ _ P root _ _ _ _ _ (cloned_parent _ _ _ _ _ _ C) Ha), (user_load_ok _ _ P root _ _ _ _ _ Hs0 Ha).
  destruct (M !! (a / 4096)) as [f|] eqn:Hf; [|done]. cbn [fmap option_fmap option_map]. f_equal.
  apply byte_of_frame; [|word_lia]. intros q Hq. exact (cl_pages _ _ _ _ _ _ C _ f q Hf Hq).
Qed.

Lemma cloned_child_loads n s A T2 M2 a :
  cloning n (2 ^ 35) s A T2 M2 → low_addr a → user_load (rc * 4096) a s = user_load (root * 4096) a s0.
Proof using P Hs0.
  intros C Ha. rewrite (user_load_ok _ _ P rc _ _ _ _ _ (cl_child _ _ _ _ _ _ C) Ha), (user_load_ok _ _ P root _ _ _ _ _ Hs0 Ha).
  pose proof (cl_dom _ _ _ _ _ _ C (a / 4096)) as Hd. destruct (low_addr_page a Ha) as [_ Hlt].
  destruct (M !! (a / 4096)) as [f|] eqn:Hf; destruct (M2 !! (a / 4096)) as [g|] eqn:Hg; [..|reflexivity].
  - cbn [fmap option_fmap option_map]. f_equal. destruct (cl_copy _ _ _ _ _ _ C _ f g Hf Hg) as [_ Hk].
    apply byte_copied; [exact Hk|word_lia].
  - destruct (proj2 Hd) as [x Hx]; [|done]. split; [by exists f|exact Hlt].
  - destruct (proj1 Hd) as [[x Hx] _]; [by exists g|done].
Qed.

(** The frames of the child are its own. *)
Lemma cloned_frames n b s A T2 M2 vpn g :
  cloning n b s A T2 M2 → M2 !! vpn = Some g → g ∉ T ∧ ∀ v, M !! v ≠ Some g.
Proof using P Hs0.
  intros C Hg. destruct (proj1 (cl_dom _ _ _ _ _ _ C vpn)) as [[f Hf] _]; [by exists g|].
  destruct (cl_copy _ _ _ _ _ _ C vpn f g Hf Hg) as [Hn _]. split.
  - intros HT. apply Hn. apply (proj2 (as_owned _ _ _ _ _ _ _ _ Hs0 g HT)).
    eapply client_usable; [exact P|apply (as_client _ _ _ _ _ _ _ _ (cl_child _ _ _ _ _ _ C))|].
    by destruct (as_dom _ _ _ _ _ _ _ _ (cl_child _ _ _ _ _ _ C) _ _ Hg) as (_ & ? & _).
  - intros v Hv. apply Hn. by destruct (as_dom _ _ _ _ _ _ _ _ Hs0 _ _ Hv) as (_ & ? & _).
Qed.

End Clone.

(** ** Two address spaces that share no page *)

(** A store through [r1] is not seen through [r2]. *)
Definition isolated (r1 r2 : Z) (s : PhysMem) : Prop :=
  ∀ va b s', low_addr va → 0 <= b < 256 → user_store hh (r1 * 4096) va b s = Some s' →
  ∀ a, low_addr a → user_load (r2 * 4096) a s' = user_load (r2 * 4096) a s.

Lemma apart_isolated r1 r2 s A T1 T2 M1 M2 :
  aspace r1 s A T1 M1 → aspace r2 s A T2 M2 → (∀ vpn f, M1 !! vpn = Some f → f ∉ T2 ∧ ∀ v, M2 !! v ≠ Some f) →
  isolated r1 r2 s.
Proof using P.
  intros S1 S2 Hap va b s' Hva Hb E a Ha.
  destruct (M1 !! (va / 4096)) as [f1|] eqn:Hf1.
  2: { unfold user_store in E. by rewrite (user_pa_ok _ _ P r1 _ _ _ _ _ _ S1 Hva), Hf1 in E. }
  destruct (user_store_ok _ _ P r1 s A T1 M1 va b S1 Hva ltac:(by exists f1) Hb) as (s2 & E2 & S1' & _ & Hw).
  rewrite E in E2. injection E2 as <-. clear E.
  assert (∀ q, (q / 4096 ∈ T2 ∨ ∃ v, M2 !! v = Some (q / 4096)) → word s' q = word s q) as Hk.
  { intros q Hq. apply Hw. intros vpn Hv. destruct (Hap _ _ Hv) as [H1 H2]. destruct Hq as [?|[v ?]]; [done|by apply (H2 v)]. }
  assert (aspace r2 s' A T2 M2) as S2'.
  { eapply as_frame_client; [exact S2|apply (as_client _ _ _ _ _ _ _ _ S1')|intros q Hq; apply Hk; by left
      |exact (as_owned _ _ _ _ _ _ _ _ S2)|]. intros v f Hf. by destruct (as_dom _ _ _ _ _ _ _ _ S2 _ _ Hf) as (_ & ? & _). }
  rewrite (user_load_ok _ _ P r2 _ _ _ _ _ S2' Ha), (user_load_ok _ _ P r2 _ _ _ _ _ S2 Ha).
  destruct (M2 !! (a / 4096)) as [f|] eqn:Hf; [|done]. cbn [fmap option_fmap option_map]. f_equal.
  apply byte_of_frame; [|word_lia]. intros q Hq. apply Hk. right. exists (a / 4096). by rewrite Hq.
Qed.

(** [fork_from] gives the child a copy of the whole lower half of the parent: every address
    reads the same in the child as in the parent, the parent's memory is unchanged, and from then on
    a store of one of the two is never seen by the other.  It holds for every address space of
    user pages, when the child's tables share with the parent's at most those of the upper half. *)
Theorem fork_from_copies n root rc v A T M T2 :
  aspace root (phys v) A T M → aspace rc (phys v) A T2 ∅ → cr3 v = rc * 4096 →
  (∀ p, p ∈ T → p ∈ T2 → p ∈ high_tables rc (phys v)) → (∀ vpn f, M !! vpn = Some f → f ∉ T2) →
  room entries (4 * size M + n) A →
  ∃ v' A' T2' M2', fork_from hh (root * 4096) v = Some v' ∧ cr3 v' = rc * 4096 ∧ vmes v' = vmes v
    ∧ aspace root (phys v') A' T M ∧ aspace rc (phys v') A' T2' M2' ∧ room entries n A'
    ∧ (∀ a, low_addr a → user_load (rc * 4096) a (phys v') = user_load (root * 4096) a (phys v))
    ∧ (∀ a, low_addr a → user_load (root * 4096) a (phys v') = user_load (root * 4096) a (phys v))
    ∧ isolated root rc (phys v') ∧ isolated rc root (phys v').
Proof using P.
  intros S1 S2 Hcr Hap Hd R. pose proof (cloning_start root rc _ A T M S1 n T2 S2 R Hap Hd) as C0.
  destruct (fork_from_ok root rc (phys v) A T M S1 n v T2 eq_refl Hcr C0) as (s' & A' & T2' & M2' & E & C).
  pose proof (cloned_parent _ _ _ _ _ _ S1 _ _ _ _ _ _ C) as S1'. pose proof (cl_child _ _ _ _ _ _ _ _ _ _ _ C) as S2'.
  eexists _, A', T2', M2'. split; [exact E|]. unfold set_field. cbn [cr3 vmes phys]. rewrite clone_vme_list_eq.
  split_and!; [exact Hcr|reflexivity|exact S1'|exact S2'| | | | |].
  - pose proof (cl_room _ _ _ _ _ _ _ _ _ _ _ C) as R'. clear -R'. induction (4 * _)%nat as [|k IH]; [exact R'|].
    by apply IH, room_S.
  - intros a Ha. exact (cloned_child_loads _ _ _ _ _ _ S1 _ _ _ _ _ a C Ha).
  - intros a Ha. exact (cloned_parent_loads _ _ _ _ _ _ S1 _ _ _ _ _ _ a C Ha).
  - apply (apart_isolated root rc s' A' T T2' M M2' S1' S2'). intros vpn f Hf.
    split; [exact (cl_data _ _ _ _ _ _ _ _ _ _ _ C vpn f Hf)|]. intros v2 Hv2.
    by destruct (cloned_frames _ _ _ _ _ _ S1 _ _ _ _ _ _ v2 f C Hv2) as [_ H]; apply (H vpn).
  - apply (apart_isolated rc root s' A' T2' T M2' M S2' S1'). intros vpn g Hg.
    exact (cloned_frames _ _ _ _ _ _ S1 _ _ _ _ _ _ vpn g C Hg).
Qed.
End Fork.
