(* ===== verification/Elf.v ===== *)
(** * Loading a program ([elf.h], [elf.cc])

    [ELF::load] maps the segments an ELF file names and copies them in,
    [build_initial_stack] lays out the arguments and the auxiliary vector the
    user runtime expects.  The theorems say which bytes the new program finds in
    its memory. *)

From stdpp Require Import gmap.
From S2P Require Import Prelude PhysMem BlockIO Ext2 PageTable AddrSpace Vme Vmm UserMem.

Definition le64 (b : bytes) (off : nat) : Z := le32 b off + 4294967296 * le32 b (off + 4).
Definition bytes64 (x : Z) : bytes := bytes32 (x mod 4294967296) ++ bytes32 (x / 4294967296).

(** ** The structures of the file *)

Record ElfHeader := mkElfHeader {
  e_ident : bytes;
  e_type : Z;
  machine : Z;
  version : Z;
  entry : Z;
  phoff : Z;
  shoff : Z;
  e_flags : Z;
  ehsize : Z;
  phentsize : Z;
  phnum : Z;
  shentsize : Z;
  shnum : Z;
  shstrndx : Z;
}.
Definition ElfHeader_size : Z := 64.
Definition ElfHeader_of (b : bytes) : ElfHeader :=
  mkElfHeader (take 16 b) (le16 b 16) (le16 b 18) (le32 b 20) (le64 b 24) (le64 b 32) (le64 b 40) (le32 b 48)
    (le16 b 52) (le16 b 54) (le16 b 56) (le16 b 58) (le16 b 60) (le16 b 62).

Record ProgramHeader := mkProgramHeader {
  p_type : Z;
  p_flags : Z;
  p_offset : Z;
  vaddr : Z;
  paddr : Z;
  filesz : Z;
  memsz : Z;
  p_align : Z;
}.
Definition ProgramHeader_size : Z := 56.
Definition ProgramHeader_of (b : bytes) : ProgramHeader :=
  mkProgramHeader (le32 b 0) (le32 b 4) (le64 b 8) (le64 b 16) (le64 b 24) (le64 b 32) (le64 b 40) (le64 b 48).

Definition USER_STACK_TOP : Z := 8796092956672.
Definition USER_STACK_SIZE : Z := 64 * 1024.
Definition AT_NULL : Z := 0.
Definition AT_PHDR : Z := 3.
Definition AT_PHENT : Z := 4.
Definition AT_PHNUM : Z := 5.
Definition AT_PAGESZ : Z := 6.
Definition AT_BASE : Z := 7.
Definition AT_ENTRY : Z := 9.
Definition AT_UID : Z := 11.
Definition AT_EUID : Z := 12.
Definition AT_GID : Z := 13.
Definition AT_EGID : Z := 14.
Definition AT_SECURE : Z := 23.
Definition AT_RANDOM : Z := 25.

Definition align_down (value : Z) : Z := Z.land value 18446744073709547520.
Definition align_up (value : Z) : Z := Z.land (u64 (u64 (value + PAGE_SIZE) - 1)) 18446744073709547520.

(** ** Loading

    The state is the physical memory and the break of the thread's control block. *)
Record Loader := mkLoader {
  t_phys : PhysMem;
  brk : Z;
  min_brk : Z;
}.
#[export] Instance eta_Loader : Eta Loader := fun t => mkLoader (t_phys t) (brk t) (min_brk t).

Section Elf.
Context (hhdm_offset cr3 : Z).

Definition zero_user_range (start length : Z) (s : PhysMem) : option PhysMem :=
  user_stores hhdm_offset cr3 start (replicate (Z.to_nat length) 0) s.

Definition map_user_range (start length : Z) (s : PhysMem) : option PhysMem :=
  if length =? 0 then Some s
  else
    let map_start := align_down start in
    let map_end := align_up (u64 (start + length)) in
    map_range hhdm_offset cr3 map_start (u64 (map_end - map_start)) true true s.

Definition copy_to_user (dest : Z) (src : bytes) (s : PhysMem) : option PhysMem :=
  user_stores hhdm_offset cr3 dest src s.

(** [file->read_all(offset, n, p)] with [p] in user memory. *)
Definition read_to_user (file : Node) (offset n p : Z) (s : PhysMem) : option (Z * PhysMem) :=
  '(cnt, bs) ← read_all (node_io file) offset n;
  s ← user_stores hhdm_offset cr3 p bs s;
  Some (cnt, s).

Definition load_segment (file : Node) (phdr : ProgramHeader) (t : Loader) : option Loader :=
  if p_type phdr =? 1 then
    let p := vaddr phdr in
    if memsz phdr <? filesz phdr then None
    else
      s ← map_user_range p (memsz phdr) (t_phys t);
      s ← zero_user_range p (memsz phdr) s;
      s ← (if negb (filesz phdr =? 0) then
             '(n, s) ← read_to_user file (u32 (p_offset phdr)) (u32 (filesz phdr)) p s;
             if n =? i64 (filesz phdr) then Some s else None
           else Some s);
      let end_ := u64 (p + memsz phdr) in
      let t := t .[ t_phys := s ] in
      Some (if brk t <? end_ then t .[ brk := end_ ] else t)
  else Some t.

Fixpoint load_segments (n : nat) (file : Node) (entsize hoff : Z) (t : Loader) : option Loader :=
  match n with
  | O => Some t
  | S n =>
      b ← read_thing (node_io file) hoff ProgramHeader_size;
      t ← load_segment file (ProgramHeader_of b) t;
      load_segments n file entsize (u32 (hoff + entsize)) t
  end.

(** The stack of the program, at the end of [load]. *)
Definition map_stack (s : PhysMem) : option PhysMem :=
  let stack_base := USER_STACK_TOP - USER_STACK_SIZE in
  s ← map_user_range stack_base USER_STACK_SIZE s;
  zero_user_range stack_base USER_STACK_SIZE s.

Definition load (file : Node) (t : Loader) : option (Z * Loader) :=
  b ← read_thing (node_io file) 0 ElfHeader_size;
  let hdr := ElfHeader_of b in
  t ← load_segments (Z.to_nat (phnum hdr)) file (phentsize hdr) (u32 (phoff hdr)) t;
  let t := t .[ min_brk := brk t ] in
  s ← map_stack (t_phys t);
  Some (entry hdr, t .[ t_phys := s ]).

Fixpoint find_program_headers_loop (n : nat) (file : Node) (hdr : ElfHeader) (hoff : Z) : option Z :=
  match n with
  | O => Some 0
  | S n =>
      b ← read_thing (node_io file) (u32 hoff) ProgramHeader_size;
      let phdr := ProgramHeader_of b in
      if (p_type phdr =? 1) && (p_offset phdr <=? phoff hdr) && (phoff hdr <? u64 (p_offset phdr + filesz phdr))
      then Some (u64 (vaddr phdr + u64 (phoff hdr - p_offset phdr)))
      else find_program_headers_loop n file hdr (u64 (hoff + phentsize hdr))
  end.
Definition find_program_headers_va (file : Node) (hdr : ElfHeader) : option Z :=
  find_program_headers_loop (Z.to_nat (phnum hdr)) file hdr (phoff hdr).

Definition push_u64 (value : Z) (st : Z * PhysMem) : option (Z * PhysMem) :=
  let cursor := u64 (st.1 - 8) in
  s ← user_stores hhdm_offset cr3 cursor (bytes64 value) st.2;
  Some (cursor, s).
Fixpoint push_auxv (auxv : list (Z * Z)) (st : Z * PhysMem) : option (Z * PhysMem) :=
  match auxv with
  | [] => Some st
  | (tag, value) :: auxv =>
      st ← push_auxv auxv st;
      st ← push_u64 value st;
      push_u64 tag st
  end.

(** The string [init] with its terminator. *)
Definition arg0 : bytes := [105; 110; 105; 116; 0].

Definition build_initial_stack (file : Node) (hdr : ElfHeader) (entry_ : Z) (s : PhysMem) : option (Z * PhysMem) :=
  let cursor := USER_STACK_TOP in
  let cursor := u64 (cursor - Z.of_nat (length arg0)) in
  let arg0_addr := cursor in
  s ← copy_to_user arg0_addr arg0 s;
  let cursor := u64 (cursor - 16) in
  let random_addr := cursor in
  s ← zero_user_range random_addr 16 s;
  let cursor := Z.land cursor 18446744073709551600 in
  phdr ← find_program_headers_va file hdr;
  let auxv := [(AT_PHDR, phdr); (AT_PHENT, phentsize hdr); (AT_PHNUM, phnum hdr); (AT_PAGESZ, PAGE_SIZE);
    (AT_BASE, 0); (AT_ENTRY, entry_); (AT_UID, 0); (AT_EUID, 0); (AT_GID, 0); (AT_EGID, 0); (AT_SECURE, 0);
    (AT_RANDOM, random_addr); (AT_NULL, 0)] in
  st ← push_auxv auxv (cursor, s);
  st ← push_u64 0 st;
  st ← push_u64 0 st;
  st ← push_u64 arg0_addr st;
  push_u64 1 st.

(** The entry point and the stack pointer the program starts with. *)
Definition exec (file : Node) (t : Loader) : option (Z * Z * Loader) :=
  b ← read_thing (node_io file) 0 ElfHeader_size;
  let hdr := ElfHeader_of b in
  '(entry_, t) ← load file t;
  '(rsp, s) ← build_initial_stack file hdr entry_ (t_phys t);
  Some (entry_, rsp, t .[ t_phys := s ]).

End Elf.

(** ** What a loaded program finds in its memory *)

Lemma align_down_eq v : is_u64 v → align_down v = v / 4096 * 4096.
Proof. apply PageTable.align_down. Qed.

Lemma align_up_eq v : 0 <= v → v + 4096 < 2 ^ 64 → align_up v = (v + 4095) / 4096 * 4096.
Proof.
  change (2 ^ 64) with 18446744073709551616. intros H1 H2. unfold align_up, PAGE_SIZE, FRAME_SIZE.
  rewrite (u64_id (v + 4096)), u64_id by word_lia. replace (v + 4096 - 1) with (v + 4095) by lia.
  apply PageTable.align_down. word_lia.
Qed.

(** The pages [start / 4096] to [start / 4096 + page_count start length]. *)
Definition page_count (start length : Z) : Z :=
  if length =? 0 then 0 else (start + length + 4095) / 4096 - start / 4096.
Definition page_in (start length a : Z) : Prop :=
  start / 4096 <= a / 4096 < start / 4096 + page_count start length.

Lemma page_count_bounds start length :
  0 <= start → 0 <= length → start + length <= 2 ^ 47 →
  0 <= page_count start length ∧ start / 4096 + page_count start length <= 2 ^ 35.
Proof.
  change (2 ^ 47) with 140737488355328. change (2 ^ 35) with 34359738368. intros H1 H2 H3. unfold page_count.
  destruct (Z.eqb_spec length 0); word_lia.
Qed.

Lemma page_in_range start length a : 0 <= start → start <= a < start + length → page_in start length a.
Proof. intros H1 H2. unfold page_in, page_count. destruct (Z.eqb_spec length 0); word_lia. Qed.

Lemma length_bytes64 x : length (bytes64 x) = 8%nat.
Proof. done. Qed.

Lemma wf_bytes64 x : is_u64 x → wf_bytes (bytes64 x).
Proof.
  intros Hx. unfold bytes64, bytes32. apply Forall_app; split; apply Forall_app; split; apply bytes16_wf; word_lia.
Qed.

Lemma le64_bytes64 x : is_u64 x → le64 (bytes64 x) 0 = x.
Proof. intros Hx. unfold le64, le32, bytes64, bytes32, load16, bytes16. cbn. word_lia. Qed.

Section Load.
Context (hh : Z) (entries : list MemmapEntry) (P : platform hh entries) (root : Z).
Abbreviation aspace := (aspace hh entries low_page root) (only parsing).
Abbreviation cr3 := (root * 4096) (only parsing).
Abbreviation room := (room entries) (only parsing).

(** The address space has grown: nothing that was mapped or handed out is lost. *)
Record larger (A A' : gset Z) (M M' : gmap Z Z) : Prop := {
  lg_A : A ⊆ A';
  lg_M : ∀ vpn, is_Some (M !! vpn) → is_Some (M' !! vpn)
}.
Lemma larger_refl A M : larger A A M M.
Proof using. by split. Qed.
Lemma larger_trans A A1 A2 M M1 M2 : larger A A1 M M1 → larger A1 A2 M1 M2 → larger A A2 M M2.
Proof using. intros [H1 H2] [H3 H4]. split; [by etrans|auto]. Qed.
Lemma larger_mapped A A' M M' va n : larger A A' M M' → mapped M va n → mapped M' va n.
Proof using. intros L H a Ha. by apply (lg_M _ _ _ _ L), H. Qed.

Lemma zero_user_range_ok s A T M start length :
  aspace s A T M → 0 <= start → 0 <= length → start + length <= 2 ^ 47 → mapped M start length →
  ∃ s', zero_user_range hh cr3 start length s = Some s' ∧ aspace s' A T M
    ∧ ∀ a, low_addr a → user_load cr3 a s' = if decide (start <= a < start + length) then Some 0 else user_load cr3 a s.
Proof using P.
  intros S0 H1 H2 H3 Hm. unfold zero_user_range.
  assert (Z.of_nat (List.length (replicate (Z.to_nat length) 0)) = length) as El by (rewrite length_replicate; lia).
  destruct (user_stores_ok _ _ P root T M (replicate (Z.to_nat length) 0) s A start S0 H1) as (s' & E & S' & O & _);
    [by rewrite El|by rewrite El|apply wf_bytes_zeros|].
  exists s'. split_and!; [done|done|]. intros a Ha. rewrite O, El by done. case_decide; [|done].
  rewrite nth_lookup, lookup_replicate_2 by lia. done.
Qed.

Lemma map_user_range_ok k s A T M start length :
  aspace s A T M → room (4 * Z.to_nat (page_count start length) + k) A → 0 <= start → 0 <= length →
  start + length <= 2 ^ 47 → start < 2 ^ 47 →
  ∃ s' A' T' M', map_user_range hh cr3 start length s = Some s' ∧ aspace s' A' T' M' ∧ larger A A' M M'
    ∧ mapped M' start length ∧ room k A'
    ∧ ∀ a, low_addr a → user_load cr3 a s' = if decide (page_in start length a) then Some 0 else user_load cr3 a s.
Proof using P.
  intros S0 R H1 H2 H3 H4. destruct (page_count_bounds _ _ H1 H2 H3) as [Hc0 Hc].
  change (2 ^ 47) with 140737488355328 in H3, H4. unfold map_user_range. destruct (Z.eqb_spec length 0) as [->|Hne].
  - unfold page_count in R. rewrite Z.eqb_refl in R. exists s, A, T, M. split_and!; [done|done|apply larger_refl|intros a ?; lia|done|].
    intros a Ha. rewrite decide_False; [done|]. unfold page_in, page_count. rewrite Z.eqb_refl. lia.
  - rewrite align_down_eq, (u64_id (start + length)) by word_lia.
    rewrite align_up_eq, u64_id by (change (2 ^ 64) with 18446744073709551616; word_lia).
    assert ((start + length + 4095) / 4096 * 4096 - start / 4096 * 4096 =
      Z.of_nat (Z.to_nat (page_count start length)) * 4096) as ->.
    { rewrite Z2Nat.id by done. unfold page_count. rewrite (proj2 (Z.eqb_neq _ _) Hne). lia. }
    destruct (map_range_ok _ _ P root k (Z.to_nat (page_count start length)) s A T M (start / 4096) S0 R)
      as (s' & A' & T' & M' & E & S' & HA & [Hn Ho] & Z0 & R'); [change (2 ^ 35) with 34359738368; word_lia|lia|].
    rewrite Z2Nat.id in Hn, Ho, Z0 by done.
    exists s', A', T', M'. split_and!; [done|done| | |done|done].
    + split; [done|]. intros vpn Hv. destruct (decide (start / 4096 <= vpn < start / 4096 + page_count start length)) as [Hr|Hr].
      * destruct (Hn vpn Hr) as (f & -> & _). done.
      * by rewrite Ho.
    + intros a Ha. destruct (Hn (a / 4096)) as (f & -> & _); [|done]. by apply page_in_range.
Qed.

Section Segments.
Context (file : Node) (data : bytes) `{!Backed (node_io file) data} (Hdata : wf_bytes data).

(** A segment the loader can load: in the lower half, with its bytes in the file. *)
Record segment_ok (ph : ProgramHeader) : Prop := {
  so_vaddr : 0 <= vaddr ph < 2 ^ 47;
  so_top : vaddr ph + memsz ph <= 2 ^ 47;
  so_filesz : 0 <= filesz ph <= memsz ph;
  so_offset : 0 <= p_offset ph;
  so_file : p_offset ph + filesz ph <= Z.of_nat (length data)
}.

(** The byte segment [ph] puts at [a]. *)
Definition seg_byte (ph : ProgramHeader) (a : Z) : Z :=
  if decide (vaddr ph <= a < vaddr ph + filesz ph) then nth (Z.to_nat (p_offset ph + (a - vaddr ph))) data 0 else 0.
(** Loading [ph] writes every byte of its pages. *)
Definition with_segment (ph : ProgramHeader) (a : Z) (old : option Z) : option Z :=
  if decide (p_type ph = 1 ∧ page_in (vaddr ph) (memsz ph) a) then Some (seg_byte ph a) else old.
Definition image (phs : list ProgramHeader) (a : Z) (old : option Z) : option Z :=
  foldl (λ v ph, with_segment ph a v) old phs.

Definition seg_pages (ph : ProgramHeader) : nat :=
  if p_type ph =? 1 then Z.to_nat (page_count (vaddr ph) (memsz ph)) else 0.
Definition seg_end (ph : ProgramHeader) (b : Z) : Z :=
  if p_type ph =? 1 then Z.max b (vaddr ph + memsz ph) else b.

Lemma read_to_user_ok s A T M offset n p :
  aspace s A T M → 0 <= offset → 0 <= n → offset + n <= Z.of_nat (length data) → 0 <= p → p + n <= 2 ^ 47 →
  mapped M p n →
  ∃ s', read_to_user hh cr3 file offset n p s = Some (n, s') ∧ aspace s' A T M
    ∧ overwrites cr3 p (slice data offset n) s s'.
Proof using P Backed0 Hdata.
  intros S0 H1 H2 H3 H4 H5 Hm. unfold read_to_user. rewrite (read_all_ok _ data) by done. cbn [mbind option_bind].
  pose proof (length_slice data offset n H1 H2 H3) as El.
  destruct (user_stores_ok _ _ P root T M (slice data offset n) s A p S0 H4) as (s' & -> & S' & O & _);
    [by rewrite El|by rewrite El|by apply wf_bytes_take, wf_bytes_drop|].
  cbn [mbind option_bind]. by exists s'.
Qed.

Lemma load_segment_ok k ph t A T M :
  aspace (t_phys t) A T M → room (4 * seg_pages ph + k) A → (p_type ph = 1 → segment_ok ph) →
  ∃ s' A' T' M', load_segment hh cr3 file ph t = Some (mkLoader s' (seg_end ph (brk t)) (min_brk t))
    ∧ aspace s' A' T' M' ∧ larger A A' M M' ∧ room k A'
    ∧ ∀ a, low_addr a → user_load cr3 a s' = with_segment ph a (user_load cr3 a (t_phys t)).
Proof using P Backed0 Hdata.
  intros S0 R Hok. unfold load_segment, seg_pages, seg_end, with_segment in *.
  destruct (Z.eqb_spec (p_type ph) 1) as [Ht|Ht].
  2: { exists (t_phys t), A, T, M. split_and!; [by destruct t|done|apply larger_refl|done|].
       intros a _. by rewrite decide_False by tauto. }
  destruct (Hok Ht) as [[Hv1 Hv2] Htop [Hf1 Hf2] Ho Hfile].
  rewrite (proj2 (Z.ltb_ge _ _)) by done.
  destruct (map_user_range_ok k _ A T M (vaddr ph) (memsz ph) S0 R) as (s1 & A1 & T1 & M1 & -> & S1 & L1 & Hm & R1 & U1);
    [lia..|]. cbn [mbind option_bind].
  destruct (zero_user_range_ok s1 A1 T1 M1 (vaddr ph) (memsz ph) S1) as (s2 & -> & S2 & U2); [lia..|done|].
  cbn [mbind option_bind]. pose proof (backed_small (d := node_io file) (data := data)) as Hsm.
  change (2 ^ 31) with 2147483648 in Hsm. change (2 ^ 47) with 140737488355328 in *.
  assert (∃ s3, (if negb (filesz ph =? 0)
      then '(n, s) ← read_to_user hh cr3 file (u32 (p_offset ph)) (u32 (filesz ph)) (vaddr ph) s2;
           if n =? i64 (filesz ph) then Some s else None
      else Some s2) = Some s3 ∧ aspace s3 A1 T1 M1
      ∧ overwrites cr3 (vaddr ph) (slice data (p_offset ph) (filesz ph)) s2 s3) as (s3 & -> & S3 & O3).
  { destruct (Z.eqb_spec (filesz ph) 0) as [E0|E0]; cbn [negb].
    - exists s2. split_and!; [done|done|]. intros a Ha. by rewrite length_slice, decide_False by lia.
    - rewrite !u32_id by word_lia.
      destruct (read_to_user_ok s2 A1 T1 M1 (p_offset ph) (filesz ph) (vaddr ph) S2) as (s3 & -> & S3 & O3);
        [done|lia|lia|lia|change (2 ^ 47) with 140737488355328; lia|intros a ?; apply Hm; lia|].
      cbn [mbind option_bind]. exists s3. rewrite (proj2 (Z.eqb_eq _ _)); [done|]. unfold i64. word_lia. }
  cbn [mbind option_bind]. exists s3, A1, T1, M1. split_and!; [|done|done|done|].
  - rewrite u64_id by word_lia. unfold set_field. cbn [brk]. destruct t as [m b mb]. cbn [t_phys brk min_brk].
    destruct (Z.ltb_spec b (vaddr ph + memsz ph)); do 2 f_equal; lia.
  - intros a Ha. rewrite O3, U2, U1 by done. unfold seg_byte.
    rewrite length_slice by lia. pose proof (page_in_range (vaddr ph) (memsz ph) a Hv1) as Hpi.
    destruct (decide (vaddr ph <= a < vaddr ph + filesz ph)).
    + rewrite decide_True by (split; [done|apply Hpi; lia]). f_equal. rewrite !nth_lookup, lookup_slice by lia.
      do 2 f_equal. lia.
    + destruct (decide (page_in (vaddr ph) (memsz ph) a)).
      * rewrite (decide_True (P := p_type ph = 1 ∧ _)) by done. by case_decide.
      * rewrite (decide_False (P := p_type ph = 1 ∧ _)) by tauto. rewrite decide_False; [done|]. intros ?. apply n0, Hpi. lia.
Qed.

(** *** The file *)

Fixpoint phdrs (n : nat) (hoff entsize : Z) : list ProgramHeader :=
  match n with
  | O => []
  | S n => ProgramHeader_of (slice data hoff ProgramHeader_size) :: phdrs n (hoff + entsize) entsize
  end.

(** The table of [n] program headers lies in the file. *)
Definition table_ok (n : nat) (hoff entsize : Z) : Prop :=
  0 <= hoff ∧ 0 <= entsize ∧ ∀ i, 0 <= i < Z.of_nat n → hoff + i * entsize + ProgramHeader_size <= Z.of_nat (length data).

Lemma table_ok_next n hoff entsize :
  table_ok (S (S n)) hoff entsize → table_ok (S n) (hoff + entsize) entsize ∧ is_u32 (hoff + entsize).
Proof using Backed0.
  intros (H1 & H2 & H3). pose proof (backed_small (d := node_io file) (data := data)) as Hsm.
  change (2 ^ 31) with 2147483648 in Hsm. pose proof (H3 1 ltac:(lia)) as H4. unfold table_ok, ProgramHeader_size in *.
  split; [split_and!; [lia|done|]|word_lia]. intros i Hi. specialize (H3 (i + 1) ltac:(lia)). lia.
Qed.

Lemma table_ok_first n hoff entsize :
  table_ok (S n) hoff entsize → is_u32 hoff ∧ read_thing (node_io file) hoff ProgramHeader_size = Some (slice data hoff ProgramHeader_size).
Proof using Backed0.
  intros (H1 & H2 & H3). pose proof (backed_small (d := node_io file) (data := data)) as Hsm.
  change (2 ^ 31) with 2147483648 in Hsm. pose proof (H3 0 ltac:(lia)) as H4. unfold table_ok, ProgramHeader_size in *.
  split; [word_lia|]. apply read_thing_ok; [done|lia..].
Qed.

Definition segments_ok (phs : list ProgramHeader) : Prop := Forall (λ ph, p_type ph = 1 → segment_ok ph) phs.
Definition image_pages (phs : list ProgramHeader) : nat := sum_list_with seg_pages phs.
Definition image_brk (phs : list ProgramHeader) (b : Z) : Z := foldl (λ b ph, seg_end ph b) b phs.

Lemma load_segments_ok k n : ∀ hoff entsize t A T M,
  aspace (t_phys t) A T M → table_ok n hoff entsize → segments_ok (phdrs n hoff entsize) →
  room (4 * image_pages (phdrs n hoff entsize) + k) A →
  ∃ s' A' T' M', load_segments hh cr3 n file entsize hoff t =
      Some (mkLoader s' (image_brk (phdrs n hoff entsize) (brk t)) (min_brk t))
    ∧ aspace s' A' T' M' ∧ larger A A' M M' ∧ room k A'
    ∧ ∀ a, low_addr a → user_load cr3 a s' = image (phdrs n hoff entsize) a (user_load cr3 a (t_phys t)).
Proof using P Backed0 Hdata.
  induction n as [|n IH]; intros hoff entsize t A T M S0 Ht Hs R.
  - exists (t_phys t), A, T, M. split_and!; [by destruct t|done|apply larger_refl|done|done].
  - destruct (table_ok_first _ _ _ Ht) as [_ Hrd]. cbn [load_segments]. rewrite Hrd. cbn [mbind option_bind].
    cbn [phdrs] in *. set (ph := ProgramHeader_of _) in *. clearbody ph. apply Forall_cons in Hs as [Hph Hs].
    unfold image_pages in R. cbn [sum_list_with] in R. fold (image_pages (phdrs n (hoff + entsize) entsize)) in R.
    destruct (load_segment_ok (4 * image_pages (phdrs n (hoff + entsize) entsize) + k) ph t A T M S0)
      as (s1 & A1 & T1 & M1 & -> & S1 & L1 & R1 & U1);
      [by replace (4 * seg_pages ph + (4 * image_pages (phdrs n (hoff + entsize) entsize) + k))%nat
         with (4 * (seg_pages ph + image_pages (phdrs n (hoff + entsize) entsize)) + k)%nat by lia|done|].
    cbn [mbind option_bind]. destruct n as [|n].
    { exists s1, A1, T1, M1. split_and!; [done..|]. intros a Ha. by rewrite U1. }
    destruct (table_ok_next _ _ _ Ht) as [Ht' Hu]. rewrite u32_id by done.
    destruct (IH (hoff + entsize) entsize (mkLoader s1 (seg_end ph (brk t)) (min_brk t)) A1 T1 M1 S1 Ht' Hs R1)
      as (s2 & A2 & T2 & M2 & E & S2 & L2 & R2 & U2).
    exists s2, A2, T2, M2. split_and!; [done|done|by eapply larger_trans|done|]. intros a Ha. rewrite U2 by done. cbn. by rewrite U1.
Qed.

Definition header : ElfHeader := ElfHeader_of (slice data 0 ElfHeader_size).
Definition headers : list ProgramHeader := phdrs (Z.to_nat (phnum header)) (phoff header) (phentsize header).

(** What the loader relies on: the header, the table and the segments lie in the
    file, the segments in the lower half. *)
Record elf_ok : Prop := {
  eo_header : ElfHeader_size <= Z.of_nat (length data);
  eo_phoff : is_u32 (phoff header);
  eo_table : table_ok (Z.to_nat (phnum header)) (phoff header) (phentsize header);
  eo_segments : segments_ok headers
}.

Definition stack_base : Z := USER_STACK_TOP - USER_STACK_SIZE.

Lemma stack_base_eq : stack_base = 8796092891136.
Proof using. reflexivity. Qed.
Lemma stack_pages : page_count stack_base USER_STACK_SIZE = 16.
Proof using. reflexivity. Qed.
Lemma stack_range : 0 <= stack_base ∧ 0 <= USER_STACK_SIZE ∧ stack_base + USER_STACK_SIZE = USER_STACK_TOP
  ∧ stack_base + USER_STACK_SIZE <= 2 ^ 47 ∧ stack_base < 2 ^ 47.
Proof using.
  rewrite stack_base_eq. unfold USER_STACK_SIZE, USER_STACK_TOP. change (2 ^ 47) with 140737488355328. lia.
Qed.

(** The memory after [load]: the image of the segments and a zeroed stack. *)
Definition loaded (a : Z) (old : option Z) : option Z :=
  if decide (stack_base <= a < USER_STACK_TOP) then Some 0 else image headers a old.

Lemma stack_page a : page_in stack_base USER_STACK_SIZE a → stack_base <= a < USER_STACK_TOP.
Proof using.
  unfold page_in. rewrite stack_pages, stack_base_eq. unfold USER_STACK_TOP. word_lia.
Qed.

Lemma map_stack_ok k s A T M :
  aspace s A T M → room (4 * 16 + k) A →
  ∃ s' A' T' M', map_stack hh cr3 s = Some s'
    ∧ aspace s' A' T' M' ∧ larger A A' M M' ∧ room k A' ∧ mapped M' stack_base USER_STACK_SIZE
    ∧ ∀ a, low_addr a →
        user_load cr3 a s' = if decide (stack_base <= a < USER_STACK_TOP) then Some 0 else user_load cr3 a s.
Proof using P.
  intros S0 R. destruct stack_range as (H1 & H2 & H3 & H4 & H5).
  destruct (map_user_range_ok k s A T M stack_base USER_STACK_SIZE S0) as (s1 & A1 & T1 & M1 & E1 & S1 & L1 & Hm & R1 & U1);
    [by rewrite stack_pages|done..|].
  destruct (zero_user_range_ok s1 A1 T1 M1 stack_base USER_STACK_SIZE S1 H1 H2 H4 Hm) as (s2 & E2 & S2 & U2).
  unfold map_stack. fold stack_base. rewrite E1. cbn [mbind option_bind]. rewrite E2.
  exists s2, A1, T1, M1. split_and!; [done..|]. intros a Ha. rewrite U2, H3 by done. case_decide as Hst; [done|].
  rewrite U1 by done. rewrite decide_False; [done|]. intros ?%stack_page. done.
Qed.

Lemma load_ok k t A T M :
  elf_ok → aspace (t_phys t) A T M → room (4 * image_pages headers + (4 * 16 + k)) A →
  ∃ s' A' T' M', load hh cr3 file t = Some (entry header, mkLoader s' (image_brk headers (brk t)) (image_brk headers (brk t)))
    ∧ aspace s' A' T' M' ∧ larger A A' M M' ∧ room k A' ∧ mapped M' stack_base USER_STACK_SIZE
    ∧ ∀ a, low_addr a → user_load cr3 a s' = loaded a (user_load cr3 a (t_phys t)).
Proof using P Backed0 Hdata.
  intros [Hh Ho Ht Hs] S0 R. unfold load. rewrite (read_thing_ok _ data) by done. cbn [mbind option_bind].
  fold header. rewrite u32_id by done.
  destruct (load_segments_ok (4 * 16 + k) _ _ _ t A T M S0 Ht Hs R) as (s1 & A1 & T1 & M1 & -> & S1 & L1 & R1 & U1).
  destruct (map_stack_ok k s1 A1 T1 M1 S1 R1) as (s3 & A2 & T2 & M2 & E2 & S3 & L2 & R2 & Hm & U2).
  cbn [mbind option_bind]. unfold set_field. cbn [t_phys brk min_brk]. rewrite E2. cbn [mbind option_bind].
  exists s3, A2, T2, M2. split_and!; [done|done|by eapply larger_trans|done|done|].
  intros a Ha. unfold loaded. rewrite U2 by done. case_decide; [done|]. by rewrite U1.
Qed.

(** *** The initial stack *)

(** Pushing the words of [ws], the last one first. *)
Fixpoint pushes (ws : list Z) (st : Z * PhysMem) : option (Z * PhysMem) :=
  match ws with
  | [] => Some st
  | w :: ws => st ← pushes ws st; push_u64 hh cr3 w st
  end.
Definition words_bytes (ws : list Z) : bytes := ws ≫= bytes64.

Lemma length_words_bytes ws : Z.of_nat (length (words_bytes ws)) = 8 * Z.of_nat (length ws).
Proof using.
  induction ws as [|w ws IH]; [done|]. change (words_bytes (w :: ws)) with (bytes64 w ++ words_bytes ws).
  rewrite length_app, length_bytes64, Nat2Z.inj_add, IH. cbn [length]. lia.
Qed.

Lemma push_auxv_words auxv st : push_auxv hh cr3 auxv st = pushes (auxv ≫= λ '(tag, value), [tag; value]) st.
Proof using.
  induction auxv as [|[tag value] auxv IH]; [done|]. cbn [push_auxv mbind list_bind app pushes]. rewrite IH. cbn [app pushes].
  by destruct (pushes _ st).
Qed.

Lemma pushes_ok T M ws : ∀ s A cursor,
  aspace s A T M → Forall is_u64 ws → 8 * Z.of_nat (length ws) <= cursor → cursor <= 2 ^ 47 →
  mapped M (cursor - 8 * Z.of_nat (length ws)) (8 * Z.of_nat (length ws)) →
  ∃ s', pushes ws (cursor, s) = Some (cursor - 8 * Z.of_nat (length ws), s') ∧ aspace s' A T M
    ∧ overwrites cr3 (cursor - 8 * Z.of_nat (length ws)) (words_bytes ws) s s'.
Proof using P.
  induction ws as [|w ws IH]; intros s A cursor S0 Hws H1 H2 Hm; cbn [pushes].
  - exists s. rewrite Z.sub_0_r. split_and!; [done|done|]. intros a Ha. cbn. by rewrite decide_False by lia.
  - apply Forall_cons in Hws as [Hw Hws]. cbn [length] in *.
    destruct (IH s A cursor S0 Hws) as (s1 & -> & S1 & O1); [lia|lia|intros a ?; apply Hm; lia|].
    cbn [mbind option_bind]. unfold push_u64. cbn [fst snd].
    set (c := cursor - 8 * Z.of_nat (length ws)) in *. change (2 ^ 47) with 140737488355328 in H2.
    rewrite u64_id by word_lia.
    destruct (user_stores_ok _ _ P root T M (bytes64 w) s1 A (c - 8) S1) as (s2 & -> & S2 & O2 & _);
      [lia|rewrite length_bytes64; change (2 ^ 47) with 140737488355328; lia
      |intros a Ha; rewrite length_bytes64 in Ha; apply Hm; lia|by apply wf_bytes64|].
    cbn [mbind option_bind]. replace (cursor - 8 * Z.of_nat (S (length ws))) with (c - 8) by lia.
    exists s2. split_and!; [done|done|]. change (words_bytes (w :: ws)) with (bytes64 w ++ words_bytes ws).
    eapply overwrites_push; [|done]. rewrite length_bytes64. by replace (c - 8 + Z.of_nat 8) with c by lia.
Qed.

(** Where the program finds its program headers, 0 when they are not loaded. *)
Fixpoint headers_va (hdr : ElfHeader) (phs : list ProgramHeader) : Z :=
  match phs with
  | [] => 0
  | ph :: phs =>
      if (p_type ph =? 1) && (p_offset ph <=? phoff hdr) && (phoff hdr <? u64 (p_offset ph + filesz ph))
      then u64 (vaddr ph + u64 (phoff hdr - p_offset ph))
      else headers_va hdr phs
  end.

Lemma headers_va_u64 hdr phs : is_u64 (headers_va hdr phs).
Proof using. induction phs as [|ph phs IH]; cbn [headers_va]; [word_lia|]. case_match; [word_lia|done]. Qed.

Lemma find_program_headers_loop_ok hdr n : ∀ hoff,
  table_ok n hoff (phentsize hdr) →
  find_program_headers_loop n file hdr hoff = Some (headers_va hdr (phdrs n hoff (phentsize hdr))).
Proof using Backed0.
  induction n as [|n IH]; intros hoff Ht; [done|]. destruct (table_ok_first _ _ _ Ht) as [Hu Hrd].
  cbn [find_program_headers_loop phdrs headers_va]. rewrite u32_id, Hrd by done. cbn [mbind option_bind].
  destruct (_ && _); [done|]. destruct n as [|n]; [done|].
  destruct (table_ok_next _ _ _ Ht) as [Ht' Hu']. rewrite u64_id by word_lia. by apply IH.
Qed.

(** The words on the stack from the stack pointer on. *)
Definition arg0_addr : Z := USER_STACK_TOP - 5.
Definition initial_words (entry_ : Z) : list Z :=
  [1; arg0_addr; 0; 0;
   AT_PHDR; headers_va header headers; AT_PHENT; phentsize header; AT_PHNUM; phnum header; AT_PAGESZ; 4096;
   AT_BASE; 0; AT_ENTRY; entry_; AT_UID; 0; AT_EUID; 0; AT_GID; 0; AT_EGID; 0; AT_SECURE; 0;
   AT_RANDOM; arg0_addr - 16; AT_NULL; 0].
Definition initial_rsp : Z := USER_STACK_TOP - 272.

Lemma initial_words_u64 entry_ : is_u64 entry_ → Forall is_u64 (initial_words entry_).
Proof using Hdata.
  intros He. assert (∀ n, is_u64 (le16 (slice data 0 ElfHeader_size) n)) as H16.
  { intros n. unfold le16. pose proof (load16_range (slice data 0 ElfHeader_size) n) as H.
    assert (is_u16 (load16 (slice data 0 ElfHeader_size) n)) by (apply H; by apply wf_bytes_take, wf_bytes_drop). word_lia. }
  unfold initial_words, arg0_addr, USER_STACK_TOP, AT_PHDR, AT_PHENT, AT_PHNUM, AT_PAGESZ, AT_BASE, AT_ENTRY, AT_UID,
    AT_EUID, AT_GID, AT_EGID, AT_SECURE, AT_RANDOM, AT_NULL.
  repeat (apply Forall_cons; split); try done; try apply headers_va_u64; try word_lia; apply H16.
Qed.

Lemma push4 a b c d ws st :
  pushes (a :: b :: c :: d :: ws) st =
  (st ← pushes ws st; st ← push_u64 hh cr3 d st; st ← push_u64 hh cr3 c st; st ← push_u64 hh cr3 b st; push_u64 hh cr3 a st).
Proof using.
  cbn [pushes]. destruct (pushes ws st) as [st1|]; [|done]. cbn [mbind option_bind].
  destruct (push_u64 hh cr3 d st1) as [st2|]; [|done]. cbn [mbind option_bind].
  by destruct (push_u64 hh cr3 c st2).
Qed.

(** The three writes: the string, the random bytes, the words. *)
Lemma build_initial_stack_writes s A T M entry_ :
  elf_ok → aspace s A T M → is_u64 entry_ → mapped M stack_base USER_STACK_SIZE →
  ∃ s1 s2 s', build_initial_stack hh cr3 file header entry_ s = Some (initial_rsp, s') ∧ aspace s' A T M
    ∧ overwrites cr3 arg0_addr arg0 s s1 ∧ overwrites cr3 (arg0_addr - 16) (replicate 16 0) s1 s2
    ∧ overwrites cr3 initial_rsp (words_bytes (initial_words entry_)) s2 s'.
Proof using P Backed0 Hdata.
  intros E S0 He Hm. destruct stack_range as (_ & _ & Htop & Hle & _). rewrite stack_base_eq in *.
  assert (USER_STACK_SIZE = 65536) as Esz by reflexivity. rewrite Esz in *.
  assert (Z.of_nat (length arg0) = 5 ∧ Z.of_nat (length (replicate 16 0)) = 16
    ∧ Z.of_nat (length (initial_words entry_)) = 30) as (El1 & El2 & El3) by done.
  assert (2 ^ 47 = 140737488355328) as E47 by reflexivity. rewrite E47 in Hle.
  assert (arg0_addr = USER_STACK_TOP - 5) as Ea by reflexivity.
  destruct (user_stores_ok _ _ P root T M arg0 s A arg0_addr S0) as (s1 & E1 & S1 & O1 & _);
    [lia|rewrite E47; lia|intros a Ha; apply Hm; lia|by repeat constructor|].
  destruct (user_stores_ok _ _ P root T M (replicate 16 0) s1 A (arg0_addr - 16) S1) as (s2 & E2 & S2 & O2 & _);
    [lia|rewrite E47; lia|intros a Ha; apply Hm; lia|by repeat constructor|].
  destruct (pushes_ok T M (initial_words entry_) s2 A (USER_STACK_TOP - 32) S2) as (s3 & E3 & S3 & O3);
    [by apply initial_words_u64|lia|rewrite E47; lia|intros a Ha; apply Hm; lia|].
  exists s1, s2, s3. split_and!; [|exact S3|exact O1|exact O2|].
  - unfold build_initial_stack, find_program_headers_va.
    rewrite (find_program_headers_loop_ok header _ _ (eo_table E)). fold headers.
    assert (u64 (USER_STACK_TOP - Z.of_nat (length arg0)) = arg0_addr) as -> by reflexivity.
    assert (u64 (arg0_addr - 16) = arg0_addr - 16) as -> by reflexivity.
    assert (Z.land (arg0_addr - 16) 18446744073709551600 = USER_STACK_TOP - 32) as -> by reflexivity.
    unfold copy_to_user. rewrite E1. cbn [mbind option_bind]. unfold zero_user_range.
    assert (Z.to_nat 16 = 16%nat) as -> by reflexivity. rewrite E2. cbn [mbind option_bind].
    rewrite push_auxv_words. cbn [mbind list_bind app]. rewrite <- push4.
    assert (USER_STACK_TOP - 32 - 8 * Z.of_nat (length (initial_words entry_)) = initial_rsp) as Er
      by (rewrite El3; unfold initial_rsp; lia).
    rewrite Er in E3. exact E3.
  - rewrite El3 in O3. by replace (USER_STACK_TOP - 32 - 8 * 30) with initial_rsp in O3 by (unfold initial_rsp; lia).
Qed.

Lemma build_initial_stack_ok s A T M entry_ :
  elf_ok → aspace s A T M → is_u64 entry_ → mapped M stack_base USER_STACK_SIZE →
  ∃ s', build_initial_stack hh cr3 file header entry_ s = Some (initial_rsp, s') ∧ aspace s' A T M
    ∧ user_loads cr3 240 initial_rsp s' = Some (words_bytes (initial_words entry_))
    ∧ user_loads cr3 5 arg0_addr s' = Some arg0
    ∧ ∀ a, low_addr a → ¬ (initial_rsp <= a < USER_STACK_TOP) → user_load cr3 a s' = user_load cr3 a s.
Proof using P Backed0 Hdata.
  intros E S0 He Hm. destruct (build_initial_stack_writes s A T M entry_ E S0 He Hm) as (s1 & s2 & s' & Eb & S' & O1 & O2 & O3).
  assert (Z.of_nat (length (words_bytes (initial_words entry_))) = 240) as El by (by rewrite length_words_bytes).
  assert (2 ^ 47 = 140737488355328) as E47 by reflexivity.
  assert (arg0_addr = USER_STACK_TOP - 5 ∧ initial_rsp = USER_STACK_TOP - 272 ∧ USER_STACK_TOP = 8796092956672) as (Ea & Er & Et) by done.
  assert (Z.of_nat (length arg0) = 5 ∧ Z.of_nat (length (replicate 16 0)) = 16) as [El1 El2] by done.
  exists s'. split_and!; [exact Eb|exact S'| | |].
  - replace 240%nat with (length (words_bytes (initial_words entry_))) by lia.
    eapply overwrites_loads; [exact O3|lia|rewrite E47; lia].
  - apply (user_loads_spec (root * 4096) s' arg0 arg0_addr); [lia|rewrite E47; lia|]. intros a Ha.
    assert (low_addr a) as Hl by (unfold low_addr; rewrite E47; lia).
    rewrite O3 by exact Hl. rewrite El, decide_False, O2 by (exact Hl || lia).
    rewrite El2, decide_False, O1 by (exact Hl || lia). rewrite decide_True by lia. reflexivity.
  - intros a Ha Hna. rewrite O3 by exact Ha. rewrite El, decide_False, O2 by (exact Ha || lia).
    rewrite El2, decide_False, O1 by (exact Ha || lia). rewrite El1, decide_False by lia. reflexivity.
Qed.

Lemma entry_u64 : is_u64 (entry header).
Proof using Hdata.
  unfold header, ElfHeader_of. cbn [entry]. unfold le64, le32.
  assert (∀ n, is_u16 (load16 (slice data 0 ElfHeader_size) n)) as H16
    by (intros n; apply load16_range; by apply wf_bytes_take, wf_bytes_drop).
  pose proof (H16 24%nat). pose proof (H16 26%nat). pose proof (H16 28%nat). pose proof (H16 30%nat). cbn [Nat.add]. word_lia.
Qed.

End Segments.

(** A byte of a segment's pages, on none of the pages of the later segments. *)
Lemma image_last (data : bytes) phs1 ph phs2 a old :
  p_type ph = 1 → page_in (vaddr ph) (memsz ph) a → (∀ ph', ph' ∈ phs2 → p_type ph' = 1 → ¬ page_in (vaddr ph') (memsz ph') a) →
  image data (phs1 ++ ph :: phs2) a old = Some (seg_byte data ph a).
Proof using.
  intros Ht Hp Hno. unfold image. rewrite foldl_app. cbn [foldl]. unfold with_segment at 2. rewrite decide_True by done.
  clear Ht Hp. generalize (Some (seg_byte data ph a)) as v. induction phs2 as [|ph2 phs2 IH]; intros v; [done|]. cbn [foldl].
  assert (with_segment data ph2 a v = v) as ->.
  { unfold with_segment. rewrite decide_False; [done|]. intros [Ht Hp]. by apply (Hno ph2); [left| |]. }
  apply IH. intros ph' Hin. apply Hno. by right.
Qed.

(** C13: A program that is executed starts at its entry point with the stack the runtime expects:
    from the stack pointer on argc, argv, envp and the auxiliary vector as 8-byte words, and
    the argument string at its address.  The rest of user memory is what the segments, loaded in
    the order of the file, leave: each segment sets every byte of its pages, to the byte of the
    file in its file part and to zero past it and in the rest of the pages; the stack is zero, and
    memory outside is as it was.  So a byte is the one its segment says unless a later segment has a
    part of the same page, and in a file whose segments share no page every byte is. *)
Theorem exec_program k file data t A T M :
  Backed (node_io file) data → wf_bytes data → elf_ok data → aspace (t_phys t) A T M →
  room (4 * image_pages (headers data) + (4 * 16 + k)) A →
  ∃ t' A' T' M', exec hh cr3 file t = Some (entry (header data), initial_rsp, t')
    ∧ aspace (t_phys t') A' T' M' ∧ room k A' ∧ brk t' = image_brk (headers data) (brk t)
    ∧ user_loads cr3 240 initial_rsp (t_phys t') = Some (words_bytes (initial_words data (entry (header data))))
    ∧ user_loads cr3 5 arg0_addr (t_phys t') = Some arg0
    ∧ ∀ a, low_addr a → ¬ (initial_rsp <= a < USER_STACK_TOP) →
        user_load cr3 a (t_phys t') = loaded data a (user_load cr3 a (t_phys t))
        ∧ ∀ phs1 ph phs2, headers data = phs1 ++ ph :: phs2 → p_type ph = 1 → page_in (vaddr ph) (memsz ph) a →
            (∀ ph', ph' ∈ phs2 → p_type ph' = 1 → ¬ page_in (vaddr ph') (memsz ph') a) → ¬ (stack_base <= a < USER_STACK_TOP) →
            user_load cr3 a (t_phys t') =
              Some (if decide (vaddr ph <= a < vaddr ph + filesz ph) then nth (Z.to_nat (p_offset ph + (a - vaddr ph))) data 0 else 0).
Proof using P.
  intros B Hdata E S0 R. destruct (load_ok file data Hdata k t A T M E S0 R) as (s1 & A1 & T1 & M1 & E1 & S1 & _ & R1 & Hm & U1).
  destruct (build_initial_stack_ok file data Hdata s1 A1 T1 M1 (entry (header data)) E S1 (entry_u64 data Hdata) Hm)
    as (s2 & E2 & S2 & W & N & U2).
  unfold exec. rewrite (read_thing_ok _ data) by (done || apply (eo_header data E)). cbn [mbind option_bind].
  fold (header data). rewrite E1. cbn [mbind option_bind t_phys]. rewrite E2. cbn [mbind option_bind].
  eexists _, A1, T1, M1. split; [reflexivity|]. unfold set_field. cbn [t_phys brk]. split_and!; [exact S2|exact R1|done|exact W|exact N|].
  intros a Ha Hna. rewrite U2, U1 by done. split; [done|]. intros phs1 ph phs2 Hh Ht Hp Hno Hst.
  unfold loaded. rewrite decide_False by done. rewrite Hh. by apply image_last.
Qed.

(** When two segments share a page, loading the later one destroys what the earlier one put
    there: the page is mapped again, to a new zeroed frame, so each byte of the earlier segment on
    the page that the later one does not cover reads as zero instead of the byte of the file. *)
Theorem segments_sharing_page_lost k file data t A T M phs ph1 ph2 a :
  Backed (node_io file) data → wf_bytes data → elf_ok data → aspace (t_phys t) A T M →
  room (4 * image_pages (headers data) + (4 * 16 + k)) A →
  headers data = phs ++ [ph2] → ph1 ∈ phs → p_type ph1 = 1 → p_type ph2 = 1 → vaddr ph1 <= a < vaddr ph1 + filesz ph1 →
  page_in (vaddr ph2) (memsz ph2) a → ¬ (vaddr ph2 <= a < vaddr ph2 + filesz ph2) →
  ¬ (stack_base <= a < USER_STACK_TOP) →
  seg_byte data ph1 a = nth (Z.to_nat (p_offset ph1 + (a - vaddr ph1))) data 0
  ∧ ∃ t', load hh cr3 file t = Some (entry (header data), t') ∧ user_load cr3 a (t_phys t') = Some 0.
Proof using P.
  intros B Hdata E S0 R Hh Hin Ht1 Ht2 Ha Hp Hna Hst. split; [unfold seg_byte; by rewrite decide_True|].
  destruct (load_ok file data Hdata k t A T M E S0 R) as (s1 & A1 & T1 & M1 & E1 & S1 & _ & R1 & Hm & U1).
  eexists. split; [exact E1|]. cbn [t_phys].
  pose proof (eo_segments data E) as Hs. unfold segments_ok in Hs. rewrite Hh in Hs.
  apply Forall_app in Hs as [Hs _]. rewrite Forall_forall in Hs. destruct (Hs ph1 Hin Ht1) as [Hv Htop Hf _ _].
  rewrite U1 by (unfold low_addr; lia). unfold loaded. rewrite decide_False by done.
  rewrite Hh. unfold image. rewrite foldl_app. cbn [foldl]. unfold with_segment at 1. rewrite decide_True by done.
  unfold seg_byte. by rewrite decide_False.
Qed.
End Load.

(** ** Witnesses: a file with two segments, on pages of their own ([apart]) or on one page *)

Definition phdr_bytes (off va fsz msz : Z) : bytes :=
  bytes32 1 ++ bytes32 7 ++ bytes64 off ++ bytes64 va ++ bytes64 va ++ bytes64 fsz ++ bytes64 msz ++ bytes64 4096.
Definition demo_vaddr2 (apart : bool) : Z := if apart then 4198416 else 4194320.
Definition demo_elf_bytes (apart : bool) : bytes :=
  [127; 69; 76; 70; 2; 1; 1; 0; 0; 0; 0; 0; 0; 0; 0; 0] ++ bytes16 2 ++ bytes16 62 ++ bytes32 1 ++ bytes64 4194304
  ++ bytes64 64 ++ bytes64 0 ++ bytes32 0 ++ bytes16 64 ++ bytes16 56 ++ bytes16 2 ++ bytes16 0 ++ bytes16 0 ++ bytes16 0
  ++ phdr_bytes 176 4194304 4 4 ++ phdr_bytes 180 (demo_vaddr2 apart) 2 8 ++ [144; 145; 146; 147; 148; 149].
Definition demo_elf_disk (apart : bool) : limine_file := mkFile (replicate 2048 0 ++ demo_elf_bytes apart ++ replicate 1866 0) 4096.
Definition demo_elf (apart : bool) : Node := mkNode 2 1024 (demo_node_data 182) (RamDisk (demo_elf_disk apart)).
Definition demo_elf_data (apart : bool) : bytes := file_data (demo_elf apart) (file_bytes (demo_elf_disk apart)).
Definition demo_loader : Loader := mkLoader big_root 4096 4096.

#[export] Instance demo_elf_whole apart : WholeBlocks (demo_elf_disk apart).
Proof. destruct apart; split_and!; vm_compute; done. Qed.

Lemma demo_elf_backed apart : Backed (node_io (demo_elf apart)) (demo_elf_data apart).
Proof.
  apply node_backed; [apply RamDisk_backed; apply _|]. split; cbn [demo_elf n_block_size n_data nd_size_low demo_node_data].
  - split; [lia|reflexivity].
  - split; [lia|reflexivity].
  - intros b Hb Hlt. assert (b = 0) as -> by lia. destruct apart; split_and!; vm_compute; done.
Qed.

Lemma demo_elf_data_eq apart : demo_elf_data apart = demo_elf_bytes apart.
Proof. destruct apart; vm_compute; reflexivity. Qed.

Definition demo_ph1 : ProgramHeader := mkProgramHeader 1 7 176 4194304 4194304 4 4 4096.
Definition demo_ph2 (apart : bool) : ProgramHeader := mkProgramHeader 1 7 180 (demo_vaddr2 apart) (demo_vaddr2 apart) 2 8 4096.

Lemma demo_headers apart : headers (demo_elf_data apart) = [demo_ph1] ++ [demo_ph2 apart].
Proof. rewrite demo_elf_data_eq. destruct apart; vm_compute; reflexivity. Qed.

Lemma demo_elf_wf apart : wf_bytes (demo_elf_data apart).
Proof.
  rewrite demo_elf_data_eq. destruct apart;
    match goal with |- wf_bytes ?l => let l' := eval vm_compute in l in change l with l' end;
    repeat (apply Forall_cons; split; [split; done|]); by apply Forall_nil.
Qed.

Lemma demo_elf_ok apart : elf_ok (demo_elf_data apart).
Proof.
  split.
  - rewrite demo_elf_data_eq. by destruct apart; vm_compute.
  - rewrite demo_elf_data_eq. by destruct apart; vm_compute.
  - rewrite demo_elf_data_eq. assert (phoff (header (demo_elf_bytes apart)) = 64 ∧ phentsize (header (demo_elf_bytes apart)) = 56
      ∧ Z.to_nat (phnum (header (demo_elf_bytes apart))) = 2%nat ∧ length (demo_elf_bytes apart) = 182%nat) as (-> & -> & -> & E) by (destruct apart; vm_compute; auto).
    unfold table_ok. rewrite E. unfold ProgramHeader_size. split_and!; [lia|lia|]. intros i Hi. lia.
  - rewrite demo_headers, demo_elf_data_eq. destruct apart; repeat constructor; cbn; try done; lia.
Qed.

Lemma demo_elf_room apart : room big_map (4 * image_pages (headers (demo_elf_data apart)) + (4 * 16 + 0)) {[65536]}.
Proof. rewrite demo_headers. assert (image_pages ([demo_ph1] ++ [demo_ph2 apart]) = 2%nat) as -> by (destruct apart; vm_compute; reflexivity). apply big_room. lia. Qed.

Lemma exec_program_witness : ∃ t', exec demo_hhdm (65536 * 4096) (demo_elf true) demo_loader = Some (4194304, initial_rsp, t')
  ∧ user_load (65536 * 4096) 4194305 (t_phys t') = Some 145 ∧ user_load (65536 * 4096) 4198416 (t_phys t') = Some 148.
Proof.
  destruct (exec_program demo_hhdm big_map big_platform 65536 0 (demo_elf true) (demo_elf_data true) demo_loader {[65536]} {[65536]} ∅)
    as (t' & A' & T' & M' & E & _ & _ & _ & _ & _ & U).
  - apply demo_elf_backed.
  - apply demo_elf_wf.
  - apply demo_elf_ok.
  - apply big_aspace.
  - apply demo_elf_room.
  - exists t'. split; [rewrite E, demo_elf_data_eq; reflexivity|]. split.
    + destruct (U 4194305) as [_ U1]; [split; [lia|reflexivity]|unfold initial_rsp, USER_STACK_TOP; lia|].
      rewrite (U1 [] demo_ph1 [demo_ph2 true]); [rewrite demo_elf_data_eq; reflexivity|apply demo_headers|reflexivity| | |].
      * split; [vm_compute; congruence|reflexivity].
      * intros ph ->%list_elem_of_singleton _ [H _]. revert H. apply Zlt_not_le. reflexivity.
      * unfold stack_base, USER_STACK_TOP, USER_STACK_SIZE. lia.
    + destruct (U 4198416) as [_ U2]; [split; [lia|reflexivity]|unfold initial_rsp, USER_STACK_TOP; lia|].
      rewrite (U2 [demo_ph1] (demo_ph2 true) []); [rewrite demo_elf_data_eq; reflexivity|apply demo_headers|reflexivity| | |].
      * split; [vm_compute; congruence|reflexivity].
      * intros ph []%not_elem_of_nil.
      * unfold stack_base, USER_STACK_TOP, USER_STACK_SIZE. lia.
Defined.

Lemma segments_sharing_page_lost_witness :
  ∃ t', load demo_hhdm (65536 * 4096) (demo_elf false) demo_loader = Some (entry (header (demo_elf_data false)), t')
    ∧ user_load (65536 * 4096) 4194305 (t_phys t') = Some 0.
Proof.
  apply (segments_sharing_page_lost demo_hhdm big_map big_platform 65536 0 (demo_elf false) (demo_elf_data false) demo_loader
    {[65536]} {[65536]} ∅ [demo_ph1] demo_ph1 (demo_ph2 false) 4194305).
  - apply demo_elf_backed.
  - apply demo_elf_wf.
  - apply demo_elf_ok.
  - apply big_aspace.
  - apply demo_elf_room.
  - apply demo_headers.
  - by apply list_elem_of_singleton.
  - reflexivity.
  - reflexivity.
  - cbn. lia.
  - split; reflexivity || (intros H; discriminate H).
  - cbn. lia.
  - unfold stack_base, USER_STACK_TOP, USER_STACK_SIZE. lia.
Defined.
