(* ===== verification/Syscall.v ===== *)
(** * System calls ([syscall.cc])

    [syscallHandler] dispatches a saved register frame to the calls of a small
    Linux subset.  The state is the kernel's as one thread sees it: [vm] holds its
    own page-table root, [current_process] is its thread-local process.  Process
    and semaphore objects are never freed; a pointer to one is its position in the
    order of creation.  A call that blocks returns what it waits for, and goes on
    with [resume] when it is woken ([Sync] has the wake-ups).  The theorems about the
    calls are in [SyscallFiles] and [SyscallProc]. *)

From stdpp Require Import gmap.
From S2P Require Import Prelude Sync PhysMem BlockIO Ext2 PageTable AddrSpace Vme Vmm UserMem Elf.

Record SyscallFrame := mkFrame {
  rax : Z; rbx : Z; rcx : Z; rdx : Z; rsi : Z; rdi : Z; rbp : Z; r8 : Z; r9 : Z; r10 : Z; r11 : Z; r12 : Z;
  r13 : Z; r14 : Z; r15 : Z; user_rsp : Z;
}.
#[export] Instance eta_SyscallFrame : Eta SyscallFrame := fun f =>
  mkFrame (rax f) (rbx f) (rcx f) (rdx f) (rsi f) (rdi f) (rbp f) (r8 f) (r9 f) (r10 f) (r11 f) (r12 f) (r13 f)
    (r14 f) (r15 f) (user_rsp f).

Definition USER_TOP : Z := 140737488355328.
Definition BRK_LIMIT : Z := USER_STACK_TOP - USER_STACK_SIZE.
Definition MAX_PATH : Z := 256.
Definition MAX_FDS : Z := 32.
(** [uint64_t(-1)]. *)
Definition FAIL : Z := 18446744073709551615.
Definition i16 (x : Z) : Z := (x + 32768) mod 65536 - 32768.

Record OpenFile := mkOpenFile { f_node : option Node; f_offset : Z; f_used : bool }.
#[export] Instance eta_OpenFile : Eta OpenFile := fun f => mkOpenFile (f_node f) (f_offset f) (f_used f).
Definition no_file : OpenFile := mkOpenFile None 0 false.

(** [children] is the list [first_child], [next_sibling] .. *)
Record Process := mkProcess {
  pid : Z;
  parent : option nat;
  children : list nat;
  waited : bool;
  exit_status : Future.FutureState;
  stopped : Future.FutureState;
  brk_min : Z;
  brk_current : Z;
  fds : list OpenFile;
}.
#[export] Instance eta_Process : Eta Process := fun p =>
  mkProcess (pid p) (parent p) (children p) (waited p) (exit_status p) (stopped p) (brk_min p) (brk_current p) (fds p).
Definition unset : Future.FutureState := Future.mkFuture false 0.
Definition new_process (pid : Z) (parent : option nat) (brk_min brk_current : Z) (fds : list OpenFile) : Process :=
  mkProcess pid parent [] false unset unset brk_min brk_current fds.
Definition future_set (v : Z) (f : Future.FutureState) : Future.FutureState := Future.mkFuture true v.

Record Semaphore := mkSemaphore { sem_id : Z; sem_key : Z; sem : KernelSemaphore.SemState }.
#[export] Instance eta_Semaphore : Eta Semaphore := fun s => mkSemaphore (sem_id s) (sem_key s) (sem s).

(** The objects of [processes] and [semaphores] in the order of creation; [console]
    is what was printed. *)
Record Kernel := mkKernel {
  vm : Vmm;
  current_process : option nat;
  processes : list Process;
  next_pid : Z;
  root_fs : option Ext2;
  initial_brk : Z;
  semaphores : list Semaphore;
  next_semid : Z;
  console : bytes;
}.
#[export] Instance eta_Kernel : Eta Kernel := fun k =>
  mkKernel (vm k) (current_process k) (processes k) (next_pid k) (root_fs k) (initial_brk k) (semaphores k)
    (next_semid k) (console k).

Definition set_phys (s : PhysMem) (k : Kernel) : Kernel := k .[ vm := (vm k) .[ phys := s ] ].
Definition set_process (i : nat) (p : Process) (k : Kernel) : Kernel := k .[ processes := <[i := p]> (processes k) ].
Definition set_sem (i : nat) (s : Semaphore) (k : Kernel) : Kernel := k .[ semaphores := <[i := s]> (semaphores k) ].

(** What a call waits for. *)
Inductive Waiting :=
| WaitExit (child : nat) (pid status : Z)
| WaitStopped (child : nat) (pid status value : Z)
| WaitSem (i : nat) (op : KernelSemaphore.KSemOp).

(** How a call ends: [Forked] also starts a thread, with its address space,
    process and registers; [Stopped] ends the thread. *)
Inductive Result :=
| Return (value : Z) (k : Kernel)
| Waits (w : Waiting) (k : Kernel)
| Forked (value : Z) (k : Kernel) (child_vm : Vmm) (child : nat) (child_frame : SyscallFrame)
| Stopped (k : Kernel).

Section Syscalls.
Context (hhdm_offset : Z) (memmap : option (list MemmapEntry)) (ramdisk : BlockIO).

(** ** The file system *)

Fixpoint brk_loop (n : nat) (init : Node) (phentsize phoff max_end : Z) : option Z :=
  match n with
  | O => Some max_end
  | S n =>
      b ← read_thing (node_io init) (u32 phoff) ProgramHeader_size;
      let phdr := ProgramHeader_of b in
      let end_ := u64 (vaddr phdr + memsz phdr) in
      let max_end := if negb (p_type phdr =? 1) then max_end else if max_end <? end_ then end_ else max_end in
      brk_loop n init phentsize (u64 (phoff + phentsize)) max_end
  end.

(** The string [init]. *)
Definition compute_initial_brk (fs : Ext2) : option Z :=
  dir ← root fs;
  found ← ext2_find fs dir arg0;
  init ← found;
  b ← read_thing (node_io init) 0 ElfHeader_size;
  let hdr := ElfHeader_of b in
  max_end ← brk_loop (Z.to_nat (phnum hdr)) init (phentsize hdr) (phoff hdr) 0;
  Some (align_up max_end).

Definition filesystem (k : Kernel) : option (Ext2 * Kernel) :=
  match root_fs k with
  | Some fs => Some (fs, k)
  | None =>
      fs ← Ext2_mount ramdisk;
      b ← compute_initial_brk fs;
      Some (fs, k .[ root_fs := Some fs ] .[ initial_brk := b ])
  end.

(** The loop, [n] bytes long at most: whether it met the terminator, and the bytes. *)
Fixpoint copy_user_loop (n : nat) (user : Z) (out : bytes) (v : Vmm) : option (bool * bytes) :=
  match n with
  | O => Some (false, out ++ [0])
  | S n =>
      ok ← user_buffer_ok hhdm_offset (cr3 v) user 1 (phys v);
      if negb ok then Some (false, out)
      else
        b ← user_load (cr3 v) user (phys v);
        if b =? 0 then Some (true, out ++ [b]) else copy_user_loop n (u64 (user + 1)) (out ++ [b]) v
  end.
Definition copy_user_string (cap user : Z) (v : Vmm) : option (bool * bytes) :=
  if (cap =? 0) || (user =? 0) then Some (false, [])
  else copy_user_loop (Z.to_nat (cap - 1)) user [] v.

(** [p] at the first byte that is not a slash. *)
Fixpoint skip_slashes (p : bytes) : bytes :=
  match p with
  | b :: p' => if b =? 47 then skip_slashes p' else p
  | [] => []
  end.
(** The bytes before the next slash or terminator, and from there on. *)
Fixpoint find_slash (p : bytes) : bytes * bytes :=
  match p with
  | b :: p' => if (b =? 0) || (b =? 47) then ([], p) else let '(name, slash) := find_slash p' in (b :: name, slash)
  | [] => ([], [])
  end.

(** The loop over the components; the name is terminated in place, so the rest of
    the path follows the terminator. *)
Fixpoint resolve_loop (fuel : nat) (fs : Ext2) (node : Node) (p : bytes) : option (option Node) :=
  match fuel with
  | O => None
  | S fuel =>
      c ← head p;
      if c =? 0 then Some (Some node)
      else if negb (is_dir (n_data node)) then Some None
      else
        let '(name, slash) := find_slash p in
        found ← ext2_find fs node (name ++ 0 :: tail slash);
        match found with
        | None => Some None
        | Some node => resolve_loop fuel fs node (skip_slashes slash)
        end
  end.

Definition resolve_path (path : Z) (k : Kernel) : option (option Node * Kernel) :=
  '(ok, local) ← copy_user_string MAX_PATH path (vm k);
  if negb ok then Some (None, k)
  else
    let p := skip_slashes local in
    c ← head p;
    if c =? 0 then Some (None, k)
    else
      '(fs, k) ← filesystem k;
      dir ← root fs;
      found ← resolve_loop (S (length p)) fs dir p;
      match found with
      | None => Some (None, k)
      | Some node => Some (if is_file (n_data node) then Some node else None, k)
      end.

(** ** Processes *)

Definition ensure_process (k : Kernel) : option (nat * Kernel) :=
  match current_process k with
  | Some i => Some (i, k)
  | None =>
      '(_, k) ← filesystem k;
      let proc := new_process 1 None (initial_brk k) (initial_brk k) (replicate (Z.to_nat MAX_FDS) no_file) in
      let i := length (processes k) in
      Some (i, k .[ processes := processes k ++ [proc] ] .[ current_process := Some i ])
  end.

Fixpoint find_child_from (l : list nat) (pid_ : Z) (k : Kernel) : option (option nat) :=
  match l with
  | [] => Some None
  | i :: l =>
      child ← processes k !! i;
      if pid child =? pid_ then Some (Some i) else find_child_from l pid_ k
  end.
Definition find_child_locked (parent_ : nat) (pid_ : Z) (k : Kernel) : option (option nat) :=
  proc ← processes k !! parent_;
  find_child_from (children proc) pid_ k.

(** The descriptors from [fd] on. *)
Fixpoint alloc_fd_from (l : list OpenFile) (fd : Z) : Z :=
  match l with
  | [] => -1
  | f :: l => if negb (f_used f) then fd else alloc_fd_from l (fd + 1)
  end.
Definition alloc_fd (i : nat) (node_ : Node) (k : Kernel) : option (Z * Kernel) :=
  proc ← processes k !! i;
  let fd := alloc_fd_from (drop 3 (fds proc)) 3 in
  if fd =? -1 then Some (-1, k)
  else Some (fd, set_process i (proc .[ fds := <[Z.to_nat fd := mkOpenFile (Some node_) 0 true]> (fds proc) ]) k).

(** The newest semaphore that passes the test: the list starts at the newest. *)
Fixpoint newest (test : Semaphore → bool) (n : nat) (l : list Semaphore) : option nat :=
  match n with
  | O => None
  | S n => match l !! n with
           | Some s => if test s then Some n else newest test n l
           | None => None
           end
  end.
Definition find_sem_locked (semid : Z) (k : Kernel) : option nat :=
  newest (λ s, sem_id s =? semid) (length (semaphores k)) (semaphores k).

(** ** The calls, for the process [proc] *)

Definition ret (value : Z) (k : Kernel) : option Result := Some (Return value k).

Definition sys_read (proc : nat) (frame : SyscallFrame) (k : Kernel) : option Result :=
  let fd := i32 (rdi frame) in
  let len := rdx frame in
  if len =? 0 then ret 0 k
  else
    p ← processes k !! proc;
    if (fd <? 0) || (MAX_FDS <=? fd) then ret FAIL k
    else
      file ← fds p !! Z.to_nat fd;
      if negb (f_used file) then ret FAIL k
      else
        ok ← user_buffer_ok hhdm_offset (cr3 (vm k)) (rsi frame) len (phys (vm k));
        if negb ok || (4294967295 <? len) then ret FAIL k
        else
          nd ← f_node file;
          '(cnt, s) ← read_to_user hhdm_offset (cr3 (vm k)) nd (u32 (f_offset file)) (u32 len) (rsi frame) (phys (vm k));
          let k := set_phys s k in
          if cnt <? 0 then ret FAIL k
          else
            let file := file .[ f_offset := u64 (f_offset file + u64 cnt) ] in
            ret (u64 cnt) (set_process proc (p .[ fds := <[Z.to_nat fd := file]> (fds p) ]) k).

Definition sys_write (frame : SyscallFrame) (k : Kernel) : option Result :=
  let len := rdx frame in
  if len =? 0 then ret 0 k
  else
    ok ← user_buffer_ok hhdm_offset (cr3 (vm k)) (rsi frame) len (phys (vm k));
    if negb ok then ret FAIL k
    else
      buffer ← user_loads (cr3 (vm k)) (Z.to_nat len) (rsi frame) (phys (vm k));
      ret len (k .[ console := console k ++ buffer ]).

Definition sys_open (proc : nat) (frame : SyscallFrame) (k : Kernel) : option Result :=
  '(found, k) ← resolve_path (rdi frame) k;
  match found with
  | None => ret FAIL k
  | Some nd => '(fd, k) ← alloc_fd proc nd k; ret (u64 fd) k
  end.

Definition sys_close (proc : nat) (frame : SyscallFrame) (k : Kernel) : option Result :=
  let fd := i32 (rdi frame) in
  if (0 <=? fd) && (fd <=? 2) then ret 0 k
  else
    p ← processes k !! proc;
    if (fd <? 3) || (MAX_FDS <=? fd) then ret FAIL k
    else
      file ← fds p !! Z.to_nat fd;
      if negb (f_used file) then ret FAIL k
      else ret 0 (set_process proc (p .[ fds := <[Z.to_nat fd := no_file]> (fds p) ]) k).

(** The sum of two [int64_t]s: signed overflow is undefined. *)
Definition add_i64 (a b : Z) : option Z :=
  if (a + b <? -9223372036854775808) || (9223372036854775807 <? a + b) then None else Some (a + b).

Definition sys_lseek (proc : nat) (frame : SyscallFrame) (k : Kernel) : option Result :=
  let fd := i32 (rdi frame) in
  let off := i64 (rsi frame) in
  let whence := i32 (rdx frame) in
  p ← processes k !! proc;
  if (fd <? 3) || (MAX_FDS <=? fd) then ret FAIL k
  else
    file ← fds p !! Z.to_nat fd;
    if negb (f_used file) then ret FAIL k
    else
      base ← (if whence =? 0 then Some (Some 0)
              else if whence =? 1 then Some (Some (i64 (f_offset file)))
              else if whence =? 2 then nd ← f_node file; Some (Some (size_in_bytes (node_io nd)))
              else Some None);
      match base with
      | None => ret FAIL k
      | Some base =>
          next ← add_i64 base off;
          if next <? 0 then ret FAIL k
          else ret (u64 next) (set_process proc (p .[ fds := <[Z.to_nat fd := file .[ f_offset := u64 next ]]> (fds p) ]) k)
      end.

Definition sys_brk (proc : nat) (frame : SyscallFrame) (k : Kernel) : option Result :=
  let addr := rdi frame in
  p ← processes k !! proc;
  if addr =? 0 then ret (brk_current p) k
  else if (addr <? brk_min p) || (BRK_LIMIT <=? addr) || (USER_TOP <=? addr) then ret (brk_current p) k
  else
    let old_map_end := align_up (brk_current p) in
    let new_map_end := align_up addr in
    s ← (if old_map_end <? new_map_end
         then map_range hhdm_offset (cr3 (vm k)) old_map_end (u64 (new_map_end - old_map_end)) true true (phys (vm k))
         else Some (phys (vm k)));
    ret addr (set_process proc (p .[ brk_current := addr ]) (set_phys s k)).

(** The new thread: its own root and a copy of the caller's user pages. Its
    thread-local list of mappings starts empty. *)
Definition fork_child (v : Vmm) : option Vmm :=
  child ← init_thread hhdm_offset (v .[ vmes := [] ]);
  fork_from hhdm_offset (cr3 v) child.

Definition sys_fork (proc : nat) (frame : SyscallFrame) (k : Kernel) : option Result :=
  p ← processes k !! proc;
  let child := length (processes k) in
  let child_pid := next_pid k in
  let c := new_process child_pid (Some proc) (brk_min p) (brk_current p) (fds p) in
  let k := k .[ next_pid := i32 (child_pid + 1) ] .[ processes := processes k ++ [c] ] in
  let k := set_process proc (p .[ children := child :: children p ]) k in
  let child_frame := frame .[ rax := 0 ] in
  v ← fork_child (vm k);
  Some (Forked (u64 child_pid) (k .[ vm := v .[ cr3 := cr3 (vm k) ] .[ vmes := vmes (vm k) ] ]) v child child_frame).

(** [Thread::stop], up to the switch to the next thread. *)
Definition thread_stop (k : Kernel) : option Kernel :=
  v ← fini_thread hhdm_offset memmap (vm k);
  let k := k .[ vm := v ] in
  match current_process k with
  | None => Some k
  | Some proc => p ← processes k !! proc; Some (set_process proc (p .[ stopped := future_set 1 (stopped p) ]) k)
  end.

Definition sys_exit (proc : nat) (frame : SyscallFrame) (k : Kernel) : option Result :=
  p ← processes k !! proc;
  let status := Z.shiftl (Z.land (rdi frame) 255) 8 in
  let k := set_process proc (p .[ exit_status := future_set status (exit_status p) ]) k in
  k ← thread_stop k;
  Some (Stopped k).

(** The part of [waitpid] after [stopped.get()], after [exit_status.get()], and
    before. *)
Definition waitpid_done (pid_ status value : Z) (k : Kernel) : option Result :=
  if status =? 0 then ret (u64 pid_) k
  else
    s ← user_stores hhdm_offset (cr3 (vm k)) status (bytes32 (u32 value)) (phys (vm k));
    ret (u64 pid_) (set_phys s k).
Definition waitpid_stopped (child : nat) (pid_ status value : Z) (k : Kernel) : option Result :=
  c ← processes k !! child;
  if negb (Future.ready (stopped c)) then Some (Waits (WaitStopped child pid_ status value) k)
  else waitpid_done pid_ status value k.
Definition waitpid_exit (child : nat) (pid_ status : Z) (k : Kernel) : option Result :=
  c ← processes k !! child;
  if negb (Future.ready (exit_status c)) then Some (Waits (WaitExit child pid_ status) k)
  else waitpid_stopped child pid_ status (Future.value (exit_status c)) k.

Definition sys_waitpid (proc : nat) (frame : SyscallFrame) (k : Kernel) : option Result :=
  let pid_ := i32 (rdi frame) in
  let status := rsi frame in
  if (pid_ <=? 0) || negb (rdx frame =? 0) then ret FAIL k
  else
    ok ← (if negb (status =? 0) then user_buffer_ok hhdm_offset (cr3 (vm k)) status 4 (phys (vm k)) else Some true);
    if negb ok then ret FAIL k
    else
      found ← find_child_locked proc pid_ k;
      match found with
      | None => ret FAIL k
      | Some child =>
          c ← processes k !! child;
          if waited c then ret FAIL k
          else waitpid_exit child pid_ status (set_process child (c .[ waited := true ]) k)
      end.

Definition sys_semget (frame : SyscallFrame) (k : Kernel) : option Result :=
  let key := i32 (rdi frame) in
  let nsems := i32 (rsi frame) in
  if negb (nsems =? 1) then ret FAIL k
  else
    let same s := negb (KernelSemaphore.removed (sem s)) && (sem_key s =? key) in
    let found := if negb (key =? 0) then newest same (length (semaphores k)) (semaphores k) else None in
    match found with
    | Some i => s ← semaphores k !! i; ret (u64 (sem_id s)) k
    | None =>
        let id := next_semid k in
        ret (u64 id) (k .[ next_semid := i32 (id + 1) ]
          .[ semaphores := semaphores k ++ [mkSemaphore id key (KernelSemaphore.mkSem 0 false)] ])
    end.

(** A semaphore operation up to its end or its wait. *)
Definition semaphore_step (i : nat) (op : KernelSemaphore.KSemOp) (k : Kernel) : option Result :=
  s ← semaphores k !! i;
  o ← KernelSemaphore.ksem_run op (sem s);
  match o with
  | Sched.Done st r _ => ret (u64 r) (set_sem i (s .[ sem := st ]) k)
  | Sched.Blocks st op => Some (Waits (WaitSem i op) (set_sem i (s .[ sem := st ]) k))
  | Sched.Continues _ _ => None
  end.

Definition sys_semop (frame : SyscallFrame) (k : Kernel) : option Result :=
  let semid := i32 (rdi frame) in
  let ops := rsi frame in
  let nsops := rdx frame in
  if negb (nsops =? 1) then ret FAIL k
  else
    ok ← user_buffer_ok hhdm_offset (cr3 (vm k)) ops 6 (phys (vm k));
    if negb ok then ret FAIL k
    else
      match find_sem_locked semid k with
      | None => ret FAIL k
      | Some i =>
          s ← semaphores k !! i;
          if KernelSemaphore.removed (sem s) then ret FAIL k
          else
            sembuf ← user_loads (cr3 (vm k)) 6 ops (phys (vm k));
            if negb (load16 sembuf 0 =? 0) then ret FAIL k
            else semaphore_step i (KernelSemaphore.Semop (i16 (load16 sembuf 2))) k
      end.

Definition sys_semctl (frame : SyscallFrame) (k : Kernel) : option Result :=
  let semid := i32 (rdi frame) in
  let semnum := i32 (rsi frame) in
  let cmd := i32 (rdx frame) in
  if negb (semnum =? 0) || negb (cmd =? 0) then ret FAIL k
  else
    match find_sem_locked semid k with
    | None => ret FAIL k
    | Some i =>
        s ← semaphores k !! i;
        if KernelSemaphore.removed (sem s) then ret FAIL k
        else semaphore_step i KernelSemaphore.Semctl k
    end.

Definition syscallHandler (frame : SyscallFrame) (k : Kernel) : option Result :=
  '(proc, k) ← ensure_process k;
  match rax frame with
  | 0 => sys_read proc frame k
  | 1 => sys_write frame k
  | 2 => sys_open proc frame k
  | 3 => sys_close proc frame k
  | 8 => sys_lseek proc frame k
  | 12 => sys_brk proc frame k
  | 24 => ret 0 k
  | 57 => sys_fork proc frame k
  | 60 => sys_exit proc frame k
  | 61 => sys_waitpid proc frame k
  | 64 => sys_semget frame k
  | 65 => sys_semop frame k
  | 66 => sys_semctl frame k
  | _ => None
  end.

(** What a call that waits does when it is woken. *)
Definition resume (w : Waiting) (k : Kernel) : option Result :=
  match w with
  | WaitExit child pid_ status => waitpid_exit child pid_ status k
  | WaitStopped child pid_ status value => waitpid_stopped child pid_ status value k
  | WaitSem i op => semaphore_step i op k
  end.

End Syscalls.
