(* ===== verification/SyscallFiles.v ===== *)
(** * Reading files through system calls

    [read] puts exactly the bytes of the file into the user's buffer; descriptors
    are a finite map; a path is resolved component by component; [brk] extends
    the heap with zeroed pages. *)

From stdpp Require Import gmap.
From S2P Require Import Prelude Sync PhysMem BlockIO Ext2 PageTable AddrSpace Vme Vmm UserMem Elf Syscall.

(** ** Buffers *)

Section Memory.
Context (hh : Z) (entries : list MemmapEntry) (P : platform hh entries) (root : Z).
Abbreviation aspace := (aspace hh entries low_page root) (only parsing).
Abbreviation cr3_ := (root * 4096) (only parsing).

Lemma user_page_mapped s A T M vpn : aspace s A T M → low_page vpn → user_page root vpn s = true ↔ is_Some (M !! vpn).
Proof using P.
  intros S0 Hv. unfold user_page. rewrite (as_leaf _ _ _ _ _ _ _ _ S0 vpn Hv).
  destruct (M !! vpn) as [f|] eqn:Hf; [|split; [done|by intros []]].
  split; [done|]. intros _. destruct (as_frame _ _ P _ _ _ _ _ _ vpn f S0 Hf) as [_ Hf36].
  destruct (make_entry_facts f true true Hf36) as (-> & _ & _ & H4). specialize (H4 4 ltac:(lia)).
  unfold has. rewrite Z.land_comm. unfold PTE_USER. rewrite H4. done.
Qed.

(** [user_buffer_ok] on a buffer in the lower half. *)
Lemma buffer_ok s A T M addr len :
  aspace s A T M → 0 <= addr → 0 < len → addr + len <= 2 ^ 47 →
  ∃ b, user_buffer_ok hh cr3_ addr len s = Some b ∧ (b = true ↔ PRIVATE_BASE <= addr ∧ mapped M addr len).
Proof using P.
  intros S0 H1 H2 H3. assert (2 ^ 47 = 140737488355328) as E47 by reflexivity. rewrite E47 in H3.
  destruct (user_buffer_ok_spec _ _ P root T s addr len (as_tree _ _ _ _ _ _ _ _ S0) (as_tables _ _ _ _ _ _ _ _ S0))
    as (b & E & Hb); [word_lia|word_lia|].
  exists b. split; [exact E|]. rewrite Hb. pose proof (plat_hhdm _ _ P) as Hh. change (2 ^ 64) with 18446744073709551616 in Hh.
  assert (∀ a, addr <= a < addr + len → low_page (a / 4096)) as Hlow.
  { intros a Ha. apply low_addr_page. unfold low_addr. rewrite E47. lia. }
  split.
  - intros [[? _]|(_ & Hp & _ & Ha)]; [lia|]. split; [done|]. intros a Har.
    apply (user_page_mapped s A T M (a / 4096) S0 (Hlow a Har)), Ha, Har.
  - intros [Hp Hm]. right. split_and!; [done|done|lia|]. intros a Har.
    apply (user_page_mapped s A T M (a / 4096) S0 (Hlow a Har)), Hm, Har.
Qed.

(** The running thread has the address space [M]. *)
Record runs_in (k : Kernel) (A T : gset Z) (M : gmap Z Z) : Prop := {
  ri_cr3 : cr3 (vm k) = cr3_;
  ri_space : aspace (phys (vm k)) A T M
}.

(** Descriptor [fd] of process [proc] is open on [nd]. *)
Record open_on (k : Kernel) (proc : nat) (fd : Z) (p : Process) (file : OpenFile) (nd : Node) : Prop := {
  oo_range : 0 <= fd < MAX_FDS;
  oo_proc : processes k !! proc = Some p;
  oo_file : fds p !! Z.to_nat fd = Some file;
  oo_used : f_used file = true;
  oo_node : f_node file = Some nd
}.

(** A user buffer in the lower half, all of it mapped above the first page. *)
Record good_buffer (M : gmap Z Z) (addr len : Z) : Prop := {
  gb_first : PRIVATE_BASE <= addr;
  gb_len : 0 < len;
  gb_top : addr + len <= 2 ^ 47;
  gb_mapped : mapped M addr len
}.

Lemma good_buffer_ok k A T M addr len :
  runs_in k A T M → good_buffer M addr len → user_buffer_ok hh (cr3 (vm k)) addr len (phys (vm k)) = Some true.
Proof using P.
  intros [-> S0] [H1 H2 H3 H4]. unfold PRIVATE_BASE, PAGE_SIZE, FRAME_SIZE in *.
  destruct (buffer_ok _ _ _ _ addr len S0) as (b & -> & Hb); [lia|done|done|].
  f_equal. apply Hb. by split.
Qed.

Lemma sys_read_ok k proc p file nd data frame A T M :
  runs_in k A T M → open_on k proc (i32 (rdi frame)) p file nd → Backed (node_io nd) data → wf_bytes data →
  good_buffer M (rsi frame) (rdx frame) → rdx frame < 2 ^ 32 →
  let off := u32 (f_offset file) in
  let n := Z.min (rdx frame) (Z.of_nat (length data) - off) in
  if decide (off <= Z.of_nat (length data)) then
    ∃ s', sys_read hh proc frame k =
        Some (Return n (set_process proc
          (p .[ fds := <[Z.to_nat (i32 (rdi frame)) := file .[ f_offset := u64 (f_offset file + n) ]]> (fds p) ]) (set_phys s' k)))
      ∧ aspace s' A T M ∧ overwrites cr3_ (rsi frame) (slice data off n) (phys (vm k)) s'
  else sys_read hh proc frame k = Some (Return FAIL (set_phys (phys (vm k)) k)).
Proof using P.
  intros Hr [[Hf1 Hf2] Hp Hf Hu Hn] B Hdata G Hlen off n.
  pose proof (good_buffer_ok _ _ _ _ _ _ Hr G) as Hb. destruct Hr as [Hcr S0]. destruct G as [G1 G2 G3 G4].
  assert (2 ^ 32 = 4294967296) as E32 by reflexivity. rewrite E32 in Hlen.
  pose proof (backed_small (d := node_io nd) (data := data)) as Hsm. change (2 ^ 31) with 2147483648 in Hsm.
  unfold sys_read. cbn zeta. rewrite (proj2 (Z.eqb_neq _ _)) by lia. rewrite Hp. cbn [mbind option_bind].
  rewrite (proj2 (Z.ltb_ge _ 0)), (proj2 (Z.leb_gt _ _)) by lia. cbn [orb]. rewrite Hf. cbn [mbind option_bind]. rewrite Hu.
  cbn [negb]. rewrite Hb. cbn [mbind option_bind negb orb]. rewrite (proj2 (Z.ltb_ge _ (rdx frame))) by lia.
  rewrite Hn. cbn [mbind option_bind]. rewrite (u32_id (rdx frame)) by word_lia. fold off.
  assert (is_u32 off) as Ho by (subst off; word_lia). unfold read_to_user.
  rewrite (read_all_exact (node_io nd) data off (rdx frame) B Ho) by word_lia. case_decide as Hd.
  - rewrite (proj2 (Z.ltb_ge _ _)) by lia. cbn zeta. fold n. cbn [mbind option_bind].
    assert (0 <= n <= rdx frame ∧ off + n <= Z.of_nat (length data)) as (Hn0 & Hn1) by (subst n; word_lia).
    assert (Z.of_nat (length (slice data off n)) = n) as El by (apply length_slice; word_lia).
    destruct (user_stores_ok _ _ P root T M (slice data off n) _ A (rsi frame) S0) as (s' & E & S' & O & _);
      [unfold PRIVATE_BASE, PAGE_SIZE, FRAME_SIZE in G1; lia|rewrite El; lia|rewrite El; intros a Ha; apply G4; lia
      |by apply wf_bytes_take, wf_bytes_drop|].
    exists s'. rewrite Hcr, E. cbn [mbind option_bind]. rewrite (proj2 (Z.ltb_ge n 0)), (u64_id n) by word_lia.
    split; [reflexivity|]. split; [exact S'|exact O].
  - rewrite (proj2 (Z.ltb_lt _ _)) by lia. reflexivity.
Qed.

(** C15: [read] on an open descriptor returns the number of bytes that are left in the file,
    at most as many as asked for, puts exactly the bytes of the file from the descriptor's offset on
    into the buffer, leaves the rest of user memory alone and advances the offset by the count;
    from an offset past the end it fails.  The offset counts modulo 2^32. *)
Theorem sys_read_delivers k proc p file nd data frame A T M :
  runs_in k A T M → open_on k proc (i32 (rdi frame)) p file nd → Backed (node_io nd) data → wf_bytes data →
  good_buffer M (rsi frame) (rdx frame) → rdx frame < 2 ^ 32 →
  let off := u32 (f_offset file) in
  let n := Z.min (rdx frame) (Z.of_nat (length data) - off) in
  if decide (off <= Z.of_nat (length data)) then
    ∃ s', sys_read hh proc frame k =
        Some (Return n (set_process proc
          (p .[ fds := <[Z.to_nat (i32 (rdi frame)) := file .[ f_offset := u64 (f_offset file + n) ]]> (fds p) ]) (set_phys s' k)))
      ∧ aspace s' A T M ∧ overwrites cr3_ (rsi frame) (slice data off n) (phys (vm k)) s'
  else sys_read hh proc frame k = Some (Return FAIL (set_phys (phys (vm k)) k)).
Proof using P. apply sys_read_ok. Qed.

Lemma sys_lseek_ok k proc p file nd frame :
  open_on k proc (i32 (rdi frame)) p file nd → 3 <= i32 (rdi frame) → i32 (rdx frame) = 0 → 0 <= i64 (rsi frame) →
  sys_lseek proc frame k = Some (Return (u64 (i64 (rsi frame)))
    (set_process proc (p .[ fds := <[Z.to_nat (i32 (rdi frame)) := file .[ f_offset := u64 (i64 (rsi frame)) ]]> (fds p) ]) k)).
Proof using.
  intros [[Hf1 Hf2] Hp Hf Hu Hn] H3 Hw Hoff. unfold sys_lseek. cbn zeta. rewrite Hp. cbn [mbind option_bind].
  rewrite (proj2 (Z.ltb_ge _ 3)), (proj2 (Z.leb_gt _ _)) by lia. cbn [orb]. rewrite Hf. cbn [mbind option_bind]. rewrite Hu, Hw.
  cbn [negb Z.eqb mbind option_bind]. unfold add_i64. rewrite Z.add_0_l.
  assert (i64 (rsi frame) <= 9223372036854775807) by (unfold i64; word_lia).
  rewrite (proj2 (Z.ltb_ge _ _)), (proj2 (Z.ltb_ge _ _)) by lia. cbn [orb mbind option_bind].
  by rewrite (proj2 (Z.ltb_ge _ _)) by lia.
Qed.

(** The 64-bit offset of a descriptor is cut to 32 bits when the file is read: after a seek
    to offset 2^32, which succeeds and is far past the end of any file, [read] does not report the
    end of the file but returns its first bytes. *)
Theorem read_after_4g_seek k proc p file nd data seek frame A T M :
  runs_in k A T M → open_on k proc (i32 (rdi seek)) p file nd → 3 <= i32 (rdi seek) → Backed (node_io nd) data →
  wf_bytes data → rdx seek = 0 → rsi seek = 2 ^ 32 → rdi frame = rdi seek → good_buffer M (rsi frame) (rdx frame) →
  rdx frame < 2 ^ 32 → 0 < Z.of_nat (length data) →
  let n := Z.min (rdx frame) (Z.of_nat (length data)) in
  ∃ k1 k2, sys_lseek proc seek k = Some (Return (2 ^ 32) k1) ∧ sys_read hh proc frame k1 = Some (Return n k2) ∧ 0 < n
    ∧ overwrites cr3_ (rsi frame) (slice data 0 n) (phys (vm k)) (phys (vm k2)).
Proof using P.
  intros Hr Ho H3 B Hdata Hw Hs Hfd G Hlen Hpos n.
  pose proof (sys_lseek_ok k proc p file nd seek Ho H3) as E1. rewrite Hw, Hs in E1.
  specialize (E1 eq_refl ltac:(done)). change (u64 (i64 (2 ^ 32))) with (2 ^ 32) in E1.
  eexists _. pose proof Ho as [[Hf1 Hf2] Hp Hf Hu Hn].
  match type of E1 with _ = Some (Return _ ?k1) => set (k1_ := k1) in * end.
  assert (runs_in k1_ A T M) as Hr1 by (destruct Hr; by split).
  assert (open_on k1_ proc (i32 (rdi frame)) (p .[ fds := <[Z.to_nat (i32 (rdi seek)) := file .[ f_offset := 2 ^ 32 ]]> (fds p) ])
    (file .[ f_offset := 2 ^ 32 ]) nd) as Ho1.
  { rewrite Hfd. split; [by split| | |done|done].
    - cbn. rewrite list_lookup_insert_eq; [done|]. by apply lookup_lt_Some in Hp.
    - cbn. rewrite list_lookup_insert_eq; [done|]. by apply lookup_lt_Some in Hf. }
  pose proof (sys_read_ok k1_ proc _ _ nd data frame A T M Hr1 Ho1 B Hdata G Hlen) as E2. cbn zeta in E2.
  change (u32 (f_offset (file .[ f_offset := 2 ^ 32 ]))) with 0 in E2. rewrite Z.sub_0_r in E2. fold n in E2.
  rewrite decide_True in E2 by lia. destruct E2 as (s' & E2 & _ & O). eexists.
  split; [exact E1|]. split; [exact E2|]. split; [destruct G; subst n; lia|exact O].
Qed.

(** ** The break *)

(** The break of a process is in its range. *)
Definition brk_ok (p : Process) : Prop := 0 < brk_min p ∧ brk_min p <= brk_current p < BRK_LIMIT.
Definition brk_page (b : Z) : Z := (b + 4095) / 4096.
Definition brk_pages (cur addr : Z) : nat := Z.to_nat (brk_page addr - brk_page cur).

Lemma brk_limit_eq : BRK_LIMIT = 8796092891136.
Proof using. reflexivity. Qed.

Lemma brk_align b : 0 <= b < BRK_LIMIT → align_up b = brk_page b * 4096.
Proof using.
  rewrite brk_limit_eq. intros Hb. apply align_up_eq; [lia|]. change (2 ^ 64) with 18446744073709551616. lia.
Qed.

Lemma brk_page_range b : 0 <= b < BRK_LIMIT → 0 <= brk_page b < 2 ^ 35.
Proof using. rewrite brk_limit_eq. change (2 ^ 35) with 34359738368. unfold brk_page. word_lia. Qed.

Lemma sys_brk_valid k proc p frame :
  processes k !! proc = Some p → brk_ok p → brk_min p <= rdi frame < BRK_LIMIT →
  sys_brk hh proc frame k =
    (s ← (if brk_page (brk_current p) <? brk_page (rdi frame)
          then map_range hh (cr3 (vm k)) (brk_page (brk_current p) * 4096)
                 (Z.of_nat (brk_pages (brk_current p) (rdi frame)) * 4096) true true (phys (vm k))
          else Some (phys (vm k)));
     ret (rdi frame) (set_process proc (p .[ brk_current := rdi frame ]) (set_phys s k))).
Proof using.
  intros Hp [Hm Hb] Ha. pose proof (brk_align (brk_current p)) as E1. pose proof (brk_align (rdi frame)) as E2.
  pose proof (brk_page_range (brk_current p) ltac:(lia)) as Hq. pose proof (brk_page_range (rdi frame) ltac:(lia)) as Hq'.
  rewrite brk_limit_eq in *. unfold sys_brk. rewrite Hp. cbn [mbind option_bind].
  rewrite (proj2 (Z.eqb_neq _ 0)), (proj2 (Z.ltb_ge _ _)), (proj2 (Z.leb_gt _ _)), (proj2 (Z.leb_gt _ _))
    by (rewrite ?brk_limit_eq; unfold USER_TOP; lia). cbn [orb]. cbn zeta. rewrite E1, E2 by lia. unfold brk_pages.
  destruct (Z.ltb_spec (brk_page (brk_current p)) (brk_page (rdi frame))).
  - rewrite (proj2 (Z.ltb_lt _ _)), Z2Nat.id, <- Z.mul_sub_distr_r by lia. rewrite u64_id; [done|].
    change (2 ^ 35) with 34359738368 in *. clear -Hq Hq' H. word_lia.
  - by rewrite (proj2 (Z.ltb_ge _ _)) by lia.
Qed.

Lemma sys_brk_ok n k proc p frame A T M :
  runs_in k A T M → processes k !! proc = Some p → brk_ok p → brk_min p <= rdi frame < BRK_LIMIT →
  room entries (4 * brk_pages (brk_current p) (rdi frame) + n) A →
  ∃ s' A' T' M', sys_brk hh proc frame k = Some (Return (rdi frame) (set_process proc (p .[ brk_current := rdi frame ]) (set_phys s' k)))
    ∧ aspace s' A' T' M' ∧ A ⊆ A' ∧ room entries n A'
    ∧ remapped (brk_page (brk_current p)) (Z.of_nat (brk_pages (brk_current p) (rdi frame))) A M M'
    ∧ zeroed root (brk_page (brk_current p)) (Z.of_nat (brk_pages (brk_current p) (rdi frame))) (phys (vm k)) s'.
Proof using P.
  intros [Hcr S0] Hp Hb Ha R. rewrite (sys_brk_valid k proc p frame Hp Hb Ha). destruct Hb as [Hm Hb].
  pose proof (brk_page_range (brk_current p) ltac:(lia)) as Hq. pose proof (brk_page_range (rdi frame) ltac:(lia)) as Hq'.
  unfold brk_pages in *. destruct (Z.ltb_spec (brk_page (brk_current p)) (brk_page (rdi frame))).
  - destruct (map_range_ok hh entries P root n _ _ A T M _ S0 R Hq) as (s' & A' & T' & M' & E & S' & HA & Hr & Hz & R'); [lia|].
    rewrite Hcr, E. cbn [mbind option_bind]. by exists s', A', T', M'.
  - cbn [mbind option_bind]. exists (phys (vm k)), A, T, M. replace (Z.to_nat (brk_page (rdi frame) - brk_page (brk_current p))) with 0%nat in * by lia.
    split_and!; [done|done|done|done| |].
    + split; [lia|done].
    + intros a _. by rewrite decide_False by lia.
Qed.

(** C34: [brk] to an address in the range of the process returns that address, keeps the break in its
    range, maps the pages between the old and the new break to new frames that read as zero, and
    leaves the rest of user memory alone; any other address leaves everything as it is. *)
Theorem sys_brk_extends n k proc p frame A T M :
  runs_in k A T M → processes k !! proc = Some p → brk_ok p → is_u64 (rdi frame) →
  room entries (4 * brk_pages (brk_current p) (rdi frame) + n) A →
  let valid := brk_min p <= rdi frame < BRK_LIMIT in
  ∃ s' A' T' M', sys_brk hh proc frame k =
      Some (if decide valid then Return (rdi frame) (set_process proc (p .[ brk_current := rdi frame ]) (set_phys s' k))
            else Return (brk_current p) k)
    ∧ (valid → brk_ok (p .[ brk_current := rdi frame ]) ∧ aspace s' A' T' M'
      ∧ mapped M' (brk_page (brk_current p) * 4096) (brk_page (rdi frame) * 4096 - brk_page (brk_current p) * 4096)
      ∧ ∀ a, low_addr a → user_load cr3_ a s' =
          if decide (brk_page (brk_current p) * 4096 <= a < brk_page (rdi frame) * 4096) then Some 0
          else user_load cr3_ a (phys (vm k))).
Proof using P.
  intros Hr Hp Hb Hu R valid. case_decide as Hv.
  - destruct (sys_brk_ok n k proc p frame A T M Hr Hp Hb Hv R) as (s' & A' & T' & M' & E & S' & HA & _ & [Hn Ho] & Hz).
    exists s', A', T', M'. split; [exact E|]. intros _. unfold brk_pages in *. split_and!; [|exact S'| |].
    + destruct Hb. split; [done|]. unfold set_field. cbn [brk_min brk_current]. exact Hv.
    + intros a Ha. destruct (Hn (a / 4096)) as (f & -> & _); [word_lia|done].
    + intros a Ha. rewrite Hz by done. repeat case_decide; try word_lia; done.
  - exists (phys (vm k)), A, T, M. split; [|done]. unfold sys_brk. rewrite Hp. cbn [mbind option_bind].
    destruct (Z.eqb_spec (rdi frame) 0) as [|_]; [done|].
    destruct ((rdi frame <? brk_min p) || (BRK_LIMIT <=? rdi frame) || (USER_TOP <=? rdi frame)) eqn:E; [done|].
    subst valid. unfold USER_TOP in E. lia.
Qed.

(** Lowering the break and raising it again loses frames: the pages above the lower break stay
    mapped, [brk] maps them a second time, and the frames they had are still handed out but no page
    is mapped to them any more, so nothing will give them back. *)
Theorem brk_again_leaks n k proc p down up A T M vpn f :
  runs_in k A T M → processes k !! proc = Some p → brk_ok p → brk_min p <= rdi down <= brk_current p →
  rdi up = brk_current p → brk_page (rdi down) <= vpn < brk_page (brk_current p) → M !! vpn = Some f →
  room entries (4 * brk_pages (rdi down) (brk_current p) + n) A →
  ∃ k1 k2 A' T' M', sys_brk hh proc down k = Some (Return (rdi down) k1) ∧ runs_in k1 A T M
    ∧ sys_brk hh proc up k1 = Some (Return (brk_current p) k2) ∧ runs_in k2 A' T' M'
    ∧ f ∈ A' ∧ (∀ v, M' !! v ≠ Some f) ∧ ∀ a, a / 4096 = vpn → user_load cr3_ a (phys (vm k2)) = Some 0.
Proof using P.
  intros Hr Hp Hb Hdown Hup Hv Hf R. pose proof Hb as [Hm [Hb1 Hb2]].
  pose proof (sys_brk_valid k proc p down Hp Hb ltac:(lia)) as E1.
  rewrite (proj2 (Z.ltb_ge _ _)) in E1 by lia. cbn [mbind option_bind] in E1. unfold ret in E1.
  match type of E1 with _ = Some (Return _ ?k1) => set (k1_ := k1) in * end.
  assert (runs_in k1_ A T M) as Hr1 by (destruct Hr; by split).
  assert (processes k1_ !! proc = Some (p .[ brk_current := rdi down ])) as Hp1.
  { cbn. rewrite list_lookup_insert_eq; [done|]. by apply lookup_lt_Some in Hp. }
  destruct (sys_brk_ok n k1_ proc _ up A T M Hr1 Hp1) as (s2 & A2 & T2 & M2 & E2 & S2 & HA2 & _ & [Hn Ho] & Hz);
    [split; unfold set_field; cbn [brk_min brk_current]; lia|unfold set_field; cbn [brk_min]; lia
    |rewrite Hup; exact R|]. rewrite Hup in E2. rewrite Hup in Hn, Ho, Hz. unfold set_field in Hn, Ho, Hz. cbn [brk_current] in Hn, Ho, Hz.
  assert (brk_page (rdi down) <= vpn < brk_page (rdi down) + Z.of_nat (brk_pages (rdi down) (brk_current p))) as Hin
    by (unfold brk_pages; lia).
  destruct (as_dom _ _ _ _ _ _ _ _ (ri_space _ _ _ _ Hr) _ _ Hf) as (Hlow & HfA & _).
  eexists k1_, _, A2, T2, M2. split; [exact E1|]. split; [exact Hr1|]. split; [exact E2|]. split_and!.
  - split; [apply (ri_cr3 _ _ _ _ Hr)|exact S2].
  - by apply HA2.
  - intros v Hv'. destruct (decide (brk_page (rdi down) <= v < brk_page (rdi down) + Z.of_nat (brk_pages (rdi down) (brk_current p)))) as [Hi|Hi].
    + destruct (Hn v Hi) as (g & Hg & HgA). congruence.
    + rewrite Ho in Hv' by done. assert (v = vpn) as -> by (eapply (as_inj _ _ _ _ _ _ _ _ (ri_space _ _ _ _ Hr)); eassumption). done.
  - intros a <-. assert (low_addr a) as Hla.
    { unfold low_page in Hlow. unfold low_addr. change (2 ^ 35) with 34359738368 in Hlow. change (2 ^ 47) with 140737488355328. word_lia. }
    change (user_load cr3_ a s2 = Some 0). rewrite (Hz a Hla). by rewrite decide_True.
Qed.

End Memory.

(** ** Descriptors

    The table of a process implements a finite map from descriptors to open
    files: a node and an offset. *)

Inductive FdCall := FdOpen (nd : Node) | FdClose (frame : SyscallFrame) | FdSeek (frame : SyscallFrame).

Definition returned (r : Result) : option (Z * Kernel) := match r with Return v k => Some (v, k) | _ => None end.

(** The end of [open] (after the path is resolved), [close] and [lseek]. *)
Definition fd_call (proc : nat) (c : FdCall) (k : Kernel) : option (Z * Kernel) :=
  match c with
  | FdOpen nd => '(fd, k) ← alloc_fd proc nd k; Some (u64 fd, k)
  | FdClose frame => r ← sys_close proc frame k; returned r
  | FdSeek frame => r ← sys_lseek proc frame k; returned r
  end.
Fixpoint fd_calls (proc : nat) (cs : list FdCall) (k : Kernel) : option (list Z * Kernel) :=
  match cs with
  | [] => Some ([], k)
  | c :: cs => '(v, k) ← fd_call proc c k; '(vs, k) ← fd_calls proc cs k; Some (v :: vs, k)
  end.

Abbreviation FdMap := (gmap Z (Node * Z)).

(** The lowest free descriptor. *)
Definition first_free (M : FdMap) : option Z := head (filter (λ fd, M !! fd = None) (seqZ 3 29)).

(** What the offset of [lseek] counts from. *)
Definition seek_base (whence : Z) (nd : Node) (offset : Z) : option Z :=
  match whence with
  | 0 => Some 0
  | 1 => Some (i64 offset)
  | 2 => Some (size_in_bytes (node_io nd))
  | _ => None
  end.

Definition spec_call (c : FdCall) (M : FdMap) : option (Z * FdMap) :=
  match c with
  | FdOpen nd => Some (match first_free M with Some fd => (fd, <[fd := (nd, 0)]> M) | None => (FAIL, M) end)
  | FdClose frame =>
      let fd := i32 (rdi frame) in
      Some (if (0 <=? fd) && (fd <=? 2) then (0, M)
            else match M !! fd with Some _ => (0, delete fd M) | None => (FAIL, M) end)
  | FdSeek frame =>
      let fd := i32 (rdi frame) in
      match M !! fd with
      | None => Some (FAIL, M)
      | Some (nd, offset) =>
          match seek_base (i32 (rdx frame)) nd offset with
          | None => Some (FAIL, M)
          | Some base =>
              next ← add_i64 base (i64 (rsi frame));
              Some (if next <? 0 then (FAIL, M) else (next, <[fd := (nd, next)]> M))
          end
      end
  end.
Fixpoint spec_calls (cs : list FdCall) (M : FdMap) : option (list Z * FdMap) :=
  match cs with
  | [] => Some ([], M)
  | c :: cs => '(v, M) ← spec_call c M; '(vs, M) ← spec_calls cs M; Some (v :: vs, M)
  end.

Definition slot_view (f : OpenFile) : option (Node * Z) :=
  if f_used f then nd ← f_node f; Some (nd, f_offset f) else None.

(** The descriptors of process [p] are [M]. *)
Record fd_table (p : Process) (M : FdMap) : Prop := {
  ft_length : length (fds p) = 32%nat;
  ft_used : ∀ i f, fds p !! i = Some f → f_used f = true → (3 <= i)%nat ∧ is_Some (f_node f);
  ft_offset : ∀ i f, fds p !! i = Some f → is_u64 (f_offset f);
  ft_view : ∀ fd, M !! fd = if decide (0 <= fd) then fds p !! Z.to_nat fd ≫= slot_view else None
}.

Lemma fd_table_slot p M fd :
  fd_table p M → 0 <= fd < 32 → ∃ f, fds p !! Z.to_nat fd = Some f ∧ M !! fd = slot_view f.
Proof.
  intros [Hl _ _ Hv] Hfd. destruct (lookup_lt_is_Some_2 (fds p) (Z.to_nat fd)) as [f Hf]; [lia|].
  exists f. split; [done|]. rewrite Hv, decide_True, Hf by lia. done.
Qed.

Lemma slot_view_None p M i f : fd_table p M → fds p !! i = Some f → slot_view f = None ↔ f_used f = false.
Proof.
  intros Ht Hf. unfold slot_view. destruct (f_used f) eqn:E; [|done].
  destruct (ft_used _ _ Ht i f Hf E) as [_ [nd ->]]. done.
Qed.

Lemma fd_table_out p M fd : fd_table p M → ¬ (3 <= fd < 32) → M !! fd = None.
Proof.
  intros Ht Hfd. destruct Ht as [Hl Hu _ Hv]. rewrite Hv. case_decide; [|done].
  destruct (fds p !! Z.to_nat fd) as [f|] eqn:Hf; [|done]. cbn. unfold slot_view.
  destruct (f_used f) eqn:E; [|done]. destruct (Hu _ _ Hf E). apply lookup_lt_Some in Hf. lia.
Qed.

(** Writing one slot is writing the map. *)
Lemma fd_table_write p M fd f :
  fd_table p M → 3 <= fd < 32 → (f_used f = true → is_Some (f_node f)) → is_u64 (f_offset f) →
  fd_table (p .[ fds := <[Z.to_nat fd := f]> (fds p) ]) (partial_alter (λ _, slot_view f) fd M).
Proof.
  intros [Hl Hu Ho Hv] Hfd Hn Hof. split; unfold set_field; cbn [fds].
  - by rewrite length_insert.
  - intros i g Hg Hgu. apply list_lookup_insert_Some in Hg as [(<- & <- & _)|(_ & Hg)]; [split; [lia|auto]|by apply Hu].
  - intros i g Hg. apply list_lookup_insert_Some in Hg as [(<- & <- & _)|(_ & Hg)]; [done|by apply (Ho i)].
  - intros x. destruct (decide (x = fd)) as [->|Hne].
    + rewrite lookup_partial_alter_eq, decide_True, list_lookup_insert_eq by lia. done.
    + rewrite lookup_partial_alter_ne by done. rewrite Hv. case_decide; [|done].
      rewrite list_lookup_insert_ne by lia. done.
Qed.

Lemma alloc_fd_from_free p M : fd_table p M → ∀ l n,
  (∀ i, l !! i = fds p !! (Z.to_nat n + i)%nat) → 0 <= n →
  alloc_fd_from l n = default (-1) (head (filter (λ fd, M !! fd = None) (seqZ n (Z.of_nat (length l))))).
Proof.
  intros Ht l. induction l as [|f l IH]; intros n Hl Hn; [done|]. cbn [alloc_fd_from length].
  rewrite seqZ_cons by lia. pose proof (Hl 0%nat) as Hf. cbn in Hf. rewrite Nat.add_0_r in Hf. symmetry in Hf.
  assert (M !! n = slot_view f) as HM by (rewrite (ft_view _ _ Ht), decide_True, Hf by done; done).
  rewrite filter_cons. destruct (f_used f) eqn:E; cbn [negb].
  - rewrite decide_False by (rewrite HM, (slot_view_None _ _ _ _ Ht Hf); congruence).
    replace (Z.pred (Z.of_nat (S (length l)))) with (Z.of_nat (length l)) by lia.
    replace (Z.succ n) with (n + 1) by lia. apply IH; [|lia]. intros i.
    replace (Z.to_nat (n + 1) + i)%nat with (Z.to_nat n + S i)%nat by lia. by rewrite <- Hl.
  - rewrite decide_True by (rewrite HM; by apply (slot_view_None _ _ _ _ Ht Hf)). done.
Qed.

Lemma alloc_fd_lowest p M :
  fd_table p M → alloc_fd_from (drop 3 (fds p)) 3 = default (-1) (first_free M).
Proof.
  intros Ht. rewrite (alloc_fd_from_free p M Ht) by (try lia; intros i; by rewrite lookup_drop).
  unfold first_free. by rewrite length_drop, (ft_length _ _ Ht).
Qed.

Lemma first_free_range M fd : first_free M = Some fd → 3 <= fd < 32 ∧ M !! fd = None.
Proof.
  unfold first_free. intros H. assert (fd ∈ filter (λ fd, M !! fd = None) (seqZ 3 29)) as [HM Hin]%list_elem_of_filter.
  { destruct (filter _ _); [done|]. injection H as <-. by left. }
  apply elem_of_seqZ in Hin. split; [lia|done].
Qed.

Lemma seek_base_eq whence nd offset :
  (if whence =? 0 then Some (Some 0)
   else if whence =? 1 then Some (Some (i64 offset))
   else if whence =? 2 then nd ← Some nd; Some (Some (size_in_bytes (node_io nd)))
   else Some None) = Some (seek_base whence nd offset).
Proof. by destruct whence as [|[|[]|]|]. Qed.

Lemma add_i64_range a b n : add_i64 a b = Some n → -9223372036854775808 <= n <= 9223372036854775807.
Proof. unfold add_i64. destruct (_ || _) eqn:E; [done|]. intros [= <-]. lia. Qed.

(** One call. *)
Lemma fd_call_ok proc c k p M :
  processes k !! proc = Some p → fd_table p M →
  match spec_call c M with
  | Some (v, M') => ∃ p' k', fd_call proc c k = Some (v, k') ∧ processes k' !! proc = Some p' ∧ fd_table p' M'
  | None => fd_call proc c k = None
  end.
Proof.
  intros Hp Ht. assert (∀ q, processes (set_process proc q k) !! proc = Some q) as Hset.
  { intros q. cbn. rewrite list_lookup_insert_eq; [done|]. by apply lookup_lt_Some in Hp. }
  destruct c as [nd|frame|frame]; cbn [spec_call fd_call].
  - unfold alloc_fd. rewrite Hp. cbn [mbind option_bind]. rewrite (alloc_fd_lowest p M Ht).
    destruct (first_free M) as [fd|] eqn:E; cbn [default from_option id].
    + destruct (first_free_range M fd E) as [Hfd HM]. rewrite (proj2 (Z.eqb_neq _ _)) by lia. cbn [mbind option_bind].
      eexists _, _. split; [rewrite u64_id by word_lia; reflexivity|]. split; [apply Hset|].
      apply (fd_table_write p M fd (mkOpenFile (Some nd) 0 true) Ht Hfd); [by intros _; exists nd|cbn; word_lia].
    + cbn [Z.eqb mbind option_bind]. eexists p, _. split; [reflexivity|]. by split.
  - unfold sys_close. cbn zeta. destruct ((0 <=? i32 (rdi frame)) && (i32 (rdi frame) <=? 2)) eqn:E02.
    { cbn [mbind option_bind returned ret]. by eexists p, _. }
    rewrite Hp. cbn [mbind option_bind]. set (fd := i32 (rdi frame)) in *.
    destruct ((fd <? 3) || (MAX_FDS <=? fd)) eqn:Er.
    { rewrite (fd_table_out p M fd Ht) by (unfold MAX_FDS in Er; lia). by eexists p, _. }
    unfold MAX_FDS in Er. destruct (fd_table_slot p M fd Ht) as (f & Hf & HM); [lia|]. rewrite HM, Hf. cbn [mbind option_bind].
    unfold slot_view. destruct (f_used f) eqn:Eu; cbn [negb]; [|by eexists p, _].
    destruct (ft_used _ _ Ht _ _ Hf Eu) as [_ [nd Hn]]. rewrite Hn. cbn [mbind option_bind ret returned].
    eexists _, _. split; [reflexivity|]. split; [apply Hset|].
    apply (fd_table_write p M fd no_file Ht); [lia|done|cbn; word_lia].
  - unfold sys_lseek. cbn zeta. rewrite Hp. cbn [mbind option_bind]. set (fd := i32 (rdi frame)) in *.
    destruct ((fd <? 3) || (MAX_FDS <=? fd)) eqn:Er.
    { rewrite (fd_table_out p M fd Ht) by (unfold MAX_FDS in Er; lia). by eexists p, _. }
    unfold MAX_FDS in Er. destruct (fd_table_slot p M fd Ht) as (f & Hf & HM); [lia|]. rewrite HM, Hf. cbn [mbind option_bind].
    unfold slot_view. destruct (f_used f) eqn:Eu; cbn [negb]; [|by eexists p, _].
    destruct (ft_used _ _ Ht _ _ Hf Eu) as [_ [nd Hn]]. rewrite Hn. cbn [mbind option_bind ret returned].
    pose proof (seek_base_eq (i32 (rdx frame)) nd (f_offset f)) as Eb. cbn [mbind option_bind] in Eb. rewrite Eb.
    cbn [mbind option_bind]. destruct (seek_base _ _ _) as [b|]; cbn [mbind option_bind]; [|by eexists p, _].
    destruct (add_i64 b (i64 (rsi frame))) as [next|] eqn:En; cbn [mbind option_bind]; [|done].
    destruct (Z.ltb_spec next 0) as [Hneg|Hpos]; [by eexists p, _|]. apply add_i64_range in En.
    rewrite u64_id by word_lia. eexists _, _. split; [reflexivity|]. split; [apply Hset|].
    pose proof (fd_table_write p M fd (f .[ f_offset := next ]) Ht) as W. unfold slot_view in W.
    cbn [f_used f_node f_offset set_field] in W. rewrite Eu, Hn in W. apply W; [lia|by intros _; exists nd|word_lia].
Qed.

(** C32: The descriptor table of a process implements a finite map: for every sequence of opens,
    closes and seeks the calls return what the map operations say (an open takes the lowest free
    descriptor from 3 on, or fails when all 29 are taken) and the table stays the map's. *)
Theorem descriptors_refine proc cs k p M vs M' :
  processes k !! proc = Some p → fd_table p M → spec_calls cs M = Some (vs, M') →
  ∃ p' k', fd_calls proc cs k = Some (vs, k') ∧ processes k' !! proc = Some p' ∧ fd_table p' M'.
Proof.
  revert k p M vs. induction cs as [|c cs IH]; intros k p M vs Hp Ht E; cbn [spec_calls fd_calls] in *.
  { injection E as <- <-. by exists p, k. }
  pose proof (fd_call_ok proc c k p M Hp Ht) as Hc. destruct (spec_call c M) as [[v M1]|]; [|done].
  cbn [mbind option_bind] in E. destruct (spec_calls cs M1) as [[vs1 M2]|] eqn:E1; [|done]. injection E as <- <-.
  destruct Hc as (p1 & k1 & -> & Hp1 & Ht1). cbn [mbind option_bind].
  destruct (IH k1 p1 M1 vs1 Hp1 Ht1 E1) as (p2 & k2 & -> & ?). by exists p2, k2.
Qed.

(** ** Witnesses: a process with a heap of one page and an open file *)

Definition demo_frame (rax rdi rsi rdx : Z) : SyscallFrame := mkFrame rax 0 0 rdx rsi rdi 0 0 0 0 0 0 0 0 0 0.
Definition demo_file : OpenFile := mkOpenFile (Some (demo_elf false)) 0 true.
Definition demo_process : Process :=
  new_process 1 None 4194304 4198400 (replicate 3 no_file ++ [demo_file] ++ replicate 28 no_file).
Definition demo_kernel (s : PhysMem) (ps : list Process) : Kernel :=
  mkKernel (mkVmm s (65536 * 4096) (65536 * 4096) [] [] 1 1) (Some 0%nat) ps 2 None 4194304 [] 1 [].

Lemma demo_machine : ∃ s A T M, aspace demo_hhdm big_map low_page 65536 s A T M ∧ room big_map 100 A
  ∧ is_Some (M !! 1024) ∧ (∀ a, 4194304 <= a < 4198400 → user_load (65536 * 4096) a s = Some 0) ∧ size M = 1%nat.
Proof.
  destruct (map_range_ok demo_hhdm big_map big_platform 65536 100 1 big_root {[65536]} {[65536]} ∅ 1024)
    as (s & A & T & M & _ & S0 & _ & [Hn Ho] & Hz & R); [apply big_aspace|apply big_room; lia|lia|lia|].
  exists s, A, T, M. split_and!; [exact S0|exact R| | |].
  3: { destruct (Hn 1024) as (f & Hf & _); [lia|]. assert (M = {[1024 := f]}) as ->; [|apply map_size_singleton].
       apply map_eq. intros v. destruct (decide (v = 1024)) as [->|Hne]; [by rewrite lookup_singleton_eq|].
       rewrite Ho, lookup_singleton_ne by lia. reflexivity. }
  - destruct (Hn 1024) as (f & -> & _); [lia|done].
  - intros a Ha. rewrite (Hz a); [rewrite decide_True; [done|word_lia]|].
    unfold low_addr. change (2 ^ 47) with 140737488355328. lia.
Qed.

Lemma demo_runs s A T M ps :
  aspace demo_hhdm big_map low_page 65536 s A T M → runs_in demo_hhdm big_map 65536 (demo_kernel s ps) A T M.
Proof. intros S0. split; [reflexivity|exact S0]. Qed.

Lemma demo_open s ps : open_on (demo_kernel s (demo_process :: ps)) 0 3 demo_process demo_file (demo_elf false).
Proof. split; [split; done|done..]. Qed.

Lemma demo_buffer (M : gmap Z Z) len : is_Some (M !! 1024) → 0 < len <= 4096 → good_buffer M 4194304 len.
Proof.
  intros HM Hl. split; [done|lia| |].
  - change (2 ^ 47) with 140737488355328. lia.
  - intros a Ha. replace (a / 4096) with 1024 by word_lia. exact HM.
Qed.

Lemma demo_brk_ok : brk_ok demo_process.
Proof. by split_and!. Qed.

(** [read] of four bytes at the start of the file: the magic number. *)
Lemma sys_read_delivers_witness : ∃ k k', sys_read demo_hhdm 0 (demo_frame 0 3 4194304 4) k = Some (Return 4 k')
  ∧ user_loads (65536 * 4096) 4 4194304 (phys (vm k')) = Some [127; 69; 76; 70].
Proof.
  destruct demo_machine as (s & A & T & M & S0 & _ & HM & _).
  pose proof (sys_read_delivers demo_hhdm big_map big_platform 65536 (demo_kernel s [demo_process]) 0 demo_process demo_file
    (demo_elf false) (demo_elf_data false) (demo_frame 0 3 4194304 4) A T M (demo_runs _ _ _ _ _ S0) (demo_open s []) (demo_elf_backed false) (demo_elf_wf false)
    (demo_buffer M 4 HM ltac:(split; done)) eq_refl) as H.
  cbn zeta in H. rewrite demo_elf_data_eq in H. rewrite decide_True in H by (vm_compute; done).
  destruct H as (s' & E & _ & O).
  exists (demo_kernel s [demo_process]). eexists. split; [exact E|].
  apply (overwrites_loads _ _ [127; 69; 76; 70] s); [|done|done].
  intros a Ha. exact (O a Ha).
Defined.

Lemma read_after_4g_seek_witness : ∃ k k1 k2, sys_lseek 0 (demo_frame 8 3 (2 ^ 32) 0) k = Some (Return (2 ^ 32) k1)
  ∧ sys_read demo_hhdm 0 (demo_frame 0 3 4194304 4) k1 = Some (Return 4 k2).
Proof.
  destruct demo_machine as (s & A & T & M & S0 & _ & HM & _).
  destruct (read_after_4g_seek demo_hhdm big_map big_platform 65536 (demo_kernel s [demo_process]) 0 demo_process demo_file
    (demo_elf false) (demo_elf_data false) (demo_frame 8 3 (2 ^ 32) 0) (demo_frame 0 3 4194304 4) A T M (demo_runs _ _ _ _ _ S0) (demo_open s [])
    ltac:(done) (demo_elf_backed false) (demo_elf_wf false) eq_refl eq_refl eq_refl (demo_buffer M 4 HM ltac:(split; done)) eq_refl)
    as (k1 & k2 & E1 & E2 & _); [rewrite demo_elf_data_eq; vm_compute; done|].
  exists (demo_kernel s [demo_process]), k1, k2. split; [exact E1|]. rewrite demo_elf_data_eq in E2. exact E2.
Defined.

Lemma sys_brk_extends_witness : ∃ k k', sys_brk demo_hhdm 0 (demo_frame 12 4210000 0 0) k = Some (Return 4210000 k')
  ∧ user_load (65536 * 4096) 4209999 (phys (vm k')) = Some 0.
Proof.
  destruct demo_machine as (s & A & T & M & S0 & R & _ & _).
  destruct (sys_brk_extends demo_hhdm big_map big_platform 65536 88 (demo_kernel s [demo_process]) 0 demo_process
    (demo_frame 12 4210000 0 0) A T M (demo_runs _ _ _ _ _ S0) eq_refl demo_brk_ok) as (s' & A' & T' & M' & E & H); [done|exact R|].
  rewrite decide_True in E by done. destruct H as (_ & _ & _ & H); [done|].
  exists (demo_kernel s [demo_process]). eexists. split; [exact E|]. cbn [vm phys set_process set_phys set_field].
  transitivity (user_load (65536 * 4096) 4209999 s'); [done|]. rewrite (H 4209999) by done. by rewrite decide_True by done.
Defined.

Lemma brk_again_leaks_witness : ∃ k k1 k2 f A' T' M', sys_brk demo_hhdm 0 (demo_frame 12 4194304 0 0) k = Some (Return 4194304 k1)
  ∧ sys_brk demo_hhdm 0 (demo_frame 12 4198400 0 0) k1 = Some (Return 4198400 k2)
  ∧ runs_in demo_hhdm big_map 65536 k2 A' T' M' ∧ f ∈ A' ∧ ∀ v, M' !! v ≠ Some f.
Proof.
  destruct demo_machine as (s & A & T & M & S0 & R & [f Hf] & _).
  destruct (brk_again_leaks demo_hhdm big_map big_platform 65536 96 (demo_kernel s [demo_process]) 0 demo_process
    (demo_frame 12 4194304 0 0) (demo_frame 12 4198400 0 0) A T M 1024 f (demo_runs _ _ _ _ _ S0) eq_refl demo_brk_ok)
    as (k1 & k2 & A' & T' & M' & E1 & _ & E2 & R2 & HA & HM & _); [done|done|done|exact Hf|exact R|].
  exists (demo_kernel s [demo_process]), k1, k2, f, A', T', M'. split; [exact E1|]. split; [exact E2|]. by split_and!.
Defined.

Lemma demo_fd_table : fd_table (new_process 1 None 0 0 (replicate 32 no_file)) ∅.
Proof.
  split; cbn [fds new_process]; [done| | |].
  - intros i f Hf. apply lookup_replicate in Hf as [-> _]. done.
  - intros i f Hf. apply lookup_replicate in Hf as [-> _]. done.
  - intros fd. rewrite lookup_empty. case_decide; [|done].
    destruct (replicate 32 no_file !! Z.to_nat fd) as [f|] eqn:Hf; [|done]. by apply lookup_replicate in Hf as [-> _].
Qed.

(** Two opens, a seek, a close, and an open that takes the free place. *)
Lemma descriptors_refine_witness : ∃ p k',
  fd_calls 0 [FdOpen (demo_elf false); FdOpen (demo_elf false); FdSeek (demo_frame 8 4 7 0); FdClose (demo_frame 3 3 0 0); FdOpen (demo_elf false)]
    (demo_kernel big_root [new_process 1 None 0 0 (replicate 32 no_file)]) = Some ([3; 4; 7; 0; 3], k')
  ∧ processes k' !! 0%nat = Some p ∧ fd_table p {[3 := ((demo_elf false), 0); 4 := ((demo_elf false), 7)]}.
Proof.
  apply (descriptors_refine 0 _ _ (new_process 1 None 0 0 (replicate 32 no_file)) ∅).
  - reflexivity.
  - exact demo_fd_table.
  - reflexivity.
Defined.
