(* ===== verification/SyscallFork.v ===== *)
(** * The [fork] system call

    The child is a new process with the parent's descriptors and break, and a new
    thread whose address space is a copy of the parent's. *)

From stdpp Require Import gmap.
From S2P Require Import Prelude Sync PhysMem BlockIO Ext2 PageTable AddrSpace Vme Vmm VmmThreads UserMem Fork Elf Syscall SyscallFiles.

Section SysFork.
Context (hh : Z) (entries : list MemmapEntry) (P : platform hh entries) (root : Z).
Abbreviation owned := (owned hh entries) (only parsing).

(** The address space of a new thread, next to that of its creator. *)
Lemma init_thread_beside n v s A T M c Tc :
  phys v = s → aspace hh entries low_page root s A T M → tree 3 c Tc s → (∀ p, p ∈ Tc → owned A p) → common_cr3 v = c * 4096 →
  shared_roots_ready v ≠ 0 → (∀ vpn f, M !! vpn = Some f → f ∉ Tc) → room entries (S n) A →
  ∃ v' r T2, init_thread hh v = Some v' ∧ cr3 v' = r * 4096 ∧ vmes v' = vmes v
    ∧ aspace hh entries low_page root (phys v') ({[r]} ∪ A) T M ∧ aspace hh entries low_page r (phys v') ({[r]} ∪ A) T2 ∅
    ∧ (∀ p, p ∈ T → p ∈ T2 → p ∈ high_tables r (phys v')) ∧ (∀ vpn f, M !! vpn = Some f → f ∉ T2) ∧ room entries n ({[r]} ∪ A)
    ∧ ∀ a, low_addr a → user_load (root * 4096) a (phys v') = user_load (root * 4096) a s.
Proof using P.
  intros <- S0 Htc Hown Hcr Hready HM R.
  destruct (init_thread_ok _ _ P n v A c Tc (as_client _ _ _ _ _ _ _ _ S0) Htc Hown Hcr Hready R)
    as (v' & r & T2 & E & Hr & Hc & S2 & Hlow & _ & HT2 & Hw & R2 & Hv & _).
  exists v', r, T2. pose proof (as_client _ _ _ _ _ _ _ _ S2) as C2.
  assert (usable entries r) as Hur by (eapply client_usable; [exact P|exact C2|apply elem_of_union_l; by apply elem_of_singleton]).
  assert (r ∉ T) as HrT.
  { intros H. apply Hr. exact (proj2 (as_owned _ _ _ _ _ _ _ _ S0 r H) Hur). }
  assert (∀ vpn f, M !! vpn = Some f → f ∈ A ∧ f ≠ r) as HMA.
  { intros vpn f Hf. destruct (as_dom _ _ _ _ _ _ _ _ S0 _ _ Hf) as (_ & HA & _). split; [exact HA|]. intros ->. exact (Hr HA). }
  assert (aspace hh entries low_page root (phys v') ({[r]} ∪ A) T M) as S1.
  { eapply as_frame_client; [exact S0|exact C2| | |].
    - intros a Ha. apply Hw. intros E2. rewrite E2 in Ha. exact (HrT Ha).
    - intros p Hp. eapply owned_mono; [apply union_subseteq_r|exact (as_owned _ _ _ _ _ _ _ _ S0 p Hp)].
    - intros vpn f Hf. apply elem_of_union_r. by destruct (HMA vpn f Hf). }
  split_and!; [exact E|exact Hc|exact Hv|exact S1|exact S2| | |exact R2|].
  - intros p Hp Hp2. apply (tree_tables 3 r T2 (phys v') p (as_tree _ _ _ _ _ _ _ _ S2)) in Hp2 as [->|Hp2]; [by destruct (HrT Hp)|].
    apply elem_of_tables_S in Hp2 as (i & Hi & Hb). apply elem_of_high_tables. exists i. split; [|exact Hb].
    destruct (decide (i < 256)); [|lia]. exfalso.
    assert (p ∈ low_tables r (phys v')) as Hl by (apply elem_of_low_tables; exists i; split; [lia|exact Hb]).
    rewrite Hlow in Hl. by apply elem_of_nil in Hl.
  - intros vpn f Hf [->|H]%HT2; [by destruct (HMA vpn r Hf)|exact (HM vpn f Hf H)].
  - intros a Ha. rewrite (user_load_ok _ _ P root _ _ _ _ _ S1 Ha), (user_load_ok _ _ P root _ _ _ _ _ S0 Ha).
    destruct (M !! (a / 4096)) as [f|] eqn:Hf; [|done]. cbn [fmap option_fmap option_map]. f_equal.
    apply byte_of_frame; [|word_lia]. intros q Hq. apply Hw. rewrite Hq. by destruct (HMA _ _ Hf).
Qed.

(** C14: [fork] returns the number of a new process, whose thread goes on with the caller's registers
    and 0 in [rax]; the new process has the caller's descriptors and break.  The child reads
    at every user address what the parent reads, the parent's memory is as before, and a store of
    one of them is never seen by the other. *)
Theorem sys_fork_isolates n k proc p frame A T M c Tc :
  runs_in hh entries root k A T M → processes k !! proc = Some p → 0 <= next_pid k < 2 ^ 31 - 1 →
  tree 3 c Tc (phys (vm k)) → (∀ p, p ∈ Tc → owned A p) → common_cr3 (vm k) = c * 4096 → shared_roots_ready (vm k) ≠ 0 →
  (∀ vpn f, M !! vpn = Some f → f ∉ Tc) → room entries (S (4 * size M + n)) A →
  ∃ k' v r c_, sys_fork hh proc frame k = Some (Forked (next_pid k) k' v (length (processes k)) (frame .[ rax := 0 ]))
    ∧ processes k' !! length (processes k) = Some c_ ∧ pid c_ = next_pid k ∧ parent c_ = Some proc ∧ fds c_ = fds p
    ∧ brk_current c_ = brk_current p ∧ next_pid k' = next_pid k + 1 ∧ cr3 v = r * 4096 ∧ phys (vm k') = phys v
    ∧ (∃ A', runs_in hh entries root k' A' T M ∧ room entries n A')
    ∧ (∀ a, low_addr a → user_load (r * 4096) a (phys v) = user_load (root * 4096) a (phys (vm k)))
    ∧ (∀ a, low_addr a → user_load (root * 4096) a (phys v) = user_load (root * 4096) a (phys (vm k)))
    ∧ isolated hh root r (phys v) ∧ isolated hh r root (phys v).
Proof using P.
  intros [Hcr S0] Hp Hpid Htc Hown Hcc Hready HM R. assert (2 ^ 31 = 2147483648) as E31 by reflexivity. rewrite E31 in Hpid.
  pose (v0 := (vm k) .[ vmes := [] ]).
  destruct (init_thread_beside (4 * size M + n) v0 (phys (vm k)) A T M c Tc eq_refl S0 Htc Hown Hcc Hready HM R)
    as (v1 & r & T2 & E1 & Hc1 & _ & S1 & S2 & Hap & Hd & R1 & L1).
  destruct (fork_from_copies _ _ P n root r v1 _ T M T2 S1 S2 Hc1 Hap Hd R1)
    as (v2 & A2 & T2' & M2' & E2 & Hc2 & _ & S1' & _ & R2 & L2 & L3 & I1 & I2).
  eexists _, v2, r, _. split.
  { unfold sys_fork. rewrite Hp. cbn [mbind option_bind]. cbn zeta. unfold fork_child.
    match goal with |- context [init_thread hh ?x] => change x with v0 end.
    rewrite E1. cbn [mbind option_bind].
    match goal with |- context [fork_from hh ?x v1] => change x with (cr3 (vm k)) end.
    rewrite Hcr, E2. cbn [mbind option_bind]. rewrite (u64_id (next_pid k)) by word_lia. reflexivity. }
  pose proof (lookup_lt_Some _ _ _ Hp) as Hlt.
  split. { cbn. rewrite list_lookup_insert_ne by lia. apply list_lookup_middle. reflexivity. }
  split_and!; try reflexivity.
  - cbn. by rewrite i32_id by lia.
  - exact Hc2.
  - exists A2. split; [|exact R2]. split; [reflexivity|exact S1'].
  - intros a Ha. rewrite L2 by exact Ha. exact (L1 a Ha).
  - intros a Ha. rewrite L3 by exact Ha. exact (L1 a Ha).
  - exact I1.
  - exact I2.
Qed.
End SysFork.

(** ** Witness: the process with one page of memory *)

Lemma sys_fork_isolates_witness : ∃ k k' v r, sys_fork demo_hhdm 0 (demo_frame 57 0 0 0) k
    = Some (Forked 2 k' v 1 (demo_frame 0 0 0 0))
  ∧ user_load (r * 4096) 4194304 (phys v) = Some 0 ∧ isolated demo_hhdm r 65536 (phys v).
Proof.
  destruct demo_machine as (s & A & T & M & S0 & R & HM & Hz & Hsz).
  destruct (sys_fork_isolates demo_hhdm big_map big_platform 65536 95 (demo_kernel s [demo_process]) 0 demo_process
    (demo_frame 57 0 0 0) A T M 65536 T (demo_runs _ _ _ _ _ S0) eq_refl)
    as (k' & v & r & c & E & _ & _ & _ & _ & _ & _ & _ & _ & _ & L & _ & _ & I).
  - split; [discriminate|reflexivity].
  - exact (as_tree _ _ _ _ _ _ _ _ S0).
  - exact (as_owned _ _ _ _ _ _ _ _ S0).
  - reflexivity.
  - discriminate.
  - intros vpn f Hf. by destruct (as_dom _ _ _ _ _ _ _ _ S0 vpn f Hf) as (_ & _ & ?).
  - rewrite Hsz. exact R.
  - exists (demo_kernel s [demo_process]), k', v, r. split; [exact E|]. split; [|exact I].
    rewrite L by (split; [discriminate|reflexivity]). apply (Hz 4194304). split; [discriminate|reflexivity].
Defined.
