(* ===== verification/SyscallPath.v ===== *)
(** * Paths ([copy_user_string] and [resolve_path] of [syscall.cc])

    A path is copied from user memory byte by byte and walked in place.  The file
    shows that the walk does what the path means: follow its components from the
    root directory, one lookup each. *)

From stdpp Require Import gmap.
From S2P Require Import Prelude Sync PhysMem BlockIO Ext2 PageTable AddrSpace Vme Vmm UserMem Elf Syscall SyscallFiles.

(** ** The meaning of a path *)

(** The parts between slashes that are not empty. *)
Fixpoint components (s : bytes) : list bytes :=
  match s with
  | [] => []
  | b :: s' =>
      if b =? 47 then components s'
      else
        let l := components s' in
        if match s' with [] => true | c :: _ => c =? 47 end then [b] :: l
        else match l with n :: l => (b :: n) :: l | [] => [[b]] end
  end.

Fixpoint resolve_components (fs : Ext2) (node : Node) (cs : list bytes) : option (option Node) :=
  match cs with
  | [] => Some (Some node)
  | c :: cs =>
      if negb (is_dir (n_data node)) then Some None
      else
        found ← ext2_find fs node (c ++ [0]);
        match found with
        | None => Some None
        | Some node => resolve_components fs node cs
        end
  end.

(** ** The walk *)

Lemma streq_tail a r b : streq (a ++ 0 :: r) b = streq (a ++ [0]) b.
Proof.
  revert b. induction a as [|x a IH]; intros [|y b]; cbn [streq app]; try done.
  destruct (x =? y); [|done]. destruct (x =? 0); [done|]. apply IH.
Qed.

Lemma entries_loop_ext {St} nd (work work' : Z → bytes → St → option St) fuel : ∀ offset acc,
  (∀ i n a, work i n a = work' i n a) → entries_loop nd work fuel offset acc = entries_loop nd work' fuel offset acc.
Proof.
  induction fuel as [|fuel IH]; intros offset acc H; cbn [entries_loop]; [done|].
  destruct (_ <=? _); [done|]. destruct (read_thing _ offset 4) as [i|]; [|done]. cbn [mbind option_bind].
  destruct (read_thing _ (u32 (offset + 4)) 2) as [t|]; [|done]. cbn [mbind option_bind].
  destruct (read_thing _ (u32 (offset + 6)) 1) as [l|]; [|done]. cbn [mbind option_bind].
  destruct (read_all _ _ _) as [[c n]|]; [|done]. cbn [mbind option_bind]. destruct (negb _); [done|].
  rewrite H. destruct (work' _ _ _); [|done]. cbn [mbind option_bind]. by apply IH.
Qed.

Lemma ext2_find_tail fs nd name r : ext2_find fs nd (name ++ 0 :: r) = ext2_find fs nd (name ++ [0]).
Proof.
  unfold ext2_find, node_find, entries. destruct (negb _); [done|].
  erewrite entries_loop_ext; [done|]. intros i n a. by rewrite streq_tail.
Qed.

Definition no_slash_first (s : bytes) : Prop := match s with b :: _ => b ≠ 47 | [] => True end.
Definition slash_first (s : bytes) : Prop := match s with b :: _ => b = 47 | [] => True end.

Lemma components_slash b s' : b = 47 → components (b :: s') = components s'.
Proof. intros ->. done. Qed.

Lemma skip_slashes_spec s :
  no_zero s → ∃ s', skip_slashes (s ++ [0]) = s' ++ [0] ∧ components s' = components s ∧ no_zero s'
    ∧ no_slash_first s' ∧ (length s' <= length s)%nat.
Proof.
  induction s as [|b s IH]; intros Hz.
  - by exists [].
  - apply Forall_cons in Hz as [Hb Hz]. cbn [app skip_slashes]. destruct (Z.eqb_spec b 47) as [->|Hne].
    + destruct (IH Hz) as (s' & -> & E & H1 & H2 & H3). exists s'. split_and!; [done|done|done|done|cbn; lia].
    + exists (b :: s). split_and!; [done|done|by constructor|done|done].
Qed.

Lemma components_cons b s : b ≠ 47 → ∃ n l, components (b :: s) = (b :: n) :: l.
Proof.
  intros Hb. cbn [components]. rewrite (proj2 (Z.eqb_neq _ _)) by done.
  cbn zeta. destruct (match s with [] => true | c :: _ => c =? 47 end); [by eexists [], _|].
  destruct (components s) as [|n l]; [by exists [], []|by exists n, l].
Qed.

Lemma find_slash_spec b s :
  no_zero (b :: s) → b ≠ 47 →
  ∃ name r, find_slash ((b :: s) ++ [0]) = (name, r ++ [0]) ∧ components (b :: s) = name :: components r
    ∧ no_zero r ∧ slash_first r ∧ (length r <= length s)%nat.
Proof.
  revert b. induction s as [|c s IH]; intros b Hz Hb; apply Forall_cons in Hz as [Hb0 Hz].
  - exists [b], []. cbn. rewrite (proj2 (Z.eqb_neq b 0)), (proj2 (Z.eqb_neq b 47)) by done. by split_and!.
  - change (find_slash ((b :: c :: s) ++ [0])) with
      (if (b =? 0) || (b =? 47) then ([], (b :: c :: s) ++ [0]) else
       let '(name, slash) := find_slash ((c :: s) ++ [0]) in (b :: name, slash)).
    rewrite (proj2 (Z.eqb_neq b 0)), (proj2 (Z.eqb_neq b 47)) by done. cbn [orb].
    destruct (Z.eqb_spec c 47) as [->|Hc].
    + exists [b], (47 :: s). split_and!; [done| |done|done|done].
      cbn [components]. by rewrite (proj2 (Z.eqb_neq b 47)) by done.
    + destruct (IH c Hz Hc) as (name & r & -> & E & H1 & H2 & H3). exists (b :: name), r.
      split_and!; [done| |done|done|cbn; lia].
      change (components (b :: c :: s)) with (if b =? 47 then components (c :: s) else
        if c =? 47 then [b] :: components (c :: s)
        else match components (c :: s) with n :: l => (b :: n) :: l | [] => [[b]] end).
      by rewrite (proj2 (Z.eqb_neq b 47)), (proj2 (Z.eqb_neq c 47)), E by done.
Qed.

Lemma resolve_loop_components fs fuel : ∀ node s,
  no_zero s → no_slash_first s → (length s < fuel)%nat →
  resolve_loop fuel fs node (s ++ [0]) = resolve_components fs node (components s).
Proof.
  induction fuel as [|fuel IH]; intros node s Hz Hs Hl; [lia|]. cbn [resolve_loop].
  destruct s as [|b s]; [done|]. pose proof Hz as [Hb _]%Forall_cons.
  change (head ((b :: s) ++ [0])) with (Some b). cbn [mbind option_bind].
  rewrite (proj2 (Z.eqb_neq b 0)) by done.
  destruct (find_slash_spec b s Hz Hs) as (name & r & -> & -> & Hr & Hrs & Hrl). cbn [resolve_components].
  destruct (negb _); [done|]. rewrite ext2_find_tail. destruct (ext2_find _ _ _) as [[nd|]|]; [|done|done].
  cbn [mbind option_bind]. destruct (skip_slashes_spec r Hr) as (r' & -> & <- & H1 & H2 & H3). apply IH; [done|done|].
  cbn in Hl. lia.
Qed.

(** ** The copy *)

Section Path.
Context (hh : Z) (entries : list MemmapEntry) (P : platform hh entries) (rt : Z).

(** User memory holds the string [s] and its terminator at [path]. *)
Record user_string (k : Kernel) (M : gmap Z Z) (path : Z) (s : bytes) : Prop := {
  ust_first : PRIVATE_BASE <= path;
  ust_top : path + Z.of_nat (length s) + 1 <= 2 ^ 47;
  ust_mapped : mapped M path (Z.of_nat (length s) + 1);
  ust_bytes : ∀ i, 0 <= i <= Z.of_nat (length s) →
    user_load (rt * 4096) (path + i) (phys (vm k)) = Some (nth (Z.to_nat i) (s ++ [0]) 0);
  ust_zero : no_zero s
}.

Lemma copy_user_loop_ok k A T M path s n : ∀ i out,
  runs_in hh entries rt k A T M → user_string k M path s → 0 <= i <= Z.of_nat (length s) →
  (length s - Z.to_nat i < n)%nat →
  copy_user_loop hh n (path + i) out (vm k) = Some (true, out ++ drop (Z.to_nat i) (s ++ [0])).
Proof using P.
  induction n as [|n IH]; intros i out Hr Hs Hi Hn; [lia|]. cbn [copy_user_loop].
  pose proof Hs as [H1 H2 H3 H4 H5]. unfold PRIVATE_BASE, PAGE_SIZE, FRAME_SIZE in *.
  rewrite (good_buffer_ok _ _ P rt k A T M (path + i) 1 Hr).
  2: { split; [unfold PRIVATE_BASE, PAGE_SIZE, FRAME_SIZE; lia|lia|lia|]. intros a Ha. apply H3. lia. }
  cbn [mbind option_bind negb]. rewrite (ri_cr3 _ _ _ _ _ _ _ Hr), H4 by done. cbn [mbind option_bind].
  assert (drop (Z.to_nat i) (s ++ [0]) = nth (Z.to_nat i) (s ++ [0]) 0 :: drop (S (Z.to_nat i)) (s ++ [0])) as Ed.
  { rewrite nth_lookup. destruct ((s ++ [0]) !! Z.to_nat i) as [x|] eqn:E; [by apply drop_S|].
    apply lookup_ge_None in E. rewrite length_app in E. cbn in E. lia. }
  rewrite Ed. set (b := nth (Z.to_nat i) (s ++ [0]) 0) in *. destruct (decide (i = Z.of_nat (length s))) as [->|Hne].
  - subst b. rewrite Nat2Z.id, app_nth2, Nat.sub_diag by lia. cbn [nth Z.eqb].
    rewrite drop_ge by (rewrite length_app; cbn; lia). done.
  - assert (b ≠ 0) as Hb.
    { subst b. rewrite app_nth1, nth_lookup by lia. destruct (s !! Z.to_nat i) as [x|] eqn:E; [|apply lookup_ge_None in E; lia].
      by apply (Forall_lookup_1 _ _ _ _ H5 E). }
    rewrite (proj2 (Z.eqb_neq b 0)) by done. change (2 ^ 47) with 140737488355328 in *. rewrite u64_id by word_lia.
    rewrite <- Z.add_assoc, IH by (done || lia). rewrite <- app_assoc. do 3 f_equal.
    replace (Z.to_nat (i + 1)) with (S (Z.to_nat i)) by lia. done.
Qed.

(** C33: For every path of fewer than 255 bytes in user memory, [resolve_path] does what the path
    means: it follows the components, the parts between slashes that are not empty, from the root
    directory, one lookup each, and yields the node only when it is a file. *)
Theorem resolve_path_components ramdisk k A T M path s :
  runs_in hh entries rt k A T M → user_string k M path s → (length s < 255)%nat →
  resolve_path hh ramdisk path k =
    match components s with
    | [] => Some (None, k)
    | cs =>
        '(fs, k) ← filesystem ramdisk k;
        dir ← root fs;
        found ← resolve_components fs dir cs;
        Some (found ≫= λ node, if is_file (n_data node) then Some node else None, k)
    end.
Proof using P.
  intros Hr Hs Hl. pose proof (ust_first _ _ _ _ Hs) as H1. unfold PRIVATE_BASE, PAGE_SIZE, FRAME_SIZE in H1.
  unfold resolve_path, copy_user_string. rewrite (proj2 (Z.eqb_neq path 0)) by lia. cbn [MAX_PATH Z.eqb orb].
  pose proof (copy_user_loop_ok k A T M path s (Z.to_nat (MAX_PATH - 1)) 0 [] Hr Hs) as E.
  rewrite Z.add_0_r in E. rewrite E by (unfold MAX_PATH; lia). cbn [mbind option_bind negb app]. rewrite drop_0.
  destruct (skip_slashes_spec s (ust_zero _ _ _ _ Hs)) as (s' & -> & <- & Hz & Hns & Hl').
  destruct s' as [|b s']; [done|]. pose proof Hz as [Hb _]%Forall_cons.
  change (head ((b :: s') ++ [0])) with (Some b). cbn [mbind option_bind]. rewrite (proj2 (Z.eqb_neq b 0)) by done.
  destruct (components_cons b s' Hns) as (n & l & Ec). rewrite Ec, <- Ec.
  destruct (filesystem ramdisk k) as [[fs k']|]; [|done]. cbn [mbind option_bind]. destruct (root fs) as [dir|]; [|done].
  cbn [mbind option_bind]. rewrite resolve_loop_components by (done || (rewrite length_app; cbn; lia)).
  destruct (resolve_components _ _ _) as [[nd|]|]; done.
Qed.

End Path.

(** ** Witness: the empty path, and [/init] on a disk that is mounted *)

(** Mounted on a disk of zeros with the directory [demo_dir] as its root. *)
Definition demo_fs : Ext2 := mkExt2 (RamDisk demo_disk_file) (Some (demo_dir 36)) 1024 16 4 128 1 [3] 16 [].
Definition slash_init : bytes := [47; 47; 105; 110; 105; 116; 47].

Lemma demo_string : ∃ s A T M, aspace demo_hhdm big_map low_page 65536 s A T M ∧ is_Some (M !! 1024)
  ∧ ∀ ps, user_string 65536 ((demo_kernel s ps) .[ root_fs := Some demo_fs ]) M 4194304 slash_init.
Proof.
  destruct demo_machine as (s & A & T & M & S0 & _ & HM & _).
  assert (mapped M 4194304 8) as Hm by (intros a Ha; replace (a / 4096) with 1024 by word_lia; exact HM).
  destruct (user_stores_ok _ _ big_platform 65536 T M (slash_init ++ [0]) s A 4194304 S0) as (s' & _ & S' & O & _);
    [done|done|exact Hm|by repeat (constructor; [done|])|].
  exists s', A, T, M. split; [exact S'|]. split; [exact HM|]. intros ps. split; [done|done|exact Hm| |].
  - intros i Hi. change (Z.of_nat (length slash_init)) with 7 in Hi.
    transitivity (user_load (65536 * 4096) (4194304 + i) s'); [done|].
    rewrite (O (4194304 + i)) by (unfold low_addr; change (2 ^ 47) with 140737488355328; lia).
    change (Z.of_nat (length (slash_init ++ [0]))) with 8. rewrite decide_True by lia.
    by replace (4194304 + i - 4194304) with i by lia.
  - by repeat (constructor; [done|]).
Qed.

(** The two leading slashes and the trailing one do not count. *)
Lemma resolve_path_components_witness : ∃ k, resolve_path demo_hhdm (RamDisk demo_disk_file) 4194304 k
  = (found ← ext2_find demo_fs (demo_dir 36) [105; 110; 105; 116; 0];
     Some (found ≫= λ node, if is_file (n_data node) then Some node else None, k)).
Proof.
  destruct demo_string as (s & A & T & M & S0 & _ & Hs). exists ((demo_kernel s []) .[ root_fs := Some demo_fs ]).
  etransitivity; [apply (resolve_path_components demo_hhdm big_map big_platform 65536 _ _ A T M 4194304 slash_init);
    [by split|apply Hs|cbn; lia]|].
  change (components slash_init) with [[105; 110; 105; 116]]. cbn [filesystem root_fs set_field mbind option_bind root demo_fs resolve_components app].
  change (is_dir (n_data (demo_dir 36))) with true. cbn [negb].
  destruct (ext2_find demo_fs (demo_dir 36) [105; 110; 105; 116; 0]) as [[nd|]|]; done.
Defined.
