(* ===== verification/SyscallProc.v ===== *)
(** * Processes and semaphores ([syscall.cc])

    The process tree and the table of semaphores are shared by all processes.
    [sys_step] is one system call (or the rest of one that waited) by any of them,
    on any address space; the file proves what holds after every sequence of
    such steps. *)

From stdpp Require Import gmap.
From S2P Require Import Prelude Sync PhysMem BlockIO Ext2 PageTable AddrSpace Vme Vmm UserMem Elf Syscall SyscallFiles SyscallPath.

(** The state a call leaves behind. *)
Definition kernel_of (r : Result) : Kernel :=
  match r with Return _ k | Waits _ k | Forked _ k _ _ _ | Stopped k => k end.

Section Steps.
Context (hh : Z) (memmap : option (list MemmapEntry)) (ramdisk : BlockIO).

(** Another thread runs: its address space and process replace the last one's.
    Its shared part of [vm] is not used by the theorems here. *)
Definition on_thread (v : Vmm) (cur : option nat) (k : Kernel) : Kernel := k .[ vm := v ] .[ current_process := cur ].

Inductive sys_step : Kernel → Kernel → Prop :=
| step_call v cur frame k r :
    (match cur with Some i => (i < length (processes k))%nat | None => True end) →
    syscallHandler hh memmap ramdisk frame (on_thread v cur k) = Some r → sys_step k (kernel_of r)
| step_resume v cur w k r : resume hh w (on_thread v cur k) = Some r → sys_step k (kernel_of r).

(** ** What a call keeps

    The tree of the processes that exist, and of each process what only grows. *)

Record later_process (p p' : Process) : Prop := {
  lp_pid : pid p' = pid p;
  lp_parent : parent p' = parent p;
  lp_children : children p' = children p;
  lp_waited : waited p = true → waited p' = true
}.
Record later_sem (s s' : Semaphore) : Prop := {
  ls_id : sem_id s' = sem_id s;
  ls_key : sem_key s' = sem_key s;
  ls_removed : KernelSemaphore.removed (sem s) = true → KernelSemaphore.removed (sem s') = true
}.

#[export] Instance later_process_refl : Reflexive later_process.
Proof. by split. Qed.
#[export] Instance later_process_trans : Transitive later_process.
Proof. intros p q r [] []. split; try congruence. auto. Qed.
#[export] Instance later_sem_refl : Reflexive later_sem.
Proof. by split. Qed.
#[export] Instance later_sem_trans : Transitive later_sem.
Proof. intros p q r [] []. split; try congruence. auto. Qed.

(** No process and no semaphore is created. *)
Record keeps (k k' : Kernel) : Prop := {
  kp_processes : Forall2 later_process (processes k) (processes k');
  kp_next_pid : next_pid k' = next_pid k;
  kp_semaphores : Forall2 later_sem (semaphores k) (semaphores k');
  kp_next_semid : next_semid k' = next_semid k
}.

#[export] Instance keeps_refl : Reflexive keeps.
Proof. by split. Qed.
#[export] Instance keeps_trans : Transitive keeps.
Proof. intros k1 k2 k3 [] []. split; try congruence; by etrans. Qed.

Lemma keeps_same k k' :
  processes k' = processes k → next_pid k' = next_pid k → semaphores k' = semaphores k → next_semid k' = next_semid k →
  keeps k k'.
Proof using. intros E1 E2 E3 E4. split; [by rewrite E1|done|by rewrite E3|done]. Qed.

Lemma keeps_set_process i p p' k : processes k !! i = Some p → later_process p p' → keeps k (set_process i p' k).
Proof using.
  intros Hp L. split; [|done|done|done]. cbn.
  rewrite <- (list_insert_id (processes k) i p) at 1 by done. by apply Forall2_insert.
Qed.

Lemma keeps_set_sem i s s' k : semaphores k !! i = Some s → later_sem s s' → keeps k (set_sem i s' k).
Proof using.
  intros Hs L. split; [done|done| |done]. cbn.
  rewrite <- (list_insert_id (semaphores k) i s) at 1 by done. by apply Forall2_insert.
Qed.

Lemma ksem_run_removed op st o :
  KernelSemaphore.ksem_run op st = Some o → KernelSemaphore.removed st = true →
  match o with Sched.Done st' _ _ | Sched.Blocks st' _ | Sched.Continues st' _ => KernelSemaphore.removed st' = true end.
Proof using.
  intros E Hr. destruct op; cbn in E; unfold KernelSemaphore.semaphore_op, KernelSemaphore.wait_zero, KernelSemaphore.wait_dec in E;
    rewrite ?Hr in E; repeat case_match; simplify_eq; try done.
Qed.

(** Splitting the conditions and binds of a call that returned [Some]. *)
Ltac split_call H :=
  repeat lazymatch type of H with
  | (_ ≫= _) = Some _ => apply bind_Some in H as (? & ? & H)
  | (if ?b then _ else _) = Some _ => destruct b eqn:?
  | (let '(_, _) := ?x in _) = Some _ => destruct x
  | (match ?x with _ => _ end) = Some _ => destruct x eqn:?
  end.
Ltac end_call :=
  try match goal with H : ret _ _ = Some _ |- _ => injection H as <- | H : Some _ = Some _ |- _ => injection H as <- end;
  cbn [kernel_of].

Lemma keeps_set_phys s k : keeps k (set_phys s k).
Proof using. by apply keeps_same. Qed.

(** Writing a process leaves the list as long as it was, whatever else changed. *)
Lemma keeps_process i p p' k k' :
  processes k !! i = Some p → later_process p p' → keeps k k' → processes k' = processes k → keeps k (set_process i p' k').
Proof using.
  intros Hp L K E. etrans; [exact K|]. apply (keeps_set_process i p); [by rewrite E|done].
Qed.

Ltac close_keeps :=
  try done; try (apply keeps_set_phys);
  try (eapply keeps_process; [eassumption|by split|by apply keeps_same|done]).

Lemma sys_read_keeps proc frame k r : sys_read hh proc frame k = Some r → keeps k (kernel_of r).
Proof using. intros E. unfold sys_read in E. cbn zeta in E. split_call E; simplify_eq; end_call; close_keeps. Qed.

Lemma sys_write_keeps frame k r : sys_write hh frame k = Some r → keeps k (kernel_of r).
Proof using. intros E. unfold sys_write in E. cbn zeta in E. split_call E; simplify_eq; end_call; close_keeps. Qed.

Lemma filesystem_keeps k fs k' : filesystem ramdisk k = Some (fs, k') → keeps k k' ∧ processes k' = processes k.
Proof using. intros E. unfold filesystem in E. split_call E; simplify_eq; [done|]. split; [by apply keeps_same|done]. Qed.

Lemma resolve_path_keeps path k nd k' :
  resolve_path hh ramdisk path k = Some (nd, k') → keeps k k' ∧ processes k' = processes k.
Proof using.
  intros E. unfold resolve_path in E. split_call E; simplify_eq; try done;
    match goal with H : filesystem _ _ = _ |- _ => by apply filesystem_keeps in H end.
Qed.

Lemma alloc_fd_keeps proc nd k fd k' : alloc_fd proc nd k = Some (fd, k') → keeps k k'.
Proof using. intros E. unfold alloc_fd in E. split_call E; simplify_eq; [done|]. close_keeps. Qed.

Lemma sys_open_keeps proc frame k r : sys_open hh ramdisk proc frame k = Some r → keeps k (kernel_of r).
Proof using.
  intros E. unfold sys_open in E. apply bind_Some in E as ([found k1] & H1 & E). apply resolve_path_keeps in H1 as [K1 _].
  destruct found as [nd|]; [|by end_call]. apply bind_Some in E as ([fd k2] & H2 & E). apply alloc_fd_keeps in H2.
  end_call. by etrans.
Qed.

Lemma sys_close_keeps proc frame k r : sys_close proc frame k = Some r → keeps k (kernel_of r).
Proof using. intros E. unfold sys_close in E. cbn zeta in E. split_call E; simplify_eq; end_call; close_keeps. Qed.

Lemma sys_lseek_keeps proc frame k r : sys_lseek proc frame k = Some r → keeps k (kernel_of r).
Proof using. intros E. unfold sys_lseek in E. cbn zeta in E. split_call E; simplify_eq; end_call; close_keeps. Qed.

Lemma sys_brk_keeps proc frame k r : sys_brk hh proc frame k = Some r → keeps k (kernel_of r).
Proof using. intros E. unfold sys_brk in E. cbn zeta in E. split_call E; simplify_eq; end_call; close_keeps. Qed.

Lemma thread_stop_keeps k k' : thread_stop hh memmap k = Some k' → keeps k k'.
Proof using.
  intros E. unfold thread_stop in E. cbn zeta in E. split_call E; simplify_eq; [|by apply keeps_same].
  close_keeps.
Qed.

Lemma sys_exit_keeps proc frame k r : sys_exit hh memmap proc frame k = Some r → keeps k (kernel_of r).
Proof using.
  intros E. unfold sys_exit in E. cbn zeta in E. apply bind_Some in E as (p & Hp & E). apply bind_Some in E as (k1 & E1 & E).
  end_call. etrans; [|by eapply thread_stop_keeps]. apply (keeps_set_process proc p); [done|by split].
Qed.

Lemma waitpid_exit_keeps child pid_ status k r : waitpid_exit hh child pid_ status k = Some r → keeps k (kernel_of r).
Proof using.
  intros E. unfold waitpid_exit, waitpid_stopped, waitpid_done in E. split_call E; simplify_eq; end_call; close_keeps.
Qed.
Lemma waitpid_stopped_keeps child pid_ status value k r : waitpid_stopped hh child pid_ status value k = Some r → keeps k (kernel_of r).
Proof using. intros E. unfold waitpid_stopped, waitpid_done in E. split_call E; simplify_eq; end_call; close_keeps. Qed.

Lemma sys_waitpid_keeps proc frame k r : sys_waitpid hh proc frame k = Some r → keeps k (kernel_of r).
Proof using.
  intros E. unfold sys_waitpid in E. cbn zeta in E. split_call E; simplify_eq; try (end_call; done).
  all: apply waitpid_exit_keeps in E; etrans; [|exact E]; by eapply keeps_set_process; [eassumption|split].
Qed.

Lemma semaphore_step_keeps i op k r : semaphore_step i op k = Some r → keeps k (kernel_of r).
Proof using.
  intros E. unfold semaphore_step in E. apply bind_Some in E as (s & Hs & E). apply bind_Some in E as (o & Ho & E).
  pose proof (ksem_run_removed op (sem s) o Ho) as Hr.
  destruct o as [st x n|st o|st o]; [| |done]; end_call; apply (keeps_set_sem i s); try done; by split.
Qed.

Lemma sys_semop_keeps frame k r : sys_semop hh frame k = Some r → keeps k (kernel_of r).
Proof using.
  intros E. unfold sys_semop in E. cbn zeta in E. split_call E; simplify_eq; try (end_call; done).
  by apply semaphore_step_keeps in E.
Qed.
Lemma sys_semctl_keeps frame k r : sys_semctl frame k = Some r → keeps k (kernel_of r).
Proof using.
  intros E. unfold sys_semctl in E. cbn zeta in E. split_call E; simplify_eq; try (end_call; done).
  by apply semaphore_step_keeps in E.
Qed.

(** ** What the other calls add *)

(** A new process at the end, the first child of its parent. *)
Inductive adds_process (k k' : Kernel) : Prop :=
| adds_process_intro proc p c :
    processes k !! proc = Some p →
    pid c = next_pid k → parent c = Some proc → children c = [] → waited c = false →
    processes k' = <[proc := p .[ children := length (processes k) :: children p ]]> (processes k ++ [c]) →
    next_pid k' = i32 (next_pid k + 1) → semaphores k' = semaphores k → next_semid k' = next_semid k → adds_process k k'.

Inductive adds_root (k k' : Kernel) : Prop :=
| adds_root_intro c :
    pid c = 1 → parent c = None → children c = [] → waited c = false → processes k' = processes k ++ [c] →
    next_pid k' = next_pid k → semaphores k' = semaphores k → next_semid k' = next_semid k → adds_root k k'.

Inductive adds_sem (k k' : Kernel) : Prop :=
| adds_sem_intro key :
    (key = 0 ∨ ∀ i s, semaphores k !! i = Some s → sem_key s = key → KernelSemaphore.removed (sem s) = true) →
    semaphores k' = semaphores k ++ [mkSemaphore (next_semid k) key (KernelSemaphore.mkSem 0 false)] →
    next_semid k' = i32 (next_semid k + 1) → processes k' = processes k → next_pid k' = next_pid k → adds_sem k k'.

Lemma sys_fork_adds proc frame k r : sys_fork hh proc frame k = Some r → adds_process k (kernel_of r).
Proof using.
  intros E. unfold sys_fork in E. cbn zeta in E. apply bind_Some in E as (p & Hp & E). apply bind_Some in E as (v & _ & E).
  end_call. by apply (adds_process_intro _ _ proc p (new_process (next_pid k) (Some proc) (brk_min p) (brk_current p) (fds p))).
Qed.

Lemma ensure_process_ok k i k' :
  ensure_process ramdisk k = Some (i, k') →
  (k' = k ∧ current_process k = Some i) ∨ (adds_root k k' ∧ i = length (processes k) ∧ current_process k' = Some i).
Proof using.
  intros E. unfold ensure_process in E. destruct (current_process k) as [j|] eqn:Ec; [injection E as <- <-; by left|].
  apply bind_Some in E as ([fs k1] & H1 & E). pose proof H1 as [K1 Ep]%filesystem_keeps. injection E as <- <-. right.
  destruct K1. assert (semaphores k1 = semaphores k) as Es.
  { unfold filesystem in H1. split_call H1; by simplify_eq. }
  split; [|split; [by rewrite Ep|done]].
  apply (adds_root_intro _ _ (new_process 1 None (initial_brk k1) (initial_brk k1) (replicate (Z.to_nat MAX_FDS) no_file)));
    try done. cbn. by rewrite Ep.
Qed.

Lemma newest_None test l n : (n <= length l)%nat → newest test n l = None → ∀ i s, (i < n)%nat → l !! i = Some s → test s = false.
Proof using.
  induction n as [|n IH]; intros Hn H i s Hi Hs; [lia|]. cbn [newest] in H.
  destruct (lookup_lt_is_Some_2 l n) as [x Hx]; [lia|]. rewrite Hx in H. destruct (test x) eqn:E; [done|].
  destruct (decide (i = n)) as [->|]; [congruence|]. apply (IH ltac:(lia) H i s); [lia|done].
Qed.
Lemma newest_Some test l n i : newest test n l = Some i → ∃ s, l !! i = Some s ∧ test s = true.
Proof using.
  induction n as [|n IH]; intros H; [done|]. cbn [newest] in H. destruct (l !! n) as [x|] eqn:Hx; [|done].
  destruct (test x) eqn:E; [|by apply IH]. injection H as <-. by exists x.
Qed.

Lemma sys_semget_adds frame k r : sys_semget frame k = Some r → keeps k (kernel_of r) ∨ adds_sem k (kernel_of r).
Proof using.
  intros E. unfold sys_semget in E. cbn zeta in E. destruct (negb (i32 (rsi frame) =? 1)); [left; by end_call|].
  destruct (if negb (i32 (rdi frame) =? 0) then _ else _) as [i|] eqn:Hf.
  - left. apply bind_Some in E as (s & _ & E). by end_call.
  - right. end_call. apply (adds_sem_intro _ _ (i32 (rdi frame))); try done.
    destruct (Z.eqb_spec (i32 (rdi frame)) 0) as [|Hne]; [by left|right]. cbn [negb] in Hf. intros i s Hs Hk.
    pose proof (newest_None _ _ _ (le_n _) Hf i s ltac:(by eapply lookup_lt_Some) Hs) as Ht.
    cbn beta in Ht. rewrite Hk, Z.eqb_refl, andb_true_r in Ht. by destruct (KernelSemaphore.removed (sem s)).
Qed.

(** Every step of the system. *)
Inductive effect (k k' : Kernel) : Prop :=
| effect_keeps : keeps k k' → effect k k'
| effect_process : adds_process k k' → effect k k'
| effect_sem : adds_sem k k' → effect k k'.

Lemma call_effect proc frame k r :
  match rax frame with
  | 0 => sys_read hh proc frame k | 1 => sys_write hh frame k | 2 => sys_open hh ramdisk proc frame k
  | 3 => sys_close proc frame k | 8 => sys_lseek proc frame k | 12 => sys_brk hh proc frame k | 24 => ret 0 k
  | 57 => sys_fork hh proc frame k | 60 => sys_exit hh memmap proc frame k | 61 => sys_waitpid hh proc frame k
  | 64 => sys_semget frame k | 65 => sys_semop hh frame k | 66 => sys_semctl frame k | _ => None
  end = Some r → effect k (kernel_of r).
Proof using.
  intros E. repeat case_match; try done;
    try (apply effect_keeps; first
      [by eapply sys_read_keeps|by eapply sys_write_keeps|by eapply sys_open_keeps|by eapply sys_close_keeps
      |by eapply sys_lseek_keeps|by eapply sys_brk_keeps|by eapply sys_exit_keeps|by eapply sys_waitpid_keeps
      |by eapply sys_semop_keeps|by eapply sys_semctl_keeps|by end_call]);
    try (apply effect_process; by eapply sys_fork_adds).
  destruct (sys_semget_adds _ _ _ E); [by apply effect_keeps|by apply effect_sem].
Qed.

Lemma on_thread_keeps v cur k : keeps k (on_thread v cur k).
Proof using. by apply keeps_same. Qed.

(** A step is a first call of a new root process, an effect, or both. *)
Lemma sys_step_effect k k' :
  sys_step k k' → ∃ k0 k1, keeps k k0 ∧ processes k0 = processes k ∧ semaphores k0 = semaphores k
    ∧ (k1 = k0 ∨ adds_root k0 k1) ∧ effect k1 k'.
Proof using.
  intros [v cur frame k0 r _ E|v cur w k0 r E]; exists (on_thread v cur k0).
  - unfold syscallHandler in E. apply bind_Some in E as ([proc k1] & E1 & E). exists k1.
    split_and!; [apply on_thread_keeps|done|done| |by eapply call_effect].
    destruct (ensure_process_ok _ _ _ E1) as [[-> _]|(H & _ & _)]; [by left|by right].
  - exists (on_thread v cur k0). split_and!; [apply on_thread_keeps|done|done|by left|]. apply effect_keeps.
    destruct w; cbn [resume] in E; [by eapply waitpid_exit_keeps|by eapply waitpid_stopped_keeps|by eapply semaphore_step_keeps].
Qed.

(** ** The tables in every reachable state *)

Record tables_ok (k : Kernel) : Prop := {
  tk_next : 2 <= next_pid k <= 2 + Z.of_nat (length (processes k));
  tk_pid : ∀ i p, processes k !! i = Some p →
    match parent p with None => pid p = 1 | Some j => 2 <= pid p < next_pid k ∧ (j < i)%nat end;
  tk_unique : ∀ i j p q, processes k !! i = Some p → processes k !! j = Some q → parent p ≠ None → pid p = pid q → i = j;
  tk_children : ∀ i p c, processes k !! i = Some p →
    c ∈ children p ↔ ∃ q, processes k !! c = Some q ∧ parent q = Some i;
  tk_nodup : ∀ i p, processes k !! i = Some p → NoDup (children p);
  tk_semid : 1 <= next_semid k <= 1 + Z.of_nat (length (semaphores k));
  tk_sem : ∀ i s, semaphores k !! i = Some s → 1 <= sem_id s < next_semid k;
  tk_sem_unique : ∀ i j s t, semaphores k !! i = Some s → semaphores k !! j = Some t → sem_id s = sem_id t → i = j;
  tk_key : ∀ i j s t, semaphores k !! i = Some s → semaphores k !! j = Some t → sem_key s = sem_key t → sem_key s ≠ 0 →
    KernelSemaphore.removed (sem s) = false → KernelSemaphore.removed (sem t) = false → i = j
}.

(** Before the first system call. *)
Definition booted (k : Kernel) : Prop :=
  processes k = [] ∧ next_pid k = 2 ∧ semaphores k = [] ∧ next_semid k = 1.

Lemma booted_ok k : booted k → tables_ok k.
Proof using. intros (E1 & E2 & E3 & E4). split; rewrite ?E1, ?E2, ?E3, ?E4; try done; intros; set_solver. Qed.

(** The processes of a later state that exist in the earlier one. *)
Lemma keeps_process_at k k' i p' : keeps k k' → processes k' !! i = Some p' → ∃ p, processes k !! i = Some p ∧ later_process p p'.
Proof using. intros K Hp. destruct (Forall2_lookup_r _ _ _ _ _ (kp_processes _ _ K) Hp) as (p & ? & ?). by exists p. Qed.
Lemma keeps_process_to k k' i p : keeps k k' → processes k !! i = Some p → ∃ p', processes k' !! i = Some p' ∧ later_process p p'.
Proof using. intros K Hp. destruct (Forall2_lookup_l _ _ _ _ _ (kp_processes _ _ K) Hp) as (p' & ? & ?). by exists p'. Qed.
Lemma keeps_sem_at k k' i s' : keeps k k' → semaphores k' !! i = Some s' → ∃ s, semaphores k !! i = Some s ∧ later_sem s s'.
Proof using. intros K Hs. destruct (Forall2_lookup_r _ _ _ _ _ (kp_semaphores _ _ K) Hs) as (s & ? & ?). by exists s. Qed.

Lemma later_sem_live s s' : later_sem s s' → KernelSemaphore.removed (sem s') = false → KernelSemaphore.removed (sem s) = false.
Proof using. intros [_ _ H] E. destruct (KernelSemaphore.removed (sem s)); [by rewrite H in E|done]. Qed.

Lemma keeps_ok k k' : keeps k k' → tables_ok k → tables_ok k'.
Proof using.
  intros K [H1 H2 H3 H4 H5 H6 H7 H8 H9]. split.
  - rewrite (kp_next_pid _ _ K). by rewrite <- (Forall2_length _ _ _ (kp_processes _ _ K)).
  - intros i p' Hp'. destruct (keeps_process_at _ _ _ _ K Hp') as (p & Hp & [-> -> _ _]). rewrite (kp_next_pid _ _ K). by apply H2.
  - intros i j p' q' Hp' Hq'. destruct (keeps_process_at _ _ _ _ K Hp') as (p & Hp & [-> -> _ _]).
    destruct (keeps_process_at _ _ _ _ K Hq') as (q & Hq & [-> _ _ _]). by apply H3.
  - intros i p' c Hp'. destruct (keeps_process_at _ _ _ _ K Hp') as (p & Hp & [_ _ -> _]). rewrite (H4 i p c Hp). split.
    + intros (q & Hq & Hpq). destruct (keeps_process_to _ _ _ _ K Hq) as (q' & Hq' & L). exists q'. split; [done|]. by rewrite (lp_parent _ _ L).
    + intros (q' & Hq' & Hpq). destruct (keeps_process_at _ _ _ _ K Hq') as (q & Hq & L). exists q. split; [done|]. by rewrite <- (lp_parent _ _ L).
  - intros i p' Hp'. destruct (keeps_process_at _ _ _ _ K Hp') as (p & Hp & [_ _ -> _]). by eapply H5.
  - rewrite (kp_next_semid _ _ K). by rewrite <- (Forall2_length _ _ _ (kp_semaphores _ _ K)).
  - intros i s' Hs'. destruct (keeps_sem_at _ _ _ _ K Hs') as (s & Hs & [-> _ _]). rewrite (kp_next_semid _ _ K). by eapply H7.
  - intros i j s' t' Hs' Ht'. destruct (keeps_sem_at _ _ _ _ K Hs') as (s & Hs & [-> _ _]).
    destruct (keeps_sem_at _ _ _ _ K Ht') as (t & Ht & [-> _ _]). by apply H8.
  - intros i j s' t' Hs' Ht'. destruct (keeps_sem_at _ _ _ _ K Hs') as (s & Hs & Ls).
    destruct (keeps_sem_at _ _ _ _ K Ht') as (t & Ht & Lt). rewrite (ls_key _ _ Ls), (ls_key _ _ Lt). intros Hk Hk0 Rs Rt.
    eapply H9; try eassumption; by eapply later_sem_live.
Qed.

Lemma adds_root_ok k k' : adds_root k k' → tables_ok k → tables_ok k'.
Proof using.
  intros [c Hpid Hpar Hch _ Ep En Es Em] [H1 H2 H3 H4 H5 H6 H7 H8 H9].
  assert (∀ i p, processes k' !! i = Some p → processes k !! i = Some p ∨ (i = length (processes k) ∧ p = c)) as Hold.
  { intros i p Hp. rewrite Ep in Hp. apply lookup_app_Some in Hp as [?|[Hge Hp]]; [by left|right].
    apply list_lookup_singleton_Some in Hp as [? ->]. split; [lia|done]. }
  assert (∀ i p, processes k !! i = Some p → processes k' !! i = Some p) as Hnew.
  { intros i p Hp. rewrite Ep. by apply lookup_app_l_Some. }
  split; rewrite ?Es, ?Em; try done.
  - rewrite En, Ep, length_app. cbn. lia.
  - intros i p [Hp|[-> ->]]%Hold; [rewrite En; by apply H2|by rewrite Hpar].
  - intros i j p q [Hp|[-> ->]]%Hold [Hq|[-> ->]]%Hold; [by apply H3|..|done|done].
    intros Hne E. pose proof (H2 i p Hp) as H. destruct (parent p); [lia|done].
  - intros i p x [Hp|[-> ->]]%Hold.
    + rewrite (H4 i p x Hp). split; intros (q & Hq & Hpq); exists q; (split; [|done]); [by apply Hnew|].
      apply Hold in Hq as [?|[-> ->]]; [done|congruence].
    + rewrite Hch. split; [by intros ?%not_elem_of_nil|]. intros (q & [Hq|[-> ->]]%Hold & Hpq); [|congruence].
      pose proof (H2 x q Hq) as H. rewrite Hpq in H. apply lookup_lt_Some in Hq. lia.
  - intros i p [Hp|[-> ->]]%Hold; [by eapply H5|rewrite Hch; by apply NoDup_nil_2].
Qed.

(** The processes after a fork: the new one, and the old ones with it in front of
    its parent's children. *)
Lemma adds_process_at proc p c l i q :
  l !! proc = Some p →
  <[proc := p .[ children := length l :: children p ]]> (l ++ [c]) !! i = Some q →
  (i = length l ∧ q = c) ∨
  ∃ q0, l !! i = Some q0 ∧ pid q = pid q0 ∧ parent q = parent q0 ∧ waited q = waited q0
    ∧ children q = if decide (i = proc) then length l :: children q0 else children q0.
Proof using.
  intros Hp Hq. apply list_lookup_insert_Some in Hq as [(<- & <- & _)|[Hne Hq]].
  - right. exists p. by rewrite decide_True.
  - apply lookup_app_Some in Hq as [Hq|[Hge Hq]].
    + right. exists q. by rewrite decide_False by congruence.
    + left. apply list_lookup_singleton_Some in Hq as [? ->]. split; [lia|done].
Qed.

Lemma adds_process_to proc p c l i q0 :
  l !! proc = Some p → l !! i = Some q0 →
  ∃ q, <[proc := p .[ children := length l :: children p ]]> (l ++ [c]) !! i = Some q
    ∧ pid q = pid q0 ∧ parent q = parent q0 ∧ (waited q0 = true → waited q = true).
Proof using.
  intros Hp Hq. assert ((l ++ [c]) !! i = Some q0) as H by (by apply lookup_app_l_Some).
  destruct (decide (proc = i)) as [->|Hne].
  - eexists. split; [apply list_lookup_insert_eq; by apply lookup_lt_Some in H|]. assert (p = q0) as -> by congruence. done.
  - exists q0. by rewrite list_lookup_insert_ne.
Qed.

Lemma adds_process_ok k k' :
  adds_process k k' → Z.of_nat (length (processes k)) < 2 ^ 31 - 4 → tables_ok k → tables_ok k'.
Proof using.
  intros [proc p c Hp Hcp Hpar Hch _ Ep En Es Em] Hlt [H1 H2 H3 H4 H5 H6 H7 H8 H9].
  assert (2 ^ 31 = 2147483648) as E31 by reflexivity. rewrite E31 in Hlt. rewrite i32_id in En by lia.
  assert (∀ i q, processes k' !! i = Some q → _) as Hold by (intros i q Hq; rewrite Ep in Hq; exact (adds_process_at proc p c _ i q Hp Hq)).
  assert (∀ i q0, processes k !! i = Some q0 → _) as Hnew by (intros i q0 Hq; exact (adds_process_to proc p c _ i q0 Hp Hq)).
  cbn beta in Hold, Hnew. rewrite <- Ep in Hnew. pose proof (lookup_lt_Some _ _ _ Hp) as Hlp.
  assert (processes k' !! length (processes k) = Some c) as Hc.
  { rewrite Ep, list_lookup_insert_ne by lia. by apply list_lookup_middle. }
  split; rewrite ?Es, ?Em; try done.
  - rewrite En, Ep, length_insert, length_app. cbn. lia.
  - intros i q [[-> ->]|(q0 & Hq0 & -> & -> & _)]%Hold; rewrite En.
    + rewrite Hpar, Hcp. lia.
    + pose proof (H2 i q0 Hq0) as H. destruct (parent q0); [lia|done].
  - intros i j q r [[-> ->]|(q0 & Hq0 & -> & -> & _)]%Hold [[-> ->]|(r0 & Hr0 & -> & _)]%Hold; [done|..|by apply H3].
    + intros _ E. rewrite Hcp in E. pose proof (H2 j r0 Hr0) as H. destruct (parent r0); lia.
    + intros Hne E. rewrite Hcp in E. pose proof (H2 i q0 Hq0) as H. destruct (parent q0); [lia|done].
  - intros i q x [[-> ->]|(q0 & Hq0 & _ & _ & _ & ->)]%Hold.
    + rewrite Hch. split; [by intros ?%not_elem_of_nil|]. intros (y & [[-> ->]|(y0 & Hy0 & _ & -> & _)]%Hold & Hpy).
      * rewrite Hpar in Hpy. injection Hpy as ->. lia.
      * pose proof (H2 x y0 Hy0) as H. rewrite Hpy in H. apply lookup_lt_Some in Hy0. lia.
    + transitivity (x ∈ children q0 ∨ (x = length (processes k) ∧ i = proc)).
      { case_decide; [rewrite elem_of_cons; tauto|]. split; [by left|]. intros [?|[_ ?]]; done. }
      rewrite (H4 i q0 x Hq0). split.
      * intros [(y0 & Hy0 & Hpy)|[-> ->]]; [|by exists c].
        destruct (Hnew x y0 Hy0) as (y & Hy & _ & E & _). exists y. split; [done|by rewrite E].
      * intros (y & [[-> ->]|(y0 & Hy0 & _ & E & _)]%Hold & Hpy); [right; split; [done|congruence]|left].
        exists y0. split; [done|by rewrite <- E].
  - intros i q [[-> ->]|(q0 & Hq0 & _ & _ & _ & ->)]%Hold; [rewrite Hch; by apply NoDup_nil_2|].
    case_decide as Hi; [|by eapply H5]. apply NoDup_cons. split; [|by eapply H5].
    rewrite (H4 i q0 _ Hq0). intros (y & Hy & _). apply lookup_lt_Some in Hy. lia.
Qed.

Lemma adds_sem_ok k k' :
  adds_sem k k' → Z.of_nat (length (semaphores k)) < 2 ^ 31 - 4 → tables_ok k → tables_ok k'.
Proof using.
  intros [key Hkey Es Em Ep En] Hlt [H1 H2 H3 H4 H5 H6 H7 H8 H9].
  assert (2 ^ 31 = 2147483648) as E31 by reflexivity. rewrite E31 in Hlt. rewrite i32_id in Em by lia.
  set (c := mkSemaphore _ _ _) in Es.
  assert (∀ i s, semaphores k' !! i = Some s → semaphores k !! i = Some s ∨ (i = length (semaphores k) ∧ s = c)) as Hold.
  { intros i s Hs. rewrite Es in Hs. apply lookup_app_Some in Hs as [?|[Hge Hs]]; [by left|right].
    apply list_lookup_singleton_Some in Hs as [? ->]. split; [lia|done]. }
  split; rewrite ?Ep, ?En; try done.
  - rewrite Em, Es, length_app. cbn. lia.
  - intros i s [Hs|[-> ->]]%Hold; rewrite Em; [pose proof (H7 i s Hs); lia|cbn; lia].
  - intros i j s t [Hs|[-> ->]]%Hold [Ht|[-> ->]]%Hold; [by apply H8|..|done]; cbn [sem_id c]; intros E;
      [pose proof (H7 i s Hs)|pose proof (H7 j t Ht)]; lia.
  - intros i j s t [Hs|[-> ->]]%Hold [Ht|[-> ->]]%Hold; [by apply H9|..|done]; cbn [sem_key c]; intros E Hk Rs Rt.
    + destruct Hkey as [->|Hkey]; [congruence|]. by rewrite (Hkey i s Hs E) in Rs.
    + destruct Hkey as [->|Hkey]; [congruence|]. by rewrite (Hkey j t Ht (eq_sym E)) in Rt.
Qed.

(** Fewer than 2^31 processes and semaphores have been created: their numbers do not
    wrap around. *)
Definition few (k : Kernel) : Prop :=
  Z.of_nat (length (processes k)) < 2 ^ 31 - 4 ∧ Z.of_nat (length (semaphores k)) < 2 ^ 31 - 4.

Lemma effect_grows k k' : effect k k' →
  (length (processes k) <= length (processes k'))%nat ∧ (length (semaphores k) <= length (semaphores k'))%nat.
Proof using.
  intros [K|[proc p c _ _ _ _ _ Ep _ Es _]|[key _ Es _ Ep _]].
  - by rewrite (Forall2_length _ _ _ (kp_processes _ _ K)), (Forall2_length _ _ _ (kp_semaphores _ _ K)).
  - rewrite Ep, Es, length_insert, length_app. lia.
  - rewrite Ep, Es, length_app. lia.
Qed.

Lemma sys_step_grows k k' : sys_step k k' → few k' → few k.
Proof using.
  intros (k0 & k1 & K & Ep & Es & Hr & He)%sys_step_effect [F1 F2]. pose proof (effect_grows _ _ He) as [G1 G2].
  unfold few. rewrite <- Ep, <- Es. destruct Hr as [->|[c _ _ _ _ E _ E' _]]; [lia|].
  rewrite E, length_app in G1. rewrite E' in G2. lia.
Qed.

Lemma sys_step_ok k k' : sys_step k k' → few k → few k' → tables_ok k → tables_ok k'.
Proof using.
  intros (k0 & k1 & K & Ep & Es & Hr & He)%sys_step_effect [F1 F2] [F3 F4] T. pose proof (effect_grows _ _ He) as [G1 G2].
  apply (keeps_ok _ _ K) in T.
  assert (tables_ok k1) as T1 by (destruct Hr as [->|H]; [done|by eapply adds_root_ok]).
  assert (few k1) as [F5 F6] by (unfold few; lia).
  destruct He as [H|H|H]; [by eapply keeps_ok|by apply (adds_process_ok _ _ H)|by apply (adds_sem_ok _ _ H)].
Qed.

Lemma reachable_few k k' : rtc sys_step k k' → few k' → few k.
Proof using. induction 1 as [k|k k1 k2 H _ IH]; intros F; [done|]. by eapply sys_step_grows, IH. Qed.

Lemma reachable_ok k k' : rtc sys_step k k' → few k' → tables_ok k → tables_ok k'.
Proof using.
  induction 1 as [k|k k1 k2 H HS IH]; intros F T; [done|]. pose proof (reachable_few _ _ HS F) as F1.
  apply IH; [done|]. apply (sys_step_ok _ _ H); [by eapply sys_step_grows|done|done].
Qed.

(** ** What a later state still knows *)

(** A process keeps its number and parent, and stays waited for; a semaphore keeps
    its number and key, and stays removed. *)
Record later (k k' : Kernel) : Prop := {
  lt_process : ∀ i p, processes k !! i = Some p →
    ∃ p', processes k' !! i = Some p' ∧ pid p' = pid p ∧ parent p' = parent p ∧ (waited p = true → waited p' = true);
  lt_sem : ∀ i s, semaphores k !! i = Some s → ∃ s', semaphores k' !! i = Some s' ∧ later_sem s s'
}.

#[export] Instance later_refl : Reflexive later.
Proof. intros k. split; [intros i p Hp; by exists p|intros i s Hs; by exists s]. Qed.
#[export] Instance later_trans : Transitive later.
Proof.
  intros k1 k2 k3 [H1 H2] [H3 H4]. split.
  - intros i p Hp. destruct (H1 i p Hp) as (p' & Hp' & <- & <- & Hw). destruct (H3 i p' Hp') as (q & ? & ? & ? & ?).
    exists q. split_and!; [done..|by auto].
  - intros i s Hs. destruct (H2 i s Hs) as (s' & Hs' & L). destruct (H4 i s' Hs') as (t & ? & L'). exists t.
    split; [done|by etrans].
Qed.

Lemma keeps_later k k' : keeps k k' → later k k'.
Proof using.
  intros K. split.
  - intros i p Hp. destruct (keeps_process_to _ _ _ _ K Hp) as (p' & ? & []). by exists p'.
  - intros i s Hs. destruct (Forall2_lookup_l _ _ _ _ _ (kp_semaphores _ _ K) Hs) as (s' & ? & ?). by exists s'.
Qed.

Lemma adds_root_later k k' : adds_root k k' → later k k'.
Proof using.
  intros [c _ _ _ _ Ep _ Es _]. split.
  - intros i p Hp. exists p. by rewrite Ep, (lookup_app_l_Some _ _ _ _ Hp).
  - intros i s Hs. exists s. by rewrite Es.
Qed.

Lemma effect_later k k' : effect k k' → later k k'.
Proof using.
  intros [K|[proc p c Hp _ _ _ _ Ep _ Es _]|[key _ Es _ Ep _]]; [by apply keeps_later|split..].
  - intros i q Hq. rewrite Ep. destruct (adds_process_to proc p c _ i q Hp Hq) as (q' & ? & ? & ? & ?). by exists q'.
  - intros i s Hs. exists s. by rewrite Es.
  - intros i q Hq. exists q. by rewrite Ep.
  - intros i s Hs. exists s. by rewrite Es, (lookup_app_l_Some _ _ _ _ Hs).
Qed.

Lemma sys_step_later k k' : sys_step k k' → later k k'.
Proof using.
  intros (k0 & k1 & K & _ & _ & Hr & He)%sys_step_effect. etrans; [by apply keeps_later|]. etrans; [|by apply effect_later].
  destruct Hr as [->|H]; [done|by apply adds_root_later].
Qed.

Lemma reachable_later k k' : rtc sys_step k k' → later k k'.
Proof using. induction 1 as [k|k k1 k2 H _ IH]; [done|]. by etrans; [apply sys_step_later|]. Qed.

(** ** Children *)

Lemma find_child_from_ok k pid_ l :
  (∀ c, c ∈ l → is_Some (processes k !! c)) →
  ∃ r, find_child_from l pid_ k = Some r ∧
    match r with
    | Some c => c ∈ l ∧ ∃ q, processes k !! c = Some q ∧ pid q = pid_
    | None => ∀ c q, c ∈ l → processes k !! c = Some q → pid q ≠ pid_
    end.
Proof using.
  induction l as [|i l IH]; intros H; cbn [find_child_from].
  - exists None. split; [done|]. by intros c q ?%not_elem_of_nil.
  - destruct (H i) as [q Hq]; [by left|]. rewrite Hq. cbn [mbind option_bind]. destruct (Z.eqb_spec (pid q) pid_) as [E|Hne].
    + exists (Some i). split; [done|]. split; [by left|]. by exists q.
    + destruct IH as (r & -> & Hr); [intros c Hc; apply H; by right|]. exists r. split; [done|].
      destruct r as [c|]; [destruct Hr as [? ?]; split; [by right|done]|].
      intros c q' [->|Hc]%elem_of_cons Hq'; [congruence|by eapply Hr].
Qed.

Lemma find_child_locked_Some k proc pid_ c :
  tables_ok k → find_child_locked proc pid_ k = Some (Some c) →
  ∃ q, processes k !! c = Some q ∧ pid q = pid_ ∧ parent q = Some proc.
Proof using.
  intros T E. unfold find_child_locked in E. apply bind_Some in E as (p & Hp & E).
  pose proof (λ c, tk_children k T proc p c Hp) as Hch.
  destruct (find_child_from_ok k pid_ (children p)) as (r & E' & Hr).
  { intros x (q & Hq & _)%Hch. by exists q. }
  rewrite E' in E. injection E as ->. destruct Hr as [(q & Hq & Hpar)%Hch (q' & Hq' & Hpid)].
  exists q. split; [done|]. split; [congruence|done].
Qed.

Lemma find_child_locked_ok k proc c q :
  tables_ok k → processes k !! c = Some q → parent q = Some proc → is_Some (processes k !! proc) →
  find_child_locked proc (pid q) k = Some (Some c).
Proof using.
  intros T Hq Hpar [p Hp]. unfold find_child_locked. rewrite Hp. cbn [mbind option_bind].
  pose proof (λ c, tk_children k T proc p c Hp) as Hch.
  destruct (find_child_from_ok k (pid q) (children p)) as (r & -> & Hr).
  { intros x (y & Hy & _)%Hch. by exists y. }
  destruct r as [x|]; [|by destruct (Hr c q); [apply Hch; by exists q|done|]].
  destruct Hr as [(y & Hy & Hpy)%Hch (y' & Hy' & Hpid)]. do 2 f_equal.
  apply (tk_unique k T x c y q Hy Hq); congruence.
Qed.

(** A child that is waited for is never waited for again. *)
Lemma sys_waitpid_waited proc frame k c q ok :
  tables_ok k → processes k !! c = Some q → parent q = Some proc → is_Some (processes k !! proc) → waited q = true →
  pid q = i32 (rdi frame) → user_buffer_ok hh (cr3 (vm k)) (rsi frame) 4 (phys (vm k)) = Some ok →
  sys_waitpid hh proc frame k = Some (Return FAIL k).
Proof using.
  intros T Hq Hpar Hp Hw Hpid Hb. unfold sys_waitpid. cbn zeta. destruct (_ || _); [done|].
  assert (∃ b, (if negb (rsi frame =? 0) then user_buffer_ok hh (cr3 (vm k)) (rsi frame) 4 (phys (vm k)) else Some true) = Some b)
    as [b ->] by (destruct (negb _); eauto).
  cbn [mbind option_bind]. destruct (negb b); [done|].
  rewrite <- Hpid, (find_child_locked_ok k proc c q T Hq Hpar Hp). cbn [mbind option_bind]. rewrite Hq.
  cbn [mbind option_bind]. by rewrite Hw.
Qed.

(** A call that was not refused has marked the child. *)
Lemma sys_waitpid_accepted proc frame k r :
  tables_ok k → sys_waitpid hh proc frame k = Some r → r ≠ Return FAIL k →
  ∃ c q, processes (kernel_of r) !! c = Some q ∧ parent q = Some proc ∧ waited q = true ∧ pid q = i32 (rdi frame).
Proof using.
  intros T E Hr. unfold sys_waitpid in E. cbn zeta in E. destruct (_ || _); [by injection E as <-|].
  apply bind_Some in E as (ok & _ & E). destruct (negb ok); [by injection E as <-|].
  apply bind_Some in E as (f & Hf & E). destruct f as [c|]; [|by injection E as <-].
  apply bind_Some in E as (q & Hq & E). destruct (waited q); [by injection E as <-|].
  destruct (find_child_locked_Some k proc _ c T Hf) as (q' & Hq' & Hpid & Hpar). assert (q' = q) as -> by congruence.
  apply waitpid_exit_keeps in E. destruct (keeps_process_to _ _ c (q .[ waited := true ]) E) as (p & Hp & [L1 L2 _ L4]).
  { cbn. apply list_lookup_insert_eq. by apply lookup_lt_Some in Hq. }
  exists c, p. split_and!; [done|by rewrite L2|by apply L4|by rewrite L1].
Qed.

(** ** Semaphores *)

Lemma newest_unique test l i s :
  l !! i = Some s → test s = true → (∀ j t, l !! j = Some t → test t = true → j = i) →
  ∀ n, (i < n)%nat → (n <= length l)%nat → newest test n l = Some i.
Proof using.
  intros Hs Ht Hu n. induction n as [|n IH]; intros Hi Hn; [lia|]. cbn [newest].
  destruct (lookup_lt_is_Some_2 l n) as [x Hx]; [lia|]. rewrite Hx. destruct (test x) eqn:E; [by rewrite (Hu n x Hx E)|].
  apply IH; [|lia]. destruct (decide (i = n)) as [->|]; [congruence|lia].
Qed.

Lemma find_sem_ok k i s : tables_ok k → semaphores k !! i = Some s → find_sem_locked (sem_id s) k = Some i.
Proof using.
  intros T Hs. pose proof (lookup_lt_Some _ _ _ Hs). apply (newest_unique _ _ i s Hs); [apply Z.eqb_refl| |done|done].
  intros j t Ht E%Z.eqb_eq. by apply (tk_sem_unique k T j i t s).
Qed.

Lemma sem_id_u64 k i s : tables_ok k → few k → semaphores k !! i = Some s → u64 (sem_id s) = sem_id s.
Proof using.
  intros T [_ F] Hs. pose proof (tk_sem k T i s Hs). pose proof (tk_semid k T).
  assert (2 ^ 31 = 2147483648) as E31 by reflexivity. rewrite E31 in F. apply u64_id. word_lia.
Qed.

(** The live semaphore with the key is found. *)
Lemma sys_semget_existing frame k i s :
  tables_ok k → few k → i32 (rsi frame) = 1 → semaphores k !! i = Some s → sem_key s = i32 (rdi frame) →
  sem_key s ≠ 0 → KernelSemaphore.removed (sem s) = false → sys_semget frame k = Some (Return (sem_id s) k).
Proof using.
  intros T F Hn Hs Hk Hk0 Hr. pose proof (lookup_lt_Some _ _ _ Hs). unfold sys_semget. cbn zeta. rewrite Hn, <- Hk. cbn [Z.eqb negb Pos.eqb].
  rewrite (proj2 (Z.eqb_neq _ 0)) by done. cbn [negb]. rewrite (newest_unique _ _ i s Hs).
  - rewrite Hs. cbn [mbind option_bind]. unfold ret. by rewrite (sem_id_u64 k i s T F Hs).
  - by rewrite Hr, Z.eqb_refl.
  - intros j t Ht (Hrt%negb_true_iff & E%Z.eqb_eq)%andb_true_iff. symmetry. by apply (tk_key k T i j s t).
  - done.
  - done.
Qed.

Lemma sys_semget_ok frame k :
  tables_ok k → few k → i32 (rsi frame) = 1 →
  ∃ i s k1, sys_semget frame k = Some (Return (sem_id s) k1) ∧ tables_ok k1 ∧ semaphores k1 !! i = Some s
    ∧ sem_key s = i32 (rdi frame) ∧ KernelSemaphore.removed (sem s) = false.
Proof using.
  intros T F Hn. unfold sys_semget. cbn zeta. rewrite Hn. cbn [Z.eqb negb Pos.eqb].
  destruct (if negb (i32 (rdi frame) =? 0) then _ else _) as [i|] eqn:Hf.
  - destruct (negb (i32 (rdi frame) =? 0)); [|done]. apply newest_Some in Hf as (s & Hs & (Hr%negb_true_iff & E%Z.eqb_eq)%andb_true_iff).
    rewrite Hs. cbn [mbind option_bind]. exists i, s, k. unfold ret. by rewrite (sem_id_u64 k i s T F Hs).
  - eexists (length (semaphores k)), (mkSemaphore (next_semid k) (i32 (rdi frame)) (KernelSemaphore.mkSem 0 false)), _.
    pose proof (tk_semid k T). pose proof F as [_ F2]. assert (2 ^ 31 = 2147483648) as E31 by reflexivity. rewrite E31 in F2.
    unfold ret. rewrite (u64_id (next_semid k)) by word_lia. split; [reflexivity|].
    split_and!; [|cbn; by apply list_lookup_middle|done|done].
    assert (sys_semget frame k = ret (u64 (next_semid k)) (k .[ next_semid := i32 (next_semid k + 1) ]
          .[ semaphores := semaphores k ++ [mkSemaphore (next_semid k) (i32 (rdi frame)) (KernelSemaphore.mkSem 0 false)] ])) as E.
    { unfold sys_semget. cbn zeta. rewrite Hn. cbn [Z.eqb negb Pos.eqb]. by rewrite Hf. }
    destruct (sys_semget_adds _ _ _ E) as [K|K]; [by eapply keeps_ok|]. apply (adds_sem_ok _ _ K); [|done]. by destruct F.
Qed.

(** ** Theorems *)

(** C16: In every state that system calls can lead to from the start, however they are interleaved
    and as long as fewer than 2^31 - 4 processes and semaphores were made,
    the processes form a forest: the list of children of a process holds exactly the processes
    whose parent it is, each once, and every parent is older than its children.  A process without a
    parent has number 1 (there can be several), and a process that was forked has a number above 1
    that no other process has.  The semaphores have different ids, and at most
    one semaphore that is not removed has a given key other than 0 (0 asks for a new one each time). *)
Theorem process_tables_reachable k k' : booted k → rtc sys_step k k' → few k' → tables_ok k'.
Proof using. intros B H F. apply (reachable_ok k); [done|done|by apply booted_ok]. Qed.

(** C17: A process waits for each child at most once: when a [waitpid] was accepted, whether it
    returned or waits, every later [waitpid] of the same process for the same number fails and
    changes nothing, whatever calls were made in between. *)
Theorem waitpid_once k proc frame r k' frame' ok :
  tables_ok k → sys_waitpid hh proc frame k = Some r → r ≠ Return FAIL k →
  rtc sys_step (kernel_of r) k' → few k' → i32 (rdi frame') = i32 (rdi frame) →
  user_buffer_ok hh (cr3 (vm k')) (rsi frame') 4 (phys (vm k')) = Some ok →
  sys_waitpid hh proc frame' k' = Some (Return FAIL k').
Proof using.
  intros T E Hr H' F Hpid Hb. pose proof (sys_waitpid_keeps _ _ _ _ E) as K.
  pose proof (keeps_ok _ _ K T) as T1. pose proof (reachable_ok _ _ H' F T1) as T'.
  destruct (sys_waitpid_accepted proc frame k r T E Hr) as (c & q & Hq & Hpar & Hw & Hpq).
  pose proof (reachable_later _ _ H') as [L _]. destruct (L c q Hq) as (q' & Hq' & E1 & E2 & E3).
  apply (sys_waitpid_waited proc frame' k' c q' ok T' Hq'); [by rewrite E2| |by apply E3|congruence|done].
  pose proof (tk_pid k' T' c q' Hq') as Hlt. rewrite E2, Hpar in Hlt. apply lookup_lt_is_Some.
  apply lookup_lt_Some in Hq'. lia.
Qed.

(** [semget] for one semaphore always succeeds.  The id it returns names the same semaphore, with
    the key asked for, in every later state; and as long as that semaphore is not removed, every
    [semget] with its key (other than 0) returns the same id again. *)
Theorem semget_stable k frame :
  tables_ok k → few k → i32 (rsi frame) = 1 →
  ∃ id k1, sys_semget frame k = Some (Return id k1) ∧
    ∀ k2, rtc sys_step k1 k2 → few k2 →
    ∃ i s, find_sem_locked id k2 = Some i ∧ semaphores k2 !! i = Some s ∧ sem_key s = i32 (rdi frame) ∧
      ∀ frame', i32 (rdi frame') = i32 (rdi frame) → i32 (rdi frame) ≠ 0 → i32 (rsi frame') = 1 →
        KernelSemaphore.removed (sem s) = false → sys_semget frame' k2 = Some (Return id k2).
Proof using.
  intros T F Hn.
  destruct (sys_semget_ok frame k T F Hn) as (i & s & k1 & E & T1 & Hs & Hk & Hr).
  exists (sem_id s), k1. split; [exact E|]. intros k2 H2 F2. pose proof (reachable_ok _ _ H2 F2 T1) as T2.
  pose proof (reachable_later _ _ H2) as [_ L]. destruct (L i s Hs) as (s' & Hs' & [L1 L2 L3]). exists i, s'. rewrite <- L1.
  split_and!; [by apply find_sem_ok|done|congruence|]. intros frame' Hk' Hk0 Hn' Hr'.
  apply (sys_semget_existing frame' k2 i s' T2 F2 Hn' Hs'); congruence.
Qed.

(** ** Exit *)

Section Exit.
Context (entries : list MemmapEntry) (P : platform hh entries) (root_ : Z).

Definition exit_code (frame : SyscallFrame) : Z := Z.shiftl (Z.land (rdi frame) 255) 8.

Lemma exit_code_u16 frame : 0 <= exit_code frame < 65536.
Proof using.
  unfold exit_code. change 255 with (Z.ones 8). rewrite Z.land_ones, Z.shiftl_mul_pow2 by lia.
  change (2 ^ 8) with 256. word_lia.
Qed.

(** The exited process keeps its place and its status can be read. *)
Lemma sys_exit_futures child frame k r q :
  sys_exit hh memmap child frame k = Some r → current_process k = Some child → processes k !! child = Some q →
  ∃ k1 q1, r = Stopped k1 ∧ keeps k k1 ∧ processes k1 !! child = Some q1 ∧ waited q1 = waited q
    ∧ exit_status q1 = Future.mkFuture true (exit_code frame) ∧ Future.ready (stopped q1) = true.
Proof using.
  intros E Hc Hq. pose proof (sys_exit_keeps _ _ _ _ E) as K. unfold sys_exit in E. cbn zeta in E. rewrite Hq in E.
  cbn [mbind option_bind] in E. apply bind_Some in E as (k1 & E & [=<-]). cbn [kernel_of] in K.
  unfold thread_stop in E. apply bind_Some in E as (v & _ & E). cbn zeta in E.
  unfold set_process in E. cbn [current_process processes set_field] in E. pose proof (lookup_lt_Some _ _ _ Hq).
  match type of E with match ?c with _ => _ end = _ => change c with (current_process k) in E end.
  rewrite Hc in E.
  match type of E with (?l !! _ ≫= _) = _ =>
    change l with (<[child := q .[ exit_status := future_set (exit_code frame) (exit_status q) ]]> (processes k)) in E end.
  rewrite list_lookup_insert_eq in E by done. cbn [mbind option_bind] in E. injection E as <-.
  eexists _, _. split; [reflexivity|]. split; [exact K|].
  split; [apply list_lookup_insert_eq; by rewrite length_insert|by split_and!].
Qed.

(** The end of [waitpid], once the child has exited. *)
Lemma waitpid_exit_ok k A T M c q pid_ status code :
  runs_in hh entries root_ k A T M → good_buffer M status 4 → processes k !! c = Some q →
  exit_status q = Future.mkFuture true code → Future.ready (stopped q) = true → 0 <= code < 65536 →
  ∃ s', waitpid_exit hh c pid_ status k = Some (Return (u64 pid_) (set_phys s' k)) ∧ aspace hh entries low_page root_ s' A T M
    ∧ overwrites (root_ * 4096) status (bytes32 code) (phys (vm k)) s'.
Proof using P.
  intros [Hcr S0] [G1 G2 G3 G4] Hq He Hs Hcode. unfold PRIVATE_BASE, PAGE_SIZE, FRAME_SIZE in G1.
  unfold waitpid_exit. rewrite Hq. cbn [mbind option_bind]. rewrite He. cbn [Future.ready negb Future.value].
  unfold waitpid_stopped. rewrite Hq. cbn [mbind option_bind]. rewrite Hs. cbn [negb]. unfold waitpid_done.
  rewrite (proj2 (Z.eqb_neq status 0)), (u32_id code) by word_lia.
  assert (length (bytes32 code) = 4%nat) as El by done.
  destruct (user_stores_ok _ _ P root_ T M (bytes32 code) _ A status S0) as (s' & E & S' & O & _);
    [lia|rewrite El; exact G3|rewrite El; exact G4|apply Forall_app; split; apply bytes16_wf; word_lia|].
  rewrite Hcr, E. cbn [mbind option_bind]. exists s'. split; [reflexivity|]. split; [exact S'|exact O].
Qed.

(** C19: A parent learns how its child ended: when the child has called [exit], the [waitpid] of the
    parent returns the number of the child and stores the low byte of the exit code, shifted left by
    eight, in the four bytes at the status address, and nothing else in user memory changes.  It
    does so whether the parent calls after the exit or was waiting before. *)
Theorem exit_status_delivered k child q frame r v proc frame' A T M :
  tables_ok k → few k → processes k !! child = Some q → parent q = Some proc → waited q = false →
  current_process k = Some child → sys_exit hh memmap child frame k = Some r →
  let k1 := on_thread v (Some proc) (kernel_of r) in
  runs_in hh entries root_ k1 A T M → good_buffer M (rsi frame') 4 → i32 (rdi frame') = pid q → rdx frame' = 0 →
  (∃ s' k2, sys_waitpid hh proc frame' k1 = Some (Return (pid q) k2) ∧ phys (vm k2) = s'
     ∧ overwrites (root_ * 4096) (rsi frame') (bytes32 (exit_code frame)) (phys v) s')
  ∧ (∃ s', resume hh (WaitExit child (pid q) (rsi frame')) k1 = Some (Return (pid q) (set_phys s' k1))
     ∧ overwrites (root_ * 4096) (rsi frame') (bytes32 (exit_code frame)) (phys v) s').
Proof using P.
  intros Tk F Hq Hpar Hw Hc E k1 R G Hpid Hopt.
  destruct (sys_exit_futures child frame k r q E Hc Hq) as (k0 & q1 & -> & K & Hq1 & Hw1 & He & Hst). cbn [kernel_of] in k1.
  pose proof (keeps_ok _ _ K Tk) as T1. pose proof (exit_code_u16 frame) as Hx.
  destruct (keeps_process_to _ _ _ _ K Hq) as (q1' & Hq1' & L). assert (q1' = q1) as -> by congruence.
  pose proof (lp_pid _ _ L) as Lp. pose proof (lp_parent _ _ L) as Lq. rewrite Hpar in Lq.
  pose proof (tk_pid k Tk child q Hq) as Hr. rewrite Hpar in Hr. pose proof (tk_next k Tk). destruct F as [F _].
  assert (2 ^ 31 = 2147483648) as E31 by reflexivity. rewrite E31 in F.
  assert (u64 (pid q) = pid q) as Eu by (apply u64_id; word_lia). split.
  - pose proof (good_buffer_ok _ _ P _ _ _ _ _ _ _ R G) as Hb. unfold sys_waitpid. cbn zeta. rewrite Hpid, Hopt.
    rewrite (proj2 (Z.leb_gt _ _)) by lia. cbn [orb negb Z.eqb]. pose proof (gb_first _ _ _ G) as G1.
    unfold PRIVATE_BASE, PAGE_SIZE, FRAME_SIZE in G1. rewrite (proj2 (Z.eqb_neq (rsi frame') 0)) by lia. cbn [negb].
    rewrite Hb. cbn [mbind option_bind negb].
    assert (find_child_locked proc (pid q) k1 = Some (Some child)) as ->.
    { rewrite <- Lp. pose proof (keeps_ok _ _ (on_thread_keeps v (Some proc) k0) T1) as T2.
      apply (find_child_locked_ok k1 proc child q1 T2 Hq1 Lq). destruct (lookup_lt_is_Some_2 (processes k0) proc) as [p0 Hp0]; [|by exists p0].
      apply lookup_lt_Some in Hq1. lia. }
    cbn [mbind option_bind]. change (processes k1) with (processes k0). rewrite Hq1. cbn [mbind option_bind]. rewrite Hw1, Hw.
    set (k2 := set_process _ _ _).
    destruct (waitpid_exit_ok k2 A T M child (q1 .[ waited := true ]) (pid q) (rsi frame') (exit_code frame)) as (s' & E2 & _ & O);
      [destruct R; by split|exact G| |exact He|exact Hst|exact Hx|].
    { cbn. apply list_lookup_insert_eq. by apply lookup_lt_Some in Hq1. }
    exists s', (set_phys s' k2). rewrite E2, Eu. split; [reflexivity|]. split; [reflexivity|exact O].
  - destruct (waitpid_exit_ok k1 A T M child q1 (pid q) (rsi frame') (exit_code frame) R G Hq1 He Hst Hx) as (s' & E2 & _ & O).
    exists s'. cbn [resume]. rewrite E2, Eu. split; [reflexivity|exact O].
Qed.
End Exit.

End Steps.

(** ** Witnesses: a parent and a child *)

Definition demo_parent : Process := demo_process .[ children := [1%nat] ].
Definition demo_child : Process := new_process 2 (Some 0%nat) 4194304 4198400 (fds demo_process).
Definition demo_pair (s : PhysMem) (cur : nat) : Kernel :=
  (demo_kernel s [demo_parent; demo_child]) .[ next_pid := 3 ] .[ current_process := Some cur ].

Lemma demo_pair_ok s cur : tables_ok (demo_pair s cur).
Proof.
  assert (∀ i p, processes (demo_pair s cur) !! i = Some p →
    (i = 0%nat ∧ p = demo_parent) ∨ (i = 1%nat ∧ p = demo_child)) as H.
  { intros [|[|i]] p Hp; [left|right|by destruct i]; injection Hp as <-; done. }
  split; try done.
  - intros i p [[-> ->]|[-> ->]]%H; cbn; [done|lia].
  - intros i j p q [[-> ->]|[-> ->]]%H [[-> ->]|[-> ->]]%H; done.
  - intros i p c [[-> ->]|[-> ->]]%H.
    + split; [intros ->%list_elem_of_singleton; by exists demo_child|].
      intros (q & [[-> ->]|[-> ->]]%H & Hq); [done|by apply list_elem_of_singleton].
    + split; [by intros ?%not_elem_of_nil|]. intros (q & [[-> ->]|[-> ->]]%H & Hq); done.
  - intros i p [[-> ->]|[-> ->]]%H; [apply NoDup_singleton|by apply NoDup_nil_2].
Qed.

Lemma demo_pair_few s cur : few (demo_pair s cur).
Proof. done. Qed.

(** From the start, a [semget] of the first process. *)
Definition demo_boot : Kernel :=
  mkKernel (mkVmm big_root (65536 * 4096) (65536 * 4096) [] [] 1 1) None [] 2 (Some demo_fs) 4194304 [] 1 [].
Definition demo_semget : Kernel :=
  kernel_of (default (Stopped demo_boot) (syscallHandler demo_hhdm (Some big_map) (RamDisk demo_disk_file) (demo_frame 64 7 1 0) demo_boot)).

Lemma process_tables_reachable_witness : tables_ok demo_semget ∧ length (processes demo_semget) = 1%nat
  ∧ length (semaphores demo_semget) = 1%nat.
Proof.
  split; [|done]. apply (process_tables_reachable demo_hhdm (Some big_map) (RamDisk demo_disk_file) demo_boot).
  - by split_and!.
  - apply rtc_once, (step_call _ _ _ (vm demo_boot) None (demo_frame 64 7 1 0) demo_boot (Return 1 demo_semget)); done.
  - done.
Defined.

(** The first [waitpid] waits for the child, the second fails. *)
Lemma waitpid_once_witness : ∃ k k' ok, sys_waitpid demo_hhdm 0 (demo_frame 61 2 0 0) k = Some (Waits (WaitExit 1 2 0) k')
  ∧ user_buffer_ok demo_hhdm (cr3 (vm k')) 4194304 4 (phys (vm k')) = Some ok
  ∧ sys_waitpid demo_hhdm 0 (demo_frame 61 2 4194304 0) k' = Some (Return FAIL k').
Proof.
  destruct demo_machine as (s & A & T & M & S0 & _ & HM & _). set (k := demo_pair s 0).
  assert (∃ k', sys_waitpid demo_hhdm 0 (demo_frame 61 2 0 0) k = Some (Waits (WaitExit 1 2 0) k') ∧ vm k' = vm k
    ∧ few k') as (k' & E & Ev & F) by (eexists; split; [reflexivity|done]).
  assert (user_buffer_ok demo_hhdm (cr3 (vm k')) 4194304 4 (phys (vm k')) = Some true) as Hb.
  { rewrite Ev. apply (good_buffer_ok _ _ big_platform 65536 k A T M); [by split|by apply demo_buffer]. }
  exists k, k', true. split; [exact E|]. split; [exact Hb|].
  apply (waitpid_once demo_hhdm (Some big_map) (RamDisk demo_disk_file) k 0 (demo_frame 61 2 0 0) _ k' (demo_frame 61 2 4194304 0) true
    (demo_pair_ok s 0) E); [done|done|exact F|done|exact Hb].
Defined.

Definition demo_sem_made : Kernel :=
  kernel_of (default (Stopped demo_boot) (sys_semget (demo_frame 64 7 1 0) (demo_pair big_root 0))).
Lemma demo_sem_made_few : few demo_sem_made.
Proof. by vm_compute. Qed.
Lemma demo_sem_made_eq : sys_semget (demo_frame 64 7 1 0) (demo_pair big_root 0) = Some (Return 1 demo_sem_made).
Proof. reflexivity. Qed.
Lemma demo_sem_made_live i s : semaphores demo_sem_made !! i = Some s → KernelSemaphore.removed (sem s) = false.
Proof. destruct i as [|i]; [by intros [=<-]|by destruct i]. Qed.

Lemma semget_stable_witness : ∃ k1, sys_semget (demo_frame 64 7 1 0) (demo_pair big_root 0) = Some (Return 1 k1)
  ∧ sys_semget (demo_frame 64 7 1 0) k1 = Some (Return 1 k1).
Proof.
  destruct (semget_stable demo_hhdm (Some big_map) (RamDisk demo_disk_file) (demo_pair big_root 0) (demo_frame 64 7 1 0)
    (demo_pair_ok _ _) (demo_pair_few _ _) eq_refl) as (id & k1 & E & H).
  rewrite demo_sem_made_eq in E. injection E as <- <-. exists demo_sem_made. split; [exact demo_sem_made_eq|].
  destruct (H demo_sem_made (rtc_refl _ _) demo_sem_made_few) as (i & s & _ & Hs & _ & Hr).
  exact (Hr (demo_frame 64 7 1 0) eq_refl ltac:(discriminate) eq_refl (demo_sem_made_live i s Hs)).
Defined.

Lemma demo_exits : is_Some (sys_exit demo_hhdm (Some big_map) 1 (demo_frame 60 3 0 0) (demo_pair big_root 1)).
Proof.
  assert (bool_decide (is_Some (sys_exit demo_hhdm (Some big_map) 1 (demo_frame 60 3 0 0) (demo_pair big_root 1))) = true) as H
    by (vm_compute; reflexivity).
  by apply bool_decide_eq_true in H.
Qed.

(** The child ends with code 3 while the parent waits, and then the parent runs. *)
Lemma exit_status_delivered_witness : ∃ k r k1 s', sys_exit demo_hhdm (Some big_map) 1 (demo_frame 60 3 0 0) k = Some r
  ∧ resume demo_hhdm (WaitExit 1 2 4194304) k1 = Some (Return 2 (set_phys s' k1))
  ∧ user_loads (65536 * 4096) 4 4194304 s' = Some [0; 3; 0; 0].
Proof.
  destruct demo_machine as (s & A & T & M & S0 & _ & HM & _). pose proof demo_exits as [r E].
  assert (runs_in demo_hhdm big_map 65536 (on_thread (vm (demo_pair s 0)) (Some 0%nat) (kernel_of r)) A T M) as R
    by (split; [reflexivity|exact S0]).
  pose proof (exit_status_delivered demo_hhdm (Some big_map) big_map big_platform 65536 (demo_pair big_root 1) 1 demo_child
    (demo_frame 60 3 0 0) r (vm (demo_pair s 0)) 0 (demo_frame 61 2 4194304 0) A T M (demo_pair_ok _ _) (demo_pair_few _ _)
    eq_refl eq_refl eq_refl eq_refl E R (demo_buffer M 4 HM ltac:(split; done)) eq_refl eq_refl) as [_ (s' & E2 & O)].
  exists (demo_pair big_root 1), r, (on_thread (vm (demo_pair s 0)) (Some 0%nat) (kernel_of r)), s'. split; [exact E|]. split; [exact E2|].
  apply (overwrites_loads _ _ [0; 3; 0; 0] s); [exact O|done|done].
Defined.
