(* ===== verification/SpinLock.v ===== *)
(** * Spin locks and atomic counters ([spin_lock.cc], [atomic.h], [machine.h])

    One lock and the cores that use it, one atomic access a step.  A core runs its top
    frame; an interrupt puts a frame on top when interrupts are enabled, and its code may
    use the same lock.  [run1] is one step of [tryLock], [lock] or [unlock].  The
    theorems: the lock is held at most once, never by code that is interrupted, and
    the interrupt flag comes back as it was; the statistics are exact.
    What matters is the core: a lock that one thread takes and the next one on the core
    frees (a wait on a condition) is held by the frame of that core.
    [log] is not in the program: the lengths that were added up, for the statements. *)

From S2P Require Import Prelude.

(** ** Atomic operations ([Atomic], [AtomicMax]) *)

Definition exchange {A} (v cur : A) : A * A := (cur, v).
Definition add_fetch (inc cur : Z) : Z * Z := (u64 (cur + inc), u64 (cur + inc)).
Definition fetch_add (inc cur : Z) : Z * Z := (cur, u64 (cur + inc)).
(** Success, what [old] becomes, the new value. *)
Definition compare_exchange_n (old v cur : Z) : bool * Z * Z := if cur =? old then (true, old, v) else (false, cur, cur).

(** ** The interrupt flag: [true] is disabled *)

Definition restore (was_disabled disabled : bool) : bool := if was_disabled then disabled else false.

(** ** The lock *)

Record SpinLock := mkSpinLock { taken : bool; start : Z; count_it : bool; was_disabled : bool }.
#[export] Instance eta_SpinLock : Eta SpinLock := fun l => mkSpinLock (taken l) (start l) (count_it l) (was_disabled l).

Record Stats := mkStats {
  max_critical_section_cycles : Z; total_critical_section_cycles : Z; critical_section_count : Z; log : list Z
}.
#[export] Instance eta_Stats : Eta Stats := fun s =>
  mkStats (max_critical_section_cycles s) (total_critical_section_cycles s) (critical_section_count s) (log s).

(** Where a frame is.  [spin] tells [lock] from [tryLock]. *)
Inductive Pc :=
| Out                                   (* not in a call, not holding the lock *)
| IsDisabled (spin : bool)              (* disable: is_disabled *)
| Cli (spin was : bool)                 (* disable: cli *)
| Exchange (spin was : bool)            (* taken.exchange(true) *)
| SetWas (was : bool) | SetStart        (* has_it *)
| Fail (spin was : bool)                (* !has_it: restore(was) *)
| Held                                  (* holding the lock *)
| GetCountIt | SetCountIt (c : bool) | GetStart (c : bool) | GetEnd (c : bool) (s : Z)
| GetWas (c : bool) (s e : Z)
| Release (c : bool) (s e : Z) (was : bool)
| Restore (c : bool) (s e : Z) (was : bool)
| AddTotal (elapsed : Z) | AddCount (elapsed : Z)
| MaxGet (elapsed : Z) | MaxCas (elapsed old : Z).

(** [saved] is the flag when the call of [lock] or [tryLock] was made. *)
Record Frame := mkFrame { pc : Pc; saved : bool }.
#[export] Instance eta_Frame : Eta Frame := fun f => mkFrame (pc f) (saved f).

Record Core := mkCore { disabled : bool; top : Frame; below : list Frame }.
Record Sys := mkSys { spin_lock : SpinLock; stats : Stats; cores : list Core }.

(** ** One step of [tryLock], [lock] and [unlock] *)

Definition run1 (tsc : Z) (l : SpinLock) (st : Stats) (d : bool) (p : Pc) : SpinLock * Stats * bool * Pc :=
  match p with
  | Out => (l, st, d, Out)
  | IsDisabled spin => (l, st, d, Cli spin d)
  | Cli spin was => (l, st, true, Exchange spin was)
  | Exchange spin was =>
      let '(old, now) := exchange true (taken l) in
      (l .[ taken := now ], st, d, if negb old then SetWas was else Fail spin was)
  | SetWas was => (l .[ was_disabled := was ], st, d, SetStart)
  | SetStart => (l .[ start := tsc ], st, d, Held)
  | Fail spin was => (l, st, restore was d, if spin then IsDisabled true else Out)
  | Held => (l, st, d, Held)
  | GetCountIt => (l, st, d, SetCountIt (count_it l))
  | SetCountIt c => (l .[ count_it := true ], st, d, GetStart c)
  | GetStart c => (l, st, d, GetEnd c (start l))
  | GetEnd c s => (l, st, d, GetWas c s tsc)
  | GetWas c s e => (l, st, d, Release c s e (was_disabled l))
  | Release c s e was => (l .[ taken := false ], st, d, Restore c s e was)
  | Restore c s e was => (l, st, restore was d, if c then AddTotal (u64 (e - s)) else Out)
  | AddTotal v =>
      (l, st .[ total_critical_section_cycles := snd (add_fetch v (total_critical_section_cycles st)) ] .[ log := v :: log st ], d, AddCount v)
  | AddCount v => (l, st .[ critical_section_count := snd (fetch_add 1 (critical_section_count st)) ], d, MaxGet v)
  | MaxGet v => (l, st, d, if v <=? max_critical_section_cycles st then Out else MaxCas v (max_critical_section_cycles st))
  | MaxCas v old =>
      let '(ok, _, now) := compare_exchange_n old v (max_critical_section_cycles st) in
      (l, st .[ max_critical_section_cycles := now ], d, if ok then Out else MaxGet v)
  end.

(** Outside the calls the running code of a core does as it likes: it locks, unlocks
    what it holds, changes the interrupt flag. *)
Inductive sys_step : Sys → Sys → Prop :=
| step_run l st cs i d f bs tsc l' st' d' p' :
    cs !! i = Some (mkCore d f bs) → run1 tsc l st d (pc f) = (l', st', d', p') →
    sys_step (mkSys l st cs) (mkSys l' st' (<[i := mkCore d' (mkFrame p' (saved f)) bs]> cs))
| step_lock l st cs i d f bs spin :
    cs !! i = Some (mkCore d f bs) → pc f = Out →
    sys_step (mkSys l st cs) (mkSys l st (<[i := mkCore d (mkFrame (IsDisabled spin) d) bs]> cs))
| step_unlock l st cs i d f bs :
    cs !! i = Some (mkCore d f bs) → pc f = Held →
    sys_step (mkSys l st cs) (mkSys l st (<[i := mkCore d (mkFrame GetCountIt (saved f)) bs]> cs))
| step_flag l st cs i d f bs d' :
    cs !! i = Some (mkCore d f bs) → pc f = Out →
    sys_step (mkSys l st cs) (mkSys l st (<[i := mkCore d' f bs]> cs))
| step_interrupt l st cs i f bs :
    cs !! i = Some (mkCore false f bs) →
    sys_step (mkSys l st cs) (mkSys l st (<[i := mkCore true (mkFrame Out true) (f :: bs)]> cs))
| step_iret l st cs i d f g bs :
    cs !! i = Some (mkCore d f (g :: bs)) → pc f = Out →
    sys_step (mkSys l st cs) (mkSys l st (<[i := mkCore false g bs]> cs)).

(** A lock that was never taken, cores outside. *)
Definition new_lock : SpinLock := mkSpinLock false 0 false false.
Definition new_stats : Stats := mkStats 0 0 0 [].
Definition boot (ds : list bool) : Sys := mkSys new_lock new_stats ((λ d, mkCore d (mkFrame Out d) []) <$> ds).
Definition reachable (s : Sys) : Prop := ∃ ds, rtc sys_step (boot ds) s.

(** ** Frames *)

(** The frame has the lock: from the exchange that took it to the store that frees it. *)
Definition critical (p : Pc) : bool :=
  match p with
  | SetWas _ | SetStart | Held | GetCountIt | SetCountIt _ | GetStart _ | GetEnd _ _ | GetWas _ _ _ | Release _ _ _ _ => true
  | _ => false
  end.
Definition frames_of (c : Core) : list Frame := top c :: below c.
Definition all_frames (cs : list Core) : list Frame := cs ≫= frames_of.
Definition holders (fs : list Frame) : nat := length (filter (λ f, critical (pc f) = true) fs).

Lemma all_frames_split cs i c : cs !! i = Some c →
  ∃ l1 l2, all_frames cs = l1 ++ frames_of c ++ l2 ∧ ∀ c', all_frames (<[i := c']> cs) = l1 ++ frames_of c' ++ l2.
Proof.
  intros Hi. exists (all_frames (take i cs)), (all_frames (drop (S i) cs)). split.
  - rewrite <- (take_drop_middle cs i c Hi) at 1. unfold all_frames. by rewrite bind_app, bind_cons.
  - intros c'. rewrite insert_take_drop by (by eapply lookup_lt_Some). unfold all_frames. by rewrite bind_app, bind_cons.
Qed.

Lemma holders_app a b : holders (a ++ b) = (holders a + holders b)%nat.
Proof. unfold holders. by rewrite filter_app, length_app. Qed.
Lemma holders_cons f fs : holders (f :: fs) = (Nat.b2n (critical (pc f)) + holders fs)%nat.
Proof.
  unfold holders. destruct (critical (pc f)) eqn:E; [by rewrite filter_cons_True by done|].
  rewrite filter_cons_False; [done|by rewrite E].
Qed.

(** ** The invariant *)

(** What a frame knows of the flag of its core. *)
Definition flag_ok (d : bool) (f : Frame) : Prop :=
  match pc f with
  | Out => True
  | IsDisabled _ => d = saved f
  | Cli _ was => d = saved f ∧ was = saved f
  | Exchange _ was | SetWas was | Fail _ was | Release _ _ _ was | Restore _ _ _ was => d = true ∧ was = saved f
  | SetStart | Held | GetCountIt | SetCountIt _ | GetStart _ | GetEnd _ _ | GetWas _ _ _ => d = true
  | AddTotal _ | AddCount _ | MaxGet _ | MaxCas _ _ => d = saved f
  end.
(** What it knows of the lock it holds. *)
Definition lock_ok (l : SpinLock) (f : Frame) : Prop :=
  match pc f with
  | SetStart | Held | GetCountIt | SetCountIt _ | GetStart _ | GetEnd _ _ | GetWas _ _ _ => was_disabled l = saved f
  | _ => True
  end.
Definition spin_core_ok (c : Core) : Prop := flag_ok (disabled c) (top c) ∧ Forall (flag_ok false) (below c).

Record spin_sys_ok (s : Sys) : Prop := {
  ok_cores : Forall spin_core_ok (cores s);
  ok_holder : holders (all_frames (cores s)) = Nat.b2n (taken (spin_lock s));
  ok_lock : Forall (lock_ok (spin_lock s)) (all_frames (cores s))
}.

Lemma lock_ok_idle l f : critical (pc f) = false → lock_ok l f.
Proof. unfold lock_ok. by destruct (pc f). Qed.
Lemma flag_critical d f : flag_ok d f → critical (pc f) = true → d = true.
Proof. unfold flag_ok. destruct (pc f); cbn [critical]; intros; try done; tauto. Qed.
Lemma holders_0 fs : holders fs = 0%nat → Forall (λ f, critical (pc f) = false) fs.
Proof.
  induction fs as [|f fs IH]; [constructor|]. rewrite holders_cons. intros H. constructor; [by destruct (critical (pc f))|]. apply IH. lia.
Qed.

(** A step of a frame: its own knowledge, the number of holders, and what the others
    can see of the lock. *)
Lemma run1_ok tsc l st d f l' st' d' p' :
  run1 tsc l st d (pc f) = (l', st', d', p') → flag_ok d f → lock_ok l f → (critical (pc f) = true → taken l = true) →
  let f' := mkFrame p' (saved f) in
  flag_ok d' f' ∧ lock_ok l' f' ∧ (Nat.b2n (taken l) + Nat.b2n (critical p') = Nat.b2n (taken l') + Nat.b2n (critical (pc f)))%nat
  ∧ (critical (pc f) = false → critical p' = false → was_disabled l' = was_disabled l).
Proof.
  intros Hrun Hf Hl Ht. unfold flag_ok, lock_ok in *. cbn [pc saved].
  destruct (pc f) eqn:Ep; cbn [run1 exchange compare_exchange_n] in Hrun; cbn [critical] in *;
    first [specialize (Ht eq_refl)|clear Ht]; repeat match goal with H : _ ∧ _ |- _ => destruct H end; simplify_eq;
    cbn [taken was_disabled set_field critical]; try rewrite Ht; try (by split_and!).
  - destruct (taken l); cbn [negb critical]; by split_and!.
  - destruct (saved f), spin; cbn [restore critical]; by split_and!.
  - destruct (saved f), c; cbn [restore critical]; by split_and!.
  - destruct (elapsed <=? _); cbn [critical]; by split_and!.
  - unfold compare_exchange_n in Hrun. destruct (max_critical_section_cycles st =? old); simplify_eq; cbn [critical]; by split_and!.
Qed.

Lemma Forall_middle {A} (P Q : A → Prop) l1 m m' l2 :
  Forall P (l1 ++ m ++ l2) → (∀ x, P x → x ∈ l1 ++ l2 → Q x) → Forall Q m' → Forall Q (l1 ++ m' ++ l2).
Proof.
  rewrite !Forall_app. intros (H1 & H2 & H3) HPQ Hm. split_and!; [|done|]; rewrite Forall_forall in *; intros x Hx; (apply HPQ; [auto|set_solver]).
Qed.

Lemma cores_insert cs i c : Forall spin_core_ok cs → spin_core_ok c → Forall spin_core_ok (<[i := c]> cs).
Proof. intros. by apply Forall_insert. Qed.

(** The frames that do not have the lock know nothing of it. *)
Lemma others_lock_ok l l' p p' fs :
  Forall (lock_ok l) fs → (critical p = false → critical p' = false → was_disabled l' = was_disabled l) →
  (critical p || critical p' = true → holders fs = 0%nat) → Forall (lock_ok l') fs.
Proof.
  intros Hl Hw H0. destruct (critical p || critical p') eqn:E.
  - eapply Forall_impl; [by apply holders_0, H0|]. intros x. apply lock_ok_idle.
  - apply orb_false_iff in E as [E1 E2]. eapply Forall_impl; [exact Hl|]. intros x. unfold lock_ok. by rewrite Hw.
Qed.

Lemma spin_sys_step_ok s s' : spin_sys_ok s → sys_step s s' → spin_sys_ok s'.
Proof.
  intros [Hc Hh Hl] Hstep. destruct Hstep as [l st cs i d f bs tsc l' st' d' p' Hi Hrun|l st cs i d f bs spin Hi Hp|l st cs i d f bs Hi Hp
    |l st cs i d f bs d' Hi Hp|l st cs i f bs Hi|l st cs i d f g bs Hi Hp]; cbn [cores spin_lock] in *;
    pose proof (proj1 (Forall_lookup _ _) Hc _ _ Hi) as [Hf Hb]; cbn [disabled top below] in *;
    destruct (all_frames_split cs i _ Hi) as (l1 & l2 & Eall & Eins); unfold frames_of in *; cbn [top below] in *; rewrite Eall in *;
    rewrite ?holders_app, ?holders_cons in Hh; rewrite !Forall_app, ?Forall_cons in Hl; destruct Hl as (L1 & [Lf Lb] & L2).
  - destruct (run1_ok _ _ _ _ _ _ _ _ _ Hrun Hf Lf) as (Hf' & Lf' & Hn & Hw).
    { intros Ht. rewrite Ht in Hh. destruct (taken l); [done|]. cbn [Nat.b2n] in Hh. lia. }
    split; cbn [cores spin_lock]; rewrite ?Eins; unfold frames_of; cbn [top below].
    + apply cores_insert; [done|]. by split.
    + rewrite !holders_app, !holders_cons. cbn [pc]. lia.
    + assert (critical (pc f) || critical p' = true → (holders l1 + (holders bs + holders l2))%nat = 0%nat) as H0.
      { intros [E|E]%orb_true_iff; rewrite E in *; destruct (taken l), (taken l'), (critical (pc f)), (critical p'); cbn [Nat.b2n] in *; lia. }
      rewrite !Forall_app, Forall_cons. split_and!; [|done|..]; eapply (others_lock_ok l l' (pc f) p'); try done; intros E; specialize (H0 E); lia.
  - split; cbn [cores spin_lock]; rewrite ?Eins; unfold frames_of; cbn [top below].
    + apply cores_insert; [done|]. by split.
    + rewrite !holders_app, !holders_cons. rewrite Hp in Hh. exact Hh.
    + rewrite !Forall_app, Forall_cons. by split_and!.
  - unfold flag_ok, lock_ok in Hf, Lf. rewrite Hp in Hf, Lf, Hh. split; cbn [cores spin_lock]; rewrite ?Eins; unfold frames_of; cbn [top below].
    + apply cores_insert; [done|]. by split.
    + rewrite !holders_app, !holders_cons. exact Hh.
    + rewrite !Forall_app, Forall_cons. by split_and!.
  - split; cbn [cores spin_lock]; rewrite ?Eins; unfold frames_of; cbn [top below].
    + apply cores_insert; [done|]. split; [|done]. cbn [top]. unfold flag_ok. by rewrite Hp.
    + by rewrite !holders_app, !holders_cons.
    + rewrite !Forall_app, Forall_cons. by split_and!.
  - split; cbn [cores spin_lock]; rewrite ?Eins; unfold frames_of; cbn [top below].
    + apply cores_insert; [done|]. split; [done|]. by constructor.
    + rewrite !holders_app, !holders_cons. exact Hh.
    + rewrite !Forall_app, !Forall_cons. by split_and!.
  - apply Forall_cons in Hb as [Hg Hb]. destruct Lb as [Lg Lb].
    split; cbn [cores spin_lock]; rewrite ?Eins; unfold frames_of; cbn [top below].
    + apply cores_insert; [done|]. by split.
    + rewrite !holders_app, !holders_cons. rewrite Hp in Hh. cbn [critical Nat.b2n] in Hh. lia.
    + rewrite !Forall_app, Forall_cons. by split_and!.
Qed.

Lemma spin_boot_ok ds : spin_sys_ok (boot ds).
Proof.
  assert (all_frames (cores (boot ds)) = (λ d, mkFrame Out d) <$> ds) as E.
  { unfold boot, all_frames. cbn [cores]. induction ds as [|d ds IH]; [done|]. cbn [fmap list_fmap]. rewrite bind_cons, IH. done. }
  split.
  - apply Forall_fmap, Forall_true. intros d. split; [done|constructor].
  - rewrite E. unfold boot. cbn [spin_lock]. induction ds as [|d ds IH]; [done|]. cbn [fmap list_fmap]. rewrite holders_cons. apply IH.
    clear. unfold boot, all_frames. cbn [cores]. induction ds as [|d ds IH]; [done|]. cbn [fmap list_fmap]. by rewrite bind_cons, IH.
  - rewrite E. apply Forall_fmap, Forall_true. done.
Qed.

Lemma spin_reachable_ok s : reachable s → spin_sys_ok s.
Proof. intros (ds & H). revert s H. apply rtc_ind_r; [apply spin_boot_ok|]. intros y z _ Hstep Hy. by eapply spin_sys_step_ok. Qed.

(** C8: in every state that any number of cores can reach, with interrupts at any
    point where they are enabled, the lock is taken exactly when one frame has it; that
    frame is the one its core runs, with interrupts disabled; so a handler never waits
    for a lock that the code it interrupted holds. *)
Theorem spin_lock_exclusive s :
  reachable s →
  holders (all_frames (cores s)) = Nat.b2n (taken (spin_lock s))
  ∧ ∀ i c, cores s !! i = Some c →
      Forall (λ f, critical (pc f) = false) (below c) ∧ (critical (pc (top c)) = true → disabled c = true).
Proof.
  intros [Hc Hh _]%spin_reachable_ok. split; [done|]. intros i c Hi. apply (proj1 (Forall_lookup _ _) Hc) in Hi as [Hf Hb]. split.
  - eapply Forall_impl; [exact Hb|]. intros f H. destruct (critical (pc f)) eqn:E; [|done]. by apply (flag_critical false) in E.
  - by apply flag_critical.
Qed.

(** [unlock] leaves the interrupt flag as the call that took the lock found it,
    although another core may have taken the lock and overwritten [was_disabled] before
    the flag is restored; and a call of [tryLock] that fails leaves it as it was. *)
Theorem flag_restored s i c tsc l st d p :
  reachable s → cores s !! i = Some c → run1 tsc (spin_lock s) (stats s) (disabled c) (pc (top c)) = (l, st, d, p) →
  match pc (top c) with Restore _ _ _ _ | Fail _ _ => d = saved (top c) | _ => True end.
Proof.
  intros [Hc _ _]%spin_reachable_ok Hi Hrun. apply (proj1 (Forall_lookup _ _) Hc) in Hi as [Hf _]. unfold flag_ok in Hf.
  destruct (pc (top c)); try done; cbn [run1] in Hrun; simplify_eq; destruct Hf as [-> ->]; by destruct (saved (top c)).
Qed.

(** ** The statistics *)

(** The frames that still have to count [v], and that still have to compare it. *)
Definition counting (p : Pc) : bool := match p with AddCount _ => true | _ => false end.
Definition comparing (p : Pc) : option Z := match p with AddCount v | MaxGet v | MaxCas v _ => Some v | _ => None end.

Definition sumZ (l : list Z) : Z := foldr Z.add 0 l.

Record stats_ok (st : Stats) (fs : list Frame) : Prop := {
  ok_total : total_critical_section_cycles st = u64 (sumZ (log st));
  ok_count : u64 (critical_section_count st + Z.of_nat (length (filter (λ f, counting (pc f) = true) fs))) = u64 (Z.of_nat (length (log st)));
  ok_count_u64 : is_u64 (critical_section_count st);
  ok_max_upper v : v ∈ log st → v <= max_critical_section_cycles st ∨ Some v ∈ (comparing ∘ pc <$> fs);
  ok_max_pos : 0 <= max_critical_section_cycles st;
  ok_max_log : max_critical_section_cycles st ∈ 0 :: log st;
  ok_comparing v : Some v ∈ (comparing ∘ pc <$> fs) → v ∈ log st
}.

Definition cas_ok (f : Frame) : Prop := match pc f with MaxCas v old => old < v | _ => True end.
Definition inv_stats (st : Stats) (fs : list Frame) : Prop := stats_ok st fs ∧ Forall cas_ok fs.

#[export] Instance inv_stats_proper st : Proper ((≡ₚ) ==> iff) (inv_stats st).
Proof.
  assert (∀ fs fs', fs ≡ₚ fs' → inv_stats st fs → inv_stats st fs') as H.
  { intros fs fs' HP [[H1 H2 H3 H4 H0 H5 H6] H7]. split; [split; try done|by rewrite <- HP].
    - by rewrite <- HP.
    - intros v Hv. rewrite <- HP. by apply H4.
    - intros v. rewrite <- HP. apply H6. }
  intros fs fs' HP. split; by apply H.
Qed.

(** A frame that neither counts nor compares. *)
Lemma inv_stats_idle st f fs : counting (pc f) = false → comparing (pc f) = None → inv_stats st (f :: fs) ↔ inv_stats st fs.
Proof.
  intros E1 E2. unfold inv_stats. rewrite Forall_cons. assert (cas_ok f) by (unfold cas_ok; by destruct (pc f)).
  assert (∀ v, Some v ∈ (comparing ∘ pc <$> f :: fs) ↔ Some v ∈ (comparing ∘ pc <$> fs)) as Hin.
  { intros v. rewrite fmap_cons, elem_of_cons. cbn. rewrite E2. naive_solver. }
  assert (filter (λ f, counting (pc f) = true) (f :: fs) = filter (λ f, counting (pc f) = true) fs) as Hn by (rewrite filter_cons_False; [done|by rewrite E1]).
  split; intros [[H1 H2 H3 H4 H0 H5 H6] H7]; (split; [split; try done|naive_solver]).
  - by rewrite <- Hn.
  - intros v Hv. rewrite <- Hin. by apply H4.
  - intros v. rewrite <- Hin. apply H6.
  - by rewrite Hn.
  - intros v Hv. rewrite Hin. by apply H4.
  - intros v. rewrite Hin. apply H6.
Qed.

Lemma u64_add_cong a b c : u64 a = u64 b → u64 (a + c) = u64 (b + c).
Proof. unfold u64 in *. intros H. rewrite <- (Z.add_mod_idemp_l a), <- (Z.add_mod_idemp_l b), H by lia. done. Qed.
Lemma u64_add_l a b : u64 (u64 a + b) = u64 (a + b).
Proof. unfold u64. by rewrite Z.add_mod_idemp_l by lia. Qed.

Lemma count_cons f fs :
  length (filter (λ f, counting (pc f) = true) (f :: fs)) = (Nat.b2n (counting (pc f)) + length (filter (λ f, counting (pc f) = true) fs))%nat.
Proof. destruct (counting (pc f)) eqn:E; [by rewrite filter_cons_True by done|rewrite filter_cons_False; [done|by rewrite E]]. Qed.
Lemma comparing_cons v f fs : Some v ∈ (comparing ∘ pc <$> f :: fs) ↔ comparing (pc f) = Some v ∨ Some v ∈ (comparing ∘ pc <$> fs).
Proof. rewrite fmap_cons, elem_of_cons. cbn. naive_solver. Qed.

Lemma add_total_stats st v sv fs :
  inv_stats st (mkFrame (AddTotal v) sv :: fs) →
  inv_stats (st .[ total_critical_section_cycles := u64 (total_critical_section_cycles st + v) ] .[ log := v :: log st ]) (mkFrame (AddCount v) sv :: fs).
Proof.
  rewrite inv_stats_idle by done. intros [[H1 H2 H3 H4 H0 H5 H6] H7]. split; [|by constructor].
  split; cbn [total_critical_section_cycles critical_section_count max_critical_section_cycles log set_field].
  - rewrite H1, u64_add_l. cbn [sumZ foldr]. f_equal. unfold sumZ. lia.
  - rewrite count_cons. cbn [pc counting Nat.b2n]. apply (u64_add_cong _ _ 1) in H2. cbn [length].
    etrans; [|etrans; [exact H2|]]; f_equal; lia.
  - done.
  - intros w [->|Hw]%elem_of_cons; rewrite comparing_cons; [by right; left|]. destruct (H4 w Hw); [by left|by right; right].
  - done.
  - rewrite !elem_of_cons in *. tauto.
  - intros w. rewrite comparing_cons. cbn [pc comparing]. intros [[= ->]|Hw]; [apply elem_of_cons; by left|apply elem_of_cons; right; by apply H6].
Qed.

Lemma add_count_stats st v sv fs :
  inv_stats st (mkFrame (AddCount v) sv :: fs) →
  inv_stats (st .[ critical_section_count := u64 (critical_section_count st + 1) ]) (mkFrame (MaxGet v) sv :: fs).
Proof.
  intros [[H1 H2 H3 H4 H0 H5 H6] H7]. split; [|by apply Forall_cons in H7 as [_ H7]; constructor].
  split; cbn [total_critical_section_cycles critical_section_count max_critical_section_cycles log set_field]; try done.
  - rewrite count_cons in *. cbn [pc counting Nat.b2n] in *. rewrite u64_add_l, <- H2. f_equal. lia.
  - apply Z.mod_pos_bound. lia.
Qed.

Lemma max_get_stats st v sv fs :
  inv_stats st (mkFrame (MaxGet v) sv :: fs) →
  inv_stats st (mkFrame (if v <=? max_critical_section_cycles st then Out else MaxCas v (max_critical_section_cycles st)) sv :: fs).
Proof.
  intros [[H1 H2 H3 H4 H0 H5 H6] H7]. apply Forall_cons in H7 as [_ H7]. destruct (Z.leb_spec v (max_critical_section_cycles st)) as [Hle|Hlt].
  - rewrite inv_stats_idle by done. split; [|done]. split; try done.
    + intros w Hw. destruct (H4 w Hw) as [?|[[= ->]|?]%comparing_cons]; auto.
    + intros w Hw. apply H6. rewrite comparing_cons. by right.
  - split; [by split|]. by constructor.
Qed.

Lemma max_cas_stats st v old sv fs :
  inv_stats st (mkFrame (MaxCas v old) sv :: fs) →
  let '(ok, _, now) := compare_exchange_n old v (max_critical_section_cycles st) in
  inv_stats (st .[ max_critical_section_cycles := now ]) (mkFrame (if ok then Out else MaxGet v) sv :: fs).
Proof.
  intros [[H1 H2 H3 H4 H0 H5 H6] H7]. apply Forall_cons in H7 as [Hlt H7]. unfold cas_ok in Hlt. cbn [pc] in Hlt. unfold compare_exchange_n.
  destruct (Z.eqb_spec (max_critical_section_cycles st) old) as [E|_].
  - rewrite inv_stats_idle by done. split; [|done].
    split; cbn [total_critical_section_cycles critical_section_count max_critical_section_cycles log set_field]; try done.
    + intros w Hw. destruct (H4 w Hw) as [?|[[= ->]|?]%comparing_cons]; [left; lia|left; lia|by right].
    + lia.
    + apply elem_of_cons. right. apply H6. rewrite comparing_cons. by left.
    + intros w Hw. apply H6. rewrite comparing_cons. by right.
  - split; [by split|]. by constructor.
Qed.

Lemma run1_stats tsc l st d f l' st' d' p' fs :
  run1 tsc l st d (pc f) = (l', st', d', p') → inv_stats st (f :: fs) → inv_stats st' (mkFrame p' (saved f) :: fs).
Proof.
  intros Hrun H. destruct f as [p sv]. cbn [pc saved] in *.
  destruct p; cbn [run1 exchange] in Hrun; simplify_eq; try (rewrite inv_stats_idle in H by done; by rewrite inv_stats_idle by done).
  - rewrite inv_stats_idle in H by done. by rewrite inv_stats_idle by (by destruct (taken l)).
  - rewrite inv_stats_idle in H by done. by rewrite inv_stats_idle by (by destruct spin).
  - rewrite inv_stats_idle in H by done. by rewrite inv_stats_idle by (by destruct c).
  - by apply add_total_stats.
  - by apply add_count_stats.
  - by apply max_get_stats.
  - apply max_cas_stats in H. destruct (compare_exchange_n _ _ _) as [[ok o] now]. by simplify_eq.
Qed.

Lemma spin_sys_step_stats s s' : inv_stats (stats s) (all_frames (cores s)) → sys_step s s' → inv_stats (stats s') (all_frames (cores s')).
Proof.
  intros H Hstep. destruct Hstep as [l st cs i d f bs tsc l' st' d' p' Hi Hrun|l st cs i d f bs spin Hi Hp|l st cs i d f bs Hi Hp
    |l st cs i d f bs d' Hi Hp|l st cs i f bs Hi|l st cs i d f g bs Hi Hp]; cbn [cores stats] in *;
    destruct (all_frames_split cs i _ Hi) as (l1 & l2 & Eall & Eins); rewrite Eins; rewrite Eall in H; unfold frames_of in *; cbn [top below app] in *;
    rewrite <- Permutation_middle in H |- *.
  - by eapply run1_stats.
  - rewrite inv_stats_idle in H by (by rewrite Hp). by rewrite inv_stats_idle.
  - rewrite inv_stats_idle in H by (by rewrite Hp). by rewrite inv_stats_idle.
  - done.
  - rewrite inv_stats_idle by done. by rewrite <- Permutation_middle.
  - rewrite inv_stats_idle in H by (by rewrite Hp). by rewrite <- Permutation_middle in H.
Qed.

(** the statistics lose nothing.  When no core is counting, the number of critical
    sections and the sum of their lengths are those of all that were counted, modulo
    2^64, and the maximum is the greatest: concurrent updates of [AtomicMax] never
    overwrite a greater value. *)
Theorem stats_exact s :
  reachable s → Forall (λ f, counting (pc f) = false ∧ comparing (pc f) = None) (all_frames (cores s)) →
  total_critical_section_cycles (stats s) = u64 (sumZ (log (stats s)))
  ∧ critical_section_count (stats s) = u64 (Z.of_nat (length (log (stats s))))
  ∧ max_critical_section_cycles (stats s) = foldr Z.max 0 (log (stats s)).
Proof.
  intros (ds & Hr) Hq.
  assert (inv_stats (stats s) (all_frames (cores s))) as [[H1 H2 H3 H4 H0 H5 _] _].
  { revert s Hr Hq. refine (λ s Hr _, rtc_ind_r (λ s, inv_stats (stats s) (all_frames (cores s))) _ _ _ s Hr).
    - assert (∀ fs, Forall (λ f, pc f = Out) fs → inv_stats new_stats fs) as Hout.
      { clear. intros fs H. induction H as [|f fs Hf _ IH]; [|by rewrite inv_stats_idle by (by rewrite Hf)].
        split; [|constructor]. split; cbn; try done; try (intros v Hv; by apply elem_of_nil in Hv). by apply elem_of_cons; left. }
      apply Hout. unfold boot, all_frames. cbn [cores]. clear. induction ds as [|d ds IH]; [constructor|]. cbn [fmap list_fmap]. rewrite bind_cons. by constructor.
    - intros y z _ Hstep Hy. by eapply spin_sys_step_stats. }
  assert (filter (λ f, counting (pc f) = true) (all_frames (cores s)) = []) as E.
  { clear - Hq. induction Hq as [|f fs [Hf _] _ IH]; [done|]. rewrite filter_cons_False; [done|by rewrite Hf]. }
  rewrite E, Z.add_0_r, (u64_id _ H3) in H2. split; [done|]. split; [done|].
  assert (∀ v, v ∈ log (stats s) → v <= max_critical_section_cycles (stats s)) as Hup.
  { intros v Hv. destruct (H4 v Hv) as [?|Hin]; [done|]. apply list_elem_of_fmap in Hin as (f & Ef & Hf).
    apply (proj1 (Forall_forall _ _) Hq) in Hf as [_ Hf]. cbn in Ef. congruence. }
  clear - Hup H0 H5. set (m := max_critical_section_cycles (stats s)) in *. clearbody m. revert Hup H5. generalize (log (stats s)). intros lg Hup Hin.
  assert (foldr Z.max 0 lg <= m) by (clear Hin; induction lg as [|v lg IH]; cbn; [lia|]; pose proof (Hup v (list_elem_of_here _ _)); assert (foldr Z.max 0 lg <= m) by (apply IH; intros w Hw; apply Hup; by apply list_elem_of_further); lia).
  assert (∀ v, v ∈ 0 :: lg → v <= foldr Z.max 0 lg) as Hge.
  { clear. induction lg as [|w lg IH]; cbn; intros v Hv; rewrite !elem_of_cons in Hv; [destruct Hv as [->|Hv]; [lia|by apply elem_of_nil in Hv]|].
    destruct Hv as [->|[->|Hv]]; [specialize (IH 0 ltac:(set_solver)); lia|lia|specialize (IH v ltac:(set_solver)); lia]. }
  specialize (Hge m Hin). lia.
Qed.

(** ** Concrete runs *)

Local Ltac act c := eapply rtc_l; [c|cbn [insert list_insert saved pc]].
Local Ltac run_core i tsc := act ltac:(eapply (step_run _ _ _ i _ _ _ tsc); [reflexivity|cbn; reflexivity]).
Local Ltac lock_core i := act ltac:(eapply (step_lock _ _ _ i _ _ _ true); reflexivity).
Local Ltac unlock_core i := act ltac:(eapply (step_unlock _ _ _ i); reflexivity).

(** The first core has the lock; the second was interrupted before it could ask for it,
    and the handler found it taken. *)
Definition demo_taken : Sys :=
  mkSys (mkSpinLock true 10 false false) new_stats
    [mkCore true (mkFrame Held false) []; mkCore true (mkFrame (Fail true true) true) [mkFrame (Cli true false) false]].

Lemma demo_taken_reachable : reachable demo_taken.
Proof.
  exists [false; false]. unfold boot, new_lock. cbn [fmap list_fmap].
  lock_core 0%nat. do 5 run_core 0%nat 10. lock_core 1%nat. run_core 1%nat 11.
  act ltac:(eapply (step_interrupt _ _ _ 1%nat); reflexivity). lock_core 1%nat. do 3 run_core 1%nat 12. apply rtc_refl.
Qed.

Lemma spin_lock_exclusive_witness :
  reachable demo_taken ∧ holders (all_frames (cores demo_taken)) = 1%nat
  ∧ Forall (λ f, critical (pc f) = false) (below (mkCore true (mkFrame (Fail true true) true) [mkFrame (Cli true false) false])).
Proof.
  pose proof (spin_lock_exclusive demo_taken demo_taken_reachable) as [H1 H2]. split; [exact demo_taken_reachable|]. split; [exact H1|].
  exact (proj1 (H2 1%nat _ eq_refl)).
Defined.

(** Two critical sections of one core; the first is not counted. *)
Definition demo_counted : Sys := mkSys (mkSpinLock false 30 true false) (mkStats 15 15 1 [15]) [mkCore false (mkFrame Out false) []].

Lemma demo_counted_reachable : reachable demo_counted.
Proof.
  exists [false]. unfold boot, new_lock, new_stats. cbn [fmap list_fmap].
  lock_core 0%nat. do 5 run_core 0%nat 10. unlock_core 0%nat. do 7 run_core 0%nat 20.
  lock_core 0%nat. do 5 run_core 0%nat 30. unlock_core 0%nat. do 7 run_core 0%nat 45. do 4 run_core 0%nat 50. apply rtc_refl.
Qed.

Lemma stats_exact_witness :
  reachable demo_counted ∧ critical_section_count (stats demo_counted) = 1 ∧ max_critical_section_cycles (stats demo_counted) = foldr Z.max 0 [15].
Proof.
  destruct (stats_exact demo_counted demo_counted_reachable) as (_ & H2 & H3).
  - apply Forall_forall. intros f Hf. apply list_elem_of_singleton in Hf as ->. split; reflexivity.
  - split; [exact demo_counted_reachable|]. split; [exact H2|exact H3].
Defined.
