(* ===== verification/Machine.v ===== *)
(** * The machine and the switch of threads ([machine.S], [thread.cc])

    A machine that runs the instructions of [src/kernel/machine.S].  A routine is the
    list of its instructions, up to the one that leaves it; [exec] runs it.  Memory is
    bytes, a word is eight of them ([load64], [store64]).  The C++ function a routine
    calls is a parameter of [exec], with the address it returns to.  Not modelled: page
    faults of the routines themselves, and the flags that no modelled instruction looks at.

    [threads_ok] relates the machine to the threads that are parked on a core: each has
    its words on a stack of its own ([parked]).  [switch_ok] is the step of
    [context_switch_] between them, [core_step] everything that happens on a core, and
    [context_switch_returns] and [new_thread_starts] what a thread sees of it. *)

From stdpp Require Import gmap.
From S2P Require Import Prelude.

Inductive Reg :=
| RAX | RBX | RCX | RDX | RSI | RDI | RBP | RSP | R8 | R9 | R10 | R11 | R12 | R13 | R14 | R15.
#[export] Instance reg_eq_dec : EqDecision Reg.
Proof. solve_decision. Defined.

Record Mach := mkMach {
  regs : Reg → Z; rip : Z; flags : Z; cr2 : Z; cr3 : Z;
  fsbase : Z; gsbase : Z; cs : Z; ss : Z; mem : Z → Z
}.
#[export] Instance eta_Mach : Eta Mach := fun m =>
  mkMach (regs m) (rip m) (flags m) (cr2 m) (cr3 m) (fsbase m) (gsbase m) (cs m) (ss m) (mem m).

(** ** Words in memory *)

Definition load64 (m : Z → Z) (a : Z) : Z :=
  let b i := m (u64 (a + i)) * 256 ^ i in
  b 0 + b 1 + b 2 + b 3 + b 4 + b 5 + b 6 + b 7.
Definition store64 (a v : Z) (m : Z → Z) : Z → Z :=
  fun x => let i := u64 (x - a) in if i <? 8 then v / 256 ^ i mod 256 else m x.

Definition reg (r : Reg) (m : Mach) : Z := regs m r.
Definition set_reg (r : Reg) (v : Z) (m : Mach) : Mach :=
  m .[ regs := fun x => if decide (x = r) then v else regs m x ].

(** ** Instructions *)

Definition IF : Z := 512.
Definition DF : Z := 1024.

Inductive Instr :=
| Push (r : Reg) | Pop (r : Reg) | PushF | PopF
| Mov (src dst : Reg) | MovImm (v : Z) (dst : Reg) | AddImm (v : Z) (dst : Reg)
| MovFromCr2 (dst : Reg) | MovToCr2 (src : Reg) | MovFromCr3 (dst : Reg) | MovToCr3 (src : Reg)
| Cli | Cld | RdFsBase (dst : Reg) | WrFsBase (src : Reg)
| StoreFs (src : Reg) (off : Z) | LoadFs (off : Z) (dst : Reg)
| StoreGs (src : Reg) (off : Z) | LoadGs (off : Z) (dst : Reg)
| StoreAt (src base : Reg) | LoadAt (base dst : Reg)
| RepMovsb | RepStosb
| Call | Ret | IRetQ | SysRetQ.

Definition push (v : Z) (m : Mach) : Mach :=
  let sp := u64 (reg RSP m - 8) in
  (set_reg RSP sp m) .[ mem := store64 sp v (mem m) ].
Definition pop (m : Mach) : Z * Mach :=
  (load64 (mem m) (reg RSP m), set_reg RSP (u64 (reg RSP m + 8)) m).

(** [rep movsb] and [rep stosb]: one byte a turn, up or down. *)
Definition rep_step (m : Mach) : Z := if Z.land (flags m) DF =? 0 then 1 else -1.
Fixpoint rep_movsb (n : nat) (m : Mach) : Mach :=
  match n with
  | O => m
  | S n =>
      let m := m .[ mem := fun x => if x =? reg RDI m then mem m (reg RSI m) else mem m x ] in
      let m := set_reg RDI (u64 (reg RDI m + rep_step m)) m in
      let m := set_reg RSI (u64 (reg RSI m + rep_step m)) m in
      rep_movsb n (set_reg RCX (u64 (reg RCX m - 1)) m)
  end.
Fixpoint rep_stosb (n : nat) (m : Mach) : Mach :=
  match n with
  | O => m
  | S n =>
      let m := m .[ mem := fun x => if x =? reg RDI m then u8 (reg RAX m) else mem m x ] in
      let m := set_reg RDI (u64 (reg RDI m + rep_step m)) m in
      rep_stosb n (set_reg RCX (u64 (reg RCX m - 1)) m)
  end.

Definition iretq (m : Mach) : Mach :=
  let '(ip, m) := pop m in let '(c, m) := pop m in let '(f, m) := pop m in
  let '(sp, m) := pop m in let '(s, m) := pop m in
  (set_reg RSP sp m) .[ rip := ip ] .[ cs := c ] .[ flags := f ] .[ ss := s ].

(** The selectors, and those the processor takes from [STAR]. *)
Definition USER_BASE_SELECTOR : Z := Z.lor (Z.shiftl 1 3) 3.
Definition KERNEL_BASE_SELECTOR : Z := Z.shiftl 5 3.
Definition STAR : Z := Z.lor (Z.shiftl KERNEL_BASE_SELECTOR 32) (Z.shiftl USER_BASE_SELECTOR 48).
Definition USER_CS : Z := Z.lor (Z.shiftl 3 3) 3.
Definition KERNEL_CS : Z := Z.shiftl 5 3.
Definition sysret_cs : Z := Z.lor (Z.shiftr STAR 48 + 16) 3.
Definition sysret_ss : Z := Z.lor (Z.shiftr STAR 48 + 8) 3.
Definition syscall_cs : Z := Z.land (u16 (Z.shiftr STAR 32)) 0xfffc.

Section machine.
(** The C++ function, and where it returns to. *)
Context (callee : Mach → option Mach) (return_address : Z).

Definition exec1 (i : Instr) (m : Mach) : option Mach :=
  match i with
  | Push r => Some (push (reg r m) m)
  | Pop r => let '(v, m) := pop m in Some (set_reg r v m)
  | PushF => Some (push (flags m) m)
  | PopF => let '(v, m) := pop m in Some (m .[ flags := v ])
  | Mov src dst => Some (set_reg dst (reg src m) m)
  | MovImm v dst => Some (set_reg dst v m)
  | AddImm v dst => Some (set_reg dst (u64 (reg dst m + v)) m)
  | MovFromCr2 dst => Some (set_reg dst (cr2 m) m)
  | MovToCr2 src => Some (m .[ cr2 := reg src m ])
  | MovFromCr3 dst => Some (set_reg dst (cr3 m) m)
  | MovToCr3 src => Some (m .[ cr3 := reg src m ])
  | Cli => Some (m .[ flags := Z.land (flags m) (Z.lnot IF) ])
  | Cld => Some (m .[ flags := Z.land (flags m) (Z.lnot DF) ])
  | RdFsBase dst => Some (set_reg dst (fsbase m) m)
  | WrFsBase src => Some (m .[ fsbase := reg src m ])
  | StoreFs src off => Some (m .[ mem := store64 (u64 (fsbase m + off)) (reg src m) (mem m) ])
  | LoadFs off dst => Some (set_reg dst (load64 (mem m) (u64 (fsbase m + off))) m)
  | StoreGs src off => Some (m .[ mem := store64 (u64 (gsbase m + off)) (reg src m) (mem m) ])
  | LoadGs off dst => Some (set_reg dst (load64 (mem m) (u64 (gsbase m + off))) m)
  | StoreAt src base => Some (m .[ mem := store64 (reg base m) (reg src m) (mem m) ])
  | LoadAt base dst => Some (set_reg dst (load64 (mem m) (reg base m)) m)
  | RepMovsb => Some (rep_movsb (Z.to_nat (reg RCX m)) m)
  | RepStosb => Some (rep_stosb (Z.to_nat (reg RCX m)) m)
  | Call => callee (push return_address m)
  | Ret => let '(ip, m) := pop m in Some (m .[ rip := ip ])
  | IRetQ => Some (iretq m)
  | SysRetQ => Some (m .[ rip := reg RCX m ] .[ flags := reg R11 m ] .[ cs := sysret_cs ] .[ ss := sysret_ss ])
  end.

Fixpoint exec (prog : list Instr) (m : Mach) : option Mach :=
  match prog with
  | [] => Some m
  | i :: prog => m ← exec1 i m; exec prog m
  end.
End machine.

(** ** The routines *)

Definition context_switch_ : list Instr :=
  [RdFsBase RAX;
   Push RBX; Push RBP; Push R12; Push R13; Push R14; Push R15; PushF;
   MovFromCr2 R15; Push R15; MovFromCr3 R14; Push R14;
   Cli; StoreFs RSP 8;
   WrFsBase RDI;
   LoadFs 8 RSP;
   Pop R14; MovToCr3 R14; Pop R15; MovToCr2 R15; PopF;
   Pop R15; Pop R14; Pop R13; Pop R12; Pop RBP; Pop RBX;
   Mov RAX RDI; Ret].

Definition pageFaultHandler_ : list Instr :=
  [Push R15; Push R14; Push R13; Push R12; Push R11; Push R10; Push R9; Push R8;
   Push RBP; Push RSI; Push RDI; Push RDX; Push RCX; Push RBX; Push RAX;
   MovFromCr2 RDI; Mov RSP RSI; Call;
   Pop RAX; Pop RBX; Pop RCX; Pop RDX; Pop RDI; Pop RSI; Pop RBP;
   Pop R8; Pop R9; Pop R10; Pop R11; Pop R12; Pop R13; Pop R14; Pop R15;
   AddImm 8 RSP; IRetQ].

Definition apitHandler_ : list Instr :=
  [Push RAX; Push RBX; Push RCX; Push RDX; Push RSI; Push RDI; Push RBP;
   Push R8; Push R9; Push R10; Push R11; Push R12; Push R13; Push R14; Push R15;
   Mov RSP RDI; Call;
   Pop R15; Pop R14; Pop R13; Pop R12; Pop R11; Pop R10; Pop R9; Pop R8;
   Pop RBP; Pop RDI; Pop RSI; Pop RDX; Pop RCX; Pop RBX; Pop RAX;
   IRetQ].

Definition PERCORE_TSS_RSP0 : Z := 44.
Definition PERCORE_TSS_RSP1 : Z := 52.
Definition PERCORE_TSS_RSP2 : Z := 60.

Definition resume_syscall_ : list Instr :=
  [Mov RDI RSP;
   Pop RAX; Pop RBX; Pop RCX; Pop RDX; Pop RSI; Pop RDI; Pop RBP;
   Pop R8; Pop R9; Pop R10; Pop R11; Pop R12; Pop R13; Pop R14; Pop R15;
   LoadAt RSP RSP; SysRetQ].

(** The last jump is a tail call. *)
Definition syscallHandler_ : list Instr :=
  [StoreGs RAX PERCORE_TSS_RSP2; StoreGs RSP PERCORE_TSS_RSP1; LoadGs PERCORE_TSS_RSP0 RSP;
   LoadGs PERCORE_TSS_RSP1 RAX;
   Push RAX; Push R15; Push R14; Push R13; Push R12; Push R11; Push R10; Push R9; Push R8;
   Push RBP; Push RDI; Push RSI; Push RDX; Push RCX; Push RBX;
   LoadGs PERCORE_TSS_RSP2 RAX; Push RAX;
   Mov RSP RDI; Call; StoreAt RAX RSP; Mov RSP RDI] ++ resume_syscall_.

Definition switch_to_user : list Instr :=
  [Mov RDI RCX; MovImm 0x200 R11; Cli; Mov RSI RSP; SysRetQ].

Definition memcpy : list Instr := [Cld; Mov RDI RAX; Mov RDX RCX; RepMovsb; Ret].
Definition memset : list Instr := [Mov RDI RAX; Mov RDX RCX; RepStosb; Ret].

(** [strlen]: the byte at [%rax] is compared with zero, [%rcx] counts. *)
Fixpoint strlen (fuel : nat) (m : Z → Z) (rax rcx : Z) : option Z :=
  match fuel with
  | O => None
  | S fuel => if m rax =? 0 then Some rcx else strlen fuel m (u64 (rax + 1)) (u64 (rcx + 1))
  end.

(** The [syscall] instruction, with the entry and the mask the kernel sets up. *)
Definition syscall_entry (lstar : Z) (m : Mach) : Mach :=
  let m := set_reg RCX (rip m) m in
  let m := set_reg R11 (flags m) m in
  m .[ rip := lstar ] .[ flags := Z.land (flags m) (Z.lnot IF) ] .[ cs := syscall_cs ] .[ ss := syscall_cs + 8 ].

(** An interrupt or a fault: the processor pushes where it was on the stack [sp]
    (that of the [TSS] when it comes from user mode), with the error code of a fault,
    and enters the handler.  A trap gate leaves the interrupt flag as it is. *)
Definition push_all (vs : list Z) (m : Mach) : Mach := foldl (λ m v, push v m) m vs.
Definition interrupt_words (m : Mach) : list Z := [ss m; reg RSP m; flags m; cs m; rip m].
Definition interrupt_entry (trap : bool) (error : list Z) (sp handler : Z) (m : Mach) : Mach :=
  let m' := push_all (interrupt_words m ++ error) (set_reg RSP sp m) in
  m' .[ rip := handler ] .[ flags := if trap then flags m else Z.land (flags m) (Z.lnot IF) ] .[ cs := KERNEL_CS ].

(** ** Words *)

Lemma u64_of_nat_off a i : is_u64 a → 0 <= i < 8 → u64 (u64 (a + i) - a) = i.
Proof. intros. word_lia. Qed.

Lemma load_store_eq a v m : is_u64 a → is_u64 v → load64 (store64 a v m) a = v.
Proof.
  intros Ha Hv. unfold load64, store64. rewrite !u64_of_nat_off by (done || lia). cbn [Z.ltb Z.compare Pos.compare Pos.compare_cont].
  change (256 ^ 0) with 1. change (256 ^ 1) with 256. change (256 ^ 2) with 65536. change (256 ^ 3) with 16777216.
  change (256 ^ 4) with 4294967296. change (256 ^ 5) with 1099511627776. change (256 ^ 6) with 281474976710656. change (256 ^ 7) with 72057594037927936.
  word_lia.
Qed.

(** The words at [a] and [b] do not overlap. *)
Definition apart (a b : Z) : Prop := a + 8 <= b ∨ b + 8 <= a.
Definition in_mem (a : Z) : Prop := 0 <= a ∧ a + 8 <= 2 ^ 64.

Lemma load_store_ne a b v m : in_mem a → in_mem b → apart a b → load64 (store64 a v m) b = load64 m b.
Proof.
  intros [Ha Ha2] [Hb Hb2] Hab. unfold load64, store64. change (2 ^ 64) with 18446744073709551616 in *.
  assert (∀ i, 0 <= i < 8 → (u64 (u64 (b + i) - a) <? 8) = false) as E.
  { intros i Hi. apply Z.ltb_ge. unfold apart in Hab. word_lia. }
  by rewrite !E by lia.
Qed.

Lemma load64_range m a : (∀ x, 0 <= m x < 256) → is_u64 (load64 m a).
Proof.
  intros Hm. unfold load64.
  change (256 ^ 0) with 1. change (256 ^ 1) with 256. change (256 ^ 2) with 65536. change (256 ^ 3) with 16777216.
  change (256 ^ 4) with 4294967296. change (256 ^ 5) with 1099511627776. change (256 ^ 6) with 281474976710656. change (256 ^ 7) with 72057594037927936.
  pose proof (Hm (u64 (a + 0))). pose proof (Hm (u64 (a + 1))). pose proof (Hm (u64 (a + 2))). pose proof (Hm (u64 (a + 3))).
  pose proof (Hm (u64 (a + 4))). pose proof (Hm (u64 (a + 5))). pose proof (Hm (u64 (a + 6))). pose proof (Hm (u64 (a + 7))).
  unfold is_u64. lia.
Qed.

Lemma reg_set_eq r v m : reg r (set_reg r v m) = v.
Proof. unfold reg, set_reg. cbn [regs set_field]. by rewrite decide_True. Qed.
Lemma reg_set_ne r r' v m : r ≠ r' → reg r (set_reg r' v m) = reg r m.
Proof. intros. unfold reg, set_reg. cbn [regs set_field]. by rewrite decide_False. Qed.

(** ** Runs of pushes and pops *)

Fixpoint pop_all (rs : list Reg) (m : Mach) : Mach :=
  match rs with
  | [] => m
  | r :: rs => pop_all rs (let '(v, m) := pop m in set_reg r v m)
  end.

(** The parts of the machine that pushes and pops leave alone. *)
Definition same_control (m m' : Mach) : Prop :=
  rip m' = rip m ∧ flags m' = flags m ∧ cr2 m' = cr2 m ∧ cr3 m' = cr3 m ∧ fsbase m' = fsbase m ∧ gsbase m' = gsbase m
  ∧ cs m' = cs m ∧ ss m' = ss m.

Lemma same_control_trans m1 m2 m3 : same_control m1 m2 → same_control m2 m3 → same_control m1 m3.
Proof. unfold same_control. intros (?&?&?&?&?&?&?&?) (?&?&?&?&?&?&?&?). split_and!; congruence. Qed.

Section runs.
Context (callee : Mach → option Mach) (ra : Z).
Abbreviation exec := (exec callee ra).

Lemma exec_app p q m : exec (p ++ q) m = (m ← exec p m; exec q m).
Proof. revert m. induction p as [|i p IH]; intros m; [done|]. cbn [app Machine.exec]. destruct (exec1 callee ra i m); [apply IH|done]. Qed.

Lemma exec_pushes rs : RSP ∉ rs → ∀ m prog,
  exec ((Push <$> rs) ++ prog) m = exec prog (push_all ((λ r, reg r m) <$> rs) m).
Proof.
  induction rs as [|r rs IH]; intros Hrs m prog; [done|]. rewrite not_elem_of_cons in Hrs. destruct Hrs as [Hr Hrs].
  cbn [fmap list_fmap app Machine.exec exec1 mbind option_bind push_all foldl]. rewrite IH by done. f_equal. unfold push_all. f_equal.
  apply list_fmap_ext. intros i r' Hr'. apply list_elem_of_lookup_2 in Hr'. unfold push. apply (reg_set_ne r' RSP). congruence.
Qed.

Lemma exec_pops rs m prog : exec ((Pop <$> rs) ++ prog) m = exec prog (pop_all rs m).
Proof. revert m. induction rs as [|r rs IH]; intros m; [done|]. cbn [fmap list_fmap app Machine.exec exec1 mbind option_bind pop_all]. apply IH. Qed.
End runs.

(** The words below [sp], the first pushed at the top. *)
Definition pushed (mem : Z → Z) (sp : Z) (vs : list Z) : Prop :=
  ∀ i v, vs !! i = Some v → load64 mem (sp - 8 * Z.of_nat (S i)) = v.

Lemma push_all_spec vs : ∀ m, let sp := reg RSP m in
  8 * Z.of_nat (length vs) <= sp < 2 ^ 64 → Forall is_u64 vs →
  let m' := push_all vs m in
  reg RSP m' = sp - 8 * Z.of_nat (length vs) ∧ (∀ r, r ≠ RSP → reg r m' = reg r m) ∧ same_control m m'
  ∧ pushed (mem m') sp vs ∧ ∀ a, in_mem a → sp <= a ∨ a + 8 <= sp - 8 * Z.of_nat (length vs) → load64 (mem m') a = load64 (mem m) a.
Proof.
  induction vs as [|v vs IH] using rev_ind; intros m sp Hsp Hvs m'.
  - cbn [length] in *. subst m'. split_and!; [change (sp = sp - 8 * Z.of_nat 0); lia|done|done|by intros i v Hi; rewrite lookup_nil in Hi|done].
  - rewrite length_app in *. cbn [length] in *. apply Forall_app in Hvs as [Hvs [Hv _]%Forall_cons].
    destruct (IH m) as (H1 & H2 & H3 & H4 & H5); [lia|done|]. fold sp in H1, H4, H5. subst m'. unfold push_all. rewrite foldl_app. cbn [foldl].
    change (foldl (λ m v, push v m) m vs) with (push_all vs m). set (m1 := push_all vs m) in *. clearbody m1. change (2 ^ 64) with 18446744073709551616 in *.
    assert (u64 (reg RSP m1 - 8) = sp - 8 * Z.of_nat (length vs + 1)) as E by (rewrite H1; word_lia).
    assert (mem (push v m1) = store64 (sp - 8 * Z.of_nat (length vs + 1)) v (mem m1)) as Em by (unfold push; cbn [mem set_field]; by rewrite E).
    assert (in_mem (sp - 8 * Z.of_nat (length vs + 1))) as Hin by (split; change (2 ^ 64) with 18446744073709551616; lia).
    split_and!.
    + unfold push. rewrite E. exact (reg_set_eq RSP _ m1).
    + intros r Hr. unfold push. etrans; [apply (reg_set_ne r RSP _ m1 Hr)|by apply H2].
    + by eapply same_control_trans.
    + rewrite Em. intros i w Hi. apply lookup_app_Some in Hi as [Hi|[Hi Hw]].
      * pose proof (lookup_lt_Some _ _ _ Hi). rewrite load_store_ne; [by apply H4|done|split; change (2 ^ 64) with 18446744073709551616; lia|unfold apart; lia].
      * apply list_lookup_singleton_Some in Hw as [Hz ->]. replace (Z.of_nat (S i)) with (Z.of_nat (length vs + 1)) by lia.
        apply load_store_eq; [word_lia|done].
    + rewrite Em. intros a Ha Hout. rewrite load_store_ne; [apply H5; [done|lia]|done|done|unfold apart; lia].
Qed.

(** Popping the words above the stack pointer. *)
Lemma pop_all_spec rs : ∀ m, let sp := reg RSP m in
  0 <= sp → sp + 8 * Z.of_nat (length rs) < 2 ^ 64 → RSP ∉ rs → NoDup rs →
  let m' := pop_all rs m in
  reg RSP m' = sp + 8 * Z.of_nat (length rs) ∧ (∀ r, r ≠ RSP → r ∉ rs → reg r m' = reg r m)
  ∧ (∀ i r, rs !! i = Some r → reg r m' = load64 (mem m) (sp + 8 * Z.of_nat i)) ∧ same_control m m' ∧ mem m' = mem m.
Proof.
  induction rs as [|r rs IH]; intros m sp H0 Hsp Hrs Hnd m'.
  - cbn [length] in *. subst m'. split_and!; [change (sp = sp + 8 * Z.of_nat 0); lia|done|by intros i r Hi; rewrite lookup_nil in Hi|done|done].
  - rewrite not_elem_of_cons in Hrs. destruct Hrs as [Hr Hrs]. apply NoDup_cons in Hnd as [Hnr Hnd]. cbn [length pop_all] in *.
    unfold pop in m'. set (m1 := set_reg r (load64 (mem m) sp) (set_reg RSP (u64 (sp + 8)) m)).
    assert (reg RSP m1 = sp + 8) as E1.
    { unfold m1. rewrite reg_set_ne by done. rewrite reg_set_eq. change (2 ^ 64) with 18446744073709551616 in *. word_lia. }
    destruct (IH m1) as (H1 & H2 & H3 & H4 & H5); rewrite ?E1; [lia|lia|done|done|]. rewrite E1 in H1, H3. change m' with (pop_all rs m1).
    split_and!.
    + rewrite H1. lia.
    + intros r' Hr' Hin. rewrite not_elem_of_cons in Hin. destruct Hin as [Hne Hin]. rewrite H2 by done. unfold m1. by rewrite !reg_set_ne.
    + intros [|i] r' Hi.
      * injection Hi as <-. rewrite H2 by done. unfold m1. rewrite reg_set_eq. f_equal. lia.
      * rewrite (H3 i r' Hi). change (mem m1) with (mem m). f_equal. lia.
    + by eapply same_control_trans.
    + exact H5.
Qed.

(** ** Switching threads *)

(** What a thread that is not running finds again when it runs: its stack pointer
    after the return, the registers a function must keep, the address it returns to. *)
Record Kept := mkKept {
  k_sp : Z; k_cr3 : Z; k_cr2 : Z; k_flags : Z; k_r15 : Z; k_r14 : Z; k_r13 : Z; k_r12 : Z; k_rbp : Z; k_rbx : Z; k_ret : Z
}.

(** Its words on the stack, from the saved stack pointer up. *)
Definition kept_words (k : Kept) : list Z :=
  [k_cr3 k; k_cr2 k; k_flags k; k_r15 k; k_r14 k; k_r13 k; k_r12 k; k_rbp k; k_rbx k; k_ret k].

(** The thread that calls [context_switch_] in the state [m]. *)
Definition running (m : Mach) : Kept :=
  mkKept (reg RSP m + 8) (cr3 m) (cr2 m) (flags m) (reg R15 m) (reg R14 m) (reg R13 m) (reg R12 m) (reg RBP m) (reg RBX m)
    (load64 (mem m) (reg RSP m)).

(** [saved_rsp] of the control block [t], and the words it points to. *)
Definition parked (mm : Z → Z) (t : Z) (k : Kept) : Prop :=
  load64 mm (t + 8) = k_sp k - 80 ∧ ∀ i v, kept_words k !! i = Some v → load64 mm (k_sp k - 80 + 8 * Z.of_nat i) = v.

(** The thread [k] runs. *)
Definition resumed (m : Mach) (k : Kept) : Prop :=
  reg RSP m = k_sp k ∧ rip m = k_ret k ∧ flags m = k_flags k ∧ cr2 m = k_cr2 k ∧ cr3 m = k_cr3 k
  ∧ reg R15 m = k_r15 k ∧ reg R14 m = k_r14 k ∧ reg R13 m = k_r13 k ∧ reg R12 m = k_r12 k ∧ reg RBP m = k_rbp k ∧ reg RBX m = k_rbx k.

Lemma context_switch_parts :
  context_switch_ = [RdFsBase RAX] ++ (Push <$> [RBX; RBP; R12; R13; R14; R15])
    ++ [PushF; MovFromCr2 R15; Push R15; MovFromCr3 R14; Push R14; Cli; StoreFs RSP 8; WrFsBase RDI; LoadFs 8 RSP;
        Pop R14; MovToCr3 R14; Pop R15; MovToCr2 R15; PopF]
    ++ (Pop <$> [R15; R14; R13; R12; RBP; RBX]) ++ [Mov RAX RDI; Ret].
Proof. done. Qed.

(** The words the call pushes on the stack of the caller. *)
Definition switch_pushes (m : Mach) : list Z :=
  [reg RBX m; reg RBP m; reg R12 m; reg R13 m; reg R14 m; reg R15 m; flags m; cr2 m; cr3 m].

Definition words_ok (m : Mach) : Prop := Forall is_u64 (switch_pushes m).

Definition after_save (m : Mach) : Z → Z := store64 (fsbase m + 8) (reg RSP m - 72) (mem (push_all (switch_pushes m) m)).

Lemma save_parked m :
  words_ok m → 72 <= reg RSP m → reg RSP m + 8 < 2 ^ 64 → in_mem (fsbase m + 8) →
  fsbase m + 16 <= reg RSP m - 72 ∨ reg RSP m + 8 <= fsbase m + 8 →
  parked (after_save m) (fsbase m) (running m)
  ∧ ∀ a, in_mem a → apart (fsbase m + 8) a → reg RSP m <= a ∨ a + 8 <= reg RSP m - 72 → load64 (after_save m) a = load64 (mem m) a.
Proof.
  intros Hwords Hlo Hhi Hslot Hout. destruct (push_all_spec (switch_pushes m) m) as (_ & _ & _ & Hp & Hm).
  { change (length (switch_pushes m)) with 9%nat. lia. }
  { exact Hwords. }
  change (8 * Z.of_nat (length (switch_pushes m))) with 72 in Hm. unfold after_save. set (mm := mem (push_all _ m)) in *. clearbody mm.
  change (2 ^ 64) with 18446744073709551616 in *.
  assert (∀ a, in_mem a → apart (fsbase m + 8) a → load64 (store64 (fsbase m + 8) (reg RSP m - 72) mm) a = load64 mm a) as Hst
    by (intros a Ha Hap; by apply load_store_ne).
  split.
  - split.
    + rewrite load_store_eq; [cbn [running k_sp]; lia|destruct Hslot as [? Hs]; change (2 ^ 64) with 18446744073709551616 in Hs; unfold is_u64; lia|unfold is_u64; lia].
    + cbn [running k_sp]. intros i v Hi. assert (i < 10)%nat as Hlt by (by apply lookup_lt_Some in Hi).
      rewrite Hst; [|split; change (2 ^ 64) with 18446744073709551616; lia|unfold apart; lia].
      destruct (decide (i = 9%nat)) as [->|Hne].
      * injection Hi as <-. rewrite Hm; [f_equal; lia|split; change (2 ^ 64) with 18446744073709551616; lia|lia].
      * replace (reg RSP m + 8 - 80 + 8 * Z.of_nat i) with (reg RSP m - 8 * Z.of_nat (S (8 - i))) by lia. apply Hp.
        do 9 (destruct i as [|i]; [exact Hi|]). lia.
  - intros a Ha Hap Hoa. rewrite Hst by done. by apply Hm.
Qed.

(** Reading a register of a state under construction. *)
Lemma reg_rip r v m : reg r (m .[ rip := v ]) = reg r m.
Proof. done. Qed.
Lemma reg_flags r v m : reg r (m .[ flags := v ]) = reg r m.
Proof. done. Qed.
Lemma reg_cr2 r v m : reg r (m .[ cr2 := v ]) = reg r m.
Proof. done. Qed.
Lemma reg_cr3 r v m : reg r (m .[ cr3 := v ]) = reg r m.
Proof. done. Qed.
Lemma reg_fsbase r v m : reg r (m .[ fsbase := v ]) = reg r m.
Proof. done. Qed.
Lemma reg_mem r v m : reg r (m .[ mem := v ]) = reg r m.
Proof. done. Qed.
Create Rewrite HintDb mach.
#[export] Hint Rewrite reg_rip reg_flags reg_cr2 reg_cr3 reg_fsbase reg_mem reg_set_eq : mach.
Ltac read_regs := repeat first [progress autorewrite with mach | rewrite reg_set_ne by discriminate].

(** Restoring, up to the flags: the control block, the stack pointer, the control registers. *)
Lemma restore_control callee ra m b k :
  parked (mem m) b k → is_u64 b → reg RDI m = b → 80 <= k_sp k < 2 ^ 64 → b + 16 <= 2 ^ 64 →
  ∃ m', exec callee ra [WrFsBase RDI; LoadFs 8 RSP; Pop R14; MovToCr3 R14; Pop R15; MovToCr2 R15; PopF] m = Some m'
    ∧ reg RSP m' = k_sp k - 56 ∧ reg RAX m' = reg RAX m ∧ mem m' = mem m ∧ fsbase m' = b ∧ gsbase m' = gsbase m
    ∧ flags m' = k_flags k ∧ cr2 m' = k_cr2 k ∧ cr3 m' = k_cr3 k.
Proof.
  intros [Hsp Hw] Hb Hrdi Hk Hb2. change (2 ^ 64) with 18446744073709551616 in *.
  set (sp := k_sp k - 80) in *. assert (k_sp k = sp + 80) as Ek by (unfold sp; lia). clearbody sp.
  pose proof (Hw 0%nat _ eq_refl) as W0. pose proof (Hw 1%nat _ eq_refl) as W1. pose proof (Hw 2%nat _ eq_refl) as W2.
  change (8 * Z.of_nat 0) with 0 in W0. change (8 * Z.of_nat 1) with 8 in W1. change (8 * Z.of_nat 2) with 16 in W2. rewrite Z.add_0_r in W0.
  set (x1 := set_reg RSP sp (m .[ fsbase := b ])).
  set (x2 := (set_reg R14 (k_cr3 k) (set_reg RSP (sp + 8) x1)) .[ cr3 := k_cr3 k ]).
  set (x3 := (set_reg R15 (k_cr2 k) (set_reg RSP (sp + 16) x2)) .[ cr2 := k_cr2 k ]).
  set (x4 := (set_reg RSP (sp + 24) x3) .[ flags := k_flags k ]).
  exists x4. split.
  - transitivity (exec callee ra [Pop R14; MovToCr3 R14; Pop R15; MovToCr2 R15; PopF] x1).
    { unfold x1. rewrite <- Hsp, <- Hrdi. cbn [exec exec1 mbind option_bind fsbase mem set_field]. rewrite Hrdi. by rewrite u64_id by word_lia. }
    transitivity (exec callee ra [Pop R15; MovToCr2 R15; PopF] x2).
    { cbn [exec exec1 mbind option_bind pop]. assert (reg RSP x1 = sp) as -> by (unfold x1; by read_regs). change (mem x1) with (mem m).
      rewrite W0, u64_id by word_lia. read_regs. reflexivity. }
    transitivity (exec callee ra [PopF] x3).
    { cbn [exec exec1 mbind option_bind pop]. assert (reg RSP x2 = sp + 8) as -> by (unfold x2; by read_regs). change (mem x2) with (mem m).
      rewrite W1, u64_id by word_lia. read_regs. replace (sp + 8 + 8) with (sp + 16) by lia. reflexivity. }
    cbn [exec exec1 mbind option_bind pop]. assert (reg RSP x3 = sp + 16) as -> by (unfold x3; by read_regs). change (mem x3) with (mem m).
    rewrite W2, u64_id by word_lia. replace (sp + 16 + 8) with (sp + 24) by lia. reflexivity.
  - assert (reg RSP x4 = sp + 24) as -> by (unfold x4; by read_regs). assert (reg RAX x4 = reg RAX m) as -> by (unfold x4, x3, x2, x1; by read_regs).
    split; [lia|]. repeat split.
Qed.

Lemma restore_ok callee ra m b k :
  parked (mem m) b k → is_u64 b → reg RDI m = b → 80 <= k_sp k < 2 ^ 64 → b + 16 <= 2 ^ 64 →
  ∃ m', exec callee ra ([WrFsBase RDI; LoadFs 8 RSP; Pop R14; MovToCr3 R14; Pop R15; MovToCr2 R15; PopF]
      ++ (Pop <$> [R15; R14; R13; R12; RBP; RBX]) ++ [Mov RAX RDI; Ret]) m = Some m'
    ∧ resumed m' k ∧ fsbase m' = b ∧ reg RAX m' = reg RAX m ∧ reg RDI m' = reg RAX m ∧ mem m' = mem m ∧ gsbase m' = gsbase m.
Proof.
  intros Hpk Hb Hrdi Hk Hb2. rewrite exec_app.
  destruct (restore_control callee ra m b k Hpk Hb Hrdi Hk Hb2) as (x4 & -> & Esp & Eax & Em & Efs & Egs & Efl & Ec2 & Ec3).
  destruct Hpk as [_ Hw]. change (2 ^ 64) with 18446744073709551616 in *.
  set (sp := k_sp k - 80) in *. assert (k_sp k = sp + 80) as Ek by (unfold sp; lia). clearbody sp. replace (k_sp k - 56) with (sp + 24) in Esp by lia.
  cbn [mbind option_bind]. rewrite exec_pops.
  destruct (pop_all_spec [R15; R14; R13; R12; RBP; RBX] x4) as (P1 & P2 & P3 & P4 & P5); rewrite ?Esp.
  { lia. } { change (length _) with 6%nat. change (2 ^ 64) with 18446744073709551616. lia. }
  { by apply (bool_decide_unpack _). } { by apply (bool_decide_unpack _). }
  rewrite Esp in P1, P3. rewrite Em in P3, P5.
  change (8 * Z.of_nat (length [R15; R14; R13; R12; RBP; RBX])) with 48 in P1. set (m2 := pop_all _ x4) in *. clearbody m2.
  assert (∀ i r, [R15; R14; R13; R12; RBP; RBX] !! i = Some r → ∀ v, kept_words k !! (3 + i)%nat = Some v → reg r m2 = v) as Hpop.
  { intros i r Hi v Hv. rewrite (P3 i r Hi). rewrite <- (Hw (3 + i)%nat v Hv). f_equal. lia. }
  destruct P4 as (C1 & C2 & C3 & C4 & C5 & C6 & _).
  rewrite Efl in C2. rewrite Ec2 in C3. rewrite Ec3 in C4. rewrite Efs in C5. rewrite Egs in C6.
  assert (reg RAX m2 = reg RAX m) as Erax by (rewrite P2; [exact Eax|done|by apply (bool_decide_unpack _)]).
  assert (load64 (mem m2) (sp + 72) = k_ret k) as Hret by (replace (mem m2) with (mem m) by done; exact (Hw 9%nat _ eq_refl)).
  cbn [exec exec1 mbind option_bind pop]. rewrite reg_set_ne by discriminate. change (mem (set_reg RDI (reg RAX m2) m2)) with (mem m2).
  replace (reg RSP m2) with (sp + 72) by lia. rewrite Hret, u64_id by word_lia.
  eexists. split; [reflexivity|]. split_and!; read_regs; try assumption; try lia.
  unfold resumed. read_regs. split_and!; [lia|reflexivity|exact C2|exact C3|exact C4|..].
  - exact (Hpop 0%nat R15 eq_refl _ eq_refl).
  - exact (Hpop 1%nat R14 eq_refl _ eq_refl).
  - exact (Hpop 2%nat R13 eq_refl _ eq_refl).
  - exact (Hpop 3%nat R12 eq_refl _ eq_refl).
  - exact (Hpop 4%nat RBP eq_refl _ eq_refl).
  - exact (Hpop 5%nat RBX eq_refl _ eq_refl).
Qed.

(** ** The threads of a core

    [stacks] gives each control block the stack of its thread.  [ths] holds the
    threads that are parked. *)

Definition bytes_ok (mm : Z → Z) : Prop := ∀ x, 0 <= mm x < 256.

Lemma store64_bytes a v mm : bytes_ok mm → bytes_ok (store64 a v mm).
Proof. intros H x. unfold store64. destruct (_ <? 8); [apply Z.mod_pos_bound; lia|apply H]. Qed.
Lemma push_all_bytes vs m : bytes_ok (mem m) → bytes_ok (mem (push_all vs m)).
Proof. revert m. induction vs as [|v vs IH]; intros m H; [done|]. apply (IH (push v m)). by apply store64_bytes. Qed.

Definition cut (a b c d : Z) : Prop := b <= c ∨ d <= a.

Record layout (stacks : gmap Z (Z * Z)) : Prop := {
  layout_stack t lo hi : stacks !! t = Some (lo, hi) → 0 <= lo ∧ lo + 80 <= hi < 2 ^ 64;
  layout_block t r : stacks !! t = Some r → 0 <= t ∧ t + 16 <= 2 ^ 64;
  layout_block_stack t r u lo hi : stacks !! t = Some r → stacks !! u = Some (lo, hi) → cut (t + 8) (t + 16) lo hi;
  layout_blocks t r u q : stacks !! t = Some r → stacks !! u = Some q → t ≠ u → apart (t + 8) (u + 8);
  layout_stacks t lo hi u lo' hi' : stacks !! t = Some (lo, hi) → stacks !! u = Some (lo', hi') → t ≠ u → cut lo hi lo' hi'
}.

Section threads.
Context (stacks : gmap Z (Z * Z)).

Definition parked_ok (mm : Z → Z) (t : Z) (k : Kept) : Prop :=
  ∃ lo hi, stacks !! t = Some (lo, hi) ∧ lo + 80 <= k_sp k <= hi ∧ parked mm t k.

Record threads_ok (m : Mach) (ths : gmap Z Kept) : Prop := {
  threads_words : words_ok m;
  threads_bytes : bytes_ok (mem m);
  threads_current : ths !! fsbase m = None;
  threads_stack : ∃ lo hi, stacks !! fsbase m = Some (lo, hi) ∧ lo <= reg RSP m <= hi;
  threads_parked t k : ths !! t = Some k → parked_ok (mem m) t k
}.

(** Room for the words of a call of [context_switch_], made from that stack. *)
Definition stack_room (m : Mach) : Prop :=
  ∃ lo hi, stacks !! fsbase m = Some (lo, hi) ∧ lo + 72 <= reg RSP m ∧ reg RSP m + 8 <= hi.
End threads.

Lemma kept_range mm t k : bytes_ok mm → parked mm t k → Forall is_u64 (kept_words k).
Proof. intros Hb [_ Hw]. apply Forall_lookup. intros i v Hi. rewrite <- (Hw i v Hi). by apply load64_range. Qed.

(** Pushes look at the stack pointer and the memory. *)
Definition same_stack (m m' : Mach) : Prop := reg RSP m = reg RSP m' ∧ mem m = mem m'.

Lemma same_stack_push v m m' : same_stack m m' → same_stack (push v m) (push v m').
Proof.
  intros [Hs Hm]. split.
  - unfold push. cbn zeta. rewrite !reg_mem, !reg_set_eq. by rewrite Hs.
  - unfold push. cbn [mem set_field]. by rewrite Hs, Hm.
Qed.
Lemma same_stack_set_reg r v m m' : r ≠ RSP → same_stack m m' → same_stack (set_reg r v m) m'.
Proof. intros Hr [Hs Hm]. split; [rewrite reg_set_ne by congruence; exact Hs|exact Hm]. Qed.
Lemma same_stack_push_all vs m m' : same_stack m m' → same_stack (push_all vs m) (push_all vs m').
Proof. revert m m'. induction vs as [|v vs IH]; intros m m' H; [exact H|]. apply (IH (push v m) (push v m')). by apply same_stack_push. Qed.
Lemma reg_push_ne r v m : r ≠ RSP → reg r (push v m) = reg r m.
Proof. intros H. unfold push. cbn zeta. by rewrite reg_mem, reg_set_ne. Qed.

(** The pushes of the control registers, through [%r15] and [%r14]. *)
Lemma push_control callee ra m prog :
  ∃ m', exec callee ra ([PushF; MovFromCr2 R15; Push R15; MovFromCr3 R14; Push R14; Cli] ++ prog) m = exec callee ra prog m'
    ∧ same_stack m' (push_all [flags m; cr2 m; cr3 m] m) ∧ fsbase m' = fsbase m ∧ ∀ r, r ≠ RSP → r ≠ R14 → r ≠ R15 → reg r m' = reg r m.
Proof.
  set (s3 := push (flags m) m). set (s4 := set_reg R15 (cr2 m) s3). set (s6 := set_reg R14 (cr3 m) (push (cr2 m) s4)).
  exists ((push (cr3 m) s6) .[ flags := Z.land (flags m) (Z.lnot IF) ]). split; [|split_and!].
  - cbn [app exec exec1 mbind option_bind]. change (cr2 (push (flags m) m)) with (cr2 m). fold s3. fold s4.
    rewrite (reg_set_eq R15 (cr2 m) s3 : reg R15 s4 = cr2 m). change (cr3 (push (cr2 m) s4)) with (cr3 m). fold s6.
    rewrite (reg_set_eq R14 (cr3 m) (push (cr2 m) s4) : reg R14 s6 = cr3 m). reflexivity.
  - assert (same_stack (push (cr3 m) s6) (push (cr3 m) (push (cr2 m) s3))) as [A B].
    { apply same_stack_push, same_stack_set_reg; [discriminate|]. apply same_stack_push, same_stack_set_reg; [discriminate|]. split; reflexivity. }
    split; [exact A|exact B].
  - reflexivity.
  - intros r H1 H4 H5. rewrite reg_flags. etrans; [exact (reg_push_ne r _ s6 H1)|]. etrans; [exact (reg_set_ne r R14 _ _ H4)|].
    etrans; [exact (reg_push_ne r _ s4 H1)|]. etrans; [exact (reg_set_ne r R15 _ s3 H5)|]. exact (reg_push_ne r _ m H1).
Qed.

(** Saving: the instructions before the switch of the control block. *)
Lemma save_exec callee ra m prog :
  words_ok m → 72 <= reg RSP m < 2 ^ 64 → 0 <= fsbase m ∧ fsbase m + 16 <= 2 ^ 64 →
  ∃ m1, exec callee ra ([RdFsBase RAX] ++ (Push <$> [RBX; RBP; R12; R13; R14; R15])
    ++ [PushF; MovFromCr2 R15; Push R15; MovFromCr3 R14; Push R14; Cli; StoreFs RSP 8] ++ prog) m = exec callee ra prog m1
    ∧ mem m1 = after_save m ∧ reg RAX m1 = fsbase m ∧ reg RDI m1 = reg RDI m.
Proof.
  intros Hwords Hsp Hfs. change (2 ^ 64) with 18446744073709551616 in *.
  rewrite exec_app. set (s1 := set_reg RAX (fsbase m) m). change (exec callee ra [RdFsBase RAX] m) with (Some s1). cbn [mbind option_bind].
  rewrite exec_pushes by (by apply (bool_decide_unpack _)).
  change ((λ r, reg r s1) <$> [RBX; RBP; R12; R13; R14; R15]) with [reg RBX m; reg RBP m; reg R12 m; reg R13 m; reg R14 m; reg R15 m].
  set (vs := [reg RBX m; reg RBP m; reg R12 m; reg R13 m; reg R14 m; reg R15 m]).
  destruct (push_all_spec vs s1) as (P1 & P2 & P3 & _); [split; [change (reg RSP s1) with (reg RSP m); change (8 * Z.of_nat (length vs)) with 48|]; (change (reg RSP s1) with (reg RSP m); lia)|..].
  { by apply (Forall_app _ vs [flags m; cr2 m; cr3 m]) in Hwords as [? _]. }
  destruct P3 as (_ & C2 & C3 & C4 & C5 & _).
  change (flags s1) with (flags m) in C2. change (cr2 s1) with (cr2 m) in C3. change (cr3 s1) with (cr3 m) in C4. change (fsbase s1) with (fsbase m) in C5.
  set (s2 := push_all vs s1) in *.
  destruct (push_control callee ra s2 ([StoreFs RSP 8] ++ prog)) as (s8 & E8 & Hst & Hfs8 & Hr8).
  change ([PushF; MovFromCr2 R15; Push R15; MovFromCr3 R14; Push R14; Cli; StoreFs RSP 8] ++ prog)
    with ([PushF; MovFromCr2 R15; Push R15; MovFromCr3 R14; Push R14; Cli] ++ [StoreFs RSP 8] ++ prog). rewrite E8. clear E8.
  rewrite C2, C3, C4 in Hst. rewrite C5 in Hfs8.
  assert (same_stack s8 (push_all (switch_pushes m) m)) as [Esp Em].
  { destruct Hst as [Hst1 Hst2]. destruct (same_stack_push_all (switch_pushes m) s1 m) as [T1 T2].
    { apply same_stack_set_reg; [discriminate|split; reflexivity]. }
    unfold s2, vs in Hst1, Hst2. split; [rewrite <- T1; exact Hst1|rewrite <- T2; exact Hst2]. }
  rewrite (proj1 (push_all_spec (switch_pushes m) m ltac:(change (8 * Z.of_nat (length (switch_pushes m))) with 72; lia) Hwords)) in Esp.
  change (8 * Z.of_nat (length (switch_pushes m))) with 72 in Esp.
  exists (s8 .[ mem := store64 (u64 (fsbase s8 + 8)) (reg RSP s8) (mem s8) ]). split; [reflexivity|].
  split_and!; [cbn [mem set_field]; rewrite Hfs8, Esp, Em, u64_id by word_lia; reflexivity|..]; rewrite reg_mem, Hr8, P2 by done; unfold s1; by read_regs.
Qed.

Section switching.
Context (stacks : gmap Z (Z * Z)) (callee : Mach → option Mach) (ra : Z).

(** The words of a parked thread are not those that another thread saves. *)
Lemma save_keeps_parked m t k :
  layout stacks → words_ok m → stack_room stacks m → t ≠ fsbase m → parked_ok stacks (mem m) t k → parked_ok stacks (after_save m) t k.
Proof using callee ra.
  intros L Hw (lo & hi & Hst & Hlo & Hhi) Hne (lo' & hi' & Ht & Hk & Hp1 & Hp2). exists lo', hi'. split_and!; [done|lia|lia|].
  destruct (layout_stack _ L _ _ _ Hst) as (? & ? & ?), (layout_stack _ L _ _ _ Ht) as (? & ? & ?), (layout_block _ L _ _ Hst), (layout_block _ L _ _ Ht).
  pose proof (layout_block_stack _ L _ _ _ _ _ Hst Hst). pose proof (layout_block_stack _ L _ _ _ _ _ Hst Ht).
  pose proof (layout_block_stack _ L _ _ _ _ _ Ht Hst). pose proof (layout_blocks _ L _ _ _ _ Hst Ht ltac:(done)).
  pose proof (layout_stacks _ L _ _ _ _ _ _ Hst Ht ltac:(done)). unfold cut in *. change (2 ^ 64) with 18446744073709551616 in *.
  destruct (save_parked m) as [_ Hkeep]; [done|lia|change (2 ^ 64) with 18446744073709551616; lia|split; change (2 ^ 64) with 18446744073709551616; lia|lia|].
  split.
  - rewrite Hkeep; [done|split; change (2 ^ 64) with 18446744073709551616; lia|done|lia].
  - intros i v Hi. assert (i < 10)%nat by (by apply lookup_lt_Some in Hi).
    rewrite Hkeep; [by apply Hp2|split; change (2 ^ 64) with 18446744073709551616; lia|unfold apart; lia|lia].
Qed.

(** [context_switch_] to the parked thread [next]: it runs where it parked, and the
    caller is parked. *)
Lemma switch_ok m ths next k :
  layout stacks → threads_ok stacks m ths → stack_room stacks m → ths !! next = Some k → reg RDI m = next →
  ∃ m', exec callee ra context_switch_ m = Some m' ∧ resumed m' k ∧ fsbase m' = next ∧ reg RAX m' = fsbase m ∧ reg RDI m' = fsbase m
    ∧ threads_ok stacks m' (<[fsbase m := running m]> (delete next ths)).
Proof using Type.
  intros L [Hw Hb Hcur Hstk Hpk] Hroom Hk Hrdi. pose proof Hroom as (lo & hi & Hst & Hlo & Hhi).
  assert (next ≠ fsbase m) as Hne by (intros ->; congruence).
  destruct (layout_stack _ L _ _ _ Hst) as (? & ? & ?), (layout_block _ L _ _ Hst) as [? ?].
  pose proof (layout_block_stack _ L _ _ _ _ _ Hst Hst) as Hcut. unfold cut in Hcut. change (2 ^ 64) with 18446744073709551616 in *.
  destruct (save_parked m) as [Hpark Hkeep]; [done|lia|change (2 ^ 64) with 18446744073709551616; lia|split; change (2 ^ 64) with 18446744073709551616; lia|lia|].
  pose proof (save_keeps_parked m next k L Hw Hroom Hne (Hpk _ _ Hk)) as (lo' & hi' & Ht & Hk' & Hp).
  destruct (layout_stack _ L _ _ _ Ht) as (? & ? & ?), (layout_block _ L _ _ Ht) as [? ?]. change (2 ^ 64) with 18446744073709551616 in *.
  assert (bytes_ok (after_save m)) as Hb' by (by apply store64_bytes, push_all_bytes).
  pose proof (kept_range _ _ _ Hb' Hp) as Hkr.
  rewrite context_switch_parts. change ([PushF; MovFromCr2 R15; Push R15; MovFromCr3 R14; Push R14; Cli; StoreFs RSP 8; WrFsBase RDI; LoadFs 8 RSP;
        Pop R14; MovToCr3 R14; Pop R15; MovToCr2 R15; PopF] ++ (Pop <$> [R15; R14; R13; R12; RBP; RBX]) ++ [Mov RAX RDI; Ret])
    with ([PushF; MovFromCr2 R15; Push R15; MovFromCr3 R14; Push R14; Cli; StoreFs RSP 8] ++ [WrFsBase RDI; LoadFs 8 RSP;
        Pop R14; MovToCr3 R14; Pop R15; MovToCr2 R15; PopF] ++ (Pop <$> [R15; R14; R13; R12; RBP; RBX]) ++ [Mov RAX RDI; Ret]).
  destruct (save_exec callee ra m ([WrFsBase RDI; LoadFs 8 RSP;
        Pop R14; MovToCr3 R14; Pop R15; MovToCr2 R15; PopF] ++ (Pop <$> [R15; R14; R13; R12; RBP; RBX]) ++ [Mov RAX RDI; Ret]))
    as (m1 & -> & Hm1 & Hax & Hdi); [done|change (2 ^ 64) with 18446744073709551616; lia..|].
  destruct (restore_ok callee ra m1 next k) as (m' & He & Hres & Hfs & Hax' & Hdi' & Hmem & _);
    [by rewrite Hm1|unfold is_u64; lia|by rewrite Hdi|change (2 ^ 64) with 18446744073709551616; lia..|].
  exists m'. split; [exact He|]. rewrite Hax', Hdi', Hax. do 4 (split; [first [assumption|reflexivity]|]).
  pose proof Hres as (R1 & R2 & R3 & R4 & R5 & R6 & R7 & R8 & R9 & R10 & R11). split.
  - unfold words_ok, switch_pushes. rewrite R3, R4, R5, R6, R7, R8, R9, R10, R11. unfold kept_words in Hkr. rewrite !Forall_cons in Hkr.
    rewrite !Forall_cons. tauto.
  - by rewrite Hmem, Hm1.
  - rewrite Hfs. by rewrite lookup_insert_ne, lookup_delete_eq by done.
  - exists lo', hi'. rewrite Hfs, R1. split; [done|lia].
  - intros t k' Hkt. rewrite Hmem, Hm1. apply lookup_insert_Some in Hkt as [[<- <-]|[Htn Hkt]].
    + exists lo, hi. cbn [running k_sp]. split_and!; [done|lia|lia|exact Hpark].
    + apply lookup_delete_Some in Hkt as [? Hkt]. by apply save_keeps_parked; [..|apply Hpk].
Qed.
End switching.

(** ** A new thread

    The words [make_thread] writes: what [context_switch_] will pop, and where. *)

Definition STACK_QUADS : Z := 2048.
Definition store_words (l : list (Z * Z)) (mm : Z → Z) : Z → Z := foldl (λ mm p, store64 p.1 p.2 mm) mm l.

Definition make_thread_stack (tcb the_stack entry common_cr3 : Z) : (Z → Z) → Z → Z :=
  let quad i := the_stack + 8 * (STACK_QUADS - i) in
  store_words
    [(quad 1, entry);      (* return address *)
     (quad 2, 0);          (* rbx *)
     (quad 3, 0);          (* rbp *)
     (quad 4, 0);          (* r12 *)
     (quad 5, 0);          (* r13 *)
     (quad 6, 0);          (* r14 *)
     (quad 7, 0);          (* r15 *)
     (quad 8, 0x200);      (* rflags (IF=1) *)
     (quad 9, 0);          (* cr2 *)
     (quad 10, common_cr3);
     (tcb + 8, quad 10)].

(** The thread this makes. *)
Definition new_thread (the_stack entry common_cr3 : Z) : Kept :=
  mkKept (the_stack + 8 * STACK_QUADS) common_cr3 0 0x200 0 0 0 0 0 0 entry.

Lemma store_words_ne l a : ∀ mm, in_mem a → Forall (λ p, in_mem p.1 ∧ apart p.1 a) l → load64 (store_words l mm) a = load64 mm a.
Proof.
  induction l as [|[b v] l IH]; intros mm Ha Hl; [done|]. apply Forall_cons in Hl as [[Hb Hab] Hl]. cbn [store_words foldl].
  change (load64 (store_words l (store64 b v mm)) a = load64 mm a). rewrite IH by done. by apply load_store_ne.
Qed.
Lemma store_words_at l1 a v l2 mm :
  in_mem a → is_u64 v → Forall (λ p, in_mem p.1 ∧ apart p.1 a) l2 → load64 (store_words (l1 ++ (a, v) :: l2) mm) a = v.
Proof.
  intros Ha Hv Hl. unfold store_words. rewrite foldl_app. cbn [foldl fst snd]. change (foldl (λ mm p, store64 p.1 p.2 mm) ?x l2) with (store_words l2 x).
  rewrite store_words_ne by done. apply load_store_eq; [|done]. destruct Ha as [? Ha]. change (2 ^ 64) with 18446744073709551616 in Ha. unfold is_u64. lia.
Qed.
Lemma store_words_bytes l mm : bytes_ok mm → bytes_ok (store_words l mm).
Proof. revert mm. induction l as [|[a v] l IH]; intros mm H; [done|]. apply (IH (store64 a v mm)). by apply store64_bytes. Qed.

Section new_thread.
Context (tcb the_stack entry common_cr3 : Z).
Context (Htcb : 0 <= tcb ∧ tcb + 16 <= 2 ^ 64) (Hstack : 0 <= the_stack ∧ the_stack + 8 * STACK_QUADS < 2 ^ 64).
Context (Hcut : cut (tcb + 8) (tcb + 16) the_stack (the_stack + 8 * STACK_QUADS)) (Hentry : is_u64 entry) (Hcr3 : is_u64 common_cr3).

Lemma make_thread_parked mm : parked (make_thread_stack tcb the_stack entry common_cr3 mm) tcb (new_thread the_stack entry common_cr3).
Proof using All.
  unfold cut, STACK_QUADS in *. change (2 ^ 64) with 18446744073709551616 in *.
  assert (∀ i, 1 <= i <= 10 → in_mem (the_stack + 8 * (2048 - i))) as Hq by (intros i Hi; split; change (2 ^ 64) with 18446744073709551616; lia).
  assert (in_mem (tcb + 8)) as Ht by (split; change (2 ^ 64) with 18446744073709551616; lia).
  unfold make_thread_stack, STACK_QUADS.
  match goal with |- parked (store_words ?l mm) _ _ => set (ws := l) end.
  assert (∀ n a v, ws !! n = Some (a, v) → is_u64 v → in_mem a → Forall (λ p, in_mem p.1 ∧ apart p.1 a) (drop (S n) ws)
    → load64 (store_words ws mm) a = v) as Hat.
  { intros n a v Hn Hv Ha Hf. rewrite <- (take_drop_middle ws n (a, v) Hn) at 1. by apply store_words_at. }
  split.
  - change (k_sp (new_thread the_stack entry common_cr3)) with (the_stack + 8 * 2048).
    rewrite (Hat 10%nat (tcb + 8) (the_stack + 8 * (2048 - 10))); [lia|reflexivity|unfold is_u64; lia|done|constructor].
  - change (k_sp (new_thread the_stack entry common_cr3)) with (the_stack + 8 * 2048). intros i v Hi.
    assert (i < 10)%nat as Hlt by (by apply lookup_lt_Some in Hi).
    replace (the_stack + 8 * 2048 - 80 + 8 * Z.of_nat i) with (the_stack + 8 * (2048 - (10 - Z.of_nat i))) by lia.
    apply (Hat (9 - i)%nat).
    + do 10 (destruct i as [|i]; [injection Hi as <-; reflexivity|]). lia.
    + do 10 (destruct i as [|i]; [injection Hi as <-; first [done|unfold is_u64; lia]|]). lia.
    + apply Hq. lia.
    + do 10 (destruct i as [|i]; [cbn [drop Nat.sub ws]; repeat (apply Forall_cons; split; [split; [first [apply Hq; lia|exact Ht]|unfold apart; cbn [fst]; lia]|]); constructor|]). lia.
Qed.

Lemma make_thread_ne mm a : in_mem a → apart (tcb + 8) a → cut a (a + 8) the_stack (the_stack + 8 * STACK_QUADS) →
  load64 (make_thread_stack tcb the_stack entry common_cr3 mm) a = load64 mm a.
Proof using All.
  unfold cut, STACK_QUADS in *. change (2 ^ 64) with 18446744073709551616 in *. intros Ha Hap Hc. apply store_words_ne; [done|].
  assert (∀ i, 1 <= i <= 10 → in_mem (the_stack + 8 * (2048 - i)) ∧ apart (the_stack + 8 * (2048 - i)) a) as Hq.
  { intros i Hi. split; [split; change (2 ^ 64) with 18446744073709551616; lia|]. unfold apart. lia. }
  unfold STACK_QUADS. repeat (apply Forall_cons; split; [first [apply Hq; lia|split; [split; change (2 ^ 64) with 18446744073709551616; cbn [fst]; lia|done]]|]).
  constructor.
Qed.
End new_thread.

(** ** What happens on a core *)

Section core.
Context (stacks : gmap Z (Z * Z)) (callee : Mach → option Mach) (ra : Z).

(** The running thread computes, in its stack and away from the words of the parked
    threads; it makes a thread; it switches to one. *)
Inductive core_step : Mach * gmap Z Kept → Mach * gmap Z Kept → Prop :=
| step_code m m' ths : fsbase m' = fsbase m → threads_ok stacks m' ths → core_step (m, ths) (m', ths)
| step_new m ths t the_stack entry common_cr3 :
    stacks !! t = Some (the_stack, the_stack + 8 * STACK_QUADS) → ths !! t = None → t ≠ fsbase m → is_u64 entry → is_u64 common_cr3 →
    core_step (m, ths) (m .[ mem := make_thread_stack t the_stack entry common_cr3 (mem m) ],
      <[t := new_thread the_stack entry common_cr3]> ths)
| step_switch m m' ths next k :
    stack_room stacks m → ths !! next = Some k → reg RDI m = next → exec callee ra context_switch_ m = Some m' →
    core_step (m, ths) (m', <[fsbase m := running m]> (delete next ths)).

Lemma core_step_ok s s' : layout stacks → threads_ok stacks s.1 s.2 → core_step s s' → threads_ok stacks s'.1 s'.2.
Proof using Type.
  intros L H Hstep. destruct Hstep as [m m' ths Hfs Hok|m ths t the_stack entry c3 Ht Hn Hne He Hc3|m m' ths next k Hroom Hk Hdi Hex]; cbn [fst snd] in *.
  - done.
  - destruct H as [Hw Hb Hcur Hstk Hpk]. destruct (layout_stack _ L _ _ _ Ht) as (? & ? & ?). pose proof (layout_block _ L _ _ Ht) as Hblk.
    assert (∀ a, in_mem a → apart (t + 8) a → cut a (a + 8) the_stack (the_stack + 8 * STACK_QUADS) →
      load64 (make_thread_stack t the_stack entry c3 (mem m)) a = load64 (mem m) a) as Hkeep.
    { intros a Ha Hap Hc. apply make_thread_ne; try done. exact (layout_block_stack _ L _ _ _ _ _ Ht Ht). }
    split; try done.
    + by apply store_words_bytes.
    + change (fsbase (m .[ mem := _ ])) with (fsbase m). by rewrite lookup_insert_ne.
    + intros t' k. change (mem (m .[ mem := ?x ])) with x. intros [[<- <-]|[Hne' Hk]]%lookup_insert_Some.
      * exists the_stack, (the_stack + 8 * STACK_QUADS). cbn [new_thread k_sp]. split_and!; [done|unfold STACK_QUADS; lia|lia|].
        apply make_thread_parked; try done. exact (layout_block_stack _ L _ _ _ _ _ Ht Ht).
      * destruct (Hpk _ _ Hk) as (lo & hi & Ht' & Hsp & Hp1 & Hp2). exists lo, hi. split_and!; [done|lia|lia|].
        destruct (layout_stack _ L _ _ _ Ht') as (? & ? & ?), (layout_block _ L _ _ Ht').
        pose proof (layout_blocks _ L _ _ _ _ Ht Ht' Hne'). pose proof (layout_block_stack _ L _ _ _ _ _ Ht' Ht).
        pose proof (layout_block_stack _ L _ _ _ _ _ Ht Ht'). pose proof (layout_stacks _ L _ _ _ _ _ _ Ht Ht' Hne').
        unfold cut, apart in *. change (2 ^ 64) with 18446744073709551616 in *. split.
        -- rewrite Hkeep; [done|split; change (2 ^ 64) with 18446744073709551616; lia|unfold apart; lia|unfold cut; lia].
        -- intros i v Hi. assert (i < 10)%nat by (by apply lookup_lt_Some in Hi).
           rewrite Hkeep; [by apply Hp2|split; change (2 ^ 64) with 18446744073709551616; lia|unfold apart; lia|unfold cut; lia].
  - destruct (switch_ok stacks callee ra m ths next k) as (m2 & He & _ & _ & _ & _ & Hok); [done..|]. rewrite He in Hex. by injection Hex as <-.
Qed.

(** A step of the others: it does not end in the thread [t]. *)
Definition other_step (t : Z) (s s' : Mach * gmap Z Kept) : Prop := core_step s s' ∧ fsbase s'.1 ≠ t.

(** A parked thread stays parked, with the same words, until it is switched to. *)
Lemma other_steps_park t k s s' :
  layout stacks → threads_ok stacks s.1 s.2 → s.2 !! t = Some k → fsbase s.1 ≠ t → rtc (other_step t) s s' →
  threads_ok stacks s'.1 s'.2 ∧ s'.2 !! t = Some k ∧ fsbase s'.1 ≠ t.
Proof using Type.
  intros L Hok Hk Hne Hrtc. induction Hrtc as [s|s s1 s' [Hstep Hne1] _ IH]; [done|]. apply IH; [by eapply core_step_ok| |done].
  destruct Hstep as [m m' ths Hfs _|m ths u the_stack entry c3 _ Hn _ _ _|m m' ths next k' Hroom Hk' Hdi Hex]; cbn [fst snd] in *; [done|..].
  - apply lookup_insert_Some. right. split; [|done]. intros ->. congruence.
  - destruct (switch_ok stacks callee ra m ths next k') as (m2 & He & _ & Hfs & _); [done..|]. rewrite He in Hex. injection Hex as <-.
    apply lookup_insert_Some. right. split; [done|]. apply lookup_delete_Some. split; [congruence|done].
Qed.

(** [context_switch_] is a transfer between coroutines.  Called with the
    control block of a parked thread, it resumes that thread: its stack, return
    address, flags, [cr2], [cr3] and the registers a function keeps are those it
    parked with, [%fs] is its control block and the previous control block is both the result
    and the first argument.  The caller is parked in its place, and the other parked
    threads are untouched. *)
Theorem context_switch_refines m ths next k :
  layout stacks → threads_ok stacks m ths → stack_room stacks m → ths !! next = Some k → reg RDI m = next →
  ∃ m', exec callee ra context_switch_ m = Some m' ∧ resumed m' k
    ∧ fsbase m' = next ∧ reg RAX m' = fsbase m ∧ reg RDI m' = fsbase m
    ∧ threads_ok stacks m' (<[fsbase m := running m]> (delete next ths)).
Proof using Type. exact (switch_ok stacks callee ra m ths next k). Qed.

(** C5: a thread that calls [context_switch_] comes back from the call.  Whatever
    the other threads do on the core meanwhile (they compute, make threads, switch
    among each other any number of times), when one of them switches back the call
    returns with the stack, the flags, the page table and the registers of the
    moment it was made, and its result is the thread that switched. *)
Theorem context_switch_returns m ths next k m1 m2 ths2 :
  layout stacks → threads_ok stacks m ths → stack_room stacks m → ths !! next = Some k → reg RDI m = next →
  exec callee ra context_switch_ m = Some m1 →
  rtc (other_step (fsbase m)) (m1, <[fsbase m := running m]> (delete next ths)) (m2, ths2) →
  stack_room stacks m2 → reg RDI m2 = fsbase m →
  ∃ m3, exec callee ra context_switch_ m2 = Some m3 ∧ resumed m3 (running m) ∧ fsbase m3 = fsbase m ∧ reg RAX m3 = fsbase m2.
Proof using Type.
  intros L Hok Hroom Hk Hdi Hex Hrtc Hroom2 Hdi2.
  destruct (switch_ok stacks callee ra m ths next k) as (m1' & He & _ & Hfs & _ & _ & Hok1); [done..|]. rewrite He in Hex. injection Hex as <-.
  assert (next ≠ fsbase m) as Hne by (intros ->; destruct Hok; congruence).
  destruct (other_steps_park (fsbase m) (running m) (m1', <[fsbase m := running m]> (delete next ths)) (m2, ths2)) as (Hok2 & Hk2 & _);
    [done|done|apply lookup_insert_eq|cbn; congruence|done|]. cbn [fst snd] in *.
  destruct (switch_ok stacks callee ra m2 ths2 (fsbase m) (running m)) as (m3 & He3 & Hres & Hfs3 & Hax & _); [done..|].
  exists m3. exact (conj He3 (conj Hres (conj Hfs3 Hax))).
Qed.

(** the first switch to the thread [make_thread] has made enters its first
    function: the words it writes are those that [context_switch_] pops.  Interrupts
    are on, the page table is the kernel's, the stack is empty, and the argument is
    the previous thread. *)
Theorem new_thread_starts m ths t the_stack entry common_cr3 m1 ths1 m2 ths2 :
  layout stacks → threads_ok stacks m ths →
  stacks !! t = Some (the_stack, the_stack + 8 * STACK_QUADS) → ths !! t = None → t ≠ fsbase m → is_u64 entry → is_u64 common_cr3 →
  m1 = m .[ mem := make_thread_stack t the_stack entry common_cr3 (mem m) ] →
  ths1 = <[t := new_thread the_stack entry common_cr3]> ths →
  rtc (other_step t) (m1, ths1) (m2, ths2) → stack_room stacks m2 → reg RDI m2 = t →
  ∃ m3, exec callee ra context_switch_ m2 = Some m3 ∧ rip m3 = entry ∧ reg RDI m3 = fsbase m2 ∧ reg RSP m3 = the_stack + 8 * STACK_QUADS
    ∧ flags m3 = IF ∧ cr3 m3 = common_cr3 ∧ fsbase m3 = t ∧ ∀ r, r ∈ [RBX; RBP; R12; R13; R14; R15] → reg r m3 = 0.
Proof using Type.
  intros L Hok Ht Hn Hne He Hc3 -> -> Hrtc Hroom Hdi.
  pose proof (core_step_ok (m, ths) _ L Hok (step_new m ths t the_stack entry common_cr3 Ht Hn Hne He Hc3)) as Hok1.
  destruct (other_steps_park t (new_thread the_stack entry common_cr3) (_, _) (m2, ths2) L Hok1 (lookup_insert_eq _ _ _) ltac:(cbn; congruence) Hrtc) as (Hok2 & Hk2 & _).
  destruct (switch_ok stacks callee ra m2 ths2 t _ L Hok2 Hroom Hk2 Hdi) as (m3 & He3 & (R1 & R2 & R3 & R4 & R5 & R6 & R7 & R8 & R9 & R10 & R11) & Hfs & _ & Hdi3 & _).
  cbn [new_thread k_sp k_ret k_flags k_cr3 k_r15 k_r14 k_r13 k_r12 k_rbp k_rbx] in *.
  exists m3. do 7 (split; [assumption|]). clear - R6 R7 R8 R9 R10 R11. intros r Hr. rewrite !elem_of_cons in Hr.
  destruct Hr as [->|[->|[->|[->|[->|[->|Hr]]]]]]; [assumption..|by apply elem_of_nil in Hr].
Qed.
End core.

(** ** A concrete core *)

Definition demo_stacks : gmap Z (Z * Z) := <[4096 := (65536, 65536 + 8 * STACK_QUADS)]> {[8192 := (131072, 131072 + 8 * STACK_QUADS)]}.
Definition demo_start : Mach :=
  mkMach (λ r, match r with RSP => 81000 | RDI => 8192 | RBX => 7 | _ => 0 end) 100 512 0 77 4096 0 40 48 (λ _, 0).
Definition demo_new : Kept := new_thread 131072 1000 55.
Definition demo_parked : gmap Z Kept := <[8192 := demo_new]> ∅.
Definition demo_core : Mach := demo_start .[ mem := make_thread_stack 8192 131072 1000 55 (λ _, 0) ].

Lemma demo_stacks_Some t lo hi : demo_stacks !! t = Some (lo, hi) → hi = lo + 16384 ∧ (t = 4096 ∧ lo = 65536 ∨ t = 8192 ∧ lo = 131072).
Proof. unfold demo_stacks, STACK_QUADS. rewrite lookup_insert_Some, lookup_singleton_Some. intros [[? [= ? ?]]|[_ [? [= ? ?]]]]; lia. Qed.

Lemma demo_layout : layout demo_stacks.
Proof.
  split.
  - intros t lo hi [-> H]%demo_stacks_Some. change (2 ^ 64) with 18446744073709551616. lia.
  - intros t [lo hi] [_ H]%demo_stacks_Some. change (2 ^ 64) with 18446744073709551616. lia.
  - intros t [a b] u lo hi [_ H]%demo_stacks_Some [-> H']%demo_stacks_Some. unfold cut. lia.
  - intros t [a b] u [lo hi] [_ H]%demo_stacks_Some [_ H']%demo_stacks_Some Hne. unfold apart. lia.
  - intros t lo hi u lo' hi' [-> H]%demo_stacks_Some [-> H']%demo_stacks_Some Hne. unfold cut. lia.
Qed.

Lemma demo_start_ok : threads_ok demo_stacks demo_start ∅.
Proof.
  split.
  - unfold words_ok. apply (bool_decide_unpack _). by vm_compute.
  - intros x. cbn. lia.
  - done.
  - exists 65536, (65536 + 8 * STACK_QUADS). split; [reflexivity|]. unfold STACK_QUADS. cbn. lia.
  - intros t k H. by rewrite lookup_empty in H.
Qed.

Lemma demo_core_ok : threads_ok demo_stacks demo_core demo_parked.
Proof.
  assert (core_step demo_stacks Some 0 (demo_start, ∅) (demo_core, demo_parked)) as Hstep.
  { apply (step_new demo_stacks Some 0 demo_start ∅ 8192 131072 1000 55); first [reflexivity|discriminate|unfold is_u64; lia]. }
  exact (core_step_ok demo_stacks Some 0 (demo_start, ∅) _ demo_layout demo_start_ok Hstep).
Qed.

(** Moving the stack pointer and the argument keeps the threads. *)
Lemma threads_ok_regs stacks m ths sp v :
  threads_ok stacks m ths → (∃ lo hi, stacks !! fsbase m = Some (lo, hi) ∧ lo <= sp <= hi) → threads_ok stacks (set_reg RDI v (set_reg RSP sp m)) ths.
Proof.
  intros [Hw Hb Hc Hs Hp] Hsp. split; [|exact Hb|exact Hc| |exact Hp].
  - unfold words_ok, switch_pushes. rewrite !(reg_set_ne _ RDI), !(reg_set_ne _ RSP) by discriminate. exact Hw.
  - rewrite (reg_set_ne RSP RDI), reg_set_eq by discriminate. exact Hsp.
Qed.

Lemma context_switch_returns_witness :
  ∃ m1 m3, exec Some 0 context_switch_ demo_core = Some m1 ∧ rip m1 = 1000 ∧ reg RDI m1 = 4096
    ∧ exec Some 0 context_switch_ (set_reg RDI 4096 (set_reg RSP 147000 m1)) = Some m3 ∧ resumed m3 (running demo_core) ∧ reg RAX m3 = 8192.
Proof.
  assert (stack_room demo_stacks demo_core) as Hroom by (exists 65536, (65536 + 8 * STACK_QUADS); unfold STACK_QUADS; cbn; split; [reflexivity|lia]).
  destruct (switch_ok demo_stacks Some 0 demo_core demo_parked 8192 demo_new demo_layout demo_core_ok Hroom (lookup_insert_eq _ _ _) eq_refl)
    as (m1 & He & Hres & Hfs & Hax & Hdi & Hok).
  assert (∃ lo hi, demo_stacks !! fsbase m1 = Some (lo, hi) ∧ lo <= 147000 <= hi) as Hsp.
  { exists 131072, (131072 + 8 * STACK_QUADS). rewrite Hfs. split; [reflexivity|unfold STACK_QUADS; lia]. }
  pose proof (threads_ok_regs _ _ _ 147000 4096 Hok Hsp) as Hok2. set (m2 := set_reg RDI 4096 (set_reg RSP 147000 m1)) in *.
  assert (fsbase m2 = 8192) as Hfs2 by exact Hfs.
  assert (stack_room demo_stacks m2) as Hroom2.
  { exists 131072, (131072 + 8 * STACK_QUADS). rewrite Hfs2. split; [reflexivity|]. unfold m2. rewrite (reg_set_ne RSP RDI), reg_set_eq by discriminate.
    unfold STACK_QUADS. lia. }
  destruct (context_switch_returns demo_stacks Some 0 demo_core demo_parked 8192 demo_new m1 m2
    (<[fsbase demo_core := running demo_core]> (delete 8192 demo_parked))
    demo_layout demo_core_ok Hroom (lookup_insert_eq _ _ _) eq_refl He) as (m3 & He3 & Hr3 & _ & Hax3).
  - apply rtc_once. split; [exact (step_code demo_stacks Some 0 m1 m2 _ eq_refl Hok2)|]. cbn [fst]. rewrite Hfs2. discriminate.
  - exact Hroom2.
  - unfold m2. by rewrite reg_set_eq.
  - exists m1, m3. split_and!; [exact He|exact (proj1 (proj2 Hres))|exact Hdi|exact He3|exact Hr3|by rewrite Hax3].
Defined.
