(* ===== verification/ThreadMem.v ===== *)
(** * The memory of a thread ([thread.cc])

    A control block with its thread-local variables below it, a stack, and the object
    with the work of the thread: three blocks of the [Heap].  [make_thread] allocates
    the first two and writes the first words of the stack, the thread deletes its work
    when it is done, and [TCB::dealloc] gives back what is left.  The queues a thread
    goes through in between are in [Sched]; the stack, once it runs, in [Machine]. *)

From stdpp Require Import gmap.
From S2P Require Import Prelude Heap.
From S2P Require Machine.

(** ** Words of the control block, from [tcb] up *)

Definition TCB_quads : Z := 14.
Definition f_self : Z := 0.
Definition f_saved_rsp : Z := 1.
Definition f_is_idle : Z := 9.
Definition f_the_stack : Z := 10.
Definition f_stack_bottom : Z := 11.
Definition f_fun : Z := 13.

(** A load through a pointer; the store of one byte. *)
Definition peek (p k : Z) (h : Heap) : option Z := rd (array h) (u64 (p - array_base h) / 8 + k).
Definition poke_byte (p k b : Z) (h : Heap) : option Heap := w ← peek p k h; poke p k (w / 256 * 256 + b) h.
(** Stores in order. *)
Fixpoint poke_all (p : Z) (l : list (Z * Z)) (h : Heap) : option Heap :=
  match l with [] => Some h | (k, v) :: l => h ← poke p k v h; poke_all p l h end.
Fixpoint copy_words (p k : Z) (ws : list Z) (h : Heap) : option Heap :=
  match ws with [] => Some h | w :: ws => h ← poke p k w h; copy_words p (k + 1) ws h end.

(** ** Operations.  [tls] is the initial image of the thread-local variables. *)

Definition TCB_alloc (tls : list Z) (h : Heap) : option (Z * Heap) :=
  let tls_count := Z.of_nat (length tls) in
  '(mem, h) ← malloc (u64 (8 * tls_count + 8 * TCB_quads)) h;
  if mem =? 0 then None
  else
    h ← copy_words mem 0 tls h;
    let tcb := u64 (mem + 8 * tls_count) in
    h ← poke tcb f_self tcb h;
    h ← poke_byte tcb f_is_idle 0 h;
    h ← poke_all tcb [(f_fun, 0); (f_the_stack, 0); (f_saved_rsp, 0)] h;
    Some (tcb, h).

Definition make_thread (tls : list Z) (entry common_cr3 fun_ : Z) (h : Heap) : option (Z * Heap) :=
  '(tcb, h) ← TCB_alloc tls h;
  h ← poke tcb f_fun fun_ h;
  '(the_stack, h) ← operator_new (8 * Machine.STACK_QUADS) h;
  h ← poke_all tcb [(f_the_stack, the_stack); (f_stack_bottom, u64 (the_stack + 8 * Machine.STACK_QUADS))] h;
  h ← poke_all the_stack [(2047, entry); (2046, 0); (2045, 0); (2044, 0); (2043, 0); (2042, 0); (2041, 0); (2040, 0x200); (2039, 0); (2038, common_cr3)] h;
  h ← poke tcb f_saved_rsp (u64 (the_stack + 8 * (Machine.STACK_QUADS - 10))) h;
  Some (tcb, h).

(** The end of [entry], after the work. *)
Definition finish_work (tcb : Z) (h : Heap) : option Heap :=
  fun_ ← peek tcb f_fun h;
  if fun_ =? 0 then Some h else h ← operator_delete fun_ h; poke tcb f_fun 0 h.

Definition TCB_dealloc (tls_count : nat) (tcb : Z) (h : Heap) : option Heap :=
  the_stack ← peek tcb f_the_stack h;
  h ← (if the_stack =? 0 then Some h else operator_delete the_stack h);
  fun_ ← peek tcb f_fun h;
  h ← (if fun_ =? 0 then Some h else operator_delete fun_ h);
  free (u64 (tcb - 8 * Z.of_nat tls_count)) h.

(** ** A client of the heap *)

Definition stored (l : list (Z * Z)) (x : list Z) : list Z := foldl (λ x p, <[Z.to_nat p.1 := p.2]> x) x l.

Lemma stored_length l x : length (stored l x) = length x.
Proof. revert x. induction l as [|p l IH]; intros x; [done|]. cbn [stored foldl]. fold (stored l (<[Z.to_nat p.1 := p.2]> x)). by rewrite IH, length_insert. Qed.

(** The field at [n] words above the start of a block is a word of the block. *)
Lemma client_inside h live p x n k :
  heap_client h live → live !! p = Some x → 0 <= n → 0 <= n + k < Z.of_nat (length x) → 0 <= k →
  u64 (p + 8 * n) = p + 8 * n ∧ u64 (p + 8 * n - array_base h) / 8 + k = u64 (p - array_base h) / 8 + (n + k)
  ∧ peek p (n + k) h = x !! Z.to_nat (n + k) ∧ 0 < p.
Proof.
  intros (bs & fl & V)%client_view Hp Hn Hk Hk0. destruct (view_some _ _ _ _ V _ _ Hp) as (i & s & Hi & H0 & Hl & -> & Hx & Hc).
  destruct (address_of_ok h (i + 1) (view_base _ _ _ _ V)) as [Ha Hpos]; [lia|]. destruct (view_base _ _ _ _ V) as (_ & Hb & Hb').
  change (2 ^ 64) with 18446744073709551616 in *. rewrite Ha in *. split_and!; [word_lia| | |lia].
  - rewrite !u64_id by word_lia. word_lia.
  - unfold peek. rewrite u64_id by word_lia. replace (array_base h + 8 * (i + 1) - array_base h) with ((i + 1) * 8) by lia. rewrite Z.div_mul by lia.
    replace (i + 1 + (n + k)) with (i + 1 + Z.of_nat (Z.to_nat (n + k))) by lia.
    destruct (lookup_lt_is_Some_2 x (Z.to_nat (n + k)) ltac:(lia)) as [w Hw]. rewrite Hw. by apply Hc.
Qed.

Lemma client_poke_at h live p x n k v :
  heap_client h live → live !! p = Some x → 0 <= n → 0 <= k → n + k < Z.of_nat (length x) →
  ∃ h', poke (p + 8 * n) k v h = Some h' ∧ heap_client h' (<[p := <[Z.to_nat (n + k) := v]> x]> live).
Proof.
  intros H Hp Hn Hk Hlt. destruct (client_inside h live p x n k H Hp Hn ltac:(lia) Hk) as (_ & E & _ & _).
  destruct (client_view h live H) as (bs & fl & V). destruct (view_poke h live bs fl p x (n + k) v V Hp ltac:(lia)) as (h' & He & _).
  exists h'. split; [|exact (client_poke h live p x (n + k) v h' H Hp ltac:(lia) He)]. rewrite <- He. unfold poke. by rewrite E.
Qed.

Lemma client_peek_at h live p x n k :
  heap_client h live → live !! p = Some x → 0 <= n → 0 <= k → n + k < Z.of_nat (length x) → peek (p + 8 * n) k h = x !! Z.to_nat (n + k).
Proof.
  intros H Hp Hn Hk Hlt. destruct (client_inside h live p x n k H Hp Hn ltac:(lia) Hk) as (_ & E & Hpk & _). rewrite <- Hpk. unfold peek. by rewrite E.
Qed.

Lemma client_poke_all l : ∀ h live p x n,
  heap_client h live → live !! p = Some x → 0 <= n → Forall (λ q, 0 <= q.1 ∧ n + q.1 < Z.of_nat (length x)) l →
  ∃ h', poke_all (p + 8 * n) l h = Some h' ∧ heap_client h' (<[p := stored ((λ q, (n + q.1, q.2)) <$> l) x]> live).
Proof.
  induction l as [|[k v] l IH]; intros h live p x n H Hp Hn Hl.
  - exists h. split; [done|]. cbn [fmap list_fmap stored foldl]. by rewrite insert_id.
  - apply Forall_cons in Hl as [[Hk Hlt] Hl]. cbn [fst snd] in *. destruct (client_poke_at h live p x n k v H Hp Hn Hk Hlt) as (h1 & E1 & H1).
    destruct (IH h1 _ p _ n H1 (lookup_insert_eq _ _ _) Hn) as (h2 & E2 & H2).
    { eapply Forall_impl; [exact Hl|]. intros q. by rewrite length_insert. }
    exists h2. split; [cbn [poke_all]; by rewrite E1|]. rewrite insert_insert_eq in H2. exact H2.
Qed.

Lemma client_copy ws : ∀ h live p x k,
  heap_client h live → live !! p = Some x → 0 <= k → k + Z.of_nat (length ws) <= Z.of_nat (length x) →
  ∃ h' x', copy_words p k ws h = Some h' ∧ heap_client h' (<[p := x']> live) ∧ length x' = length x.
Proof.
  induction ws as [|w ws IH]; intros h live p x k H Hp Hk Hl; cbn [length] in Hl.
  - exists h, x. split; [done|]. by rewrite insert_id.
  - destruct (client_poke_at h live p x 0 k w H Hp ltac:(lia) Hk ltac:(lia)) as (h1 & E1 & H1). replace (p + 8 * 0) with p in E1 by lia.
    destruct (IH h1 _ p _ (k + 1) H1 (lookup_insert_eq _ _ _)) as (h2 & x2 & E2 & H2 & Hx2); [lia|rewrite length_insert; lia|].
    rewrite length_insert in Hx2. exists h2, x2. split; [cbn [copy_words]; by rewrite E1|]. by rewrite insert_insert_eq in H2.
Qed.

Lemma client_new h live n p h' :
  heap_client h live → 0 < n <= 2 ^ 63 → malloc n h = Some (p, h') → p ≠ 0 →
  live !! p = None ∧ ∃ x, length x = Z.to_nat ((n + 7) / 8) ∧ heap_client h' (<[p := x]> live).
Proof.
  intros H Hn E Hp. destruct (client_view h live H) as (bs & fl & V). destruct (view_malloc _ _ _ _ _ V Hn) as (p' & h2 & E2 & Hr).
  rewrite E in E2. injection E2 as <- <-. destruct Hr as [(->&_)|(_&Hnone&(bs'&fl'&V')&_)]; [done|]. split; [done|].
  exists (words_at h' p (Z.to_nat ((n + 7) / 8))). split; [|apply Z.eqb_neq in Hp; pose proof (client_malloc h live n p h' H Hn E) as Hc; rewrite Hp in Hc; exact Hc].
  destruct (malloc_ok h bs fl n (view_inv _ _ _ _ V) (view_base _ _ _ _ V) Hn) as [[E0 _]|(l1 & mx & l2 & a' & fl2 & -> & Hle & E1 & I' & _)].
  { congruence. }
  rewrite E in E1. injection E1 as -> ->. pose proof (inv_tiling _ _ _ (view_inv _ _ _ _ V)) as T. pose proof (spans_mid 0 l1 mx false l2) as Hit.
  rewrite Z.add_0_l in Hit. destruct (tiling_span _ _ _ _ _ _ T Hit) as (_ & Hend & _). destruct (tiling_free_pos _ _ _ _ _ T Hit) as [Hpos _].
  destruct (entries_for_ok n Hn) as (_ & _ & Hen). set (h' := h .[ array := a' ] .[ avail := _ ] .[ n_malloc := _ ]) in *.
  assert (0 <= (n + 7) / 8 <= entries_for n - 2) as Hq by (clear - Hen Hn; split; [apply Z.div_pos; lia|pose proof (Z.div_lt_upper_bound (n + 7) 8 (entries_for n - 1)); lia]).
  destruct (words_at_ok h' (total l1 + 1) (Z.to_nat ((n + 7) / 8)) (view_base _ _ _ _ V)) as [Hl _];
    [apply (fl_len _ _ (inv_list _ _ _ I'))|lia|change (len h') with (len h); lia|change (len h') with (len h); lia|exact Hl].
Qed.

Lemma client_gone h live p x : heap_client h live → live !! p = Some x → ∃ h', free p h = Some h' ∧ heap_client h' (delete p live).
Proof.
  intros H Hp. destruct (client_view h live H) as (bs & fl & V). destruct (view_free _ _ _ _ _ _ V Hp) as (h' & bs' & fl' & E & _).
  exists h'. split; [done|]. by eapply client_free.
Qed.
(** Reading back words of a block. *)
Ltac word_at :=
  repeat match goal with |- context [Z.to_nat ?k] => let n := eval vm_compute in (Z.to_nat k) in change (Z.to_nat k) with n end;
  repeat first [rewrite list_lookup_insert_eq by (rewrite ?length_insert; lia) | rewrite list_lookup_insert_ne by lia]; first [assumption | f_equal; lia].


(** The blocks of a thread: control block at [mem], stack, work ([0] when it is gone). *)
Record owned (live : gmap Z (list Z)) (tls_count : nat) (mem the_stack fun_ : Z) : Prop := {
  owned_block : ∃ x, live !! mem = Some x ∧ length x = (tls_count + 14)%nat ∧ x !! (tls_count + 10)%nat = Some the_stack
    ∧ x !! (tls_count + 13)%nat = Some fun_;
  owned_stack : ∃ y, live !! the_stack = Some y;
  owned_fun : fun_ = 0 ∨ ∃ z, live !! fun_ = Some z;
  owned_distinct : mem ≠ the_stack ∧ mem ≠ fun_ ∧ the_stack ≠ fun_
}.

Lemma client_nonzero h live p x : heap_client h live → live !! p = Some x → 0 < p.
Proof.
  intros H Hp. destruct (client_view h live H) as (bs & fl & V). destruct (view_some _ _ _ _ V _ _ Hp) as (i & s & Hi & H0 & Hl & -> & Hx & _).
  destruct (address_of_ok h (i + 1) (view_base _ _ _ _ V)) as [_ ?]; lia.
Qed.

(** The end of a block is an address. *)
Lemma client_end h live p x : heap_client h live → live !! p = Some x → u64 (p + 8 * Z.of_nat (length x)) = p + 8 * Z.of_nat (length x).
Proof.
  intros (bs & fl & V)%client_view Hp. destruct (view_some _ _ _ _ V _ _ Hp) as (i & s & Hi & H0 & Hl & -> & Hx & Hc).
  destruct (address_of_ok h (i + 1) (view_base _ _ _ _ V)) as [Ha Hpos]; [lia|]. destruct (view_base _ _ _ _ V) as (_ & Hb & Hb').
  change (2 ^ 64) with 18446744073709551616 in *. rewrite Ha in *. word_lia.
Qed.

Lemma client_null h live : heap_client h live → live !! 0 = None.
Proof. intros H. destruct (live !! 0) as [x|] eqn:Hx; [|done]. pose proof (client_nonzero h live 0 x H Hx). lia. Qed.

Lemma TCB_alloc_ok tls h live :
  heap_client h live → Z.of_nat (length tls) < 2 ^ 40 →
  match TCB_alloc tls h with
  | None => malloc (8 * Z.of_nat (length tls) + 112) h = Some (0, h)
  | Some (tcb, h') => ∃ mem x, live !! mem = None ∧ tcb = mem + 8 * Z.of_nat (length tls) ∧ heap_client h' (<[mem := x]> live)
      ∧ length x = (length tls + 14)%nat ∧ x !! length tls = Some tcb
  end.
Proof.
  intros H Htls. change (2 ^ 40) with 1099511627776 in Htls. set (tc := Z.of_nat (length tls)) in *.
  unfold TCB_alloc. cbv zeta. fold tc. change TCB_quads with 14. replace (u64 (8 * tc + 8 * 14)) with (8 * tc + 112) by word_lia.
  assert (0 < 8 * tc + 112 <= 2 ^ 63) as Hn by (change (2 ^ 63) with 9223372036854775808; lia).
  destruct (client_view h live H) as (bs & fl & V). destruct (view_malloc _ _ _ _ _ V Hn) as (mem & h1 & E & Hr). rewrite E. cbn [mbind option_bind].
  destruct (Z.eqb_spec mem 0) as [->|Hmem]; [destruct Hr as [(_ & -> & _)|[? _]]; [reflexivity|done]|]. clear Hr V bs fl.
  destruct (client_new h live _ mem h1 H Hn E Hmem) as (Hnone & x0 & Hx0 & H1).
  assert (length x0 = (length tls + 14)%nat) as Hlen by (rewrite Hx0; replace ((8 * tc + 112 + 7) / 8) with (tc + 14) by word_lia; lia). clear Hx0.
  destruct (client_copy tls h1 _ mem x0 0 H1 (lookup_insert_eq _ _ _)) as (h2 & x2 & E2 & H2 & Hx2); [lia|lia|]. rewrite insert_insert_eq in H2. rewrite E2. cbn [mbind option_bind].
  rewrite Hlen in Hx2. assert (0 <= tc) as Htc by lia.
  destruct (client_inside h2 _ mem x2 tc 0 H2 (lookup_insert_eq _ _ _) Htc) as (Ea & _); [lia|lia|]. rewrite Ea. unfold f_self, f_is_idle, f_fun, f_the_stack, f_saved_rsp.
  destruct (client_poke_at h2 _ mem x2 tc 0 (mem + 8 * tc) H2 (lookup_insert_eq _ _ _)) as (h3 & E3 & H3); [lia..|]. rewrite insert_insert_eq in H3. rewrite E3. cbn [mbind option_bind].
  set (x3 := <[Z.to_nat (tc + 0) := mem + 8 * tc]> x2) in *. assert (length x3 = (length tls + 14)%nat) as Hx3 by (unfold x3; by rewrite length_insert).
  assert (x3 !! length tls = Some (mem + 8 * tc)) as Hself by (unfold x3; replace (Z.to_nat (tc + 0)) with (length tls) by lia; apply list_lookup_insert_eq; lia). clearbody x3.
  unfold poke_byte. rewrite (client_peek_at h3 _ mem x3 tc 9 H3 (lookup_insert_eq _ _ _)) by lia.
  destruct (lookup_lt_is_Some_2 x3 (Z.to_nat (tc + 9)) ltac:(lia)) as [w Hw]. rewrite Hw. cbn [mbind option_bind].
  destruct (client_poke_at h3 _ mem x3 tc 9 (w / 256 * 256 + 0) H3 (lookup_insert_eq _ _ _)) as (h4 & E4 & H4); [lia..|]. rewrite insert_insert_eq in H4. rewrite E4. cbn [mbind option_bind].
  destruct (client_poke_all [(13, 0); (10, 0); (1, 0)] h4 _ mem _ tc H4 (lookup_insert_eq _ _ _) Htc) as (h5 & E5 & H5).
  { rewrite length_insert, !Forall_cons. cbn [fst snd]. split_and!; [lia..|constructor]. }
  rewrite insert_insert_eq in H5. rewrite E5. cbn [mbind option_bind]. exists mem. eexists. split; [exact Hnone|]. split; [done|]. split; [exact H5|]. split.
  - by rewrite stored_length, length_insert.
  - cbn [fmap list_fmap stored foldl fst snd]. rewrite !list_lookup_insert_ne by lia. exact Hself.
Qed.

(** The top of a new stack. *)
Lemma stack_top the_stack entry common_cr3 y :
  Z.of_nat (length y) = 2048 →
  drop (Z.to_nat 2038) (stored ((λ q : Z * Z, (0 + q.1, q.2)) <$>
      [(2047, entry); (2046, 0); (2045, 0); (2044, 0); (2043, 0); (2042, 0); (2041, 0); (2040, 0x200); (2039, 0); (2038, common_cr3)]) y)
    = Machine.kept_words (Machine.new_thread the_stack entry common_cr3).
Proof.
  intros Hy. rewrite <- (take_drop (Z.to_nat 2038) y). assert (length (take (Z.to_nat 2038) y) = Z.to_nat 2038) as Hl by (rewrite length_take; lia).
  assert (length (drop (Z.to_nat 2038) y) = 10%nat) as Hd by (rewrite length_drop; lia). set (y1 := take (Z.to_nat 2038) y) in *. set (y2 := drop (Z.to_nat 2038) y) in *. clearbody y1 y2.
  cbn [fmap list_fmap stored foldl fst snd]. rewrite !insert_app_r_alt by lia. rewrite Hl. rewrite <- Hl at 1. rewrite drop_app_length.
  do 10 (destruct y2 as [|? y2]; [done|]). destruct y2; [|done]. reflexivity.
Qed.

(** A new thread has a control block and a stack of its own, blocks nobody else held.
    Running out of memory is the only way to fail. *)
Lemma make_thread_ok tls entry common_cr3 fun_ h live :
  heap_client h live → Z.of_nat (length tls) < 2 ^ 40 →
  match make_thread tls entry common_cr3 fun_ h with
  | None => ∃ n h1 live1, heap_client h1 live1 ∧ (n = 8 * Z.of_nat (length tls) + 112 ∨ n = 8 * Machine.STACK_QUADS) ∧ malloc n h1 = Some (0, h1)
  | Some (tcb, h') => ∃ mem the_stack x y,
      live !! mem = None ∧ live !! the_stack = None ∧ mem ≠ the_stack ∧ tcb = mem + 8 * Z.of_nat (length tls)
      ∧ heap_client h' (<[the_stack := y]> (<[mem := x]> live))
      ∧ length x = (length tls + 14)%nat ∧ x !! length tls = Some tcb
      ∧ x !! (length tls + 1)%nat = Some (Machine.k_sp (Machine.new_thread the_stack entry common_cr3) - 80)
      ∧ x !! (length tls + 10)%nat = Some the_stack ∧ x !! (length tls + 11)%nat = Some (Machine.k_sp (Machine.new_thread the_stack entry common_cr3))
      ∧ x !! (length tls + 13)%nat = Some fun_
      ∧ Z.of_nat (length y) = 2048 ∧ drop (Z.to_nat 2038) y = Machine.kept_words (Machine.new_thread the_stack entry common_cr3)
  end.
Proof.
  intros H Htls. pose proof (TCB_alloc_ok tls h live H Htls) as Halloc. unfold make_thread.
  destruct (TCB_alloc tls h) as [[tcb h1]|]; cbn [mbind option_bind]; [|exists (8 * Z.of_nat (length tls) + 112), h, live; auto].
  destruct Halloc as (mem & x & Hnone & -> & H1 & Hx & Hself). set (tc := Z.of_nat (length tls)) in *. assert (0 <= tc) as Htc by lia.
  unfold f_fun, f_the_stack, f_stack_bottom, f_saved_rsp, Machine.STACK_QUADS.
  destruct (client_poke_at h1 _ mem x tc 13 fun_ H1 (lookup_insert_eq _ _ _)) as (h2 & E2 & H2); [lia..|]. rewrite insert_insert_eq in H2. rewrite E2. cbn [mbind option_bind]. clear E2.
  unfold operator_new. change (8 * 2048) with 16384 in *. destruct (client_view _ _ H2) as (bs & fl & V).
  destruct (view_malloc _ _ _ _ 16384 V) as (st & h3 & E3 & Hr); [change (2 ^ 63) with 9223372036854775808; lia|]. rewrite E3. cbn [mbind option_bind].
  destruct (Z.eqb_spec st 0) as [->|Hst].
  { destruct Hr as [(_ & -> & _)|[? _]]; [|done]. eexists 16384, h2, _. split; [exact H2|]. auto. }
  clear Hr V bs fl. destruct (client_new h2 _ 16384 st h3 H2 ltac:(change (2 ^ 63) with 9223372036854775808; lia) E3 Hst) as (Hns & y & Hy & H3).
  assert (Z.of_nat (length y) = 2048) as Hyz by (rewrite Hy; reflexivity). clear Hy. rename Hyz into Hy. apply lookup_insert_None in Hns as [Hns Hne].
  set (x1 := <[Z.to_nat (tc + 13) := fun_]> x) in *. assert (length x1 = (length tls + 14)%nat) as Hx1 by (unfold x1; by rewrite length_insert).
  cbn [mbind option_bind]. pose proof (client_end _ _ st y H3 (lookup_insert_eq _ _ _)) as Hend. rewrite Hy in Hend. change (8 * 2048) with 16384 in Hend. rewrite Hend.
  destruct (client_inside h3 _ st y 2038 0 H3 (lookup_insert_eq _ _ _)) as (Hsp & _); [lia..|]. change (8 * (2048 - 10)) with (8 * 2038). rewrite Hsp.
  rewrite insert_insert_ne in H3 by done.
  destruct (client_poke_all [(10, st); (11, st + 16384)] h3 _ mem x1 tc H3 (lookup_insert_eq _ _ _) Htc) as (h4 & E4 & H4).
  { rewrite !Forall_cons. cbn [fst snd]. split_and!; [lia..|constructor]. }
  rewrite E4. cbn [mbind option_bind]. rewrite insert_insert_eq, insert_insert_ne in H4 by done.
  match goal with |- context [poke_all st ?l h4] => set (ws := l) end.
  destruct (client_poke_all ws h4 _ st y 0 H4 (lookup_insert_eq _ _ _)) as (h5 & E5 & H5); [lia|unfold ws; rewrite Hy, !Forall_cons; cbn [fst snd]; split_and!; [lia..|constructor]|].
  replace (st + 8 * 0) with st in E5 by lia. rewrite E5. cbn [mbind option_bind]. rewrite insert_insert_eq, insert_insert_ne in H5 by done.
  set (x2 := stored ((λ q, (tc + q.1, q.2)) <$> [(10, st); (11, st + 16384)]) x1) in *.
  assert (length x2 = (length tls + 14)%nat) as Hx2 by (unfold x2; by rewrite stored_length).
  destruct (client_poke_at h5 _ mem x2 tc 1 (st + 8 * 2038) H5 (lookup_insert_eq _ _ _)) as (h6 & E6 & H6); [lia..|].
  rewrite E6. cbn [mbind option_bind]. rewrite insert_insert_eq, insert_insert_ne in H6 by done.
  exists mem, st, (<[Z.to_nat (tc + 1) := st + 8 * 2038]> x2), (stored ((λ q, (0 + q.1, q.2)) <$> ws) y).
  cbn [Machine.new_thread Machine.k_sp]. unfold Machine.STACK_QUADS.
  assert (∀ k, (0 <= k < 14) → Z.to_nat (tc + k) = (length tls + Z.to_nat k)%nat) as Hat by lia.
  split_and!; [done..|exact H6|by rewrite length_insert| | | | | |by rewrite stored_length|].
  6: by apply stack_top.
  all: unfold x2, x1; cbn [fmap list_fmap stored foldl fst snd]; rewrite !Hat by lia; word_at.
Qed.

(** ** The end of a thread *)

Lemma finish_work_ok h live tls_count mem the_stack fun_ :
  heap_client h live → owned live tls_count mem the_stack fun_ →
  ∃ h' live', finish_work (mem + 8 * Z.of_nat tls_count) h = Some h' ∧ heap_client h' live' ∧ owned live' tls_count mem the_stack 0
    ∧ delete mem live' = delete mem (delete fun_ live).
Proof.
  intros H [(x & Hmem & Hlen & Hst & Hfun) (y & Hy) Hf (D1 & D2 & D3)]. unfold finish_work, f_fun.
  rewrite (client_peek_at h live mem x _ 13 H Hmem) by lia. replace (Z.to_nat (Z.of_nat tls_count + 13)) with (tls_count + 13)%nat by lia.
  rewrite Hfun. cbn [mbind option_bind]. destruct (Z.eqb_spec fun_ 0) as [->|Hne].
  - exists h, live. split_and!; [done..| |].
    + split; [by exists x|by exists y|by left|done].
    + f_equal. symmetry. apply delete_id. by apply (client_null h).
  - destruct Hf as [?|[z Hz]]; [done|]. unfold operator_delete. destruct (client_gone h live fun_ z H Hz) as (h1 & E1 & H1). rewrite E1. cbn [mbind option_bind].
    assert (delete fun_ live !! mem = Some x) as Hmem' by (by rewrite lookup_delete_ne).
    destruct (client_poke_at h1 _ mem x (Z.of_nat tls_count) 13 0 H1 Hmem') as (h2 & E2 & H2); [lia..|].
    replace (Z.to_nat (Z.of_nat tls_count + 13)) with (tls_count + 13)%nat in H2 by lia. exists h2. eexists. split_and!; [exact E2|exact H2| |].
    + split; [|exists y; rewrite lookup_insert_ne, lookup_delete_ne by done; done|by left|].
      * eexists. split; [apply lookup_insert_eq|]. rewrite length_insert. split_and!; [done| |]; word_at. 
      * pose proof (client_nonzero h live mem x H Hmem). pose proof (client_nonzero h live the_stack y H Hy). lia.
    + apply delete_insert_eq.
Qed.

Lemma TCB_dealloc_ok h live tls_count mem the_stack fun_ :
  heap_client h live → owned live tls_count mem the_stack fun_ →
  ∃ h', TCB_dealloc tls_count (mem + 8 * Z.of_nat tls_count) h = Some h' ∧ heap_client h' (delete mem (delete fun_ (delete the_stack live))).
Proof.
  intros H [(x & Hmem & Hlen & Hst & Hfun) (y & Hy) Hf (D1 & D2 & D3)]. unfold TCB_dealloc, f_fun, f_the_stack, operator_delete.
  rewrite (client_peek_at h live mem x _ 10 H Hmem) by lia. replace (Z.to_nat (Z.of_nat tls_count + 10)) with (tls_count + 10)%nat by lia.
  rewrite Hst. cbn [mbind option_bind]. pose proof (client_nonzero h live the_stack y H Hy) as Hpos. rewrite (proj2 (Z.eqb_neq the_stack 0)) by lia.
  destruct (client_gone h live the_stack y H Hy) as (h1 & E1 & H1). rewrite E1. cbn [mbind option_bind].
  assert (delete the_stack live !! mem = Some x) as Hm1 by (by rewrite lookup_delete_ne).
  rewrite (client_peek_at h1 _ mem x _ 13 H1 Hm1) by lia. replace (Z.to_nat (Z.of_nat tls_count + 13)) with (tls_count + 13)%nat by lia.
  rewrite Hfun. cbn [mbind option_bind].
  assert (∃ h2, (if fun_ =? 0 then Some h1 else free fun_ h1) = Some h2 ∧ heap_client h2 (delete fun_ (delete the_stack live))) as (h2 & E2 & H2).
  { destruct (Z.eqb_spec fun_ 0) as [->|Hne].
    - exists h1. split; [done|]. rewrite (delete_id _ 0); [done|]. by apply (client_null h1).
    - destruct Hf as [?|[z Hz]]; [done|]. apply (client_gone h1 _ fun_ z H1). by rewrite lookup_delete_ne. }
  rewrite E2. cbn [mbind option_bind]. assert (delete fun_ (delete the_stack live) !! mem = Some x) as Hm2 by (by rewrite lookup_delete_ne).
  destruct (client_gone h2 _ mem x H2 Hm2) as (h3 & E3 & H3). exists h3. split; [|exact H3].
  destruct (client_inside h2 _ mem x 0 0 H2 Hm2) as (Ea & _); [lia..|]. rewrite <- E3. f_equal. replace (mem + 8 * 0) with mem in Ea by lia. by replace (mem + 8 * Z.of_nat tls_count - 8 * Z.of_nat tls_count) with mem by lia.
Qed.

(** A new thread has a control block and a stack of its own, blocks nobody else
    held, and points to its work; the ten words on top of its stack are those of the
    thread that [context_switch_] will resume.  Whatever is allocated, written and
    freed meanwhile, as long as the control block keeps these pointers: when the work
    is done its object is given back once, and when the thread is reaped, with or
    without its work done, the stack, the control block and the work if it is still
    there are given back, each once, and nothing else. *)
Theorem thread_memory_returned tls entry common_cr3 fun_ z h live tcb h1 :
  heap_client h live → Z.of_nat (length tls) < 2 ^ 40 → live !! fun_ = Some z → make_thread tls entry common_cr3 fun_ h = Some (tcb, h1) →
  ∃ mem the_stack x y,
    live !! mem = None ∧ live !! the_stack = None ∧ tcb = mem + 8 * Z.of_nat (length tls)
    ∧ heap_client h1 (<[the_stack := y]> (<[mem := x]> live)) ∧ owned (<[the_stack := y]> (<[mem := x]> live)) (length tls) mem the_stack fun_
    ∧ drop (Z.to_nat 2038) y = Machine.kept_words (Machine.new_thread the_stack entry common_cr3)
    ∧ ∀ f h2 live2, heap_client h2 live2 → owned live2 (length tls) mem the_stack f →
        (∃ h3 live3, finish_work tcb h2 = Some h3 ∧ heap_client h3 live3 ∧ owned live3 (length tls) mem the_stack 0
          ∧ delete mem live3 = delete mem (delete f live2))
        ∧ ∃ h3, TCB_dealloc (length tls) tcb h2 = Some h3 ∧ heap_client h3 (delete mem (delete f (delete the_stack live2))).
Proof.
  intros H Htls Hz E. pose proof (make_thread_ok tls entry common_cr3 fun_ h live H Htls) as Hok. rewrite E in Hok.
  destruct Hok as (mem & st & x & y & Hm & Hs & Hne & -> & H1 & Hx & _ & _ & Hst & _ & Hf & _ & Htop).
  assert (mem ≠ fun_ ∧ st ≠ fun_) as [Hmf Hsf] by (split; congruence). exists mem, st, x, y. split_and!; [done..| |done|].
  - split; [exists x; by rewrite lookup_insert_ne, lookup_insert_eq|exists y; apply lookup_insert_eq| |done].
    right. exists z. by rewrite !lookup_insert_ne.
  - intros f h2 live2 H2 Ho. split; [by eapply finish_work_ok|by apply TCB_dealloc_ok].
Qed.

(** ** A concrete thread *)

Definition demo_heap : Heap := (demo_malloc 24 (default heap_zero (init 8 17000 (λ i, i) (heap_zero .[ safe := true ])))).2.

Lemma demo_heap_client : heap_client demo_heap (<[32 := words_at demo_heap 32 3]> ∅).
Proof.
  apply (client_malloc (default heap_zero (init 8 17000 (λ i, i) (heap_zero .[ safe := true ]))) ∅ 24 32 demo_heap).
  - apply (client_init 8 17000 (λ i, i) true); [vm_compute; reflexivity|lia|lia|lia].
  - lia.
  - vm_compute. reflexivity.
Qed.
Lemma demo_thread_eq : (fst <$> make_thread [5; 7] 0x1000 0x2000 32 demo_heap) = Some 96.
Proof. vm_compute. reflexivity. Qed.
Lemma demo_thread_made : ∃ h1, make_thread [5; 7] 0x1000 0x2000 32 demo_heap = Some (96, h1).
Proof.
  pose proof demo_thread_eq as E. destruct (make_thread _ _ _ _ _) as [[tcb h1]|]; [|done]. injection E as ->. by exists h1.
Qed.

(** Nothing is left of a thread that ran. *)
Lemma all_returned (live3 : gmap Z (list Z)) (p q f : Z) (x y z : list Z) :
  delete p live3 = delete p (delete f (<[q := y]> (<[p := x]> (<[f := z]> ∅)))) → delete p (delete 0 (delete q live3)) = ∅.
Proof.
  intros E. rewrite (delete_delete (delete q live3) p 0), (delete_delete live3 p q). apply map_eq. intros i. rewrite lookup_empty.
  apply (f_equal (lookup i)) in E as Ei.
  rewrite !lookup_delete in Ei |- *. rewrite !lookup_insert in Ei. rewrite lookup_empty in Ei. repeat case_decide; simplify_eq; done.
Qed.

Lemma thread_memory_returned_witness :
  ∃ h1 h2 h3, make_thread [5; 7] 0x1000 0x2000 32 demo_heap = Some (96, h1) ∧ finish_work 96 h1 = Some h2
    ∧ TCB_dealloc 2 96 h2 = Some h3 ∧ heap_client h3 ∅.
Proof.
  destruct demo_thread_made as [h1 E].
  destruct (thread_memory_returned [5; 7] 0x1000 0x2000 32 (words_at demo_heap 32 3) demo_heap (<[32 := words_at demo_heap 32 3]> ∅) 96 h1
    demo_heap_client ltac:(cbn [length]; lia) (lookup_insert_eq _ _ _) E) as (mem & st & x & y & _ & _ & _ & H1 & Ho & _ & Hend).
  destruct (Hend 32 h1 _ H1 Ho) as [(h2 & live2 & E2 & H2 & Ho2 & Eq) _]. destruct (Hend 0 h2 live2 H2 Ho2) as [_ (h3 & E3 & H3)].
  exists h1, h2, h3. split; [exact E|]. split; [exact E2|]. split; [exact E3|]. by rewrite (all_returned live2 mem st 32 x y _ Eq) in H3.
Defined.
