(* ===== verification/Entry.v ===== *)
(** * Interrupts, system calls and byte loops ([machine.S])

    The entries of the kernel, on the machine of [Machine]: the timer interrupt and the
    page fault come back to the interrupted code with all of its registers, a system
    call with all but the three it is allowed to change.  Then [memcpy], [memset] and
    [strlen].  What the C++ handler does is a hypothesis of each theorem: it returns,
    and leaves the words of the frame it is given. *)

From stdpp Require Import gmap.
From S2P Require Import Prelude Machine.

(** ** Interrupts and faults *)

Lemma reg_cs r v m : reg r (m .[ cs := v ]) = reg r m.
Proof. done. Qed.
Lemma reg_ss r v m : reg r (m .[ ss := v ]) = reg r m.
Proof. done. Qed.
#[export] Hint Rewrite reg_cs reg_ss : mach.

(** Registers pushed in the order [rs], popped in the opposite order, have their values
    again; the words above them are left. *)
Lemma pops_restore rs hw (f : Reg → Z) c sp :
  RSP ∉ rs → NoDup rs → pushed (mem c) sp (hw ++ (f <$> rs)) →
  reg RSP c = sp - 8 * Z.of_nat (length hw + length rs) → 8 * Z.of_nat (length hw + length rs) <= sp < 2 ^ 64 →
  let m' := pop_all (reverse rs) c in
  reg RSP m' = sp - 8 * Z.of_nat (length hw) ∧ (∀ r, r ∈ rs → reg r m' = f r) ∧ (∀ r, r ≠ RSP → r ∉ rs → reg r m' = reg r c)
  ∧ mem m' = mem c ∧ same_control c m'.
Proof.
  intros Hrsp Hnd Hp Hsp Hlo m'.
  destruct (pop_all_spec (reverse rs) c) as (P1 & P2 & P3 & P4 & P5); rewrite ?Hsp, ?length_reverse.
  { lia. } { lia. } { by rewrite elem_of_reverse. } { by rewrite reverse_Permutation. }
  rewrite length_reverse, Hsp in P1. rewrite Hsp in P3. fold m' in P1, P2, P3, P4, P5. split_and!; [lia| | |done|done].
  - intros r Hr. apply list_elem_of_lookup in Hr as [i Hi]. pose proof (lookup_lt_Some _ _ _ Hi) as Hlt.
    rewrite (P3 (length rs - S i)%nat r).
    + assert ((hw ++ (f <$> rs)) !! (length hw + i)%nat = Some (f r)) as Hv.
      { rewrite lookup_app_r by lia. replace (length hw + i - length hw)%nat with i by lia. by rewrite list_lookup_fmap, Hi. }
      rewrite <- (Hp _ _ Hv). f_equal. lia.
    + rewrite reverse_lookup by lia. replace (length rs - S (length rs - S i))%nat with i by lia. done.
  - intros r H1 H2. apply P2; [done|]. by rewrite elem_of_reverse.
Qed.

Lemma iretq_spec c sp s0 sp0 f0 c0 i0 :
  pushed (mem c) sp [s0; sp0; f0; c0; i0] → reg RSP c = sp - 40 → 40 <= sp < 2 ^ 64 →
  let m' := iretq c in
  rip m' = i0 ∧ cs m' = c0 ∧ flags m' = f0 ∧ ss m' = s0 ∧ reg RSP m' = sp0 ∧ (∀ r, r ≠ RSP → reg r m' = reg r c) ∧ mem m' = mem c.
Proof.
  intros Hp Hsp Hlo m'. change (2 ^ 64) with 18446744073709551616 in *.
  pose proof (Hp 0%nat _ eq_refl) as W0. pose proof (Hp 1%nat _ eq_refl) as W1. pose proof (Hp 2%nat _ eq_refl) as W2.
  pose proof (Hp 3%nat _ eq_refl) as W3. pose proof (Hp 4%nat _ eq_refl) as W4.
  assert (∀ n m, reg RSP m = sp - 8 * (n + 1) → 0 <= n < 5 → pop m = (load64 (mem m) (sp - 8 * (n + 1)), set_reg RSP (sp - 8 * n) m)) as Hpop.
  { intros n m Hm Hn. unfold pop. rewrite Hm, u64_id by word_lia. do 2 f_equal. lia. }
  set (e := set_reg RSP sp0 (set_reg RSP (sp - 8 * 0) (set_reg RSP (sp - 8 * 1) (set_reg RSP (sp - 8 * 2) (set_reg RSP (sp - 8 * 3) (set_reg RSP (sp - 8 * 4) c)))))).
  assert (m' = e .[ rip := i0 ] .[ cs := c0 ] .[ flags := f0 ] .[ ss := s0 ]) as ->.
  { unfold m', iretq. rewrite (Hpop 4 c) by lia. cbv beta iota. rewrite (Hpop 3) by (rewrite ?reg_set_eq; lia). cbv beta iota.
    rewrite (Hpop 2) by (rewrite ?reg_set_eq; lia). cbv beta iota. rewrite (Hpop 1) by (rewrite ?reg_set_eq; lia). cbv beta iota.
    rewrite (Hpop 0) by (rewrite ?reg_set_eq; lia). cbv beta iota.
    repeat match goal with |- context [mem (set_reg ?r ?v ?m)] => change (mem (set_reg r v m)) with (mem m) end.
    change (8 * (4 + 1)) with (8 * Z.of_nat 5). change (8 * (3 + 1)) with (8 * Z.of_nat 4). change (8 * (2 + 1)) with (8 * Z.of_nat 3).
    change (8 * (1 + 1)) with (8 * Z.of_nat 2). change (8 * (0 + 1)) with (8 * Z.of_nat 1).
    rewrite W0, W1, W2, W3, W4. reflexivity. }
  split_and!; try reflexivity.
  intros r Hr. read_regs. unfold e. by rewrite !reg_set_ne.
Qed.

Lemma pushed_app mm sp a b : pushed mm sp (a ++ b) ↔ pushed mm sp a ∧ pushed mm (sp - 8 * Z.of_nat (length a)) b.
Proof.
  split.
  - intros H. split; intros i v Hi.
    + apply H. by apply lookup_app_l_Some.
    + assert ((a ++ b) !! (length a + i)%nat = Some v) as Hv by (rewrite lookup_app_r by lia; by replace (length a + i - length a)%nat with i by lia).
      rewrite <- (H _ _ Hv). f_equal. lia.
  - intros [Ha Hb] i v [Hi|[Hi Hv]]%lookup_app_Some; [by apply Ha|]. rewrite <- (Hb _ _ Hv). f_equal. lia.
Qed.

(** More words below those that are there. *)
Lemma push_all_below vs hw m sp :
  reg RSP m = sp - 8 * Z.of_nat (length hw) → 8 * Z.of_nat (length hw + length vs) <= sp < 2 ^ 64 → Forall is_u64 vs → pushed (mem m) sp hw →
  let m' := push_all vs m in
  reg RSP m' = sp - 8 * Z.of_nat (length hw + length vs) ∧ (∀ r, r ≠ RSP → reg r m' = reg r m) ∧ same_control m m'
  ∧ pushed (mem m') sp (hw ++ vs).
Proof.
  intros Hsp Hlo Hvs Hp m'. destruct (push_all_spec vs m) as (P1 & P2 & P3 & P4 & P5); rewrite ?Hsp; [lia|done|].
  rewrite Hsp in P1, P4, P5. split_and!; [unfold m'; lia|done|done|]. apply pushed_app. split; [|exact P4].
  intros i v Hi. pose proof (lookup_lt_Some _ _ _ Hi). rewrite P5; [by apply Hp| |lia].
  change (2 ^ 64) with 18446744073709551616 in *. split; change (2 ^ 64) with 18446744073709551616; lia.
Qed.

(** The state in which the C++ function is called: the words of the frame, first
    pushed first, and the address it returns to below them. *)
Definition called (sp ra : Z) (frame : list Z) (c : Mach) : Prop :=
  reg RSP c = sp - 8 * Z.of_nat (length frame + 1) ∧ pushed (mem c) sp (frame ++ [ra]).
(** The function returns, and leaves the frame. *)
Definition returns (callee : Mach → option Mach) (sp : Z) (frame : list Z) (c : Mach) : Prop :=
  ∃ c', callee c = Some c' ∧ reg RSP c' = sp - 8 * Z.of_nat (length frame) ∧ pushed (mem c') sp frame.

(** A handler: the registers [rs] pushed, the arguments set up, the call, the
    registers popped, the rest. *)
Lemma handler_exec callee ra rs hw args (f : Mach → Mach) tail (v : Reg → Z) e sp :
  RSP ∉ rs → NoDup rs → is_u64 ra → (∀ r, is_u64 (v r)) → reg RSP e = sp - 8 * Z.of_nat (length hw) → pushed (mem e) sp hw →
  (∀ r, r ≠ RSP → reg r e = v r) → 8 * Z.of_nat (length hw + length rs + 1) <= sp < 2 ^ 64 →
  (∀ x q, exec callee ra (args ++ q) x = exec callee ra q (f x)) → (∀ x, reg RSP (f x) = reg RSP x ∧ mem (f x) = mem x) →
  let c := push ra (f (push_all (v <$> rs) e)) in
  called sp ra (hw ++ (v <$> rs)) c ∧ (returns callee sp (hw ++ (v <$> rs)) c → ∃ m2,
    exec callee ra ((Push <$> rs) ++ args ++ [Call] ++ (Pop <$> reverse rs) ++ tail) e = exec callee ra tail m2
    ∧ reg RSP m2 = sp - 8 * Z.of_nat (length hw) ∧ (∀ r, r ∈ rs → reg r m2 = v r) ∧ pushed (mem m2) sp hw).
Proof.
  intros Hrs Hnd Hra Hv Hsp Hp Hr Hlo Hargs Hf c.
  destruct (push_all_below (v <$> rs) hw e sp) as (P1 & P2 & P3 & P4); [done|rewrite length_fmap; lia|by apply Forall_fmap, Forall_true|done|].
  rewrite length_fmap in P1. set (s1 := push_all (v <$> rs) e) in *. destruct (Hf s1) as [F1 F2].
  destruct (push_all_below [ra] (hw ++ (v <$> rs)) (f s1) sp) as (C1 & C2 & C3 & C4);
    [rewrite F1, length_app, length_fmap; lia|rewrite length_app, length_fmap; cbn [length]; lia|by constructor|by rewrite F2|].
  split; [split; [exact C1|exact C4]|]. intros (c' & Hc & Hsp' & Hp').
  rewrite exec_pushes by done. replace ((λ r, reg r e) <$> rs) with (v <$> rs).
  2: { apply list_fmap_ext. intros i r Hi. symmetry. apply Hr. intros ->. apply Hrs. by eapply list_elem_of_lookup_2. }
  fold s1. rewrite Hargs. cbn [app exec exec1]. change (push ra (f s1)) with c. rewrite Hc. cbn [mbind option_bind]. rewrite exec_pops.
  rewrite length_app, length_fmap in Hsp'. destruct (pops_restore rs hw v c' sp) as (Q1 & Q2 & _ & Q4 & _); [done|done|done|done|lia|].
  eexists. split; [reflexivity|]. split_and!; [done|done|]. rewrite Q4. by apply pushed_app in Hp' as [? _].
Qed.

Definition frame_order_apit : list Reg := [RAX; RBX; RCX; RDX; RSI; RDI; RBP; R8; R9; R10; R11; R12; R13; R14; R15].
Definition frame_order_fault : list Reg := [R15; R14; R13; R12; R11; R10; R9; R8; RBP; RSI; RDI; RDX; RCX; RBX; RAX].

Definition machine_words (m : Mach) : Prop := (∀ r, is_u64 (reg r m)) ∧ is_u64 (rip m) ∧ is_u64 (flags m) ∧ is_u64 (cs m) ∧ is_u64 (ss m).

(** What the interrupted code can see of its registers. *)
Definition same_context (m m' : Mach) : Prop :=
  (∀ r, reg r m' = reg r m) ∧ rip m' = rip m ∧ flags m' = flags m ∧ cs m' = cs m ∧ ss m' = ss m.

Lemma interrupt_entry_spec trap error sp handler m :
  machine_words m → Forall is_u64 error → 8 * Z.of_nat (5 + length error) <= sp < 2 ^ 64 →
  let e := interrupt_entry trap error sp handler m in
  reg RSP e = sp - 8 * Z.of_nat (5 + length error) ∧ pushed (mem e) sp (interrupt_words m ++ error) ∧ (∀ r, r ≠ RSP → reg r e = reg r m)
  ∧ flags e = (if trap then flags m else Z.land (flags m) (Z.lnot IF)) ∧ cr2 e = cr2 m.
Proof.
  intros (Hr & Hi & Hf & Hc & Hs) Herr Hsp e.
  destruct (push_all_below (interrupt_words m ++ error) [] (set_reg RSP sp m) sp) as (P1 & P2 & P3 & P4).
  { rewrite reg_set_eq. change (8 * Z.of_nat (length [])) with 0. lia. } { rewrite length_app. cbn [length interrupt_words]. lia. }
  { apply Forall_app. split; [|done]. unfold interrupt_words. rewrite !Forall_cons. split_and!; first [apply Hr|assumption|constructor]. }
  { intros i v Hv. by rewrite lookup_nil in Hv. }
  split_and!.
  - change (reg RSP e) with (reg RSP (push_all (interrupt_words m ++ error) (set_reg RSP sp m))). rewrite P1, length_app. cbn [length interrupt_words]. lia.
  - exact P4.
  - intros r Hne. change (reg r e) with (reg r (push_all (interrupt_words m ++ error) (set_reg RSP sp m))). rewrite P2 by done. by apply reg_set_ne.
  - reflexivity.
  - destruct P3 as (_ & _ & E & _). exact E.
Qed.

Lemma iretq_context m c sp :
  machine_words m → pushed (mem c) sp (interrupt_words m) → reg RSP c = sp - 40 → 40 <= sp < 2 ^ 64 →
  (∀ r, r ≠ RSP → reg r c = reg r m) → same_context m (iretq c).
Proof.
  intros _ Hp Hsp Hlo Hr. destruct (iretq_spec c sp _ _ _ _ _ Hp Hsp Hlo) as (R1 & R2 & R3 & R4 & R5 & R6 & _).
  split_and!; [|assumption..]. intros r. destruct (decide (r = RSP)) as [->|Hne]; [exact R5|]. rewrite R6 by done. by apply Hr.
Qed.

Lemma frame_orders_all r : r ≠ RSP → r ∈ frame_order_apit ∧ r ∈ frame_order_fault.
Proof. intros H. split; apply (bool_decide_unpack _); destruct r; solve [reflexivity|contradiction]. Qed.

Lemma flags_push v m : flags (push v m) = flags m.
Proof. done. Qed.
Lemma flags_set_reg r v m : flags (set_reg r v m) = flags m.
Proof. done. Qed.
Lemma if_cleared f : Z.land (Z.land f (Z.lnot IF)) IF = 0.
Proof. rewrite <- Z.land_assoc, (Z.land_comm (Z.lnot IF)), Z.land_lnot_diag. apply Z.land_0_r. Qed.
Lemma apitHandler_parts : apitHandler_ = (Push <$> frame_order_apit) ++ [Mov RSP RDI] ++ [Call] ++ (Pop <$> reverse frame_order_apit) ++ [IRetQ].
Proof. reflexivity. Qed.
Lemma pageFaultHandler_parts :
  pageFaultHandler_ = (Push <$> frame_order_fault) ++ [MovFromCr2 RDI; Mov RSP RSI] ++ [Call] ++ (Pop <$> reverse frame_order_fault) ++ [AddImm 8 RSP; IRetQ].
Proof. reflexivity. Qed.

Section interrupts.
Context (callee : Mach → option Mach) (ra : Z) (Hra : is_u64 ra).

(** a timer interrupt is invisible to the code it interrupts.  [apitHandler_]
    calls the C++ handler with interrupts off and [%rdi] at the saved registers; if
    the handler returns and leaves them, every register, the flags, the stack and the
    instruction pointer are those of the moment of the interrupt, wherever it came. *)
Theorem apitHandler_transparent m sp handler :
  machine_words m → 8 * 21 <= sp < 2 ^ 64 →
  (∀ c, called sp ra (interrupt_words m ++ ((λ r, reg r m) <$> frame_order_apit)) c → reg RDI c = sp - 160 → Z.land (flags c) IF = 0 →
    returns callee sp (interrupt_words m ++ ((λ r, reg r m) <$> frame_order_apit)) c) →
  ∃ m', exec callee ra apitHandler_ (interrupt_entry false [] sp handler m) = Some m' ∧ same_context m m'.
Proof using Hra.
  intros Hm Hsp Hcallee. destruct (interrupt_entry_spec false [] sp handler m) as (E1 & E2 & E3 & E4 & _); [done|constructor|cbn [length]; lia|].
  cbn zeta in *. set (e := interrupt_entry false [] sp handler m) in *. clearbody e. rewrite app_nil_r in E2. pose proof (proj1 Hm) as Hregs.
  destruct (handler_exec callee ra frame_order_apit (interrupt_words m) [Mov RSP RDI] (λ x, set_reg RDI (reg RSP x) x) [IRetQ] (λ r, reg r m) e sp)
    as [Hc Hex]; [by apply (bool_decide_unpack _)|by apply (bool_decide_unpack _)|assumption..| | | |].
  { change (8 * 21 <= sp < 2 ^ 64). lia. }
  { reflexivity. }
  { intros x. split; [by apply reg_set_ne|reflexivity]. }
  destruct (push_all_below ((λ r, reg r m) <$> frame_order_apit) (interrupt_words m) e sp) as (P1 & _ & (_ & P3 & _) & _);
    [done|change (length _ + length _)%nat with 20%nat; lia|by apply Forall_fmap, Forall_true|done|].
  change (length (interrupt_words m) + _)%nat with 20%nat in P1.
  set (x := push_all ((λ r, reg r m) <$> frame_order_apit) e) in *. clearbody x. cbv beta zeta in Hc, Hex.
  destruct Hex as (m2 & Hex & S2 & R2 & W2).
  { apply Hcallee; [exact Hc| |].
    - etrans; [exact (reg_push_ne RDI _ _ ltac:(discriminate))|]. etrans; [exact (reg_set_eq RDI _ _)|]. rewrite P1. lia.
    - rewrite flags_push, flags_set_reg, P3, E4. apply if_cleared. }
  exists (iretq m2). split; [rewrite apitHandler_parts; exact Hex|]. apply (iretq_context m m2 sp); [done|done|exact S2|lia|].
  intros r Hr. apply R2. by apply frame_orders_all.
Qed.

(** C20: a page fault is invisible to the code that faults, which runs again from the
    same state.  [pageFaultHandler_] calls the C++ handler with the faulting address
    and a pointer to the frame, in the order of [PageFaultTrapFrame], with interrupts
    as they were; if the handler returns and leaves the frame, every register, the flags,
    the stack and the instruction pointer are those of the fault: the error code is popped. *)
Theorem pageFaultHandler_transparent m sp handler error :
  machine_words m → is_u64 error → 8 * 22 <= sp < 2 ^ 64 →
  (∀ c, called sp ra (interrupt_words m ++ error :: ((λ r, reg r m) <$> frame_order_fault)) c → reg RDI c = cr2 m → reg RSI c = sp - 168 →
    flags c = flags m → returns callee sp (interrupt_words m ++ error :: ((λ r, reg r m) <$> frame_order_fault)) c) →
  ∃ m', exec callee ra pageFaultHandler_ (interrupt_entry true [error] sp handler m) = Some m' ∧ same_context m m'.
Proof using Hra.
  intros Hm Herr Hsp Hcallee. change (2 ^ 64) with 18446744073709551616 in *.
  destruct (interrupt_entry_spec true [error] sp handler m) as (E1 & E2 & E3 & E4 & E5); [done|by constructor|cbn [length]; change (2 ^ 64) with 18446744073709551616; lia|].
  cbn zeta in *. set (e := interrupt_entry true [error] sp handler m) in *. clearbody e. pose proof (proj1 Hm) as Hregs.
  destruct (handler_exec callee ra frame_order_fault (interrupt_words m ++ [error]) [MovFromCr2 RDI; Mov RSP RSI]
    (λ x, set_reg RSI (reg RSP x) (set_reg RDI (cr2 x) x)) [AddImm 8 RSP; IRetQ] (λ r, reg r m) e sp)
    as [Hc Hex]; [by apply (bool_decide_unpack _)|by apply (bool_decide_unpack _)|assumption..| | | |].
  { change (2 ^ 64) with 18446744073709551616. change (8 * 22 <= sp < 18446744073709551616). lia. }
  { intros x q. cbn [app exec exec1 mbind option_bind]. rewrite reg_set_ne by discriminate. reflexivity. }
  { intros x. split; [by rewrite !reg_set_ne|reflexivity]. }
  rewrite <- app_assoc in Hc, Hex. cbn [app] in Hc, Hex.
  destruct (push_all_below ((λ r, reg r m) <$> frame_order_fault) (interrupt_words m ++ [error]) e sp) as (P1 & _ & (_ & P3 & P4 & _) & _);
    [done|change (length _ + length _)%nat with 21%nat; change (2 ^ 64) with 18446744073709551616; lia|by apply Forall_fmap, Forall_true|done|].
  change (length (interrupt_words m ++ [error]) + _)%nat with 21%nat in P1.
  set (x := push_all ((λ r, reg r m) <$> frame_order_fault) e) in *. clearbody x. cbv beta zeta in Hc, Hex.
  destruct Hex as (m2 & Hex & S2 & R2 & W2).
  { apply Hcallee; [exact Hc|..].
    - etrans; [exact (reg_push_ne RDI _ _ ltac:(discriminate))|]. etrans; [exact (reg_set_ne RDI RSI _ _ ltac:(discriminate))|].
      etrans; [exact (reg_set_eq RDI _ _)|]. etrans; [exact P4|exact E5].
    - etrans; [exact (reg_push_ne RSI _ _ ltac:(discriminate))|]. etrans; [exact (reg_set_eq RSI _ _)|]. rewrite P1. lia.
    - by rewrite flags_push, !flags_set_reg, P3, E4. }
  exists (iretq (set_reg RSP (sp - 40) m2)). split.
  - rewrite pageFaultHandler_parts. etrans; [exact Hex|]. cbn [exec exec1 mbind option_bind]. rewrite S2. change (length (interrupt_words m ++ [error])) with 6%nat.
    replace (u64 (sp - 8 * Z.of_nat 6 + 8)) with (sp - 40) by word_lia. reflexivity.
  - apply (iretq_context m _ sp); [done|by apply pushed_app in W2 as [? _]|by apply reg_set_eq|change (2 ^ 64) with 18446744073709551616; lia|].
    intros r Hr. rewrite reg_set_ne by done. apply R2. by apply frame_orders_all.
Qed.
End interrupts.

(** ** System calls *)

(** [SyscallFrame], from the word the pointer points to up. *)
Definition SyscallFrame : list Reg := [RAX; RBX; RCX; RDX; RSI; RDI; RBP; R8; R9; R10; R11; R12; R13; R14; R15].

Lemma rsp_not_in_frame : RSP ∉ SyscallFrame.
Proof. by apply (bool_decide_unpack _). Qed.
Lemma resume_parts : resume_syscall_ = [Mov RDI RSP] ++ (Pop <$> SyscallFrame) ++ [LoadAt RSP RSP; SysRetQ].
Proof. reflexivity. Qed.

Section syscalls.
Context (callee : Mach → option Mach) (ra : Z).

(** A state that goes on in user mode: the registers [f], except [%rsp]. *)
Definition in_user (f : Reg → Z) (usp : Z) (m' : Mach) : Prop :=
  (∀ r, r ∈ SyscallFrame → reg r m' = f r) ∧ reg RSP m' = usp ∧ rip m' = f RCX ∧ flags m' = f R11 ∧ cs m' = USER_CS ∧ ss m' = USER_CS - 8.

Lemma exec_resume c base (f : Reg → Z) usp :
  reg RDI c = base → 0 <= base → base + 128 < 2 ^ 64 → (∀ i r, SyscallFrame !! i = Some r → load64 (mem c) (base + 8 * Z.of_nat i) = f r) →
  load64 (mem c) (base + 120) = usp →
  ∃ m', exec callee ra resume_syscall_ c = Some m' ∧ in_user f usp m' ∧ mem m' = mem c.
Proof using Type.
  intros Hdi H0 Hhi Hf Hu. rewrite resume_parts, exec_app. set (c1 := set_reg RSP base c).
  assert (exec callee ra [Mov RDI RSP] c = Some c1) as -> by (cbn [exec exec1 mbind option_bind]; by rewrite Hdi).
  cbn [mbind option_bind]. rewrite exec_pops.
  assert (reg RSP c1 = base) as Esp by exact (reg_set_eq RSP base c).
  destruct (pop_all_spec SyscallFrame c1) as (P1 & P2 & P3 & P4 & P5); rewrite ?Esp; [lia|change (length SyscallFrame) with 15%nat; lia|by apply (bool_decide_unpack _)..|].
  rewrite Esp in P1, P3. change (mem c1) with (mem c) in P3, P5. change (8 * Z.of_nat (length SyscallFrame)) with 120 in P1.
  set (c2 := pop_all SyscallFrame c1) in *. clearbody c2. cbn [exec exec1 mbind option_bind]. eexists. split; [reflexivity|].
  assert (∀ r, r ∈ SyscallFrame → reg r c2 = f r) as Hr.
  { intros r [i Hi]%list_elem_of_lookup. rewrite (P3 i r Hi). by apply Hf. }
  assert (∀ r, r ≠ RSP → reg r (set_reg RSP (load64 (mem c2) (reg RSP c2)) c2) = reg r c2) as Hne by (intros r Hr'; by apply reg_set_ne).
  split; [|exact P5]. unfold in_user. split_and!; try reflexivity.
  - intros r Hin. rewrite reg_ss, reg_cs, reg_flags, reg_rip, Hne; [by apply Hr|]. intros ->. by apply rsp_not_in_frame in Hin.
  - rewrite reg_ss, reg_cs, reg_flags, reg_rip. rewrite reg_set_eq, P1, P5. exact Hu.
  - etrans; [apply Hne; discriminate|]. apply Hr. by apply (bool_decide_unpack _).
  - etrans; [apply Hne; discriminate|]. apply Hr. by apply (bool_decide_unpack _).
Qed.

Lemma syscallHandler_parts :
  syscallHandler_ = [StoreGs RAX PERCORE_TSS_RSP2; StoreGs RSP PERCORE_TSS_RSP1; LoadGs PERCORE_TSS_RSP0 RSP; LoadGs PERCORE_TSS_RSP1 RAX]
    ++ (Push <$> RAX :: reverse (drop 1 SyscallFrame))
    ++ [LoadGs PERCORE_TSS_RSP2 RAX; Push RAX; Mov RSP RDI; Call; StoreAt RAX RSP; Mov RSP RDI] ++ resume_syscall_.
Proof. reflexivity. Qed.

(** The scratch words of the core, and its stack. *)
Definition core_ok (m : Mach) (top : Z) : Prop :=
  load64 (mem m) (gsbase m + PERCORE_TSS_RSP0) = top ∧ 0 <= gsbase m ∧ gsbase m + 68 <= 2 ^ 64 ∧ 136 <= top < 2 ^ 64
  ∧ (gsbase m + 68 <= top - 136 ∨ top <= gsbase m + 44).

(** The words of the frame of a call, the first pushed first. *)
Definition syscall_words (m : Mach) : list Z := reg RSP m :: ((λ r, reg r m) <$> reverse SyscallFrame).

Lemma mem_set_reg r v m : mem (set_reg r v m) = mem m.
Proof. done. Qed.
Lemma gsbase_set_reg r v m : gsbase (set_reg r v m) = gsbase m.
Proof. done. Qed.

Lemma exec_load_gs off r p m : exec callee ra (LoadGs off r :: p) m = exec callee ra p (set_reg r (load64 (mem m) (u64 (gsbase m + off))) m).
Proof using Type. done. Qed.
Lemma exec_push r p m : exec callee ra (Push r :: p) m = exec callee ra p (push (reg r m) m).
Proof using Type. done. Qed.
Lemma exec_mov a b p m : exec callee ra (Mov a b :: p) m = exec callee ra p (set_reg b (reg a m) m).
Proof using Type. done. Qed.

(** To the stack of the kernel, through the scratch words. *)
Lemma exec_syscall_stack e top prog :
  (∀ r, is_u64 (reg r e)) → core_ok e top →
  ∃ s, exec callee ra ([StoreGs RAX PERCORE_TSS_RSP2; StoreGs RSP PERCORE_TSS_RSP1; LoadGs PERCORE_TSS_RSP0 RSP; LoadGs PERCORE_TSS_RSP1 RAX] ++ prog) e
      = exec callee ra prog s
    ∧ reg RSP s = top ∧ reg RAX s = reg RSP e ∧ (∀ r, r ≠ RSP → r ≠ RAX → reg r s = reg r e)
    ∧ load64 (mem s) (gsbase e + PERCORE_TSS_RSP2) = reg RAX e ∧ flags s = flags e ∧ gsbase s = gsbase e.
Proof using Type.
  intros Hr (Htop & Hg0 & Hg1 & Ht & Hcut). unfold PERCORE_TSS_RSP0, PERCORE_TSS_RSP1, PERCORE_TSS_RSP2 in *. change (2 ^ 64) with 18446744073709551616 in *.
  assert (∀ k, 44 <= k <= 60 → in_mem (gsbase e + k) ∧ u64 (gsbase e + k) = gsbase e + k) as Hgs.
  { intros k Hk. split; [split; change (2 ^ 64) with 18446744073709551616; lia|word_lia]. }
  set (mm := store64 (gsbase e + 52) (reg RSP e) (store64 (gsbase e + 60) (reg RAX e) (mem e))).
  assert (load64 mm (gsbase e + 52) = reg RSP e) as L52 by (apply load_store_eq; [unfold is_u64; lia|apply Hr]).
  assert (load64 mm (gsbase e + 60) = reg RAX e) as L60.
  { unfold mm. rewrite load_store_ne; [apply load_store_eq; [unfold is_u64; lia|apply Hr]|apply Hgs; lia..|unfold apart; lia]. }
  assert (load64 mm (gsbase e + 44) = top) as L44 by (unfold mm; rewrite !load_store_ne; [exact Htop|first [apply Hgs; lia|unfold apart; lia]..]).
  exists (set_reg RAX (reg RSP e) (set_reg RSP top (e .[ mem := mm ]))). split.
  - cbn [app exec exec1 mbind option_bind gsbase mem set_field].
    rewrite (proj2 (Hgs 44 ltac:(lia))), (proj2 (Hgs 52 ltac:(lia))), (proj2 (Hgs 60 ltac:(lia))). rewrite !reg_mem. fold mm.
    cbn [gsbase mem set_field set_reg]. rewrite L44, (proj2 (Hgs 52 ltac:(lia))), L52. reflexivity.
  - rewrite flags_set_reg, flags_set_reg, gsbase_set_reg, gsbase_set_reg, !mem_set_reg, !reg_set_eq, !reg_set_ne, reg_set_eq by discriminate.
    split_and!; [reflexivity..| |exact L60|reflexivity|reflexivity].
    intros r H1 H2. by rewrite !reg_set_ne, reg_mem.
Qed.

(** The registers below the user's stack pointer, the first argument at the frame. *)
Lemma exec_syscall_frame e s top prog :
  (∀ r, is_u64 (reg r e)) → core_ok e top → reg RSP s = top → reg RAX s = reg RSP e → (∀ r, r ≠ RSP → r ≠ RAX → reg r s = reg r e) →
  load64 (mem s) (gsbase s + PERCORE_TSS_RSP2) = reg RAX e → gsbase s = gsbase e →
  ∃ c, exec callee ra ((Push <$> RAX :: reverse (drop 1 SyscallFrame)) ++ [LoadGs PERCORE_TSS_RSP2 RAX; Push RAX; Mov RSP RDI] ++ prog) s = exec callee ra prog c
    ∧ reg RSP c = top - 128 ∧ reg RDI c = top - 128 ∧ pushed (mem c) top (syscall_words e) ∧ flags c = flags s.
Proof using Type.
  intros Hr (_ & Hg0 & Hg1 & Ht & Hcut) Esp Eax Er Hrax Eg. unfold PERCORE_TSS_RSP0, PERCORE_TSS_RSP2 in *. change (2 ^ 64) with 18446744073709551616 in *.
  rewrite exec_pushes by (by apply (bool_decide_unpack _)). set (rs := reverse (drop 1 SyscallFrame)). set (vs := reg RSP e :: ((λ r, reg r e) <$> rs)).
  assert ((λ r, reg r s) <$> RAX :: rs = vs) as ->.
  { rewrite fmap_cons, Eax. unfold vs. f_equal. apply list_fmap_ext. intros i r Hi. apply list_elem_of_lookup_2 in Hi.
    apply Er; intros ->; revert Hi; by apply (bool_decide_unpack _). }
  assert (length vs = 15%nat) as Hl by reflexivity. assert (vs ++ [reg RAX e] = syscall_words e) as Hw by reflexivity.
  assert (Forall is_u64 vs) as Hvs by (constructor; [apply Hr|by apply Forall_fmap, Forall_true]). clearbody vs. clear rs Er.
  destruct (push_all_spec vs s) as (P1 & P2 & P3 & P4 & P5); rewrite ?Esp, ?Hl; [change (2 ^ 64) with 18446744073709551616; lia|done|].
  rewrite Esp in P1, P4, P5. rewrite Hl in P1, P5. change (8 * Z.of_nat 15) with 120 in P1, P5. destruct P3 as (_ & F4 & _ & _ & _ & G4 & _).
  set (s4 := push_all vs s) in *. clearbody s4. set (s5 := set_reg RAX (reg RAX e) s4).
  assert (reg RSP s5 = top - 8 * Z.of_nat (length vs)) as E5 by (unfold s5; rewrite reg_set_ne, P1, Hl by discriminate; reflexivity).
  assert (pushed (mem s5) top vs) as P4' by (unfold s5; rewrite mem_set_reg; exact P4).
  destruct (push_all_below [reg RAX e] vs s5 top E5) as (Q1 & _ & (_ & F5 & _) & Q4);
    [rewrite Hl; change (2 ^ 64) with 18446744073709551616; cbn [length Nat.add]; lia|constructor; [apply Hr|constructor]|exact P4'|].
  rewrite Hl in Q1. rewrite Hw in Q4. change (15 + length [reg RAX e])%nat with 16%nat in Q1. change (push_all [reg RAX e] s5) with (push (reg RAX e) s5) in *.
  assert (reg RAX s5 = reg RAX e) as Ea5 by exact (reg_set_eq RAX _ s4). assert (flags s5 = flags s4) as Ef5 by exact (flags_set_reg RAX _ s4).
  assert (exec callee ra ([LoadGs 60 RAX; Push RAX; Mov RSP RDI] ++ prog) s4
    = exec callee ra prog (set_reg RDI (reg RSP (push (reg RAX e) s5)) (push (reg RAX e) s5))) as Hex.
  { cbn [app]. rewrite exec_load_gs, exec_push, exec_mov, G4, Eg, u64_id by word_lia. rewrite Eg in Hrax.
    rewrite P5; [|split; change (2 ^ 64) with 18446744073709551616; lia|lia]. rewrite Hrax. fold s5. by rewrite Ea5. }
  set (s6 := push (reg RAX e) s5) in *. clearbody s6 s5. exists (set_reg RDI (reg RSP s6) s6). split; [exact Hex|].
  rewrite reg_set_ne, reg_set_eq, Q1, flags_set_reg, mem_set_reg by discriminate. split_and!; [lia|lia|exact Q4|]. by rewrite F5, Ef5, F4.
Qed.
End syscalls.

(** The words of a frame by register. *)
Lemma syscall_words_load e mm top i r :
  pushed mm top (syscall_words e) → SyscallFrame !! i = Some r → load64 mm (top - 128 + 8 * Z.of_nat i) = reg r e.
Proof.
  intros Hp Hi. assert (i < 15)%nat as Hlt by (by apply lookup_lt_Some in Hi).
  replace (top - 128 + 8 * Z.of_nat i) with (top - 8 * Z.of_nat (S (15 - i))) by lia. apply Hp.
  replace (15 - i)%nat with (S (14 - i)) by lia. change (syscall_words e !! S (14 - i)%nat) with (((λ r, reg r e) <$> reverse SyscallFrame) !! (14 - i)%nat).
  rewrite list_lookup_fmap, reverse_lookup by (change (length SyscallFrame) with 15%nat; lia). change (length SyscallFrame) with 15%nat.
  replace (15 - S (14 - i))%nat with i by lia. by rewrite Hi.
Qed.

Section syscall_theorems.
Context (callee : Mach → option Mach) (ra : Z).

(** After the call: the result in the frame, and back to the user. *)
Lemma exec_syscall_return e c' top :
  136 <= top < 2 ^ 64 → reg RSP c' = top - 128 → pushed (mem c') top (syscall_words e) → is_u64 (reg RAX c') →
  ∃ m', exec callee ra ([StoreAt RAX RSP; Mov RSP RDI] ++ resume_syscall_) c' = Some m'
    ∧ in_user (λ r, if decide (r = RAX) then reg RAX c' else reg r e) (reg RSP e) m'.
Proof using Type.
  intros Ht Hsp Hp Hax. change (2 ^ 64) with 18446744073709551616 in *.
  set (c1 := c' .[ mem := store64 (top - 128) (reg RAX c') (mem c') ]). set (c2 := set_reg RDI (top - 128) c1).
  rewrite exec_app. assert (exec callee ra [StoreAt RAX RSP; Mov RSP RDI] c' = Some c2) as ->.
  { cbn [exec exec1 mbind option_bind]. rewrite reg_mem, Hsp. reflexivity. }
  cbn [mbind option_bind].
  assert (∀ a, in_mem a → apart (top - 128) a → load64 (mem c2) a = load64 (mem c') a) as Hne.
  { intros a Ha Hap. unfold c2. rewrite mem_set_reg. apply load_store_ne; [split; change (2 ^ 64) with 18446744073709551616; lia|done|done]. }
  destruct (exec_resume callee ra c2 (top - 128) (λ r, if decide (r = RAX) then reg RAX c' else reg r e) (reg RSP e)) as (m' & He & Hu & _);
    [unfold c2; apply reg_set_eq|lia|change (2 ^ 64) with 18446744073709551616; lia| | |exists m'; exact (conj He Hu)].
  - intros i r Hi. assert (i < 15)%nat as Hlt by (by apply lookup_lt_Some in Hi). destruct i as [|i].
    + injection Hi as <-. rewrite decide_True by done. unfold c2. rewrite mem_set_reg. replace (top - 128 + 8 * Z.of_nat 0) with (top - 128) by lia.
      apply load_store_eq; [unfold is_u64; lia|done].
    + rewrite decide_False. 2: { intros ->. do 14 (destruct i as [|i]; [discriminate Hi|]). lia. }
      rewrite Hne; [by apply (syscall_words_load e)|split; change (2 ^ 64) with 18446744073709551616; lia|unfold apart; lia].
  - rewrite Hne; [|split; change (2 ^ 64) with 18446744073709551616; lia|unfold apart; lia].
    rewrite <- (Hp 0%nat _ eq_refl). f_equal. lia.
Qed.

(** C11: a system call comes back to the program.  The [syscall] instruction enters
    [syscallHandler_], which moves to the stack of the kernel and calls the C++ handler
    with interrupts off and a pointer to the registers of the program, in the order of
    [SyscallFrame], its stack pointer last.  If the handler returns and leaves the frame,
    the program goes on in user mode at the next instruction with the handler's result in [%rax]; its stack,
    flags and registers are those of the call, but for [%rcx] and [%r11], which the instruction takes. *)
Theorem syscall_returns m lstar top :
  let e := syscall_entry lstar m in
  machine_words m → is_u64 ra → core_ok m top →
  (∀ c, called top ra (syscall_words e) c → reg RDI c = top - 128 → Z.land (flags c) IF = 0 →
    ∃ c', callee c = Some c' ∧ reg RSP c' = top - 128 ∧ pushed (mem c') top (syscall_words e) ∧ is_u64 (reg RAX c')) →
  ∃ c c' m', called top ra (syscall_words e) c ∧ callee c = Some c' ∧ exec callee ra syscallHandler_ e = Some m'
    ∧ reg RAX m' = reg RAX c' ∧ rip m' = rip m ∧ flags m' = flags m ∧ cs m' = USER_CS ∧ reg RSP m' = reg RSP m
    ∧ ∀ r, r ∉ [RAX; RCX; R11] → reg r m' = reg r m.
Proof using Type.
  intros e (Hr & Hip & Hfl & _) Hra Hcore Hcallee.
  assert (∀ r, r ∉ [RCX; R11] → reg r e = reg r m) as He.
  { intros r Hin. rewrite !not_elem_of_cons in Hin. destruct Hin as (H1 & H2 & _).
    unfold e, syscall_entry. cbn zeta. by rewrite reg_ss, reg_cs, reg_flags, reg_rip, !reg_set_ne. }
  assert (reg RCX e = rip m ∧ reg R11 e = flags m) as [Hcx H11].
  { unfold e, syscall_entry. cbn zeta. rewrite !reg_ss, !reg_cs, !reg_flags, !reg_rip, !reg_set_eq, flags_set_reg.
    split; [rewrite reg_set_ne by discriminate; apply reg_set_eq|reflexivity]. }
  assert (∀ r, is_u64 (reg r e)) as Hre.
  { intros r. destruct (decide (r = RCX)) as [->|H1]; [by rewrite Hcx|]. destruct (decide (r = R11)) as [->|H2]; [by rewrite H11|].
    rewrite He; [apply Hr|]. rewrite !not_elem_of_cons. split_and!; [done|done|apply not_elem_of_nil]. }
  assert (flags e = Z.land (flags m) (Z.lnot IF)) as Hfe by reflexivity. assert (core_ok e top) as Hce by exact Hcore. clearbody e. clear Hcore.
  pose proof (proj1 (proj2 (proj2 (proj2 Hce)))) as Ht. rewrite syscallHandler_parts.
  destruct (exec_syscall_stack callee ra e top ((Push <$> RAX :: reverse (drop 1 SyscallFrame))
    ++ [LoadGs PERCORE_TSS_RSP2 RAX; Push RAX; Mov RSP RDI; Call; StoreAt RAX RSP; Mov RSP RDI] ++ resume_syscall_) Hre Hce)
    as (s & Hs & S1 & S2 & S3 & S4 & S5 & S6). rewrite <- S6 in S4.
  destruct (exec_syscall_frame callee ra e s top ([Call] ++ [StoreAt RAX RSP; Mov RSP RDI] ++ resume_syscall_) Hre Hce S1 S2 S3 S4 S6)
    as (c0 & Hc0 & C1 & C2 & C3 & C4).
  change (2 ^ 64) with 18446744073709551616 in *.
  destruct (push_all_below [ra] (syscall_words e) c0 top) as (D1 & D2 & (_ & D3 & _) & D4);
    [by rewrite C1|change (2 ^ 64) with 18446744073709551616; change (length (syscall_words e) + length [ra])%nat with 17%nat; lia|by constructor|done|].
  change (push_all [ra] c0) with (push ra c0) in *. set (c := push ra c0) in *.
  assert (called top ra (syscall_words e) c) as Hcalled by (split; [exact D1|exact D4]).
  destruct (Hcallee c) as (c' & Hc & Hsp & Hp & Hax); [done|by rewrite D2|rewrite D3, C4, S5, Hfe; apply if_cleared|].
  destruct (exec_syscall_return e c' top) as (m' & Hex & U1 & U2 & U3 & U4 & U5 & _); [change (2 ^ 64) with 18446744073709551616; lia|done..|].
  exists c, c', m'. split; [done|]. split; [done|]. split.
  { etrans; [exact Hs|]. etrans; [exact Hc0|]. rewrite exec_app. cbn [exec exec1 mbind option_bind]. fold c. rewrite Hc. exact Hex. }
  assert (RSP ∉ [RCX; R11]) as Hrsp by (by apply (bool_decide_unpack _)). rewrite (He RSP Hrsp) in U2. clearbody c. split_and!.
  - rewrite U1 by (by apply (bool_decide_unpack _)). by rewrite decide_True.
  - rewrite U3. by rewrite decide_False.
  - rewrite U4. by rewrite decide_False.
  - exact U5.
  - exact U2.
  - intros r Hin. rewrite !not_elem_of_cons in Hin. destruct Hin as (H1 & H2 & H3 & _). destruct (decide (r = RSP)) as [->|Hne]; [exact U2|].
    rewrite U1.
    * rewrite decide_False by done. apply He. rewrite !not_elem_of_cons. split_and!; [done|done|apply not_elem_of_nil].
    * exact (proj1 (frame_orders_all r Hne)).
Qed.

(** [resume_syscall_] starts user code from a frame.  The program runs at the
    address in the frame's [rcx] with the flags in its [r11] and every register of the
    frame: the child of a fork, given a copy of its parent's frame, returns from the same call. *)
Theorem resume_starts_user c base m usp :
  reg RDI c = base → 0 <= base → base + 128 < 2 ^ 64 →
  (∀ i r, SyscallFrame !! i = Some r → load64 (mem c) (base + 8 * Z.of_nat i) = reg r m) → load64 (mem c) (base + 120) = usp →
  ∃ m', exec callee ra resume_syscall_ c = Some m' ∧ (∀ r, r ≠ RSP → reg r m' = reg r m) ∧ reg RSP m' = usp
    ∧ rip m' = reg RCX m ∧ flags m' = reg R11 m ∧ cs m' = USER_CS ∧ mem m' = mem c.
Proof using Type.
  intros H1 H2 H3 H4 H5. destruct (exec_resume callee ra c base (λ r, reg r m) usp H1 H2 H3 H4 H5) as (m' & He & (U1 & U2 & U3 & U4 & U5 & _) & Hm).
  exists m'. split_and!; [done| |done..]. intros r Hr. apply U1. exact (proj1 (frame_orders_all r Hr)).
Qed.
End syscall_theorems.

(** ** Bytes *)

Lemma rep_step_up m : Z.land (flags m) DF = 0 → rep_step m = 1.
Proof. intros H. unfold rep_step. by rewrite H. Qed.

(** One turn upwards. *)
Definition movsb (m : Mach) : Mach :=
  set_reg RCX (u64 (reg RCX m - 1)) (set_reg RSI (u64 (reg RSI m + 1)) (set_reg RDI (u64 (reg RDI m + 1))
    (m .[ mem := fun x => if x =? reg RDI m then mem m (reg RSI m) else mem m x ]))).
Definition stosb (m : Mach) : Mach :=
  set_reg RCX (u64 (reg RCX m - 1)) (set_reg RDI (u64 (reg RDI m + 1))
    (m .[ mem := fun x => if x =? reg RDI m then u8 (reg RAX m) else mem m x ])).

Lemma rep_movsb_S n m : Z.land (flags m) DF = 0 → rep_movsb (S n) m = rep_movsb n (movsb m).
Proof.
  intros H. cbn [rep_movsb]. cbv zeta. f_equal. rewrite !(rep_step_up (set_reg _ _ _)), !(rep_step_up (_ .[ mem := _ ])) by (rewrite ?flags_set_reg; exact H).
  rewrite !reg_mem. unfold movsb. rewrite !(reg_set_ne RCX) by discriminate. rewrite !reg_mem. rewrite (reg_set_ne RSI RDI) by discriminate. by rewrite reg_mem.
Qed.
Lemma rep_stosb_S n m : Z.land (flags m) DF = 0 → rep_stosb (S n) m = rep_stosb n (stosb m).
Proof.
  intros H. cbn [rep_stosb]. cbv zeta. f_equal. rewrite !(rep_step_up (_ .[ mem := _ ])) by exact H.
  rewrite !reg_mem. unfold stosb. rewrite !(reg_set_ne RCX) by discriminate. by rewrite !reg_mem.
Qed.

Lemma rep_movsb_spec n : ∀ m d s,
  reg RDI m = d → reg RSI m = s → 0 <= d → d + Z.of_nat n < 2 ^ 64 → 0 <= s → s + Z.of_nat n < 2 ^ 64 → Z.land (flags m) DF = 0 →
  d <= s ∨ s + Z.of_nat n <= d →
  (∀ x, mem (rep_movsb n m) x = if (d <=? x) && (x <? d + Z.of_nat n) then mem m (s + (x - d)) else mem m x)
  ∧ (∀ r, r ∉ [RDI; RSI; RCX] → reg r (rep_movsb n m) = reg r m).
Proof.
  induction n as [|n IH]; intros m d s Hd Hs H0 H1 H2 H3 Hdf Hov.
  - split; [|done]. intros x. destruct (Z.leb_spec d x), (Z.ltb_spec x (d + Z.of_nat 0)); cbn [andb rep_movsb]; try done. lia.
  - change (2 ^ 64) with 18446744073709551616 in *. rewrite rep_movsb_S by done.
    assert (reg RDI (movsb m) = d + 1) as Ed.
    { unfold movsb. rewrite (reg_set_ne RDI RCX), (reg_set_ne RDI RSI), reg_set_eq, Hd by discriminate. word_lia. }
    assert (reg RSI (movsb m) = s + 1) as Es.
    { unfold movsb. rewrite (reg_set_ne RSI RCX), reg_set_eq, Hs by discriminate. word_lia. }
    assert (∀ x, mem (movsb m) x = if x =? d then mem m s else mem m x) as Em.
    { intros x. unfold movsb. rewrite !mem_set_reg. rewrite <- Hd, <- Hs. reflexivity. }
    assert (flags (movsb m) = flags m) as Ef by (unfold movsb; by rewrite !flags_set_reg).
    destruct (IH (movsb m) (d + 1) (s + 1)) as [M R]; [done|done|lia|change (2 ^ 64) with 18446744073709551616; lia|lia
      |change (2 ^ 64) with 18446744073709551616; lia|by rewrite Ef|lia|]. split.
    + intros x. rewrite M, !Em. replace (s + 1 + (x - (d + 1))) with (s + (x - d)) by lia.
      destruct (Z.leb_spec (d + 1) x), (Z.ltb_spec x (d + 1 + Z.of_nat n)), (Z.leb_spec d x), (Z.ltb_spec x (d + Z.of_nat (S n)));
        cbn [andb]; try lia; destruct (Z.eqb_spec x d), (Z.eqb_spec (s + (x - d)) d); first [lia|done|f_equal; lia].
    + intros r Hr. rewrite R by done. rewrite !not_elem_of_cons in Hr. destruct Hr as (? & ? & ? & _). unfold movsb. by rewrite !reg_set_ne, reg_mem.
Qed.

Lemma rep_stosb_spec n : ∀ m d,
  reg RDI m = d → 0 <= d → d + Z.of_nat n < 2 ^ 64 → Z.land (flags m) DF = 0 →
  (∀ x, mem (rep_stosb n m) x = if (d <=? x) && (x <? d + Z.of_nat n) then u8 (reg RAX m) else mem m x)
  ∧ (∀ r, r ∉ [RDI; RCX] → reg r (rep_stosb n m) = reg r m).
Proof.
  induction n as [|n IH]; intros m d Hd H0 H1 Hdf.
  - split; [|done]. intros x. destruct (Z.leb_spec d x), (Z.ltb_spec x (d + Z.of_nat 0)); cbn [andb rep_stosb]; try done. lia.
  - change (2 ^ 64) with 18446744073709551616 in *. rewrite rep_stosb_S by done.
    assert (reg RDI (stosb m) = d + 1) as Ed.
    { unfold stosb. rewrite (reg_set_ne RDI RCX), reg_set_eq, Hd by discriminate. word_lia. }
    assert (∀ x, mem (stosb m) x = if x =? d then u8 (reg RAX m) else mem m x) as Em.
    { intros x. unfold stosb. rewrite !mem_set_reg. by rewrite <- Hd. }
    assert (∀ r, r ∉ [RDI; RCX] → reg r (stosb m) = reg r m) as Er.
    { intros r Hr. rewrite !not_elem_of_cons in Hr. destruct Hr as (? & ? & _). unfold stosb. by rewrite !reg_set_ne, reg_mem. }
    assert (flags (stosb m) = flags m) as Ef by (unfold stosb; by rewrite !flags_set_reg).
    destruct (IH (stosb m) (d + 1)) as [M R]; [done|lia|change (2 ^ 64) with 18446744073709551616; lia|by rewrite Ef|]. split.
    + intros x. rewrite M, !Em. rewrite (Er RAX) by (by apply (bool_decide_unpack _)).
      destruct (Z.leb_spec (d + 1) x), (Z.ltb_spec x (d + 1 + Z.of_nat n)), (Z.leb_spec d x), (Z.ltb_spec x (d + Z.of_nat (S n)));
        cbn [andb]; try lia; destruct (Z.eqb_spec x d); try lia; done.
    + intros r Hr. rewrite R by done. by apply Er.
Qed.

(** The caller's return address is not in the bytes written. *)
Definition return_ok (m : Mach) : Prop :=
  is_u64 (reg RSP m) ∧ cut (reg RDI m) (reg RDI m + reg RDX m) (reg RSP m) (reg RSP m + 8) ∧ reg RSP m + 8 < 2 ^ 64.

Lemma load64_ext mm mm' a : is_u64 a → a + 8 < 2 ^ 64 → (∀ x, a <= x < a + 8 → mm x = mm' x) → load64 mm a = load64 mm' a.
Proof.
  intros Ha Ha' H. change (2 ^ 64) with 18446744073709551616 in *. unfold load64, is_u64 in *.
  rewrite !(u64_id (a + _)) by word_lia. by rewrite !H by lia.
Qed.

Section bytes.
Context (callee : Mach → option Mach) (ra : Z).

(** [memcpy] copies: the [n] bytes at the destination are those that were at the
    source, also when the two overlap and the destination is the lower one; no other
    byte changes, whatever the direction flag was, and the call returns the destination. *)
Theorem memcpy_copies m :
  let d := reg RDI m in let s := reg RSI m in let n := reg RDX m in
  0 <= d → 0 <= n → d + n < 2 ^ 64 → 0 <= s → s + n < 2 ^ 64 → d <= s ∨ s + n <= d → return_ok m →
  ∃ m', exec callee ra memcpy m = Some m' ∧ reg RAX m' = d ∧ rip m' = load64 (mem m) (reg RSP m)
    ∧ ∀ x, mem m' x = if (d <=? x) && (x <? d + n) then mem m (s + (x - d)) else mem m x.
Proof using Type.
  intros d s n Hd Hn Hdn Hs Hsn Hov (Hsp & Hcut & Hsp').
  set (m1 := set_reg RCX n (set_reg RAX d (m .[ flags := Z.land (flags m) (Z.lnot DF) ]))).
  assert (exec callee ra memcpy m = exec callee ra [RepMovsb; Ret] m1) as ->.
  { unfold memcpy. cbn [exec exec1 mbind option_bind]. rewrite (reg_set_ne RDX RAX) by discriminate. rewrite !reg_flags. reflexivity. }
  assert (reg RDI m1 = d) as Ed1 by (unfold m1; rewrite !reg_set_ne, reg_flags by discriminate; reflexivity).
  assert (reg RSI m1 = s) as Es1 by (unfold m1; rewrite !reg_set_ne, reg_flags by discriminate; reflexivity).
  assert (Z.land (flags m1) DF = 0) as Df1.
  { unfold m1. rewrite !flags_set_reg. change (Z.land (Z.land (flags m) (Z.lnot DF)) DF = 0). rewrite <- Z.land_assoc, (Z.land_comm (Z.lnot DF)), Z.land_lnot_diag. apply Z.land_0_r. }
  destruct (rep_movsb_spec (Z.to_nat n) m1 d s Ed1 Es1 Hd) as [M R]; rewrite ?Z2Nat.id by done; try assumption.
  rewrite Z2Nat.id in M by done. assert (reg RCX m1 = n) as Ec by (unfold m1; apply reg_set_eq).
  assert (mem m1 = mem m) as Em by (unfold m1; by rewrite !mem_set_reg).
  cbn [exec exec1 mbind option_bind pop]. rewrite Ec. rewrite Em in M. set (m2 := rep_movsb (Z.to_nat n) m1) in *.
  assert (reg RSP m2 = reg RSP m) as Esp by (rewrite R by (by apply (bool_decide_unpack _)); unfold m1; by rewrite !reg_set_ne, reg_flags).
  assert (reg RAX m2 = d) as Eax by (rewrite R by (by apply (bool_decide_unpack _)); unfold m1; rewrite reg_set_ne by discriminate; apply reg_set_eq).
  clearbody m2. eexists. split; [reflexivity|]. split_and!.
  - rewrite reg_rip, reg_set_ne by discriminate. exact Eax.
  - cbn [rip set_field]. rewrite Esp. apply load64_ext; [done|done|]. intros x Hx. rewrite M. unfold cut in Hcut. fold d n in Hcut.
    destruct (Z.leb_spec d x), (Z.ltb_spec x (d + n)); cbn [andb]; try done. lia.
  - exact M.
Qed.

(** [memset] does not store the byte it is given.  It fills the bytes with the
    low byte of the destination address: [rep stosb] stores [%al], which holds the
    destination, and the second argument is never read. *)
Theorem memset_stores_address m :
  let d := reg RDI m in let n := reg RDX m in
  0 <= d → 0 <= n → d + n < 2 ^ 64 → Z.land (flags m) DF = 0 → return_ok m →
  ∃ m', exec callee ra memset m = Some m' ∧ reg RAX m' = d ∧ rip m' = load64 (mem m) (reg RSP m)
    ∧ ∀ x, mem m' x = if (d <=? x) && (x <? d + n) then u8 d else mem m x.
Proof using Type.
  intros d n Hd Hn Hdn Hdf (Hsp & Hcut & Hsp').
  set (m1 := set_reg RCX n (set_reg RAX d m)).
  assert (exec callee ra memset m = exec callee ra [RepStosb; Ret] m1) as ->.
  { unfold memset. cbn [exec exec1 mbind option_bind]. rewrite (reg_set_ne RDX RAX) by discriminate. reflexivity. }
  assert (reg RAX m1 = d) as Eax1 by (unfold m1; rewrite reg_set_ne by discriminate; apply reg_set_eq).
  assert (reg RDI m1 = d) as Ed1 by (unfold m1; rewrite !reg_set_ne by discriminate; reflexivity).
  assert (Z.land (flags m1) DF = 0) as Df1 by (unfold m1; rewrite !flags_set_reg; exact Hdf).
  destruct (rep_stosb_spec (Z.to_nat n) m1 d Ed1 Hd) as [M R]; rewrite ?Z2Nat.id by done; try assumption.
  rewrite Z2Nat.id in M by done. assert (reg RCX m1 = n) as Ec by (unfold m1; apply reg_set_eq).
  assert (mem m1 = mem m) as Em by (unfold m1; by rewrite !mem_set_reg).
  cbn [exec exec1 mbind option_bind pop]. rewrite Ec. rewrite Em, Eax1 in M. set (m2 := rep_stosb (Z.to_nat n) m1) in *.
  assert (reg RSP m2 = reg RSP m) as Esp by (rewrite R by (by apply (bool_decide_unpack _)); unfold m1; by rewrite !reg_set_ne).
  assert (reg RAX m2 = d) as Eax by (rewrite R by (by apply (bool_decide_unpack _)); exact Eax1).
  clearbody m2. eexists. split; [reflexivity|]. split_and!.
  - rewrite reg_rip, reg_set_ne by discriminate. exact Eax.
  - cbn [rip set_field]. rewrite Esp. apply load64_ext; [done|done|]. intros x Hx. rewrite M. unfold cut in Hcut. fold d n in Hcut.
    destruct (Z.leb_spec d x), (Z.ltb_spec x (d + n)); cbn [andb]; try done. lia.
  - exact M.
Qed.
End bytes.

(** [strlen] counts the bytes before the first zero. *)
Lemma strlen_counts m a n : ∀ fuel rax rcx,
  rax = a + rcx → 0 <= rcx <= n → 0 <= a → a + n < 2 ^ 64 → (Z.to_nat (n - rcx) < fuel)%nat →
  (∀ i, 0 <= i < n → m (a + i) ≠ 0) → m (a + n) = 0 → strlen fuel m rax rcx = Some n.
Proof.
  induction fuel as [|fuel IH]; intros rax rcx -> Hrcx Ha Han Hfuel Hnz Hz; [lia|]. change (2 ^ 64) with 18446744073709551616 in *.
  cbn [strlen]. destruct (decide (rcx = n)) as [->|Hne]; [by rewrite Hz|].
  destruct (Z.eqb_spec (m (a + rcx)) 0) as [E|_]; [exfalso; apply (Hnz rcx); [lia|done]|].
  apply IH; [word_lia|word_lia|done|change (2 ^ 64) with 18446744073709551616; lia| |done|done].
  rewrite u64_id by word_lia. lia.
Qed.

(** [switch_to_user] enters a program at its first instruction, on its stack, with
    interrupts on. *)
Lemma switch_to_user_enters callee ra m :
  ∃ m', exec callee ra switch_to_user m = Some m' ∧ rip m' = reg RDI m ∧ reg RSP m' = reg RSI m ∧ flags m' = IF ∧ cs m' = USER_CS
    ∧ mem m' = mem m.
Proof.
  unfold switch_to_user. cbn [exec exec1 mbind option_bind]. eexists. split; [reflexivity|].
  split_and!; reflexivity.
Qed.

(** ** A concrete program and handler *)

Definition demo_program : Mach :=
  mkMach (λ r, match r with RAX => 3 | RDI => 7 | RSP => 3000000 | R11 => 5 | _ => 9 end) 4194304 514 12345 77 0 8192 USER_CS (USER_CS - 8)
    (store64 (8192 + PERCORE_TSS_RSP0) 20000 (λ _, 0)).
(** A function that returns 42. *)
Definition demo_handler (c : Mach) : option Mach := Some (set_reg RAX 42 (pop c).2).

Lemma demo_handler_returns sp ra frame c :
  called sp ra frame c → 8 * Z.of_nat (length frame + 1) <= sp < 2 ^ 64 →
  ∃ c', demo_handler c = Some c' ∧ reg RSP c' = sp - 8 * Z.of_nat (length frame) ∧ pushed (mem c') sp frame ∧ reg RAX c' = 42.
Proof.
  intros [H1 H2] Hsp. change (2 ^ 64) with 18446744073709551616 in *. eexists. split; [reflexivity|]. unfold pop. cbn [snd].
  rewrite reg_set_ne, !reg_set_eq, !mem_set_reg, H1 by discriminate. split_and!; [word_lia|by apply pushed_app in H2 as [? _]|done].
Qed.

Lemma demo_program_words : machine_words demo_program.
Proof.
  assert (∀ v, (0 <=? v) && (v <? 18446744073709551616) = true → is_u64 v) as H by (intros v; rewrite andb_true_iff, Z.leb_le, Z.ltb_lt; done).
  split; [intros r; destruct r; by apply H|]. split; [by apply H|]. split; [by apply H|]. split; by apply H.
Qed.

Lemma syscall_returns_witness :
  ∃ m', exec demo_handler 100 syscallHandler_ (syscall_entry 4096 demo_program) = Some m' ∧ reg RAX m' = 42 ∧ rip m' = 4194304
    ∧ cs m' = USER_CS ∧ reg RSP m' = 3000000 ∧ reg RDI m' = 7.
Proof.
  destruct (syscall_returns demo_handler 100 demo_program 4096 20000) as (c & c' & m' & H0 & Hc & He & Hax & Hip & _ & Hcs & Hsp & Hr).
  - exact demo_program_words.
  - unfold is_u64. lia.
  - split; [unfold demo_program; cbn [mem]; apply load_store_eq; split; vm_compute; congruence|].
    cbn [gsbase demo_program]. change (2 ^ 64) with 18446744073709551616. lia.
  - intros c Hc _ _. destruct (demo_handler_returns _ _ _ _ Hc) as (c' & H1 & H2 & H3 & H4); [split; vm_compute; [discriminate|reflexivity]|].
    exists c'. split_and!; [exact H1|exact H2|exact H3|rewrite H4; unfold is_u64; lia].
  - exists m'. split_and!; [exact He| |exact Hip|exact Hcs|exact Hsp|apply Hr; by apply (bool_decide_unpack _)].
    rewrite Hax. destruct (demo_handler_returns _ _ _ _ H0) as (c2 & H1 & _ & _ & H4); [split; vm_compute; [discriminate|reflexivity]|].
    rewrite Hc in H1. injection H1 as <-. exact H4.
Defined.

Lemma pageFaultHandler_transparent_witness :
  ∃ m', exec demo_handler 100 pageFaultHandler_ (interrupt_entry true [6] 20000 4096 demo_program) = Some m' ∧ same_context demo_program m'.
Proof.
  apply (pageFaultHandler_transparent demo_handler 100 ltac:(unfold is_u64; lia) demo_program 20000 4096 6).
  - exact demo_program_words.
  - unfold is_u64. lia.
  - lia.
  - intros c Hc _ _ _. destruct (demo_handler_returns _ _ _ _ Hc) as (c' & H1 & H2 & H3 & _); [split; vm_compute; [discriminate|reflexivity]|].
    by exists c'.
Defined.
