(* ===== verification/Descriptors.v ===== *)
(** * Descriptor tables ([idt.cc], [per_core.h], [system_main.cc], [core_main.cc])

    The words the kernel writes into the interrupt and the segment descriptor table,
    and how the processor takes them apart ([gate_of], [descriptor_base],
    [descriptor_limit]: the formats of its manual).  Handlers are addresses.  The
    segments of the boot loader and the memory a new table is given are parameters. *)

From S2P Require Import Prelude Machine.

(** ** The interrupt table *)

(** [IdtEntry::set]: the four words of an entry. *)
Definition IdtEntry_set (offset type dpl : Z) : list Z :=
  [Z.lor (u32 (Z.shiftl KERNEL_CS 16)) (u16 offset);
   Z.lor (Z.lor (Z.lor (u32 (Z.shiftl (u16 (Z.shiftr offset 16)) 16)) 0x8000) (u32 (Z.shiftl dpl 13))) (u32 (Z.shiftl type 8));
   u32 (Z.shiftr offset 32);
   0].

Definition new_idt : list (list Z) := replicate 256 [0; 0; 0; 0].
Definition set_entry (index : nat) (e : list Z) (idt : list (list Z)) : option (list (list Z)) :=
  if decide (index < length idt)%nat then Some (<[index := e]> idt) else None.
Definition interrupt (index : nat) (handler : Z) : list (list Z) → option (list (list Z)) := set_entry index (IdtEntry_set handler 0xe 0).
Definition trap (index : nat) (handler dpl : Z) : list (list Z) → option (list (list Z)) := set_entry index (IdtEntry_set handler 0xf dpl).

Definition spurious_index : Z := 50.
Definition APIT_vector : Z := 40.

(** The vectors that the start-up sets ([IDT::init_system], [Pit::init_system],
    [VMM::init_system]), in its order.  [svr] is the spurious vector register. *)
Definition init_idt (svr spurious apit fault : Z) : option (list (list Z)) :=
  idt ← interrupt (Z.to_nat (Z.land svr 0xff)) spurious new_idt;
  idt ← interrupt (Z.to_nat APIT_vector) apit idt;
  trap 14 fault 0 idt.
(** [IDT::init_core]: the register of the core. *)
Definition init_core_svr : Z := Z.lor (Z.shiftl 1 8) spurious_index.

(** A present 64-bit gate. *)
Record Gate := mkGate { g_offset : Z; g_selector : Z; g_type : Z; g_dpl : Z; g_ist : Z }.
Definition gate_of (e : list Z) : option Gate :=
  match e with
  | [d0; d1; d2; _] =>
      if Z.testbit d1 15
      then Some (mkGate (d0 mod 2 ^ 16 + d1 / 2 ^ 16 * 2 ^ 16 + d2 * 2 ^ 32) (d0 / 2 ^ 16) (d1 / 2 ^ 8 mod 16) (d1 / 2 ^ 13 mod 4) (d1 mod 8))
      else None
  | _ => None
  end.

Lemma gate_words hi dpl type : 0 <= hi < 65536 → 0 <= dpl < 4 → 0 <= type < 16 →
  Z.lor (Z.lor (Z.lor (u32 (Z.shiftl hi 16)) 0x8000) (u32 (Z.shiftl dpl 13))) (u32 (Z.shiftl type 8)) = hi * 65536 + 32768 + dpl * 8192 + type * 256.
Proof.
  intros. rewrite !Z.shiftl_mul_pow2, !u32_id by word_lia. change 0x8000 with 32768.
  change (2 ^ 16) with 65536. change (2 ^ 13) with 8192. change (2 ^ 8) with 256.
  replace (hi * 65536) with (hi * 2 ^ 16) by lia. rewrite (lor_disjoint hi 32768) by lia.
  replace (hi * 2 ^ 16 + 32768) with ((2 * hi + 1) * 2 ^ 15) by lia. rewrite (lor_disjoint (2 * hi + 1) (dpl * 8192)) by lia.
  replace ((2 * hi + 1) * 2 ^ 15 + dpl * 8192) with ((8 * hi + 4 + dpl) * 2 ^ 13) by lia. rewrite lor_disjoint by lia. lia.
Qed.

(** The processor reads back what [set] is given. *)
Lemma gate_of_set offset type dpl : is_u64 offset → 0 <= type < 16 → 0 <= dpl < 4 →
  gate_of (IdtEntry_set offset type dpl) = Some (mkGate offset KERNEL_CS type dpl 0).
Proof.
  intros Ho Ht Hd. unfold IdtEntry_set. set (hi := u16 (Z.shiftr offset 16)). assert (0 <= hi < 65536) by (unfold hi; word_lia).
  rewrite gate_words by done. unfold gate_of. rewrite Z.testbit_odd, Z.shiftr_div_pow2 by lia.
  change KERNEL_CS with 40. replace (u32 (Z.shiftl 40 16)) with (40 * 2 ^ 16) by reflexivity. rewrite lor_disjoint by (change (2 ^ 16) with 65536; word_lia).
  change (2 ^ 16) with 65536. change (2 ^ 15) with 32768. change (2 ^ 8) with 256. change (2 ^ 13) with 8192. change (2 ^ 32) with 4294967296.
  assert (Z.odd ((hi * 65536 + 32768 + dpl * 8192 + type * 256) / 32768) = true) as ->.
  { replace ((hi * 65536 + 32768 + dpl * 8192 + type * 256) / 32768) with (1 + 2 * hi) by word_lia. by rewrite Z.odd_add_mul_2. }
  assert (hi = offset / 65536 mod 65536) as Ehi by (unfold hi; rewrite Z.shiftr_div_pow2 by lia; change (2 ^ 16) with 65536; word_lia).
  rewrite Z.shiftr_div_pow2 by lia. change (2 ^ 32) with 4294967296. clearbody hi. do 2 f_equal; word_lia.
Qed.

(** Once the kernel is up, page faults come through a trap gate, which leaves
    interrupts as they are, and the timer through an interrupt gate; programs can use
    neither by hand. *)
Lemma init_idt_gates svr spurious apit fault :
  is_u64 spurious → is_u64 apit → is_u64 fault →
  ∃ idt, init_idt svr spurious apit fault = Some idt
    ∧ (idt !! 14%nat ≫= gate_of) = Some (mkGate fault KERNEL_CS 0xf 0 0)
    ∧ (idt !! 40%nat ≫= gate_of) = Some (mkGate apit KERNEL_CS 0xe 0 0).
Proof.
  intros Hs Ha Hf. assert (0 <= Z.land svr 255 < 256) as Hsvr.
  { change 255 with (Z.ones 8). rewrite Z.land_ones by lia. change (2 ^ 8) with 256. apply Z.mod_pos_bound. lia. }
  unfold init_idt, interrupt, trap, set_entry, APIT_vector. change (length new_idt) with 256%nat.
  rewrite decide_True by lia. cbn [mbind option_bind]. rewrite length_insert. change (length new_idt) with 256%nat.
  rewrite decide_True by lia. cbn [mbind option_bind]. rewrite !length_insert. change (length new_idt) with 256%nat.
  rewrite decide_True by lia. eexists. split; [reflexivity|]. set (t := <[Z.to_nat (Z.land svr 255) := _]> new_idt).
  assert (length t = 256%nat) as Ht by (unfold t; by rewrite length_insert).
  split.
  - rewrite list_lookup_insert_eq by (rewrite length_insert; lia). cbn [mbind option_bind]. by apply gate_of_set.
  - rewrite list_lookup_insert_ne by lia. change (Z.to_nat 40) with 40%nat. rewrite list_lookup_insert_eq by lia. cbn [mbind option_bind]. by apply gate_of_set.
Qed.

(** The handler of spurious interrupts is put at the vector that the register holds
    at start-up; [init_core] then writes another vector there.  When the two differ, that
    vector has no handler. *)
Lemma spurious_vector_empty svr spurious apit fault idt :
  Z.land svr 0xff ≠ spurious_index → init_idt svr spurious apit fault = Some idt →
  (idt !! Z.to_nat (Z.land init_core_svr 0xff) ≫= gate_of) = None.
Proof.
  intros Hne. change (Z.to_nat (Z.land init_core_svr 255)) with 50%nat. unfold spurious_index in Hne.
  assert (0 <= Z.land svr 255) as Hpos by (apply Z.land_nonneg; lia).
  unfold init_idt, interrupt, trap, set_entry, APIT_vector. intros Hidt.
  repeat (case_decide; cbn [mbind option_bind] in Hidt; [|discriminate Hidt]). injection Hidt as <-. rewrite !list_lookup_insert_ne by lia. reflexivity.
Qed.

(** ** The segment table *)

Record TSSDescriptor := mkTSSDescriptor {
  limit_15_0 : Z; base_15_0 : Z; base_23_16 : Z; type : Z; _1 : Z; dpl : Z; P : Z; limit_19_16 : Z; avl : Z; _2 : Z; G : Z;
  base_31_24 : Z; base_63_32 : Z; _3 : Z
}.
Definition TSSDescriptor_init (tss limit : Z) : TSSDescriptor :=
  mkTSSDescriptor (Z.land limit 0xFFFF) (Z.land tss 0xFFFF) (Z.land (Z.shiftr tss 16) 0xFF) 0x9 0 0 1 (Z.land (Z.shiftr limit 16) 0xF) 0 0 1
    (Z.land (Z.shiftr tss 24) 0xFF) (Z.land (Z.shiftr tss 32) 0xFFFFFFFF) 0.

(** Its two words: the fields in order, the bit fields from the low end up. *)
Definition descriptor_words (d : TSSDescriptor) : Z * Z :=
  (limit_15_0 d + base_15_0 d * 2 ^ 16 + base_23_16 d * 2 ^ 32 + type d * 2 ^ 40 + _1 d * 2 ^ 44 + dpl d * 2 ^ 45 + P d * 2 ^ 47
     + limit_19_16 d * 2 ^ 48 + avl d * 2 ^ 52 + _2 d * 2 ^ 53 + G d * 2 ^ 55 + base_31_24 d * 2 ^ 56,
   base_63_32 d + _3 d * 2 ^ 32).

Definition descriptor_base (w0 w1 : Z) : Z := w0 / 2 ^ 16 mod 2 ^ 24 + w0 / 2 ^ 56 mod 2 ^ 8 * 2 ^ 24 + w1 mod 2 ^ 32 * 2 ^ 32.
Definition descriptor_limit (w0 : Z) : Z :=
  let raw := w0 mod 2 ^ 16 + w0 / 2 ^ 48 mod 16 * 2 ^ 16 in
  if Z.testbit w0 55 then raw * 4096 + 4095 else raw.
Definition descriptor_dpl (w0 : Z) : Z := Z.land (Z.shiftr w0 45) 3.

Lemma low_part a b n : 0 <= a < n → (a + n * b) mod n = a.
Proof. intros. rewrite Z.mul_comm, Z.mod_add by lia. by apply Z.mod_small. Qed.
Lemma high_part a b n : 0 <= a < n → (a + n * b) / n = b.
Proof. intros. rewrite Z.mul_comm, Z.div_add by lia. rewrite Z.div_small by lia. lia. Qed.
(** The field at [n], of width [m]. *)
Lemma field_part w a b c n m : w = a + n * (b + m * c) → 0 <= a < n → 0 <= b < m → w / n mod m = b.
Proof. intros -> Ha Hb. rewrite high_part by done. by apply low_part. Qed.

(** The processor finds the segment that [init] is given, but counts its limit in pages. *)
Lemma tss_descriptor_read tss limit :
  is_u64 tss → 0 <= limit < 2 ^ 20 →
  let '(w0, w1) := descriptor_words (TSSDescriptor_init tss limit) in
  descriptor_base w0 w1 = tss ∧ descriptor_limit w0 = limit * 4096 + 4095 ∧ descriptor_dpl w0 = 0 ∧ w0 / 2 ^ 40 mod 16 = 9 ∧ Z.testbit w0 47 = true.
Proof.
  intros Ht Hl. unfold descriptor_words, TSSDescriptor_init. cbn [limit_15_0 base_15_0 base_23_16 type _1 dpl P limit_19_16 avl _2 G base_31_24 base_63_32 _3].
  rewrite !(land_ones_mod _ 16 0xFFFF), !(land_ones_mod _ 8 0xFF), !(land_ones_mod _ 4 0xF), !(land_ones_mod _ 32 0xFFFFFFFF) by (reflexivity || lia).
  rewrite !Z.shiftr_div_pow2 by lia.
  set (l0 := limit mod 2 ^ 16). set (b0 := tss mod 2 ^ 16). set (b1 := tss / 2 ^ 16 mod 2 ^ 8). set (l1 := limit / 2 ^ 16 mod 2 ^ 4).
  set (b2 := tss / 2 ^ 24 mod 2 ^ 8). set (b3 := tss / 2 ^ 32 mod 2 ^ 32).
  assert (0 <= l0 < 65536) by (apply Z.mod_pos_bound; lia). assert (0 <= b0 < 65536) by (apply Z.mod_pos_bound; lia).
  assert (0 <= b1 < 256) by (apply Z.mod_pos_bound; lia). assert (0 <= l1 < 16) by (apply Z.mod_pos_bound; lia).
  assert (0 <= b2 < 256) by (apply Z.mod_pos_bound; lia). assert (0 <= b3 < 4294967296) by (apply Z.mod_pos_bound; lia).
  assert (limit = l0 + l1 * 65536) as El by (unfold l0, l1; change (2 ^ 16) with 65536; change (2 ^ 4) with 16; change (2 ^ 20) with 1048576 in Hl; word_lia).
  assert (tss = b0 + b1 * 65536 + b2 * 16777216 + b3 * 4294967296) as Eb.
  { unfold b0, b1, b2, b3. change (2 ^ 16) with 65536. change (2 ^ 8) with 256. change (2 ^ 24) with 16777216. change (2 ^ 32) with 4294967296. word_lia. }
  clearbody l0 b0 b1 l1 b2 b3. subst limit tss.
  set (w := l0 + _ + _ + _ + _ + _ + _ + _ + _ + _ + _ + _).
  change (2 ^ 16) with 65536 in *. change (2 ^ 24) with 16777216 in *. change (2 ^ 32) with 4294967296 in *. change (2 ^ 40) with 1099511627776 in *.
  change (2 ^ 45) with 35184372088832 in *. change (2 ^ 47) with 140737488355328 in *. change (2 ^ 48) with 281474976710656 in *.
  change (2 ^ 55) with 36028797018963968 in *. change (2 ^ 56) with 72057594037927936 in *. change (2 ^ 8) with 256 in *.
  assert (w mod 65536 = l0) as F0.
  { rewrite <- (low_part l0 (b0 + 65536 * b1 + 16777216 * 9 + 2147483648 * 1 + 4294967296 * l1 + 549755813888 * 1 + 1099511627776 * b2) 65536) by lia. f_equal. unfold w. lia. }
  assert (w / 65536 mod 16777216 = b0 + 65536 * b1) as F1 by (eapply (field_part _ l0 _ (9 + 128 * 1 + 256 * l1 + 32768 * 1 + 65536 * b2)); [unfold w|..]; lia).
  assert (w / 72057594037927936 mod 256 = b2) as F2.
  { apply (field_part _ (l0 + b0 * 65536 + b1 * 4294967296 + 9 * 1099511627776 + 140737488355328 + l1 * 281474976710656 + 36028797018963968) _ 0); [unfold w|..]; lia. }
  assert (w / 281474976710656 mod 16 = l1) as F3.
  { apply (field_part _ (l0 + b0 * 65536 + b1 * 4294967296 + 9 * 1099511627776 + 140737488355328) _ (8 + 16 * b2)); [unfold w|..]; lia. }
  assert (w / 1099511627776 mod 16 = 9) as F4.
  { apply (field_part _ (l0 + b0 * 65536 + b1 * 4294967296) _ (8 + 16 * l1 + 2048 + 4096 * b2)); [unfold w|..]; lia. }
  assert (w / 35184372088832 mod 4 = 0) as F5.
  { apply (field_part _ (l0 + b0 * 65536 + b1 * 4294967296 + 9 * 1099511627776) _ (1 + 2 * l1 + 256 + 512 * b2)); [unfold w|..]; lia. }
  assert (w / 36028797018963968 mod 2 = 1) as F6.
  { apply (field_part _ (l0 + b0 * 65536 + b1 * 4294967296 + 9 * 1099511627776 + 140737488355328 + l1 * 281474976710656) _ b2); [unfold w|..]; lia. }
  assert (w / 140737488355328 mod 2 = 1) as F7.
  { apply (field_part _ (l0 + b0 * 65536 + b1 * 4294967296 + 9 * 1099511627776) _ (l1 + 128 + 256 * b2)); [unfold w|..]; lia. }
  clearbody w. unfold descriptor_base, descriptor_limit, descriptor_dpl.
  rewrite !Z.testbit_odd, !Z.shiftr_div_pow2, (land_ones_mod _ 2 3) by (reflexivity || lia).
  change (2 ^ 16) with 65536. change (2 ^ 24) with 16777216. change (2 ^ 32) with 4294967296. change (2 ^ 40) with 1099511627776.
  change (2 ^ 45) with 35184372088832. change (2 ^ 47) with 140737488355328. change (2 ^ 48) with 281474976710656.
  change (2 ^ 55) with 36028797018963968. change (2 ^ 56) with 72057594037927936. change (2 ^ 8) with 256. change (2 ^ 2) with 4.
  rewrite F0, F1, F2, F3, F4, F5. rewrite !Zodd_mod, F6, F7. cbn [Z.eqb Pos.eqb]. split_and!; [|done..].
  rewrite Z.mul_0_l, Z.add_0_r, (Z.mod_small b3) by lia. lia.
Qed.

(** [system_main]: the table of the boot loader [old], extended by two words a core.
    [fill] is what the new array holds before it is written. *)
Definition DPL3 : Z := 0x0000600000000000.
Definition new_gdt (old fill : list Z) : option (list Z) :=
  o0 ← old !! 0%nat; o5 ← old !! 5%nat; o6 ← old !! 6%nat;
  if decide (7 <= length fill)%nat
  then Some ([o0; Z.lor o5 DPL3; Z.lor o6 DPL3; Z.lor o5 DPL3; Z.lor o6 DPL3; o5; o6] ++ drop 7 fill)
  else None.

(** [core_main]: the descriptor of a core's [TSS], at the index the core's number gives. *)
Definition tss_index (base_tss_index id : nat) : nat := (base_tss_index + 2 * id)%nat.
Definition TSS_size : Z := 104.
Definition load_tss (base_tss_index id : nat) (tss : Z) (gdt : list Z) : option (list Z) :=
  let i := tss_index base_tss_index id in
  let '(w0, w1) := descriptor_words (TSSDescriptor_init tss (TSS_size - 1)) in
  if decide (S i < length gdt)%nat then Some (<[S i := w1]> (<[i := w0]> gdt)) else None.
Fixpoint load_all (base_tss_index : nat) (l : list (nat * Z)) (gdt : list Z) : option (list Z) :=
  match l with
  | [] => Some gdt
  | (id, tss) :: l => gdt ← load_tss base_tss_index id tss gdt; load_all base_tss_index l gdt
  end.

(** The entry a selector names. *)
Definition entry_of (gdt : list Z) (sel : Z) : option Z := gdt !! Z.to_nat (sel / 8).

Lemma dpl3 x : descriptor_dpl (Z.lor x DPL3) = 3.
Proof.
  unfold descriptor_dpl, DPL3. apply Z.bits_inj'. intros n Hn. rewrite Z.land_spec, Z.shiftr_spec, Z.lor_spec by done.
  change 0x0000600000000000 with (Z.shiftl 3 45). rewrite Z.shiftl_spec by lia. replace (n + 45 - 45) with n by lia.
  destruct (Z.testbit 3 n); [by rewrite orb_true_r|apply andb_false_r].
Qed.

(** the selectors fit the table.  [sysret] takes its code and stack segments from
    [STAR] and finds the 64-bit code and data segments of the boot loader at privilege 3, [syscall]
    finds those of the kernel, and the code selectors the rest of the kernel compares with are the same. *)
Lemma segments_agree old fill gdt o5 o6 :
  new_gdt old fill = Some gdt → old !! 5%nat = Some o5 → old !! 6%nat = Some o6 →
  sysret_cs = USER_CS ∧ syscall_cs = KERNEL_CS
  ∧ entry_of gdt sysret_cs = Some (Z.lor o5 DPL3) ∧ entry_of gdt sysret_ss = Some (Z.lor o6 DPL3)
  ∧ entry_of gdt syscall_cs = Some o5 ∧ entry_of gdt (syscall_cs + 8) = Some o6
  ∧ descriptor_dpl (Z.lor o5 DPL3) = 3 ∧ descriptor_dpl (Z.lor o6 DPL3) = 3.
Proof.
  unfold new_gdt. intros H E5 E6. rewrite E5, E6 in H. cbn [mbind option_bind] in H. destruct (old !! 0%nat); [|done]. cbn [mbind option_bind] in H.
  case_decide; [|done]. injection H as <-. split_and!; try reflexivity; apply dpl3.
Qed.

Lemma load_tss_spec base id tss gdt :
  is_u64 tss → (tss_index base id + 1 < length gdt)%nat →
  ∃ gdt' w0 w1, load_tss base id tss gdt = Some gdt' ∧ length gdt' = length gdt
    ∧ gdt' !! tss_index base id = Some w0 ∧ gdt' !! S (tss_index base id) = Some w1
    ∧ descriptor_base w0 w1 = tss ∧ descriptor_limit w0 >= TSS_size - 1 ∧ Z.testbit w0 47 = true
    ∧ ∀ j, j ≠ tss_index base id → j ≠ S (tss_index base id) → gdt' !! j = gdt !! j.
Proof.
  intros Ht Hi. unfold load_tss. pose proof (tss_descriptor_read tss (TSS_size - 1) Ht) as Hr. unfold TSS_size in *.
  destruct (descriptor_words _) as [w0 w1]. destruct Hr as (H1 & H2 & _ & _ & H5); [change (2 ^ 20) with 1048576; lia|].
  rewrite decide_True by lia. eexists _, w0, w1. split; [reflexivity|]. rewrite !length_insert. split_and!; [done| | |done|lia|done|].
  - rewrite list_lookup_insert_ne by lia. apply list_lookup_insert_eq. lia.
  - apply list_lookup_insert_eq. rewrite length_insert. lia.
  - intros j H3 H4. by rewrite !list_lookup_insert_ne by congruence.
Qed.

(** The descriptor of a core is there, in the table. *)
Definition has_tss (base : nat) (gdt : list Z) (id : nat) (tss : Z) : Prop :=
  ∃ w0 w1, gdt !! tss_index base id = Some w0 ∧ gdt !! S (tss_index base id) = Some w1 ∧ descriptor_base w0 w1 = tss
    ∧ descriptor_limit w0 >= TSS_size - 1 ∧ Z.testbit w0 47 = true.

(** cores that are numbered from 0 find their own task state.  Whatever the order
    in which they start, each writes its descriptor inside the table, none overwrites
    that of another or a segment, and the processor reads back the address of its [TSS]. *)
Theorem every_core_has_tss base l gdt :
  NoDup l.*1 → Forall (λ c, is_u64 c.2 ∧ (base + 2 * c.1 + 1 < length gdt)%nat) l →
  ∃ gdt', load_all base l gdt = Some gdt' ∧ length gdt' = length gdt ∧ Forall (λ c, has_tss base gdt' c.1 c.2) l
    ∧ (∀ j, (j < base)%nat → gdt' !! j = gdt !! j).
Proof.
  revert gdt. induction l as [|[id tss] l IH]; intros gdt Hnd Hl; [by exists gdt|].
  apply NoDup_cons in Hnd as [Hid Hnd]. apply Forall_cons in Hl as [[Ht Hlt] Hl]. cbn [fst snd] in *.
  destruct (load_tss_spec base id tss gdt Ht ltac:(unfold tss_index; lia)) as (g1 & w0 & w1 & Hg & Hlen & E0 & E1 & Hb & Hlim & Hp & Hne).
  assert (∀ l' g, id ∉ l'.*1 → NoDup l'.*1 → ∀ g', load_all base l' g = Some g' →
    g' !! tss_index base id = g !! tss_index base id ∧ g' !! S (tss_index base id) = g !! S (tss_index base id)) as Hkeep.
  { clear. induction l' as [|[id' tss'] l' IH]; intros g Hid Hnd g' Hg; [by injection Hg as <-|]. cbn [load_all] in Hg.
    rewrite fmap_cons, not_elem_of_cons in Hid. destruct Hid as [Hne Hid]. cbn [fst] in Hne. apply NoDup_cons in Hnd as [_ Hnd].
    destruct (load_tss base id' tss' g) as [g1|] eqn:E; [|done]. cbn [mbind option_bind] in Hg. destruct (IH g1 Hid Hnd g' Hg) as [-> ->].
    unfold load_tss in E. destruct (descriptor_words _). case_decide; [|done]. injection E as <-. unfold tss_index.
    by rewrite !list_lookup_insert_ne by lia. }
  destruct (IH g1 Hnd) as (g2 & Hg2 & Hlen2 & Hall & Hlow); [rewrite Hlen; done|].
  exists g2. split; [cbn [load_all]; rewrite Hg; exact Hg2|]. split; [congruence|]. split.
  - constructor; [|done]. cbn [fst snd]. destruct (Hkeep l g1 Hid Hnd g2 Hg2) as [K0 K1]. exists w0, w1. rewrite K0, K1. by split_and!.
  - intros j Hj. rewrite Hlow by done. apply Hne; unfold tss_index; lia.
Qed.

Definition demo_gdt : list Z := [0; 1; 2; 3; 4; 0x00af9b000000ffff; 0x00cf93000000ffff] ++ replicate 4 0.
Lemma every_core_has_tss_witness :
  ∃ gdt', load_all 7 [(1%nat, 40000); (0%nat, 30000)] demo_gdt = Some gdt' ∧ has_tss 7 gdt' 0 30000 ∧ has_tss 7 gdt' 1 40000 ∧ gdt' !! 5%nat = demo_gdt !! 5%nat.
Proof.
  destruct (every_core_has_tss 7 [(1%nat, 40000); (0%nat, 30000)] demo_gdt) as (g & H1 & _ & H2 & H3).
  - by apply (bool_decide_unpack _).
  - rewrite !Forall_cons. cbn [fst snd]. unfold is_u64. change (length demo_gdt) with 11%nat. split_and!; (lia || constructor).
  - rewrite !Forall_cons in H2. destruct H2 as (H4 & H5 & _). exists g. split; [exact H1|]. split; [exact H5|]. split; [exact H4|]. apply H3. lia.
Defined.

(** The index is the number of the core in its interrupt controller, not its place in the
    list of cores: one that is not below the number of cores is outside the table. *)
Lemma sparse_core_out_of_table old fill cores gdt id tss :
  new_gdt old fill = Some gdt → length fill = (length old + 2 * cores)%nat → (7 <= length old)%nat → (cores <= id)%nat →
  load_tss (length old) id tss gdt = None.
Proof.
  intros H Hf Ho Hid. unfold load_tss. destruct (descriptor_words _). rewrite decide_False; [done|].
  assert (length gdt = length fill) as Hg.
  { unfold new_gdt in H. destruct (old !! 0%nat), (old !! 5%nat), (old !! 6%nat); cbn [mbind option_bind] in H; try done. case_decide; [|done].
    injection H as <-. cbn [app length]. rewrite length_drop. lia. }
  unfold tss_index. lia.
Qed.
