(* ===== verification/Timer.v ===== *)
(** * The timer ([pit.cc]) and sleeping ([thread.cc])

    The calibration of the core's timer against the old one, the tick and what it does
    to the code it interrupts, and the loop of [Thread::sleep].  What the ports and the
    timer show are parameters: a value for each read. *)

From S2P Require Import Prelude Machine.

Definition PIT_FREQ : Z := 1193182.

Record Pit := mkPit { jiffies : Z; jiffiesPerSecond : Z; apitCounter : Z; n_preempt : Z }.
#[export] Instance eta_Pit : Eta Pit := fun p => mkPit (jiffies p) (jiffiesPerSecond p) (apitCounter p) (n_preempt p).

(** ** Calibration *)

(** The divider, when it fits its register. *)
Definition pit_divider (freq : Z) : Z := let d := freq / 20 in if Z.land d 0xffff =? d then d else 0xffff.

Section calibration.
(** The successive values of port 0x61, and what the timer has counted down to. *)
Context (reads : nat → Z) (current : Z).

Definition level (i : nat) : Z := Z.land (reads i) 0x20.

(** The loop up to [n] changes of the level; the result is the number of reads. *)
Fixpoint wait_changes (fuel : nat) (i : nat) (last changes n : Z) : option nat :=
  match fuel with
  | O => None
  | S fuel =>
      if changes <? n then
        let t := level i in
        if negb (t =? last) then wait_changes fuel (S i) t (changes + 1) n else wait_changes fuel (S i) last changes n
      else Some i
  end.

(** [Pit::init_system]: the writes to the ports, in order, and the state. *)
Definition init_system (fuel : nat) (hz : Z) (p : Pit) : option (list (Z * Z) * Pit) :=
  let d := pit_divider PIT_FREQ in
  let initial := 0xffffffff in
  let writes := [(0x61, 1); (0x43, 182); (0x42, u8 d); (0x42, u8 (Z.shiftr d 8))] in
  _ ← wait_changes fuel 1 (level 0) 0 40;
  let diff := u32 (initial - current) in
  if hz =? 0 then None
  else Some (writes ++ [(0x61, 0)], p .[ apitCounter := diff / hz ] .[ jiffiesPerSecond := hz ]).

(** The changes of level among the reads from the [i]th to before the [j]th. *)
Fixpoint level_changes (i k : nat) : Z :=
  match k with O => 0 | S k => (if level i =? level (S i) then 0 else 1) + level_changes (S i) k end.

(** The device changes level at least once in every [N] reads. *)
Definition toggles (N : nat) : Prop := ∀ i, ∃ k, (k <= N)%nat ∧ level (i + k) ≠ level i.

(** From the read after [i]: the loop ends within the time the changes take, and the
    reads it has made hold exactly that many changes. *)
Lemma wait_changes_ends N : toggles N → ∀ m fuel i changes n,
  n - changes = Z.of_nat m → (m * N < fuel)%nat →
  ∃ k, wait_changes fuel (S i) (level i) changes n = Some (S (i + k)) ∧ (k <= m * N)%nat ∧ level_changes i k = Z.of_nat m.
Proof using Type.
  intros Htog. induction m as [|m IH]; intros fuel i changes n Hm Hfuel.
  - destruct fuel as [|fuel]; [lia|]. exists 0%nat. cbn [wait_changes]. rewrite (proj2 (Z.ltb_ge _ _)) by lia.
    replace (S (i + 0)) with (S i) by lia. split; [done|]. split; [lia|done].
  - (* up to the next change *)
    destruct (Htog i) as (k0 & Hk0 & Hlev).
    assert (∀ q fuel i, (q <= N)%nat → level (i + q) ≠ level i → (q + m * N < fuel)%nat →
      ∃ k, wait_changes fuel (S i) (level i) changes n = Some (S (i + k)) ∧ (k <= q + m * N)%nat ∧ level_changes i k = Z.of_nat (S m)) as Hstep.
    { clear fuel i k0 Hk0 Hlev Hfuel. induction q as [|q IHq]; intros fuel i Hq Hlev Hfuel; [by rewrite Nat.add_0_r in Hlev|].
      destruct fuel as [|fuel]; [lia|]. cbn [wait_changes]. rewrite (proj2 (Z.ltb_lt _ _)) by lia.
      destruct (Z.eqb_spec (level (S i)) (level i)) as [E|E]; cbn [negb].
      - rewrite <- E. destruct (IHq fuel (S i)) as (k & Hk & Hk2 & Hk3); [lia|rewrite E; by replace (S i + q)%nat with (i + S q)%nat by lia|lia|].
        exists (S k). replace (i + S k)%nat with (S i + k)%nat by lia. split; [exact Hk|]. split; [lia|]. cbn [level_changes].
        rewrite E, Z.eqb_refl. exact Hk3.
      - destruct (IH fuel (S i) (changes + 1) n) as (k & Hk & Hk2 & Hk3); [lia|lia|].
        exists (S k). replace (i + S k)%nat with (S i + k)%nat by lia. split; [exact Hk|]. split; [lia|]. cbn [level_changes].
        rewrite (proj2 (Z.eqb_neq (level i) (level (S i)))) by congruence. rewrite Hk3. lia. }
    destruct (Hstep k0 fuel i Hk0 Hlev) as (k & Hk & Hk2 & Hk3); [lia|]. exists k. split; [done|]. split; [lia|done].
Qed.

(** The calibration ends when the old timer works, programs it for 20 Hz within one
    part in 50000, and finds how far the new one counts in a tick. *)
Theorem init_system_calibrates N fuel hz p :
  toggles N → (40 * N < fuel)%nat → 0 < hz → is_u32 current →
  ∃ p', init_system fuel hz p = Some ([(0x61, 1); (0x43, 182); (0x42, 11); (0x42, 233); (0x61, 0)], p')
    ∧ 50000 * Z.abs (PIT_FREQ - 20 * (11 + 256 * 233)) <= PIT_FREQ
    ∧ jiffiesPerSecond p' = hz ∧ apitCounter p' * hz <= 0xffffffff - current < (apitCounter p' + 1) * hz ∧ jiffies p' = jiffies p.
Proof using Type.
  intros Htog Hfuel Hhz Hc. destruct (wait_changes_ends N Htog 40 fuel 0 0 40 eq_refl Hfuel) as (k & Hk & _).
  unfold init_system. rewrite Hk. cbn [mbind option_bind]. rewrite (proj2 (Z.eqb_neq hz 0)) by lia. eexists. split; [reflexivity|].
  split; [vm_compute; discriminate|]. cbn [jiffiesPerSecond apitCounter jiffies set_field]. split; [done|]. split; [|done].
  rewrite u32_id by (unfold is_u32 in *; lia). pose proof (Z.div_mod (0xffffffff - current) hz). pose proof (Z.mod_pos_bound (0xffffffff - current) hz). lia.
Qed.
End calibration.

(** ** The tick *)

(** [apitHandler] on core [id]: [tcb] is the current thread, given by whether it is
    idle.  The result says whether the thread yields. *)
Definition apitHandler (tcb : option bool) (id cs rip : Z) (p : Pit) : option (Pit * bool) :=
  match tcb with
  | None => Some (p, false)
  | Some is_idle =>
      let p := if id =? 0 then p .[ jiffies := u64 (jiffies p + 1) ] else p in
      if cs =? KERNEL_CS then if (2 ^ 64 - 1) / 2 <=? rip then Some (p, false) else None
      else if is_idle then None
      else if negb (cs =? USER_CS) then None
      else if rip <? (2 ^ 64 - 1) / 2 then Some (p .[ n_preempt := u64 (n_preempt p + 1) ], true) else None
  end.

(** The kernel is not preempted, a program is, and the time advances on one core. *)
Theorem apitHandler_preempts_programs idle id rip p :
  (2 ^ 64 - 1) / 2 <= rip → ∃ p', apitHandler (Some idle) id KERNEL_CS rip p = Some (p', false) ∧ n_preempt p' = n_preempt p
    ∧ jiffies p' = if id =? 0 then u64 (jiffies p + 1) else jiffies p.
Proof.
  intros Hrip. unfold apitHandler. rewrite Z.eqb_refl, (proj2 (Z.leb_le _ _) Hrip). eexists. split; [reflexivity|]. by destruct (id =? 0).
Qed.
Theorem apitHandler_yields id rip p :
  rip < (2 ^ 64 - 1) / 2 → ∃ p', apitHandler (Some false) id USER_CS rip p = Some (p', true) ∧ n_preempt p' = u64 (n_preempt p + 1)
    ∧ jiffies p' = if id =? 0 then u64 (jiffies p + 1) else jiffies p.
Proof.
  intros Hrip. unfold apitHandler. cbn [negb]. change (USER_CS =? KERNEL_CS) with false. change (USER_CS =? USER_CS) with true. cbn [negb].
  rewrite (proj2 (Z.ltb_lt _ _) Hrip). eexists. split; [reflexivity|]. by destruct (id =? 0).
Qed.

(** ** [Thread::sleep] *)

Section sleeping.
(** The time at each test of the loop, between which the thread yields. *)
Context (now : nat → Z).

Fixpoint sleep_loop (fuel i : nat) (deadline : Z) : option nat :=
  match fuel with
  | O => None
  | S fuel => if now i <? deadline then sleep_loop fuel (S i) deadline else Some i
  end.
Definition sleep (fuel : nat) (ms start : Z) : option nat := sleep_loop fuel 0 (u64 (ms + start)).

Lemma sleep_loop_ends deadline n : ∀ fuel i, deadline <= now (i + n) → (n < fuel)%nat →
  ∃ j, sleep_loop fuel i deadline = Some j ∧ (i <= j <= i + n)%nat ∧ deadline <= now j ∧ ∀ k, (i <= k < j)%nat → now k < deadline.
Proof using Type.
  induction n as [|n IH]; intros fuel i Hn Hfuel; (destruct fuel as [|fuel]; [lia|]); cbn [sleep_loop]; destruct (Z.ltb_spec (now i) deadline) as [Hlt|Hge].
  - rewrite Nat.add_0_r in Hn. lia.
  - exists i. split; [done|]. split; [lia|]. split; [done|]. intros k Hk. lia.
  - destruct (IH fuel (S i)) as (j & Hj & Hb & Hd & Hbefore); [by replace (S i + n)%nat with (i + S n)%nat by lia|lia|].
    exists j. split; [done|]. split; [lia|]. split; [done|]. intros k Hk. destruct (decide (k = i)) as [->|?]; [done|]. apply Hbefore. lia.
  - exists i. split; [done|]. split; [lia|]. split; [done|]. intros k Hk. lia.
Qed.

(** A thread that sleeps wakes up at the first test at which its time is over: not
    before [ms] ticks have passed, and as soon as they have. *)
Theorem sleep_waits ms start n fuel :
  0 <= ms → 0 <= start → ms + start < 2 ^ 64 → start + ms <= now n → (n < fuel)%nat →
  ∃ j, sleep fuel ms start = Some j ∧ (j <= n)%nat ∧ ms <= now j - start ∧ ∀ k, (k < j)%nat → now k - start < ms.
Proof using Type.
  intros H0 H1 H2 Hn Hfuel. unfold sleep. change (2 ^ 64) with 18446744073709551616 in H2. rewrite u64_id by (unfold is_u64; lia).
  destruct (sleep_loop_ends (ms + start) n fuel 0) as (j & Hj & Hb & Hd & Hbefore); [rewrite Nat.add_0_l; lia|done|].
  exists j. split; [done|]. split; [lia|]. split; [lia|]. intros k Hk. specialize (Hbefore k ltac:(lia)). lia.
Qed.
End sleeping.
